(* ===== verification/_CoqProject ===== *)
-Q . S2P
Prelude.v
Topic.v
Packet.v
State.v
Store.v
Send.v
Messages.v
Db.v
Acl.v
Subs.v
DbInv.v
Session.v
Context.v
Handlers.v
Persist.v
Nodes.v
Snapshot.v
Lifecycle.v
Release.v
Free.v
Serve.v
Resume.v
Connect.v
Broker.v
Runs.v
Restore.v
RestoreTree.v
Roundtrip.v
RoundtripTree.v
Persistence.v
Shutdown.v
Calendar.v
Datetime.v
Client.v
ClientNet.v
ClientQueue.v
ClientOps.v
ClientInv.v
ClientRun.v
ClientProps.v
Exchange.v
Passwd.v
