(* ===== verification/Prelude.v ===== *)
(** * The MQTT broker of blenderbottle: a verification development

    blenderbottle distributes data over an MQTT broker. The broker, mosquitto
    1.4.14 under src/broker/mosquitto, with its client library, is the core of
    the program and the subject of this development; the paths below are
    relative to that directory. It is modelled in the configuration of its
    Makefile: bridges, persistence, the $SYS tree and TLS compiled in,
    websockets, SRV, SOCKS and asynchronous DNS not.

    ** The program

    One process serves many sockets from one loop (src/loop.c). A connection
    is accepted into a context (struct mosquitto; src/net.c, src/context.c).
    Its bytes are put together into packets as they arrive (lib/net_mosq.c)
    and each packet goes to its handler (src/read_handle*.c,
    lib/read_handle_shared.c). CONNECT authenticates the client and enters it
    in the table of clients; SUBSCRIBE and UNSUBSCRIBE change the tree of
    subscriptions (src/subs.c); PUBLISH stores a message (src/database.c),
    finds the matching subscriptions in the tree, and queues the message for
    each of their clients, with a reference count. The loop writes the queues
    out (lib/send_mosq.c, src/send_server.c), retries, expires and frees. Who
    may do what is decided by the access control (src/security.c,
    src/security_default.c). The programs that publish and subscribe use the
    client library, which is built from the files of lib/ and keeps a queue of
    messages for each direction (lib/messages_mosq.c).

    ** The files

    - Prelude.v: codes and integers, the state-and-failure monad [M] with its
      weakest preconditions [wp], generic lemmas and tactics. [None] as the
      result of a run is undefined behaviour or a failed assertion: access
      through a freed pointer, a read or write out of bounds, an [assert], or
      fuel that ran out.
    - Topic.v: lib/util_mosq.c (checks of topics and filters,
      mosquitto_topic_matches_sub) and the tokeniser of src/subs.c, on C
      strings with explicit indices; matching by levels as MQTT defines it.
    - Packet.v: the packet reader and the primitives of payloads.
    - State.v: the records and enumerations of lib/mosquitto_internal.h and
      src/mosquitto_broker.h, and the configuration [env].
    - Store.v: the store of messages, a heap with reference counts.
    - Send.v: the packets sent, the output queue, partial writes.
    - Messages.v: the queue of messages of a client (src/database.c).
    - Db.v: the whole database, and the lifting of operations to it.
    - Acl.v: src/security.c and src/security_default.c.
    - Subs.v: the tree of subscriptions and retained messages.
    - DbInv.v, Session.v: the consistency of messages, queues and tree
      ([broker_ok]) under publishing, subscribing and cleaning up.
    - Context.v, Handlers.v: the definitions of contexts, the passes of the
      main loop and all packet handlers. The handlers use the access control
      through the class [Access]: they are defined, and their theorems hold,
      for any access control that gives an answer. [secured] says that an
      access control is that of Acl.v; [acl_check_defined] and
      [unpwd_check_defined] say when its checks are defined (the password
      check always, the ACL check for rules as the parser makes them and a
      context that points at an entry of the list; that a context keeps such a
      pointer is not part of the invariant of the broker).
    - Lifecycle.v: the invariant of the running broker ([broker_inv]) and the
      disconnection of clients; Release.v: QoS 2 messages; Free.v: the
      freeing of contexts; Serve.v, Resume.v and Connect.v: the handlers, the
      resumption of sessions, the dispatch; Broker.v: accepting, reading,
      writing, the passes of the loop; Runs.v: runs of the broker from
      mqtt3_db_open on; Shutdown.v: the end of [main], the backup included.
    - Persist.v: src/persist.c, the file in which the database is saved,
      through the buffer of stdio, and from which it is restored. Snapshot.v:
      the file as a list of typed chunks, what the writer and the reader do
      with each; Nodes.v: the tree as the list of its nodes; Restore.v and
      RestoreTree.v: what each chunk does to the broker; Roundtrip.v and
      RoundtripTree.v: the phases of restoring (store, sessions, tree);
      Persistence.v: what survives a restart, and what is on the disk after a
      backup.
    - Client.v: the client library built from lib/ without WITH_BROKER
      (lib/mosquitto.c, lib/messages_mosq.c, lib/read_handle.c and what the
      shared files do there). ClientNet.v: what it sends; ClientQueue.v and
      ClientOps.v: its two linked lists of messages and the operations on
      them, as lists ([rep]); ClientInv.v and ClientRun.v: the invariant
      ([client_inv]) under every packet and every call; ClientProps.v: its
      properties; Exchange.v: what it sends as the broker reads it.
    - Passwd.v: the password tool (src/mosquitto_passwd.c), on the bytes of
      the file that Acl.v reads.
    - Datetime.v: src/lib/datetime.c of blenderbottle, on Calendar.v, which has
      what it uses of the C library: [localtime] and [mktime] in any time
      zone, [sprintf], [atoi].

    State is passed explicitly. A pointer is a [positive]; the contexts and
    the stored messages are in finite maps from pointers, so that aliasing,
    dangling pointers and double frees are visible. The nodes of the tree are
    named by their path. A hash table is the list of its entries, in the
    order of insertion; HASH_ITER goes over the entries it found when it
    started.

    ** What is proved

    - Routing: the search of the tree finds exactly the subscriptions whose
      filter matches, and adding and removing refine a finite map from filter
      and client to QoS; the retained message of a topic is the last one.
    - Matching for access control is exact, but for one documented
      divergence; the ACL and password checks decide as specified; a printed
      ACL file is read back.
    - Framing does not depend on how the network cuts the bytes up; the
      reader and the payload primitives stay within their buffers on any
      input; what is sent is the queued packets in order.
    - Queues: every operation is memory safe and ends, counters and reference
      counts are exact, the limits hold, messages due are sent in order; a
      QoS 2 message is released once.
    - The broker as a whole ([broker_run_safe]): every run of the main loop
      that [run_pre] admits, for any number of clients, is free of undefined
      behaviour, ends, and keeps [broker_inv]. [run_pre] excludes reading from
      bridges and three kinds of packets: a PUBLISH of QoS 1 while a refused
      message is pending, with which the broker fails an assertion
      ([refused_message_published]); a CONNECT that takes the id of a bridge;
      and a CONNECT that resumes a session which has a queued incoming message,
      which would be published ([reconnect_publishes_incoming]), or a message
      the client may no longer read, which the handler removes without
      counting.
    - A session that is resumed moves to the new connection: its messages in
      order, those to the client to be sent again from the start or from the
      PUBREL, its subscriptions, its message ids ([session_resumed]).
    - After any such run without bridges, the end of [main] publishes the
      wills, saves the database and frees every context that has an id or a
      socket or waits to be freed, every node of the tree and every stored
      message, each once ([shutdown_safe]).
    - Persistence: a broker that is saved and started again has the sessions
      that were to be kept, with their messages in order
      ([restart_sessions]), the subscriptions of these and the retained
      messages ([restart_tree]), and is consistent but for the counters of the
      queues, which the code does not restore ([restart_consistent]). This
      needs a tree and ids as the handlers make them ([storable]), no refused
      message in a kept session ([savable]) and strings and ids that the
      format can hold ([fits_format]); all three can be decided. Messages of
      $SYS are not saved. A backup that reports a failure leaves the old file
      alone; but a full disk is only noticed when stdio passes on the header or
      the stored messages, and otherwise a file that is cut off replaces the
      old one ([backup_outcome]).
    - The client library ([client_runs_safe]): every sequence of calls, with
      any behaviour of the network, is free of undefined behaviour and keeps
      the queues well formed, if the strings of the CONNECT are below 65536
      bytes and a client does not reconnect while messages wait to be
      released and none waits to be sent; in that case the code
      links the next message into the wrong queue
      ([client_reconnect_mixes]). Publishing, receiving, releasing,
      acknowledging and reconnecting do exactly what is stated for the lists,
      the bytes sent and the callbacks; the limit of messages in flight holds.
      Its CONNECT and PUBLISH are understood by the broker as they were meant,
      however the network cuts them up ([connect_understood],
      [publish_understood]).
    - The password tool and the broker agree: a user whose password was set
      is accepted with it, a deleted one refused, and the others are treated
      as before ([passwd_update_login], [passwd_delete_exact]); the passwords
      of a plain file decide in the same way after it was hashed
      ([passwd_hash_exact]). This is for files of well-formed lines that fit
      the broker's buffer; what other lines do is shown by examples.
    - Dates: conversions to integers and strings and back are inverse to each
      other except in the first hour of the day and in the hour that the end
      of daylight saving repeats; weeks and months begin and
      end where they should; formatting stays within its buffers.
    - Consequences: one connection per client id; the first packet must be a
      CONNECT; listeners' limits; silent clients are freed; nothing refers to
      a freed context.

    ** Fuel and bounds

    Recursion is structural where the code's loop follows a list. Otherwise
    fuel is passed, and the theorems show that it is enough: five digits of a
    remaining length, the number of bytes still to be read, the length of a
    queue (twice, when messages are promoted on the way), the number of
    matching messages for a release, the length of a payload for lists of
    topics, the length of the file for its chunks, the size of the heap for a
    linked list. Integers of the wire format keep their width ([u8], [u16],
    [u32]); topics and payloads are below [SIZE_BOUND], which the reader
    ensures for packets (at most [MAX_BODY] bytes). The [int]s that count
    things in memory (messages of a queue, references to a message, entries of a
    table, persistence changes) are unbounded: a broker with 2^31 of them is not
    modelled.

    ** What is not modelled

    Allocation does not fail; logging and the counters that only feed the
    $SYS tree are omitted; locks do nothing in the broker's single thread;
    guards against NULL arguments no caller passes are omitted. The TLS paths
    of reading, writing and accepting are not modelled: a socket is a script
    of what the next reads and writes do. Random numbers, the identity in a
    peer's certificate, the base64 filter and SHA-512 of OpenSSL are parameters. Not modelled at
    all: the connection of bridges (src/bridge.c), the configuration file
    (src/conf.c), the $SYS tree, websockets, services, the command line
    clients, and of the client library threads and their locks (one thread
    calls it, and the callbacks, which are recorded, do not), loop_forever and
    how a socket is connected, whose outcome is an argument; of the password
    tool its prompts and its backup copy; and the tool that dumps a
    persistence file (src/db_dump). Of the code outside the broker, src/bdwgc
    is a third-party garbage collector, src/lib/log.c and nlog.c write logs, the
    rest is Python and Makefiles.
    The file of src/persist.c is that of a little-endian machine with a 64-bit
    time_t; bytes that are no value of their enumeration are undefined when they
    are read; when the main loop saves is not modelled. [now] of the
    configuration is what mosquitto_time returns, [wall_clock] what time does. *)

From stdpp Require Import base list numbers strings option sets gmap.
From Stdlib Require Import ZArith Lia.

Declare Scope broker_scope.
Delimit Scope broker_scope with broker.

(** ** Return codes ([enum mosq_err_t], lib/mosquitto.h) *)

Definition MOSQ_ERR_CONN_PENDING : Z := -1.
Definition MOSQ_ERR_SUCCESS : Z := 0.
Definition MOSQ_ERR_NOMEM : Z := 1.
Definition MOSQ_ERR_PROTOCOL : Z := 2.
Definition MOSQ_ERR_INVAL : Z := 3.
Definition MOSQ_ERR_NO_CONN : Z := 4.
Definition MOSQ_ERR_CONN_REFUSED : Z := 5.
Definition MOSQ_ERR_NOT_FOUND : Z := 6.
Definition MOSQ_ERR_CONN_LOST : Z := 7.
Definition MOSQ_ERR_TLS : Z := 8.
Definition MOSQ_ERR_PAYLOAD_SIZE : Z := 9.
Definition MOSQ_ERR_NOT_SUPPORTED : Z := 10.
Definition MOSQ_ERR_AUTH : Z := 11.
Definition MOSQ_ERR_ACL_DENIED : Z := 12.
Definition MOSQ_ERR_UNKNOWN : Z := 13.
Definition MOSQ_ERR_ERRNO : Z := 14.

(** ** Machine integers *)

Definition u8 (x : Z) : Z := x `mod` 256.
Definition u16 (x : Z) : Z := x `mod` 65536.
Definition u32 (x : Z) : Z := x `mod` 4294967296.

(** ** Bytes and C strings

    A byte is a [Z] in [0, 255]; a byte buffer is a [list Z]. A C string is
    the list of the bytes before its terminating NUL. *)

Abbreviation bytes := (list Z).

Definition is_byte (b : Z) : Prop := (0 ≤ b < 256)%Z.

(** The bytes of a literal of the source. *)
Fixpoint str (s : string) : bytes :=
  match s with
  | EmptyString => []
  | String a s' => Z.of_nat (Ascii.nat_of_ascii a) :: str s'
  end.

(** What the string functions see of a buffer: the bytes before the first NUL. *)
Fixpoint cstr (b : bytes) : bytes :=
  match b with
  | [] => []
  | c :: b' => if decide (c = 0%Z) then [] else c :: cstr b'
  end.

(** [s[i]] for a C string [s]: the terminator is readable, anything beyond
    it is out of bounds. *)
Definition char_at (s : bytes) (i : nat) : option Z :=
  if decide (i = length s) then Some 0%Z else s !! i.

Definition c_slash : Z := 47.
Definition c_plus : Z := 43.
Definition c_hash : Z := 35.
Definition c_dollar : Z := 36.

(** ** A state monad with undefined behaviour

    [None] is an execution the C standard gives no meaning to: a read
    through a dangling pointer, an access out of bounds or a failed
    [assert]. *)

Definition M (S A : Type) : Type := S → option (A * S).

Definition ret {S A} (a : A) : M S A := λ s, Some (a, s).
Definition bind {S A B} (m : M S A) (k : A → M S B) : M S B :=
  λ s, match m s with Some (a, s') => k a s' | None => None end.
Definition undefined {S A} : M S A := λ _, None.
Definition mget {S} : M S S := λ s, Some (s, s).
Definition mput {S} (s : S) : M S unit := λ _, Some (tt, s).
Definition mmodify {S} (f : S → S) : M S unit := λ s, Some (tt, f s).
Definition mgets {S A} (f : S → A) : M S A := λ s, Some (f s, s).
(** [assert] and pointer dereferences. *)
Definition mlift {S A} (o : option A) : M S A :=
  match o with Some a => ret a | None => undefined end.
Definition massert {S} (b : bool) : M S unit :=
  if b then ret tt else undefined.

Notation "'let*' x ':=' c 'in' k" := (bind c (λ x, k))
  (at level 10, x pattern, k at level 200) : broker_scope.
Notation "c ';;;' k" := (bind c (λ _, k))
  (at level 199, right associativity) : broker_scope.

Lemma bind_assoc {S A B C} (m : M S A) (f : A → M S B) (g : B → M S C) s :
  bind (bind m f) g s = bind m (λ a, bind (f a) g) s.
Proof. unfold bind. by destruct (m s) as [[a s']|]. Qed.

Lemma bind_ext {S A B} (m : M S A) (f g : A → M S B) s :
  (∀ a s', m s = Some (a, s') → f a s' = g a s') → bind m f s = bind m g s.
Proof. intros H. unfold bind. destruct (m s) as [[a s']|]; auto. Qed.

Lemma bind_some {S A B} (m : M S A) (k : A → M S B) s a s' : m s = Some (a, s') → bind m k s = k a s'.
Proof. unfold bind. by intros ->. Qed.

Lemma bind_cong {S A B} (m m' : M S A) (f : A → M S B) s :
  m s = m' s → bind m f s = bind m' f s.
Proof. unfold bind. by intros ->. Qed.

(** [wp m Q s]: running [m] from [s] is defined and ends in a result and a
    state that satisfy [Q]. *)
Definition wp {S A} (m : M S A) (Q : A → S → Prop) (s : S) : Prop :=
  match m s with Some (a, s') => Q a s' | None => False end.

Section wp.
Context {S : Type}.

Lemma wp_ret {A} (a : A) (Q : A → S → Prop) s : Q a s → wp (ret a) Q s.
Proof. done. Qed.

Lemma wp_bind {A B} (m : M S A) (k : A → M S B) Q s :
  wp m (λ a, wp (k a) Q) s → wp (bind m k) Q s.
Proof. unfold wp, bind. by destruct (m s) as [[a s']|]. Qed.

Lemma wp_mono {A} (m : M S A) (P Q : A → S → Prop) s :
  wp m P s → (∀ a s', P a s' → Q a s') → wp m Q s.
Proof. unfold wp. destruct (m s) as [[a s']|]; auto. Qed.

Lemma wp_bind_inv {A B} (m : M S A) (k : A → M S B) Q s :
  wp (bind m k) Q s → wp m (λ a, wp (k a) Q) s.
Proof. unfold wp, bind. by destruct (m s) as [[a s']|]. Qed.

Lemma wp_get (Q : S → S → Prop) s : Q s s → wp mget Q s.
Proof. done. Qed.

Lemma wp_put (Q : unit → S → Prop) s s' : Q tt s' → wp (mput s') Q s.
Proof. done. Qed.

Lemma wp_modify (Q : unit → S → Prop) f s : Q tt (f s) → wp (mmodify f) Q s.
Proof. done. Qed.

Lemma wp_gets {A} (f : S → A) (Q : A → S → Prop) s :
  Q (f s) s → wp (mgets f) Q s.
Proof. done. Qed.

Lemma wp_lift {A} (o : option A) (Q : A → S → Prop) s a :
  o = Some a → Q a s → wp (mlift o) Q s.
Proof. by intros ->. Qed.

Lemma wp_assert b (Q : unit → S → Prop) s :
  b = true → Q tt s → wp (massert b) Q s.
Proof. by intros ->. Qed.

(** A [wp] fact about a run whose outcome is known. *)
Lemma wp_run {A} (m : M S A) Q s a s' :
  wp m Q s → m s = Some (a, s') → Q a s'.
Proof. unfold wp. intros H E. by rewrite E in H. Qed.

Lemma wp_inv {A} (m : M S A) Q s :
  wp m Q s → ∃ a s', m s = Some (a, s') ∧ Q a s'.
Proof. unfold wp. destruct (m s) as [[a s']|]; [eauto|done]. Qed.

Lemma wp_ends (m : M S unit) (Q : S → Prop) s :
  wp m (λ _, Q) s → ∃ s', m s = Some (tt, s') ∧ Q s'.
Proof. intros H. destruct (wp_inv _ _ _ H) as ([] & s' & ? & ?). eauto. Qed.
End wp.

(** One step of a [wp] goal. *)
Ltac wp_step :=
  lazymatch goal with
  | |- wp (bind _ _) _ _ => apply wp_bind
  | |- wp (ret _) _ _ => apply wp_ret
  | |- wp mget _ _ => apply wp_get
  | |- wp (mput _) _ _ => apply wp_put
  | |- wp (mmodify _) _ _ => apply wp_modify
  | |- wp (mgets _) _ _ => apply wp_gets
  | |- wp (if ?b then _ else _) _ _ => destruct b eqn:?
  | |- wp (match ?x with _ => _ end) _ _ => destruct x eqn:?
  | |- wp (let _ := _ in _) _ _ => cbv zeta
  end.
Ltac wp_steps := repeat (wp_step; cbv beta).

(** Decidable facts about concrete values, by evaluation. *)
Ltac by_compute := apply (bool_decide_unpack _); vm_compute; exact I.

(** ** Lemmas on C strings *)

Lemma char_at_lt s i c : s !! i = Some c → char_at s i = Some c.
Proof.
  intros H. unfold char_at. case_decide as E; [|done].
  subst. apply lookup_lt_Some in H. lia.
Qed.

Lemma char_at_end s : char_at s (length s) = Some 0%Z.
Proof. unfold char_at. by rewrite decide_True. Qed.

(** Reading at the start of the suffix that begins at [i]. *)
Lemma char_at_drop s i :
  i ≤ length s → char_at s i = Some (default 0%Z (head (drop i s))).
Proof.
  intros Hi. destruct (decide (i = length s)) as [->|Hne].
  - by rewrite char_at_end, drop_all.
  - destruct (lookup_lt_is_Some_2 s i) as [c Hc]; [lia|].
    rewrite (char_at_lt _ _ _ Hc). by erewrite drop_S by done.
Qed.

Lemma cstr_no_nul b : 0%Z ∉ cstr b.
Proof. induction b as [|c b IH]; simpl; [set_solver|]. case_decide; set_solver. Qed.

Lemma cstr_id b : 0%Z ∉ b → cstr b = b.
Proof.
  induction b as [|c b IH]; simpl; [done|]. intros H.
  rewrite decide_False by set_solver. f_equal. apply IH. set_solver.
Qed.

(** ** Lemmas on lists *)

Lemma filter_all_id {A} (P : A → Prop) `{∀ x, Decision (P x)} (l : list A) :
  Forall P l → filter P l = l.
Proof. induction 1 as [|x l Hx _ IH]; [done|]. by rewrite filter_cons_True, IH. Qed.

Lemma filter_ne_id {A} `{EqDecision A} (x : A) (l : list A) :
  x ∉ l → filter (λ y, y ≠ x) l = l.
Proof. intros Hx. apply filter_all_id, Forall_forall. set_solver. Qed.

Lemma Forall_subseteq {A} (P : A → Prop) (l k : list A) : l ⊆ k → Forall P k → Forall P l.
Proof. rewrite !Forall_forall. set_solver. Qed.

Lemma list_alter_ext_at {A} (f g : A → A) (l : list A) i x :
  l !! i = Some x → f x = g x → alter f i l = alter g i l.
Proof.
  revert i. induction l as [|y l IH]; intros [|i] Hi Hf; try done; cbn in *.
  - simplify_eq. by rewrite Hf.
  - f_equal. by apply IH.
Qed.

Lemma list_alter_fix {A} (f : A → A) (l : list A) i x :
  l !! i = Some x → f x = x → alter f i l = l.
Proof.
  intros Hi Hf. rewrite (list_alter_ext_at f (λ y, y) l i x) by done. by apply list_alter_id.
Qed.

Lemma drop_delete_eq {A} (l : list A) i : drop i (delete i l) = drop (S i) l.
Proof. revert i. induction l as [|x l IH]; intros [|i]; try done. apply IH. Qed.

Lemma elem_of_concat_fmap {A B} (f : A → list B) (l : list A) x :
  x ∈ concat (f <$> l) ↔ ∃ a, a ∈ l ∧ x ∈ f a.
Proof. induction l as [|a l IH]; cbn; set_solver. Qed.

Create HintDb broker discriminated.
#[export] Hint Resolve wp_ret wp_get wp_put wp_modify wp_gets : broker.
#[export] Hint Resolve cstr_no_nul : broker.
