(* ===== verification/Topic.v ===== *)
(** * Topics (lib/util_mosq.c, src/subs.c)

    The topic checks [mosquitto_pub_topic_check] and
    [mosquitto_sub_topic_check], the character-level matcher
    [mosquitto_topic_matches_sub] that ACLs and bridges use, and the
    tokeniser [_sub_topic_tokenise] of the subscription tree, against a
    level-by-level definition of MQTT topic filters. *)

From stdpp Require Import base list numbers strings option sets.
From Stdlib Require Import ZArith Lia.
From S2P Require Import Prelude.

(** ** The source's functions *)

Section checks.
Local Open Scope Z_scope.

(** The loop of [mosquitto_pub_topic_check]: [len] characters were read. *)
Fixpoint pub_topic_scan (s : bytes) (len : Z) : Z :=
  match s with
  | [] => if 65535 <? len then MOSQ_ERR_INVAL else MOSQ_ERR_SUCCESS
  | c :: s' =>
      if (c =? c_plus) || (c =? c_hash) then MOSQ_ERR_INVAL
      else pub_topic_scan s' (len + 1)
  end.

Definition mosquitto_pub_topic_check (s : bytes) : Z := pub_topic_scan s 0.

(** [str[1]], the character after the one at the head. *)
Definition next_char (s' : bytes) : Z := default 0 (head s').

(** The loop of [mosquitto_sub_topic_check]: [c] is the previous character
    (NUL at the start). *)
Fixpoint sub_topic_scan (c : Z) (s : bytes) (len : Z) : Z :=
  match s with
  | [] => if 65535 <? len then MOSQ_ERR_INVAL else MOSQ_ERR_SUCCESS
  | d :: s' =>
      if d =? c_plus then
        if (negb (c =? 0) && negb (c =? c_slash))
           || (negb (next_char s' =? 0) && negb (next_char s' =? c_slash))
        then MOSQ_ERR_INVAL else sub_topic_scan d s' (len + 1)
      else if d =? c_hash then
        if (negb (c =? 0) && negb (c =? c_slash)) || negb (next_char s' =? 0)
        then MOSQ_ERR_INVAL else sub_topic_scan d s' (len + 1)
      else sub_topic_scan d s' (len + 1)
  end.

Definition mosquitto_sub_topic_check (s : bytes) : Z := sub_topic_scan 0 s 0.
End checks.

(** *** [mosquitto_topic_matches_sub] *)

(** The return code and what was stored through [result] ([None]: nothing
    was stored). *)
Definition match_out : Type := Z * option bool.

(** [while(tpos < tlen && topic[tpos] != '/') tpos++], from [tpos]. *)
Fixpoint skip_level (n : nat) (topic : bytes) (tpos : nat) : option nat :=
  match n with
  | 0 => Some tpos
  | S n' =>
      if tpos <? length topic then
        c ← char_at topic tpos;
        if decide (c = c_slash) then Some tpos else skip_level n' topic (S tpos)
      else Some tpos
  end.

(** The main loop, [n] iterations of it at most; every iteration that does
    not return advances [spos]. [None] is an access out of bounds. *)
Fixpoint match_loop (n : nat) (sub topic : bytes) (spos tpos : nat) : option match_out :=
  let slen := length sub in
  let tlen := length topic in
  let done_ : option match_out :=
    (* the code after the loop; no path sets multilevel_wildcard without
       returning *)
    if (tpos <? tlen) || (spos <? slen) then Some (MOSQ_ERR_SUCCESS, Some false)
    else Some (MOSQ_ERR_SUCCESS, None) in
  if (spos <? slen) && (tpos <=? tlen) then
    match n with
    | 0 => None
    | S n' =>
        sc ← char_at sub spos;
        tc ← char_at topic tpos;
        if decide (sc = tc) then
          (* foo matching foo/# *)
          parent ← (if (S tpos =? tlen) && (spos + 3 =? slen) then
                      c1 ← char_at sub (spos + 1);
                      if decide (c1 = c_slash) then
                        c2 ← char_at sub (spos + 2);
                        Some (bool_decide (c2 = c_hash))
                      else Some false
                    else Some false);
          if (parent : bool) then Some (MOSQ_ERR_SUCCESS, Some true)
          else
            let spos := S spos in
            let tpos := S tpos in
            if (spos =? slen) && (tpos =? tlen) then Some (MOSQ_ERR_SUCCESS, Some true)
            else
              final_plus ← (if (tpos =? tlen) && (S spos =? slen) then
                              c ← char_at sub spos; Some (bool_decide (c = c_plus))
                            else Some false);
              if (final_plus : bool) then
                (* spos > 0 here *)
                c ← char_at sub (spos - 1);
                if decide (c = c_slash) then Some (MOSQ_ERR_SUCCESS, Some true)
                else Some (MOSQ_ERR_INVAL, Some false)
              else match_loop n' sub topic spos tpos
        else if decide (sc = c_plus) then
          (* bad "+foo" or "a/+foo" *)
          bad ← (if 0 <? spos then
                   c ← char_at sub (spos - 1); Some (bool_decide (c ≠ c_slash))
                 else Some false);
          if (bad : bool) then Some (MOSQ_ERR_INVAL, Some false)
          else
            (* bad "foo+" or "foo+/a" *)
            bad' ← (if S spos <? slen then
                      c ← char_at sub (spos + 1); Some (bool_decide (c ≠ c_slash))
                    else Some false);
            if (bad' : bool) then Some (MOSQ_ERR_INVAL, Some false)
            else
              let spos := S spos in
              tpos' ← skip_level (tlen - tpos) topic tpos;
              if (tpos' =? tlen) && (spos =? slen) then Some (MOSQ_ERR_SUCCESS, Some true)
              else match_loop n' sub topic spos tpos'
        else if decide (sc = c_hash) then
          bad ← (if 0 <? spos then
                   c ← char_at sub (spos - 1); Some (bool_decide (c ≠ c_slash))
                 else Some false);
          if (bad : bool) then Some (MOSQ_ERR_INVAL, Some false)
          else if spos + 1 =? slen then Some (MOSQ_ERR_SUCCESS, Some true)
          else Some (MOSQ_ERR_INVAL, Some false)
        else Some (MOSQ_ERR_SUCCESS, Some false)
    end
  else done_.

Definition mosquitto_topic_matches_sub (sub topic : bytes) : option match_out :=
  if (length sub =? 0) || (length topic =? 0) then Some (MOSQ_ERR_INVAL, Some false)
  else
    s0 ← char_at sub 0;
    t0 ← char_at topic 0;
    if bool_decide (s0 = c_dollar ∧ t0 ≠ c_dollar)
       || bool_decide (t0 = c_dollar ∧ s0 ≠ c_dollar)
    then Some (MOSQ_ERR_SUCCESS, Some false)
    else match_loop (length sub) sub topic 0 0.

(** *** [_sub_topic_tokenise] *)

(** The scan of the [for] loop: [i] indexes [subtopic], [start] is where the
    current token began and [acc] holds the tokens appended so far. *)
Fixpoint tokenise_loop (n : nat) (subtopic : bytes) (start i : nat)
    (acc : list bytes) : option (list bytes) :=
  if i <? length subtopic + 1 then
    match n with
    | 0 => None
    | S n' =>
        c ← char_at subtopic i;
        if decide (c = c_slash ∨ c = 0%Z) then
          tokenise_loop n' subtopic (S i) (S i)
            (acc ++ [take (i - start) (drop start subtopic)])
        else tokenise_loop n' subtopic start (S i) acc
    end
  else Some acc.

Definition _sub_topic_tokenise (subtopic : bytes) : option (list bytes) :=
  c0 ← char_at subtopic 0;
  let topics := if decide (c0 = c_dollar) then [] else [[]] in
  let '(topics, start) :=
    if decide (c0 = c_slash) then (topics ++ [[]], 1) else (topics, 0) in
  tokenise_loop (length subtopic + 1) subtopic start start topics.

(** ** The reference: topic filters by levels *)

(** The levels of a topic: what is between the slashes. *)
Fixpoint levels (s : bytes) : list bytes :=
  match s with
  | [] => [[]]
  | c :: s' =>
      if decide (c = c_slash) then [] :: levels s'
      else match levels s' with
           | [] => [[c]]
           | l :: ls => (c :: l) :: ls
           end
  end.

(** A filter and a topic, level by level: [+] stands for any one level, a
    final [#] for any number of levels, none included. *)
Fixpoint match_levels (f t : list bytes) : bool :=
  match f with
  | [] => bool_decide (t = [])
  | x :: f' =>
      if decide (x = [c_hash] ∧ f' = []) then true
      else match t with
           | [] => false
           | y :: t' => bool_decide (x = [c_plus] ∨ x = y) && match_levels f' t'
           end
  end.

(** A filter and a topic match when their levels do, except that a filter
    that does not begin with [$] matches no topic that does. *)
Definition dollar (s : bytes) : bool := bool_decide (head s = Some c_dollar).
Definition mqtt_match (sub topic : bytes) : bool :=
  Bool.eqb (dollar sub) (dollar topic) && match_levels (levels sub) (levels topic).

(** A filter that ends in [+/#] against a topic that ends at its [+]. *)
Definition plus_hash_parent (sub topic : bytes) : bool :=
  let f := levels sub in
  bool_decide (drop (length f - 2) f = [[c_plus]; [c_hash]])
  && (length (levels topic) =? length f - 1).

(** ** The matcher on suffixes

    [msuf prev s t] is what the loop computes from a position where [s] and
    [t] are left and [prev] is the character of the filter before [s] (NUL
    at its start). *)

Fixpoint skip_suf (t : bytes) : bytes :=
  match t with
  | [] => []
  | c :: t' => if decide (c = c_slash) then t else skip_suf t'
  end.

Definition bad_prev (prev : Z) : bool := bool_decide (prev ≠ 0%Z ∧ prev ≠ c_slash).

Fixpoint msuf (prev : Z) (s t : bytes) : match_out :=
  match s with
  | [] => if decide (t = []) then (MOSQ_ERR_SUCCESS, None)
          else (MOSQ_ERR_SUCCESS, Some false)
  | c :: s' =>
      if decide (head t = Some c) then
        if decide (tail t = [] ∧ s' = [c_slash; c_hash]) then (MOSQ_ERR_SUCCESS, Some true)
        else if decide (s' = [] ∧ tail t = []) then (MOSQ_ERR_SUCCESS, Some true)
        else if decide (tail t = [] ∧ s' = [c_plus]) then
          if decide (c = c_slash) then (MOSQ_ERR_SUCCESS, Some true)
          else (MOSQ_ERR_INVAL, Some false)
        else msuf c s' (tail t)
      else if decide (c = c_plus) then
        if bad_prev prev || bool_decide (s' ≠ [] ∧ head s' ≠ Some c_slash)
        then (MOSQ_ERR_INVAL, Some false)
        else if decide (skip_suf t = [] ∧ s' = []) then (MOSQ_ERR_SUCCESS, Some true)
        else msuf c s' (skip_suf t)
      else if decide (c = c_hash) then
        if bad_prev prev then (MOSQ_ERR_INVAL, Some false)
        else if decide (s' = []) then (MOSQ_ERR_SUCCESS, Some true)
        else (MOSQ_ERR_INVAL, Some false)
      else (MOSQ_ERR_SUCCESS, Some false)
  end.

Definition prev_char (sub : bytes) (spos : nat) : Z :=
  match spos with 0 => 0%Z | S i => default 0%Z (sub !! i) end.

Lemma drop_head_lookup (l : bytes) i : head (drop i l) = l !! i.
Proof. by rewrite head_lookup, lookup_drop, Nat.add_0_r. Qed.

Lemma skip_level_suf topic n tpos :
  tpos ≤ length topic → length topic - tpos ≤ n →
  ∃ tpos', skip_level n topic tpos = Some tpos' ∧ tpos' ≤ length topic ∧
           drop tpos' topic = skip_suf (drop tpos topic).
Proof.
  revert tpos. induction n as [|n IH]; intros tpos Ht Hn; simpl.
  - exists tpos. assert (tpos = length topic) as -> by lia. by rewrite drop_all.
  - destruct (Nat.ltb_spec tpos (length topic)) as [Hlt|Hge].
    + destruct (lookup_lt_is_Some_2 topic tpos Hlt) as [c Hc].
      rewrite (char_at_lt _ _ _ Hc). simpl. rewrite (drop_S _ _ _ Hc). simpl.
      case_decide.
      * exists tpos. by rewrite (drop_S _ _ _ Hc).
      * apply IH; lia.
    + exists tpos. assert (tpos = length topic) as -> by lia. by rewrite drop_all.
Qed.

Section match_loop.
Context (sub topic : bytes) (sub_no_nul : 0%Z ∉ sub).

Lemma drop_nil_iff {A} (l : list A) i : drop i l = [] ↔ length l ≤ i.
Proof.
  split; [|apply drop_ge]. intros H.
  apply (f_equal length) in H. rewrite length_drop in H. simpl in H. lia.
Qed.

Lemma parent_test spos tpos :
  spos < length sub →
  (if (S tpos =? length topic) && (spos + 3 =? length sub) then
     c1 ← char_at sub (spos + 1);
     if decide (c1 = c_slash) then
       c2 ← char_at sub (spos + 2); Some (bool_decide (c2 = c_hash))
     else Some false
   else Some false) =
  Some (bool_decide (S tpos = length topic ∧ drop (S spos) sub = [c_slash; c_hash])).
Proof.
  intros Hs. destruct (Nat.eqb_spec (S tpos) (length topic)) as [Et|Et]; cbn [andb];
    [|by rewrite bool_decide_eq_false_2 by tauto].
  destruct (Nat.eqb_spec (spos + 3) (length sub)) as [E|E].
  - assert (length (drop (S spos) sub) = 2) as Hl by (rewrite length_drop; lia).
    destruct (drop (S spos) sub) as [|a [|b [|]]] eqn:Ed; try discriminate Hl.
    assert (sub !! (spos + 1) = Some a) as Ha.
    { rewrite Nat.add_1_r, <-drop_head_lookup, Ed. done. }
    assert (sub !! (spos + 2) = Some b) as Hb.
    { replace (spos + 2) with (S spos + 1) by lia. by rewrite <-lookup_drop, Ed. }
    rewrite (char_at_lt _ _ _ Ha), (char_at_lt _ _ _ Hb). simpl.
    repeat case_decide; repeat case_bool_decide; naive_solver.
  - rewrite bool_decide_eq_false_2; [done|]. intros [_ Hd].
    apply (f_equal length) in Hd. rewrite length_drop in Hd. simpl in Hd. lia.
Qed.

Lemma final_plus_test spos tpos :
  spos ≤ length sub →
  (if (tpos =? length topic) && (S spos =? length sub) then
     c ← char_at sub spos; Some (bool_decide (c = c_plus))
   else Some false) =
  Some (bool_decide (tpos = length topic ∧ drop spos sub = [c_plus])).
Proof.
  intros Hs. destruct (Nat.eqb_spec tpos (length topic)) as [Et|Et]; cbn [andb];
    [|by rewrite bool_decide_eq_false_2 by tauto].
  destruct (Nat.eqb_spec (S spos) (length sub)) as [E|E].
  - destruct (lookup_lt_is_Some_2 sub spos) as [c Hc]; [lia|].
    rewrite (char_at_lt _ _ _ Hc). simpl.
    assert (drop spos sub = [c]) as ->.
    { rewrite (drop_S _ _ _ Hc). by rewrite (proj2 (drop_nil_iff sub (S spos))) by lia. }
    f_equal. apply bool_decide_ext. naive_solver.
  - rewrite bool_decide_eq_false_2; [done|]. intros [_ Hd].
    apply (f_equal length) in Hd. rewrite length_drop in Hd. simpl in Hd. lia.
Qed.

Lemma bad_prev_test spos :
  spos < length sub →
  (if 0 <? spos then
     c ← char_at sub (spos - 1); Some (bool_decide (c ≠ c_slash))
   else Some false) = Some (bad_prev (prev_char sub spos)).
Proof.
  intros Hs. unfold bad_prev. destruct spos as [|i]; simpl; [done|].
  rewrite Nat.sub_0_r. destruct (lookup_lt_is_Some_2 sub i) as [c Hc]; [lia|].
  rewrite (char_at_lt _ _ _ Hc), Hc. simpl. f_equal.
  assert (c ≠ 0%Z) by (intros ->; apply sub_no_nul; by eapply list_elem_of_lookup_2).
  by apply bool_decide_ext; naive_solver.
Qed.

Lemma bad_next_test spos :
  spos < length sub →
  (if S spos <? length sub then
     c ← char_at sub (spos + 1); Some (bool_decide (c ≠ c_slash))
   else Some false) =
  Some (bool_decide (drop (S spos) sub ≠ [] ∧ head (drop (S spos) sub) ≠ Some c_slash)).
Proof.
  intros Hs. destruct (Nat.ltb_spec (S spos) (length sub)) as [E|E].
  - destruct (lookup_lt_is_Some_2 sub (S spos) E) as [c Hc].
    rewrite Nat.add_1_r, (char_at_lt _ _ _ Hc), (drop_S _ _ _ Hc). simpl.
    f_equal. apply bool_decide_ext. naive_solver.
  - rewrite (proj2 (drop_nil_iff sub (S spos))) by lia.
    by rewrite bool_decide_eq_false_2 by tauto.
Qed.

Lemma match_loop_suf n spos tpos :
  spos ≤ length sub → tpos ≤ length topic → length sub - spos ≤ n →
  match_loop n sub topic spos tpos =
    Some (msuf (prev_char sub spos) (drop spos sub) (drop tpos topic)).
Proof.
  revert spos tpos. induction n as [|n IH]; intros spos tpos Hs Ht Hn.
  { assert (spos = length sub) as -> by lia. simpl.
    rewrite Nat.ltb_irrefl, drop_all. simpl. rewrite orb_false_r.
    destruct (Nat.ltb_spec tpos (length topic)); [rewrite decide_False|rewrite decide_True];
      rewrite ?drop_nil_iff; done || lia. }
  destruct (decide (spos = length sub)) as [->|Hne].
  { simpl. rewrite Nat.ltb_irrefl, drop_all. simpl. rewrite orb_false_r.
    destruct (Nat.ltb_spec tpos (length topic)); [rewrite decide_False|rewrite decide_True];
      rewrite ?drop_nil_iff; done || lia. }
  destruct (lookup_lt_is_Some_2 sub spos) as [sc Hsc]; [lia|].
  assert (sc ≠ 0%Z) as Hsc0 by (intros ->; apply sub_no_nul; by eapply list_elem_of_lookup_2).
  cbn [match_loop]. rewrite (proj2 (Nat.ltb_lt spos (length sub))) by lia.
  rewrite (proj2 (Nat.leb_le tpos (length topic))) by lia. cbn [andb].
  rewrite (char_at_lt _ _ _ Hsc), (char_at_drop topic tpos Ht). cbn [mbind option_bind].
  rewrite (drop_S _ _ _ Hsc). cbn [msuf].
  rewrite parent_test, bad_prev_test, bad_next_test by lia.
  destruct (decide (head (drop tpos topic) = Some sc)) as [Hhd|Hhd].
  - rewrite Hhd. rewrite (decide_True (P := sc = _)) by done.
    rewrite drop_head_lookup in Hhd. assert (tpos < length topic) by (by eapply lookup_lt_Some).
    rewrite (drop_S _ _ _ Hhd). cbn [tail mbind option_bind].
    rewrite final_plus_test by lia. cbn [mbind option_bind].
    destruct (decide (drop (S tpos) topic = [] ∧ drop (S spos) sub = [c_slash; c_hash]))
      as [Hp|Hp]; rewrite drop_nil_iff in Hp.
    { rewrite bool_decide_eq_true_2 by (split; [lia|apply Hp]). done. }
    rewrite bool_decide_eq_false_2 by (intros [??]; apply Hp; split; [lia|done]).
    destruct (decide (drop (S spos) sub = [] ∧ drop (S tpos) topic = []))
      as [Hp'|Hp']; rewrite !drop_nil_iff in Hp'.
    { rewrite (proj2 (Nat.eqb_eq (S spos) _)), (proj2 (Nat.eqb_eq (S tpos) _)) by lia. done. }
    replace ((S spos =? length sub) && (S tpos =? length topic)) with false.
    2: { symmetry. apply andb_false_iff. rewrite !Nat.eqb_neq. lia. }
    rewrite (char_at_lt sub (S spos - 1) sc) by (by rewrite Nat.sub_1_r).
    cbn [mbind option_bind].
    destruct (decide (drop (S tpos) topic = [] ∧ drop (S spos) sub = [c_plus]))
      as [Hq|Hq]; rewrite drop_nil_iff in Hq.
    + rewrite bool_decide_eq_true_2 by (split; [lia|apply Hq]). by case_decide.
    + rewrite bool_decide_eq_false_2 by (intros [??]; apply Hq; split; [lia|done]).
      rewrite IH by lia. cbn [prev_char]. by rewrite Hsc.
  - rewrite decide_False.
    2: { destruct (head (drop tpos topic)) eqn:E; simpl; congruence. }
    cbn [mbind option_bind].
    case_decide as Hplus.
    + destruct (bad_prev _); cbn [orb]; [done|].
      destruct (bool_decide _); [done|].
      destruct (skip_level_suf topic (length topic - tpos) tpos) as (tpos' & -> & Ht' & Hd); [lia..|].
      cbn [mbind option_bind]. rewrite <-Hd.
      destruct (decide (drop tpos' topic = [] ∧ drop (S spos) sub = [])) as [Hq|Hq];
        rewrite !drop_nil_iff in Hq.
      * rewrite (proj2 (Nat.eqb_eq (S spos) _)), (proj2 (Nat.eqb_eq tpos' _)) by lia. done.
      * replace ((tpos' =? length topic) && (S spos =? length sub)) with false.
        2: { symmetry. apply andb_false_iff. rewrite !Nat.eqb_neq. lia. }
        rewrite IH by lia. cbn [prev_char]. by rewrite Hsc.
    + case_decide; [|done]. destruct (bad_prev _); [done|].
      rewrite Nat.add_1_r.
      destruct (Nat.eqb_spec (S spos) (length sub)); case_decide as Hq;
        rewrite drop_nil_iff in Hq; done || lia.
Qed.
End match_loop.

(** Outside the empty-empty position the loop always stores a result. *)
Lemma msuf_stores prev s t :
  (s, t) ≠ ([], []) → ∃ rc b, msuf prev s t = (rc, Some b).
Proof.
  revert prev t. induction s as [|c s IH]; intros prev t Hne; simpl.
  - rewrite decide_False by congruence. eauto.
  - repeat case_decide; repeat case_match; try (by eauto).
    all: apply IH; intros [= -> ?]; naive_solver.
Qed.

(** ** Levels *)

Lemma levels_cons s : ∃ l ls, levels s = l :: ls.
Proof. destruct s as [|c s]; simpl; [eauto|]. case_decide; [eauto|]. destruct (levels s); eauto. Qed.

Lemma levels_slash s : levels (c_slash :: s) = [] :: levels s.
Proof. done. Qed.

Lemma levels_char c s l ls :
  c ≠ c_slash → levels s = l :: ls → levels (c :: s) = (c :: l) :: ls.
Proof. intros ? Hl. simpl. rewrite decide_False by done. by rewrite Hl. Qed.

Lemma levels_nil_inv s : levels s = [[]] → s = [].
Proof.
  destruct s as [|c s]; [done|]. simpl. case_decide.
  - destruct (levels_cons s) as (?&?&->). discriminate.
  - destruct (levels s); discriminate.
Qed.

Lemma levels_hash_inv s : levels s = [[c_hash]] → s = [c_hash].
Proof.
  destruct s as [|c s]; [done|]. destruct (decide (c = c_slash)) as [->|Hc].
  - rewrite levels_slash. by destruct (levels_cons s) as (?&?&->).
  - destruct (levels_cons s) as (l&ls&Hl). rewrite (levels_char _ _ _ _ Hc Hl).
    intros [= -> -> ->]. by rewrite (levels_nil_inv _ Hl).
Qed.

Lemma skip_suf_levels t :
  ∃ l ls, levels t = l :: ls ∧
    (skip_suf t = [] ∧ ls = [] ∨ ∃ t', skip_suf t = c_slash :: t' ∧ levels t' = ls).
Proof.
  induction t as [|c t IH]; [by exists [], []; auto|].
  destruct (decide (c = c_slash)) as [->|Hc].
  - exists [], (levels t). split; [done|]. right. by exists t.
  - destruct IH as (l & ls & Hl & IH). exists (c :: l), ls.
    split; [by apply levels_char|]. simpl. by rewrite decide_False.
Qed.

(** ** Valid filters and topics *)

(** What [sub_topic_scan] accepts, the length apart. *)
Fixpoint valid_from (prev : Z) (s : bytes) : Prop :=
  match s with
  | [] => True
  | d :: s' =>
      (d = c_plus → bad_prev prev = false ∧ (s' = [] ∨ head s' = Some c_slash)) ∧
      (d = c_hash → bad_prev prev = false ∧ s' = []) ∧ valid_from d s'
  end.

Lemma next_char_nul s : 0%Z ∉ s → next_char s = 0%Z → s = [].
Proof. destruct s as [|d s]; [done|]. intros H0 Hd. unfold next_char in Hd. simpl in Hd. set_solver. Qed.

Lemma sub_topic_scan_valid s prev len :
  0%Z ∉ s → sub_topic_scan prev s len = MOSQ_ERR_SUCCESS → valid_from prev s.
Proof.
  revert prev len. induction s as [|d s IH]; intros prev len H0 H; [done|].
  assert (0%Z ∉ s) as H0s by set_solver.
  assert (∀ b b', (negb b && negb b') = false → b = true ∨ b' = true) as Hb by (intros [] []; auto).
  assert (∀ z, (negb (z =? 0)%Z && negb (z =? c_slash)%Z) = false → bad_prev z = false) as Hp.
  { intros z [?%Z.eqb_eq|?%Z.eqb_eq]%Hb; apply bool_decide_eq_false_2; tauto. }
  cbn [sub_topic_scan] in H. cbn [valid_from].
  destruct (Z.eqb_spec d c_plus) as [->|Hplus]; [|destruct (Z.eqb_spec d c_hash) as [->|Hhash]].
  - destruct (orb _ _) eqn:Ho in H; [discriminate|]. apply orb_false_elim in Ho as [Ho1 Ho2].
    split_and!; [|discriminate|by eapply IH]. intros _. split; [auto|].
    destruct (Hb _ _ Ho2) as [E%Z.eqb_eq|E%Z.eqb_eq].
    + left. by apply next_char_nul.
    + right. unfold next_char in E. destruct s; simpl in *; [discriminate|congruence].
  - destruct (orb _ _) eqn:Ho in H; [discriminate|]. apply orb_false_elim in Ho as [Ho1 Ho2].
    split_and!; [discriminate| |by eapply IH]. intros _. split; [auto|].
    apply next_char_nul; [done|]. by apply Z.eqb_eq, negb_false_iff.
  - split_and!; [done..|by eapply IH].
Qed.

Definition wildcard_free (s : bytes) : Prop := c_plus ∉ s ∧ c_hash ∉ s.

Lemma pub_topic_scan_free s len :
  pub_topic_scan s len = MOSQ_ERR_SUCCESS → wildcard_free s.
Proof.
  unfold wildcard_free. revert len. induction s as [|c s IH]; intros len H; [set_solver|].
  cbn [pub_topic_scan] in H. destruct (Z.eqb_spec c c_plus); [discriminate|].
  destruct (Z.eqb_spec c c_hash); [discriminate|]. destruct (IH _ H). set_solver.
Qed.

(** In the middle of a level no wildcard can follow before the next slash. *)
Lemma valid_mid_level prev s l ls :
  bad_prev prev = true → valid_from prev s → levels s = l :: ls → l ≠ [c_plus] ∧ l ≠ [c_hash].
Proof.
  intros Hp Hv Hl. destruct s as [|d s]; simpl in *; [naive_solver|].
  destruct Hv as (Hplus & Hhash & _). case_decide; [naive_solver|].
  assert (d ≠ c_plus ∧ d ≠ c_hash) as [??].
  { split; intros ->; [destruct (Hplus eq_refl)|destruct (Hhash eq_refl)]; congruence. }
  destruct (levels s); simplify_eq; split; congruence.
Qed.

(** ** The matcher against the levels *)

(** [match_levels] with the code's exception: [pp] tells that the level
    before was matched by [+], after which [#] does not match the parent. *)
Fixpoint match_levels_code (pp : bool) (f t : list bytes) : bool :=
  match f with
  | [] => bool_decide (t = [])
  | x :: f' =>
      if decide (x = [c_hash] ∧ f' = []) then bool_decide (t ≠ [] ∨ pp = false)
      else match t with
           | [] => false
           | y :: t' =>
               if decide (x = [c_plus]) then match_levels_code true f' t'
               else bool_decide (x = y) && match_levels_code false f' t'
           end
  end.

Lemma match_levels_code_pp pp f t :
  t ≠ [] → match_levels_code pp f t = match_levels_code false f t.
Proof.
  intros Ht. destruct f as [|x f]; [done|]. simpl. case_decide; [|done].
  apply bool_decide_ext. tauto.
Qed.

Lemma match_levels_code_lit pp x y f t :
  x ≠ [c_plus] → x ≠ [c_hash] →
  match_levels_code pp (x :: f) (y :: t) = bool_decide (x = y) && match_levels_code false f t.
Proof. intros. simpl. by rewrite !decide_False by tauto. Qed.

Lemma match_levels_code_parent f :
  f ≠ [] → match_levels_code true f [] = false.
Proof.
  destruct f; [done|]. intros _. simpl. by case_decide.
Qed.

(** Consuming one equal character on both sides. *)
Lemma match_levels_code_same c s t :
  c ≠ 0%Z → c ≠ c_plus → c ≠ c_hash → valid_from c s →
  match_levels_code false (levels (c :: s)) (levels (c :: t)) =
  match_levels_code false (levels s) (levels t).
Proof.
  intros H0 Hp Hh Hv. destruct (decide (c = c_slash)) as [->|Hc].
  { rewrite !levels_slash, match_levels_code_lit by done.
    by rewrite bool_decide_eq_true_2. }
  destruct (levels_cons s) as (l & ls & Hl), (levels_cons t) as (m & ms & Hm).
  rewrite (levels_char _ _ _ _ Hc Hl), (levels_char _ _ _ _ Hc Hm), Hl, Hm.
  destruct (valid_mid_level c s l ls) as [??]; [by apply bool_decide_eq_true_2|done..|].
  rewrite !match_levels_code_lit by congruence. f_equal.
  apply bool_decide_ext. naive_solver.
Qed.

(** The positions at which the loop is entered. *)
Definition entered (s t : bytes) : Prop :=
  (s, t) ≠ ([], []) ∧ (s, t) ≠ ([c_slash; c_hash], []).

(** A mismatched character that is no wildcard: the levels differ. *)
Lemma match_levels_code_differ c s t :
  c ≠ c_plus → c ≠ c_hash → head t ≠ Some c → entered (c :: s) t →
  match_levels_code false (levels (c :: s)) (levels t) = false.
Proof.
  intros Hp Hh Hd [_ He]. destruct (decide (c = c_slash)) as [->|Hc].
  - rewrite levels_slash. destruct t as [|d t].
    + simpl. destruct (levels_cons s) as (l & ls & Hl). rewrite Hl.
      simpl. case_decide as E; [|done]. destruct E as [-> ->].
      rewrite (levels_hash_inv _ Hl) in He. congruence.
    + destruct (levels_cons t) as (m & ms & Hm).
      rewrite (levels_char d t m ms) by (simpl in Hd; congruence || done).
      by rewrite match_levels_code_lit.
  - destruct (levels_cons s) as (l & ls & Hl). rewrite (levels_char _ _ _ _ Hc Hl).
    destruct t as [|d t].
    { change (levels []) with [@nil Z]. by rewrite match_levels_code_lit by congruence. }
    destruct (decide (d = c_slash)) as [->|Hds].
    + rewrite levels_slash. by rewrite match_levels_code_lit by congruence.
    + destruct (levels_cons t) as (m & ms & Hm). rewrite (levels_char _ _ _ _ Hds Hm).
      rewrite match_levels_code_lit by congruence.
      rewrite bool_decide_eq_false_2; [done|]. simpl in Hd. congruence.
Qed.

Lemma wildcard_free_skip t : wildcard_free t → wildcard_free (skip_suf t).
Proof.
  unfold wildcard_free. induction t as [|c t IH]; [done|]. intros [??]. simpl.
  case_decide; [done|]. apply IH. set_solver.
Qed.

Lemma match_levels_code_plus s t :
  s = [] ∨ head s = Some c_slash →
  match_levels_code false (levels (c_plus :: s)) (levels t) =
    if decide (skip_suf t = []) then bool_decide (s = [])
    else if decide (s = []) then false
    else match_levels_code false (levels s) (levels (skip_suf t)).
Proof.
  destruct (skip_suf_levels t) as (m & ms & Hm & Hskip). rewrite Hm.
  intros [->|Hs].
  - change (levels [c_plus]) with [[c_plus]]. simpl.
    destruct Hskip as [[-> ->]|(t' & -> & <-)]; simpl; [done|].
    by destruct (levels_cons t') as (?&?&->).
  - destruct s as [|? s]; cbn [head] in Hs; simplify_eq.
    rewrite (levels_char c_plus (c_slash :: s) [] (levels s)) by done.
    cbn [match_levels_code]. rewrite decide_False by naive_solver.
    rewrite decide_True by done. destruct (levels_cons s) as (l & ls & Hl).
    destruct Hskip as [[-> ->]|(t' & -> & <-)].
    + rewrite decide_True by done. rewrite Hl. by rewrite match_levels_code_parent.
    + rewrite !decide_False by done. rewrite !levels_slash, match_levels_code_lit by done.
      rewrite bool_decide_eq_true_2 by done. apply match_levels_code_pp.
      by destruct (levels_cons t') as (?&?&->).
Qed.

Lemma msuf_levels prev s t :
  0%Z ∉ s → valid_from prev s → wildcard_free t → entered s t →
  msuf prev s t = (MOSQ_ERR_SUCCESS, Some (match_levels_code false (levels s) (levels t))).
Proof.
  revert prev t. induction s as [|c s IH]; intros prev t H0 Hv Hw [Hne He]; cbn [msuf].
  { rewrite decide_False by congruence. destruct (levels_cons t) as (m & ms & Hm). rewrite Hm.
    cbn [levels]. rewrite match_levels_code_lit by done.
    destruct ms as [|? ms]; [|by rewrite andb_false_r].
    rewrite bool_decide_eq_false_2; [done|]. intros <-. by rewrite (levels_nil_inv _ Hm) in Hne. }
  assert (c ≠ 0%Z ∧ 0%Z ∉ s) as [Hc0 H0s] by set_solver.
  destruct Hv as (Hplus & Hhash & Hv).
  destruct (decide (head t = Some c)) as [Hd|Hd].
  - destruct t as [|? t]; cbn [head tail] in *; simplify_eq.
    assert (c ≠ c_plus ∧ c ≠ c_hash ∧ wildcard_free t) as (Hcp & Hch & Hwt)
      by (unfold wildcard_free in *; set_solver).
    rewrite match_levels_code_same by done.
    case_decide as E1; [by destruct E1 as [-> ->]|].
    case_decide as E2; [by destruct E2 as [-> ->]|].
    case_decide as E3.
    + destruct E3 as [-> ->]. destruct Hv as (Hv & _). destruct (Hv eq_refl) as [Hb _].
      apply bool_decide_eq_false in Hb. by case_decide; [|tauto].
    + apply IH; [done..|]. split; intros [= -> ->]; tauto.
  - destruct (decide (c = c_plus)) as [->|Hcp].
    { destruct (Hplus eq_refl) as [-> Hnext]. cbn [orb].
      rewrite bool_decide_eq_false_2 by naive_solver.
      rewrite match_levels_code_plus by done.
      destruct (decide (skip_suf t = [])) as [E|E]; [rewrite E|].
      - destruct Hnext as [->|Hnext]; [done|].
        destruct s as [|? s]; cbn [head] in Hnext; simplify_eq.
        rewrite decide_False by naive_solver. done.
      - rewrite decide_False by tauto. destruct (decide (s = [])) as [->|Hs].
        + cbn [msuf]. by rewrite decide_False.
        + apply IH; [done..|by apply wildcard_free_skip|]. split; congruence. }
    destruct (decide (c = c_hash)) as [->|Hch].
    { destruct (Hhash eq_refl) as [-> ->]. rewrite decide_True by done.
      cbn [levels]. destruct (levels_cons t) as (m & ms & ->). done. }
    by rewrite match_levels_code_differ.
Qed.

(** ** What the exception amounts to *)

Definition ends_plus_hash (f : list bytes) : Prop :=
  drop (length f - 2) f = [[c_plus]; [c_hash]].

#[export] Instance ends_plus_hash_dec f : Decision (ends_plus_hash f).
Proof. unfold ends_plus_hash. apply _. Defined.

Lemma ends_plus_hash_cons x y f :
  ends_plus_hash (x :: y :: f) ↔ (x = [c_plus] ∧ y :: f = [[c_hash]]) ∨ ends_plus_hash (y :: f).
Proof.
  unfold ends_plus_hash. simpl. rewrite !Nat.sub_0_r.
  destruct f as [|z f]; simpl; [naive_solver|]. rewrite Nat.sub_0_r. naive_solver.
Qed.

Lemma match_levels_code_exact pp f t :
  match_levels_code pp f t =
    match_levels f t
    && negb (bool_decide ((ends_plus_hash f ∨ pp = true ∧ f = [[c_hash]])
                          ∧ length t = length f - 1)).
Proof.
  revert pp t. induction f as [|x f IH]; intros pp t.
  { simpl. rewrite (bool_decide_eq_false_2 (_ ∧ _)); [by rewrite andb_true_r|].
    intros [[?|[_ ?]] _]; discriminate. }
  cbn [match_levels_code match_levels].
  destruct (decide (x = [c_hash] ∧ f = [])) as [Hh|Hh].
  { destruct Hh as [-> ->]. cbn [andb]. rewrite <-bool_decide_not. apply bool_decide_ext.
    destruct t as [|? t], pp; simpl; unfold ends_plus_hash; simpl; naive_solver. }
  destruct t as [|y t]; [done|].
  destruct f as [|z f].
  { rewrite (bool_decide_eq_false_2 (_ ∧ length _ = _)), andb_true_r.
    2: { intros [[?|[_ ?]] _]; unfold ends_plus_hash in *; simpl in *; naive_solver. }
    cbn [match_levels_code match_levels].
    destruct (decide (x = [c_plus])) as [->|Hx];
      [by rewrite (bool_decide_eq_true_2 ([c_plus] = [c_plus] ∨ _)) by tauto|].
    f_equal. apply bool_decide_ext. tauto. }
  assert (length (y :: t) = length (x :: z :: f) - 1 ↔ length t = length (z :: f) - 1) as Hlen
    by (simpl; lia).
  destruct (decide (x = [c_plus])) as [->|Hx]; rewrite IH.
  - rewrite (bool_decide_eq_true_2 (_ ∨ _)) by tauto. cbn [andb]. do 2 f_equal.
    apply bool_decide_ext. rewrite ends_plus_hash_cons, Hlen. naive_solver.
  - rewrite <-andb_assoc. f_equal; [apply bool_decide_ext; tauto|]. do 2 f_equal.
    apply bool_decide_ext. rewrite ends_plus_hash_cons, Hlen. naive_solver.
Qed.

(** ** The tokeniser against the levels *)

Definition tokens (s : bytes) : list bytes :=
  (if dollar s then [] else [[]]) ++ levels s.

Lemma levels_no_slash l : c_slash ∉ l → levels l = [l].
Proof.
  induction l as [|c l IH]; [done|]. intros H. apply levels_char; [set_solver|].
  apply IH. set_solver.
Qed.

Lemma levels_app_slash l r : c_slash ∉ l → levels (l ++ c_slash :: r) = l :: levels r.
Proof.
  induction l as [|c l IH]; [done|]. intros H. cbn [app]. apply levels_char; [set_solver|].
  apply IH. set_solver.
Qed.

Lemma tokenise_loop_levels s n start i acc :
  0%Z ∉ s → start ≤ i → i ≤ length s → length s + 1 - i ≤ n →
  c_slash ∉ take (i - start) (drop start s) →
  tokenise_loop n s start i acc = Some (acc ++ levels (drop start s)).
Proof.
  intros H0. revert start i acc. induction n as [|n IH]; intros start i acc Hsi Hi Hn Hl; [lia|].
  cbn [tokenise_loop]. rewrite (proj2 (Nat.ltb_lt i (length s + 1))) by lia.
  destruct (decide (i = length s)) as [->|Hne].
  - rewrite char_at_end. cbn [mbind option_bind]. rewrite decide_True by tauto.
    assert (take (length s - start) (drop start s) = drop start s) as E.
    { rewrite take_ge; [done|]. rewrite length_drop. lia. }
    rewrite E in *. rewrite (levels_no_slash _ Hl).
    destruct n; cbn [tokenise_loop];
      by rewrite (proj2 (Nat.ltb_ge (S (length s)) (length s + 1))) by lia.
  - destruct (lookup_lt_is_Some_2 s i) as [c Hc]; [lia|].
    rewrite (char_at_lt _ _ _ Hc). cbn [mbind option_bind].
    assert (drop start s = take (i - start) (drop start s) ++ c :: drop (S i) s) as Hsplit.
    { rewrite <-(drop_S _ _ _ Hc). rewrite <-(take_drop (i - start) (drop start s)) at 1.
      rewrite drop_drop. do 2 f_equal. lia. }
    case_decide as E.
    + destruct E as [->| ->]; [|by apply list_elem_of_lookup_2 in Hc].
      rewrite IH; [|lia..|rewrite Nat.sub_diag; apply not_elem_of_nil].
      rewrite <-app_assoc. rewrite Hsplit at 2. by rewrite levels_app_slash.
    + apply IH; [lia..|]. replace (S i - start) with (S (i - start)) by lia.
      rewrite (take_S_r _ _ c); [set_solver|]. rewrite lookup_drop.
      by replace (start + (i - start)) with i by lia.
Qed.

Lemma tokenise_tokens s : 0%Z ∉ s → _sub_topic_tokenise s = Some (tokens s).
Proof.
  intros H0. unfold _sub_topic_tokenise, tokens, dollar.
  rewrite char_at_drop by lia. rewrite drop_0. cbn [mbind option_bind].
  destruct s as [|c s]; [done|]. cbn [head from_option id].
  rewrite (bool_decide_ext (Some c = Some c_dollar) (c = c_dollar)) by naive_solver.
  destruct (decide (c = c_slash)) as [->|Hc]; cbv beta iota zeta.
  - rewrite tokenise_loop_levels; [done|done|lia|simpl; lia|simpl; lia|].
    rewrite Nat.sub_diag. apply not_elem_of_nil.
  - rewrite tokenise_loop_levels; [|done|lia|simpl; lia|simpl; lia|apply not_elem_of_nil].
    rewrite drop_0. by rewrite bool_decide_decide; destruct (decide (c = c_dollar)).
Qed.

(** Tokens determine the topic they come from. *)
Fixpoint join_levels (ls : list bytes) : bytes :=
  match ls with
  | [] => []
  | [l] => l
  | l :: ls => l ++ c_slash :: join_levels ls
  end.

Lemma join_levels_cons l m ls : join_levels (l :: m :: ls) = l ++ c_slash :: join_levels (m :: ls).
Proof. done. Qed.

Lemma join_levels_levels s : join_levels (levels s) = s.
Proof.
  induction s as [|c s IH]; [done|]. destruct (levels_cons s) as (l & ls & Hl).
  destruct (decide (c = c_slash)) as [->|Hc].
  - rewrite levels_slash, Hl, join_levels_cons, <-Hl, IH. done.
  - rewrite (levels_char _ _ _ _ Hc Hl). rewrite Hl in IH.
    destruct ls; simpl in *; by rewrite IH.
Qed.

Lemma levels_dollar s : dollar s = true → ∃ l ls, levels s = (c_dollar :: l) :: ls.
Proof.
  unfold dollar. intros Hd%bool_decide_eq_true. destruct s as [|c s]; simplify_eq/=.
  destruct (levels_cons s) as (l & ls & ->). eauto.
Qed.

Lemma levels_not_dollar s l ls : dollar s = false → levels s = l :: ls → head l ≠ Some c_dollar.
Proof.
  unfold dollar. intros Hd%bool_decide_eq_false. destruct s as [|c s]; simpl; [naive_solver|].
  case_decide; [naive_solver|]. destruct (levels s); naive_solver.
Qed.

(** Matching the tokens is matching the topics: the first token keeps the
    [$] topics apart. *)
Lemma match_tokens sub topic :
  match_levels (tokens sub) (tokens topic) = mqtt_match sub topic.
Proof.
  unfold tokens, mqtt_match.
  destruct (dollar sub) eqn:Ds, (dollar topic) eqn:Dt; cbn [app Bool.eqb andb].
  - done.
  - apply levels_dollar in Ds as (l & ls & ->). cbn [match_levels].
    rewrite decide_False by naive_solver.
    rewrite bool_decide_eq_false_2; [done|]. naive_solver.
  - apply levels_dollar in Dt as (l & ls & ->). cbn [match_levels].
    rewrite decide_False by naive_solver.
    rewrite bool_decide_eq_false_2; [done|]. naive_solver.
  - cbn [match_levels]. rewrite decide_False by naive_solver.
    rewrite bool_decide_eq_true_2; [done|]. naive_solver.
Qed.

(** ** Valid filters, by levels *)

Definition level_ok (l : bytes) (rest : list bytes) : Prop :=
  wildcard_free l ∨ l = [c_plus] ∨ (l = [c_hash] ∧ rest = []).

Fixpoint filter_ok (ls : list bytes) : Prop :=
  match ls with [] => True | l :: ls' => level_ok l ls' ∧ filter_ok ls' end.

Lemma wildcard_free_cons c l :
  wildcard_free (c :: l) ↔ c ≠ c_plus ∧ c ≠ c_hash ∧ wildcard_free l.
Proof. unfold wildcard_free. set_solver. Qed.

Lemma wildcard_free_nil : wildcard_free [].
Proof. unfold wildcard_free. set_solver. Qed.

Lemma level_ok_char c l rest :
  c ≠ c_plus → c ≠ c_hash → level_ok (c :: l) rest ↔ wildcard_free l.
Proof. unfold level_ok. rewrite wildcard_free_cons. naive_solver. Qed.

Lemma levels_singleton_nil_inv s l : levels s = [l] → l = [] → s = [].
Proof. intros Hl ->. by apply levels_nil_inv. Qed.

Lemma valid_from_levels prev s l ls :
  0%Z ∉ s → levels s = l :: ls →
  valid_from prev s ↔
    (if bad_prev prev then wildcard_free l else level_ok l ls) ∧ filter_ok ls.
Proof.
  revert prev l ls. induction s as [|d s IH]; intros prev l ls H0 Hl.
  { injection Hl as <- <-. pose proof wildcard_free_nil.
    unfold level_ok. destruct (bad_prev prev); simpl; tauto. }
  assert (d ≠ 0%Z ∧ 0%Z ∉ s) as [Hd0 H0s] by set_solver.
  destruct (levels_cons s) as (l' & ls' & Hl'). cbn [valid_from].
  rewrite (IH d l' ls' H0s Hl').
  destruct (decide (d = c_slash)) as [->|Hds].
  { rewrite levels_slash, Hl' in Hl. injection Hl as <- <-. pose proof wildcard_free_nil.
    unfold level_ok at 2. cbn [filter_ok]. replace (bad_prev c_slash) with false by done.
    destruct (bad_prev prev); naive_solver. }
  rewrite (levels_char _ _ _ _ Hds Hl') in Hl. injection Hl as <- <-.
  assert (bad_prev d = true) as -> by (by apply bool_decide_eq_true_2).
  destruct (decide (d = c_plus)) as [->|Hp].
  { assert (s = [] ∨ head s = Some c_slash ↔ l' = []) as Hs.
    { destruct s as [|c s]; simpl in *; [naive_solver|].
      case_decide; [naive_solver|]. destruct (levels s); naive_solver. }
    pose proof wildcard_free_nil. unfold level_ok.
    destruct (bad_prev prev); rewrite Hs, wildcard_free_cons; naive_solver. }
  destruct (decide (d = c_hash)) as [->|Hh].
  { assert (s = [] ↔ l' = [] ∧ ls' = []) as Hs.
    { split; [by intros ->; injection Hl' as <- <-|]. intros [-> ->]. by apply levels_nil_inv. }
    pose proof wildcard_free_nil. unfold level_ok.
    destruct (bad_prev prev); rewrite Hs, wildcard_free_cons; naive_solver. }
  destruct (bad_prev prev); [rewrite wildcard_free_cons|rewrite level_ok_char by done]; tauto.
Qed.

Lemma valid_from_filter_ok s : 0%Z ∉ s → valid_from 0 s ↔ filter_ok (levels s).
Proof.
  intros H0. destruct (levels_cons s) as (l & ls & Hl).
  rewrite (valid_from_levels 0 s l ls H0 Hl), Hl. done.
Qed.

Lemma sub_topic_scan_iff s prev len :
  0%Z ∉ s →
  sub_topic_scan prev s len = MOSQ_ERR_SUCCESS ↔
    valid_from prev s ∧ (len + Z.of_nat (length s) ≤ 65535)%Z.
Proof.
  intros H0. split.
  - intros H. split; [by eapply sub_topic_scan_valid|].
    revert prev len H0 H. induction s as [|d s IH]; intros prev len H0 H; cbn [sub_topic_scan] in H.
    + destruct (Z.ltb_spec 65535 len); [discriminate|simpl; lia].
    + assert (0%Z ∉ s) by set_solver.
      enough ((len + 1) + Z.of_nat (length s) ≤ 65535)%Z by (simpl; lia).
      repeat case_match; try discriminate; by eapply IH.
  - intros [Hv Hl]. revert prev len H0 Hv Hl.
    induction s as [|d s IH]; intros prev len H0 Hv Hl; cbn [sub_topic_scan].
    + destruct (Z.ltb_spec 65535 len); [simpl in *; lia|done].
    + destruct Hv as (Hp & Hh & Hv).
      assert (sub_topic_scan d s (len + 1) = MOSQ_ERR_SUCCESS) as IH'.
      { apply IH; [set_solver|done|]. simpl in Hl. lia. }
      assert (∀ z, bad_prev z = false → (negb (z =? 0)%Z && negb (z =? c_slash)%Z) = false) as Hb.
      { intros z Hz%bool_decide_eq_false.
        destruct (Z.eqb_spec z 0), (Z.eqb_spec z c_slash); tauto. }
      destruct (Z.eqb_spec d c_plus) as [E|_].
      { destruct (Hp E) as [E1 E2]. rewrite Hb by done. cbn [orb].
        replace (negb _ && negb _) with false; [done|].
        destruct E2 as [->|E2]; [done|]. destruct s; simplify_eq/=. done. }
      destruct (Z.eqb_spec d c_hash) as [E|_]; [|done].
      destruct (Hh E) as [E1 ->]. by rewrite Hb.
Qed.

Lemma topic_matches_sub_exact_aux (sub topic : bytes) :
  sub ≠ [] → topic ≠ [] → 0%Z ∉ sub →
  mosquitto_sub_topic_check sub = MOSQ_ERR_SUCCESS →
  mosquitto_pub_topic_check topic = MOSQ_ERR_SUCCESS →
  mosquitto_topic_matches_sub sub topic =
    Some (MOSQ_ERR_SUCCESS,
          Some (mqtt_match sub topic && negb (plus_hash_parent sub topic))).
Proof.
  intros Hs Ht H0 Hcs Hct. unfold mosquitto_topic_matches_sub, mqtt_match.
  apply sub_topic_scan_valid in Hcs; [|done]. apply pub_topic_scan_free in Hct.
  destruct sub as [|s0 sub']; [done|]. destruct topic as [|t0 topic']; [done|].
  cbn [length Nat.eqb orb]. rewrite !char_at_drop by (simpl; lia).
  rewrite !drop_0. cbn [mbind option_bind head from_option id].
  unfold dollar. cbn [head].
  rewrite (bool_decide_ext (Some s0 = Some c_dollar) (s0 = c_dollar)) by naive_solver.
  rewrite (bool_decide_ext (Some t0 = Some c_dollar) (t0 = c_dollar)) by naive_solver.
  destruct (decide (s0 = c_dollar ↔ t0 = c_dollar)) as [Hd|Hd].
  - rewrite !(bool_decide_eq_false_2 (_ ∧ _)) by tauto. cbn [orb].
    rewrite (bool_decide_ext _ _ Hd), Bool.eqb_reflx. cbn [andb].
    change (match_loop (S (length sub'))) with (match_loop (length (s0 :: sub'))).
    rewrite match_loop_suf by (done || (simpl; lia)). rewrite !drop_0.
    rewrite msuf_levels by (done || split; congruence).
    rewrite match_levels_code_exact. do 4 f_equal. unfold plus_hash_parent.
    destruct (Nat.eqb_spec (length (levels (t0 :: topic'))) (length (levels (s0 :: sub')) - 1)).
    + rewrite andb_true_r. f_equal. apply bool_decide_ext. unfold ends_plus_hash. naive_solver.
    + rewrite andb_false_r. f_equal. apply bool_decide_eq_false_2. naive_solver.
  - replace (bool_decide (s0 = c_dollar ∧ t0 ≠ c_dollar)
             || bool_decide (t0 = c_dollar ∧ s0 ≠ c_dollar)) with true.
    2: { symmetry. rewrite orb_true_iff, !bool_decide_eq_true.
         destruct (decide (s0 = c_dollar)), (decide (t0 = c_dollar)); tauto. }
    replace (Bool.eqb _ _) with false; [done|].
    symmetry. apply eqb_false_iff. intros E. apply Hd.
    rewrite <-(bool_decide_eq_true (s0 = c_dollar)), <-(bool_decide_eq_true (t0 = c_dollar)).
    by rewrite E.
Qed.

Lemma topic_matches_sub_total (sub topic : bytes) :
  0%Z ∉ sub → ∃ rc b, mosquitto_topic_matches_sub sub topic = Some (rc, Some b).
Proof.
  intros H0. unfold mosquitto_topic_matches_sub.
  destruct sub as [|s0 sub']; [by eauto|]. destruct topic as [|t0 topic']; [by eauto|].
  cbn [length Nat.eqb orb]. rewrite !char_at_drop by (simpl; lia).
  cbn [mbind option_bind]. case_match; [by eauto|].
  change (match_loop (S (length sub'))) with (match_loop (length (s0 :: sub'))).
  rewrite match_loop_suf by (done || (simpl; lia)).
  destruct (msuf_stores (prev_char (s0 :: sub') 0) (drop 0 (s0 :: sub')) (drop 0 (t0 :: topic')))
    as (rc & b & ->); [done|eauto].
Qed.

(** ** Theorems *)

(** [mosquitto_topic_matches_sub] never reads outside the two strings
    and always stores a result, whatever the filter and the topic are: its
    callers in the ACL code use the result without looking at the return
    code. *)
Lemma topic_matches_sub_defined (sub topic : bytes) :
  0%Z ∉ sub → ∃ rc b, mosquitto_topic_matches_sub sub topic = Some (rc, Some b).
Proof. apply topic_matches_sub_total. Qed.

(** C20: on a filter that [mosquitto_sub_topic_check] accepts and a topic
    that [mosquitto_pub_topic_check] accepts, the index-based loop computes
    MQTT matching by levels, [$] topics kept apart, with exactly one
    exception: a filter that ends in [+/#] does not match the parent level
    that its [+] stands for. *)
Theorem topic_matches_sub_exact (sub topic : bytes) :
  sub ≠ [] → topic ≠ [] → 0%Z ∉ sub →
  mosquitto_sub_topic_check sub = MOSQ_ERR_SUCCESS →
  mosquitto_pub_topic_check topic = MOSQ_ERR_SUCCESS →
  mosquitto_topic_matches_sub sub topic =
    Some (MOSQ_ERR_SUCCESS,
          Some (mqtt_match sub topic && negb (plus_hash_parent sub topic))).
Proof. apply topic_matches_sub_exact_aux. Qed.

Lemma topic_matches_sub_exact_witness :
  mosquitto_topic_matches_sub (str "a/+/#") (str "a/b/c/d") = Some (MOSQ_ERR_SUCCESS, Some true).
Proof.
  rewrite (topic_matches_sub_exact (str "a/+/#") (str "a/b/c/d"));
    [reflexivity|done|done|by_compute|reflexivity|reflexivity].
Defined.

(** [mosquitto_sub_topic_check] accepts exactly the filters of at most
    65535 bytes in which every level that holds a wildcard is [+], or is [#]
    and the last one. *)
Lemma sub_topic_check_levels (s : bytes) :
  0%Z ∉ s →
  mosquitto_sub_topic_check s = MOSQ_ERR_SUCCESS ↔
    filter_ok (levels s) ∧ (Z.of_nat (length s) ≤ 65535)%Z.
Proof.
  intros H0. unfold mosquitto_sub_topic_check.
  by rewrite sub_topic_scan_iff, valid_from_filter_ok, Z.add_0_l.
Qed.

(** The tokeniser of the subscription tree yields an empty first token
    exactly for the topics that do not begin with [$], followed by the levels
    of the topic, and the topic can be rebuilt from its tokens. *)
Lemma sub_topic_tokenise_roundtrip (s : bytes) :
  0%Z ∉ s →
  ∃ ts, _sub_topic_tokenise s = Some ts ∧
        ts = (if dollar s then [] else [[]]) ++ levels s ∧
        join_levels (if decide (head ts = Some []) then tail ts else ts) = s.
Proof.
  intros H0. exists (tokens s). split; [by apply tokenise_tokens|]. split; [done|].
  unfold tokens. destruct (dollar s) eqn:Hd; [|apply join_levels_levels].
  destruct (levels_dollar s Hd) as (l & ls & Hl). cbn [app]. rewrite Hl. cbn [head].
  rewrite decide_False by naive_solver. rewrite <-Hl. apply join_levels_levels.
Qed.

(** The two matchers of the broker disagree: [+/#] matches every
    one-level topic in MQTT and in the subscription tree, but
    [mosquitto_topic_matches_sub], which ACLs and bridge remapping use, says
    it does not. *)
Lemma plus_hash_parent_divergence (topic : bytes) :
  topic ≠ [] → dollar topic = false → c_slash ∉ topic →
  mosquitto_pub_topic_check topic = MOSQ_ERR_SUCCESS →
  mqtt_match (str "+/#") topic = true ∧
  match_levels (tokens (str "+/#")) (tokens topic) = true ∧
  mosquitto_topic_matches_sub (str "+/#") topic = Some (MOSQ_ERR_SUCCESS, Some false).
Proof.
  intros Hne Hd Hs Hc. rewrite match_tokens.
  assert (mqtt_match (str "+/#") topic = true) as Hm.
  { unfold mqtt_match. rewrite Hd, (levels_no_slash _ Hs). done. }
  split_and!; [done..|].
  rewrite topic_matches_sub_exact_aux by (done || by_compute).
  do 3 f_equal. unfold plus_hash_parent. rewrite (levels_no_slash _ Hs), andb_false_iff.
  by right.
Qed.
