(* ===== verification/Packet.v ===== *)
(** * MQTT packets (lib/net_mosq.c, lib/util_mosq.c, lib/send_mosq.c)

    [struct _mosquitto_packet], the primitives that read and write its
    payload, the fixed header that [_mosquitto_packet_alloc] writes, and the
    incremental reader of [_mosquitto_packet_read], which may be interrupted
    by the socket at any byte. *)

From stdpp Require Import base list numbers option sets.
From Stdlib Require Import ZArith Lia.
From S2P Require Import Prelude.
Local Open Scope Z_scope.

(** ** Data *)

(** [payload = None] is the NULL pointer; the buffer's length is the size
    it was allocated with. *)
Record packet := Packet {
  payload : option bytes;
  remaining_mult : Z;
  remaining_length : Z;
  packet_length : Z;
  to_process : Z;
  pos : Z;
  pmid : Z;
  command : Z;
  remaining_count : Z;
}.

(** What [_mosquitto_calloc] gives. *)
Definition packet_zero : packet := Packet None 0 0 0 0 0 0 0 0.

Definition set_pos (n : Z) (p : packet) : packet :=
  Packet (payload p) (remaining_mult p) (remaining_length p) (packet_length p)
    (to_process p) n (pmid p) (command p) (remaining_count p).
Definition set_payload (b : option bytes) (p : packet) : packet :=
  Packet b (remaining_mult p) (remaining_length p) (packet_length p)
    (to_process p) (pos p) (pmid p) (command p) (remaining_count p).

(** Message types (lib/mqtt3_protocol.h) *)
Definition CONNECT : Z := 0x10.
Definition CONNACK : Z := 0x20.
Definition PUBLISH : Z := 0x30.
Definition PUBACK : Z := 0x40.
Definition PUBREC : Z := 0x50.
Definition PUBREL : Z := 0x60.
Definition PUBCOMP : Z := 0x70.
Definition SUBSCRIBE : Z := 0x80.
Definition SUBACK : Z := 0x90.
Definition UNSUBSCRIBE : Z := 0xA0.
Definition UNSUBACK : Z := 0xB0.
Definition PINGREQ : Z := 0xC0.
Definition PINGRESP : Z := 0xD0.
Definition DISCONNECT : Z := 0xE0.

Definition MOSQ_MSB (a : Z) : Z := u8 (Z.shiftr (Z.land a 0xFF00) 8).
Definition MOSQ_LSB (a : Z) : Z := u8 (Z.land a 0x00FF).

(** ** Reading the payload

    An error is the return code ([inl]); [None] is an access outside the
    payload's buffer. *)

Definition reader (A : Type) : Type := packet → option ((Z + A) * packet).

Definition _mosquitto_read_byte : reader Z := λ p,
  if remaining_length p <? u32 (pos p + 1) then Some (inl MOSQ_ERR_PROTOCOL, p)
  else
    b ← payload p;
    x ← b !! Z.to_nat (pos p);
    Some (inr x, set_pos (u32 (pos p + 1)) p).

(** [memcpy(dst, &payload[pos], count)] *)
Definition payload_slice (p : packet) (count : Z) : option bytes :=
  if count =? 0 then Some []
  else
    b ← payload p;
    if Z.of_nat (length b) <? pos p + count then None
    else Some (take (Z.to_nat count) (drop (Z.to_nat (pos p)) b)).

Definition _mosquitto_read_bytes (count : Z) : reader bytes := λ p,
  if remaining_length p <? u32 (pos p + count) then Some (inl MOSQ_ERR_PROTOCOL, p)
  else
    bs ← payload_slice p count;
    Some (inr bs, set_pos (u32 (pos p + count)) p).

Definition _mosquitto_read_uint16 : reader Z := λ p,
  if remaining_length p <? u32 (pos p + 2) then Some (inl MOSQ_ERR_PROTOCOL, p)
  else
    b ← payload p;
    msb ← b !! Z.to_nat (pos p);
    lsb ← b !! Z.to_nat (u32 (pos p + 1));
    Some (inr (u16 (Z.shiftl msb 8 + lsb)), set_pos (u32 (u32 (pos p + 1) + 1)) p).

(** The buffer it returns; its users see it up to the first NUL ([cstr]). *)
Definition _mosquitto_read_string : reader bytes := λ p,
  '(r, p) ← _mosquitto_read_uint16 p;
  match r with
  | inl rc => Some (inl rc, p)
  | inr len =>
      if remaining_length p <? u32 (pos p + len) then Some (inl MOSQ_ERR_PROTOCOL, p)
      else
        bs ← payload_slice p len;
        Some (inr (cstr bs), set_pos (u32 (pos p + len)) p)
  end.

(** ** Writing the payload

    [None]: an [assert] fails or the buffer is overrun. *)

Definition _mosquitto_write_byte (byte : Z) (p : packet) : option packet :=
  if packet_length p <? u32 (pos p + 1) then None
  else
    b ← payload p;
    if (Z.to_nat (pos p) <? length b)%nat
    then Some (set_pos (u32 (pos p + 1)) (set_payload (Some (<[Z.to_nat (pos p) := byte]> b)) p))
    else None.

Definition _mosquitto_write_bytes (bs : bytes) (count : Z) (p : packet) : option packet :=
  if packet_length p <? u32 (pos p + count) then None
  else
    b ← payload p;
    let i := Z.to_nat (pos p) in
    if (Z.of_nat (length b) <? pos p + count) || (Z.of_nat (length bs) <? count) then None
    else
      Some (set_pos (u32 (pos p + count))
        (set_payload (Some (take i b ++ take (Z.to_nat count) bs
                            ++ drop (i + Z.to_nat count) b)) p)).

Definition _mosquitto_write_uint16 (word : Z) (p : packet) : option packet :=
  p ← _mosquitto_write_byte (MOSQ_MSB word) p;
  _mosquitto_write_byte (MOSQ_LSB word) p.

Definition _mosquitto_write_string (s : bytes) (length : Z) (p : packet) : option packet :=
  p ← _mosquitto_write_uint16 length p;
  _mosquitto_write_bytes s length p.

(** ** [_mosquitto_packet_alloc] *)

(** The [do ... while]: the digits of the remaining length, [n] of them at
    most. *)
Fixpoint remaining_digits (n : nat) (rl : Z) : bytes :=
  match n with
  | O => []
  | S n' =>
      let byte := u8 (rl `mod` 128) in
      let rl := rl `div` 128 in
      if 0 <? rl then Z.lor byte 0x80 :: remaining_digits n' rl else [byte]
  end.

Definition _mosquitto_packet_alloc (p : packet) : Z * packet :=
  let rb := remaining_digits 5 (remaining_length p) in
  let count := Z.of_nat (length rb) in
  let p := Packet None (remaining_mult p) (remaining_length p) (packet_length p)
             (to_process p) (pos p) (pmid p) (command p) count in
  if count =? 5 then (MOSQ_ERR_PAYLOAD_SIZE, p)
  else
    let plen := u32 (remaining_length p + 1 + count) in
    let buf := (command p :: rb) ++ replicate (Z.to_nat plen - S (length rb)) 0 in
    (MOSQ_ERR_SUCCESS,
     Packet (Some buf) (remaining_mult p) (remaining_length p) plen
       (to_process p) (1 + count) (pmid p) (command p) count).

(** ** [_mosquitto_packet_cleanup] *)

Definition _mosquitto_packet_cleanup (p : packet) : packet :=
  Packet None 1 0 (packet_length p) 0 0 (pmid p) 0 0.

(** ** The socket, as seen by [read]

    The script of what the following calls of [read] find. [InData bs]: the
    bytes [bs] can be read, as many at a time as the caller asks for; with no
    bytes left, and at the end of the script, [read] fails with [EAGAIN]. *)

Inductive errno := EAGAIN | ECONNRESET | EOTHER.

Inductive in_event := InData (bs : bytes) | InEof | InErr (e : errno).

Inductive read_res := RData (bs : bytes) | REof | RErr (e : errno).

Definition _mosquitto_net_read (count : nat) (input : list in_event)
    : read_res * list in_event :=
  match input with
  | [] => (RErr EAGAIN, [])
  | InData [] :: input' => (RErr EAGAIN, input')
  | InData bs :: input' =>
      (RData (take count bs),
       match drop count bs with [] => input' | bs' => InData bs' :: input' end)
  | InEof :: input' => (REof, input')
  | InErr e :: input' => (RErr e, input')
  end.

(** What the reader keeps in the context between two calls. *)
Record conn_in := ConnIn {
  in_packet : packet;
  input : list in_event;
  last_msg_in : Z;
}.

Definition read_errno (e : errno) : Z :=
  match e with
  | EAGAIN => MOSQ_ERR_SUCCESS
  | ECONNRESET => MOSQ_ERR_CONN_LOST
  | EOTHER => MOSQ_ERR_ERRNO
  end.

(** The outcome of a phase: the function returned [rc], or goes on. *)
Definition phase : Type := conn_in → option (option Z * conn_in).

Definition set_in (p : packet) (i : list in_event) (c : conn_in) : conn_in :=
  ConnIn p i (last_msg_in c).

Definition then_phase (f g : phase) : phase := λ c,
  '(r, c) ← f c;
  match r with Some rc => Some (Some rc, c) | None => g c end.

(** The command byte. [fresh_client]: not a bridge and still [mosq_cs_new]. *)
Definition read_command (fresh_client : bool) : phase := λ c,
  let p := in_packet c in
  if command p =? 0 then
    let '(r, i) := _mosquitto_net_read 1 (input c) in
    match r with
    | RData [byte] =>
        let c := set_in (Packet (payload p) (remaining_mult p) (remaining_length p)
                   (packet_length p) (to_process p) (pos p) (pmid p) byte
                   (remaining_count p)) i c in
        if fresh_client && negb (Z.land byte 0xF0 =? CONNECT)
        then Some (Some MOSQ_ERR_PROTOCOL, c)
        else Some (None, c)
    | RData _ => None
    | REof => Some (Some MOSQ_ERR_CONN_LOST, set_in p i c)
    | RErr e => Some (Some (read_errno e), set_in p i c)
    end
  else Some (None, c).

(** The [do ... while] over the digits of the remaining length: at most five
    rounds, since [remaining_count] is decremented by each and the fifth digit
    is refused. *)
Fixpoint read_digits (n : nat) : phase := λ c,
  match n with
  | O => None
  | S n' =>
      let p := in_packet c in
      let '(r, i) := _mosquitto_net_read 1 (input c) in
      match r with
      | RData [byte] =>
          let count := remaining_count p - 1 in
          if count <? -4 then
            Some (Some MOSQ_ERR_PROTOCOL,
              set_in (Packet (payload p) (remaining_mult p) (remaining_length p)
                (packet_length p) (to_process p) (pos p) (pmid p) (command p) count) i c)
          else
            let rl := u32 (remaining_length p + u32 (Z.land byte 127 * remaining_mult p)) in
            let mult := u32 (remaining_mult p * 128) in
            let c := set_in (Packet (payload p) mult rl (packet_length p)
                       (to_process p) (pos p) (pmid p) (command p) count) i c in
            if negb (Z.land byte 128 =? 0) then read_digits n' c else Some (None, c)
      | RData _ => None
      | REof => Some (Some MOSQ_ERR_CONN_LOST, set_in p i c)
      | RErr e => Some (Some (read_errno e), set_in p i c)
      end
  end.

(** [remaining_count *= -1] and the allocation of the payload, whose bytes are
    all written before any is read (here they start as zeros). *)
Definition alloc_payload : phase := λ c,
  let p := in_packet c in
  let count := - remaining_count p in
  let p :=
    if 0 <? remaining_length p then
      Packet (Some (replicate (Z.to_nat (remaining_length p)) 0)) (remaining_mult p)
        (remaining_length p) (packet_length p) (remaining_length p) (pos p) (pmid p)
        (command p) count
    else
      Packet (payload p) (remaining_mult p) (remaining_length p) (packet_length p)
        (to_process p) (pos p) (pmid p) (command p) count in
  Some (None, set_in p (input c) c).

Definition read_remaining : phase := λ c,
  if remaining_count (in_packet c) <=? 0
  then then_phase (read_digits 5) alloc_payload c
  else Some (None, c).

(** The [while(to_process>0)] loop: each round takes at least a byte. *)
Fixpoint read_payload (now : Z) (n : nat) : phase := λ c,
  let p := in_packet c in
  if 0 <? to_process p then
    match n with
    | O => None
    | S n' =>
        let '(r, i) := _mosquitto_net_read (Z.to_nat (to_process p)) (input c) in
        match r with
        | RData bs =>
            let len := Z.of_nat (length bs) in
            let at_ := Z.to_nat (pos p) in
            b ← payload p;
            if (at_ + length bs <=? length b)%nat then
              read_payload now n' (set_in
                (Packet (Some (take at_ b ++ bs ++ drop (at_ + length bs) b))
                   (remaining_mult p) (remaining_length p) (packet_length p)
                   (to_process p - len) (pos p + len) (pmid p) (command p)
                   (remaining_count p)) i c)
            else None
        | REof => Some (Some MOSQ_ERR_ERRNO, set_in p i c)
        | RErr EAGAIN =>
            Some (Some MOSQ_ERR_SUCCESS,
              ConnIn p i (if 1000 <? to_process p then now else last_msg_in c))
        | RErr e => Some (Some (read_errno e), set_in p i c)
        end
    end
  else Some (None, c).

(** [_mosquitto_packet_read] up to the call of the packet's handler: [None]
    when the packet is complete and [pos] is back at 0. *)
Definition packet_fill (fresh_client : bool) (now : Z) : phase :=
  then_phase (read_command fresh_client)
    (then_phase read_remaining
      (λ c, then_phase (read_payload now (Z.to_nat (to_process (in_packet c))))
              (λ c, Some (None, set_in (set_pos 0 (in_packet c)) (input c) c)) c)).

(** [_mosquitto_packet_read] is called again whenever the socket is readable:
    at most [n] calls after the first one, until a packet is complete or the
    connection fails. *)
Fixpoint packet_fill_calls (fresh_client : bool) (now : Z) (n : nat) : phase := λ c,
  '(r, c') ← packet_fill fresh_client now c;
  match n, r with
  | S n', Some 0 => packet_fill_calls fresh_client now n' c'
  | _, _ => Some (r, c')
  end.

(** ** The wire format *)

(** A packet as it travels: command, remaining length, variable header and
    payload. *)
Definition wire (cmd : Z) (body : bytes) : bytes :=
  cmd :: remaining_digits 5 (Z.of_nat (length body)) ++ body.

Definition MAX_BODY : Z := 128 ^ 4.

Definition data_of (e : in_event) : bytes :=
  match e with InData bs => bs | _ => [] end.
Definition is_data (e : in_event) : bool :=
  match e with InData _ => true | _ => false end.
(** The bytes a script of data events delivers. *)
Definition stream (i : list in_event) : bytes := concat (data_of <$> i).

(** The reader's packet once [k] bytes of [wire cmd body] have been consumed;
    [p0] gives the fields that reading leaves alone. *)
Definition reader_at (p0 : packet) (cmd : Z) (body : bytes) (k : nat) : packet :=
  let len := Z.of_nat (length body) in
  let d := length (remaining_digits 5 len) in
  match k with
  | O => Packet None 1 0 (packet_length p0) 0 0 (pmid p0) 0 0
  | S j =>
      if (j <? d)%nat then
        Packet None (128 ^ Z.of_nat j) (len `mod` 128 ^ Z.of_nat j) (packet_length p0)
          0 0 (pmid p0) cmd (- Z.of_nat j)
      else
        Packet
          (if 0 <? len then Some (take (j - d) body ++ replicate (length body - (j - d)) 0)
           else None)
          (128 ^ Z.of_nat d) len (packet_length p0) (len - Z.of_nat (j - d))
          (Z.of_nat (j - d)) (pmid p0) cmd (Z.of_nat d)
  end.

(** *** Lemmas on the digits of the remaining length *)

Lemma digits_length_bound n m x :
  0 ≤ x < 128 ^ Z.of_nat m → (1 ≤ m)%nat → (length (remaining_digits n x) ≤ m)%nat.
Proof.
  revert m x. induction n as [|n IH]; intros m x Hx Hm; [simpl; lia|].
  cbn [remaining_digits]. destruct (0 <? x `div` 128) eqn:E; simpl; [|lia].
  apply Z.ltb_lt in E. destruct m as [|[|m]]; [lia| |].
  - rewrite Z.div_small in E by (simpl in Hx; lia). lia.
  - apply le_n_S, IH; [|lia]. rewrite (Nat2Z.inj_succ (S m)), Z.pow_succ_r in Hx by lia.
    split; [lia|apply Z.div_lt_upper_bound; lia].
Qed.

Lemma digit_land127 x : 0 ≤ x → Z.land (u8 (x `mod` 128)) 127 = x `mod` 128.
Proof.
  intros Hx. unfold u8. rewrite (Z.mod_small (x `mod` 128) 256).
  - change 127 with (Z.ones 7). rewrite Z.land_ones by lia. by apply Z.mod_mod.
  - pose proof (Z.mod_pos_bound x 128). lia.
Qed.

Lemma land128_small x : 0 ≤ x < 128 → Z.land x 128 = 0.
Proof.
  intros Hx. apply Z.bits_inj'. intros i Hi. rewrite Z.land_spec, Z.bits_0.
  change 128 with (2 ^ 7). rewrite Z.pow2_bits_eqb by lia.
  destruct (Z.eqb_spec 7 i) as [<-|]; [|by rewrite andb_false_r].
  rewrite andb_true_r. rewrite Z.testbit_eqb by lia.
  rewrite Z.div_small by lia. done.
Qed.

Lemma digit_more x : 0 ≤ x < 128 →
  Z.land (Z.lor x 0x80) 127 = x ∧ Z.land (Z.lor x 0x80) 128 = 128.
Proof.
  intros Hx. rewrite !Z.land_lor_distr_l. change (Z.land 128 127) with 0.
  change (Z.land 128 128) with 128. rewrite land128_small by done. split; [|done].
  rewrite Z.lor_0_r. change 127 with (Z.ones 7). rewrite Z.land_ones by lia.
  by apply Z.mod_small.
Qed.

(** The [j]th digit, and whether it carries the continuation bit. *)
Lemma remaining_digits_lookup n x j b :
  0 ≤ x < 128 ^ Z.of_nat n →
  remaining_digits n x !! j = Some b →
  Z.land b 127 = (x `div` 128 ^ Z.of_nat j) `mod` 128 ∧
  (Z.land b 128 = 0 ↔ S j = length (remaining_digits n x)).
Proof.
  revert x j. induction n as [|n IH]; intros x j Hx Hl; [done|].
  rewrite Nat2Z.inj_succ, Z.pow_succ_r in Hx by lia.
  pose proof (Z.mod_pos_bound x 128 ltac:(lia)) as Hm.
  cbn [remaining_digits] in *. destruct (0 <? x `div` 128) eqn:E.
  - apply Z.ltb_lt in E.
    assert (Hq : 0 ≤ x `div` 128 < 128 ^ Z.of_nat n)
      by (split; [lia|apply Z.div_lt_upper_bound; lia]).
    destruct j as [|j]; simpl in Hl.
    + simplify_eq. unfold u8. rewrite (Z.mod_small (x `mod` 128)) by lia.
      destruct (digit_more (x `mod` 128) Hm) as [-> ->].
      rewrite Z.div_1_r. split; [done|]. split; [done|]. cbn [length].
      destruct n; [simpl in *; lia|]. cbn [remaining_digits].
      case_match; simpl; lia.
    + destruct (IH _ _ Hq Hl) as [-> Hc]. split; [|simpl; rewrite Hc; lia].
      rewrite Nat2Z.inj_succ, Z.pow_succ_r, <-Z.div_div by lia. done.
  - apply Z.ltb_ge in E. destruct j as [|j]; simpl in Hl; [|by destruct j].
    simplify_eq. rewrite digit_land127, Z.div_1_r by lia. split; [done|].
    unfold u8. rewrite (Z.mod_small (x `mod` 128)), land128_small by lia. done.
Qed.

Lemma remaining_digits_nonempty n x : (1 ≤ n)%nat → (1 ≤ length (remaining_digits n x))%nat.
Proof. destruct n; [lia|]. cbn [remaining_digits]. case_match; simpl; lia. Qed.

(** All digits read: the whole number. *)
Lemma remaining_digits_all n x :
  0 ≤ x < 128 ^ Z.of_nat n → (1 ≤ n)%nat →
  x < 128 ^ Z.of_nat (length (remaining_digits n x)).
Proof.
  revert x. induction n as [|n IH]; intros x Hx Hn; [lia|].
  cbn [remaining_digits]. destruct (0 <? x `div` 128) eqn:E; cbn [length].
  - apply Z.ltb_lt in E. rewrite Nat2Z.inj_succ, Z.pow_succ_r in Hx |- * by lia.
    assert (Hq : 0 ≤ x `div` 128 < 128 ^ Z.of_nat n)
      by (split; [lia|apply Z.div_lt_upper_bound; lia]).
    destruct (decide (n = 0%nat)) as [->|]; [simpl in Hq; lia|].
    specialize (IH _ Hq ltac:(lia)).
    pose proof (Z.div_mod x 128). pose proof (Z.mod_pos_bound x 128). lia.
  - apply Z.ltb_ge in E. pose proof (Z.div_mod x 128).
    pose proof (Z.mod_pos_bound x 128). change (Z.of_nat 1) with 1. lia.
Qed.

(** From 128^4 on there are five digits. *)
Lemma remaining_digits_5 x :
  MAX_BODY ≤ x < 4294967296 → length (remaining_digits 5 x) = 5%nat.
Proof.
  intros Hx. unfold MAX_BODY in Hx.
  pose proof (remaining_digits_all 5 x) as Hall.
  pose proof (digits_length_bound 5 5 x) as Hb.
  destruct (decide (length (remaining_digits 5 x) ≤ 4)%nat); [|lia].
  assert (128 ^ Z.of_nat (length (remaining_digits 5 x)) ≤ 128 ^ 4)
    by (apply Z.pow_le_mono_r; lia). lia.
Qed.

(** *** Lemmas on the socket *)

Lemma net_read_1 i b bs :
  forallb is_data i = true → stream i = b :: bs →
  ∃ i', forallb is_data i' = true ∧
    ((_mosquitto_net_read 1 i = (RErr EAGAIN, i') ∧ stream i' = b :: bs ∧
      (length i' < length i)%nat) ∨
     (_mosquitto_net_read 1 i = (RData [b], i') ∧ stream i' = bs ∧
      (length i' ≤ length i)%nat)).
Proof.
  destruct i as [|[[|x xs]| |] i]; cbn; intros Hd Hs; try done.
  - exists i. split; [done|]. left. auto.
  - simplify_eq. destruct xs as [|y xs].
    + exists i. split; [done|]. right. repeat split; auto.
    + exists (InData (y :: xs) :: i). split; [done|]. right. auto.
Qed.

Lemma net_read_n n i :
  (0 < n)%nat → forallb is_data i = true → stream i ≠ [] →
  ∃ i', forallb is_data i' = true ∧
    ((_mosquitto_net_read n i = (RErr EAGAIN, i') ∧ stream i' = stream i ∧
      (length i' < length i)%nat) ∨
     (∃ xs, _mosquitto_net_read n i = (RData xs, i') ∧ (0 < length xs ≤ n)%nat ∧
      stream i = xs ++ stream i' ∧ (length i' ≤ length i)%nat)).
Proof.
  destruct i as [|[[|x xs]| |] i]; intros Hn Hd Hs; try done.
  - exists i. split; [done|]. left. auto.
  - unfold _mosquitto_net_read.
    exists (match drop n (x :: xs) with [] => i | b :: bs => InData (b :: bs) :: i end).
    split; [by destruct (drop n (x :: xs))|]. right. exists (take n (x :: xs)).
    split; [by destruct (drop n (x :: xs))|]. split.
    { rewrite length_take. simpl. lia. }
    unfold stream at 1. cbn [fmap list_fmap data_of concat].
    rewrite <-(take_drop n (x :: xs)) at 1.
    destruct (drop n (x :: xs)) as [|y ys]; simpl; rewrite <-?(assoc_L (++)); split; auto.
Qed.

(** *** The reader, phase by phase *)

Section reader.
Context (p0 : packet) (cmd : Z) (body rest : bytes).
Context (Hcmd : cmd ≠ 0) (Hlen : Z.of_nat (length body) < MAX_BODY).

Local Notation len := (Z.of_nat (length body)).
Local Notation digits := (remaining_digits 5 len).
Local Notation d := (length digits).

(** [k] bytes of the packet are in, the others are still to come. *)
Definition reading (k : nat) (c : conn_in) : Prop :=
  in_packet c = reader_at p0 cmd body k ∧
  forallb is_data (input c) = true ∧
  stream (input c) = drop k (wire cmd body) ++ rest ∧
  (k ≤ length (wire cmd body))%nat.

(** A phase that started from [c] ran out of data, or went on to [k']. *)
Definition phase_post (c : conn_in) (k' : nat) (r : option Z) (c' : conn_in) : Prop :=
  (r = Some MOSQ_ERR_SUCCESS ∧ (∃ k, reading k c') ∧
   (length (input c') < length (input c))%nat) ∨
  (r = None ∧ reading k' c' ∧ (length (input c') ≤ length (input c))%nat).

Lemma digits_bounds : (1 ≤ d ≤ 4)%nat.
Proof using Hlen.
  split; [apply remaining_digits_nonempty; lia|].
  apply digits_length_bound; [|lia]. unfold MAX_BODY in Hlen. lia.
Qed.

Lemma wire_drop_digit j b :
  digits !! j = Some b → drop (S j) (wire cmd body) = b :: drop (S (S j)) (wire cmd body).
Proof.
  intros Hb. apply drop_S. cbn [wire]. apply lookup_app_l_Some. exact Hb.
Qed.

Lemma wire_drop_body m : drop (S (d + m)) (wire cmd body) = drop m body.
Proof. cbn [wire drop]. by rewrite drop_app_add. Qed.

Lemma wire_length : length (wire cmd body) = S (d + length body).
Proof. cbn [wire length]. by rewrite length_app. Qed.

Lemma reader_at_digit j :
  (j < d)%nat → reader_at p0 cmd body (S j) =
    Packet None (128 ^ Z.of_nat j) (len `mod` 128 ^ Z.of_nat j) (packet_length p0)
      0 0 (pmid p0) cmd (- Z.of_nat j).
Proof. intros Hj. unfold reader_at. by rewrite (proj2 (Nat.ltb_lt _ _) Hj). Qed.

Lemma reader_at_body m :
  reader_at p0 cmd body (S (d + m)) =
    Packet
      (if 0 <? len then Some (take m body ++ replicate (length body - m) 0) else None)
      (128 ^ Z.of_nat d) len (packet_length p0) (len - Z.of_nat m)
      (Z.of_nat m) (pmid p0) cmd (Z.of_nat d).
Proof.
  unfold reader_at. rewrite (proj2 (Nat.ltb_ge _ _)) by lia.
  by replace (d + m - d)%nat with m by lia.
Qed.

Lemma alloc_payload_at p i t :
  p = Packet None (128 ^ Z.of_nat d) len (packet_length p0) 0 0 (pmid p0) cmd (- Z.of_nat d) →
  alloc_payload (ConnIn p i t) = Some (None, ConnIn (reader_at p0 cmd body (S d)) i t).
Proof.
  intros ->. rewrite <-(Nat.add_0_r d) at 3. rewrite reader_at_body.
  unfold alloc_payload, set_in.
  cbn [in_packet payload remaining_mult remaining_length packet_length to_process
       pos pmid command remaining_count input last_msg_in].
  rewrite Z.opp_involutive, take_0, Nat2Z.id, Nat.sub_0_r.
  destruct (Z.ltb_spec 0 len) as [E|E]; repeat f_equal; simpl; lia.
Qed.

Lemma digit_step j b :
  (j < d)%nat → digits !! j = Some b →
  u32 (len `mod` 128 ^ Z.of_nat j + u32 (Z.land b 127 * 128 ^ Z.of_nat j)) =
    len `mod` 128 ^ Z.of_nat (S j) ∧
  u32 (128 ^ Z.of_nat j * 128) = 128 ^ Z.of_nat (S j).
Proof using Hlen.
  intros Hj Hb. pose proof digits_bounds as Hd. unfold MAX_BODY in Hlen.
  destruct (remaining_digits_lookup 5 len j b) as [-> _]; [lia|done|].
  rewrite Nat2Z.inj_succ, Z.pow_succ_r by lia.
  set (m := 128 ^ Z.of_nat j).
  assert (Hm : 0 < m ≤ 128 ^ 3) by (split; [lia|apply Z.pow_le_mono_r; lia]).
  rewrite (Z.mul_comm 128 m), Z.rem_mul_r by lia.
  pose proof (Z.mod_pos_bound (len `div` m) 128).
  pose proof (Z.mod_pos_bound len m).
  unfold u32. split; [|rewrite Z.mod_small; lia].
  rewrite (Z.mod_small (_ * m)) by nia. rewrite Z.mod_small by nia. lia.
Qed.

Lemma phase_post_weaken c1 c2 k r c' :
  (length (input c1) ≤ length (input c2))%nat →
  phase_post c1 k r c' → phase_post c2 k r c'.
Proof. intros Hl [(? & ? & ?)|(? & ? & ?)]; [left|right]; eauto with lia. Qed.

(** One round of the loop, on the [j]th digit. *)
Lemma read_digits_round n j b c i' :
  in_packet c = reader_at p0 cmd body (S j) → digits !! j = Some b →
  _mosquitto_net_read 1 (input c) = (RData [b], i') →
  read_digits (S n) c =
    if decide (S j = d) then
      Some (None, ConnIn (Packet None (128 ^ Z.of_nat d) len (packet_length p0) 0 0
                            (pmid p0) cmd (- Z.of_nat d)) i' (last_msg_in c))
    else read_digits n (ConnIn (reader_at p0 cmd body (S (S j))) i' (last_msg_in c)).
Proof using Hlen.
  intros Hp Hb E. pose proof digits_bounds as Hb4. unfold MAX_BODY in Hlen.
  pose proof (lookup_lt_Some _ _ _ Hb) as Hj.
  cbn [read_digits]. rewrite E, Hp, reader_at_digit by done.
  cbn [payload remaining_mult remaining_length packet_length to_process pos pmid
       command remaining_count]. unfold set_in.
  rewrite (proj2 (Z.ltb_ge _ _)) by lia.
  destruct (digit_step j b Hj Hb) as [-> ->].
  destruct (remaining_digits_lookup 5 len j b) as [_ Hc]; [lia|done|].
  replace (- Z.of_nat j - 1) with (- Z.of_nat (S j)) by lia.
  destruct (Z.eqb_spec (Z.land b 128) 0) as [E0|E0]; cbn [negb].
  - pose proof (proj1 Hc E0) as Hlast. rewrite decide_True by done.
    pose proof (remaining_digits_all 5 len) as Hall. rewrite <-Hlast in Hall |- *.
    by rewrite Z.mod_small by lia.
  - assert (S j ≠ d) by (intros Heq; by apply E0, Hc).
    rewrite decide_False, reader_at_digit by (done || lia). done.
Qed.

Lemma read_digits_at n j c :
  reading (S j) c → (j < d)%nat → (d - j ≤ n)%nat →
  ∃ r c', then_phase (read_digits n) alloc_payload c = Some (r, c') ∧
    phase_post c (S d) r c'.
Proof using Hlen.
  revert j c. induction n as [|n IH]; intros j c (Hp & Hd & Hs & Hk) Hj Hn; [lia|].
  destruct (lookup_lt_is_Some_2 digits j Hj) as [b Hb].
  rewrite (wire_drop_digit _ _ Hb) in Hs.
  destruct (net_read_1 _ _ _ Hd Hs) as (i' & Hd' & [(E & Hs' & Hl)|(E & Hs' & Hl)]).
  { exists (Some MOSQ_ERR_SUCCESS), (set_in (in_packet c) i' c). split.
    - unfold then_phase. cbn [read_digits]. by rewrite E.
    - left. split; [done|]. split; [|done]. exists (S j).
      split; [done|]. split; [done|]. split; [|done].
      by rewrite (wire_drop_digit _ _ Hb). }
  unfold then_phase. rewrite (read_digits_round _ _ _ _ _ Hp Hb E).
  rewrite wire_length in Hk. case_decide as Hlast.
  - cbn [mbind option_bind]. rewrite alloc_payload_at by done.
    eexists _, _. split; [done|]. right. split; [done|].
    rewrite <-Hlast. split; [|done]. split; [done|]. split; [done|].
    split; [done|]. rewrite wire_length. lia.
  - destruct (IH (S j) (ConnIn (reader_at p0 cmd body (S (S j))) i' (last_msg_in c)))
      as (r & c' & Hrun & Hpost); [|lia|lia|].
    { split; [done|]. split; [done|]. split; [done|]. rewrite wire_length. lia. }
    exists r, c'. split; [exact Hrun|]. by eapply phase_post_weaken, Hpost.
Qed.

(** One round of the payload loop. *)
Lemma read_payload_round now n m c xs i' :
  in_packet c = reader_at p0 cmd body (S (d + m)) → (m < length body)%nat →
  _mosquitto_net_read (length body - m) (input c) = (RData xs, i') →
  xs = take (length xs) (drop m body) → (m + length xs ≤ length body)%nat →
  read_payload now (S n) c =
    read_payload now n (ConnIn (reader_at p0 cmd body (S (d + (m + length xs)))) i'
      (last_msg_in c)).
Proof.
  intros Hp Hm E Hxs Hle. rewrite (reader_at_body (m + _)), reader_at_body in *.
  cbn [read_payload]. rewrite Hp.
  cbn [payload remaining_mult remaining_length packet_length to_process pos pmid
       command remaining_count]. unfold set_in.
  rewrite !(proj2 (Z.ltb_lt _ _)) by lia.
  replace (Z.to_nat (len - Z.of_nat m)) with (length body - m)%nat by lia.
  rewrite E. cbn [mbind option_bind]. rewrite Nat2Z.id.
  assert (Hlt : length (take m body) = m) by (rewrite length_take; lia).
  rewrite length_app, Hlt, length_replicate.
  rewrite (proj2 (Nat.leb_le _ _)) by lia.
  rewrite take_app_length' by done.
  rewrite drop_app_ge, Hlt by lia. replace (m + length xs - m)%nat with (length xs) by lia.
  rewrite drop_replicate.
  replace (take m body ++ xs ++ replicate (length body - m - length xs) 0)
    with (take (m + length xs) body ++ replicate (length body - (m + length xs)) 0).
  { by rewrite Nat2Z.inj_add, Z.sub_add_distr, Nat.sub_add_distr. }
  rewrite <-take_take_drop, <-Hxs, <-(assoc_L (++)). by rewrite Nat.sub_add_distr.
Qed.

Lemma read_payload_at now n m c :
  reading (S (d + m)) c → (length body - m ≤ n)%nat →
  ∃ r c', read_payload now n c = Some (r, c') ∧
    phase_post c (S (d + length body)) r c'.
Proof.
  revert m c. induction n as [|n IH]; intros m c Hr Hn;
    pose proof Hr as (Hp & Hd & Hs & Hk); rewrite wire_length in Hk;
    rewrite wire_drop_body in Hs.
  { assert (m = length body) as -> by lia. cbn [read_payload].
    rewrite Hp, reader_at_body. cbn [to_process]. rewrite Z.sub_diag.
    eexists _, _. split; [done|]. right. auto. }
  destruct (decide (m = length body)) as [->|Hne].
  { cbn [read_payload]. rewrite Hp, reader_at_body. cbn [to_process].
    rewrite Z.sub_diag. eexists _, _. split; [done|]. right. auto. }
  destruct (net_read_n (length body - m) (input c)) as (i' & Hd' & Hcase);
    [lia|done| |].
  { rewrite Hs. intros [E _]%app_eq_nil. apply (f_equal length) in E.
    rewrite length_drop in E. simpl in E. lia. }
  destruct Hcase as [(E & Hs' & Hl)|(xs & E & Hx & Hs' & Hl)].
  - exists (Some MOSQ_ERR_SUCCESS), (ConnIn (in_packet c) i'
      (if 1000 <? to_process (in_packet c) then now else last_msg_in c)).
    split.
    + cbn [read_payload]. rewrite Hp, reader_at_body. cbn [to_process].
      rewrite (proj2 (Z.ltb_lt _ _)) by lia.
      replace (Z.to_nat (len - Z.of_nat m)) with (length body - m)%nat by lia.
      by rewrite E.
    + left. split; [done|]. split; [|done]. exists (S (d + m)).
      split; [done|]. split; [done|]. rewrite wire_drop_body, wire_length.
      cbn [input]. rewrite Hs'. auto.
  - assert (Hxs : xs = take (length xs) (drop m body)).
    { rewrite Hs in Hs'. apply (f_equal (take (length xs))) in Hs'.
      rewrite take_app_length, take_app_le in Hs' by (rewrite length_drop; lia).
      done. }
    rewrite (read_payload_round _ _ m _ xs i') by (done || lia).
    destruct (IH (m + length xs)%nat
      (ConnIn (reader_at p0 cmd body (S (d + (m + length xs)))) i' (last_msg_in c)))
      as (r & c' & Hrun & Hpost); [|lia|].
    { split; [done|]. split; [done|]. rewrite wire_drop_body, wire_length.
      split; [|lia]. cbn [input]. rewrite Hs in Hs'.
      apply (f_equal (drop (length xs))) in Hs'.
      rewrite drop_app_length, drop_app_le, drop_drop in Hs'
        by (rewrite length_drop; lia). done. }
    exists r, c'. split; [done|]. by eapply phase_post_weaken, Hpost.
Qed.

Lemma read_command_at fc c k :
  (fc = true → Z.land cmd 0xF0 = CONNECT) → reading k c →
  ∃ r c', read_command fc c = Some (r, c') ∧ phase_post c (Nat.max 1 k) r c'.
Proof using Hcmd Hlen.
  intros Hfc Hr. pose proof Hr as (Hp & Hd & Hs & Hk).
  unfold read_command. rewrite Hp. destruct k as [|j].
  - cbn -[remaining_digits wire]. cbn [wire drop] in Hs.
    destruct (net_read_1 _ _ _ Hd Hs) as (i' & Hd' & [(-> & Hs' & Hl)|(-> & Hs' & Hl)]).
    + eexists _, _. split; [done|]. left. split; [done|]. split; [|done].
      exists 0%nat. by split.
    + rewrite andb_comm. destruct (Z.eqb_spec (Z.land cmd 240) CONNECT) as [|Hc].
      * eexists _, _. split; [done|]. right. split; [done|]. split; [|done].
        split; [|split; [done|split; [done|rewrite wire_length; lia]]].
        rewrite reader_at_digit by (pose proof digits_bounds; lia).
        change (128 ^ Z.of_nat 0) with 1. by rewrite Z.mod_1_r.
      * destruct fc; [by rewrite Hfc in Hc|].
        eexists _, _. split; [done|]. right. split; [done|]. split; [|done].
        split; [|split; [done|split; [done|rewrite wire_length; lia]]].
        rewrite reader_at_digit by (pose proof digits_bounds; lia).
        change (128 ^ Z.of_nat 0) with 1. by rewrite Z.mod_1_r.
  - assert (command (reader_at p0 cmd body (S j)) = cmd) as ->
      by (unfold reader_at; by case_match).
    rewrite (proj2 (Z.eqb_neq _ _)) by done.
    eexists _, _. split; [done|]. right. auto.
Qed.

Lemma read_remaining_at c k :
  (1 ≤ k)%nat → reading k c →
  ∃ r c', read_remaining c = Some (r, c') ∧ phase_post c (Nat.max (S d) k) r c'.
Proof using Hlen.
  intros Hk1 Hr. pose proof Hr as (Hp & Hd & Hs & Hk). pose proof digits_bounds.
  destruct k as [|j]; [lia|]. unfold read_remaining. rewrite Hp.
  destruct (decide (j < d)%nat) as [Hj|Hj].
  - rewrite reader_at_digit by done. cbn [remaining_count].
    rewrite (proj2 (Z.leb_le _ _)) by lia.
    replace (Nat.max _ _) with (S d) by lia. apply (read_digits_at _ j); [done|done|lia].
  - pose proof (reader_at_body (j - d)) as Hb.
    replace (d + (j - d))%nat with j in Hb by lia. rewrite Hb.
    cbn [remaining_count]. rewrite (proj2 (Z.leb_gt _ _)) by lia.
    replace (Nat.max _ _) with (S j) by lia.
    eexists _, _. split; [done|]. right. auto.
Qed.

(** The packet [packet_fill] delivers. *)
Definition complete_packet : packet :=
  Packet (if 0 <? len then Some body else None) (128 ^ Z.of_nat d) len
    (packet_length p0) 0 0 (pmid p0) cmd (Z.of_nat d).

Definition fill_post (c : conn_in) (r : option Z) (c' : conn_in) : Prop :=
  (r = Some MOSQ_ERR_SUCCESS ∧ (∃ k, reading k c') ∧
   (length (input c') < length (input c))%nat) ∨
  (r = None ∧ in_packet c' = complete_packet ∧ forallb is_data (input c') = true ∧
   stream (input c') = rest).

Lemma fill_after f g c k :
  (∃ r c', f c = Some (r, c') ∧ phase_post c k r c') →
  (∀ c', reading k c' → ∃ r c'', g c' = Some (r, c'') ∧ fill_post c' r c'') →
  ∃ r c', then_phase f g c = Some (r, c') ∧ fill_post c r c'.
Proof.
  intros (r & c' & E & Hf) Hg. unfold then_phase. rewrite E. cbn [mbind option_bind].
  destruct Hf as [(-> & Hk & Hl)|(-> & Hk & Hl)].
  - eexists _, _. split; [done|]. left. auto.
  - destruct (Hg c' Hk) as (r & c'' & -> & Hpost). eexists _, _. split; [done|].
    destruct Hpost as [(? & ? & ?)|?]; [left|right]; eauto with lia.
Qed.

Lemma packet_fill_at fc now c k :
  (fc = true → Z.land cmd 0xF0 = CONNECT) → reading k c →
  ∃ r c', packet_fill fc now c = Some (r, c') ∧ fill_post c r c'.
Proof using Hcmd Hlen.
  intros Hfc Hr. eapply fill_after; [by apply read_command_at|]. intros c1 H1.
  eapply fill_after; [apply (read_remaining_at _ (Nat.max 1 k)); [lia|done]|].
  intros c2 H2.
  set (m := (Nat.max (S d) (Nat.max 1 k) - S d)%nat).
  replace (Nat.max (S d) (Nat.max 1 k)) with (S (d + m)) in H2 by lia.
  eapply fill_after.
  - apply (read_payload_at now _ m); [done|]. pose proof H2 as (-> & _).
    rewrite reader_at_body. cbn [to_process]. lia.
  - intros c3 (Hp & Hd & Hs & _). rewrite wire_drop_body, drop_all in Hs.
    eexists _, _. split; [done|]. right. split; [done|]. split; [|by split].
    rewrite Hp, reader_at_body. unfold complete_packet, set_pos, set_in.
    cbn [in_packet payload remaining_mult remaining_length packet_length to_process pos pmid
         command remaining_count].
    by rewrite firstn_all, Nat.sub_diag, app_nil_r, Z.sub_diag.
Qed.

Lemma packet_fill_calls_at fc now n c k :
  (fc = true → Z.land cmd 0xF0 = CONNECT) → reading k c →
  (length (input c) ≤ n)%nat →
  ∃ c', packet_fill_calls fc now n c = Some (None, c') ∧
    in_packet c' = complete_packet ∧ stream (input c') = rest.
Proof using Hcmd Hlen.
  intros Hfc. revert c k. induction n as [|n IH]; intros c k Hr Hn;
    destruct (packet_fill_at fc now c k Hfc Hr)
      as (r & c' & E & [(-> & (k' & Hk') & Hl)|(-> & Hp & Hd & Hs)]);
    cbn [packet_fill_calls]; rewrite E; cbn [mbind option_bind].
  - lia.
  - eauto.
  - apply (IH c' k'); [done|lia].
  - eauto.
Qed.
End reader.

(** ** The reader on arbitrary input *)

(** The states the reader can be interrupted in. *)
Definition reader_inv (p : packet) : Prop :=
  (-4 ≤ remaining_count p ≤ 0 ∧ payload p = None ∧ to_process p = 0 ∧ pos p = 0 ∧
   remaining_mult p = 128 ^ (- remaining_count p) ∧
   0 ≤ remaining_length p < 128 ^ (- remaining_count p)) ∨
  (0 < remaining_count p ≤ 4 ∧ 0 ≤ remaining_length p < MAX_BODY ∧
   0 ≤ pos p ∧ 0 ≤ to_process p ∧ pos p + to_process p = remaining_length p ∧
   (if 0 <? remaining_length p
    then ∃ b, payload p = Some b ∧ Z.of_nat (length b) = remaining_length p
    else payload p = None)).

(** A packet handed to its handler. *)
Definition packet_ok (p : packet) : Prop :=
  0 ≤ pos p ≤ remaining_length p ∧ remaining_length p < MAX_BODY ∧
  (if 0 <? remaining_length p
   then ∃ b, payload p = Some b ∧ Z.of_nat (length b) = remaining_length p
   else payload p = None).

Lemma reader_inv_cleanup p : reader_inv (_mosquitto_packet_cleanup p).
Proof. left. by vm_compute. Qed.

Lemma net_read_bound n i :
  match _mosquitto_net_read n i with
  | (RData xs, _) => (length xs ≤ n)%nat ∧ (n = 1%nat → ∃ x, xs = [x]) ∧
      ((0 < n)%nat → (0 < length xs)%nat)
  | _ => True
  end.
Proof.
  destruct i as [|[[|x xs]| |] i]; cbn; try done.
  rewrite length_take. split_and!; [lia| |].
  - intros ->. by eexists.
  - cbn. lia.
Qed.

Section reader_safety.
(** A phase that is defined from [c], and leaves [Q] when it goes on. *)
Definition safe_phase (Q : packet → Prop) (f : phase) (c : conn_in) : Prop :=
  ∃ r c', f c = Some (r, c') ∧
    match r with
    | None => Q (in_packet c')
    | Some rc => rc = MOSQ_ERR_SUCCESS → reader_inv (in_packet c')
    end.

Lemma safe_then Q R f g c :
  safe_phase Q f c → (∀ c', Q (in_packet c') → safe_phase R g c') →
  safe_phase R (then_phase f g) c.
Proof.
  intros (r & c' & E & Hq) Hg. unfold safe_phase, then_phase. rewrite E.
  destruct r as [rc|]; [eauto|]. by apply Hg.
Qed.

Lemma safe_command fc c :
  reader_inv (in_packet c) → safe_phase reader_inv (read_command fc) c.
Proof.
  intros Hi. unfold safe_phase, read_command.
  destruct (command (in_packet c) =? 0); [|by eexists _, _].
  pose proof (net_read_bound 1 (input c)) as Hn.
  destruct (_mosquitto_net_read 1 (input c)) as [[xs| |e] i].
  - destruct Hn as (_ & Hn & _). destruct (Hn eq_refl) as [x ->].
    destruct (_ && _); eexists _, _; (split; [done|]); [intros ?; done|exact Hi].
  - by eexists _, _.
  - eexists _, _. split; [done|]. intros _. exact Hi.
Qed.

Definition payload_inv (p : packet) : Prop := reader_inv p ∧ 0 < remaining_count p.

Lemma land127_bound b : 0 ≤ Z.land b 127 < 128.
Proof.
  change 127 with (Z.ones 7). rewrite Z.land_ones by lia. by apply Z.mod_pos_bound.
Qed.

(** The loop over the digits leaves a negative count, and a length of that
    many digits. *)
Definition digits_inv (p : packet) : Prop := reader_inv p ∧ remaining_count p < 0.

Lemma safe_digits n c :
  reader_inv (in_packet c) → remaining_count (in_packet c) ≤ 0 →
  5 + remaining_count (in_packet c) ≤ Z.of_nat n →
  safe_phase digits_inv (read_digits n) c.
Proof.
  revert c. induction n as [|n IH]; intros c Hi Hc Hn.
  { destruct Hi as [(? & _)|(? & _)]; lia. }
  assert (Hi' := Hi). destruct Hi' as [(Hc4 & Hpl & Htp & Hpos & Hm & Hl)|(? & _)]; [|lia].
  unfold safe_phase. cbn [read_digits].
  pose proof (net_read_bound 1 (input c)) as Hr.
  destruct (_mosquitto_net_read 1 (input c)) as [[xs| |e] i];
    [|by eexists _, _|eexists _, _; split; [done|]; intros _; exact Hi].
  destruct Hr as (_ & Hr & _). destruct (Hr eq_refl) as [x ->].
  destruct (Z.ltb_spec (remaining_count (in_packet c) - 1) (-4)); [by eexists _, _|].
  set (k := - remaining_count (in_packet c)) in *.
  assert (0 ≤ k ≤ 3) by lia. pose proof (land127_bound x).
  assert (Hk : 0 < 128 ^ k ≤ 128 ^ 3) by (split; [lia|apply Z.pow_le_mono_r; lia]).
  assert (Hks : 128 ^ (1 + k) = 128 * 128 ^ k) by (rewrite Z.pow_add_r; lia).
  assert (Hinv : digits_inv (Packet (payload (in_packet c))
    (u32 (remaining_mult (in_packet c) * 128))
    (u32 (remaining_length (in_packet c) + u32 (Z.land x 127 * remaining_mult (in_packet c))))
    (packet_length (in_packet c)) (to_process (in_packet c)) (pos (in_packet c))
    (pmid (in_packet c)) (command (in_packet c)) (remaining_count (in_packet c) - 1))).
  { split; [left|]; cbn [remaining_count payload to_process pos remaining_mult remaining_length];
      [|lia].
    replace (- (remaining_count (in_packet c) - 1)) with (1 + k) by lia.
    unfold u32. rewrite Hm, (Z.mod_small (Z.land x 127 * _)) by nia.
    rewrite !Z.mod_small by nia. split_and!; try done; nia. }
  destruct (negb _); [|by eexists _, _].
  apply IH; cbn; [apply Hinv|lia|lia].
Qed.

Lemma safe_alloc c :
  digits_inv (in_packet c) → safe_phase payload_inv alloc_payload c.
Proof.
  intros [[(Hc & Hpl & Htp & Hpos & Hm & Hl)|(? & _)] Hneg]; [|lia].
  assert (remaining_length (in_packet c) < MAX_BODY).
  { eapply Z.lt_le_trans; [apply Hl|]. apply Z.pow_le_mono_r; lia. }
  eexists _, _. split; [done|]. unfold payload_inv, reader_inv.
  cbn [in_packet set_in]. destruct (Z.ltb_spec 0 (remaining_length (in_packet c)));
    cbn [remaining_count payload to_process pos remaining_length].
  - split; [right|lia]. rewrite (proj2 (Z.ltb_lt _ _)) by lia.
    split_and!; try lia. eexists. split; [done|]. rewrite length_replicate. lia.
  - split; [right|lia]. rewrite (proj2 (Z.ltb_ge _ _)) by lia.
    rewrite Htp, Hpos. split_and!; try lia. done.
Qed.

Lemma safe_remaining c :
  reader_inv (in_packet c) → safe_phase payload_inv read_remaining c.
Proof.
  intros Hi. unfold safe_phase, read_remaining. destruct (Z.leb_spec (remaining_count (in_packet c)) 0).
  - apply (safe_then digits_inv); [|apply safe_alloc]. apply safe_digits; [done|lia|].
    destruct Hi as [?|?]; lia.
  - eexists _, _. split; [done|]. by split.
Qed.

Lemma safe_payload now n c :
  payload_inv (in_packet c) → to_process (in_packet c) ≤ Z.of_nat n →
  safe_phase (λ p, payload_inv p ∧ to_process p = 0) (read_payload now n) c.
Proof.
  revert c. induction n as [|n IH]; intros c Hi Hn.
  - assert (to_process (in_packet c) = 0) as Htp
      by (destruct Hi as [[?|?] ?]; lia).
    unfold safe_phase. cbn [read_payload]. rewrite Htp. by eexists _, _.
  - unfold safe_phase. cbn [read_payload].
    assert (Hi' := Hi). destruct Hi' as [[?|(Hc & Hl & Hpos & Htp & Hsum & Hb)] Hc0]; [lia|].
    destruct (Z.ltb_spec 0 (to_process (in_packet c))) as [Hlt|Hge].
    2: { eexists _, _. split; [done|]. split; [done|lia]. }
    pose proof (net_read_bound (Z.to_nat (to_process (in_packet c))) (input c)) as Hr.
    destruct (_mosquitto_net_read _ (input c)) as [[xs| |e] i];
      [|by eexists _, _|destruct e; eexists _, _; (split; [done|]); try done; intros _; apply Hi].
    destruct Hr as (Hr & _ & Hr0). rewrite (proj2 (Z.ltb_lt _ _)) in Hb by lia.
    destruct Hb as (b & Hb & Hlb). rewrite Hb. cbn [mbind option_bind].
    rewrite (proj2 (Nat.leb_le _ _)) by lia.
    apply IH; cbn [in_packet set_in to_process]; [|lia].
    split; [right|done]. cbn [remaining_count payload to_process pos remaining_length].
    rewrite (proj2 (Z.ltb_lt _ _)) by lia. split_and!; try lia.
    eexists. split; [done|]. rewrite !length_app, length_take, length_drop. lia.
Qed.

Lemma safe_fill fc now c :
  reader_inv (in_packet c) →
  safe_phase (λ p, packet_ok p ∧ pos p = 0) (packet_fill fc now) c.
Proof.
  intros Hi. eapply safe_then; [by apply safe_command|]. intros c1 H1.
  eapply safe_then; [by apply safe_remaining|]. intros c2 H2.
  eapply (safe_then _ _ (read_payload now (Z.to_nat (to_process (in_packet c2))))).
  { apply safe_payload; [done|].
    destruct H2 as [[(? & _ & ? & _)|(_ & _ & _ & ? & _)] ?]; lia. }
  intros c3 [[[(? & _)|(Hc & Hl & Hpos & Htp & Hsum & Hb)] ?] Ht]; [lia|].
  eexists _, _. split; [done|]. unfold packet_ok.
  cbn [in_packet set_in set_pos pos remaining_length payload].
  split_and!; try done; lia.
Qed.
End reader_safety.

(** ** The payload's primitives *)

Definition enc_uint16 (n : Z) : bytes := [MOSQ_MSB n; MOSQ_LSB n].
Definition enc_string (s : bytes) : bytes := enc_uint16 (Z.of_nat (length s)) ++ s.

(** The bytes [w] of the payload are behind [pos], the bytes [r] ahead. *)
Definition cursor (w r : bytes) (p : packet) : Prop :=
  default [] (payload p) = w ++ r ∧ pos p = Z.of_nat (length w) ∧
  remaining_length p = Z.of_nat (length (w ++ r)) ∧ remaining_length p < MAX_BODY.

(** The bytes [w] of an outgoing packet are written, [n] are left. *)
Definition written (w : bytes) (n : nat) (p : packet) : Prop :=
  ∃ junk, payload p = Some (w ++ junk) ∧ length junk = n ∧
    pos p = Z.of_nat (length w) ∧ packet_length p = Z.of_nat (length w + n) ∧
    packet_length p < 4294967295.

Lemma packet_ok_cursor p :
  packet_ok p ↔ ∃ w r, cursor w r p ∧ (if 0 <? remaining_length p then is_Some (payload p)
                                       else payload p = None).
Proof.
  split.
  - intros (Hpos & Hl & Hb). exists (take (Z.to_nat (pos p)) (default [] (payload p))),
      (drop (Z.to_nat (pos p)) (default [] (payload p))).
    unfold cursor. rewrite take_drop, length_take.
    destruct (Z.ltb_spec 0 (remaining_length p)).
    + destruct Hb as (b & -> & Hb). cbn. split_and!; try done; lia.
    + rewrite Hb. cbn. split_and!; try done; lia.
  - intros (w & r & (Hpl & Hpos & Hl & Hmax) & Hb). unfold packet_ok.
    rewrite length_app in Hl. split_and!; try lia.
    destruct (0 <? remaining_length p); [|done].
    destruct Hb as [b Hb]. rewrite Hb in *. exists b. split; [done|].
    cbn in Hpl. subst b. rewrite length_app. lia.
Qed.

Lemma u32_small x : 0 ≤ x < 4294967296 → u32 x = x.
Proof. apply Z.mod_small. Qed.
Lemma u16_bound x : 0 ≤ u16 x < 65536.
Proof. by apply Z.mod_pos_bound. Qed.
Lemma u16_small x : 0 ≤ x < 65536 → u16 x = x.
Proof. apply Z.mod_small. Qed.

Lemma cursor_payload w r p :
  cursor w r p → r ≠ [] → payload p = Some (w ++ r).
Proof.
  intros (Hpl & _) Hr. destruct (payload p); cbn in *; [by subst|].
  symmetry in Hpl. by apply app_eq_nil in Hpl as [_ ->].
Qed.

Lemma cursor_advance w x r p :
  cursor w (x ++ r) p → cursor (w ++ x) r (set_pos (Z.of_nat (length w + length x)) p).
Proof.
  intros (Hpl & Hpos & Hl & Hm). unfold cursor, set_pos.
  cbn [payload pos remaining_length]. rewrite <-(assoc_L (++)), length_app. auto.
Qed.

Lemma read_byte_cursor w b r p :
  cursor w (b :: r) p →
  ∃ p', _mosquitto_read_byte p = Some (inr b, p') ∧ cursor (w ++ [b]) r p'.
Proof.
  intros Hc. pose proof Hc as (_ & Hpos & Hl & Hm). rewrite length_app in Hl.
  cbn [length] in Hl. unfold MAX_BODY in Hm.
  unfold _mosquitto_read_byte. rewrite u32_small by lia.
  rewrite (proj2 (Z.ltb_ge _ _)) by lia. rewrite (cursor_payload _ _ _ Hc) by done.
  cbn [mbind option_bind]. rewrite Hpos, Nat2Z.id, list_lookup_middle by done.
  eexists. split; [done|]. cbn.
  replace (Z.of_nat (length w) + 1) with (Z.of_nat (length w + length [b])) by (simpl; lia).
  by apply (cursor_advance w [b]).
Qed.

Lemma read_uint16_cursor w n r p :
  0 ≤ n < 65536 → cursor w (enc_uint16 n ++ r) p →
  ∃ p', _mosquitto_read_uint16 p = Some (inr n, p') ∧ cursor (w ++ enc_uint16 n) r p'.
Proof.
  intros Hn Hc. pose proof Hc as (_ & Hpos & Hl & Hm). rewrite length_app in Hl.
  cbn [length app enc_uint16] in Hl. unfold MAX_BODY in Hm.
  unfold _mosquitto_read_uint16. rewrite !u32_small by (rewrite ?u32_small; lia).
  rewrite (proj2 (Z.ltb_ge _ _)) by lia. rewrite (cursor_payload _ _ _ Hc) by done.
  change (enc_uint16 n ++ r) with (MOSQ_MSB n :: MOSQ_LSB n :: r).
  cbn [mbind option_bind].
  rewrite Hpos, Nat2Z.id, (list_lookup_middle w _ _ (length w)) by done. cbn [mbind option_bind].
  replace (Z.to_nat (Z.of_nat (length w) + 1)) with (S (length w)) by lia.
  rewrite lookup_app_r, Nat.sub_succ_l, Nat.sub_diag by lia. cbn.
  eexists. split.
  - do 3 f_equal. unfold MOSQ_MSB, MOSQ_LSB, u8.
    change 0xFF with (Z.ones 8). rewrite Z.land_ones by lia.
    change 0xFF00 with (Z.shiftl (Z.ones 8) 8).
    rewrite Z.shiftr_land, Z.shiftr_shiftl_l, Z.shiftl_0_r, Z.land_ones by lia.
    rewrite !Z.shiftr_div_pow2, Z.shiftl_mul_pow2 by lia.
    change (2 ^ 8) with 256. rewrite !Z.mod_mod by lia.
    rewrite (Z.mod_small (n `div` 256)) by (split; [apply Z.div_pos|apply Z.div_lt_upper_bound]; lia).
    unfold u16. rewrite Z.mod_small; pose proof (Z.div_mod n 256); lia.
  - replace (Z.of_nat (length w) + 1 + 1) with (Z.of_nat (length w + length (enc_uint16 n)))
      by (simpl; lia).
    by apply cursor_advance.
Qed.

Lemma payload_slice_cursor w x r p :
  cursor w (x ++ r) p → payload_slice p (Z.of_nat (length x)) = Some x.
Proof.
  intros Hc. pose proof Hc as (_ & Hpos & Hl & Hm). unfold payload_slice.
  destruct (Z.eqb_spec (Z.of_nat (length x)) 0).
  { by destruct x. }
  rewrite (cursor_payload _ _ _ Hc) by (by destruct x). cbn [mbind option_bind].
  rewrite (proj2 (Z.ltb_ge _ _)) by (rewrite Hpos, !length_app; lia).
  by rewrite Hpos, !Nat2Z.id, drop_app_length, take_app_length.
Qed.

Lemma read_bytes_cursor w x r p :
  cursor w (x ++ r) p →
  ∃ p', _mosquitto_read_bytes (Z.of_nat (length x)) p = Some (inr x, p') ∧ cursor (w ++ x) r p'.
Proof.
  intros Hc. pose proof Hc as (_ & Hpos & Hl & Hm). rewrite !length_app in Hl.
  unfold MAX_BODY in Hm. unfold _mosquitto_read_bytes. rewrite u32_small by lia.
  rewrite (proj2 (Z.ltb_ge _ _)) by lia. rewrite (payload_slice_cursor _ _ _ _ Hc).
  eexists. split; [done|]. rewrite Hpos, <-Nat2Z.inj_add. by apply cursor_advance.
Qed.

Lemma read_string_cursor w s r p :
  Z.of_nat (length s) < 65536 → cursor w (enc_string s ++ r) p →
  ∃ p', _mosquitto_read_string p = Some (inr (cstr s), p') ∧ cursor (w ++ enc_string s) r p'.
Proof.
  intros Hs Hc. unfold enc_string in *. rewrite <-(assoc_L (++)) in Hc.
  destruct (read_uint16_cursor w (Z.of_nat (length s)) (s ++ r) p) as (p1 & E1 & H1);
    [lia|done|].
  unfold _mosquitto_read_string. rewrite E1. cbn [mbind option_bind].
  pose proof H1 as (_ & Hpos & Hl & Hm). rewrite !length_app in Hl. unfold MAX_BODY in Hm.
  rewrite u32_small by (rewrite Hpos, length_app; lia).
  rewrite (proj2 (Z.ltb_ge _ _)) by (rewrite Hl, Hpos, length_app; lia).
  rewrite (payload_slice_cursor _ _ _ _ H1). cbn [mbind option_bind].
  eexists. split; [done|]. rewrite Hpos, <-Nat2Z.inj_add, (assoc_L (++)).
  by apply cursor_advance.
Qed.

(** The first [k] bytes of [bs]. *)
Lemma write_bytes_part w bs k n p :
  written w n p → (k ≤ n)%nat → (k ≤ length bs)%nat →
  ∃ p', _mosquitto_write_bytes bs (Z.of_nat k) p = Some p' ∧
    written (w ++ take k bs) (n - k) p'.
Proof.
  intros (junk & Hpl & Hj & Hpos & Hlen & Hm) Hn Hk. unfold _mosquitto_write_bytes.
  rewrite u32_small by lia. rewrite (proj2 (Z.ltb_ge _ _)) by lia.
  rewrite Hpl. cbn [mbind option_bind].
  rewrite (proj2 (Z.ltb_ge _ _)) by (rewrite length_app; lia).
  rewrite (proj2 (Z.ltb_ge _ _)) by lia.
  cbn [orb]. eexists. split; [done|].
  exists (drop k junk). cbn [payload pos packet_length set_pos set_payload].
  rewrite Hpos, !Nat2Z.id, take_app_length, drop_app_add, (assoc_L (++)).
  rewrite length_drop, length_app, length_take. split_and!; try done; lia.
Qed.

Lemma write_bytes_written w bs n p :
  written w n p → (length bs ≤ n)%nat →
  ∃ p', _mosquitto_write_bytes bs (Z.of_nat (length bs)) p = Some p' ∧
    written (w ++ bs) (n - length bs) p'.
Proof.
  intros Hw Hn. destruct (write_bytes_part w bs (length bs) n p Hw Hn) as (p' & ? & H); [done|].
  rewrite firstn_all in H. eauto.
Qed.

Lemma write_byte_written w b n p :
  written w (S n) p →
  ∃ p', _mosquitto_write_byte b p = Some p' ∧ written (w ++ [b]) n p'.
Proof.
  intros (junk & Hpl & Hj & Hpos & Hlen & Hm). unfold _mosquitto_write_byte.
  rewrite u32_small by lia. rewrite (proj2 (Z.ltb_ge _ _)) by lia.
  rewrite Hpl. cbn [mbind option_bind]. destruct junk as [|j junk]; [done|].
  rewrite Hpos, Nat2Z.id, (proj2 (Nat.ltb_lt _ _)) by (rewrite length_app; simpl; lia).
  eexists. split; [done|]. exists junk.
  cbn [payload pos packet_length set_pos set_payload].
  rewrite insert_app_r_alt, Nat.sub_diag, length_app by lia. cbn in *.
  rewrite <-(assoc_L (++)). split_and!; try done; lia.
Qed.

Lemma write_uint16_written w x n p :
  written w (S (S n)) p →
  ∃ p', _mosquitto_write_uint16 x p = Some p' ∧ written (w ++ enc_uint16 x) n p'.
Proof.
  intros H. unfold _mosquitto_write_uint16.
  destruct (write_byte_written _ (MOSQ_MSB x) _ _ H) as (p1 & -> & H1).
  destruct (write_byte_written _ (MOSQ_LSB x) _ _ H1) as (p2 & E2 & H2).
  exists p2. split; [done|]. by rewrite <-(assoc_L (++)) in H2.
Qed.

(** The string cut to the length given. *)
Lemma write_string_part w s k n p :
  written w n p → (2 + k ≤ n)%nat → (k ≤ length s)%nat →
  ∃ p', _mosquitto_write_string s (Z.of_nat k) p = Some p' ∧
    written (w ++ enc_uint16 (Z.of_nat k) ++ take k s) (n - (2 + k)) p'.
Proof.
  intros H Hn Hk. destruct n as [|[|n]]; [lia|lia|]. unfold _mosquitto_write_string.
  destruct (write_uint16_written _ (Z.of_nat k) _ _ H) as (p1 & -> & H1).
  destruct (write_bytes_part _ s k _ _ H1) as (p2 & E2 & H2); [lia|lia|].
  exists p2. split; [done|]. rewrite <-(assoc_L (++)) in H2. exact H2.
Qed.

Lemma write_string_written w s n p :
  written w n p → (2 + length s ≤ n)%nat →
  ∃ p', _mosquitto_write_string s (Z.of_nat (length s)) p = Some p' ∧
    written (w ++ enc_string s) (n - (2 + length s)) p'.
Proof.
  intros H Hn. destruct (write_string_part _ s (length s) _ _ H Hn) as (p' & ? & H'); [done|].
  rewrite firstn_all in H'. eauto.
Qed.

(** [_mosquitto_packet_alloc] writes the fixed header. *)
Lemma packet_alloc_written p :
  0 ≤ remaining_length p < MAX_BODY →
  ∃ p', _mosquitto_packet_alloc p = (MOSQ_ERR_SUCCESS, p') ∧
    written (command p :: remaining_digits 5 (remaining_length p))
      (Z.to_nat (remaining_length p)) p' ∧
    command p' = command p ∧ pmid p' = pmid p ∧ remaining_length p' = remaining_length p.
Proof.
  intros Hl. unfold _mosquitto_packet_alloc, MAX_BODY in *.
  assert ((length (remaining_digits 5 (remaining_length p)) ≤ 4)%nat)
    by (apply digits_length_bound; lia).
  set (rb := remaining_digits 5 (remaining_length p)) in *.
  rewrite (proj2 (Z.eqb_neq _ _)) by lia. eexists. split; [done|].
  cbn [command pmid remaining_length]. split_and!; try done.
  eexists. cbn [payload pos packet_length]. split; [done|].
  rewrite length_replicate, u32_small by lia. cbn [length]. split_and!; lia.
Qed.

(** Reading never leaves a well-formed packet's buffer. *)
Lemma payload_slice_ok p n :
  packet_ok p → 0 ≤ n → pos p + n ≤ remaining_length p →
  ∃ bs, payload_slice p n = Some bs ∧ Z.of_nat (length bs) = n.
Proof.
  intros (Hpos & Hl & Hb) Hn Hle. unfold payload_slice.
  destruct (Z.eqb_spec n 0) as [->|]; [by exists []|].
  rewrite (proj2 (Z.ltb_lt _ _)) in Hb by lia. destruct Hb as (b & -> & Hb).
  cbn [mbind option_bind]. rewrite (proj2 (Z.ltb_ge _ _)) by lia.
  eexists. split; [done|]. rewrite length_take, length_drop. lia.
Qed.

Lemma packet_ok_set_pos p n :
  packet_ok p → 0 ≤ n ≤ remaining_length p → packet_ok (set_pos n p).
Proof. intros (_ & ? & ?) ?. split; [done|by split]. Qed.

(** A reader that, on a well-formed packet, returns a protocol error or a
    value that satisfies [Q], and leaves the packet well formed. *)
Definition safe_reader {A} (Q : A → Prop) (f : reader A) : Prop :=
  ∀ p, packet_ok p →
    ∃ r p', f p = Some (r, p') ∧ packet_ok p' ∧ remaining_length p' = remaining_length p ∧
      pos p ≤ pos p' ∧ payload p' = payload p ∧ command p' = command p ∧
      match r with inl rc => rc = MOSQ_ERR_PROTOCOL | inr x => Q x end.

Lemma read_byte_safe : safe_reader (λ _, True) _mosquitto_read_byte.
Proof.
  intros p Hp. pose proof Hp as (Hpos & Hl & Hb). unfold _mosquitto_read_byte, MAX_BODY in *.
  rewrite u32_small by lia. destruct (Z.ltb_spec (remaining_length p) (pos p + 1)).
  { eexists _, _. split; [done|]. split_and!; try done; lia. }
  rewrite (proj2 (Z.ltb_lt _ _)) in Hb by lia. destruct Hb as (b & Hb & Hlb).
  rewrite Hb. cbn [mbind option_bind].
  destruct (lookup_lt_is_Some_2 b (Z.to_nat (pos p))) as [x ->]; [lia|].
  eexists _, _. split; [done|]. split; [apply packet_ok_set_pos; [done|lia]|].
  split_and!; try done; cbn; lia.
Qed.

Lemma read_bytes_safe n :
  0 ≤ n < MAX_BODY → safe_reader (λ bs, Z.of_nat (length bs) = n) (_mosquitto_read_bytes n).
Proof.
  intros Hn p Hp. pose proof Hp as (Hpos & Hl & Hb).
  unfold _mosquitto_read_bytes, MAX_BODY in *.
  rewrite u32_small by lia. destruct (Z.ltb_spec (remaining_length p) (pos p + n)).
  { eexists _, _. split; [done|]. split_and!; try done; lia. }
  destruct (payload_slice_ok p n) as (bs & -> & Hlen); [done|lia|lia|].
  eexists _, _. split; [done|]. split; [apply packet_ok_set_pos; [done|lia]|].
  split_and!; try done; cbn; lia.
Qed.

Lemma read_uint16_safe : safe_reader (λ x, 0 ≤ x < 65536) _mosquitto_read_uint16.
Proof.
  intros p Hp. pose proof Hp as (Hpos & Hl & Hb). unfold _mosquitto_read_uint16, MAX_BODY in *.
  rewrite !u32_small by (rewrite ?u32_small; lia).
  destruct (Z.ltb_spec (remaining_length p) (pos p + 2)).
  { eexists _, _. split; [done|]. split_and!; try done; lia. }
  rewrite (proj2 (Z.ltb_lt _ _)) in Hb by lia. destruct Hb as (b & Hb & Hlb).
  rewrite Hb. cbn [mbind option_bind].
  destruct (lookup_lt_is_Some_2 b (Z.to_nat (pos p))) as [x ->]; [lia|].
  cbn [mbind option_bind].
  destruct (lookup_lt_is_Some_2 b (Z.to_nat (pos p + 1))) as [y ->]; [lia|].
  eexists _, _. split; [done|]. split; [apply packet_ok_set_pos; [done|lia]|].
  split_and!; try done; try apply u16_bound; cbn; lia.
Qed.

Lemma cstr_length b : (length (cstr b) ≤ length b)%nat.
Proof. induction b; simpl; [lia|]. case_decide; simpl; lia. Qed.

Lemma read_string_safe :
  safe_reader (λ s, 0%Z ∉ s ∧ Z.of_nat (length s) < 65536) _mosquitto_read_string.
Proof.
  intros p Hp. unfold _mosquitto_read_string.
  destruct (read_uint16_safe p Hp) as (r & p1 & -> & Hp1 & Hl1 & Hpos1 & Hpl1 & Hc1 & Hr).
  cbn [mbind option_bind]. destruct r as [rc|n].
  { eexists _, _. split; [done|]. split_and!; try done; lia. }
  pose proof Hp1 as (Hpos & Hl & _). unfold MAX_BODY in *.
  rewrite u32_small by lia. destruct (Z.ltb_spec (remaining_length p1) (pos p1 + n)).
  { eexists _, _. split; [done|]. split_and!; try done; lia. }
  destruct (payload_slice_ok p1 n) as (bs & -> & Hlen); [done|lia|lia|].
  eexists _, _. split; [done|]. split; [apply packet_ok_set_pos; [done|lia]|].
  cbn [set_pos remaining_length pos payload command]. pose proof (cstr_length bs).
  split_and!; try done; try lia. apply cstr_no_nul.
Qed.

(** ** Properties *)

(** C7: framing does not depend on how the network cuts the bytes up. Whatever
    the sizes of the chunks a packet arrives in, and however often the socket
    runs dry in between, calling the reader each time the socket is readable
    delivers exactly the packet that was sent (command, remaining length,
    payload, [pos] at 0), after at most one call per event, and leaves the
    bytes that follow it unread. *)
Theorem packet_read_framing p0 cmd body rest fc now t i n :
  cmd ≠ 0 → Z.of_nat (length body) < MAX_BODY →
  (fc = true → Z.land cmd 0xF0 = CONNECT) →
  forallb is_data i = true → stream i = wire cmd body ++ rest → (length i ≤ n)%nat →
  ∃ i' t',
    packet_fill_calls fc now n (ConnIn (_mosquitto_packet_cleanup p0) i t) =
      Some (None, ConnIn (complete_packet p0 cmd body) i' t') ∧
    stream i' = rest.
Proof.
  intros Hcmd Hlen Hfc Hd Hs Hn.
  destruct (packet_fill_calls_at p0 cmd body rest Hcmd Hlen fc now n
    (ConnIn (_mosquitto_packet_cleanup p0) i t) 0) as ([p i' t'] & E & Hp & Hrest);
    [done| |done|].
  - split; [done|]. split; [done|]. split; [done|lia].
  - cbn in Hp, Hrest. subst p. eauto.
Qed.

Lemma packet_read_framing_witness :
  ∃ i' t',
    packet_fill_calls true 7 9 (ConnIn (_mosquitto_packet_cleanup packet_zero)
      [InData [16]; InData []; InData [3; 1]; InData [2]; InData [3; 192]; InData [0]] 0) =
      Some (None, ConnIn (complete_packet packet_zero 16 [1; 2; 3]) i' t') ∧
    stream i' = [192; 0].
Proof.
  apply packet_read_framing; try done. simpl. lia.
Defined.

(** [_mosquitto_packet_alloc] accepts exactly the lengths the protocol can
    express. Below 128^4 it allocates the packet, whose first bytes are the
    command and the remaining length in base 128; from 128^4 on it refuses
    with [MOSQ_ERR_PAYLOAD_SIZE] and allocates nothing. *)
Lemma packet_alloc_exact p :
  0 ≤ remaining_length p < 4294967296 →
  if remaining_length p <? MAX_BODY then
    ∃ p', _mosquitto_packet_alloc p = (MOSQ_ERR_SUCCESS, p') ∧
      written (command p :: remaining_digits 5 (remaining_length p))
        (Z.to_nat (remaining_length p)) p'
  else
    ∃ p', _mosquitto_packet_alloc p = (MOSQ_ERR_PAYLOAD_SIZE, p') ∧ payload p' = None.
Proof.
  intros Hl. destruct (Z.ltb_spec (remaining_length p) MAX_BODY) as [Hlt|Hge].
  - destruct (packet_alloc_written p) as (p' & E & Hw & _); [lia|]. eauto.
  - unfold _mosquitto_packet_alloc. rewrite remaining_digits_5 by lia. by eexists.
Qed.
