(* ===== verification/State.v ===== *)
(** * The broker's data (src/mosquitto_broker.h, lib/mosquitto_internal.h)

    The structures the broker's components share: stored messages
    ([struct mosquitto_msg_store]), the messages in flight to or from a
    client ([struct mosquitto_client_msg]), the client's context
    ([struct mosquitto]), bridges, and the settings every operation reads.

    Pointers are [positive]s. A linked list is the list of its elements from
    the head; where the source keeps a pointer to the last element as well
    ([last_msg]), the pointer is kept beside the list, so that a stale one
    can be told from a correct one. *)

From stdpp Require Import base list numbers strings option sets gmap.
From Stdlib Require Import ZArith Lia.
From S2P Require Import Prelude Packet.
Local Open Scope Z_scope.

Abbreviation ptr := positive.

(** Access types (src/mosquitto_plugin.h) *)
Definition MOSQ_ACL_NONE : Z := 0.
Definition MOSQ_ACL_READ : Z := 1.
Definition MOSQ_ACL_WRITE : Z := 2.

(** A field's setter: the constructor applied to the projections of [x], with
    the projection named replaced. *)
Ltac setter eta proj f x :=
  let e := eval cbv beta delta [eta] in (eta x) in
  let e' := eval pattern (proj x) in e in
  lazymatch e' with ?g _ => let r := eval cbv beta in (g (f (proj x))) in exact r end.

(** ** Messages *)

Inductive msg_direction := mosq_md_in | mosq_md_out.

Inductive msg_state :=
| mosq_ms_invalid
| mosq_ms_publish_qos0
| mosq_ms_publish_qos1
| mosq_ms_wait_for_puback
| mosq_ms_publish_qos2
| mosq_ms_wait_for_pubrec
| mosq_ms_resend_pubrel
| mosq_ms_wait_for_pubrel
| mosq_ms_resend_pubcomp
| mosq_ms_wait_for_pubcomp
| mosq_ms_send_pubrec
| mosq_ms_queued.

#[export] Instance msg_direction_eq_dec : EqDecision msg_direction.
Proof. solve_decision. Defined.
#[export] Instance msg_state_eq_dec : EqDecision msg_state.
Proof. solve_decision. Defined.

(** [struct mosquitto_msg_store]; [dest_ids] with its count is a list, and a
    NULL topic marks a QoS 2 message that was refused. *)
Record msg_store := MsgStore {
  db_id : Z;
  source_id : bytes;
  dest_ids : list bytes;
  ref_count : Z;
  ms_topic : option bytes;
  ms_payload : bytes;
  source_mid : Z;
  ms_mid : Z;
  ms_qos : Z;
  ms_retain : bool;
}.

Definition payloadlen (m : msg_store) : Z := Z.of_nat (length (ms_payload m)).

Definition eta_msg_store (m : msg_store) : msg_store :=
  MsgStore (db_id m) (source_id m) (dest_ids m) (ref_count m) (ms_topic m)
    (ms_payload m) (source_mid m) (ms_mid m) (ms_qos m) (ms_retain m).
Definition set_ref_count (f : Z → Z) (m : msg_store) : msg_store :=
  ltac:(setter eta_msg_store ref_count f m).
Definition set_dest_ids (f : list bytes → list bytes) (m : msg_store) : msg_store :=
  ltac:(setter eta_msg_store dest_ids f m).

(** [struct mosquitto_client_msg]; [cm_ptr] is the address of the element. *)
Record client_msg := ClientMsg {
  cm_ptr : ptr;
  cm_store : ptr;
  timestamp : Z;
  mid : Z;
  qos : Z;
  retain : bool;
  direction : msg_direction;
  state : msg_state;
  dup : bool;
}.

Definition set_state (s : msg_state) (m : client_msg) : client_msg :=
  ClientMsg (cm_ptr m) (cm_store m) (timestamp m) (mid m) (qos m) (retain m)
    (direction m) s (dup m).
Definition set_timestamp (t : Z) (m : client_msg) : client_msg :=
  ClientMsg (cm_ptr m) (cm_store m) t (mid m) (qos m) (retain m)
    (direction m) (state m) (dup m).
Definition set_dup (d : bool) (m : client_msg) : client_msg :=
  ClientMsg (cm_ptr m) (cm_store m) (timestamp m) (mid m) (qos m) (retain m)
    (direction m) (state m) d.

(** [struct mosquitto_message], as the will *)
Record message := Message {
  m_topic : bytes;
  m_payload : bytes;
  m_qos : Z;
  m_retain : bool;
}.

(** ** Bridges *)

Inductive bridge_direction := bd_out | bd_in | bd_both.
Inductive bridge_start_type := bst_automatic | bst_lazy | bst_manual | bst_once.

#[export] Instance bridge_direction_eq_dec : EqDecision bridge_direction.
Proof. solve_decision. Defined.
#[export] Instance bridge_start_type_eq_dec : EqDecision bridge_start_type.
Proof. solve_decision. Defined.

Record bridge_topic := BridgeTopic {
  bt_topic : bytes;
  bt_qos : Z;
  bt_direction : bridge_direction;
  local_prefix : option bytes;
  remote_prefix : option bytes;
  local_topic : bytes;
  remote_topic : bytes;
}.

Record bridge := Bridge {
  br_name : bytes;
  topics : list bridge_topic;
  topic_remapping : bool;
  start_type : bridge_start_type;
  threshold : Z;
  idle_timeout : Z;
  notifications : bool;
  notification_topic : option bytes;
  remote_clientid : bytes;
  remote_username : option bytes;
  remote_password : option bytes;
  local_clientid : option bytes;
  local_username : option bytes;
  local_password : option bytes;
  try_private : bool;
  try_private_accepted : bool;
  attempt_unsubscribe : bool;
  lazy_reconnect : bool;
}.

Definition eta_bridge (b : bridge) : bridge :=
  Bridge (br_name b) (topics b) (topic_remapping b) (start_type b) (threshold b)
    (idle_timeout b) (notifications b) (notification_topic b) (remote_clientid b)
    (remote_username b) (remote_password b) (local_clientid b)
    (local_username b) (local_password b) (try_private b) (try_private_accepted b)
    (attempt_unsubscribe b) (lazy_reconnect b).
Definition set_lazy_reconnect f (b : bridge) : bridge := ltac:(setter eta_bridge lazy_reconnect f b).
(** The names and passwords of a bridge, dropped with its context. *)
Definition clear_identity (b : bridge) : bridge :=
  Bridge (br_name b) (topics b) (topic_remapping b) (start_type b) (threshold b)
    (idle_timeout b) (notifications b) (notification_topic b) (remote_clientid b)
    None None None None None (try_private b) (try_private_accepted b)
    (attempt_unsubscribe b) (lazy_reconnect b).
Definition set_try_private_accepted f (b : bridge) : bridge :=
  ltac:(setter eta_bridge try_private_accepted f b).

(** ** Contexts *)

Inductive client_state :=
| mosq_cs_new
| mosq_cs_connected
| mosq_cs_disconnecting
| mosq_cs_connect_async
| mosq_cs_connect_pending
| mosq_cs_connect_srv
| mosq_cs_disconnect_ws
| mosq_cs_disconnected
| mosq_cs_expiring.

#[export] Instance client_state_eq_dec : EqDecision client_state.
Proof. solve_decision. Defined.

Inductive protocol_version := mosq_p_invalid | mosq_p_mqtt31 | mosq_p_mqtt311 | mosq_p_mqtts.

#[export] Instance protocol_eq_dec : EqDecision protocol_version.
Proof. solve_decision. Defined.

(** What the following calls of [write] do: accept that many bytes (at most
    those offered) or fail. At the end of the script everything is
    accepted. *)
Inductive out_event := OutOk (n : nat) | OutErr (e : errno).

(** The place of a subscription in the tree: the tokens from the root's child
    down to the node. *)
Abbreviation path := (list bytes).

(** [struct mosquitto], the broker's build. [sock = None] is
    [INVALID_SOCKET]; [out_packet] is the whole list of waiting packets;
    [subs] is the array of the nodes the client has subscriptions at;
    [acl_list] is the place of the client's entry in [db->acl_list]. [rd]
    and [wr] script the socket, [sent] is what went out through it. The
    counters of messages, [int]s in C, are not bounded. *)
Record mosquitto := Mosquitto {
  sock : option Z;
  protocol : protocol_version;
  id : option bytes;
  username : option bytes;
  password : option bytes;
  keepalive : Z;
  last_mid : Z;
  cstate : client_state;
  c_last_msg_in : Z;
  next_msg_out : Z;
  ping_t : Z;
  c_in_packet : packet;
  current_out_packet : option packet;
  out_packet : list packet;
  will : option message;
  clean_session : bool;
  is_dropping : bool;
  is_bridge : bool;
  c_bridge : option bridge;
  msgs : list client_msg;
  last_msg : option ptr;
  msg_count : Z;
  msg_count12 : Z;
  acl_list : option nat;
  listener : option nat;
  disconnect_t : Z;
  subs : list (option path);
  rd : list in_event;
  wr : list out_event;
  sent : bytes;
}.

Definition eta_mosquitto (c : mosquitto) : mosquitto :=
  Mosquitto (sock c) (protocol c) (id c) (username c) (password c) (keepalive c)
    (last_mid c) (cstate c) (c_last_msg_in c) (next_msg_out c) (ping_t c)
    (c_in_packet c) (current_out_packet c) (out_packet c) (will c)
    (clean_session c) (is_dropping c) (is_bridge c) (c_bridge c) (msgs c)
    (last_msg c) (msg_count c) (msg_count12 c) (acl_list c) (listener c)
    (disconnect_t c) (subs c) (rd c) (wr c) (sent c).

Definition set_sock f (c : mosquitto) : mosquitto := ltac:(setter eta_mosquitto sock f c).
Definition set_protocol f (c : mosquitto) : mosquitto := ltac:(setter eta_mosquitto protocol f c).
Definition set_id f (c : mosquitto) : mosquitto := ltac:(setter eta_mosquitto id f c).
Definition set_username f (c : mosquitto) : mosquitto := ltac:(setter eta_mosquitto username f c).
Definition set_password f (c : mosquitto) : mosquitto := ltac:(setter eta_mosquitto password f c).
Definition set_keepalive f (c : mosquitto) : mosquitto := ltac:(setter eta_mosquitto keepalive f c).
Definition set_last_mid f (c : mosquitto) : mosquitto := ltac:(setter eta_mosquitto last_mid f c).
Definition set_cstate f (c : mosquitto) : mosquitto := ltac:(setter eta_mosquitto cstate f c).
Definition set_last_msg_in f (c : mosquitto) : mosquitto := ltac:(setter eta_mosquitto c_last_msg_in f c).
Definition set_next_msg_out f (c : mosquitto) : mosquitto := ltac:(setter eta_mosquitto next_msg_out f c).
Definition set_ping_t f (c : mosquitto) : mosquitto := ltac:(setter eta_mosquitto ping_t f c).
Definition set_in_packet f (c : mosquitto) : mosquitto := ltac:(setter eta_mosquitto c_in_packet f c).
Definition set_current_out f (c : mosquitto) : mosquitto := ltac:(setter eta_mosquitto current_out_packet f c).
Definition set_out_packet f (c : mosquitto) : mosquitto := ltac:(setter eta_mosquitto out_packet f c).
Definition set_will f (c : mosquitto) : mosquitto := ltac:(setter eta_mosquitto will f c).
Definition set_clean_session f (c : mosquitto) : mosquitto := ltac:(setter eta_mosquitto clean_session f c).
Definition set_is_dropping f (c : mosquitto) : mosquitto := ltac:(setter eta_mosquitto is_dropping f c).
Definition set_is_bridge f (c : mosquitto) : mosquitto := ltac:(setter eta_mosquitto is_bridge f c).
Definition set_bridge f (c : mosquitto) : mosquitto := ltac:(setter eta_mosquitto c_bridge f c).
Definition set_msgs f (c : mosquitto) : mosquitto := ltac:(setter eta_mosquitto msgs f c).
Definition set_last_msg f (c : mosquitto) : mosquitto := ltac:(setter eta_mosquitto last_msg f c).
Definition set_msg_count f (c : mosquitto) : mosquitto := ltac:(setter eta_mosquitto msg_count f c).
Definition set_msg_count12 f (c : mosquitto) : mosquitto := ltac:(setter eta_mosquitto msg_count12 f c).
Definition set_acl_list f (c : mosquitto) : mosquitto := ltac:(setter eta_mosquitto acl_list f c).
Definition set_listener f (c : mosquitto) : mosquitto := ltac:(setter eta_mosquitto listener f c).
Definition set_disconnect_t f (c : mosquitto) : mosquitto := ltac:(setter eta_mosquitto disconnect_t f c).
Definition set_subs f (c : mosquitto) : mosquitto := ltac:(setter eta_mosquitto subs f c).
Definition set_rd f (c : mosquitto) : mosquitto := ltac:(setter eta_mosquitto rd f c).
Definition set_wr f (c : mosquitto) : mosquitto := ltac:(setter eta_mosquitto wr f c).
Definition set_sent f (c : mosquitto) : mosquitto := ltac:(setter eta_mosquitto sent f c).

(** ** Settings

    The configuration the operations read, the two limits of database.c, and
    the clocks: [now] is what [mosquitto_time] returns during the operation,
    [wall_clock] what [time(NULL)] does. *)
Record env := Env {
  max_inflight : Z;
  max_queued : Z;
  allow_duplicate_messages : bool;
  queue_qos0_messages : bool;
  upgrade_outgoing_qos : bool;
  allow_anonymous : bool;
  allow_zero_length_clientid : bool;
  auto_id_prefix : bytes;
  clientid_prefixes : option bytes;
  message_size_limit : Z;
  mount_points : list (option bytes);
  use_username_as_clientid : list bool;
  now : Z;
  wall_clock : Z;
}.

Definition mount_point (E : env) (c : mosquitto) : option bytes :=
  l ← listener c; m ← mount_points E !! l; m.
