(* ===== verification/Store.v ===== *)
(** * The message store (src/database.c)

    The stored messages are reference counted: a message is kept once and
    referenced by every client it is queued for and by the tree node that
    retains it. [store_ok refs] relates the store to the list of the
    references that exist; each operation is specified by how it changes that
    list. *)

From stdpp Require Import base list numbers strings option sets gmap.
From Stdlib Require Import ZArith Lia.
From S2P Require Import Prelude State.
Local Open Scope Z_scope.

(** The part of [struct mosquitto_db] that holds messages: the heap of stored
    messages, [db->msg_store] as the list of its elements, and counters.
    [next_ptr] is the next address the allocator returns. *)
Record msg_db := MsgDb {
  heap : gmap ptr msg_store;
  msg_list : list ptr;
  msg_store_count : Z;
  last_db_id : Z;
  persistence_changes : Z;
  next_ptr : ptr;
}.

Definition set_heap (h : gmap ptr msg_store) (d : msg_db) : msg_db :=
  MsgDb h (msg_list d) (msg_store_count d) (last_db_id d) (persistence_changes d) (next_ptr d).
Definition set_persistence_changes (n : Z) (d : msg_db) : msg_db :=
  MsgDb (heap d) (msg_list d) (msg_store_count d) (last_db_id d) n (next_ptr d).

(** [malloc] *)
Definition fresh_ptr (d : msg_db) : ptr * msg_db :=
  (next_ptr d, MsgDb (heap d) (msg_list d) (msg_store_count d) (last_db_id d)
                 (persistence_changes d) (Pos.succ (next_ptr d))).

(** Access through a pointer; [None]: the message was freed. *)
Definition deref_store (s : ptr) (d : msg_db) : option msg_store := heap d !! s.

Definition upd_store (s : ptr) (f : msg_store → msg_store) (d : msg_db) : option msg_db :=
  m ← heap d !! s; Some (set_heap (<[s := f m]> (heap d)) d).

(** ** The operations of database.c *)

Definition mosquitto__db_msg_store_add (s : ptr) (d : msg_db) : msg_db :=
  MsgDb (heap d) (s :: msg_list d) (msg_store_count d) (last_db_id d)
    (persistence_changes d) (next_ptr d).

(** Unlinks the message and frees it. *)
Definition mosquitto__db_msg_store_remove (s : ptr) (d : msg_db) : option msg_db :=
  _ ← heap d !! s;
  Some (MsgDb (delete s (heap d)) (filter (λ x, x ≠ s) (msg_list d))
          (msg_store_count d - 1) (last_db_id d) (persistence_changes d) (next_ptr d)).

(** [while(store){ next = store->next; remove(store); store = next; }] *)
Fixpoint msg_store_clean_loop (l : list ptr) (d : msg_db) : option msg_db :=
  match l with
  | [] => Some d
  | s :: l' => d ← mosquitto__db_msg_store_remove s d; msg_store_clean_loop l' d
  end.
Definition mosquitto__db_msg_store_clean (d : msg_db) : option msg_db :=
  msg_store_clean_loop (msg_list d) d.

(** The new value of the caller's pointer, NULL once the message is freed. *)
Definition mosquitto__db_msg_store_deref (s : ptr) (d : msg_db) : option (option ptr * msg_db) :=
  d ← upd_store s (set_ref_count (λ n, n - 1)) d;
  m ← heap d !! s;
  if ref_count m =? 0 then
    d ← mosquitto__db_msg_store_remove s d; Some (None, d)
  else Some (Some s, d).

(** [msg->store->ref_count++] *)
Definition store_ref (s : ptr) (d : msg_db) : option msg_db :=
  upd_store s (set_ref_count (λ n, n + 1)) d.

(** [store_id = 0] asks for a new id. *)
Definition mqtt3_db_message_store (source : bytes) (smid : Z) (topic : option bytes)
    (mqos : Z) (pl : bytes) (mretain : bool) (store_id : Z) (d : msg_db) : ptr * msg_db :=
  let '(s, d) := fresh_ptr d in
  let last := if store_id =? 0 then (last_db_id d + 1) `mod` 2 ^ 64 else last_db_id d in
  let dbid := if store_id =? 0 then last else store_id in
  let m := MsgStore dbid source [] 0 topic pl smid 0 mqos mretain in
  (s, mosquitto__db_msg_store_add s
        (MsgDb (<[s := m]> (heap d)) (msg_list d) (msg_store_count d + 1) last
           (persistence_changes d) (next_ptr d))).

(** ** Counting references *)

Definition refs_to (s : ptr) (l : list ptr) : nat := length (filter (λ x, x = s) l).

(** Every reference is to a live message, and every live message's count is
    the number of references to it. *)
Definition counts_ok (h : gmap ptr msg_store) (refs : list ptr) : Prop :=
  ∀ s, match h !! s with
       | Some m => ref_count m = Z.of_nat (refs_to s refs)
       | None => refs_to s refs = 0%nat
       end.

(** The list links exactly the live messages, once each. *)
Record list_ok (d : msg_db) : Prop := {
  list_nodup : NoDup (msg_list d);
  list_heap : ∀ s, s ∈ msg_list d ↔ is_Some (heap d !! s);
  list_count : msg_store_count d = Z.of_nat (length (msg_list d));
  heap_fresh : ∀ s, is_Some (heap d !! s) → (s < next_ptr d)%positive;
}.

Definition store_ok (refs : list ptr) (d : msg_db) : Prop :=
  counts_ok (heap d) refs ∧ list_ok d.

Lemma refs_to_cons s x l : refs_to s (x :: l) = ((if decide (x = s) then 1 else 0) + refs_to s l)%nat.
Proof. unfold refs_to. rewrite filter_cons. by case_decide. Qed.

Lemma refs_to_app s l1 l2 : refs_to s (l1 ++ l2) = (refs_to s l1 + refs_to s l2)%nat.
Proof. unfold refs_to. by rewrite filter_app, length_app. Qed.

Lemma refs_to_elem s l : s ∈ l → (1 ≤ refs_to s l)%nat.
Proof.
  induction l as [|x l IH]; [set_solver|]. rewrite elem_of_cons, refs_to_cons.
  intros [->|H]; [rewrite decide_True by done; lia|]. specialize (IH H). lia.
Qed.

#[export] Instance refs_to_perm s : Proper ((≡ₚ) ==> eq) (refs_to s).
Proof. intros l1 l2 H. unfold refs_to. by rewrite H. Qed.

#[export] Instance counts_ok_perm h : Proper ((≡ₚ) ==> iff) (counts_ok h).
Proof.
  intros l1 l2 H. split; intros Hc s; specialize (Hc s);
    [rewrite <-(refs_to_perm s _ _ H)|rewrite (refs_to_perm s _ _ H)]; done.
Qed.

#[export] Instance store_ok_perm : Proper ((≡ₚ) ==> eq ==> iff) store_ok.
Proof. intros l1 l2 H d ? <-. unfold store_ok. by rewrite H. Qed.

(** A reference is never dangling. *)
Lemma store_ok_live refs d s : store_ok refs d → s ∈ refs → ∃ m, heap d !! s = Some m.
Proof.
  intros [Hc _] Hs. specialize (Hc s). apply refs_to_elem in Hs.
  destruct (heap d !! s); [eauto|lia].
Qed.

Lemma store_ok_count refs d s m :
  store_ok refs d → heap d !! s = Some m → ref_count m = Z.of_nat (refs_to s refs).
Proof. intros [Hc _] Hs. specialize (Hc s). by rewrite Hs in Hc. Qed.

(** Changing a message in a way that changes its count by the number of
    references gained or lost. *)
Lemma upd_store_ok refs refs' d s m f :
  store_ok refs d → heap d !! s = Some m →
  ref_count (f m) = Z.of_nat (refs_to s refs') →
  (∀ s', s' ≠ s → refs_to s' refs' = refs_to s' refs) →
  ∃ d', upd_store s f d = Some d' ∧ store_ok refs' d' ∧
    heap d' = <[s := f m]> (heap d) ∧ msg_list d' = msg_list d ∧
    next_ptr d' = next_ptr d ∧ persistence_changes d' = persistence_changes d.
Proof.
  intros [Hc [Hn Hh Hl Hf]] Hs Hr Ho. unfold upd_store. rewrite Hs.
  eexists. split; [done|]. split; [|done]. split.
  - intros s'. cbn [set_heap heap]. destruct (decide (s' = s)) as [->|Hne].
    + by rewrite lookup_insert_eq.
    + rewrite lookup_insert_ne by done. specialize (Hc s'). rewrite Ho by done. exact Hc.
  - split; cbn [set_heap heap msg_list msg_store_count next_ptr]; [done| |done|].
    + intros s'. rewrite Hh. destruct (decide (s' = s)) as [->|Hne].
      * rewrite lookup_insert_eq, Hs. by split; eauto.
      * by rewrite lookup_insert_ne.
    + intros s'. destruct (decide (s' = s)) as [->|Hne].
      * intros _. apply Hf. eauto.
      * rewrite lookup_insert_ne by done. apply Hf.
Qed.

Lemma store_ref_ok refs d s m :
  store_ok refs d → heap d !! s = Some m →
  ∃ d', store_ref s d = Some d' ∧ store_ok (s :: refs) d' ∧
    heap d' = <[s := set_ref_count (λ n, n + 1) m]> (heap d) ∧
    next_ptr d' = next_ptr d ∧ persistence_changes d' = persistence_changes d.
Proof.
  intros Hok Hs. pose proof (store_ok_count _ _ _ _ Hok Hs) as Hr.
  destruct (upd_store_ok refs (s :: refs) d s m (set_ref_count (λ n, n + 1)))
    as (d' & E & Hok' & Hh & _ & Hn & Hp); try done.
  - cbn [set_ref_count ref_count]. rewrite refs_to_cons, decide_True by done. lia.
  - intros s' Hne. by rewrite refs_to_cons, decide_False.
  - eauto 6.
Qed.

(** Recording a destination keeps the counts. *)
Lemma upd_dest_ids_ok refs d s m f :
  store_ok refs d → heap d !! s = Some m →
  ∃ d', upd_store s (set_dest_ids f) d = Some d' ∧ store_ok refs d' ∧
    heap d' = <[s := set_dest_ids f m]> (heap d) ∧ next_ptr d' = next_ptr d ∧
    persistence_changes d' = persistence_changes d.
Proof.
  intros Hok Hs. pose proof (store_ok_count _ _ _ _ Hok Hs) as Hr.
  destruct (upd_store_ok refs refs d s m (set_dest_ids f))
    as (d' & E & Hok' & Hh & _ & Hn & Hp); try done. eauto 6.
Qed.

Lemma msg_store_remove_ok refs d s m :
  counts_ok (delete s (heap d)) refs → list_ok d → heap d !! s = Some m →
  ∃ d', mosquitto__db_msg_store_remove s d = Some d' ∧ store_ok refs d' ∧
    heap d' = delete s (heap d) ∧ next_ptr d' = next_ptr d ∧
    persistence_changes d' = persistence_changes d.
Proof.
  intros Hc [Hn Hh Hl Hf] Hs. unfold mosquitto__db_msg_store_remove. rewrite Hs.
  eexists. split; [done|]. split; [|done]. split; [done|].
  assert (Hin : s ∈ msg_list d) by (apply Hh; eauto).
  split; cbn [heap msg_list msg_store_count next_ptr].
  - by apply NoDup_filter.
  - intros s'. rewrite list_elem_of_filter, Hh, lookup_delete_is_Some. naive_solver.
  - rewrite Hl. apply list_elem_of_split in Hin as (l1 & l2 & E). rewrite E in *.
    apply NoDup_app in Hn as (_ & Hd & Hn2). apply NoDup_cons in Hn2 as [Hn2 _].
    rewrite filter_app, filter_cons_False by naive_solver.
    rewrite !filter_ne_id, !length_app; [simpl; lia|done|].
    intros Hx. apply (Hd s Hx). set_solver.
  - intros s' [? Hs']. apply Hf. rewrite lookup_delete_Some in Hs'. naive_solver.
Qed.

(** Dropping a reference; the message is freed with the last one. *)
Lemma store_deref_ok refs d s :
  store_ok (s :: refs) d →
  ∃ o d', mosquitto__db_msg_store_deref s d = Some (o, d') ∧ store_ok refs d' ∧
    o = (if decide (s ∈ refs) then Some s else None) ∧
    next_ptr d' = next_ptr d ∧ persistence_changes d' = persistence_changes d ∧
    (∀ s', s' ≠ s → heap d' !! s' = heap d !! s') ∧
    heap d' !! s = (if decide (s ∈ refs) then set_ref_count (λ n, n - 1) <$> heap d !! s else None).
Proof.
  intros Hok. destruct (store_ok_live _ _ s Hok) as [m Hs]; [set_solver|].
  pose proof (store_ok_count _ _ _ _ Hok Hs) as Hr.
  rewrite refs_to_cons, decide_True in Hr by done.
  destruct (upd_store_ok (s :: refs) refs d s m (set_ref_count (λ n, n - 1)))
    as (d1 & E1 & Hok1 & Hh1 & _ & Hn1 & Hp1); try done.
  - cbn [set_ref_count ref_count]. lia.
  - intros s' Hne. by rewrite refs_to_cons, decide_False.
  - unfold mosquitto__db_msg_store_deref. rewrite E1. cbn [mbind option_bind].
    rewrite Hh1, lookup_insert_eq. cbn [mbind option_bind set_ref_count ref_count].
    case_decide as Hin.
    + apply refs_to_elem in Hin. rewrite (proj2 (Z.eqb_neq _ _)) by lia.
      eexists _, _. split; [done|]. rewrite Hh1, Hs, lookup_insert_eq.
      split_and!; try done; try congruence. intros s' ?. by rewrite lookup_insert_ne.
    + assert (refs_to s refs = 0%nat) as H0.
      { unfold refs_to. destruct (filter _ refs) as [|x l] eqn:E; [done|].
        exfalso. apply Hin. assert (x ∈ x :: l) as Hx by set_solver.
        rewrite <-E in Hx. apply list_elem_of_filter in Hx as [-> ?]. done. }
      rewrite (proj2 (Z.eqb_eq _ _)) by lia.
      destruct (msg_store_remove_ok refs d1 s (set_ref_count (λ n, n - 1) m))
        as (d2 & E2 & Hok2 & Hh2 & Hn2 & Hp2).
      * destruct Hok1 as [Hc1 _]. intros s'. specialize (Hc1 s').
        destruct (decide (s' = s)) as [->|]; [by rewrite lookup_delete_eq|].
        by rewrite lookup_delete_ne.
      * apply Hok1.
      * by rewrite Hh1, lookup_insert_eq.
      * rewrite E2. eexists _, _. split; [done|]. rewrite Hh2, lookup_delete_eq, Hh1.
        split_and!; try done; try congruence.
        intros s' ?. rewrite lookup_delete_ne, lookup_insert_ne by done. done.
Qed.

(** A new message has no references. *)
Lemma message_store_ok refs d source smid topic q pl r sid :
  store_ok refs d →
  ∃ s d' m, mqtt3_db_message_store source smid topic q pl r sid d = (s, d') ∧
    store_ok refs d' ∧ heap d !! s = None ∧ heap d' = <[s := m]> (heap d) ∧
    s = next_ptr d ∧ next_ptr d' = Pos.succ (next_ptr d) ∧
    persistence_changes d' = persistence_changes d ∧
    ref_count m = 0 ∧ ms_topic m = topic ∧ ms_payload m = pl ∧ ms_qos m = q ∧
    ms_retain m = r ∧ source_id m = source ∧ source_mid m = smid ∧ dest_ids m = [].
Proof.
  intros [Hc [Hn Hh Hl Hf]]. unfold mqtt3_db_message_store. cbn [fresh_ptr].
  assert (Hnone : heap d !! next_ptr d = None).
  { destruct (heap d !! next_ptr d) eqn:E; [|done].
    assert (next_ptr d < next_ptr d)%positive by (apply Hf; eauto). lia. }
  assert (Hnin : next_ptr d ∉ msg_list d).
  { rewrite Hh, Hnone. intros [? ?]. done. }
  eexists _, _, _. split; [done|]. split; [|by split_and!]. split.
  - intros s'. cbn. destruct (decide (s' = next_ptr d)) as [->|].
    + rewrite lookup_insert_eq. specialize (Hc (next_ptr d)). rewrite Hnone in Hc. cbn. lia.
    + rewrite lookup_insert_ne by done. apply Hc.
  - split; cbn.
    + by apply NoDup_cons.
    + intros s'. rewrite elem_of_cons, Hh. destruct (decide (s' = next_ptr d)) as [->|].
      * rewrite lookup_insert_eq. naive_solver.
      * rewrite lookup_insert_ne by done. naive_solver.
    + rewrite Hl. lia.
    + intros s'. destruct (decide (s' = next_ptr d)) as [->|]; [lia|].
      rewrite lookup_insert_ne by done. intros H. specialize (Hf _ H). lia.
Qed.
