(* ===== verification/Send.v ===== *)
(** * Sending (lib/net_mosq.c, lib/send_mosq.c, lib/send_client_mosq.c,
      src/send_server.c)

    Outgoing packets are queued on the context and written as far as the
    socket accepts them; what is left is written by later calls. The
    functions that build and queue each kind of packet follow. *)

From stdpp Require Import base list numbers strings option sets gmap.
From Stdlib Require Import ZArith Lia.
From S2P Require Import Prelude Topic Packet State.
Local Open Scope Z_scope.
Local Open Scope broker_scope.

(** ** The write loop *)

(** How many bytes were written, or the error. *)
Definition _mosquitto_net_write (buf : bytes) : M mosquitto (nat + errno) := λ c,
  match wr c with
  | [] => Some (inl (length buf), set_sent (λ s, s ++ buf) c)
  | OutOk n :: w =>
      let k := Nat.min n (length buf) in
      Some (inl k, set_sent (λ s, s ++ take k buf) (set_wr (λ _, w) c))
  | OutErr e :: w => Some (inr e, set_wr (λ _, w) c)
  end.

Definition set_progress (k : nat) (p : packet) : packet :=
  Packet (payload p) (remaining_mult p) (remaining_length p) (packet_length p)
    (to_process p - Z.of_nat k) (pos p + Z.of_nat k) (pmid p) (command p) (remaining_count p).

(** [while(packet->to_process > 0)]; each round writes a byte at least. The
    value is what the function returns when it stops in the middle. *)
Fixpoint write_current (n : nat) : M mosquitto (option Z) :=
  let* c := mget in
  let* p := mlift (current_out_packet c) in
  if 0 <? to_process p then
    match n with
    | O => undefined
    | S n' =>
        let* buf := mlift (payload_slice p (to_process p)) in
        let* r := _mosquitto_net_write buf in
        match r with
        | inl (S _ as k) =>
            mmodify (set_current_out (λ _, Some (set_progress k p))) ;;;
            write_current n'
        | inl O => ret (Some MOSQ_ERR_ERRNO)
        | inr EAGAIN => ret (Some MOSQ_ERR_SUCCESS)
        | inr ECONNRESET => ret (Some MOSQ_ERR_CONN_LOST)
        | inr EOTHER => ret (Some MOSQ_ERR_ERRNO)
        end
    end
  else ret None.

(** [current_out_packet = out_packet; out_packet = out_packet->next] *)
Definition next_packet (c : mosquitto) : mosquitto :=
  set_current_out (λ _, head (out_packet c)) (set_out_packet tail c).

Section send.
Context (E : env).

(** [while(mosq->current_out_packet)]; the queue gets shorter by one packet
    with each round. *)
Fixpoint write_loop (n : nat) : M mosquitto Z :=
  let* c := mget in
  match current_out_packet c with
  | None => ret MOSQ_ERR_SUCCESS
  | Some p =>
      match n with
      | O => undefined
      | S n' =>
          let* r := write_current (Z.to_nat (to_process p)) in
          match r with
          | Some rc => ret rc
          | None =>
              mmodify (λ c, set_next_msg_out (λ _, now E + keepalive c) (next_packet c)) ;;;
              write_loop n'
          end
      end
  end.

Definition _mosquitto_packet_write : M mosquitto Z :=
  let* c := mget in
  match sock c with
  | None => ret MOSQ_ERR_NO_CONN
  | Some _ =>
      mmodify (λ c, match current_out_packet c, out_packet c with
                    | None, _ :: _ => next_packet c
                    | _, _ => c
                    end) ;;;
      if decide (cstate c = mosq_cs_connect_pending) then ret MOSQ_ERR_SUCCESS
      else
        let* c := mget in
        write_loop (S (length (out_packet c)))
  end.

Definition _mosquitto_packet_queue (p : packet) : M mosquitto Z :=
  let p := Packet (payload p) (remaining_mult p) (remaining_length p) (packet_length p)
             (packet_length p) 0 (pmid p) (command p) (remaining_count p) in
  mmodify (set_out_packet (λ q, q ++ [p])) ;;;
  _mosquitto_packet_write.

(** ** The packets *)

Definition new_packet (cmd rl : Z) : packet := Packet None 0 (u32 rl) 0 0 0 0 (u8 cmd) 0.

(** [packet->payload[packet->pos+i] = b] *)
Definition poke (i b : Z) (p : packet) : option packet :=
  buf ← payload p;
  let j := Z.to_nat (pos p + i) in
  if (j <? length buf)%nat then Some (set_payload (Some (<[j := u8 b]> buf)) p) else None.

(** The result of [_mosquitto_packet_alloc] decides whether to go on. *)
Definition alloc_then (p : packet) (k : packet → M mosquitto Z) : M mosquitto Z :=
  let '(rc, p) := _mosquitto_packet_alloc p in
  if rc =? MOSQ_ERR_SUCCESS then k p else ret rc.

Definition _mosquitto_send_command_with_mid (cmd m : Z) (d : bool) : M mosquitto Z :=
  alloc_then (new_packet (if d then Z.lor cmd 8 else cmd) 2) (λ p,
    let* p := mlift (poke 0 (MOSQ_MSB m) p) in
    let* p := mlift (poke 1 (MOSQ_LSB m) p) in
    _mosquitto_packet_queue p).

Definition _mosquitto_send_simple_command (cmd : Z) : M mosquitto Z :=
  alloc_then (new_packet cmd 0) _mosquitto_packet_queue.

Definition _mosquitto_send_pingreq : M mosquitto Z :=
  let* rc := _mosquitto_send_simple_command PINGREQ in
  (if rc =? MOSQ_ERR_SUCCESS then mmodify (set_ping_t (λ _, now E)) else ret tt) ;;;
  ret rc.
Definition _mosquitto_send_pingresp : M mosquitto Z := _mosquitto_send_simple_command PINGRESP.
Definition _mosquitto_send_disconnect : M mosquitto Z := _mosquitto_send_simple_command DISCONNECT.
Definition _mosquitto_send_puback (m : Z) : M mosquitto Z :=
  _mosquitto_send_command_with_mid PUBACK m false.
Definition _mosquitto_send_pubcomp (m : Z) : M mosquitto Z :=
  _mosquitto_send_command_with_mid PUBCOMP m false.
Definition _mosquitto_send_pubrec (m : Z) : M mosquitto Z :=
  _mosquitto_send_command_with_mid PUBREC m false.
Definition _mosquitto_send_pubrel (m : Z) : M mosquitto Z :=
  _mosquitto_send_command_with_mid (Z.lor PUBREL 2) m false.

(** *** PUBLISH *)

Definition publish_command (q : Z) (r d : bool) : Z :=
  u8 (Z.lor (Z.lor (Z.lor PUBLISH (Z.shiftl (Z.b2z d) 3)) (Z.shiftl q 1)) (Z.b2z r)).

Definition slen (s : bytes) : Z := Z.of_nat (length s).

Definition _mosquitto_send_real_publish (m : Z) (topic pl : bytes) (q : Z) (r d : bool)
    : M mosquitto Z :=
  let packetlen := 2 + slen topic + slen pl + (if 0 <? q then 2 else 0) in
  let p := Packet None 0 (u32 packetlen) 0 0 0 m (publish_command q r d) 0 in
  alloc_then p (λ p,
    let* p := mlift (_mosquitto_write_string topic (u16 (slen topic)) p) in
    let* p := if 0 <? q then mlift (_mosquitto_write_uint16 m p) else ret p in
    let* p := if slen pl =? 0 then ret p else mlift (_mosquitto_write_bytes pl (slen pl) p) in
    _mosquitto_packet_queue p).

(** [!strncmp(prefix, s, strlen(prefix))] *)
Definition has_prefix (prefix s : bytes) : bool :=
  bool_decide (take (length prefix) s = prefix).

(** The mapping of one topic of a bridge. *)
Definition map_topic (t : bridge_topic) (topic : bytes) : bytes :=
  let mapped :=
    match local_prefix t with
    | Some lp => if has_prefix lp topic then drop (length lp) topic else topic
    | None => topic
    end in
  match remote_prefix t with Some rp => rp ++ mapped | None => mapped end.

(** The loop over the bridge's topics: the first outgoing one with a prefix
    that matches decides. [inl rc]: the matcher failed. *)
Fixpoint remap_loop (ts : list bridge_topic) (topic : bytes) : option (Z + bytes) :=
  match ts with
  | [] => Some (inr topic)
  | t :: ts' =>
      if bool_decide (bt_direction t = bd_both ∨ bt_direction t = bd_out)
         && (bool_decide (is_Some (remote_prefix t)) || bool_decide (is_Some (local_prefix t)))
      then
        '(rc, res) ← mosquitto_topic_matches_sub (local_topic t) topic;
        if rc =? MOSQ_ERR_SUCCESS then
          b ← res;
          if (b : bool) then Some (inr (map_topic t topic)) else remap_loop ts' topic
        else Some (inl rc)
      else remap_loop ts' topic
  end.

Definition _mosquitto_send_publish (m : Z) (topic pl : bytes) (q : Z) (r d : bool)
    : M mosquitto Z :=
  let* c := mget in
  match sock c with
  | None => ret MOSQ_ERR_NO_CONN
  | Some _ =>
      match (match mount_point E c with
             | Some mp => if (length mp <? length topic)%nat
                          then Some (drop (length mp) topic) else None
             | None => Some topic
             end) with
      | None => ret MOSQ_ERR_SUCCESS
      | Some topic =>
          let* t := mlift (match c_bridge c with
                           | Some b => if topic_remapping b && negb (bool_decide (topics b = []))
                                       then remap_loop (topics b) topic
                                       else Some (inr topic)
                           | None => Some (inr topic)
                           end) in
          match t with
          | inl rc => ret rc
          | inr topic => _mosquitto_send_real_publish m topic pl q r d
          end
      end
  end.

(** *** CONNACK, SUBACK (src/send_server.c) *)

Definition _mosquitto_send_connack (ack result : Z) : M mosquitto Z :=
  alloc_then (new_packet CONNACK 2) (λ p,
    let* p := mlift (poke 0 ack p) in
    let* p := mlift (poke 1 result p) in
    _mosquitto_packet_queue p).

Definition _mosquitto_send_suback (m : Z) (pl : bytes) : M mosquitto Z :=
  alloc_then (new_packet SUBACK (2 + slen pl)) (λ p,
    let* p := mlift (_mosquitto_write_uint16 m p) in
    let* p := if slen pl =? 0 then ret p else mlift (_mosquitto_write_bytes pl (slen pl) p) in
    _mosquitto_packet_queue p).

(** *** Message ids *)

Definition _mosquitto_mid_generate : M mosquitto Z := λ c,
  let m := u16 (last_mid c + 1) in
  let m := if m =? 0 then u16 (m + 1) else m in
  Some (m, set_last_mid (λ _, m) c).

(** *** CONNECT, SUBSCRIBE, UNSUBSCRIBE (lib/send_client_mosq.c), which the
    broker sends for its bridges *)

Definition MQTT_PROTOCOL_V31 : Z := 3.
Definition MQTT_PROTOCOL_V311 : Z := 4.

Definition write_opt (w : option bytes) (p : packet) : option packet :=
  match w with
  | Some s => _mosquitto_write_string s (u16 (slen s)) p
  | None => Some p
  end.

Definition connect_flags (clean : bool) (w : option message) (user has_password : bool) : Z :=
  let byte := Z.shiftl (Z.b2z clean) 1 in
  let byte := match w with
              | Some m => Z.lor (Z.lor (Z.lor byte (Z.shiftl (Z.b2z (m_retain m)) 5))
                                   (Z.shiftl (Z.land (m_qos m) 3) 3)) (Z.shiftl 1 2)
              | None => byte
              end in
  if user then
    let byte := Z.lor byte (Z.shiftl 1 7) in
    if has_password then Z.lor byte (Z.shiftl 1 6) else byte
  else byte.

Definition _mosquitto_send_connect (ka : Z) (clean : bool) : M mosquitto Z :=
  let* c := mget in
  let* own_id := mlift (id c) in
  let '(clientid, user, pass) :=
    match c_bridge c with
    | Some b => (remote_clientid b, remote_username b, remote_password b)
    | None => (own_id, username c, password c)
    end in
  match (match protocol c with
         | mosq_p_mqtt31 => Some (MQTT_PROTOCOL_V31, 12, str "MQIsdp")
         | mosq_p_mqtt311 => Some (MQTT_PROTOCOL_V311, 10, str "MQTT")
         | _ => None
         end) with
  | None => ret MOSQ_ERR_INVAL
  | Some (version, headerlen, name) =>
      let payloadlen :=
        2 + slen clientid
        + (match will c with Some w => 2 + slen (m_topic w) + 2 + slen (m_payload w) | None => 0 end)
        + (match user with
           | Some u => 2 + slen u + (match pass with Some w => 2 + slen w | None => 0 end)
           | None => 0
           end) in
      alloc_then (new_packet CONNECT (headerlen + payloadlen)) (λ p,
        let* p := mlift (_mosquitto_write_string name (slen name) p) in
        let version :=
          match c_bridge c with
          | Some b => if try_private b && try_private_accepted b then Z.lor version 0x80 else version
          | None => version
          end in
        let* p := mlift (_mosquitto_write_byte version p) in
        let byte := connect_flags clean (will c) (bool_decide (is_Some user))
                      (bool_decide (is_Some (password c))) in
        let* p := mlift (_mosquitto_write_byte byte p) in
        let* p := mlift (_mosquitto_write_uint16 ka p) in
        let* p := mlift (_mosquitto_write_string clientid (u16 (slen clientid)) p) in
        let* p := mlift (write_opt (m_topic <$> will c) p) in
        let* p := mlift (write_opt (m_payload <$> will c) p) in
        let* p := mlift (write_opt user p) in
        let* p := mlift (if bool_decide (is_Some user) then write_opt pass p else Some p) in
        mmodify (set_keepalive (λ _, ka)) ;;;
        _mosquitto_packet_queue p)
  end.

Definition _mosquitto_send_subscribe (topic : bytes) (topic_qos : Z) : M mosquitto (Z * Z) :=
  let '(rc, p) := _mosquitto_packet_alloc
                    (new_packet (Z.lor SUBSCRIBE (Z.shiftl 1 1)) (2 + 2 + slen topic + 1)) in
  if rc =? MOSQ_ERR_SUCCESS then
    let* m := _mosquitto_mid_generate in
    let* p := mlift (_mosquitto_write_uint16 m p) in
    let* p := mlift (_mosquitto_write_string topic (u16 (slen topic)) p) in
    let* p := mlift (_mosquitto_write_byte topic_qos p) in
    let* rc := _mosquitto_packet_queue p in
    ret (rc, m)
  else ret (rc, 0).

Definition _mosquitto_send_unsubscribe (topic : bytes) : M mosquitto (Z * Z) :=
  let '(rc, p) := _mosquitto_packet_alloc
                    (new_packet (Z.lor UNSUBSCRIBE (Z.shiftl 1 1)) (2 + 2 + slen topic)) in
  if rc =? MOSQ_ERR_SUCCESS then
    let* m := _mosquitto_mid_generate in
    let* p := mlift (_mosquitto_write_uint16 m p) in
    let* p := mlift (_mosquitto_write_string topic (u16 (slen topic)) p) in
    let* rc := _mosquitto_packet_queue p in
    ret (rc, m)
  else ret (rc, 0).
End send.

(** ** What the write loop keeps *)

(** A waiting packet, and the one being written. *)
Definition queued_ok (p : packet) : Prop :=
  ∃ b, payload p = Some b ∧ packet_length p = slen b ∧ to_process p = slen b ∧ pos p = 0.
Definition current_ok (p : packet) : Prop :=
  ∃ b, payload p = Some b ∧ 0 ≤ pos p ∧ 0 ≤ to_process p ∧ pos p + to_process p = slen b.

Definition outq_ok (c : mosquitto) : Prop :=
  Forall queued_ok (out_packet c) ∧
  match current_out_packet c with Some p => current_ok p | None => True end.

(** The bytes still to be written. *)
Definition unsent (p : packet) : bytes := drop (Z.to_nat (pos p)) (default [] (payload p)).
Definition pending (c : mosquitto) : bytes :=
  match current_out_packet c with Some p => unsent p | None => [] end
  ++ concat (unsent <$> out_packet c).

(** The context with other network fields. *)
Definition net_upd (s : bytes) (w : list out_event) (cur : option packet)
    (out : list packet) (t : Z) (c : mosquitto) : mosquitto :=
  set_sent (λ _, s) (set_wr (λ _, w) (set_current_out (λ _, cur)
    (set_out_packet (λ _, out) (set_next_msg_out (λ _, t) c)))).

(** [c'] differs from [c] in network fields only. *)
Definition net_only (c c' : mosquitto) : Prop :=
  ∃ s w cur out t, c' = net_upd s w cur out t c.

(** What writing does: the bytes sent and those pending are, together, the
    same sequence. *)
Definition net_step (c c' : mosquitto) : Prop :=
  net_only c c' ∧ outq_ok c' ∧ sent c' ++ pending c' = sent c ++ pending c.

#[export] Instance net_only_preorder : PreOrder net_only.
Proof.
  split.
  - intros c. exists (sent c), (wr c), (current_out_packet c), (out_packet c), (next_msg_out c).
    by destruct c.
  - intros c1 c2 c3 (? & ? & ? & ? & ? & ->) (s & w & cur & out & t & ->).
    by exists s, w, cur, out, t.
Qed.

#[export] Instance net_step_trans : Transitive net_step.
Proof.
  intros c1 c2 c3 (? & ? & E1) (? & ? & E2). split; [by etrans|]. split; [done|congruence].
Qed.

Lemma net_step_refl c : outq_ok c → net_step c c.
Proof. intros H. split_and!; done. Qed.

Lemma queued_current p : queued_ok p → current_ok p.
Proof.
  intros (b & H1 & H2 & H3 & H4). exists b. unfold slen in *. split_and!; try done; lia.
Qed.

Lemma unsent_done p : current_ok p → to_process p = 0 → unsent p = [].
Proof.
  intros (b & H1 & H2 & H3 & H4) H0. unfold unsent. rewrite H1. cbn.
  apply drop_ge. unfold slen in *. lia.
Qed.

(** One [write]: a prefix of the buffer goes out. *)
Lemma net_write_spec buf c :
  wp (_mosquitto_net_write buf) (λ r c',
    (∃ w, c' = set_sent (λ s, s ++ match r with inl k => take k buf | inr _ => [] end)
                 (set_wr (λ _, w) c) ∧ (wr c = [] → w = [] ∧ r = inl (length buf))) ∧
    match r with inl k => (k ≤ length buf)%nat | inr _ => True end) c.
Proof.
  unfold wp, _mosquitto_net_write. destruct (wr c) as [|[n|e] w] eqn:E.
  - split; [|lia]. exists []. rewrite firstn_all. split; [|done]. destruct c.
    cbn in E. by subst.
  - split; [|lia]. by exists w.
  - split; [|done]. exists w. split; [|done].
    destruct c. unfold set_sent. cbn. by rewrite app_nil_r.
Qed.

Lemma current_slice p :
  current_ok p → payload_slice p (to_process p) = Some (unsent p) ∧
    length (unsent p) = Z.to_nat (to_process p).
Proof.
  intros (b & H1 & H2 & H3 & H4). unfold payload_slice, unsent, slen in *. rewrite H1. cbn.
  rewrite length_drop. split; [|lia]. destruct (Z.eqb_spec (to_process p) 0).
  - rewrite drop_ge by lia. done.
  - rewrite (proj2 (Z.ltb_ge _ _)) by lia. f_equal. apply take_ge. rewrite length_drop. lia.
Qed.

Lemma current_progress p k :
  current_ok p → (k ≤ length (unsent p))%nat →
  current_ok (set_progress k p) ∧ unsent (set_progress k p) = drop k (unsent p).
Proof.
  intros Hp Hk. destruct (current_slice p Hp) as [_ Hl].
  destruct Hp as (b & H1 & H2 & H3 & H4). split.
  - exists b. cbn. split_and!; try done; lia.
  - unfold unsent. cbn. rewrite drop_drop. f_equal. lia.
Qed.

Definition rc_write (rc : Z) : Prop :=
  rc = MOSQ_ERR_SUCCESS ∨ rc = MOSQ_ERR_CONN_LOST ∨ rc = MOSQ_ERR_ERRNO.

Lemma write_current_spec n c p :
  outq_ok c → current_out_packet c = Some p → to_process p ≤ Z.of_nat n →
  wp (write_current n) (λ r c',
    net_step c c' ∧ out_packet c' = out_packet c ∧
    (wr c = [] → wr c' = [] ∧ r = None) ∧
    match r with
    | Some rc => rc_write rc
    | None => ∃ p', current_out_packet c' = Some p' ∧ to_process p' = 0
    end) c.
Proof.
  revert c p. induction n as [|n IH]; intros c p Hc Hp Hn; cbn [write_current];
    pose proof Hc as [Hq Hcur]; rewrite Hp in Hcur.
  { wp_steps. eapply wp_lift; [done|].
    rewrite (proj2 (Z.ltb_ge _ _)) by lia. apply wp_ret.
    split; [by apply net_step_refl|]. split; [done|]. split; [done|]. exists p. split; [done|].
    destruct Hcur as (? & _ & _ & ? & _). lia. }
  wp_steps. eapply wp_lift; [done|]. destruct (Z.ltb_spec 0 (to_process p)) as [Hlt|Hge].
  2: { apply wp_ret. split; [by apply net_step_refl|]. split; [done|]. split; [done|].
       exists p. split; [done|]. destruct Hcur as (? & _ & _ & ? & _). lia. }
  destruct (current_slice p Hcur) as [Hsl Hl].
  apply wp_bind. eapply wp_lift; [done|]. apply wp_bind.
  eapply wp_mono; [apply net_write_spec|]. intros r c1 [(w & -> & Hw) Hr].
  assert (Hstop : ∀ rc, rc_write rc → (wr c = [] → False) →
    let c1 := set_sent (λ s, s ++ []) (set_wr (λ _, w) c) in
    net_step c c1 ∧ out_packet c1 = out_packet c ∧
    (wr c = [] → wr c1 = [] ∧ Some rc = None) ∧ rc_write rc).
  { intros rc Hrc Hne. split; [|by split_and!]. split.
    - exists (sent c ++ []), w, (current_out_packet c), (out_packet c), (next_msg_out c).
      by destruct c.
    - split; [done|]. cbn [sent set_sent set_wr]. by rewrite app_nil_r. }
  unfold rc_write in Hstop.
  destruct r as [[|k]|[]]; try (apply wp_ret, Hstop; [auto|]; intros H0;
    destruct (Hw H0); simplify_eq; lia).
  apply wp_bind, wp_modify.
  destruct (current_progress p (S k) Hcur Hr) as [Hcur' Hun].
  eapply wp_mono.
  - apply (IH _ (set_progress (S k) p)); [|done|cbn; lia]. split; [done|]. exact Hcur'.
  - intros r c' (Hs & Ho & Hwr & Hres).
    split; [|split; [done|split; [intros H0; apply Hwr, (Hw H0)|done]]].
    etrans; [|exact Hs]. split.
    + exists (sent c ++ take (S k) (unsent p)), w, (Some (set_progress (S k) p)),
        (out_packet c), (next_msg_out c). by destruct c.
    + split; [by split|]. unfold pending.
      cbn [current_out_packet set_current_out out_packet set_sent set_wr sent].
      rewrite Hun, Hp, <-(assoc_L (++)), (assoc_L (++) (take _ _)). by rewrite take_drop.
Qed.

(** Taking the next packet when the current one is done, or there is none. *)
Lemma next_packet_step c t :
  outq_ok c →
  match current_out_packet c with Some p => to_process p = 0 | None => True end →
  net_step c (set_next_msg_out (λ _, t) (next_packet c)).
Proof.
  intros [Hq Hcur] Hdone. split; [|split].
  - exists (sent c), (wr c), (head (out_packet c)), (tail (out_packet c)), t.
    by destruct c.
  - unfold next_packet. split; cbn.
    + destruct (out_packet c); [done|]. by apply Forall_cons in Hq as [_ ?].
    + destruct (out_packet c) as [|q out]; cbn; [done|].
      apply Forall_cons in Hq as [? _]. by apply queued_current.
  - unfold pending, next_packet. cbn. f_equal.
    assert (match current_out_packet c with Some p => unsent p | None => [] end = []) as ->.
    { destruct (current_out_packet c); [by apply unsent_done|done]. }
    by destruct (out_packet c).
Qed.

Lemma write_loop_spec E n c :
  outq_ok c → (length (out_packet c) < n)%nat →
  wp (write_loop E n) (λ rc c', net_step c c' ∧ rc_write rc ∧
    (wr c = [] → wr c' = [] ∧ rc = MOSQ_ERR_SUCCESS)) c.
Proof.
  revert c. induction n as [|n IH]; intros c Hc Hn; [lia|].
  cbn [write_loop]. apply wp_bind, wp_get. pose proof Hc as [Hq Hcur].
  destruct (current_out_packet c) as [p|] eqn:Hp.
  2: { apply wp_ret. split; [by apply net_step_refl|]. split; [by left|done]. }
  apply wp_bind. eapply wp_mono.
  { apply (write_current_spec _ c p); [done|done|].
    destruct Hcur as (? & _ & _ & ? & _). lia. }
  intros r c1 (H1 & Ho & Hw1 & Hr). destruct r as [rc|].
  { apply wp_ret. split; [done|]. split; [done|]. intros H0. by destruct (Hw1 H0). }
  destruct Hr as (p' & Hp' & H0). apply wp_bind, wp_modify.
  assert (H2 : net_step c1 (set_next_msg_out (λ _, now E + keepalive c1) (next_packet c1))).
  { apply next_packet_step; [apply H1|]. by rewrite Hp'. }
  (* an empty queue leaves no current packet, and the next round stops *)
  destruct (out_packet c1) as [|q out] eqn:Hout.
  - destruct n as [|n]; cbn [write_loop]; apply wp_bind, wp_get;
      (assert (current_out_packet (set_next_msg_out (λ _, now E + keepalive c1) (next_packet c1)) = None)
        as -> by (cbn; by rewrite Hout)); apply wp_ret; (split; [by etrans|]; split; [by left|]);
      intros Hwr; by destruct (Hw1 Hwr).
  - eapply wp_mono.
    + apply IH; [apply H2|]. cbn. rewrite Hout. cbn. rewrite <-Ho in Hn. cbn in Hn. lia.
    + intros rc c' (H3 & ? & Hw3). split; [etrans; [exact H1|]; by etrans|]. split; [done|].
      intros Hwr. apply Hw3. by destruct (Hw1 Hwr).
Qed.

Lemma packet_write_spec E c :
  outq_ok c →
  wp (_mosquitto_packet_write E) (λ rc c', net_step c c' ∧
    (rc_write rc ∨ rc = MOSQ_ERR_NO_CONN ∧ sock c = None) ∧
    (wr c = [] → wr c' = [] ∧ (is_Some (sock c) → rc = MOSQ_ERR_SUCCESS))) c.
Proof.
  intros Hc. unfold _mosquitto_packet_write. apply wp_bind, wp_get.
  destruct (sock c) eqn:Hs.
  2: { apply wp_ret. split; [by apply net_step_refl|]. split; [by right|].
       intros H0. split; [done|by intros [? ?]]. }
  apply wp_bind, wp_modify.
  set (c1 := match current_out_packet c with Some _ => c | None =>
             match out_packet c with [] => c | _ :: _ => next_packet c end end).
  assert (Hw1 : wr c1 = wr c) by (subst c1; by repeat case_match).
  assert (H1 : net_step c c1).
  { clear Hw1. subst c1. destruct (current_out_packet c) eqn:Hp; [by apply net_step_refl|].
    destruct (out_packet c) eqn:Ho; [by apply net_step_refl|].
    replace (next_packet c) with (set_next_msg_out (λ _, next_msg_out c) (next_packet c))
      by (by destruct c).
    apply next_packet_step; [done|]. by rewrite Hp. }
  case_decide.
  { apply wp_ret. split; [done|]. split; [left; by left|]. intros Hwr. by rewrite Hw1. }
  apply wp_bind, wp_get. eapply wp_mono; [apply write_loop_spec; [apply H1|lia]|].
  intros rc c' (H2 & ? & Hw2). split; [by etrans|]. split; [by left|]. intros Hwr.
  rewrite <-Hw1 in Hwr. destruct (Hw2 Hwr) as [? ->]. done.
Qed.

(** Queueing adds the packet's bytes at the end. *)
Lemma packet_queue_spec E p b c :
  outq_ok c → payload p = Some b → packet_length p = slen b →
  wp (_mosquitto_packet_queue E p) (λ rc c', net_only c c' ∧ outq_ok c' ∧
    sent c' ++ pending c' = sent c ++ pending c ++ b ∧
    (rc_write rc ∨ rc = MOSQ_ERR_NO_CONN ∧ sock c = None) ∧
    (wr c = [] → wr c' = [] ∧ (is_Some (sock c) → rc = MOSQ_ERR_SUCCESS))) c.
Proof.
  intros [Hq Hcur] Hb Hl. unfold _mosquitto_packet_queue. apply wp_bind, wp_modify.
  eapply wp_mono; [apply packet_write_spec|].
  - split; [|done]. cbn. apply Forall_app. split; [done|]. apply Forall_singleton.
    exists b. by split_and!.
  - intros rc c' ((Hn & Ho & Hs) & Hrc & Hw). split; [|split; [done|split; [|by split]]].
    + etrans; [|exact Hn]. exists (sent c), (wr c), (current_out_packet c), (out_packet c ++
        [Packet (payload p) (remaining_mult p) (remaining_length p) (packet_length p)
           (packet_length p) 0 (pmid p) (command p) (remaining_count p)]), (next_msg_out c).
      by destruct c.
    + rewrite Hs. unfold pending. cbn. rewrite fmap_app, concat_app. cbn.
      rewrite Hb. cbn. by rewrite app_nil_r, !(assoc_L (++)).
Qed.

(** ** What each function puts on the wire *)

(** [m] appends [bs] to the outgoing stream, and changes nothing else. *)
Definition emits (m : M mosquitto Z) (bs : bytes) : Prop :=
  ∀ c, outq_ok c → wp m (λ rc c', net_only c c' ∧ outq_ok c' ∧
    sent c' ++ pending c' = sent c ++ pending c ++ bs ∧
    (rc_write rc ∨ rc = MOSQ_ERR_NO_CONN ∧ sock c = None) ∧
    (wr c = [] → wr c' = [] ∧ (is_Some (sock c) → rc = MOSQ_ERR_SUCCESS))) c.

Lemma emits_lift {A} (o : option A) x k bs :
  o = Some x → emits (k x) bs → emits (let* p := mlift o in k p) bs.
Proof. intros -> H c Hc. by apply H. Qed.

Lemma queue_emits E p w :
  written w 0 p → emits (_mosquitto_packet_queue E p) w.
Proof.
  intros (junk & Hpl & Hj & _ & Hlen & _) c Hc. destruct junk; [|done].
  rewrite app_nil_r in Hpl. rewrite Nat.add_0_r in Hlen. by apply packet_queue_spec.
Qed.

Lemma alloc_emits p k body :
  remaining_length p = slen body → slen body < MAX_BODY →
  (∀ p', written (command p :: remaining_digits 5 (slen body)) (length body) p' →
     emits (k p') (wire (command p) body)) →
  emits (alloc_then p k) (wire (command p) body).
Proof.
  intros Hl Hm Hk. unfold alloc_then.
  destruct (packet_alloc_written p) as (p' & -> & Hw & _).
  { rewrite Hl. unfold slen in *. lia. }
  apply Hk. rewrite Hl in Hw. unfold slen in *. by rewrite Nat2Z.id in Hw.
Qed.

Lemma poke2_emits E w a b p :
  written w 2 p →
  emits (let* p := mlift (poke 0 a p) in let* p := mlift (poke 1 b p) in
         _mosquitto_packet_queue E p) (w ++ [u8 a; u8 b]).
Proof.
  intros (junk & Hpl & Hj & Hpos & Hlen & Hmax).
  destruct junk as [|x [|y [|]]]; try done.
  set (q := set_payload (Some (w ++ [u8 a; y])) p).
  apply (emits_lift _ q).
  { unfold poke. rewrite Hpl. cbn [mbind option_bind]. rewrite Hpos, Z.add_0_r, Nat2Z.id.
    rewrite (proj2 (Nat.ltb_lt _ _)) by (rewrite length_app; simpl; lia).
    by rewrite insert_app_r_alt, Nat.sub_diag by lia. }
  apply (emits_lift _ (set_payload (Some (w ++ [u8 a; u8 b])) p)).
  { unfold poke. cbn [q set_payload payload mbind option_bind pos].
    replace (Z.to_nat (pos p + 1)) with (length w + 1)%nat by lia.
    rewrite (proj2 (Nat.ltb_lt _ _)) by (rewrite length_app; simpl; lia).
    by rewrite insert_app_r. }
  intros c Hc. apply packet_queue_spec; [done|done|].
  cbn. rewrite Hlen. unfold slen. rewrite length_app. done.
Qed.

Lemma u8_u8 x : u8 (u8 x) = u8 x.
Proof. unfold u8. by rewrite Z.mod_mod. Qed.

Lemma send_command_with_mid_emits E cmd m :
  emits (_mosquitto_send_command_with_mid E cmd m false) (wire (u8 cmd) (enc_uint16 m)).
Proof.
  unfold _mosquitto_send_command_with_mid.
  apply (alloc_emits (new_packet cmd 2) _ (enc_uint16 m)); [done|done|].
  intros p Hp. unfold wire. rewrite app_comm_cons.
  replace (enc_uint16 m) with [u8 (MOSQ_MSB m); u8 (MOSQ_LSB m)].
  - by apply poke2_emits.
  - unfold enc_uint16, MOSQ_MSB, MOSQ_LSB. by rewrite !u8_u8.
Qed.

Lemma send_simple_command_emits E cmd :
  emits (_mosquitto_send_simple_command E cmd) (wire (u8 cmd) []).
Proof.
  apply (alloc_emits (new_packet cmd 0) _ []); [done|done|].
  intros p Hp. unfold wire. rewrite app_nil_r. by apply queue_emits.
Qed.

Lemma send_connack_emits E ack result :
  emits (_mosquitto_send_connack E ack result) (wire CONNACK [u8 ack; u8 result]).
Proof.
  apply (alloc_emits (new_packet CONNACK 2) _ [u8 ack; u8 result]); [done|done|].
  intros p Hp. unfold wire. rewrite app_comm_cons. by apply poke2_emits.
Qed.

(** The optional message id, and payload, at the end of a packet. *)
Lemma write_tail_emits E w n (cond : bool) m pl p :
  written w n p → n = ((if cond then 2 else 0) + length pl)%nat →
  emits (let* p := if cond then mlift (_mosquitto_write_uint16 m p) else ret p in
         let* p := if slen pl =? 0 then ret p
                   else mlift (_mosquitto_write_bytes pl (slen pl) p) in
         _mosquitto_packet_queue E p)
    (w ++ (if cond then enc_uint16 m else []) ++ pl).
Proof.
  intros Hw ->. assert (Hp : ∀ w p, written w (length pl) p →
    emits (let* p := if slen pl =? 0 then ret p
                     else mlift (_mosquitto_write_bytes pl (slen pl) p) in
           _mosquitto_packet_queue E p) (w ++ pl)).
  { clear w p Hw. intros w p Hw. destruct (Z.eqb_spec (slen pl) 0) as [H0|H0].
    - destruct pl; [|done]. rewrite app_nil_r. intros c Hc. by apply queue_emits.
    - destruct (write_bytes_written w pl _ p Hw) as (p' & E' & Hw'); [lia|].
      eapply emits_lift; [done|]. rewrite Nat.sub_diag in Hw'. by apply queue_emits. }
  destruct cond.
  - destruct (write_uint16_written w m (length pl) p Hw) as (p' & E' & Hw').
    eapply emits_lift; [done|]. rewrite (assoc_L (++)). by apply Hp.
  - intros c Hc. by apply Hp.
Qed.

Definition publish_body (m : Z) (topic pl : bytes) (q : Z) : bytes :=
  enc_string topic ++ (if 0 <? q then enc_uint16 m else []) ++ pl.

Lemma publish_body_length m topic pl q :
  slen (publish_body m topic pl q) = 2 + slen topic + slen pl + (if 0 <? q then 2 else 0).
Proof.
  unfold slen, publish_body, enc_string. rewrite !length_app. destruct (0 <? q); simpl; lia.
Qed.

Lemma send_real_publish_emits E m topic pl q r d :
  slen topic < 65536 → slen (publish_body m topic pl q) < MAX_BODY →
  emits (_mosquitto_send_real_publish E m topic pl q r d)
    (wire (publish_command q r d) (publish_body m topic pl q)).
Proof.
  intros Ht Hb. assert (0 ≤ slen topic) by (unfold slen; lia).
  unfold _mosquitto_send_real_publish. rewrite <-publish_body_length with (m := m).
  rewrite (u32_small (slen _)) by (unfold slen, MAX_BODY in *; lia).
  set (p0 := Packet None 0 _ 0 0 0 m _ 0).
  apply (alloc_emits p0 _ (publish_body m topic pl q)); [done|done|].
  intros p Hp. rewrite (u16_small (slen topic)) by lia.
  pose proof (publish_body_length m topic pl q) as Hlen. unfold slen in Hlen.
  assert (Hl : length (publish_body m topic pl q) =
    (2 + length topic + ((if (0 <? q)%Z then 2 else 0) + length pl))%nat)
    by (destruct (0 <? q); lia).
  destruct (write_string_written _ topic _ p Hp) as (p1 & E1 & H1); [lia|].
  eapply emits_lift; [exact E1|].
  unfold wire, publish_body. rewrite app_comm_cons, (assoc_L (++) _ (enc_string topic)).
  eapply write_tail_emits; [exact H1|lia].
Qed.

Lemma send_suback_emits E m pl :
  slen pl + 2 < MAX_BODY →
  emits (_mosquitto_send_suback E m pl) (wire SUBACK (enc_uint16 m ++ pl)).
Proof.
  intros Hb. unfold _mosquitto_send_suback.
  assert (Hl : slen (enc_uint16 m ++ pl) = 2 + slen pl)
    by (unfold slen; rewrite length_app; simpl; lia).
  apply (alloc_emits (new_packet SUBACK (2 + slen pl)) _ (enc_uint16 m ++ pl)).
  - unfold new_packet. cbn [remaining_length]. rewrite Hl. apply u32_small. unfold slen, MAX_BODY in *. lia.
  - lia.
  - intros p Hp. unfold wire. rewrite app_comm_cons.
    rewrite length_app in Hp. apply (write_tail_emits E _ _ true m pl p Hp). done.
Qed.

(** A packet too long for the protocol is refused. *)
Lemma send_real_publish_too_long E m topic pl q r d c :
  MAX_BODY ≤ slen (publish_body m topic pl q) < 4294967296 →
  _mosquitto_send_real_publish E m topic pl q r d c = Some (MOSQ_ERR_PAYLOAD_SIZE, c).
Proof.
  intros Hb. unfold _mosquitto_send_real_publish. rewrite <-publish_body_length with (m := m).
  rewrite u32_small by (unfold slen, MAX_BODY in *; lia). unfold alloc_then.
  unfold _mosquitto_packet_alloc. cbn [remaining_length].
  rewrite remaining_digits_5 by done. done.
Qed.

(** *** Sending is safe, whatever the sizes *)

(** [m] is defined and touches network fields only. *)
Definition net_safe (m : M mosquitto Z) : Prop :=
  ∀ c, outq_ok c → wp m (λ rc c', net_only c c' ∧ outq_ok c') c.

Lemma emits_safe m bs : emits m bs → net_safe m.
Proof. intros H c Hc. eapply wp_mono; [by apply H|]. naive_solver. Qed.

Lemma net_safe_ret rc : net_safe (ret rc).
Proof. intros c Hc. by apply wp_ret. Qed.

Lemma net_safe_lift {A} (o : option A) x k :
  o = Some x → net_safe (k x) → net_safe (let* p := mlift o in k p).
Proof. intros -> H c Hc. by apply H. Qed.

Lemma queue_safe E w n p : written w n p → net_safe (_mosquitto_packet_queue E p).
Proof.
  intros (junk & Hpl & Hj & _ & Hlen & _) c Hc.
  eapply wp_mono; [apply (packet_queue_spec E p (w ++ junk)); [done|done|]|naive_solver].
  unfold slen. rewrite length_app. lia.
Qed.

Lemma alloc_safe p k :
  0 ≤ remaining_length p < 4294967296 →
  (∀ p', written (command p :: remaining_digits 5 (remaining_length p))
           (Z.to_nat (remaining_length p)) p' → net_safe (k p')) →
  net_safe (alloc_then p k).
Proof.
  intros Hl Hk. unfold alloc_then. destruct (Z.lt_ge_cases (remaining_length p) MAX_BODY).
  - destruct (packet_alloc_written p) as (p' & -> & Hw & _); [lia|]. by apply Hk.
  - unfold _mosquitto_packet_alloc. rewrite remaining_digits_5 by lia. apply net_safe_ret.
Qed.

Definition SIZE_BOUND : Z := 1073741824.

Lemma send_real_publish_safe E m topic pl q r d :
  slen topic < 2 * SIZE_BOUND → slen pl < SIZE_BOUND →
  net_safe (_mosquitto_send_real_publish E m topic pl q r d).
Proof.
  intros Ht Hp. unfold _mosquitto_send_real_publish, SIZE_BOUND in *.
  set (len := 2 + slen topic + slen pl + (if 0 <? q then 2 else 0)).
  assert (Hlen : 0 ≤ len < 4294967296) by (unfold len, slen in *; destruct (0 <? q); lia).
  apply alloc_safe; cbn [remaining_length]; rewrite u32_small by done; [done|].
  intros p Hw.
  assert (0 ≤ u16 (slen topic) ≤ slen topic).
  { unfold u16, slen. split; [by apply Z.mod_pos_bound|apply Z.mod_le; lia]. }
  set (k := Z.to_nat (u16 (slen topic))).
  destruct (write_string_part _ topic k _ _ Hw) as (p1 & E1 & H1);
    [unfold len, slen in *; destruct (0 <? q); lia|unfold slen in *; lia|].
  apply (net_safe_lift _ p1); [by rewrite <-E1; unfold k; rewrite Z2Nat.id by lia|].
  assert (Hpl : ∀ w n p, written w n p → (length pl ≤ n)%nat →
    net_safe (let* p := if slen pl =? 0 then ret p
                        else mlift (_mosquitto_write_bytes pl (slen pl) p) in
              _mosquitto_packet_queue E p)).
  { clear. intros w n p Hw Hn. destruct (slen pl =? 0).
    - intros c Hc. by eapply queue_safe.
    - destruct (write_bytes_written w pl n p Hw Hn) as (p' & Ep & Hw').
      eapply net_safe_lift; [exact Ep|]. by eapply queue_safe. }
  destruct (0 <? q).
  - set (n := (Z.to_nat len - (2 + k))%nat) in *.
    assert (2 + length pl ≤ n)%nat by (unfold n, len, slen in *; lia).
    destruct n as [|[|n]]; [lia|lia|].
    destruct (write_uint16_written _ m _ _ H1) as (p2 & E2 & H2).
    eapply net_safe_lift; [exact E2|]. eapply Hpl; [exact H2|lia].
  - intros c Hc. eapply Hpl; [exact H1|unfold len, slen in *; lia|done].
Qed.

(** The topics of a bridge are strings of a sensible size. *)
Definition bridge_topics_ok (ts : list bridge_topic) : Prop :=
  Forall (λ t, 0 ∉ local_topic t ∧ slen (default [] (remote_prefix t)) < SIZE_BOUND) ts.

Lemma remap_loop_safe ts topic :
  bridge_topics_ok ts → slen topic < SIZE_BOUND →
  ∃ r, remap_loop ts topic = Some r ∧
    match r with inr t => slen t < 2 * SIZE_BOUND | inl _ => True end.
Proof.
  intros Hts Ht. induction Hts as [|t ts [H0 Hrp] _ IH]; cbn [remap_loop].
  - eexists. split; [done|]. unfold SIZE_BOUND in *. lia.
  - destruct (_ && _); [|done].
    destruct (topic_matches_sub_total (local_topic t) topic H0) as (rc & b & ->).
    cbn [mbind option_bind]. destruct (rc =? MOSQ_ERR_SUCCESS); [|by eexists].
    destruct b; [|done]. eexists. split; [done|]. unfold map_topic, slen in *.
    assert (Hm : Z.of_nat (length (match local_prefix t with
      | Some lp => if has_prefix lp topic then drop (length lp) topic else topic
      | None => topic end)) ≤ Z.of_nat (length topic)).
    { destruct (local_prefix t) as [lp|]; [|done].
      destruct (has_prefix lp topic); rewrite ?length_drop; lia. }
    destruct (remote_prefix t); cbn in *; rewrite ?length_app; unfold SIZE_BOUND in *; lia.
Qed.

Definition bridge_ok (c : mosquitto) : Prop :=
  match c_bridge c with Some b => bridge_topics_ok (topics b) | None => True end.

Lemma send_publish_safe E m topic pl q r d c :
  outq_ok c → bridge_ok c → slen topic < SIZE_BOUND → slen pl < SIZE_BOUND →
  wp (_mosquitto_send_publish E m topic pl q r d) (λ rc c', net_only c c' ∧ outq_ok c') c.
Proof.
  intros Hc Hb Ht Hp. unfold _mosquitto_send_publish. apply wp_bind, wp_get.
  destruct (sock c); [|by apply net_safe_ret].
  set (ot := match mount_point E c with Some mp => _ | None => _ end).
  assert (Hot : match ot with Some t => slen t < SIZE_BOUND | None => True end).
  { subst ot. destruct (mount_point E c) as [mp|]; [|done].
    destruct (length mp <? length topic)%nat; [|done].
    unfold slen in *. rewrite length_drop. lia. }
  destruct ot as [t|]; [|by apply net_safe_ret].
  set (o := match c_bridge c with Some b => _ | None => _ end).
  assert (∃ x, o = Some x ∧ match x with inr t => slen t < 2 * SIZE_BOUND | inl _ => True end)
    as (x & Ho & Hx).
  { subst o. unfold bridge_ok in Hb. destruct (c_bridge c) as [b|]; [case_match|].
    - by apply remap_loop_safe.
    - eexists. split; [done|]. unfold SIZE_BOUND in *. lia.
    - eexists. split; [done|]. unfold SIZE_BOUND in *. lia. }
  apply wp_bind. eapply wp_lift; [exact Ho|]. destruct x as [rc|t'].
  - by apply net_safe_ret.
  - by apply send_real_publish_safe.
Qed.

(** ** Properties *)

(** Queueing one packet after the other, whatever the calls return. *)
Fixpoint queue_all (E : env) (ps : list packet) : M mosquitto unit :=
  match ps with
  | [] => ret tt
  | p :: ps' => _mosquitto_packet_queue E p ;;; queue_all E ps'
  end.

Definition packet_bytes (p : packet) : bytes := default [] (payload p).

Lemma queue_all_spec E ps c :
  outq_ok c → Forall (λ p, ∃ b, payload p = Some b ∧ packet_length p = slen b) ps →
  wp (queue_all E ps) (λ _ c', net_only c c' ∧ outq_ok c' ∧
    sent c' ++ pending c' = sent c ++ pending c ++ concat (packet_bytes <$> ps)) c.
Proof.
  revert c. induction ps as [|p ps IH]; intros c Hc Hps; cbn [queue_all].
  - apply wp_ret. cbn. rewrite app_nil_r. by split_and!.
  - apply Forall_cons in Hps as [(b & Hb & Hl) Hps]. apply wp_bind.
    eapply wp_mono; [by apply (packet_queue_spec E p b)|].
    intros rc c1 (Hn1 & Ho1 & Hs1 & _). eapply wp_mono; [by apply IH|].
    intros _ c2 (Hn2 & Ho2 & Hs2). split; [by etrans|]. split; [done|].
    rewrite Hs2. cbn. unfold packet_bytes at 2. rewrite Hb. cbn.
    rewrite (assoc_L (++)), Hs1. by rewrite <-!(assoc_L (++)).
Qed.

(** C28: packets leave in the order they were queued and unbroken, whatever the
    socket does: however many bytes each [write] accepts, and wherever it
    fails or would block, the bytes that went out, followed by those still
    pending, are those of before followed by the queued packets'. In
    particular what was sent is always a prefix of that sequence. *)
Theorem send_stream_order E ps c :
  outq_ok c → Forall (λ p, ∃ b, payload p = Some b ∧ packet_length p = slen b) ps →
  ∃ c', queue_all E ps c = Some (tt, c') ∧ outq_ok c' ∧
    sent c' ++ pending c' = sent c ++ pending c ++ concat (packet_bytes <$> ps).
Proof.
  intros Hc Hps. destruct (wp_inv _ _ _ (queue_all_spec E ps c Hc Hps))
    as ([] & c' & E' & _ & ? & ?). eauto.
Qed.

Definition idle_context : mosquitto :=
  Mosquitto (Some 5) mosq_p_mqtt311 (Some (str "c1")) None None 60 0 mosq_cs_connected
    0 0 0 (_mosquitto_packet_cleanup packet_zero) None [] None true false false None [] None
    0 0 None None 0 [] [] [] [].

Definition sample_env : env :=
  Env 20 100 true false false true true [] None 0 [] [] 1000 1000.

(** Three packets through a socket that takes three bytes, blocks, takes one
    and fails. *)
Lemma send_stream_order_witness :
  let c := set_wr (λ _, [OutOk 3; OutErr EAGAIN; OutOk 1; OutErr ECONNRESET]) idle_context in
  let ps := [Packet (Some [192; 0]) 0 0 2 0 0 0 192 1; Packet (Some [208; 0]) 0 0 2 0 0 0 208 1;
             Packet (Some [224; 0]) 0 0 2 0 0 0 224 1] in
  ∃ c', queue_all sample_env ps c = Some (tt, c') ∧ outq_ok c' ∧
    sent c' ++ pending c' = [192; 0; 208; 0; 224; 0].
Proof.
  apply (send_stream_order sample_env); [by split|repeat constructor; by eexists].
Defined.

(** *** Message ids *)

Fixpoint mid_generate_n (n : nat) : M mosquitto (list Z) :=
  match n with
  | O => ret []
  | S n' => let* m := _mosquitto_mid_generate in let* l := mid_generate_n n' in ret (m :: l)
  end.

Lemma mid_generate_spec c :
  0 ≤ last_mid c < 65536 →
  _mosquitto_mid_generate c =
    Some (last_mid c `mod` 65535 + 1, set_last_mid (λ _, last_mid c `mod` 65535 + 1) c).
Proof.
  intros Hm. unfold _mosquitto_mid_generate.
  destruct (decide (last_mid c = 65535)) as [->|]; [done|].
  rewrite u16_small by lia. rewrite (proj2 (Z.eqb_neq _ _)) by lia.
  by rewrite Z.mod_small by lia.
Qed.

Lemma mid_generate_n_spec n c :
  0 ≤ last_mid c < 65536 →
  ∃ c', mid_generate_n n c =
    Some ((λ i, (last_mid c + Z.of_nat i) `mod` 65535 + 1) <$> seq 0 n, c').
Proof.
  revert c. induction n as [|n IH]; intros c Hm; [by eexists|].
  cbn [mid_generate_n]. unfold bind at 1. rewrite mid_generate_spec by done.
  pose proof (Z.mod_pos_bound (last_mid c) 65535 ltac:(lia)).
  destruct (IH (set_last_mid (λ _, last_mid c `mod` 65535 + 1) c)) as [c' E]; [cbn; lia|].
  unfold bind. rewrite E. exists c'. unfold ret. cbn [seq fmap list_fmap last_mid set_last_mid].
  rewrite Z.add_0_r. do 3 f_equal. rewrite <-fmap_S_seq, <-list_fmap_compose.
  apply list_fmap_ext. intros i x _. cbn. f_equal.
  rewrite <-Z.add_assoc, Zplus_mod_idemp_l. f_equal. lia.
Qed.

(** Message ids are never 0, fit 16 bits, and the same id comes back only
    after all the other 65534 have been used. *)
Lemma mid_generate_distinct n c :
  0 ≤ last_mid c < 65536 → Z.of_nat n ≤ 65535 →
  ∃ mids c', mid_generate_n n c = Some (mids, c') ∧ length mids = n ∧
    NoDup mids ∧ Forall (λ m, 1 ≤ m ≤ 65535) mids.
Proof.
  intros Hm Hn. destruct (mid_generate_n_spec n c Hm) as [c' E].
  eexists _, _. split; [exact E|]. rewrite length_fmap, length_seq. split; [done|]. split.
  - apply NoDup_fmap_2_strong; [|apply NoDup_seq]. intros i j Hi Hj Heq.
    apply elem_of_seq in Hi, Hj.
    destruct (decide (i = j)) as [|Hne]; [done|exfalso].
    assert (Hd : ((last_mid c + Z.of_nat i) - (last_mid c + Z.of_nat j)) `mod` 65535 = 0)
      by (rewrite Zminus_mod; replace ((last_mid c + Z.of_nat i) `mod` 65535)
            with ((last_mid c + Z.of_nat j) `mod` 65535) by lia;
          by rewrite Z.sub_diag).
    apply Z.mod_divide in Hd; [|done]. destruct Hd as [k Hk].
    assert (k = 0 ∨ 1 ≤ Z.abs k) as [->|] by lia; [lia|nia].
  - apply Forall_forall. intros x (i & -> & _)%list_elem_of_fmap.
    pose proof (Z.mod_pos_bound (last_mid c + Z.of_nat i) 65535 ltac:(lia)). lia.
Qed.
