(* ===== verification/Messages.v ===== *)
(** * Messages in flight (src/database.c)

    The queue of messages each context keeps: insertion with its limits,
    acknowledgement, retry after a reconnection and the write loop that sends
    what is due. *)

From stdpp Require Import base list numbers strings option sets gmap.
From Stdlib Require Import ZArith Lia.
From S2P Require Import Prelude Topic Packet State Store Send.
Local Open Scope Z_scope.
Local Open Scope broker_scope.

(** A context and the message store, the state these operations work on. *)
Record cm := CM { ctx : mosquitto; mdb : msg_db }.

Definition on_ctx {A} (m : M mosquitto A) : M cm A := λ s,
  '(a, c) ← m (ctx s); Some (a, CM c (mdb s)).
Definition on_mdb {A} (m : M msg_db A) : M cm A := λ s,
  '(a, d) ← m (mdb s); Some (a, CM (ctx s) d).
Definition upd_ctx (f : mosquitto → mosquitto) : M cm unit :=
  mmodify (λ s, CM (f (ctx s)) (mdb s)).
Definition upd_msg (i : nat) (f : client_msg → client_msg) : M cm unit :=
  upd_ctx (set_msgs (alter f i)).

(** [switch(qos)] in which no case sets the state for another [qos]. *)
Definition publish_state (q : Z) (s : msg_state) : msg_state :=
  if q =? 0 then mosq_ms_publish_qos0
  else if q =? 1 then mosq_ms_publish_qos1
  else if q =? 2 then mosq_ms_publish_qos2
  else s.

Section messages.
Context (E : env).

(** ** [_message_remove] *)

Definition promote (m : client_msg) : client_msg :=
  match direction m with
  | mosq_md_out => set_state (publish_state (qos m) (state m)) m
  | mosq_md_in => if qos m =? 2 then set_state mosq_ms_send_pubrec m else m
  end.

(** [while(tail && tail->state == mosq_ms_queued && i<max_inflight)], in which
    [i] stays 0. *)
Fixpoint promote_queued (l : list client_msg) : list client_msg :=
  match l with
  | m :: l' =>
      if bool_decide (state m = mosq_ms_queued) && (0 <? max_inflight E)
      then promote m :: promote_queued l' else l
  | [] => []
  end.

(** Takes the message at index [i] out; the caller's [last] is the message
    before it, and its pointer ends on the one that followed, which is then
    at index [i]. *)
Definition _message_remove (i : nat) : M cm unit :=
  let* s := mget in
  match msgs (ctx s) !! i with
  | None => ret tt
  | Some m =>
      on_mdb (mosquitto__db_msg_store_deref (cm_store m)) ;;;
      let l := delete i (msgs (ctx s)) in
      upd_ctx (λ c,
        set_last_msg (λ lm,
          match i with
          | O => if bool_decide (l = []) then None else lm
          | S j => if bool_decide (drop i l = []) then cm_ptr <$> l !! j else lm
          end) (set_msgs (λ _, l) c)) ;;;
      upd_ctx (set_msg_count (λ n, n - 1)) ;;;
      (if 0 <? qos m then upd_ctx (set_msg_count12 (λ n, n - 1)) else ret tt) ;;;
      upd_ctx (set_msgs promote_queued)
  end.

(** ** [mqtt3_db_message_delete] *)

(** A queued message within the first [max_inflight] is made ready. *)
Definition make_ready (m : client_msg) : client_msg :=
  let m := set_timestamp (now E) m in
  match direction m with
  | mosq_md_out => set_state (publish_state (qos m) (state m)) m
  | mosq_md_in => if qos m =? 2 then set_state mosq_ms_wait_for_pubrel m else m
  end.

(** [tail] is at index [i]; each round removes a message or advances. *)
Fixpoint delete_loop (n : nat) (dmid : Z) (dir : msg_direction) (i : nat) (msg_index : Z)
    (deleted : bool) : M cm Z :=
  let* s := mget in
  match msgs (ctx s) !! i with
  | None => ret MOSQ_ERR_SUCCESS
  | Some m =>
      match n with
      | O => undefined
      | S n' =>
          let msg_index := msg_index + 1 in
          (if bool_decide (state m = mosq_ms_queued) && (msg_index <=? max_inflight E)
           then upd_msg i make_ready else ret tt) ;;;
          if (mid m =? dmid) && bool_decide (direction m = dir) then
            let msg_index := msg_index - 1 in
            _message_remove i ;;;
            if max_inflight E <? msg_index then ret MOSQ_ERR_SUCCESS
            else delete_loop n' dmid dir i msg_index true
          else
            if (max_inflight E <? msg_index) && deleted then ret MOSQ_ERR_SUCCESS
            else delete_loop n' dmid dir (S i) msg_index deleted
      end
  end.

Definition mqtt3_db_message_delete (dmid : Z) (dir : msg_direction) : M cm Z :=
  let* s := mget in
  delete_loop (length (msgs (ctx s))) dmid dir 0 0 false.

(** ** [mqtt3_db_message_insert] *)

(** [context->last_msg->next = msg], or the first message of an empty list. *)
Definition append_msg (m : client_msg) (c : mosquitto) : option mosquitto :=
  match last_msg c with
  | Some p =>
      '(i, _) ← list_find (λ x, cm_ptr x = p) (msgs c);
      Some (set_last_msg (λ _, Some (cm_ptr m)) (set_msgs (λ l, take (S i) l ++ [m]) c))
  | None => Some (set_last_msg (λ _, Some (cm_ptr m)) (set_msgs (λ _, [m]) c))
  end.

(** The state a new message gets, and the code returned; [inl]: not
    inserted. The boolean says that messages are being dropped. *)
Definition insert_state (c : mosquitto) (dir : msg_direction) (q : Z)
    : (Z * bool) + (msg_state * Z) :=
  match sock c with
  | Some _ =>
      if (q =? 0) || (max_inflight E =? 0) || (msg_count12 c <? max_inflight E) then
        match dir with
        | mosq_md_out => inr (publish_state q mosq_ms_invalid, 0)
        | mosq_md_in => if q =? 2 then inr (mosq_ms_wait_for_pubrel, 0) else inl (1, false)
        end
      else if (max_queued E =? 0) || (msg_count12 c - max_inflight E <? max_queued E)
      then inr (mosq_ms_queued, 2)
      else inl (2, true)
  | None =>
      if (q =? 0) && negb (queue_qos0_messages E)
         && match c_bridge c with
            | None => true
            | Some b => negb (bool_decide (start_type b = bst_lazy))
            end
      then inl (2, false)
      else if (0 <? max_queued E) && (max_queued E <=? msg_count12 c)
      then inl (2, true)
      else inr (mosq_ms_queued, 0)
  end.

(** The new list element. *)
Definition link_msg (imid : Z) (dir : msg_direction) (q : Z) (r : bool) (stored : ptr)
    (mstate : msg_state) : M cm unit :=
  (if bool_decide (mstate = mosq_ms_queued)
   then on_mdb (mmodify (λ d, set_persistence_changes (persistence_changes d + 1) d))
   else ret tt) ;;;
  let* p := on_mdb (λ d, Some (fresh_ptr d)) in
  on_mdb (λ d, d ← store_ref stored d; Some (tt, d)) ;;;
  on_ctx (λ c, c ← append_msg (ClientMsg p stored (now E) imid q r dir mstate false) c;
               Some (tt, c)) ;;;
  upd_ctx (set_msg_count (λ n, n + 1)) ;;;
  (if 0 <? q then upd_ctx (set_msg_count12 (λ n, n + 1)) else ret tt).

(** Which clients the message went to, to avoid duplicates. *)
Definition record_dest (cid : bytes) (dir : msg_direction) (r : bool) (stored : ptr) : M cm unit :=
  if negb (allow_duplicate_messages E) && bool_decide (dir = mosq_md_out) && negb r
  then on_mdb (λ d, d ← upd_store stored (set_dest_ids (λ l, l ++ [cid])) d; Some (tt, d))
  else ret tt.

(** A lazy bridge connects once enough messages wait. *)
Definition lazy_bridge : M cm unit :=
  let* s := mget in
  match c_bridge (ctx s) with
  | Some b =>
      if bool_decide (start_type b = bst_lazy) && bool_decide (sock (ctx s) = None)
         && (threshold b <=? msg_count (ctx s))
      then upd_ctx (set_bridge (λ _, Some (set_lazy_reconnect (λ _, true) b)))
      else ret tt
  | None => ret tt
  end.

Definition mqtt3_db_message_insert (imid : Z) (dir : msg_direction) (q : Z) (r : bool)
    (stored : ptr) : M cm Z :=
  let* s := mget in
  match id (ctx s) with
  | None => ret MOSQ_ERR_SUCCESS
  | Some cid =>
      let* st := mlift (deref_store stored (mdb s)) in
      if negb (allow_duplicate_messages E) && bool_decide (dir = mosq_md_out) && negb r
         && bool_decide (cid ∈ dest_ids st)
      then ret MOSQ_ERR_SUCCESS
      else
        match insert_state (ctx s) dir q with
        | inl (rc, dropping) =>
            (if dropping then upd_ctx (set_is_dropping (λ _, true)) else ret tt) ;;; ret rc
        | inr (mstate, rc) =>
            massert (negb (bool_decide (mstate = mosq_ms_invalid))) ;;;
            link_msg imid dir q r stored mstate ;;;
            record_dest cid dir r stored ;;;
            lazy_bridge ;;;
            ret rc
        end
  end.

(** ** [mqtt3_db_message_update], [mqtt3_db_messages_delete],
    [mqtt3_db_message_store_find] *)

Definition mqtt3_db_message_update (umid : Z) (dir : msg_direction) (st : msg_state) : M cm Z :=
  let* s := mget in
  match list_find (λ m, mid m = umid ∧ direction m = dir) (msgs (ctx s)) with
  | Some (i, _) =>
      upd_msg i (λ m, set_timestamp (now E) (set_state st m)) ;;; ret MOSQ_ERR_SUCCESS
  | None => ret MOSQ_ERR_NOT_FOUND
  end.

Fixpoint deref_msgs (l : list client_msg) : M msg_db unit :=
  match l with
  | [] => ret tt
  | m :: l' => mosquitto__db_msg_store_deref (cm_store m) ;;; deref_msgs l'
  end.

Definition mqtt3_db_messages_delete : M cm Z :=
  let* s := mget in
  on_mdb (deref_msgs (msgs (ctx s))) ;;;
  upd_ctx (λ c, set_msg_count12 (λ _, 0) (set_msg_count (λ _, 0)
                  (set_last_msg (λ _, None) (set_msgs (λ _, []) c)))) ;;;
  ret MOSQ_ERR_SUCCESS.

(** The return code and the message found. *)
Fixpoint store_find_loop (l : list client_msg) (smid : Z) (d : msg_db) : option (Z * option ptr) :=
  match l with
  | [] => Some (1, None)
  | m :: l' =>
      st ← deref_store (cm_store m) d;
      if (source_mid st =? smid) && bool_decide (direction m = mosq_md_in)
      then Some (MOSQ_ERR_SUCCESS, Some (cm_store m))
      else store_find_loop l' smid d
  end.
Definition mqtt3_db_message_store_find (smid : Z) : M cm (Z * option ptr) :=
  let* s := mget in mlift (store_find_loop (msgs (ctx s)) smid (mdb s)).

(** ** [mqtt3_db_message_reconnect_reset] *)

(** An outgoing message is sent again from the start, or from its PUBREL. *)
Definition reset_out (m : client_msg) : client_msg :=
  if bool_decide (state m = mosq_ms_queued) then m
  else if (qos m =? 2) && bool_decide (state m = mosq_ms_wait_for_pubcomp)
  then set_state mosq_ms_resend_pubrel m
  else set_state (publish_state (qos m) (state m)) m.

(** The first loop, at index [i]. After a removal the message that took the
    removed one's place is passed over. *)
Fixpoint reset_loop (n : nat) (i : nat) : M cm unit :=
  let* s := mget in
  match msgs (ctx s) !! i with
  | None => ret tt
  | Some m =>
      match n with
      | O => undefined
      | S n' =>
          upd_ctx (λ c, set_msg_count (λ n, n + 1) (set_last_msg (λ _, Some (cm_ptr m)) c)) ;;;
          (if 0 <? qos m then upd_ctx (set_msg_count12 (λ n, n + 1)) else ret tt) ;;;
          (match direction m with
           | mosq_md_out => upd_msg i reset_out
           | mosq_md_in => if qos m =? 2 then ret tt else _message_remove i
           end) ;;;
          reset_loop n' (S i)
      end
  end.

(** The second loop: the first [count] messages are put in a publish state if
    they were queued. *)
Definition unqueue (m : client_msg) : client_msg :=
  if bool_decide (state m = mosq_ms_queued) then set_state (publish_state (qos m) (state m)) m else m.

Definition unqueue_first (l : list client_msg) : list client_msg :=
  if max_inflight E =? 0 then unqueue <$> l
  else (unqueue <$> take (Z.to_nat (max_inflight E)) l) ++ drop (Z.to_nat (max_inflight E)) l.

Definition mqtt3_db_message_reconnect_reset : M cm Z :=
  upd_ctx (λ c, set_msg_count12 (λ _, 0) (set_msg_count (λ _, 0) c)) ;;;
  let* s := mget in
  reset_loop (length (msgs (ctx s))) 0 ;;;
  upd_ctx (set_msgs unqueue_first) ;;;
  ret MOSQ_ERR_SUCCESS.

(** ** [mqtt3_db_message_timeout_check], for one context *)

Definition timeout_state (s : msg_state) : msg_state :=
  match s with
  | mosq_ms_wait_for_puback => mosq_ms_publish_qos1
  | mosq_ms_wait_for_pubrec => mosq_ms_publish_qos2
  | mosq_ms_wait_for_pubrel => mosq_ms_send_pubrec
  | mosq_ms_wait_for_pubcomp => mosq_ms_resend_pubrel
  | _ => mosq_ms_invalid
  end.

Definition timeout_msg (timeout : Z) (m : client_msg) : client_msg :=
  if (timestamp m <? now E - timeout) && negb (bool_decide (state m = mosq_ms_queued))
     && negb (bool_decide (timeout_state (state m) = mosq_ms_invalid))
  then set_dup true (set_state (timeout_state (state m)) (set_timestamp (now E) m))
  else m.

Definition timeout_context (timeout : Z) : M cm unit :=
  upd_ctx (set_msgs (fmap (timeout_msg timeout))).

(** ** [mqtt3_db_message_write] *)

(** What the [switch] does once its packet is queued. *)
Definition sent_state (s : msg_state) : msg_state :=
  match s with
  | mosq_ms_publish_qos1 => mosq_ms_wait_for_puback
  | mosq_ms_publish_qos2 => mosq_ms_wait_for_pubrec
  | mosq_ms_send_pubrec => mosq_ms_wait_for_pubrel
  | mosq_ms_resend_pubrel => mosq_ms_wait_for_pubcomp
  | mosq_ms_resend_pubcomp => mosq_ms_wait_for_pubrel
  | s => s
  end.

(** The packet that is due for a message in its state; [None]: none is. *)
Definition due_packet (m : client_msg) (st : msg_store) : option (M mosquitto Z) :=
  match state m with
  | mosq_ms_publish_qos0 | mosq_ms_publish_qos1 | mosq_ms_publish_qos2 =>
      Some (let* t := mlift (ms_topic st) in
            _mosquitto_send_publish E (mid m) t (ms_payload st) (qos m) (retain m) (dup m))
  | mosq_ms_send_pubrec => Some (_mosquitto_send_pubrec E (mid m))
  | mosq_ms_resend_pubrel => Some (_mosquitto_send_pubrel E (mid m))
  | mosq_ms_resend_pubcomp => Some (_mosquitto_send_pubcomp E (mid m))
  | _ => None
  end.

(** A publication is also marked as a duplicate, should it be retried. *)
Definition mark_sent (m : client_msg) : client_msg :=
  match state m with
  | mosq_ms_publish_qos1 | mosq_ms_publish_qos2 =>
      set_state (sent_state (state m)) (set_dup true (set_timestamp (now E) m))
  | _ => set_state (sent_state (state m)) m
  end.

Fixpoint write_msgs (n : nat) (i : nat) (count : Z) : M cm Z :=
  let* s := mget in
  match msgs (ctx s) !! i with
  | None => ret MOSQ_ERR_SUCCESS
  | Some m =>
      match n with
      | O => undefined
      | S n' =>
          let count := if bool_decide (direction m = mosq_md_in) then count + 1 else count in
          if bool_decide (state m = mosq_ms_queued) then
            if bool_decide (direction m = mosq_md_in)
               && ((max_inflight E =? 0) || (count <? max_inflight E)) then
              (if qos m =? 2 then upd_msg i (set_state mosq_ms_send_pubrec) else ret tt) ;;;
              write_msgs n' i count
            else write_msgs n' (S i) count
          else
            let* st := mlift (deref_store (cm_store m) (mdb s)) in
            match due_packet m st with
            | None => write_msgs n' (S i) count
            | Some send =>
                let* rc := on_ctx send in
                if rc =? MOSQ_ERR_SUCCESS then
                  if bool_decide (state m = mosq_ms_publish_qos0)
                  then _message_remove i ;;; write_msgs n' i count
                  else upd_msg i mark_sent ;;; write_msgs n' (S i) count
                else ret rc
            end
      end
  end.

Definition mqtt3_db_message_write : M cm Z :=
  let* s := mget in
  match sock (ctx s) with
  | None => ret MOSQ_ERR_INVAL
  | Some _ =>
      if decide (cstate (ctx s) = mosq_cs_connected) then
        match id (ctx s) with
        | None => ret MOSQ_ERR_INVAL
        | Some _ => write_msgs (S (2 * length (msgs (ctx s)))) 0 0
        end
      else ret MOSQ_ERR_SUCCESS
  end.
End messages.

(** ** The invariant *)

(** What never changes in a stored message while it lives. *)
Definition content (m : msg_store) :=
  (db_id m, source_id m, ms_topic m, ms_payload m, source_mid m, ms_mid m, ms_qos m, ms_retain m).
Definition content_at (d : msg_db) (s : ptr) := content <$> heap d !! s.

(** A stored message that can be sent: it has a topic, and its sizes and QoS are
    those of a message that came in a packet. *)
Definition sendable (d : msg_db) (s : ptr) : Prop :=
  ∃ st t, heap d !! s = Some st ∧ ms_topic st = Some t ∧
    slen t < SIZE_BOUND ∧ slen (ms_payload st) < SIZE_BOUND ∧ 0 ≤ ms_qos st ≤ 2.

(** A stored message that a client may release: unless it was refused, it has
    a topic that was checked, and can be sent. *)
Definition publishable (d : msg_db) (s : ptr) : Prop :=
  ∃ st, heap d !! s = Some st ∧
    ∀ t, ms_topic st = Some t → 0 ∉ t ∧ wildcard_free t ∧ sendable d s.

(** The messages referenced from [refs] are the same in [d] and [d']. *)
Definition keeps (refs : list ptr) (d d' : msg_db) : Prop :=
  ∀ s, s ∈ refs → content_at d' s = content_at d s.

(** The states of the publishing side of a delivery. *)
Definition outgoing (s : msg_state) : bool :=
  match s with
  | mosq_ms_publish_qos0 | mosq_ms_publish_qos1 | mosq_ms_publish_qos2
  | mosq_ms_wait_for_puback | mosq_ms_wait_for_pubrec => true
  | _ => false
  end.

(** What a message in flight refers to. *)
Definition carries (d : msg_db) (dir : msg_direction) (s : ptr) : Prop :=
  match dir with mosq_md_out => sendable d s | mosq_md_in => publishable d s end.

(** A message in flight: its QoS is valid, an incoming one has QoS 2, and only
    an outgoing one, which can be sent, is published. *)
Definition msg_ok (d : msg_db) (m : client_msg) : Prop :=
  0 ≤ qos m ≤ 2 ∧
  (direction m = mosq_md_in → qos m = 2) ∧
  carries d (direction m) (cm_store m) ∧
  (outgoing (state m) = true → direction m = mosq_md_out).

Definition count12 (l : list client_msg) : Z := Z.of_nat (length (filter (λ m, 0 < qos m) l)).

(** The list's last pointer and counters. *)
Record queue_ok (c : mosquitto) : Prop := {
  q_last : last_msg c = cm_ptr <$> last (msgs c);
  q_nodup : NoDup (cm_ptr <$> msgs c);
  q_count : msg_count c = Z.of_nat (length (msgs c));
  q_count12 : msg_count12 c = count12 (msgs c);
}.

(** The context and the store are consistent; [others] are the references to
    stored messages from elsewhere. *)
Record cm_ok (others : list ptr) (s : cm) : Prop := {
  ok_queue : queue_ok (ctx s);
  ok_msgs : Forall (msg_ok (mdb s)) (msgs (ctx s));
  ok_store : store_ok ((cm_store <$> msgs (ctx s)) ++ others) (mdb s);
  ok_fresh : Forall (λ m, cm_ptr m < next_ptr (mdb s))%positive (msgs (ctx s));
  ok_out : outq_ok (ctx s);
  ok_bridge : bridge_ok (ctx s);
}.

(** The fields of a context that the operations on messages leave alone. *)
Definition ident (c : mosquitto) :=
  (sock c, protocol c, id c, username c, password c, keepalive c, last_mid c, cstate c,
   (will c, clean_session c, is_bridge c, acl_list c, listener c, disconnect_t c, subs c, rd c,
    c_in_packet c, topics <$> c_bridge c)).

(** A step of the context that keeps everything consistent. *)
Record step_ok (others : list ptr) (s s' : cm) : Prop := {
  step_inv : cm_ok others s';
  step_ident : ident (ctx s') = ident (ctx s);
  step_keeps : keeps others (mdb s) (mdb s');
  step_ptr : (next_ptr (mdb s) ≤ next_ptr (mdb s'))%positive;
}.

Lemma step_refl others s : cm_ok others s → step_ok others s s.
Proof. by split. Qed.

#[export] Instance step_ok_trans others : Transitive (step_ok others).
Proof.
  intros s1 s2 s3 [? I1 K1 P1] [? I2 K2 P2]. split; [done|congruence| |lia].
  intros s Hs. rewrite (K2 s Hs). by apply K1.
Qed.

Lemma keeps_sendable refs d d' s : keeps refs d d' → s ∈ refs → sendable d s → sendable d' s.
Proof.
  intros Hk Hs (st & t & E & ?). specialize (Hk s Hs). unfold content_at, content in *.
  rewrite E in Hk. destruct (heap d' !! s) as [st'|] eqn:E'; [|done]. cbn in Hk. injection Hk.
  intros ? Hq ? ? Hpl Ht ? ?. exists st', t. by rewrite E', Ht, Hpl, Hq.
Qed.

Lemma sendable_live d s : sendable d s → is_Some (heap d !! s).
Proof. intros (st & _ & ? & _). by eexists. Qed.

Lemma keeps_publishable refs d d' s : keeps refs d d' → s ∈ refs → publishable d s → publishable d' s.
Proof.
  intros Hk Hs (st & E & Ht). pose proof (Hk s Hs) as Hc. unfold content_at, content in Hc.
  rewrite E in Hc. destruct (heap d' !! s) as [st'|] eqn:E'; [|done]. cbn in Hc. injection Hc.
  intros _ _ _ _ _ Htop _ _. exists st'. split; [done|]. intros t. rewrite Htop. intros H.
  destruct (Ht t H) as (? & ? & ?). split_and!; [done..|]. by eapply keeps_sendable.
Qed.

Lemma keeps_carries refs d d' dir s : keeps refs d d' → s ∈ refs → carries d dir s → carries d' dir s.
Proof. destruct dir; [apply keeps_publishable|apply keeps_sendable]. Qed.

Lemma msg_ok_keeps refs d d' m :
  keeps refs d d' → cm_store m ∈ refs → msg_ok d m → msg_ok d' m.
Proof.
  intros Hk Hs (? & ? & Ht & ?). split_and!; try done; try lia.
  by eapply keeps_carries.
Qed.

Lemma Forall_msg_ok_keeps refs d d' l :
  keeps refs d d' → (cm_store <$> l) ⊆ refs → Forall (msg_ok d) l → Forall (msg_ok d') l.
Proof.
  intros Hk Hsub. rewrite !Forall_forall. intros H m Hm.
  eapply msg_ok_keeps; [done| |by apply H]. apply Hsub. by apply list_elem_of_fmap_2.
Qed.

(** *** Changing the state of messages *)

(** [m'] is [m] in another state. *)
Definition restated (m m' : client_msg) : Prop :=
  cm_ptr m' = cm_ptr m ∧ cm_store m' = cm_store m ∧ mid m' = mid m ∧ qos m' = qos m ∧
  retain m' = retain m ∧ direction m' = direction m ∧
  (outgoing (state m') = true → direction m = mosq_md_out).

Lemma restated_refl d m : msg_ok d m → restated m m.
Proof. intros (? & ? & ? & ?). by split_and!. Qed.

Lemma restated_msg_ok d m m' : restated m m' → msg_ok d m → msg_ok d m'.
Proof.
  intros (? & Hs & ? & Hq & ? & Hd & Hp) (? & ? & ? & ?). unfold msg_ok.
  rewrite Hs, Hq, Hd. split_and!; try done; lia.
Qed.

Lemma restated_fields l l' :
  Forall2 restated l l' →
  cm_ptr <$> l' = cm_ptr <$> l ∧ cm_store <$> l' = cm_store <$> l ∧
  length l' = length l ∧ count12 l' = count12 l.
Proof.
  unfold count12.
  induction 1 as [|m m' l l' (Hp & Hs & _ & Hq & _) _ (IH1 & IH2 & IH3 & IH4)]; [done|].
  cbn [fmap list_fmap length]. rewrite Hp, Hs, IH1, IH2, IH3.
  split_and!; try done. rewrite !filter_cons, Hq. case_decide; cbn [length]; lia.
Qed.

Lemma last_restated l l' :
  Forall2 restated l l' → cm_ptr <$> last l' = cm_ptr <$> last l.
Proof.
  intros H. rewrite <-!fmap_last. by destruct (restated_fields _ _ H) as (-> & _).
Qed.

Lemma cm_ok_restate others c d l' :
  cm_ok others (CM c d) → Forall2 restated (msgs c) l' →
  step_ok others (CM c d) (CM (set_msgs (λ _, l') c) d).
Proof.
  intros [[Hl Hn Hc H12] Hm Hs Hf Ho Hb] H. cbn [ctx mdb] in *.
  pose proof (restated_fields _ _ H) as (E1 & E2 & E3 & E4).
  split; [|done|by intros ?|done]. split; cbn [ctx mdb set_msgs msgs].
  - split; cbn [set_msgs last_msg msgs msg_count msg_count12].
    + by rewrite (last_restated _ _ H).
    + by rewrite E1.
    + by rewrite E3.
    + by rewrite E4.
  - revert Hm. clear -H. induction H; [done|]. rewrite !Forall_cons.
    intros [? ?]. split; [by eapply restated_msg_ok|auto].
  - by rewrite E2.
  - revert Hf. clear -H. induction H as [|m m' l l' (Hp & _)]; [done|]. rewrite !Forall_cons.
    rewrite Hp. naive_solver.
  - exact Ho.
  - exact Hb.
Qed.

Lemma Forall2_restated_fmap d f l :
  Forall (msg_ok d) l → (∀ m, m ∈ l → msg_ok d m → restated m (f m)) →
  Forall2 restated l (f <$> l).
Proof.
  induction 1 as [|m l Hm Hl IH]; intros Hf; [constructor|]. constructor.
  - apply Hf; [set_solver|done].
  - apply IH. intros m' ? ?. apply Hf; [set_solver|done].
Qed.

Lemma Forall2_restated_refl d l : Forall (msg_ok d) l → Forall2 restated l l.
Proof. induction 1; constructor; [by eapply restated_refl|done]. Qed.

Lemma Forall2_restated_alter d f i l m :
  Forall (msg_ok d) l → l !! i = Some m → restated m (f m) → Forall2 restated l (alter f i l).
Proof.
  revert i. induction l as [|x l IH]; intros [|i] Hl Hi Hf; try done;
    apply Forall_cons in Hl as [Hx Hl]; cbn in Hi.
  - simplify_eq. constructor; [done|]. by eapply Forall2_restated_refl.
  - constructor; [by eapply restated_refl|]. by apply IH.
Qed.

Lemma publish_state_outgoing q s : 0 ≤ q ≤ 2 → outgoing (publish_state q s) = true.
Proof.
  intros Hq. unfold publish_state.
  assert (q = 0 ∨ q = 1 ∨ q = 2) as [-> | [-> | ->]] by lia; done.
Qed.

Lemma promote_restated d m : msg_ok d m → restated m (promote m).
Proof.
  intros Hm. unfold promote. destruct (direction m) eqn:Hd.
  - case_match; [|by eapply restated_refl]. by split_and!.
  - by split_and!.
Qed.

Lemma promote_queued_restated E d l :
  Forall (msg_ok d) l → Forall2 restated l (promote_queued E l).
Proof.
  induction 1 as [|m l Hm Hl IH]; [constructor|]. cbn [promote_queued]. case_match.
  - constructor; [by eapply promote_restated|done].
  - apply (Forall2_restated_refl d). by constructor.
Qed.

(** *** Removing a message *)

Lemma last_delete (l : list client_msg) i m :
  l !! i = Some m →
  last (delete i l) = if bool_decide (drop i (delete i l) = [])
                      then match i with O => None | S j => delete i l !! j end
                      else last l.
Proof.
  intros Hi. pose proof (lookup_lt_Some _ _ _ Hi) as Hlt.
  pose proof (length_delete l i ltac:(eauto)) as Hld.
  case_bool_decide as E.
  - apply (f_equal length) in E. rewrite length_drop, Hld in E. cbn in E.
    rewrite last_lookup, Hld. destruct i as [|j].
    + destruct (delete 0%nat l) eqn:Ed; [done|]. cbn in Hld. lia.
    + f_equal. lia.
  - rewrite !last_lookup, Hld.
    assert (i < Nat.pred (length l))%nat.
    { destruct (decide (i = Nat.pred (length l))) as [->|]; [|lia].
      destruct E. apply drop_ge. lia. }
    rewrite list_lookup_delete_ge by lia. f_equal. lia.
Qed.

Lemma count12_perm l l' : l ≡ₚ l' → count12 l = count12 l'.
Proof. intros H. unfold count12. by rewrite H. Qed.

Lemma count12_cons m l : count12 (m :: l) = (if 0 <? qos m then 1 else 0) + count12 l.
Proof.
  unfold count12. rewrite filter_cons. destruct (Z.ltb_spec 0 (qos m)).
  - rewrite decide_True by done. cbn [length]. lia.
  - rewrite decide_False by lia. lia.
Qed.

Lemma deref_keeps refs d d' s o :
  (∀ s', s' ≠ s → heap d' !! s' = heap d !! s') →
  heap d' !! s = (if decide (s ∈ refs) then set_ref_count (λ n, n - 1) <$> heap d !! s else None) →
  mosquitto__db_msg_store_deref s d = Some (o, d') → keeps refs d d'.
Proof.
  intros Hne Hs _ s' Hin. unfold content_at. destruct (decide (s' = s)) as [->|Hns].
  - rewrite Hs, decide_True by done. by destruct (heap d !! s).
  - by rewrite Hne.
Qed.

Lemma message_remove_spec E others s i m :
  cm_ok others s → msgs (ctx s) !! i = Some m →
  wp (_message_remove E i) (λ _ s', step_ok others s s' ∧
    msgs (ctx s') = promote_queued E (delete i (msgs (ctx s))) ∧
    keeps ((cm_store <$> delete i (msgs (ctx s))) ++ others) (mdb s) (mdb s') ∧
    sent (ctx s') = sent (ctx s) ∧ pending (ctx s') = pending (ctx s) ∧
    wr (ctx s') = wr (ctx s)) s.
Proof.
  intros [[Hl Hn Hc H12] Hm Hst Hf Ho Hb] Hi. destruct s as [c d]. cbn [ctx mdb] in *.
  pose proof (delete_Permutation _ _ _ Hi) as Hperm.
  set (l := delete i (msgs c)) in *.
  assert (Hst1 : store_ok (cm_store m :: (cm_store <$> l) ++ others) d).
  { rewrite Hperm in Hst. exact Hst. }
  destruct (store_deref_ok _ _ _ Hst1)
    as (o & d' & Ed & Hst' & Hoo & Hnp & Hpc & Hne & Hsm).
  pose proof (deref_keeps _ _ _ _ _ Hne Hsm Ed) as Hk.
  assert (Hsub : l ⊆ msgs c) by (rewrite Hperm; set_solver).
  assert (Hok : cm_ok others (CM (set_msgs (λ _, l) (set_msg_count12 (λ _, count12 l)
     (set_msg_count (λ _, Z.of_nat (length l)) (set_last_msg (λ _, cm_ptr <$> last l) c)))) d')).
  { split; cbn [ctx mdb set_msgs msgs set_msg_count12 set_msg_count set_last_msg].
    - split; cbn; [done| |done|done]. rewrite Hperm in Hn. by apply NoDup_cons in Hn as [_ ?].
    - eapply (Forall_msg_ok_keeps _ d d'); [exact Hk|set_solver|].
      by eapply Forall_subseteq.
    - done.
    - rewrite Hnp. by eapply Forall_subseteq.
    - exact Ho.
    - exact Hb. }
  assert (Hrun : _message_remove E i (CM c d) = Some (tt, CM (set_msgs (λ _, promote_queued E l)
     (set_msgs (λ _, l) (set_msg_count12 (λ _, count12 l)
     (set_msg_count (λ _, Z.of_nat (length l)) (set_last_msg (λ _, cm_ptr <$> last l) c))))) d')).
  { unfold _message_remove, bind, mget, on_mdb, upd_ctx, mmodify. cbn [ctx mdb].
    rewrite Hi. cbn [ctx mdb]. rewrite Ed. cbn [mbind option_bind ctx mdb].
    assert (Hlast : match i with
      | O => if bool_decide (l = []) then None else last_msg c
      | S j => if bool_decide (drop i l = []) then cm_ptr <$> l !! j else last_msg c
      end = cm_ptr <$> last l).
    { unfold l. rewrite (last_delete _ _ _ Hi), Hl.
      destruct i as [|j]; [rewrite drop_0|]; by case_bool_decide. }
    assert (Hcnt : msg_count c - 1 = Z.of_nat (length l)).
    { rewrite Hc, Hperm. cbn [length]. lia. }
    assert (Hcnt12 : (if 0 <? qos m then msg_count12 c - 1 else msg_count12 c) = count12 l).
    { rewrite H12, (count12_perm _ _ Hperm), count12_cons. destruct (0 <? qos m); lia. }
    rewrite <-Hlast, <-Hcnt, <-Hcnt12. destruct (0 <? qos m); cbn; by destruct c. }
  unfold wp. rewrite Hrun. split; [|by split_and!].
  destruct (cm_ok_restate _ _ _ (promote_queued E l) Hok) as [Hok' _ _ _].
  { eapply promote_queued_restated, Hok. }
  split; [exact Hok'|done|intros s' ?; apply Hk; set_solver|cbn; lia].
Qed.

(** ** The operations keep the invariant *)

(** What identifies a message in the queue. *)
Definition key (m : client_msg) : Z * msg_direction := (mid m, direction m).
Definition core (m : client_msg) : ptr * ptr * bool * (Z * msg_direction) :=
  (cm_ptr m, cm_store m, retain m, key m).

Lemma restated_core l l' : Forall2 restated l l' → core <$> l' = core <$> l.
Proof.
  induction 1 as [|m m' l l' (Hp & Hs & Hm & _ & Hr & Hd & _) _ IH]; [done|].
  cbn. rewrite IH. unfold core, key. congruence.
Qed.

Lemma upd_msg_spec others s i m f :
  cm_ok others s → msgs (ctx s) !! i = Some m → restated m (f m) →
  wp (upd_msg i f) (λ _ s', step_ok others s s' ∧ msgs (ctx s') = alter f i (msgs (ctx s))) s.
Proof.
  intros Hok Hi Hf. destruct s as [c d]. apply wp_modify. split; [|done].
  apply cm_ok_restate; [done|]. eapply Forall2_restated_alter; [apply Hok|done|done].
Qed.

Lemma set_timestamp_restated d t m : msg_ok d m → restated m (set_timestamp t m).
Proof. intros H. apply (restated_refl d m H). Qed.

Lemma make_ready_restated E d m : msg_ok d m → restated m (make_ready E m).
Proof.
  intros Hm. unfold make_ready. cbn [direction set_timestamp].
  destruct (direction m) eqn:Hd.
  - case_match; [by split_and!|]. by eapply set_timestamp_restated.
  - by split_and!.
Qed.

(** The optional update at the head of the loops. *)
Lemma ready_step others s i m f (b : bool) :
  cm_ok others s → msgs (ctx s) !! i = Some m → restated m (f m) →
  wp (if b then upd_msg i f else ret tt) (λ _ s', step_ok others s s' ∧
    core <$> msgs (ctx s') = core <$> msgs (ctx s) ∧
    length (msgs (ctx s')) = length (msgs (ctx s)) ∧
    ∃ m', msgs (ctx s') !! i = Some m' ∧ restated m m') s.
Proof.
  intros Hok Hi Hf. destruct b.
  - eapply wp_mono; [by apply (upd_msg_spec others _ _ m)|]. intros _ s' [Hs Hl].
    assert (Hr : Forall2 restated (msgs (ctx s)) (msgs (ctx s'))).
    { rewrite Hl. eapply Forall2_restated_alter; [apply Hok|done|done]. }
    split; [done|]. split; [by apply restated_core|].
    split; [symmetry; by eapply Forall2_length|].
    exists (f m). by rewrite Hl, list_lookup_alter_eq, Hi.
  - apply wp_ret. split; [by apply step_refl|]. split; [done|]. split; [done|].
    exists m. split; [done|]. destruct Hok as [_ Hm _ _ _ _].
    rewrite Forall_lookup in Hm. eapply restated_refl, Hm, Hi.
Qed.

(** What [mqtt3_db_message_delete] removes, when no two messages share a key:
    the loop has passed [i] messages, and [del] says the one was found. *)
Definition delete_pre (k : Z * msg_direction) (i : nat) (del : bool) (l : list client_msg) : Prop :=
  NoDup (core <$> l).*2 ∧ (∀ x, x ∈ take i (core <$> l) → x.2 ≠ k) ∧
  (del = true → k ∉ (core <$> l).*2).

Definition without (k : Z * msg_direction) (l : list client_msg) :=
  filter (λ x, x.2 ≠ k) (core <$> l).

Lemma without_id k l : k ∉ (core <$> l).*2 → without k l = core <$> l.
Proof.
  unfold without. generalize (core <$> l). clear l.
  induction l as [|x l IH]; [done|]. rewrite fmap_cons, not_elem_of_cons. intros [? ?].
  rewrite filter_cons_True by done. by rewrite IH.
Qed.

Lemma delete_pre_end k i del l :
  (length l ≤ i)%nat → delete_pre k i del l → without k l = core <$> l.
Proof.
  intros Hi (_ & Hp & _). apply without_id. rewrite take_ge in Hp by (by rewrite length_fmap).
  intros (x & -> & Hx)%list_elem_of_fmap. by apply (Hp x).
Qed.

Lemma delete_pre_skip i del l m k :
  l !! i = Some m → key m ≠ k → delete_pre k i del l → delete_pre k (S i) del l.
Proof.
  intros Hi Hk (Hn & Hp & Hd). split; [done|]. split; [|done]. intros x Hx.
  erewrite take_S_r in Hx by (by rewrite list_lookup_fmap, Hi).
  apply elem_of_app in Hx as [Hx|Hx]; [by apply Hp|].
  apply list_elem_of_singleton in Hx as ->. done.
Qed.

Lemma without_split k i l m :
  l !! i = Some m → key m = k → NoDup (core <$> l).*2 →
  without k l = core <$> delete i l ∧ k ∉ (core <$> delete i l).*2.
Proof.
  intros Hi Hk Hn.
  assert (Hnin : k ∉ (core <$> delete i l).*2).
  { rewrite (delete_Permutation _ _ _ Hi) in Hn. cbn in Hn.
    apply NoDup_cons in Hn as [Hn _]. by rewrite Hk in Hn. }
  split; [|done]. revert i Hi Hn Hnin. induction l as [|x l IH]; intros [|i] Hi Hn Hnin; try done.
  - cbn in Hi. simplify_eq. unfold without. rewrite fmap_cons, filter_cons_False.
    + by apply without_id.
    + cbn. congruence.
  - cbn in Hi, Hn, Hnin. apply NoDup_cons in Hn as [? Hn].
    apply not_elem_of_cons in Hnin as [? Hnin]. unfold without.
    rewrite fmap_cons, filter_cons_True by (cbn; congruence).
    change (delete (S i) (x :: l)) with (x :: delete i l). rewrite fmap_cons. f_equal.
    by apply (IH i).
Qed.

Lemma without_core k l l' : core <$> l' = core <$> l → without k l' = without k l.
Proof. unfold without. by intros ->. Qed.

Lemma delete_pre_core k i del l l' :
  core <$> l' = core <$> l → delete_pre k i del l → delete_pre k i del l'.
Proof. unfold delete_pre. by intros ->. Qed.

(** The message at [i] had the key, and was taken out. *)
Lemma delete_pre_removed k i del l l1 l2 m1 :
  core <$> l1 = core <$> l → l1 !! i = Some m1 → key m1 = k →
  Forall2 restated (delete i l1) l2 → delete_pre k i del l →
  core <$> l2 = without k l ∧ delete_pre k i true l2.
Proof.
  intros Hc Hi Hk Hr Hpre. pose proof (delete_pre_core _ _ _ _ _ Hc Hpre) as (Hnd & Hp & _).
  destruct (without_split k i l1 m1) as [Hw Hnin]; [done..|].
  rewrite (restated_core _ _ Hr), <-Hw. split; [by apply without_core|].
  split; [|split].
  - rewrite (restated_core _ _ Hr).
    rewrite (delete_Permutation _ _ _ Hi) in Hnd. by apply NoDup_cons in Hnd as [_ ?].
  - intros x Hx. assert (Hx' : x ∈ core <$> l2) by (rewrite <-(take_drop i); set_solver).
    rewrite (restated_core _ _ Hr) in Hx'. intros Heq. apply Hnin.
    rewrite <-Heq. by apply list_elem_of_fmap_2.
  - intros _. by rewrite (restated_core _ _ Hr).
Qed.

Lemma delete_loop_spec E others n k dir i idx del s :
  cm_ok others s → (length (msgs (ctx s)) - i ≤ n)%nat →
  wp (delete_loop E n k dir i idx del) (λ rc s', rc = MOSQ_ERR_SUCCESS ∧ step_ok others s s' ∧
    (delete_pre (k, dir) i del (msgs (ctx s)) →
     core <$> msgs (ctx s') = without (k, dir) (msgs (ctx s)))) s.
Proof.
  revert i idx del s. induction n as [|n IH]; intros i idx del s Hok Hn; cbn [delete_loop];
    apply wp_bind, wp_get; destruct (msgs (ctx s) !! i) as [m|] eqn:Hi.
  1: { apply lookup_lt_Some in Hi. lia. }
  1, 3: apply wp_ret; split; [done|]; split; [by apply step_refl|];
    intros Hp; symmetry; eapply delete_pre_end, Hp; by apply lookup_ge_None.
  apply wp_bind. eapply wp_mono.
  { apply (ready_step others); [done|exact Hi|]. eapply make_ready_restated.
    destruct Hok as [_ Hm _ _ _ _]. rewrite Forall_lookup in Hm. by eapply Hm. }
  intros _ s1 (H1 & Hc1 & Hl1 & m1 & Hi1 & Hr1). pose proof (lookup_lt_Some _ _ _ Hi) as Hlt.
  destruct ((mid m =? k) && bool_decide (direction m = dir)) eqn:Hk.
  - apply andb_prop in Hk as [Hk%Z.eqb_eq Hd%bool_decide_eq_true].
    apply wp_bind. eapply wp_mono; [eapply (message_remove_spec E others); [apply H1|done]|].
    intros _ s2 (H2 & Hl2 & _).
    assert (Hr2 : Forall2 restated (delete i (msgs (ctx s1))) (msgs (ctx s2))).
    { rewrite Hl2. eapply promote_queued_restated. eapply Forall_subseteq;
        [apply list_subseteq_delete|apply H1]. }
    assert (Hkey : key m1 = (k, dir)).
    { destruct Hr1 as (_ & _ & E1 & _ & _ & E2 & _). unfold key. congruence. }
    pose proof (delete_pre_removed _ _ del _ _ _ _ Hc1 Hi1 Hkey Hr2) as Hwo.
    destruct (max_inflight E <? idx + 1 - 1).
    + apply wp_ret. split; [done|]. split; [by etrans|]. intros Hp. apply Hwo, Hp.
    + eapply wp_mono; [apply IH; [apply H2|]|].
      * rewrite <-(Forall2_length _ _ _ Hr2), length_delete by eauto. lia.
      * intros rc s3 (Hrc & H3 & Hw3). split; [done|]. split; [by etrans; [|etrans]|].
        intros Hp. destruct (Hwo Hp) as [Hc2 Hp2]. rewrite (Hw3 Hp2), <-Hc2.
        apply without_id. by apply Hp2.
  - assert (Hkey : key m ≠ (k, dir)).
    { intros Heq. unfold key in Heq. simplify_eq.
      by rewrite Z.eqb_refl, bool_decide_eq_true_2 in Hk. }
    destruct ((max_inflight E <? idx + 1) && del) eqn:Hstop.
    + apply wp_ret. split; [done|]. split; [done|]. intros Hp.
      apply andb_prop in Hstop as [_ ->]. rewrite Hc1. symmetry.
      apply without_id. by apply Hp.
    + eapply wp_mono; [apply IH; [apply H1|lia]|].
      intros rc s3 (Hrc & H3 & Hw3). split; [done|]. split; [by etrans|].
      intros Hp. rewrite Hw3; [by apply without_core|].
      eapply delete_pre_core; [exact Hc1|]. by eapply delete_pre_skip.
Qed.

Lemma message_delete_spec E others k dir s :
  cm_ok others s →
  wp (mqtt3_db_message_delete E k dir) (λ rc s', rc = MOSQ_ERR_SUCCESS ∧ step_ok others s s' ∧
    (NoDup (key <$> msgs (ctx s)) →
     core <$> msgs (ctx s') = without (k, dir) (msgs (ctx s)))) s.
Proof.
  intros Hok. unfold mqtt3_db_message_delete. apply wp_bind, wp_get.
  eapply wp_mono; [apply (delete_loop_spec E others); [done|lia]|].
  intros rc s' (? & ? & Hw). split; [done|]. split; [done|]. intros Hn. apply Hw.
  split; [by rewrite <-list_fmap_compose|]. split; [|done]. rewrite take_0. set_solver.
Qed.

(** *** Insertion *)

Lemma append_msg_ok c m :
  last_msg c = cm_ptr <$> last (msgs c) → NoDup (cm_ptr <$> msgs c) →
  append_msg m c = Some (set_last_msg (λ _, Some (cm_ptr m)) (set_msgs (λ _, msgs c ++ [m]) c)).
Proof.
  intros Hl Hn. unfold append_msg. rewrite Hl.
  destruct (last (msgs c)) as [x|] eqn:Ex; cbn [fmap option_fmap option_map].
  - apply last_Some in Ex as [l El].
    assert (Hf : list_find (λ y, cm_ptr y = cm_ptr x) (msgs c) = Some (length l, x)).
    { apply list_find_Some. rewrite El. split; [by rewrite list_lookup_middle|].
      split; [done|]. intros j y Hj Hlt Hp.
      rewrite lookup_app_l in Hj by done. rewrite El, fmap_app in Hn.
      apply NoDup_app in Hn as (_ & Hd & _). apply (Hd (cm_ptr y)).
      - by eapply list_elem_of_fmap_2, list_elem_of_lookup_2.
      - rewrite Hp. cbn. set_solver. }
    rewrite Hf. cbn [mbind option_bind]. unfold set_msgs.
    rewrite take_ge by (rewrite El, length_app; simpl; lia). done.
  - apply last_None in Ex. by rewrite Ex.
Qed.

(** Whether, and in which state, a message was inserted. *)
Definition inserted (E : env) (s s' : cm) (imid : Z) (dir : msg_direction) (q : Z) (r : bool)
    (stored : ptr) : Prop :=
  msgs (ctx s') = msgs (ctx s) ∨
  ∃ p st, msgs (ctx s') = msgs (ctx s) ++ [ClientMsg p stored (now E) imid q r dir st false] ∧
    (st = mosq_ms_queued ∨ is_Some (sock (ctx s)) ∧
     (st = publish_state q mosq_ms_invalid ∧ dir = mosq_md_out ∨
      st = mosq_ms_wait_for_pubrel ∧ dir = mosq_md_in)).

(** The invariant with one more message. *)
Lemma cm_ok_append others s stored m st (E : env) :
  cm_ok others s → heap (mdb s) !! stored = Some st →
  cm_ptr m = next_ptr (mdb s) → cm_store m = stored → msg_ok (mdb s) m →
  ∃ c' d', append_msg m (ctx s) = Some c' ∧
    store_ref stored (snd (fresh_ptr (mdb s))) = Some d' ∧
    step_ok others s (CM (set_msg_count12 (λ n, if 0 <? qos m then n + 1 else n)
                            (set_msg_count (λ n, n + 1) c')) d') ∧
    msgs c' = msgs (ctx s) ++ [m] ∧
    (∀ x, content_at d' x = content_at (mdb s) x) ∧
    heap d' !! stored = Some (set_ref_count (λ n, n + 1) st).
Proof.
  intros [[Hl Hn Hc H12] Hm Hs Hf Ho Hb] Hst Hp Hcs Hok. destruct s as [c d]. cbn [ctx mdb] in *.
  assert (Hs0 : store_ok ((cm_store <$> msgs c) ++ others) (snd (fresh_ptr d))).
  { destruct Hs as [Hs1 [L1 L2 L3 L4]]. split; [done|]. split; cbn; try done.
    intros x Hx. specialize (L4 x Hx). lia. }
  destruct (store_ref_ok _ _ stored st Hs0 Hst) as (d' & Ed & Hs' & Hh & Hnp & Hpc).
  cbn in Hh, Hnp.
  assert (Hcont : ∀ x, content_at d' x = content_at d x).
  { intros x. unfold content_at. rewrite Hh. destruct (decide (x = stored)) as [->|].
    - by rewrite lookup_insert_eq, Hst.
    - by rewrite lookup_insert_ne. }
  eexists _, d'. split; [by apply append_msg_ok|]. split; [done|].
  assert (Hfm : Forall (msg_ok d') (msgs c ++ [m])).
  { apply Forall_app. split.
    - eapply (Forall_msg_ok_keeps (cm_store <$> msgs c)); [|done|done]. intros x _. apply Hcont.
    - apply Forall_singleton. eapply (msg_ok_keeps [cm_store m]); [|set_solver|done].
      intros x _. apply Hcont. }
  split; [|split; [done|split; [done|by rewrite Hh, lookup_insert_eq]]].
  split; [|done|intros x _; apply Hcont|cbn; rewrite Hnp; lia].
  split; cbn [ctx mdb set_msg_count12 set_msg_count set_last_msg set_msgs msgs];
    [|done| | |done|done].
  - split; cbn [last_msg msgs msg_count msg_count12 set_msg_count12 set_msg_count set_last_msg set_msgs].
    + by rewrite last_snoc.
    + rewrite fmap_app. apply NoDup_app. split; [done|]. split; [|cbn; apply NoDup_singleton].
      intros x (y & -> & Hy)%list_elem_of_fmap Hx. cbn in Hx. rewrite Hp in Hx.
      rewrite Forall_forall in Hf. specialize (Hf y Hy).
      apply list_elem_of_singleton in Hx. rewrite Hx in Hf. lia.
    + rewrite length_app, Hc. cbn. lia.
    + rewrite (count12_perm (msgs c ++ [m]) (m :: msgs c)) by (by rewrite <-Permutation_cons_append).
      rewrite count12_cons, H12. destruct (0 <? qos m); lia.
  - rewrite fmap_app. cbn. rewrite Hcs, <-(assoc_L (++)). cbn.
    rewrite <-Permutation_middle. exact Hs'.
  - rewrite Hnp. apply Forall_app. split.
    + eapply Forall_impl; [exact Hf|]. cbn. intros. lia.
    + apply Forall_singleton. rewrite Hp. lia.
Qed.

Lemma wp_on_mdb {A} (f : M msg_db A) Q s a d' :
  f (mdb s) = Some (a, d') → Q a (CM (ctx s) d') → wp (on_mdb f) Q s.
Proof. intros Hf HQ. unfold wp, on_mdb. by rewrite Hf. Qed.

Lemma wp_on_ctx {A} (f : M mosquitto A) (Q : A → cm → Prop) s :
  wp f (λ a c', Q a (CM c' (mdb s))) (ctx s) → wp (on_ctx f) Q s.
Proof. unfold wp, on_ctx. by destruct (f (ctx s)) as [[a c']|]. Qed.

(** Changes of the store that concern neither lives nor counts. *)
Lemma cm_ok_mdb others c d d' :
  cm_ok others (CM c d) →
  (∀ x, content_at d' x = content_at d x) → next_ptr d' = next_ptr d →
  store_ok ((cm_store <$> msgs c) ++ others) d' →
  step_ok others (CM c d) (CM c d').
Proof.
  intros [Hq Hm Hs Hf Ho Hb] Hc Hn Hs'. cbn [ctx mdb] in *.
  split; [|done|intros x _; apply Hc|cbn; rewrite Hn; lia].
  split; cbn [ctx mdb]; try done; [|by rewrite Hn].
  eapply (Forall_msg_ok_keeps (cm_store <$> msgs c)); [|done|done]. intros x _. apply Hc.
Qed.

Lemma persistence_step others s n :
  cm_ok others s → step_ok others s (CM (ctx s) (set_persistence_changes n (mdb s))).
Proof.
  intros H. pose proof H as [_ _ [Hc [L1 L2 L3 L4]] _ _ _]. destruct s as [c d].
  by apply cm_ok_mdb.
Qed.

Lemma bridge_step others s b b' :
  cm_ok others s → c_bridge (ctx s) = Some b → topics b' = topics b →
  step_ok others s (CM (set_bridge (λ _, Some b') (ctx s)) (mdb s)).
Proof.
  intros [[? ? ? ?] ? ? ? ? Hb] Hc Ht. split; [|unfold ident; cbn; rewrite Hc; cbn; by rewrite Ht|done|done].
  split; [by split|done|done|done|done|]. unfold bridge_ok in *. rewrite Hc in Hb. cbn.
  by rewrite Ht.
Qed.

Lemma dropping_step others s :
  cm_ok others s → step_ok others s (CM (set_is_dropping (λ _, true) (ctx s)) (mdb s)).
Proof. intros [[? ? ? ?] ? ? ? ? ?]. split; [|done|done|done]. by split. Qed.

Lemma dest_ids_step others s stored st f :
  cm_ok others s → heap (mdb s) !! stored = Some st →
  ∃ d', upd_store stored (set_dest_ids f) (mdb s) = Some d' ∧
    step_ok others s (CM (ctx s) d') ∧ (∀ x, content_at d' x = content_at (mdb s) x).
Proof.
  intros Hok Hst. pose proof Hok as [_ _ Hs _ _ _]. destruct s as [c d]. cbn [ctx mdb] in *.
  destruct (upd_dest_ids_ok _ _ stored st f Hs Hst) as (d' & Ed & Hs' & Hh & Hn & _).
  assert (Hc : ∀ x, content_at d' x = content_at d x).
  { intros x. unfold content_at. rewrite Hh. destruct (decide (x = stored)) as [->|].
    - by rewrite lookup_insert_eq, Hst.
    - by rewrite lookup_insert_ne. }
  exists d'. split; [done|]. split; [|done]. by apply cm_ok_mdb.
Qed.

Lemma insert_state_inr E c dir q st rc :
  0 ≤ q ≤ 2 → insert_state E c dir q = inr (st, rc) →
  st ≠ mosq_ms_invalid ∧ (dir = mosq_md_in → outgoing st = false) ∧
  (st = mosq_ms_queued ∨ is_Some (sock c) ∧
   (st = publish_state q mosq_ms_invalid ∧ dir = mosq_md_out ∨
    st = mosq_ms_wait_for_pubrel ∧ dir = mosq_md_in)).
Proof.
  intros Hq. unfold insert_state. pose proof (publish_state_outgoing q mosq_ms_invalid Hq).
  destruct (sock c).
  - destruct (_ || _ || _).
    + destruct dir; [destruct (q =? 2); [|done]|]; intros [= <- <-].
      * split_and!; [done|done|]. right. eauto.
      * split_and!; [|done|right; eauto]. intros Heq. by rewrite Heq in *.
    + destruct (_ || _); [|done]. intros [= <- <-]. auto.
  - destruct (_ && _ && _); [done|]. destruct (_ && _); [done|]. intros [= <- <-]. auto.
Qed.

Lemma link_msg_spec E others s imid dir q r stored mst st :
  cm_ok others s → heap (mdb s) !! stored = Some st → 0 ≤ q ≤ 2 →
  (dir = mosq_md_in → q = 2 ∧ outgoing mst = false) →
  carries (mdb s) dir stored →
  wp (link_msg E imid dir q r stored mst) (λ _ s', step_ok others s s' ∧
    (∀ x, content_at (mdb s') x = content_at (mdb s) x) ∧
    heap (mdb s') !! stored = Some (set_ref_count (λ n, n + 1) st) ∧
    msgs (ctx s') = msgs (ctx s) ++
      [ClientMsg (next_ptr (mdb s)) stored (now E) imid q r dir mst false]) s.
Proof.
  intros Hok Hst Hq Hin Hout. unfold link_msg.
  set (n := persistence_changes (mdb s) + (if bool_decide (mst = mosq_ms_queued) then 1 else 0)).
  apply wp_bind.
  assert (Hpc : ∀ Q : unit → cm → Prop,
    Q tt (CM (ctx s) (set_persistence_changes n (mdb s))) →
    wp (if bool_decide (mst = mosq_ms_queued)
        then on_mdb (mmodify (λ d, set_persistence_changes (persistence_changes d + 1) d))
        else ret tt) Q s).
  { intros Q HQ. unfold n in HQ. destruct (bool_decide (mst = mosq_ms_queued)).
    - by eapply wp_on_mdb.
    - apply wp_ret. rewrite Z.add_0_r in HQ. by destruct s as [c []]. }
  apply Hpc. clear Hpc. pose proof (persistence_step others s n Hok) as H1.
  set (s1 := CM (ctx s) (set_persistence_changes n (mdb s))) in *.
  apply wp_bind. apply (wp_on_mdb _ _ _ (next_ptr (mdb s1)) (snd (fresh_ptr (mdb s1)))); [done|].
  set (m := ClientMsg (next_ptr (mdb s1)) stored (now E) imid q r dir mst false).
  assert (Hmok : msg_ok (mdb s1) m).
  { split_and!; cbn; try lia; [apply Hin|done|]. intros Hp. destruct dir; [|done].
    destruct (Hin eq_refl) as [_ Hf]. by rewrite Hf in Hp. }
  destruct (cm_ok_append others s1 stored m st E) as (c' & d' & Ec & Ed & H2 & Hm & Hcont & Hh);
    [apply H1|exact Hst|done|done|done|].
  apply wp_bind. eapply wp_on_mdb; [cbn [mdb]; by rewrite Ed|].
  apply wp_bind, wp_on_ctx. unfold wp at 1. cbn [ctx mdb]. change (ctx s1) with (ctx s) in Ec.
  match goal with
  |- context [append_msg ?x ?y] => change (append_msg x y) with (append_msg m (ctx s))
  end.
  rewrite Ec. cbn [mbind option_bind].
  apply wp_bind, wp_modify. cbn [ctx mdb].
  assert (Hend : ∀ Q : unit → cm → Prop,
    Q tt (CM (set_msg_count12 (λ n, if 0 <? q then n + 1 else n)
                (set_msg_count (λ n, n + 1) c')) d') →
    wp (if 0 <? q then upd_ctx (set_msg_count12 (λ n, n + 1)) else ret tt) Q
      (CM (set_msg_count (λ n, n + 1) c') d')).
  { intros Q HQ. destruct (0 <? q); [by apply wp_modify|]. apply wp_ret. by destruct c'. }
  apply Hend. split; [by etrans|]. by split_and!.
Qed.

Lemma record_dest_spec E others s cid dir r stored st :
  cm_ok others s → heap (mdb s) !! stored = Some st →
  wp (record_dest E cid dir r stored) (λ _ s', step_ok others s s' ∧
    (∀ x, content_at (mdb s') x = content_at (mdb s) x) ∧ msgs (ctx s') = msgs (ctx s)) s.
Proof.
  intros Hok Hst. unfold record_dest. destruct (_ && _ && _).
  - destruct (dest_ids_step others s stored st (λ l, l ++ [cid]) Hok Hst) as (d' & Ed & ? & ?).
    eapply wp_on_mdb; [by rewrite Ed|done].
  - apply wp_ret. split; [by apply step_refl|done].
Qed.

Lemma lazy_bridge_spec others s :
  cm_ok others s →
  wp lazy_bridge (λ _ s', step_ok others s s' ∧ mdb s' = mdb s ∧
    msgs (ctx s') = msgs (ctx s)) s.
Proof.
  intros Hok. unfold lazy_bridge. apply wp_bind, wp_get.
  destruct (c_bridge (ctx s)) eqn:Hb; [|apply wp_ret; split; [by apply step_refl|done]].
  destruct (_ && _ && _); [|apply wp_ret; split; [by apply step_refl|done]].
  apply wp_modify. split; [by eapply bridge_step|done].
Qed.

Lemma message_insert_spec E others s imid dir q r stored st :
  cm_ok others s → heap (mdb s) !! stored = Some st → 0 ≤ q ≤ 2 →
  (dir = mosq_md_in → q = 2) → carries (mdb s) dir stored →
  wp (mqtt3_db_message_insert E imid dir q r stored) (λ rc s', step_ok others s s' ∧
    (∀ x, content_at (mdb s') x = content_at (mdb s) x) ∧
    inserted E s s' imid dir q r stored) s.
Proof.
  intros Hok Hst Hq Hin Hout. unfold mqtt3_db_message_insert. apply wp_bind, wp_get.
  destruct (id (ctx s)) as [cid|]; [|apply wp_ret; split; [by apply step_refl|]; split; [done|by left]].
  apply wp_bind. eapply wp_lift; [exact Hst|].
  destruct (_ && _ && _ && _); [apply wp_ret; split; [by apply step_refl|]; split; [done|by left]|].
  destruct (insert_state E (ctx s) dir q) as [[rc dropping]|[mst rc]] eqn:Hins.
  { apply wp_bind. destruct dropping.
    - apply wp_modify, wp_ret. split; [by apply dropping_step|]. split; [done|by left].
    - apply wp_ret, wp_ret. split; [by apply step_refl|]. split; [done|by left]. }
  destruct (insert_state_inr _ _ _ _ _ _ Hq Hins) as (Hinv & Hnpub & Hstate).
  apply wp_bind, wp_assert; [by rewrite bool_decide_eq_false_2|].
  apply wp_bind. eapply wp_mono; [apply (link_msg_spec E others); naive_solver|].
  intros _ s1 (H1 & C1 & Hh1 & M1). apply wp_bind.
  eapply wp_mono; [eapply (record_dest_spec E others); [apply H1|exact Hh1]|].
  intros _ s2 (H2 & C2 & M2). apply wp_bind.
  eapply wp_mono; [apply (lazy_bridge_spec others); apply H2|].
  intros _ s3 (H3 & D3 & M3). apply wp_ret.
  split; [by etrans; [|etrans]|]. split; [intros x; by rewrite D3, C2, C1|].
  right. rewrite M3, M2, M1. eauto.
Qed.

(** *** The other operations *)

Lemma message_update_spec E others s umid dir st :
  cm_ok others s → (outgoing st = true → dir = mosq_md_out) →
  wp (mqtt3_db_message_update E umid dir st) (λ rc s', step_ok others s s' ∧
    core <$> msgs (ctx s') = core <$> msgs (ctx s) ∧ mdb s' = mdb s ∧
    (rc = MOSQ_ERR_SUCCESS ↔ (umid, dir) ∈ key <$> msgs (ctx s))) s.
Proof.
  intros Hok Hp. unfold mqtt3_db_message_update. apply wp_bind, wp_get.
  destruct (list_find _ _) as [[i m]|] eqn:Hf.
  - apply list_find_Some in Hf as (Hi & [Hm Hd] & _). apply wp_bind, wp_modify, wp_ret.
    assert (Hr : restated m (set_timestamp (now E) (set_state st m))).
    { split_and!; try done. cbn. intros ?. rewrite Hd. auto. }
    assert (Hk : (umid, dir) ∈ key <$> msgs (ctx s)).
    { rewrite <-Hm, <-Hd. by eapply (list_elem_of_fmap_2 key), list_elem_of_lookup_2. }
    destruct s as [c d]. cbn [ctx mdb] in *.
    assert (Hr2 : Forall2 restated (msgs c)
      (alter (λ m, set_timestamp (now E) (set_state st m)) i (msgs c)))
      by (eapply Forall2_restated_alter; [apply Hok|done|done]).
    split; [by apply cm_ok_restate|]. split; [by apply restated_core|]. by split.
  - apply wp_ret. apply list_find_None in Hf. split; [by apply step_refl|].
    split; [done|]. split; [done|]. split; [done|].
    intros (m & Heq & Hm)%list_elem_of_fmap. rewrite Forall_forall in Hf.
    exfalso. apply (Hf m Hm). unfold key in Heq. by simplify_eq.
Qed.

Lemma deref_msgs_spec l others d :
  store_ok ((cm_store <$> l) ++ others) d →
  wp (deref_msgs l) (λ _ d', store_ok others d' ∧ keeps others d d' ∧
    next_ptr d' = next_ptr d) d.
Proof.
  revert d. induction l as [|m l IH]; intros d Hs; cbn [deref_msgs].
  - by apply wp_ret.
  - cbn in Hs. destruct (store_deref_ok _ _ _ Hs) as (o & d' & Ed & Hs' & _ & Hn & _ & Hne & Hsm).
    apply wp_bind. unfold wp at 1. rewrite Ed.
    eapply wp_mono; [by apply IH|]. intros _ d2 (Hs2 & Hk2 & Hn2).
    split; [done|]. split; [|congruence]. intros x Hx. rewrite (Hk2 x Hx).
    eapply (deref_keeps ((cm_store <$> l) ++ others)); [done|done|exact Ed|set_solver].
Qed.

Lemma messages_delete_spec others s :
  cm_ok others s →
  wp mqtt3_db_messages_delete (λ rc s', rc = MOSQ_ERR_SUCCESS ∧ step_ok others s s' ∧
    msgs (ctx s') = []) s.
Proof.
  intros [Hq Hm Hs Hf Ho Hb]. unfold mqtt3_db_messages_delete. apply wp_bind, wp_get.
  destruct (wp_inv _ _ _ (deref_msgs_spec _ _ _ Hs)) as ([] & d' & Ed & Hs' & Hk & Hn).
  apply wp_bind. eapply wp_on_mdb; [exact Ed|]. apply wp_bind, wp_modify, wp_ret.
  split; [done|]. split; [|done]. destruct s as [c d]. cbn [ctx mdb] in *.
  split; [|done|done|cbn; rewrite Hn; lia].
  split; cbn; try done; try constructor; try done. cbn. apply NoDup_nil_2.
Qed.

Lemma store_find_spec others s smid :
  cm_ok others s →
  ∃ rc o, mqtt3_db_message_store_find smid s = Some ((rc, o), s) ∧
    match o with
    | Some p => rc = MOSQ_ERR_SUCCESS ∧ p ∈ cm_store <$> msgs (ctx s)
    | None => rc = 1
    end.
Proof.
  intros [_ _ Hs _ _ _]. unfold mqtt3_db_message_store_find, bind, mget.
  assert (Hlive : ∀ m, m ∈ msgs (ctx s) → ∃ st, heap (mdb s) !! cm_store m = Some st).
  { intros m Hm. eapply store_ok_live; [exact Hs|]. apply elem_of_app. left.
    by apply list_elem_of_fmap_2. }
  assert (∃ rc o, store_find_loop (msgs (ctx s)) smid (mdb s) = Some (rc, o) ∧
    match o with Some p => rc = MOSQ_ERR_SUCCESS ∧ p ∈ cm_store <$> msgs (ctx s)
               | None => rc = 1 end) as (rc & o & Hl & Ho).
  { clear Hs. induction (msgs (ctx s)) as [|m l IH]; cbn [store_find_loop].
    - by eexists _, _.
    - destruct (Hlive m) as [st Hst]; [set_solver|]. unfold deref_store. rewrite Hst.
      cbn [mbind option_bind]. destruct (_ && _).
      + eexists _, _. split; [done|]. split; [done|]. cbn. set_solver.
      + destruct IH as (rc & o & -> & Ho); [set_solver|]. eexists _, _. split; [done|].
        destruct o; [|done]. cbn. set_solver. }
  rewrite Hl. by exists rc, o.
Qed.

Lemma timeout_msg_restated E d t m : msg_ok d m → restated m (timeout_msg E t m).
Proof.
  intros Hm. unfold timeout_msg. destruct (_ && _ && _); [|by eapply restated_refl].
  destruct Hm as (_ & _ & _ & Ho). split_and!; try done. cbn.
  destruct (state m); try done; auto.
Qed.

Lemma timeout_context_spec E others t s :
  cm_ok others s →
  wp (timeout_context E t) (λ _ s', step_ok others s s' ∧ mdb s' = mdb s ∧
    core <$> msgs (ctx s') = core <$> msgs (ctx s)) s.
Proof.
  intros Hok. destruct s as [c d]. apply wp_modify.
  assert (Hr : Forall2 restated (msgs c) (timeout_msg E t <$> msgs c)).
  { eapply Forall2_restated_fmap; [apply Hok|]. intros. by eapply timeout_msg_restated. }
  split; [by apply cm_ok_restate|]. split; [done|]. by apply restated_core.
Qed.

(** *** Reconnection *)

Lemma reset_out_restated d m :
  msg_ok d m → direction m = mosq_md_out → restated m (reset_out m).
Proof.
  intros Hm Hd. unfold reset_out. case_match; [by eapply restated_refl|].
  case_match; by split_and!.
Qed.

(** The effect of the first loop on one message. *)
Definition reset_msg (m : client_msg) : client_msg :=
  match direction m with mosq_md_out => reset_out m | mosq_md_in => m end.

(** The loop leaves everything but the queue alone. *)
Definition but_queue (c : mosquitto) : mosquitto :=
  set_msg_count12 (λ _, 0) (set_msg_count (λ _, 0) (set_last_msg (λ _, None) (set_msgs (λ _, []) c))).
Definition same_frame (c c' : mosquitto) : Prop := but_queue c' = but_queue c.

Lemma same_frame_fields c c' :
  same_frame c c' → ident c' = ident c ∧ c_bridge c' = c_bridge c ∧
  current_out_packet c' = current_out_packet c ∧ out_packet c' = out_packet c.
Proof.
  intros H. split_and!; [apply (f_equal ident) in H|apply (f_equal c_bridge) in H|
    apply (f_equal current_out_packet) in H|apply (f_equal out_packet) in H]; exact H.
Qed.

Lemma reset_loop_spec E n i s :
  let l := msgs (ctx s) in
  Forall (λ m, direction m = mosq_md_in → qos m = 2) (drop i l) →
  (length l - i ≤ n)%nat →
  wp (reset_loop E n i) (λ _ s', mdb s' = mdb s ∧ same_frame (ctx s) (ctx s') ∧
    msgs (ctx s') = take i l ++ (reset_msg <$> drop i l) ∧
    msg_count (ctx s') = msg_count (ctx s) + Z.of_nat (length (drop i l)) ∧
    msg_count12 (ctx s') = msg_count12 (ctx s) + count12 (drop i l) ∧
    last_msg (ctx s') = match last (drop i l) with
                        | Some m => Some (cm_ptr m) | None => last_msg (ctx s) end) s.
Proof.
  revert i s. induction n as [|n IH]; intros i s l Hin Hn; subst l; cbn [reset_loop];
    apply wp_bind, wp_get; destruct (msgs (ctx s) !! i) as [m|] eqn:Hi.
  1: { apply lookup_lt_Some in Hi. lia. }
  1, 3: apply wp_ret; apply lookup_ge_None in Hi;
    rewrite (drop_ge (msgs (ctx s)) i), (take_ge (msgs (ctx s)) i) by lia;
    unfold count12; cbn; rewrite app_nil_r, !Z.add_0_r; by split_and!.
  pose proof (lookup_lt_Some _ _ _ Hi) as Hlt.
  rewrite (drop_S (msgs (ctx s)) m i Hi) in Hin |- *. apply Forall_cons in Hin as [Hm Hin].
  apply wp_bind, wp_modify. apply wp_bind.
  set (s1 := CM (set_msg_count12 (λ n, if 0 <? qos m then n + 1 else n)
    (set_msg_count (λ n, n + 1) (set_last_msg (λ _, Some (cm_ptr m)) (ctx s)))) (mdb s)).
  assert (Hs1 : ∀ Q : unit → cm → Prop, Q tt s1 →
    wp (if 0 <? qos m then upd_ctx (set_msg_count12 (λ n, n + 1)) else ret tt) Q
      (CM (set_msg_count (λ n, n + 1) (set_last_msg (λ _, Some (cm_ptr m)) (ctx s))) (mdb s))).
  { intros Q HQ. unfold s1 in HQ. destruct (0 <? qos m); [by apply wp_modify|].
    apply wp_ret. by destruct s as [[] ?]. }
  apply Hs1. clear Hs1. apply wp_bind.
  assert (Hs2 : ∀ Q : unit → cm → Prop,
    Q tt (CM (set_msgs (λ l, alter reset_msg i l) (ctx s1)) (mdb s)) →
    wp (match direction m with
        | mosq_md_in => if qos m =? 2 then ret tt else _message_remove E i
        | mosq_md_out => upd_msg i reset_out
        end) Q s1).
  { intros Q HQ. destruct (direction m) eqn:Hd.
    - rewrite (proj2 (Z.eqb_eq _ _)) by auto. apply wp_ret.
      replace s1 with (CM (set_msgs (λ l, alter reset_msg i l) (ctx s1)) (mdb s)); [done|].
      unfold s1, set_msgs. cbn. f_equal.
      assert (Hfix : reset_msg m = m) by (unfold reset_msg; by rewrite Hd).
      rewrite (list_alter_fix reset_msg (msgs (ctx s)) i m Hi Hfix).
      by destruct s as [[] ?].
    - apply wp_modify.
      replace (set_msgs (alter reset_out i) (ctx s1))
        with (set_msgs (λ l, alter reset_msg i l) (ctx s1)); [done|].
      unfold set_msgs. f_equal. cbn. apply (list_alter_ext_at _ _ _ _ m); [done|].
      unfold reset_msg. by rewrite Hd. }
  apply Hs2. clear Hs2. eapply wp_mono.
  - apply IH; cbn; [|rewrite length_alter; lia].
    by rewrite drop_alter_lt by lia.
  - cbn. intros _ s' (Hd & Hfr & Hl & Hc & Hc12 & Hlast).
    rewrite drop_alter_lt in Hl, Hc, Hc12, Hlast by lia.
    split; [done|]. split; [done|]. split_and!.
    + rewrite Hl. erewrite take_S_r by (by rewrite list_lookup_alter_eq, Hi).
      rewrite take_alter_ge by lia. by rewrite <-(assoc_L (++)).
    + rewrite Hc. cbn [length]. lia.
    + rewrite Hc12, count12_cons. destruct (0 <? qos m); lia.
    + rewrite Hlast. rewrite last_cons. by destruct (last (drop (S i) (msgs (ctx s)))).
Qed.

Lemma unqueue_restated d m :
  msg_ok d m → (state m = mosq_ms_queued → direction m = mosq_md_out) → restated m (unqueue m).
Proof.
  intros Hm Hq. unfold unqueue. case_bool_decide; [|by eapply restated_refl].
  split_and!; try done. auto.
Qed.

Lemma unqueue_first_restated E d l :
  Forall (msg_ok d) l → Forall (λ m, state m = mosq_ms_queued → direction m = mosq_md_out) l →
  Forall2 restated l (unqueue_first E l).
Proof.
  intros Hl Hq. rewrite Forall_forall in Hq. unfold unqueue_first. case_match.
  - eapply Forall2_restated_fmap; [done|]. intros m Hm ?. eapply unqueue_restated; eauto.
  - rewrite <-(take_drop (Z.to_nat (max_inflight E)) l) in Hl at 1. apply Forall_app in Hl as [H1 H2].
    rewrite <-(take_drop (Z.to_nat (max_inflight E)) l) at 1. apply Forall2_app.
    + eapply Forall2_restated_fmap; [done|]. intros m Hm ?. eapply unqueue_restated; [done|].
      apply Hq. by eapply subseteq_take.
    + by eapply Forall2_restated_refl.
Qed.

(** The queue of a session that is resumed, as MQTT has it: incoming messages
    are as they were. A message to the client is sent again from the start, by
    its QoS; one of QoS 2 that was released is released again. Only a message
    that was queued and is not among the first [max_inflight] of the queue
    goes on waiting. *)
Definition from_start (m : client_msg) : msg_state :=
  match qos m with 0 => mosq_ms_publish_qos0 | 1 => mosq_ms_publish_qos1 | _ => mosq_ms_publish_qos2 end.
Definition resumed_msg (within : bool) (m : client_msg) : client_msg :=
  let again s := ClientMsg (cm_ptr m) (cm_store m) (timestamp m) (mid m) (qos m) (retain m) (direction m) s (dup m) in
  match direction m, state m with
  | mosq_md_in, _ => m
  | mosq_md_out, mosq_ms_queued => if within then again (from_start m) else m
  | mosq_md_out, mosq_ms_wait_for_pubcomp => again (if qos m =? 2 then mosq_ms_resend_pubrel else from_start m)
  | mosq_md_out, _ => again (from_start m)
  end.
Definition resumed_queue (E : env) (l : list client_msg) : list client_msg :=
  imap (λ i, resumed_msg ((max_inflight E =? 0) || (Z.of_nat i <? max_inflight E))) l.

Lemma resumed_msg_spec (within : bool) m :
  0 ≤ qos m ≤ 2 → (state m = mosq_ms_queued → direction m = mosq_md_out) →
  (if within then unqueue (reset_msg m) else reset_msg m) = resumed_msg within m.
Proof.
  intros Hq Hd. assert (Hc : qos m = 0 ∨ qos m = 1 ∨ qos m = 2) by lia.
  destruct m as [p s t i q r dir st du]. cbn [qos state direction] in *.
  destruct dir; [destruct st, within; try done; by specialize (Hd eq_refl)|].
  destruct Hc as [->|[->| ->]], st, within; done.
Qed.

Lemma resumed_queue_spec E l :
  Forall (λ m, 0 ≤ qos m ≤ 2) l → Forall (λ m, state m = mosq_ms_queued → direction m = mosq_md_out) l →
  unqueue_first E (reset_msg <$> l) = resumed_queue E l.
Proof.
  intros Hq Hd. apply list_eq. intros i. unfold resumed_queue. rewrite list_lookup_imap.
  destruct (l !! i) as [m|] eqn:Hi.
  2:{ apply lookup_ge_None in Hi. cbn. apply lookup_ge_None_2. unfold unqueue_first. case_match; rewrite ?length_app, ?length_fmap, ?length_take, ?length_drop, ?length_fmap; lia. }
  rewrite Forall_lookup in Hq, Hd. cbn [fmap option_fmap option_map]. rewrite <-(resumed_msg_spec _ m (Hq i m Hi) (Hd i m Hi)).
  unfold unqueue_first. destruct (max_inflight E =? 0) eqn:Hz; cbn [orb].
  - by rewrite !list_lookup_fmap, Hi.
  - destruct (Z.ltb_spec (Z.of_nat i) (max_inflight E)) as [Hlt|Hge].
    + rewrite lookup_app_l by (rewrite length_fmap, length_take, length_fmap; apply lookup_lt_Some in Hi; lia).
      by rewrite list_lookup_fmap, lookup_take_lt, list_lookup_fmap, Hi by lia.
    + rewrite <-fmap_take. rewrite lookup_app_r by (rewrite !length_fmap, length_take; lia). rewrite lookup_drop, list_lookup_fmap.
      rewrite !length_fmap, length_take. apply lookup_lt_Some in Hi as Hl.
      replace (_ + _)%nat with i by lia. by rewrite Hi.
Qed.

Lemma reset_msg_restated d m : msg_ok d m → restated m (reset_msg m).
Proof.
  intros Hm. unfold reset_msg. destruct (direction m) eqn:Hd; [by eapply restated_refl|].
  by eapply reset_out_restated.
Qed.

Lemma reset_msg_queued m : state (reset_msg m) = mosq_ms_queued → 0 ≤ qos m ≤ 2 →
  state m = mosq_ms_queued.
Proof.
  intros H Hq. pose proof (publish_state_outgoing (qos m) (state m) Hq) as Ho.
  unfold reset_msg, reset_out in H. destruct (direction m); [done|].
  destruct (bool_decide (state m = mosq_ms_queued)) eqn:E; [by apply bool_decide_eq_true in E|].
  destruct (_ && _); cbn in H; [done|]. by rewrite H in Ho.
Qed.

(** Whatever the counters and the last pointer were. *)
Lemma reconnect_reset_exact E s :
  Forall (λ m, direction m = mosq_md_in → qos m = 2) (msgs (ctx s)) →
  wp (mqtt3_db_message_reconnect_reset E) (λ rc s', rc = MOSQ_ERR_SUCCESS ∧ mdb s' = mdb s ∧ same_frame (ctx s) (ctx s') ∧
    msgs (ctx s') = unqueue_first E (reset_msg <$> msgs (ctx s)) ∧
    msg_count (ctx s') = Z.of_nat (length (msgs (ctx s))) ∧ msg_count12 (ctx s') = count12 (msgs (ctx s)) ∧
    last_msg (ctx s') = match last (msgs (ctx s)) with Some m => Some (cm_ptr m) | None => last_msg (ctx s) end) s.
Proof.
  intros Hm. unfold mqtt3_db_message_reconnect_reset. apply wp_bind, wp_modify, wp_bind, wp_get.
  apply wp_bind. eapply wp_mono; [apply reset_loop_spec|].
  { rewrite drop_0. exact Hm. }
  { cbn. lia. }
  cbn [ctx mdb]. rewrite drop_0, take_0. intros _ s' (Hd & Hfr & Hl & Hc & Hc12 & Hlast).
  apply wp_bind, wp_modify, wp_ret. split; [done|]. split; [done|]. split; [exact Hfr|].
  cbn [ctx msgs set_msgs msg_count msg_count12 last_msg]. split; [by rewrite Hl|]. split; [exact Hc|]. split; [exact Hc12|exact Hlast].
Qed.

Lemma reconnect_reset_spec E others s :
  cm_ok others s →
  Forall (λ m, state m = mosq_ms_queued → direction m = mosq_md_out) (msgs (ctx s)) →
  wp (mqtt3_db_message_reconnect_reset E) (λ rc s', rc = MOSQ_ERR_SUCCESS ∧
    step_ok others s s' ∧ mdb s' = mdb s ∧
    msgs (ctx s') = unqueue_first E (reset_msg <$> msgs (ctx s))) s.
Proof.
  intros Hok Hq. pose proof Hok as [[Hl Hn Hc H12] Hm Hs Hf Ho Hb].
  eapply wp_mono; [apply reconnect_reset_exact; eapply Forall_impl; [exact Hm|]; intros m (_ & ? & _); done|].
  intros rc [c' d'] (-> & Hd & Hfr & Hl' & Hc' & Hc12' & Hlast). destruct s as [c d]. cbn [ctx mdb] in *. subst d'.
  assert (Hr : Forall2 restated (msgs c) (reset_msg <$> msgs c)).
  { eapply Forall2_restated_fmap; [done|]. intros. by eapply reset_msg_restated. }
  pose proof (cm_ok_restate _ _ _ _ Hok Hr) as [Hok1 _ _ _].
  assert (Hr2 : Forall2 restated (reset_msg <$> msgs c) (unqueue_first E (reset_msg <$> msgs c))).
  { eapply unqueue_first_restated; [apply Hok1|]. apply Forall_forall.
    intros x (m & -> & Hin)%list_elem_of_fmap Hx. rewrite Forall_forall in Hq, Hm.
    destruct (Hm m Hin) as (? & _). apply reset_msg_queued in Hx; [|done].
    pose proof (reset_msg_restated d m (Hm m Hin)) as (_ & _ & _ & _ & _ & -> & _). auto. }
  pose proof (cm_ok_restate _ _ _ _ Hok1 Hr2) as [[[Hql Hqn Hqc Hq12] Hm2 Hs2 Hf2 _ _] _ _ _].
  apply same_frame_fields in Hfr as (Hid & Hbr & Hcur & Hout).
  split; [done|]. split; [|done]. split; [|exact Hid|done|done].
  split; cbn [ctx mdb] in *; cbn [msgs set_msgs last_msg msg_count msg_count12] in *; rewrite ?Hl'; try done.
  - split; rewrite ?Hl'; [|done|by rewrite Hc', <-Hqc|by rewrite Hc12', <-Hq12].
    rewrite Hlast, <-Hql, Hl. by destruct (last (msgs c)).
  - unfold outq_ok in *. by rewrite Hcur, Hout.
  - unfold bridge_ok in *. by rewrite Hbr.
Qed.

(** *** The write loop *)

Lemma net_step_ok others c c' d :
  cm_ok others (CM c d) → net_only c c' → outq_ok c' →
  step_ok others (CM c d) (CM c' d) ∧ msgs c' = msgs c.
Proof.
  intros [[? ? ? ?] ? ? ? ? ?] (? & ? & ? & ? & ? & ->) Ho. split; [|done].
  split; [|done|done|done]. by split.
Qed.

Lemma due_packet_safe E d m st c send :
  outq_ok c → bridge_ok c → msg_ok d m → heap d !! cm_store m = Some st →
  due_packet E m st = Some send → wp send (λ rc c', net_only c c' ∧ outq_ok c') c.
Proof.
  intros Hc Hb (_ & _ & Hout & Hdir) Hst Hdue. unfold due_packet in Hdue.
  assert (Hpub : outgoing (state m) = true →
    wp (let* t := mlift (ms_topic st) in
        _mosquitto_send_publish E (mid m) t (ms_payload st) (qos m) (retain m) (dup m))
      (λ rc c', net_only c c' ∧ outq_ok c') c).
  { intros Ho. rewrite (Hdir Ho) in Hout. destruct Hout as (st' & t & Hst' & Ht & ? & ? & _). simplify_eq.
    apply wp_bind. eapply wp_lift; [exact Ht|]. by apply send_publish_safe. }
  destruct (state m); simplify_eq; auto;
    by eapply (emits_safe _ _ (send_command_with_mid_emits E _ _)).
Qed.

Lemma mark_sent_restated E d m : msg_ok d m → restated m (mark_sent E m).
Proof.
  intros (_ & _ & _ & Ho). unfold mark_sent.
  destruct (state m) eqn:Hs; split_and!; try done; cbn; try rewrite Hs; auto.
Qed.

(** How many rounds of the loop a message can take. *)
Definition cost (m : client_msg) : nat := if decide (state m = mosq_ms_queued) then 2 else 1.
Definition weight (l : list client_msg) : nat := sum_list_with cost l.

Lemma promote_queued_cost E l :
  Forall2 (λ m m', cost m' ≤ cost m)%nat l (promote_queued E l).
Proof.
  induction l as [|m l IH]; [constructor|]. cbn [promote_queued].
  destruct (_ && _) eqn:Hb; [|by apply Forall_Forall2_diag, Forall_true]. constructor; [|done].
  apply andb_prop in Hb as [Hb%bool_decide_eq_true _]. unfold cost.
  rewrite (decide_True _ _ Hb). case_decide; lia.
Qed.

Lemma weight_le l l' i :
  Forall2 (λ m m', cost m' ≤ cost m)%nat l l' → (weight (drop i l') ≤ weight (drop i l))%nat.
Proof.
  intros H. apply (Forall2_drop _ _ _ i) in H. unfold weight.
  induction H; simpl; lia.
Qed.

Lemma weight_drop l i m :
  l !! i = Some m → weight (drop i l) = (cost m + weight (drop (S i) l))%nat.
Proof. intros H. by rewrite (drop_S _ _ _ H). Qed.

Lemma weight_length l : (length l ≤ weight l ≤ 2 * length l)%nat.
Proof. unfold weight, cost. induction l; simpl; [lia|]. case_decide; lia. Qed.

Lemma write_msgs_spec E others n i count s :
  cm_ok others s → (weight (drop i (msgs (ctx s))) ≤ n)%nat →
  wp (write_msgs E n i count) (λ rc s', step_ok others s s') s.
Proof.
  revert i count s. induction n as [|n IH]; intros i count s Hok Hn; cbn [write_msgs];
    apply wp_bind, wp_get; destruct (msgs (ctx s) !! i) as [m|] eqn:Hi.
  1: { rewrite (weight_drop _ _ _ Hi) in Hn. unfold cost in Hn. case_decide; lia. }
  1, 3: by apply wp_ret, step_refl.
  pose proof Hok as [_ Hm Hst _ Ho Hb]. rewrite Forall_lookup in Hm.
  pose proof (Hm i m Hi) as Hmi. rewrite (weight_drop _ _ _ Hi) in Hn.
  destruct (bool_decide (state m = mosq_ms_queued)) eqn:Hq.
  - apply bool_decide_eq_true in Hq. unfold cost in Hn. rewrite decide_True in Hn by done.
    destruct (bool_decide (direction m = mosq_md_in) && _) eqn:Hin.
    + apply andb_prop in Hin as [Hd%bool_decide_eq_true _].
      destruct Hmi as (_ & H2 & _). rewrite (proj2 (Z.eqb_eq _ _)) by auto.
      apply wp_bind. eapply wp_mono; [eapply (upd_msg_spec others); [done|exact Hi|by split_and!]|].
      intros _ s1 [H1 Hl1]. eapply wp_mono; [apply IH; [apply H1|]|].
      * rewrite Hl1. erewrite weight_drop by (by rewrite list_lookup_alter_eq, Hi).
        rewrite drop_alter_lt by lia. unfold cost. rewrite decide_False by done. lia.
      * intros rc s2 H2'. by etrans.
    + apply IH; [done|]. lia.
  - apply bool_decide_eq_false in Hq.
    unfold cost at 1 in Hn. rewrite decide_False in Hn by done.
    destruct (store_ok_live _ _ (cm_store m) Hst) as [st Hsm].
    { apply elem_of_app. left. by eapply list_elem_of_fmap_2, list_elem_of_lookup_2. }
    apply wp_bind. eapply wp_lift; [exact Hsm|].
    destruct (due_packet E m st) as [send|] eqn:Hdue; [|apply IH; [done|lia]].
    apply wp_bind, wp_on_ctx.
    eapply wp_mono; [by eapply due_packet_safe|]. intros rc c1 [Hn1 Ho1].
    destruct s as [c d]. cbn [ctx mdb] in *.
    destruct (net_step_ok _ _ _ _ Hok Hn1 Ho1) as [H1 Hl1].
    destruct (rc =? MOSQ_ERR_SUCCESS); [|by apply wp_ret].
    destruct (bool_decide (state m = mosq_ms_publish_qos0)).
    + apply wp_bind. eapply wp_mono; [eapply (message_remove_spec E others);
        [apply H1|cbn; by rewrite Hl1]|].
      intros _ s2 (H2 & Hl2 & _). cbn [ctx] in Hl2. rewrite Hl1 in Hl2.
      eapply wp_mono; [apply IH; [apply H2|]|].
      * rewrite Hl2. etrans; [apply weight_le, promote_queued_cost|].
        rewrite drop_delete_eq. lia.
      * intros rc' s3 H3. by etrans; [|etrans].
    + apply wp_bind. eapply wp_mono; [eapply (upd_msg_spec others);
        [apply H1|cbn; by rewrite Hl1|by eapply mark_sent_restated]|].
      intros _ s2 [H2 Hl2]. cbn [ctx] in Hl2. rewrite Hl1 in Hl2.
      eapply wp_mono; [apply IH; [apply H2|]|].
      * rewrite Hl2, drop_alter_lt by lia. lia.
      * intros rc' s3 H3. by etrans; [|etrans].
Qed.

Lemma message_write_spec E others s :
  cm_ok others s →
  wp (mqtt3_db_message_write E) (λ rc s', step_ok others s s') s.
Proof.
  intros Hok. unfold mqtt3_db_message_write. apply wp_bind, wp_get.
  destruct (sock (ctx s)); [|by apply wp_ret, step_refl].
  case_decide; [|by apply wp_ret, step_refl].
  destruct (id (ctx s)); [|by apply wp_ret, step_refl].
  apply write_msgs_spec; [done|]. rewrite drop_0. pose proof (weight_length (msgs (ctx s))). lia.
Qed.

(** *** What the write loop sends *)

(** The bytes due for a message in its state. *)
Definition due_bytes (d : msg_db) (m : client_msg) : bytes :=
  match state m with
  | mosq_ms_publish_qos0 | mosq_ms_publish_qos1 | mosq_ms_publish_qos2 =>
      match heap d !! cm_store m with
      | Some st => wire (publish_command (qos m) (retain m) (dup m))
                     (publish_body (mid m) (default [] (ms_topic st)) (ms_payload st) (qos m))
      | None => []
      end
  | mosq_ms_send_pubrec => wire PUBREC (enc_uint16 (mid m))
  | mosq_ms_resend_pubrel => wire (Z.lor PUBREL 2) (enc_uint16 (mid m))
  | mosq_ms_resend_pubcomp => wire PUBCOMP (enc_uint16 (mid m))
  | _ => []
  end.

(** The queue after everything due was sent: QoS 0 publications are gone, the
    others are marked. *)
Definition marked (E : env) (l : list client_msg) : list client_msg :=
  mark_sent E <$> filter (λ m, state m ≠ mosq_ms_publish_qos0) l.

(** What MQTT has the broker wait for next: after a PUBLISH of QoS 1 the
    PUBACK, after one of QoS 2 the PUBREC, after a PUBREC the PUBREL, after a
    PUBREL the PUBCOMP; after a PUBCOMP that was sent again the code waits for
    the PUBREL. A publication was sent now, and is a duplicate when it is sent
    again. A message that nothing was due for is as it was. *)
Definition awaiting (E : env) (m : client_msg) : client_msg :=
  let wait t d s := ClientMsg (cm_ptr m) (cm_store m) t (mid m) (qos m) (retain m) (direction m) s d in
  match state m with
  | mosq_ms_publish_qos1 => wait (now E) true mosq_ms_wait_for_puback
  | mosq_ms_publish_qos2 => wait (now E) true mosq_ms_wait_for_pubrec
  | mosq_ms_send_pubrec => wait (timestamp m) (dup m) mosq_ms_wait_for_pubrel
  | mosq_ms_resend_pubrel => wait (timestamp m) (dup m) mosq_ms_wait_for_pubcomp
  | mosq_ms_resend_pubcomp => wait (timestamp m) (dup m) mosq_ms_wait_for_pubrel
  | _ => m
  end.
Definition after_write (E : env) (l : list client_msg) : list client_msg :=
  awaiting E <$> filter (λ m, state m ≠ mosq_ms_publish_qos0) l.

Lemma marked_awaiting E l : marked E l = after_write E l.
Proof. apply list_fmap_ext. intros i [? ? ? ? ? ? ? st ?] _. unfold mark_sent, awaiting. by destruct st. Qed.

(** A connected client that is not a bridge and has no mount point, on a
    healthy socket. *)
Definition plain_client (E : env) (c : mosquitto) : Prop :=
  is_Some (sock c) ∧ mount_point E c = None ∧ c_bridge c = None ∧ wr c = [].

(** The publication fits a packet. *)
Definition fits (d : msg_db) (m : client_msg) : Prop :=
  ∀ st t, heap d !! cm_store m = Some st → ms_topic st = Some t →
    slen t < 65536 ∧ slen (publish_body (mid m) t (ms_payload st) (qos m)) < MAX_BODY.

Lemma due_bytes_keeps refs d d' m :
  keeps refs d d' → cm_store m ∈ refs → due_bytes d' m = due_bytes d m.
Proof.
  intros Hk Hm. specialize (Hk _ Hm). unfold due_bytes, content_at, content in *.
  destruct (heap d !! cm_store m), (heap d' !! cm_store m); cbn in Hk; try done.
  injection Hk. intros ? ? ? ? Hpl Ht ? ?. by rewrite Hpl, Ht.
Qed.

Lemma fits_keeps refs d d' m : keeps refs d d' → cm_store m ∈ refs → fits d m → fits d' m.
Proof.
  intros Hk Hm Hf st t Hst Ht. specialize (Hk _ Hm). unfold content_at, content in Hk.
  rewrite Hst in Hk. destruct (heap d !! cm_store m) as [st0|] eqn:E; [|done]. cbn in Hk.
  injection Hk. intros ? ? ? ? Hpl Ht' ? ?. rewrite Hpl. apply Hf; [done|congruence].
Qed.

(** Sending what is due for one message. *)
Lemma due_packet_emits E d m st c send :
  outq_ok c → plain_client E c → msg_ok d m → fits d m →
  heap d !! cm_store m = Some st → due_packet E m st = Some send →
  wp send (λ rc c', net_only c c' ∧ outq_ok c' ∧
    sent c' ++ pending c' = sent c ++ pending c ++ due_bytes d m ∧
    rc = MOSQ_ERR_SUCCESS ∧ wr c' = []) c.
Proof.
  intros Hc (Hsock & Hmp & Hbr & Hwr) (_ & _ & Hout & Hdir) Hfit Hst Hdue.
  assert (Hem : ∀ m' bs, emits m' bs → bs = due_bytes d m →
    wp m' (λ rc c', net_only c c' ∧ outq_ok c' ∧
      sent c' ++ pending c' = sent c ++ pending c ++ due_bytes d m ∧
      rc = MOSQ_ERR_SUCCESS ∧ wr c' = []) c).
  { intros m' bs H ->. eapply wp_mono; [by apply H|]. intros rc c' (? & ? & ? & _ & Hw).
    destruct (Hw Hwr) as [? Hrc]. split_and!; auto. }
  assert (Hpub : outgoing (state m) = true →
    due_bytes d m = wire (publish_command (qos m) (retain m) (dup m))
      (publish_body (mid m) (default [] (ms_topic st)) (ms_payload st) (qos m)) →
    wp (let* t := mlift (ms_topic st) in
        _mosquitto_send_publish E (mid m) t (ms_payload st) (qos m) (retain m) (dup m))
      (λ rc c', net_only c c' ∧ outq_ok c' ∧
        sent c' ++ pending c' = sent c ++ pending c ++ due_bytes d m ∧
        rc = MOSQ_ERR_SUCCESS ∧ wr c' = []) c).
  { intros Ho Hdb. rewrite (Hdir Ho) in Hout.
    destruct Hout as (st' & t & Hst' & Ht & _). assert (st' = st) as -> by congruence.
    apply wp_bind. eapply wp_lift; [exact Ht|]. unfold _mosquitto_send_publish.
    apply wp_bind, wp_get. destruct Hsock as [x Hsock]. rewrite Hsock, Hmp, Hbr. cbn [mlift].
    destruct (Hfit _ _ Hst Ht). eapply Hem; [by apply send_real_publish_emits|].
    rewrite Hdb, Ht. done. }
  unfold due_packet in Hdue.
  destruct (state m) eqn:Hs; try discriminate Hdue; injection Hdue as <-.
  1-3: apply Hpub; [done|]; unfold due_bytes; by rewrite Hs, Hst.
  - unfold _mosquitto_send_pubrel. apply (Hem _ _ (send_command_with_mid_emits E (Z.lor PUBREL 2) (mid m))).
    unfold due_bytes. by rewrite Hs.
  - unfold _mosquitto_send_pubcomp. apply (Hem _ _ (send_command_with_mid_emits E PUBCOMP (mid m))).
    unfold due_bytes. by rewrite Hs.
  - unfold _mosquitto_send_pubrec. apply (Hem _ _ (send_command_with_mid_emits E PUBREC (mid m))).
    unfold due_bytes. by rewrite Hs.
Qed.

Lemma promote_queued_none E l :
  Forall (λ m, state m ≠ mosq_ms_queued) l → promote_queued E l = l.
Proof.
  intros H. destruct l as [|m l]; [done|]. apply Forall_cons in H as [H _].
  cbn. by rewrite bool_decide_eq_false_2.
Qed.

Lemma due_list_keeps refs d d' l :
  keeps refs d d' → (cm_store <$> l) ⊆ refs → due_bytes d' <$> l = due_bytes d <$> l.
Proof.
  intros Hk Hs. apply list_fmap_ext. intros i m Hm. eapply due_bytes_keeps; [done|].
  apply Hs. by eapply list_elem_of_fmap_2, list_elem_of_lookup_2.
Qed.

Lemma fits_list_keeps refs d d' l :
  keeps refs d d' → (cm_store <$> l) ⊆ refs → Forall (fits d) l → Forall (fits d') l.
Proof.
  intros Hk Hs. rewrite !Forall_forall. intros H m Hm. eapply fits_keeps; [done| |auto].
  apply Hs. by apply list_elem_of_fmap_2.
Qed.

(** What is assumed of the queue, and what the loop ends with. *)
Definition write_pre (E : env) (others : list ptr) (i : nat) (s : cm) : Prop :=
  cm_ok others s ∧ plain_client E (ctx s) ∧
  Forall (λ m, state m ≠ mosq_ms_queued) (msgs (ctx s)) ∧
  Forall (fits (mdb s)) (drop i (msgs (ctx s))).

Definition write_post (E : env) (others : list ptr) (i : nat) (s : cm) (rc : Z) (s' : cm) : Prop :=
  rc = MOSQ_ERR_SUCCESS ∧ step_ok others s s' ∧
  msgs (ctx s') = take i (msgs (ctx s)) ++ marked E (drop i (msgs (ctx s))) ∧
  sent (ctx s') ++ pending (ctx s') =
    sent (ctx s) ++ pending (ctx s) ++ concat (due_bytes (mdb s) <$> drop i (msgs (ctx s))).

(** Nothing is due for the message at [i], or its packet went out. *)
Lemma write_post_advance E others i s s1 m rc s' :
  msgs (ctx s) !! i = Some m → state m ≠ mosq_ms_publish_qos0 →
  step_ok others s s1 → mdb s1 = mdb s →
  msgs (ctx s1) = alter (mark_sent E) i (msgs (ctx s)) →
  sent (ctx s1) ++ pending (ctx s1) = sent (ctx s) ++ pending (ctx s) ++ due_bytes (mdb s) m →
  write_post E others (S i) s1 rc s' → write_post E others i s rc s'.
Proof.
  intros Hi Hst H1 Hd Hl Hs (Hrc & H2 & Hl2 & Hs2). split; [done|]. split; [by etrans|].
  rewrite Hl, drop_alter_lt in Hl2, Hs2 by lia. rewrite (drop_S _ _ _ Hi). split.
  - rewrite Hl2. erewrite take_S_r by (by rewrite list_lookup_alter_eq, Hi).
    rewrite take_alter_ge by lia. unfold marked. rewrite filter_cons_True by done.
    by rewrite <-(assoc_L (++)).
  - rewrite Hs2, Hd. rewrite fmap_cons. cbn [concat].
    by rewrite (assoc_L (++) (sent (ctx s1))), Hs, <-!(assoc_L (++)).
Qed.

(** A QoS 0 publication went out and was removed. *)
Lemma write_post_removed E others i s s2 m rc s' :
  msgs (ctx s) !! i = Some m → state m = mosq_ms_publish_qos0 →
  step_ok others s s2 → msgs (ctx s2) = delete i (msgs (ctx s)) →
  keeps ((cm_store <$> delete i (msgs (ctx s))) ++ others) (mdb s) (mdb s2) →
  sent (ctx s2) ++ pending (ctx s2) = sent (ctx s) ++ pending (ctx s) ++ due_bytes (mdb s) m →
  write_post E others i s2 rc s' → write_post E others i s rc s'.
Proof.
  intros Hi Hst H1 Hl Hk Hs (Hrc & H2 & Hl2 & Hs2). split; [done|]. split; [by etrans|].
  pose proof (lookup_lt_Some _ _ _ Hi) as Hlt.
  rewrite Hl, drop_delete_eq in Hl2, Hs2. rewrite (drop_S _ _ _ Hi). split.
  - rewrite Hl2. unfold marked. rewrite filter_cons_False by naive_solver.
    by rewrite delete_take_drop, take_app_length' by (rewrite length_take; lia).
  - rewrite Hs2, fmap_cons. cbn [concat].
    rewrite (due_list_keeps _ _ _ (drop (S i) (msgs (ctx s))) Hk).
    + by rewrite (assoc_L (++) (sent (ctx s2))), Hs, <-!(assoc_L (++)).
    + rewrite <-drop_delete_eq, fmap_drop. etrans; [apply subseteq_drop|]. set_solver.
Qed.

Lemma no_queued_alter E i l m :
  l !! i = Some m → Forall (λ m, state m ≠ mosq_ms_queued) l →
  Forall (λ m, state m ≠ mosq_ms_queued) (alter (mark_sent E) i l).
Proof.
  intros Hi Hl. apply Forall_alter; [done|]. intros x _ Hx. unfold mark_sent.
  by destruct (state x).
Qed.

Lemma mark_sent_nothing E m st : due_packet E m st = None → state m ≠ mosq_ms_queued →
  mark_sent E m = m ∧ ∀ d, due_bytes d m = [].
Proof.
  unfold due_packet, mark_sent, due_bytes. destruct m as [? ? ? ? ? ? ? st' ?]. cbn.
  by destruct st'.
Qed.

Lemma plain_client_step E c c' :
  plain_client E c → ident c' = ident c → wr c' = wr c → plain_client E c'.
Proof.
  intros (Hs & Hm & Hb & Hw) Hid Hw'. unfold ident in Hid.
  assert (Hsock : sock c' = sock c) by congruence.
  assert (Hli : listener c' = listener c) by congruence.
  assert (Hbr : topics <$> c_bridge c' = topics <$> c_bridge c) by congruence.
  unfold plain_client, mount_point in *. rewrite Hb in Hbr.
  destruct (c_bridge c'); [done|]. rewrite Hsock, Hli, Hw'. done.
Qed.

Lemma write_msgs_exact E others n i count s :
  write_pre E others i s → (length (drop i (msgs (ctx s))) ≤ n)%nat →
  wp (write_msgs E n i count) (write_post E others i s) s.
Proof.
  revert i count s. induction n as [|n IH]; intros i count s (Hok & Hpl & Hnq & Hfit) Hn;
    cbn [write_msgs]; apply wp_bind, wp_get; destruct (msgs (ctx s) !! i) as [m|] eqn:Hi.
  1: { rewrite (drop_S _ _ _ Hi) in Hn. simpl in Hn. lia. }
  1, 3: apply wp_ret; apply lookup_ge_None in Hi; split; [done|]; split; [by apply step_refl|];
    rewrite (drop_ge (msgs (ctx s)) i), (take_ge (msgs (ctx s)) i) by lia;
    unfold marked; cbn; by rewrite !app_nil_r.
  pose proof Hok as [_ Hm Hst _ Ho Hb]. rewrite Forall_lookup in Hm, Hnq.
  pose proof (Hm i m Hi) as Hmi. pose proof (Hnq i m Hi) as Hq.
  rewrite <-Forall_lookup in Hnq. rewrite (drop_S _ _ _ Hi) in Hn, Hfit. cbn [length] in Hn.
  apply Forall_cons in Hfit as [Hfm Hfit].
  rewrite bool_decide_eq_false_2 by done.
  destruct (store_ok_live _ _ (cm_store m) Hst) as [st Hsm].
  { apply elem_of_app. left. by eapply list_elem_of_fmap_2, list_elem_of_lookup_2. }
  apply wp_bind. eapply wp_lift; [exact Hsm|].
  destruct (due_packet E m st) as [send|] eqn:Hdue.
  - apply wp_bind, wp_on_ctx. eapply wp_mono; [by eapply due_packet_emits|].
    intros rc c1 (Hn1 & Ho1 & Hs1 & -> & Hw1). cbn [Z.eqb].
    destruct s as [c d]. cbn [ctx mdb] in *.
    destruct (net_step_ok _ _ _ _ Hok Hn1 Ho1) as [H1 Hl1].
    assert (Hpl1 : plain_client E c1).
    { destruct Hn1 as (? & ? & ? & ? & ? & ->). by destruct Hpl as (? & ? & ? & _). }
    destruct (bool_decide (state m = mosq_ms_publish_qos0)) eqn:H0.
    + apply bool_decide_eq_true in H0. apply wp_bind.
      eapply wp_mono; [eapply (message_remove_spec E others); [apply H1|cbn; by rewrite Hl1]|].
      cbn [ctx mdb]. rewrite Hl1. intros _ s2 (H2 & Hl2 & Hk2 & Hse & Hpe & Hwr).
      assert (Hnq2 : Forall (λ m, state m ≠ mosq_ms_queued) (delete i (msgs c)))
        by (eapply Forall_subseteq; [apply list_subseteq_delete|done]).
      rewrite promote_queued_none in Hl2 by done.
      eapply wp_mono; [apply IH|].
      * split; [apply H2|]. split; [|split; [by rewrite Hl2|]].
        { eapply plain_client_step; [exact Hpl1|apply H2|done]. }
        rewrite Hl2, drop_delete_eq. eapply fits_list_keeps; [exact Hk2| |done].
        rewrite <-drop_delete_eq, fmap_drop. etrans; [apply subseteq_drop|]. set_solver.
      * rewrite Hl2, drop_delete_eq. lia.
      * intros rc s' Hp. eapply write_post_removed; [exact Hi|done|by etrans|done|done| |done].
        cbn [ctx mdb]. by rewrite Hse, Hpe, Hs1.
    + apply bool_decide_eq_false in H0. apply wp_bind, wp_modify. cbn [ctx mdb].
      assert (H2 : step_ok others (CM c1 d) (CM (set_msgs (alter (mark_sent E) i) c1) d)).
      { apply cm_ok_restate; [apply H1|]. rewrite Hl1.
        eapply Forall2_restated_alter; [apply Hok|done|by eapply mark_sent_restated]. }
      eapply wp_mono; [apply IH|].
      * split; [apply H2|]. split; [done|]. cbn [ctx mdb msgs set_msgs]. rewrite Hl1.
        split; [by eapply no_queued_alter|]. by rewrite drop_alter_lt by lia.
      * cbn [ctx msgs set_msgs]. rewrite Hl1, drop_alter_lt by lia. lia.
      * intros rc s' Hp. eapply write_post_advance; [exact Hi|done|by etrans|done| | |exact Hp].
        { cbn. by rewrite Hl1. }
        exact Hs1.
  - destruct (mark_sent_nothing _ _ _ Hdue Hq) as [Hms Hdb].
    eapply wp_mono; [apply IH|].
    + by split_and!.
    + lia.
    + intros rc s' Hp. eapply (write_post_advance E others i s s); [exact Hi| |by apply step_refl|done| | |exact Hp].
      * intros H0. unfold due_packet in Hdue. by rewrite H0 in Hdue.
      * symmetry. by eapply list_alter_fix.
      * by rewrite Hdb, app_nil_r.
Qed.

(** ** Sequences of operations *)

Inductive msg_op :=
| OpInsertOut (imid q : Z) (r : bool) (stored : ptr)
| OpInsertIn (imid : Z) (r : bool) (stored : ptr)
| OpDelete (dmid : Z) (dir : msg_direction)
| OpUpdate (umid : Z) (dir : msg_direction) (st : msg_state)
| OpDeleteAll
| OpTimeout (timeout : Z)
| OpReset
| OpWrite.

Definition run_op (E : env) (op : msg_op) : M cm unit :=
  match op with
  | OpInsertOut imid q r stored => mqtt3_db_message_insert E imid mosq_md_out q r stored ;;; ret tt
  | OpInsertIn imid r stored => mqtt3_db_message_insert E imid mosq_md_in 2 r stored ;;; ret tt
  | OpDelete dmid dir => mqtt3_db_message_delete E dmid dir ;;; ret tt
  | OpUpdate umid dir st => mqtt3_db_message_update E umid dir st ;;; ret tt
  | OpDeleteAll => mqtt3_db_messages_delete ;;; ret tt
  | OpTimeout t => timeout_context E t
  | OpReset => mqtt3_db_message_reconnect_reset E ;;; ret tt
  | OpWrite => mqtt3_db_message_write E ;;; ret tt
  end.

Fixpoint run_ops (E : env) (ops : list msg_op) : M cm unit :=
  match ops with [] => ret tt | op :: ops' => run_op E op ;;; run_ops E ops' end.

(** How the handlers call them: a stored message they insert is held by
    someone else meanwhile, and only an outgoing message is put in a state of
    the publishing side. *)
Definition op_pre (others : list ptr) (d : msg_db) (op : msg_op) : Prop :=
  match op with
  | OpInsertOut _ q _ stored => 0 ≤ q ≤ 2 ∧ stored ∈ others ∧ sendable d stored
  | OpInsertIn _ _ stored => stored ∈ others ∧ publishable d stored
  | OpUpdate _ dir st => outgoing st = true → dir = mosq_md_out
  | _ => True
  end.

(** A queue that is reset has no incoming message that is still queued. *)
Definition none_queued_in (s : cm) : Prop := Forall (λ m, state m = mosq_ms_queued → direction m = mosq_md_out) (msgs (ctx s)).
Fixpoint resets_ok (E : env) (ops : list msg_op) (s : cm) : Prop :=
  match ops with
  | [] => True
  | op :: ops' =>
      match op with OpReset => none_queued_in s | _ => True end ∧
      match run_op E op s with Some (_, s') => resets_ok E ops' s' | None => True end
  end.

#[local] Instance none_queued_in_dec s : Decision (none_queued_in s).
Proof. unfold none_queued_in. apply _. Defined.
#[export] Instance resets_ok_dec E ops s : Decision (resets_ok E ops s).
Proof.
  revert s. induction ops as [|op ops IH]; intros s; cbn [resets_ok]; [apply _|].
  apply and_dec; [destruct op; apply _|]. destruct (run_op E op s) as [[[] s']|]; [apply IH|apply _].
Defined.

Lemma op_pre_keeps others d d' op :
  keeps others d d' → op_pre others d op → op_pre others d' op.
Proof.
  intros Hk. destruct op; cbn; try done.
  - intros (? & ? & ?). split_and!; try done; try lia. by eapply keeps_sendable.
  - intros [? ?]. split; [done|]. by eapply keeps_publishable.
Qed.

Lemma run_op_spec E others op s :
  cm_ok others s → op_pre others (mdb s) op → match op with OpReset => none_queued_in s | _ => True end →
  wp (run_op E op) (λ _ s', step_ok others s s') s.
Proof.
  intros Hok Hp Hres. pose proof (ok_store _ _ Hok) as Hst.
  assert (Hlive : ∀ p, p ∈ others → ∃ st, heap (mdb s) !! p = Some st).
  { intros p Hin. eapply store_ok_live; [exact Hst|]. set_solver. }
  destruct op; cbn [run_op op_pre] in *; try apply wp_bind.
  - destruct Hp as (? & Hin & ?). destruct (Hlive _ Hin) as [st ?].
    eapply wp_mono; [by eapply message_insert_spec|]. intros rc s' (? & _). by apply wp_ret.
  - destruct Hp as [Hin ?]. destruct (Hlive _ Hin) as [st ?].
    eapply wp_mono; [eapply message_insert_spec; try done; lia|].
    intros rc s' (? & _). by apply wp_ret.
  - eapply wp_mono; [by apply message_delete_spec|]. intros rc s' (_ & ? & _). by apply wp_ret.
  - eapply wp_mono; [by apply message_update_spec|]. intros rc s' (? & _). by apply wp_ret.
  - eapply wp_mono; [by apply messages_delete_spec|]. intros rc s' (_ & ? & _). by apply wp_ret.
  - eapply wp_mono; [by apply timeout_context_spec|]. intros rc s' (? & _). done.
  - eapply wp_mono; [by apply reconnect_reset_spec|]. intros rc s' (_ & ? & _). by apply wp_ret.
  - eapply wp_mono; [by apply message_write_spec|]. intros rc s' ?. by apply wp_ret.
Qed.

Lemma run_ops_spec E others ops s :
  cm_ok others s → Forall (op_pre others (mdb s)) ops → resets_ok E ops s →
  wp (run_ops E ops) (λ _ s', step_ok others s s') s.
Proof.
  revert s. induction ops as [|op ops IH]; intros s Hok Hp Hr; cbn [run_ops resets_ok] in *.
  - by apply wp_ret, step_refl.
  - apply Forall_cons in Hp as [Hp Hps]. destruct Hr as [Hr Hrs]. apply wp_bind.
    destruct (wp_inv _ _ _ (run_op_spec E others op s Hok Hp Hr)) as ([] & s1 & Hrun & H1). unfold wp at 1. rewrite Hrun in Hrs |- *.
    eapply wp_mono; [apply IH; [apply H1| |done]|].
    + eapply Forall_impl; [exact Hps|]. intros op'. apply op_pre_keeps, H1.
    + intros [] s2 H2. by etrans.
Qed.

(** ** Properties *)

(** C6: every sequence of insertions, acknowledgements, state updates, retries,
    resets for a new connection, writes and purges of a client's queue, called
    as the handlers call them and with no reset while an incoming message is
    queued, runs without touching freed memory, failing an assertion or
    looping, and leaves the queue and the store consistent: [last_msg] is the
    last element, the two counters count, and every stored message's reference
    count is the number of references to it. Messages held by others are
    unchanged. *)
Theorem message_ops_safe E others ops s :
  cm_ok others s → Forall (op_pre others (mdb s)) ops → resets_ok E ops s →
  ∃ s', run_ops E ops s = Some (tt, s') ∧ cm_ok others s' ∧ keeps others (mdb s) (mdb s').
Proof.
  intros Hok Hp Hr. destruct (wp_inv _ _ _ (run_ops_spec E others ops s Hok Hp Hr))
    as ([] & s' & E' & [? _ ? _]). eauto.
Qed.

(** A store with one message, held by somebody else. *)
Definition empty_db : msg_db := MsgDb ∅ [] 0 0 0 1.
Definition sample_db : msg_db :=
  default empty_db (store_ref 1 (snd (mqtt3_db_message_store (str "src") 0 (Some (str "a/b")) 1
                                        [1; 2] false 0 empty_db))).
Definition sample_cm : cm := CM idle_context sample_db.

Lemma empty_db_ok : store_ok [] empty_db.
Proof.
  split; [intros s; cbn; by rewrite lookup_empty|].
  split; cbn; [apply NoDup_nil_2| |done|]; intros s; rewrite lookup_empty.
  - split; [set_solver|by intros [? ?]].
  - by intros [? ?].
Qed.

Lemma sample_cm_ok : cm_ok [1%positive] sample_cm ∧ sendable sample_db 1.
Proof.
  destruct (message_store_ok [] empty_db (str "src") 0 (Some (str "a/b")) 1 [1; 2] false 0
    empty_db_ok) as (s & d & m & Ed & Hok & _ & Hh & Hs & _ & _ & _ & Ht & Hp & Hq & _).
  cbn in Hs. subst s. assert (Hm : heap d !! 1%positive = Some m)
    by (by rewrite Hh, lookup_insert_eq).
  destruct (store_ref_ok [] d 1%positive m Hok Hm) as (d' & Ed' & Hok' & Hh' & _ & _).
  assert (sample_db = d') as Hd by (unfold sample_db; rewrite Ed; cbn [snd]; by rewrite Ed').
  split.
  - unfold sample_cm. rewrite Hd. split; cbn; try done; try constructor; try done.
    apply NoDup_nil_2.
  - rewrite Hd. eexists _, _. rewrite Hh', lookup_insert_eq. split; [done|]. cbn.
    split; [exact Ht|]. by rewrite Hp, Hq.
Qed.

Lemma sample_publishable : publishable sample_db 1.
Proof.
  destruct sample_cm_ok as [_ (st & t & Hst & Ht & Hs)]. exists st. split; [done|].
  intros t' Ht'. assert (t' = str "a/b") as ->.
  { vm_compute in Hst. injection Hst as <-. by injection Ht'. }
  split_and!; [by_compute|split; by_compute|]. by exists st, t.
Qed.

Lemma message_ops_safe_witness :
  ∃ s', run_ops sample_env
    [OpInsertOut 7 1 false 1; OpInsertOut 8 2 true 1; OpInsertIn 9 false 1; OpWrite; OpTimeout 10; OpReset; OpWrite;
     OpDelete 7 mosq_md_out; OpUpdate 8 mosq_md_out mosq_ms_wait_for_pubcomp; OpDeleteAll]
    sample_cm = Some (tt, s') ∧ cm_ok [1%positive] s' ∧ keeps [1%positive] (mdb sample_cm) (mdb s').
Proof.
  destruct sample_cm_ok as [Hok Hs]. pose proof sample_publishable as Hpub.
  apply message_ops_safe; [exact Hok| |by_compute].
  repeat (apply Forall_cons; split; [cbn [op_pre]|]); [..|apply Forall_nil; exact I];
    split_and?; first [exact I|exact Hs|exact Hpub|by_compute|lia|done].
Defined.

(** An acknowledgement removes exactly the message it acknowledges. When
    no two messages of the queue have the same id and direction,
    [mqtt3_db_message_delete] takes out the one with the id and direction
    given, if there is one, and keeps all the others in their order. *)
Lemma message_delete_exact E others k dir s :
  cm_ok others s → NoDup (key <$> msgs (ctx s)) →
  ∃ s', mqtt3_db_message_delete E k dir s = Some (MOSQ_ERR_SUCCESS, s') ∧
    core <$> msgs (ctx s') = filter (λ x, x.2 ≠ (k, dir)) (core <$> msgs (ctx s)) ∧
    cm_ok others s'.
Proof.
  intros Hok Hn. destruct (wp_inv _ _ _ (message_delete_spec E others k dir s Hok))
    as (rc & s' & E' & -> & [? _ _ _] & Hw). exists s'. split; [done|]. split; [|done].
  by apply Hw.
Qed.

(** Two messages queued for a connected client. *)
Definition sample_ops : list msg_op := [OpInsertOut 7 1 false 1; OpInsertOut 8 2 true 1].
Definition run_state {S A} (m : M S A) (s : S) : S :=
  match m s with Some (_, s') => s' | None => s end.
Definition sample_cm2 : cm := run_state (run_ops sample_env sample_ops) sample_cm.

Lemma sample_cm2_ok : cm_ok [1%positive] sample_cm2.
Proof.
  destruct sample_cm_ok as [Hok Hs].
  assert (H : wp (run_ops sample_env sample_ops) (λ _ s', step_ok [1%positive] sample_cm s') sample_cm).
  { apply run_ops_spec; [exact Hok| |by_compute].
    repeat constructor; try done; try set_solver; try lia; exact Hs. }
  destruct (wp_inv _ _ _ H) as ([] & s' & E' & [? _ _ _]).
  unfold sample_cm2, run_state. by rewrite E'.
Qed.

(** The messages of QoS 1 and 2 that are not waiting in the queue. *)
Definition inflight12 (l : list client_msg) : Z :=
  Z.of_nat (length (filter (λ m, 0 < qos m ∧ state m ≠ mosq_ms_queued) l)).

Lemma inflight12_le l : inflight12 l ≤ count12 l.
Proof.
  unfold inflight12, count12. apply inj_le.
  induction l as [|m l IH]; [done|]. rewrite !filter_cons.
  repeat case_decide; cbn [length]; try lia; naive_solver.
Qed.

Lemma inflight12_app l k : inflight12 (l ++ k) = inflight12 l + inflight12 k.
Proof. unfold inflight12. rewrite filter_app, length_app. lia. Qed.
Lemma count12_app l k : count12 (l ++ k) = count12 l + count12 k.
Proof. unfold count12. rewrite filter_app, length_app. lia. Qed.
Lemma inflight12_single m :
  inflight12 [m] = if (0 <? qos m) && negb (bool_decide (state m = mosq_ms_queued)) then 1 else 0.
Proof.
  unfold inflight12. rewrite filter_cons.
  destruct (Z.ltb_spec 0 (qos m)); case_bool_decide; case_decide; try done; naive_solver lia.
Qed.

(** What a successful call of [mqtt3_db_message_insert] decided. *)
Lemma message_insert_state E others s imid dir q r stored st :
  cm_ok others s → heap (mdb s) !! stored = Some st → 0 ≤ q ≤ 2 →
  (dir = mosq_md_in → q = 2) → carries (mdb s) dir stored →
  wp (mqtt3_db_message_insert E imid dir q r stored) (λ rc s', cm_ok others s' ∧
    (msgs (ctx s') = msgs (ctx s) ∨
     ∃ p mst, insert_state E (ctx s) dir q = inr (mst, rc) ∧
       msgs (ctx s') = msgs (ctx s) ++ [ClientMsg p stored (now E) imid q r dir mst false])) s.
Proof.
  intros Hok Hst Hq Hin Hout. unfold mqtt3_db_message_insert. apply wp_bind, wp_get.
  destruct (id (ctx s)) as [cid|]; [|apply wp_ret; by split; [|left]].
  apply wp_bind. eapply wp_lift; [exact Hst|].
  destruct (_ && _ && _ && _); [apply wp_ret; by split; [|left]|].
  destruct (insert_state E (ctx s) dir q) as [[rc dropping]|[mst rc]] eqn:Hins.
  { apply wp_bind. destruct dropping.
    - apply wp_modify, wp_ret. split; [by apply dropping_step|by left].
    - apply wp_ret, wp_ret. by split; [|left]. }
  destruct (insert_state_inr _ _ _ _ _ _ Hq Hins) as (Hinv & Hnpub & _).
  apply wp_bind, wp_assert; [by rewrite bool_decide_eq_false_2|].
  apply wp_bind. eapply wp_mono; [apply (link_msg_spec E others); naive_solver|].
  intros _ s1 (H1 & C1 & Hh1 & M1). apply wp_bind.
  eapply wp_mono; [eapply (record_dest_spec E others); [apply H1|exact Hh1]|].
  intros _ s2 (H2 & C2 & M2). apply wp_bind.
  eapply wp_mono; [apply (lazy_bridge_spec others); apply H2|].
  intros _ s3 (H3 & D3 & M3). apply wp_ret. split; [apply H3|].
  right. rewrite M3, M2, M1. eauto.
Qed.

(** Insertion respects the limits. With both limits set, a connected
    client's queue of QoS 1 and 2 messages never grows beyond
    [max_inflight + max_queued] and an insertion never puts more than
    [max_inflight] of them in flight; a disconnected client's never grows
    beyond [max_queued]. *)
Lemma message_insert_limits E others s imid dir q r stored st :
  cm_ok others s → heap (mdb s) !! stored = Some st → 0 ≤ q ≤ 2 →
  (dir = mosq_md_in → q = 2) → carries (mdb s) dir stored →
  0 < max_inflight E → 0 < max_queued E →
  ∃ rc s', mqtt3_db_message_insert E imid dir q r stored s = Some (rc, s') ∧
    count12 (msgs (ctx s')) ≤
      Z.max (count12 (msgs (ctx s)))
        (max_queued E + if bool_decide (is_Some (sock (ctx s))) then max_inflight E else 0) ∧
    inflight12 (msgs (ctx s')) ≤ Z.max (inflight12 (msgs (ctx s))) (max_inflight E).
Proof.
  intros Hok Hst Hq Hin Hout Hi Hmq.
  destruct (wp_inv _ _ _ (message_insert_state E others s imid dir q r stored st Hok Hst Hq Hin Hout))
    as (rc & s' & E' & _ & [Hl|(p & mst & Hins & Hl)]);
    (exists rc, s'; split; [done|]); rewrite Hl; [lia|].
  pose proof (q_count12 _ (ok_queue _ _ Hok)) as H12. pose proof (inflight12_le (msgs (ctx s))).
  rewrite count12_app, inflight12_app, inflight12_single, count12_cons.
  change (count12 []) with 0. cbn [qos state]. unfold insert_state in Hins. rewrite H12 in Hins.
  destruct (Z.ltb_spec 0 q); cbn [andb]; [|lia].
  rewrite (proj2 (Z.eqb_neq q 0)), (proj2 (Z.eqb_neq (max_inflight E) 0)),
    (proj2 (Z.eqb_neq (max_queued E) 0)), (proj2 (Z.ltb_lt 0 (max_queued E))) in Hins by lia.
  cbn [orb andb negb] in Hins. destruct (sock (ctx s)).
  - rewrite bool_decide_eq_true_2 by done.
    destruct (Z.ltb_spec (count12 (msgs (ctx s))) (max_inflight E)).
    + case_bool_decide; cbn; lia.
    + destruct (Z.ltb_spec (count12 (msgs (ctx s)) - max_inflight E) (max_queued E)); [|done].
      simplify_eq. rewrite bool_decide_eq_true_2 by done. cbn. lia.
  - rewrite bool_decide_eq_false_2 by (by intros [? ?]).
    destruct (Z.leb_spec (max_queued E) (count12 (msgs (ctx s)))); [done|].
    simplify_eq. rewrite bool_decide_eq_true_2 by done. cbn. lia.
Qed.

(** A message that was queued, and not retained, has recorded its client. *)
Lemma message_insert_dest E others s imid q stored st :
  cm_ok others s → heap (mdb s) !! stored = Some st → 0 ≤ q ≤ 2 → sendable (mdb s) stored →
  allow_duplicate_messages E = false →
  wp (mqtt3_db_message_insert E imid mosq_md_out q false stored) (λ _ s',
    msgs (ctx s') = msgs (ctx s) ∨ ∃ cid st', id (ctx s') = Some cid ∧
      heap (mdb s') !! stored = Some st' ∧ cid ∈ dest_ids st') s.
Proof.
  intros Hok Hst Hq Hs Hdup. unfold mqtt3_db_message_insert. apply wp_bind, wp_get.
  destruct (id (ctx s)) as [cid|] eqn:Hid; [|by apply wp_ret; left].
  apply wp_bind. eapply wp_lift; [exact Hst|].
  destruct (_ && _ && _ && _); [by apply wp_ret; left|].
  destruct (insert_state E (ctx s) mosq_md_out q) as [[rc' dr]|[mst rc']] eqn:Hins.
  { apply wp_bind. destruct dr; [apply wp_modify, wp_ret; by left|apply wp_ret, wp_ret; by left]. }
  destruct (insert_state_inr _ _ _ _ _ _ Hq Hins) as (Hinv & _).
  apply wp_bind, wp_assert; [by rewrite bool_decide_eq_false_2|].
  apply wp_bind. eapply wp_mono; [apply (link_msg_spec E others); naive_solver|].
  intros _ s1 (H1 & _ & Hh1 & _). apply wp_bind. unfold record_dest. rewrite Hdup. cbn [negb andb].
  rewrite bool_decide_eq_true_2 by done. cbn [andb].
  destruct (upd_dest_ids_ok _ _ stored _ (λ l, l ++ [cid]) (ok_store _ _ (step_inv _ _ _ H1)) Hh1)
    as (d' & Ed & _ & Hh & _).
  eapply wp_on_mdb; [by rewrite Ed|]. apply wp_bind.
  assert (Hid1 : id (ctx s1) = Some cid).
  { pose proof (step_ident _ _ _ H1) as Hi. unfold ident in Hi. congruence. }
  assert (Hfin : ∀ s3, id (ctx s3) = id (ctx s1) → mdb s3 = d' →
    ∃ cid st', id (ctx s3) = Some cid ∧ heap (mdb s3) !! stored = Some st' ∧ cid ∈ dest_ids st').
  { intros s3 Hi3 Hd3. eexists _, _. rewrite Hi3, Hd3, Hh, lookup_insert_eq.
    split_and!; [done|done|]. cbn. set_solver. }
  unfold lazy_bridge. apply wp_bind, wp_get. cbn [ctx].
  destruct (c_bridge (ctx s1)); [destruct (_ && _ && _)|];
    [apply wp_modify|apply wp_ret|apply wp_ret]; apply wp_ret; right; by apply Hfin.
Qed.

(** With [allow_duplicate_messages] off, a message is queued at most once
    per client however many of its subscriptions match: once it has been
    queued, another insertion of the same stored message for the same client
    changes nothing, whatever id and QoS it comes with. *)
Lemma message_insert_once E others s imid imid' q q' stored st rc s' :
  cm_ok others s → heap (mdb s) !! stored = Some st → 0 ≤ q ≤ 2 → sendable (mdb s) stored →
  allow_duplicate_messages E = false →
  mqtt3_db_message_insert E imid mosq_md_out q false stored s = Some (rc, s') →
  msgs (ctx s') ≠ msgs (ctx s) →
  mqtt3_db_message_insert E imid' mosq_md_out q' false stored s' = Some (MOSQ_ERR_SUCCESS, s').
Proof.
  intros Hok Hst Hq Hs Hdup Hrun Hne.
  pose proof (message_insert_dest E others s imid q stored st Hok Hst Hq Hs Hdup) as Hpost.
  destruct (wp_run _ _ _ _ _ Hpost Hrun) as [?|(cid & st' & Hid & Hst' & Hin)]; [done|].
  unfold mqtt3_db_message_insert, bind, mget. rewrite Hid. unfold deref_store. rewrite Hst'.
  cbn [mlift ret]. rewrite Hdup, !bool_decide_eq_true_2 by done. done.
Qed.

Definition no_dup_env : env :=
  Env 20 100 false false false true true [] None 0 [] [] 1000 1000.

(** C29: [mqtt3_db_message_write] sends exactly what is due. For a connected
    client that is not a bridge and has no mount point, on a socket that takes
    everything, none of whose messages is still queued or too long for a
    packet, it succeeds, appends to the stream the packet each message is due
    in its state, one per message and in the order of the queue, removes the
    QoS 0 publications and leaves every other message waiting for the packet
    that MQTT has the client answer with. *)
Theorem message_write_exact E others s cid :
  cm_ok others s → plain_client E (ctx s) →
  cstate (ctx s) = mosq_cs_connected → id (ctx s) = Some cid →
  Forall (λ m, state m ≠ mosq_ms_queued) (msgs (ctx s)) →
  Forall (fits (mdb s)) (msgs (ctx s)) →
  ∃ s', mqtt3_db_message_write E s = Some (MOSQ_ERR_SUCCESS, s') ∧
    msgs (ctx s') = after_write E (msgs (ctx s)) ∧
    sent (ctx s') ++ pending (ctx s') =
      sent (ctx s) ++ pending (ctx s) ++ concat (due_bytes (mdb s) <$> msgs (ctx s)) ∧
    cm_ok others s'.
Proof.
  intros Hok Hpl Hcs Hid Hnq Hfit.
  assert (Hw : wp (mqtt3_db_message_write E) (write_post E others 0 s) s).
  { unfold mqtt3_db_message_write. apply wp_bind, wp_get.
    pose proof Hpl as ([x Hx] & _). rewrite Hx, decide_True, Hid by done.
    apply write_msgs_exact; [by split_and!|]. rewrite drop_0. lia. }
  destruct (wp_inv _ _ _ Hw) as (rc & s' & E' & -> & [? _ _ _] & Hl & Hs).
  rewrite drop_0, take_0 in *. rewrite marked_awaiting in Hl. eauto.
Qed.

Lemma message_write_exact_witness :
  ∃ s', mqtt3_db_message_write sample_env sample_cm2 = Some (MOSQ_ERR_SUCCESS, s') ∧
    (state <$> msgs (ctx s')) = [mosq_ms_wait_for_puback; mosq_ms_wait_for_pubrec] ∧
    sent (ctx s') ++ pending (ctx s') =
      [50; 9; 0; 3; 97; 47; 98; 0; 7; 1; 2; 53; 9; 0; 3; 97; 47; 98; 0; 8; 1; 2] ∧
    cm_ok [1%positive] s'.
Proof.
  destruct (message_write_exact sample_env [1%positive] sample_cm2 (str "c1")) as (s' & Hrun & Hm & Hs & Hok);
    [exact sample_cm2_ok|by_compute|reflexivity|reflexivity|by_compute|..].
  2:{ exists s'. split; [exact Hrun|]. split; [rewrite Hm; vm_compute; reflexivity|]. split; [rewrite Hs; vm_compute; reflexivity|exact Hok]. }
  let l := eval vm_compute in (msgs (ctx sample_cm2)) in
  change (Forall (fits (mdb sample_cm2)) l).
  apply Forall_cons; split; [|apply Forall_cons; split; [|apply Forall_nil_2]];
    intros st t Hst Ht; vm_compute in Hst, Ht; simplify_eq; vm_compute; by split.
Defined.

(** *** Where the code differs from what it means to do *)

Lemma delete_loop_skip E n k dir i idx s :
  (∀ j m, (i ≤ j)%nat → msgs (ctx s) !! j = Some m → key m ≠ (k, dir) ∧ state m ≠ mosq_ms_queued) →
  (length (msgs (ctx s)) - i ≤ n)%nat →
  delete_loop E n k dir i idx true s = Some (MOSQ_ERR_SUCCESS, s).
Proof.
  revert i idx. induction n as [|n IH]; intros i idx Hk Hn; cbn [delete_loop];
    unfold bind, mget; destruct (msgs (ctx s) !! i) as [m|] eqn:Hi; try done.
  - apply lookup_lt_Some in Hi. lia.
  - destruct (Hk i m) as [Hkey Hst]; [lia|done|].
    rewrite bool_decide_eq_false_2 by done. cbn [andb ret].
    assert ((mid m =? k) && bool_decide (direction m = dir) = false) as ->.
    { apply not_true_iff_false. intros [H1%Z.eqb_eq H2%bool_decide_eq_true]%andb_prop.
      apply Hkey. unfold key. congruence. }
    rewrite andb_true_r. destruct (_ <? _); [done|]. apply IH; [|lia].
    intros j m' Hj. apply Hk. lia.
Qed.

Lemma promote_queued_all E l :
  0 < max_inflight E → Forall (λ m, state m = mosq_ms_queued) l →
  promote_queued E l = promote <$> l.
Proof.
  intros Hm. induction 1 as [|m l Hs _ IH]; [done|]. cbn [promote_queued].
  rewrite bool_decide_eq_true_2, (proj2 (Z.ltb_lt _ _)), IH by done. done.
Qed.

(** [_message_remove] does not enforce [max_inflight]. Its loop never
    increments the counter it compares with the limit, so that when the last
    message in flight is acknowledged all the queued messages behind it, and
    not just [max_inflight] of them, are put in flight at once. *)
Lemma acknowledgement_exceeds_inflight E others s m qs :
  cm_ok others s → msgs (ctx s) = m :: qs → 0 < max_inflight E →
  state m ≠ mosq_ms_queued →
  Forall (λ m', state m' = mosq_ms_queued ∧ direction m' = mosq_md_out ∧ 0 < qos m' ∧
                key m' ≠ key m) qs →
  ∃ s', mqtt3_db_message_delete E (mid m) (direction m) s = Some (MOSQ_ERR_SUCCESS, s') ∧
    inflight12 (msgs (ctx s')) = Z.of_nat (length qs).
Proof.
  intros Hok Hl Hmax Hst Hqs.
  destruct (wp_inv _ _ _ (message_remove_spec E others s 0 m Hok ltac:(by rewrite Hl)))
    as ([] & s1 & Erm & [Hok1 _ _ _] & Hl1 & _). rewrite Hl in Hl1. cbn in Hl1.
  rewrite promote_queued_all in Hl1; [|done|eapply Forall_impl; [exact Hqs|naive_solver]].
  assert (Hprom : Forall (λ m', key m' ≠ key m ∧ 0 < qos m' ∧ outgoing (state m') = true)
                    (promote <$> qs)).
  { apply Forall_fmap. pose proof (ok_msgs _ _ Hok) as Hm. rewrite Hl in Hm.
    apply Forall_cons in Hm as [_ Hm]. rewrite Forall_forall in Hm, Hqs |- *.
    intros x Hx. destruct (Hqs x Hx) as (? & Hd & ? & ?). destruct (Hm x Hx) as (? & _).
    cbn. unfold promote. rewrite Hd. split_and!; try done.
    by apply publish_state_outgoing. }
  exists s1. split.
  - unfold mqtt3_db_message_delete, bind at 1, mget at 1. rewrite Hl. cbn [length delete_loop].
    unfold bind, mget. rewrite Hl. cbn [lookup list_lookup].
    rewrite bool_decide_eq_false_2 by done. cbn [andb ret].
    rewrite Z.eqb_refl, bool_decide_eq_true_2 by done. cbn [andb]. rewrite Erm.
    rewrite (proj2 (Z.ltb_ge _ _)) by lia. apply delete_loop_skip.
    + rewrite Hl1. intros j x _ Hx. rewrite Forall_lookup in Hprom.
      destruct (Hprom j x Hx) as (? & _ & Ho). split; [done|]. by destruct (state x).
    + rewrite Hl1, length_fmap. lia.
  - rewrite Hl1. unfold inflight12. f_equal. rewrite filter_all_id.
    + by rewrite length_fmap.
    + eapply Forall_impl; [exact Hprom|]. intros x (_ & ? & Ho). split; [done|].
      by destruct (state x).
Qed.

Definition one_inflight : env :=
  Env 1 100 true false false true true [] None 0 [] [] 1000 1000.

(** One message in flight and three queued, the limit being one. *)
Definition sample_ops4 : list msg_op :=
  [OpInsertOut 7 1 false 1; OpInsertOut 8 1 false 1; OpInsertOut 9 1 false 1;
   OpInsertOut 10 1 false 1].
Definition sample_cm4 : cm :=
  Eval vm_compute in run_state (run_ops one_inflight sample_ops4) sample_cm.

Lemma sample_cm4_ok : cm_ok [1%positive] sample_cm4.
Proof.
  destruct sample_cm_ok as [Hok Hs].
  assert (H : wp (run_ops one_inflight sample_ops4) (λ _ s', step_ok [1%positive] sample_cm s')
    sample_cm).
  { apply run_ops_spec; [exact Hok| |by_compute].
    repeat constructor; try done; try set_solver; try lia; exact Hs. }
  destruct (wp_inv _ _ _ H) as ([] & s' & E' & [? _ _ _]).
  assert (sample_cm4 = run_state (run_ops one_inflight sample_ops4) sample_cm) as ->
    by (vm_compute; reflexivity).
  unfold run_state. by rewrite E'.
Qed.

(** A publication without a topic fails the assertion. *)
Lemma write_msgs_no_topic E n count s m st :
  msgs (ctx s) !! 0%nat = Some m → state m = mosq_ms_publish_qos2 →
  heap (mdb s) !! cm_store m = Some st → ms_topic st = None →
  write_msgs E (S n) 0 count s = None.
Proof.
  intros Hm Hs Hst Ht. cbn [write_msgs]. unfold bind at 1, mget at 1. rewrite Hm.
  rewrite bool_decide_eq_false_2 by (by rewrite Hs).
  unfold bind at 1, mlift at 1, deref_store. rewrite Hst. cbn [ret].
  unfold due_packet. rewrite Hs, Ht. done.
Qed.

(** C38: [mqtt3_db_message_reconnect_reset] takes a queued incoming message for
    an outgoing one. Its second loop does not look at the direction: a QoS 2
    message the client sent, and that was queued because the limit was
    reached, ends up in a publish state, so that the broker will publish it
    back to its sender. If the message had been refused, and so has no topic,
    the next [mqtt3_db_message_write] fails the assertion of
    [_mosquitto_send_publish]. *)
Theorem reconnect_publishes_incoming E s m st cid :
  msgs (ctx s) = [m] → direction m = mosq_md_in → qos m = 2 → state m = mosq_ms_queued →
  0 ≤ max_inflight E → is_Some (sock (ctx s)) → cstate (ctx s) = mosq_cs_connected →
  id (ctx s) = Some cid → heap (mdb s) !! cm_store m = Some st → ms_topic st = None →
  ∃ s', mqtt3_db_message_reconnect_reset E s = Some (MOSQ_ERR_SUCCESS, s') ∧
    msgs (ctx s') = [set_state mosq_ms_publish_qos2 m] ∧
    mqtt3_db_message_write E s' = None.
Proof.
  intros Hl Hd Hq Hst Hmax [x Hsock] Hcs Hid Hstore Htopic.
  set (s0 := CM (set_msg_count12 (λ _, 0) (set_msg_count (λ _, 0) (ctx s))) (mdb s)).
  assert (Hl0 : msgs (ctx s0) = [m]) by done.
  destruct (wp_inv _ _ _ (reset_loop_spec E 1 0 s0 ltac:(rewrite Hl0; cbn; auto)
    ltac:(rewrite Hl0; done))) as ([] & [c1 d1] & E1 & Hd1 & Hfr & Hl1 & _).
  apply same_frame_fields in Hfr as (Hfr & _).
  rewrite Hl0 in Hl1. cbn in Hl1, Hd1. subst d1.
  assert (Hr : reset_msg m = m) by (unfold reset_msg; by rewrite Hd). rewrite Hr in Hl1.
  assert (Hu : unqueue_first E [m] = [set_state mosq_ms_publish_qos2 m]).
  { unfold unqueue_first, unqueue. destruct (Z.eqb_spec (max_inflight E) 0).
    - cbn. rewrite Hst, Hq. done.
    - destruct (Z.to_nat (max_inflight E)) eqn:Ez; [lia|]. cbn. rewrite take_nil, drop_nil.
      cbn. by rewrite Hst, Hq. }
  assert (ctx_eq : sock c1 = sock (ctx s) ∧ cstate c1 = cstate (ctx s) ∧ id c1 = id (ctx s)).
  { unfold ident in Hfr. cbn in Hfr. split_and!; congruence. }
  destruct ctx_eq as (Hs1 & Hc1 & Hi1).
  eexists. split; [|split].
  - unfold mqtt3_db_message_reconnect_reset, upd_ctx, bind, mmodify, mget. fold s0.
    change (length (msgs (ctx s0))) with (length (msgs (ctx s))). rewrite Hl. cbn [length].
    rewrite E1. done.
  - cbn. by rewrite Hl1.
  - unfold mqtt3_db_message_write, bind, mget. cbn [ctx sock cstate id set_msgs msgs].
    rewrite Hs1, Hsock, Hc1, decide_True, Hi1, Hid by done.
    apply (write_msgs_no_topic E _ _ _ (set_state mosq_ms_publish_qos2 m) st); try done.
    cbn. by rewrite Hl1, Hu.
Qed.

(** A refused QoS 2 message of a client that has no room in flight. *)
Definition refused_db : msg_db :=
  Eval vm_compute in
    default empty_db (store_ref 1 (snd (mqtt3_db_message_store (str "c1") 5 None 2 [] false 0 empty_db))).
Definition refused_cm : cm :=
  CM (set_msgs (λ _, [ClientMsg 9 1 0 5 2 false mosq_md_in mosq_ms_queued false]) idle_context)
    refused_db.

Lemma reconnect_publishes_incoming_witness :
  ∃ s', mqtt3_db_message_reconnect_reset sample_env refused_cm = Some (MOSQ_ERR_SUCCESS, s') ∧
    msgs (ctx s') = [ClientMsg 9 1 0 5 2 false mosq_md_in mosq_ms_publish_qos2 false] ∧
    mqtt3_db_message_write sample_env s' = None.
Proof.
  apply (reconnect_publishes_incoming sample_env refused_cm
    (ClientMsg 9 1 0 5 2 false mosq_md_in mosq_ms_queued false)
    (MsgStore 1 (str "c1") [] 1 None [] 5 0 2 false) (str "c1")); try done.
Defined.
