(* ===== verification/Db.v ===== *)
(** * The broker's state (src/mosquitto_broker.h)

    [struct mosquitto_db] with its contexts, message store and subscription
    tree, and the way an operation on one context is run in it. *)

From stdpp Require Import base list numbers strings option sets gmap.
From Stdlib Require Import ZArith Lia.
From S2P Require Import Prelude Topic Packet State Store Send Messages.
Local Open Scope Z_scope.
Local Open Scope broker_scope.

(** [struct _mosquitto_subleaf] *)
Record subleaf := Subleaf { lf_context : ptr; lf_qos : Z }.

(** [struct _mosquitto_subhier]: topic, subscriptions, retained message and
    children. *)
Inductive subhier :=
| Subhier (topic : bytes) (leaves : list subleaf) (retained : option ptr) (children : list subhier).

Definition sh_topic (h : subhier) : bytes := let 'Subhier t _ _ _ := h in t.
Definition sh_subs (h : subhier) : list subleaf := let 'Subhier _ s _ _ := h in s.
Definition sh_retained (h : subhier) : option ptr := let 'Subhier _ _ r _ := h in r.
Definition sh_children (h : subhier) : list subhier := let 'Subhier _ _ _ c := h in c.

Definition set_sh_subs (s : list subleaf) (h : subhier) : subhier :=
  Subhier (sh_topic h) s (sh_retained h) (sh_children h).
Definition set_sh_retained (r : option ptr) (h : subhier) : subhier :=
  Subhier (sh_topic h) (sh_subs h) r (sh_children h).
Definition set_sh_children (c : list subhier) (h : subhier) : subhier :=
  Subhier (sh_topic h) (sh_subs h) (sh_retained h) c.
Definition new_node (t : bytes) : subhier := Subhier t [] None [].

(** Induction on trees, with the hypothesis for each child. *)
Lemma subhier_ind' (P : subhier → Prop) :
  (∀ t s r ch, Forall P ch → P (Subhier t s r ch)) → ∀ h, P h.
Proof.
  intros H. fix IH 1. intros [t s r ch]. apply H.
  induction ch as [|b ch IHch]; constructor; [apply IH|exact IHch].
Qed.

(** [struct mosquitto_db]: [subs_children] is [db->subs.children]. The hash
    tables keep their insertion order; [ll_for_free] is the list of the contexts to free. [client_counts] are the listeners'. *)
Record db := Db {
  contexts : gmap ptr mosquitto;
  dmsg : msg_db;
  subs_children : list subhier;
  subscription_count : Z;
  retained_count : Z;
  contexts_by_id : list (bytes * ptr);
  contexts_by_sock : list (Z * ptr);
  ll_for_free : list ptr;
  client_counts : list Z;
  bridges : list (option ptr);
}.

Definition eta_db (d : db) : db :=
  Db (contexts d) (dmsg d) (subs_children d) (subscription_count d) (retained_count d)
    (contexts_by_id d) (contexts_by_sock d) (ll_for_free d) (client_counts d)
    (bridges d).
Definition set_contexts f (d : db) : db := ltac:(setter eta_db contexts f d).
Definition set_dmsg f (d : db) : db := ltac:(setter eta_db dmsg f d).
Definition set_subs_children f (d : db) : db := ltac:(setter eta_db subs_children f d).
Definition set_subscription_count f (d : db) : db := ltac:(setter eta_db subscription_count f d).
Definition set_retained_count f (d : db) : db := ltac:(setter eta_db retained_count f d).
Definition set_by_id f (d : db) : db := ltac:(setter eta_db contexts_by_id f d).
Definition set_by_sock f (d : db) : db := ltac:(setter eta_db contexts_by_sock f d).
Definition set_ll_for_free f (d : db) : db := ltac:(setter eta_db ll_for_free f d).
Definition set_client_counts f (d : db) : db := ltac:(setter eta_db client_counts f d).
Definition set_bridges f (d : db) : db := ltac:(setter eta_db bridges f d).

(** Access to a context; [None]: it was freed. *)
Definition get_context (c : ptr) : M db mosquitto := λ d,
  x ← contexts d !! c; Some (x, d).
Definition upd_context (c : ptr) (f : mosquitto → mosquitto) : M db unit := λ d,
  x ← contexts d !! c; Some (tt, set_contexts <[c := f x]> d).

(** An operation on a context and the store. *)
Definition on_cm {A} (c : ptr) (m : M cm A) : M db A := λ d,
  x ← contexts d !! c;
  '(a, s) ← m (CM x (dmsg d));
  Some (a, set_dmsg (λ _, mdb s) (set_contexts <[c := ctx s]> d)).

Definition on_context {A} (c : ptr) (m : M mosquitto A) : M db A := on_cm c (on_ctx m).

(** An operation on the store. *)
Definition on_store {A} (m : M msg_db A) : M db A := λ d,
  '(a, s) ← m (dmsg d); Some (a, set_dmsg (λ _, s) d).
