(* ===== verification/Acl.v ===== *)
(** * Access control (src/security_default.c, src/security.c)

    Users' ACLs and pattern ACLs, passwords and pre-shared keys: the parsers
    of the three files, the checks, and the dispatch to an authentication
    plugin. A file is the list of its bytes; [fgets], [strtok_r] and the
    other functions of the C library are modelled where they are used. The
    digest and the base64 codec are OpenSSL's and are parameters. *)

From stdpp Require Import base list numbers strings option sets gmap.
From Stdlib Require Import ZArith Lia.
From S2P Require Import Prelude Topic Packet State Db.
Local Open Scope Z_scope.

(** ** Data (src/mosquitto_broker.h) *)

(** [struct _mosquitto_acl] *)
Record acl := Acl {
  acl_topic : bytes;
  acl_access : Z;
  ucount : Z;
  ccount : Z;
}.

(** [struct _mosquitto_acl_user]; no name: the anonymous clients *)
Record acl_user := AclUser {
  au_username : option bytes;
  au_acl : list acl;
}.

(** [struct _mosquitto_unpwd]; the hash of the table keeps insertion order.
    [un_password] is a C string until it is decoded; its length after that
    is [password_len]. *)
Record unpwd := Unpwd {
  un_username : bytes;
  un_password : option bytes;
  un_salt : bytes;
}.

(** [struct _mosquitto_auth_plugin]: a loaded plugin's functions *)
Record auth_plugin := AuthPlugin {
  plugin_acl_check : bytes → option bytes → bytes → Z → Z;
  plugin_unpwd_check : option bytes → option bytes → Z;
  plugin_psk_key_get : bytes → bytes → Z * bytes;
}.

(** The fields of [struct mosquitto_db] and its configuration that hold
    access control. A file that is configured is there ([Some]) or cannot be
    opened ([None]). *)
Record security := Security {
  sec_acl_list : list acl_user;
  acl_patterns : list acl;
  sec_unpwd : list unpwd;
  psk_id : list unpwd;
  plugin : option auth_plugin;
  deny_special_chars : bool;
  password_file : option (option bytes);
  acl_file : option (option bytes);
  psk_file : option (option bytes);
}.

Definition eta_security (s : security) : security :=
  Security (sec_acl_list s) (acl_patterns s) (sec_unpwd s) (psk_id s) (plugin s)
    (deny_special_chars s) (password_file s) (acl_file s) (psk_file s).
Definition set_acls f (s : security) : security := ltac:(setter eta_security sec_acl_list f s).
Definition set_patterns f (s : security) : security := ltac:(setter eta_security acl_patterns f s).
Definition set_unpwd f (s : security) : security := ltac:(setter eta_security sec_unpwd f s).
Definition set_psk f (s : security) : security := ltac:(setter eta_security psk_id f s).

(** ** The C library *)

Definition in_set (cs : bytes) (c : Z) : bool := bool_decide (c ∈ cs).
Definition not_in_set (cs : bytes) (c : Z) : bool := negb (in_set cs c).

Fixpoint skip_while (p : Z → bool) (s : bytes) : bytes :=
  match s with
  | [] => []
  | c :: s' => if p c then skip_while p s' else s
  end.
Fixpoint take_while (p : Z → bool) (s : bytes) : bytes :=
  match s with
  | [] => []
  | c :: s' => if p c then c :: take_while p s' else []
  end.

(** The token and what [saveptr] points at afterwards. *)
Definition strtok_r (delim s : bytes) : option (bytes * bytes) :=
  match skip_while (in_set delim) s with
  | [] => None
  | s' => Some (take_while (not_in_set delim) s', tail (skip_while (not_in_set delim) s'))
  end.

(** [strpbrk(s, cs) != NULL] *)
Definition strpbrk (s cs : bytes) : bool := existsb (in_set cs) s.

(** At most [n] bytes, up to a newline and including it. *)
Fixpoint fgets_line (n : nat) (f : bytes) : bytes * bytes :=
  match n, f with
  | O, _ | _, [] => ([], f)
  | S n', c :: f' =>
      if c =? 10 then ([c], f')
      else let '(l, r) := fgets_line n' f' in (c :: l, r)
  end.
(** What [fgets(buf, size, f)] stores in [buf], call by call, until the end
    of the file; each call takes at least one byte. *)
Fixpoint fgets_all (fuel : nat) (size : nat) (f : bytes) : list bytes :=
  match fuel, f with
  | O, _ | _, [] => []
  | S fuel', _ => let '(l, r) := fgets_line (size - 1) f in cstr l :: fgets_all fuel' size r
  end.
Definition file_lines (size : nat) (f : bytes) : list bytes := fgets_all (length f) size f.

Definition is_eol (c : Z) : bool := (c =? 10) || (c =? 13).

(** [while(slen > 0 && (buf[slen-1] == 10 || buf[slen-1] == 13))] *)
Definition chomp (s : bytes) : bytes := rev (skip_while is_eol (rev s)).

Definition spaces : bytes := [32].
Definition c_percent : Z := 37.
Definition c_c : Z := 99.
Definition c_u : Z := 117.

(** ** Adding ACLs *)

Definition same_user (user name : option bytes) : bool :=
  match user, name with
  | None, None => true
  | Some u, Some n => bool_decide (n = u)
  | _, _ => false
  end.

(** The search for the user, the new entry at the end of its ACLs, and a new
    user at the end of the list. *)
Fixpoint add_to_user (user : option bytes) (a : acl) (l : list acl_user) : list acl_user :=
  match l with
  | [] => [AclUser user [a]]
  | u :: l' =>
      if same_user user (au_username u) then AclUser (au_username u) (au_acl u ++ [a]) :: l'
      else u :: add_to_user user a l'
  end.

Definition _add_acl (sec : security) (user : option bytes) (topic : bytes) (access : Z) : Z * security :=
  (MOSQ_ERR_SUCCESS, set_acls (add_to_user user (Acl topic access 0 0)) sec).

(** [while(s){ s = strstr(s, "%x"); if(s){ count++; s+=2; } }] *)
Fixpoint count_sub (x : Z) (s : bytes) : Z :=
  match s with
  | a :: ((b :: s') as t) =>
      if (a =? c_percent) && (b =? x) then 1 + count_sub x s' else count_sub x t
  | _ => 0
  end.

Definition _add_acl_pattern (sec : security) (topic : bytes) (access : Z) : Z * security :=
  (MOSQ_ERR_SUCCESS,
   set_patterns (λ l, l ++ [Acl topic access (count_sub c_u topic) (count_sub c_c topic)]) sec).

(** ** Checking access *)

(** [s[0]] *)
Definition first_char (s : bytes) : Z := default 0 (head s).

(** The result that [mosquitto_topic_matches_sub] stores; [None]: it stored
    none, and the caller reads an uninitialised variable. *)
Definition match_result (sub topic : bytes) : option bool :=
  '(_, r) ← mosquitto_topic_matches_sub sub topic; r.

(** The loop over the client's own ACLs. *)
Fixpoint check_user_acls (topic : bytes) (access : Z) (l : list acl) : option bool :=
  match l with
  | [] => Some false
  | a :: l' =>
      if (first_char topic =? c_dollar) && negb (first_char (acl_topic a) =? c_dollar)
      then check_user_acls topic access l'
      else
        result ← match_result (acl_topic a) topic;
        if result && negb (Z.land access (acl_access a) =? 0) then Some true
        else check_user_acls topic access l'
  end.

(** The bytes the loop over a pattern writes. *)
Fixpoint expand (cid : bytes) (user : option bytes) (topic : bytes) : bytes :=
  match topic with
  | [] => []
  | a :: t =>
      match t with
      | [] => [a]
      | b :: rest =>
          if a =? c_percent then
            if b =? c_c then cid ++ expand cid user rest
            else match user with
                 | Some u => if b =? c_u then u ++ expand cid user rest else a :: expand cid user t
                 | None => a :: expand cid user t
                 end
          else a :: expand cid user t
      end
  end.

(** The string in a buffer of [len + 1] bytes that [out] was written to and
    that was terminated at [len]; [None]: a write out of bounds, or a read of
    bytes that were never written. *)
Definition terminated (len : Z) (out : bytes) : option bytes :=
  if (Z.of_nat (length out) =? len) || (Z.of_nat (length out) =? len + 1)
  then Some (take (Z.to_nat len) out) else None.

Definition pattern_len (cid : bytes) (user : option bytes) (a : acl) : Z :=
  let tlen := Z.of_nat (length (acl_topic a)) in
  let clen := Z.of_nat (length cid) in
  match user with
  | Some u => tlen + ccount a * (clen - 2) + ucount a * (Z.of_nat (length u) - 2)
  | None => tlen + ccount a * (clen - 2)
  end.

Definition pattern_acl (cid : bytes) (user : option bytes) (a : acl) : option bytes :=
  terminated (pattern_len cid user a) (expand cid user (acl_topic a)).

(** The loop over the pattern ACLs. *)
Fixpoint check_patterns (cid : bytes) (user : option bytes) (topic : bytes) (access : Z)
    (l : list acl) : option bool :=
  match l with
  | [] => Some false
  | a :: l' =>
      if negb (ucount a =? 0) && bool_decide (user = None)
      then check_patterns cid user topic access l'
      else
        local_acl ← pattern_acl cid user a;
        result ← match_result (cstr local_acl) topic;
        if result && negb (Z.land access (acl_access a) =? 0) then Some true
        else check_patterns cid user topic access l'
  end.

Definition wildcards : bytes := [c_plus; c_hash].

Definition mosquitto_acl_check_default (sec : security) (x : mosquitto) (topic : bytes)
    (access : Z) : option Z :=
  if bool_decide (sec_acl_list sec = []) && bool_decide (acl_patterns sec = [])
  then Some MOSQ_ERR_SUCCESS
  else if bool_decide (is_Some (c_bridge x)) then Some MOSQ_ERR_SUCCESS
  else if bool_decide (acl_list x = None) && bool_decide (acl_patterns sec = [])
  then Some MOSQ_ERR_ACL_DENIED
  else
    acls ← match acl_list x with
           | Some i => au_acl <$> sec_acl_list sec !! i
           | None => Some []
           end;
    granted ← check_user_acls topic access acls;
    if (granted : bool) then Some MOSQ_ERR_SUCCESS
    else
      let patterns := acl_patterns sec in
      if negb (bool_decide (patterns = [])) && strpbrk (default [] (username x)) wildcards
      then Some MOSQ_ERR_ACL_DENIED
      else if negb (bool_decide (patterns = [])) && strpbrk (default [] (id x)) wildcards
      then Some MOSQ_ERR_ACL_DENIED
      else
        cid ← id x;
        granted ← check_patterns cid (username x) topic access patterns;
        Some (if (granted : bool) then MOSQ_ERR_SUCCESS else MOSQ_ERR_ACL_DENIED).

Definition mosquitto_acl_check (sec : security) (x : mosquitto) (topic : bytes) (access : Z) : option Z :=
  match id x with
  | None => Some MOSQ_ERR_ACL_DENIED
  | Some cid =>
      match plugin sec with
      | None => mosquitto_acl_check_default sec x topic access
      | Some p =>
          let user := match c_bridge x with
                      | Some b => local_username b
                      | None => username x
                      end in
          if deny_special_chars sec && strpbrk (default [] user) wildcards
          then Some MOSQ_ERR_ACL_DENIED
          else if deny_special_chars sec && strpbrk cid wildcards
          then Some MOSQ_ERR_ACL_DENIED
          else Some (plugin_acl_check p cid user topic access)
      end
  end.

(** ** The ACL file *)

Definition access_of (s : bytes) : option Z :=
  if bool_decide (s = str "read") then Some MOSQ_ACL_READ
  else if bool_decide (s = str "write") then Some MOSQ_ACL_WRITE
  else if bool_decide (s = str "readwrite") then Some (Z.lor MOSQ_ACL_READ MOSQ_ACL_WRITE)
  else None.

(** A [topic] or [pattern] line after its keyword. *)
Definition parse_topic (sec : security) (user : option bytes) (topic_pattern : bool) (rest : bytes) :
    Z * security :=
  match strtok_r spaces rest with
  | None => (MOSQ_ERR_INVAL, sec)
  | Some (access_s, rest') =>
      let add topic access :=
        if topic_pattern then _add_acl_pattern sec topic access
        else _add_acl sec user topic access in
      match strtok_r [] rest' with
      | Some (token, _) =>
          match access_of access_s with
          | Some access => add (skip_while (in_set spaces) token) access
          | None => (MOSQ_ERR_INVAL, sec)
          end
      | None => add access_s (Z.lor MOSQ_ACL_READ MOSQ_ACL_WRITE)
      end
  end.

(** One line; the return code, the user and the ACLs after it. *)
Definition parse_acl_line (buf : bytes) (user : option bytes) (sec : security) :
    Z * option bytes * security :=
  let buf := chomp buf in
  if first_char buf =? c_hash then (MOSQ_ERR_SUCCESS, user, sec)
  else
    match strtok_r spaces buf with
    | None => (MOSQ_ERR_SUCCESS, user, sec)
    | Some (token, rest) =>
        if bool_decide (token = str "topic") || bool_decide (token = str "pattern") then
          let '(rc, sec') := parse_topic sec user (bool_decide (token ≠ str "topic")) rest in
          (rc, user, sec')
        else if bool_decide (token = str "user") then
          match strtok_r [] rest with
          | Some (token, _) => (MOSQ_ERR_SUCCESS, Some (skip_while (in_set spaces) token), sec)
          | None => (1, user, sec)
          end
        else (MOSQ_ERR_SUCCESS, user, sec)
    end.

Fixpoint parse_acl_lines (lines : list bytes) (user : option bytes) (sec : security) : Z * security :=
  match lines with
  | [] => (MOSQ_ERR_SUCCESS, sec)
  | l :: lines' =>
      let '(rc, user', sec') := parse_acl_line l user sec in
      if rc =? MOSQ_ERR_SUCCESS then parse_acl_lines lines' user' sec' else (rc, sec')
  end.

Definition _aclfile_parse (sec : security) : Z * security :=
  match acl_file sec with
  | None => (MOSQ_ERR_SUCCESS, sec)
  | Some None => (1, sec)
  | Some (Some f) => parse_acl_lines (file_lines 1024 f) None sec
  end.

(** Every context of [contexts_by_id] loses its pointer into the list. *)
Definition _acl_cleanup (sec : security) (d : db) : Z * security * db :=
  if bool_decide (sec_acl_list sec = []) then (MOSQ_ERR_SUCCESS, sec, d)
  else
    let clear (m : gmap ptr mosquitto) (e : bytes * ptr) :=
      alter (set_acl_list (λ _, None)) (snd e) m in
    (MOSQ_ERR_SUCCESS, set_patterns (λ _, []) (set_acls (λ _, []) sec),
     set_contexts (λ m, foldl clear m (contexts_by_id d)) d).

(** ** Password and pre-shared key files *)

(** [while(username[len-1] == 10 || ...)] on the reversed name: there is no
    test for an empty name, and [None] is the read before its start. *)
Fixpoint strip_name (rev_name : bytes) : option bytes :=
  match rev_name with
  | [] => None
  | c :: r => if is_eol c then strip_name r else Some (rev rev_name)
  end.

Definition parse_pw_line (buf : bytes) : option (option unpwd) :=
  match strtok_r [58] buf with
  | None => Some None
  | Some (name, rest) =>
      name ← strip_name (rev name);
      Some (Some (Unpwd name (chomp ∘ fst <$> strtok_r [58] rest) []))
  end.

Fixpoint parse_pw_lines (lines : list bytes) (root : list unpwd) : option (list unpwd) :=
  match lines with
  | [] => Some root
  | l :: lines' =>
      o ← parse_pw_line l;
      parse_pw_lines lines' (root ++ option_list o)
  end.

(** [None] is a file that cannot be opened. *)
Definition _pwfile_parse (file : option bytes) (root : list unpwd) : option (Z * list unpwd) :=
  match file with
  | None => Some (1, root)
  | Some f => root' ← parse_pw_lines (file_lines 256 f) root; Some (MOSQ_ERR_SUCCESS, root')
  end.

(** What is left in a buffer as a C string once [strtok] has cut its first
    token. *)
Definition cut_token (delim s : bytes) : bytes :=
  take_while (in_set delim) s ++ take_while (not_in_set delim) (skip_while (in_set delim) s).

Section decode.
(** [_base64_decode]; [None]: it returns an error. *)
Context (base64_decode : bytes → option bytes).

(** One entry: [$6$salt$hash] becomes the salt and the hash. *)
Definition decode_entry (u : unpwd) : Z * unpwd :=
  match un_password u with
  | None => (MOSQ_ERR_SUCCESS, u)
  | Some pw =>
      let cut := Some (cut_token [c_dollar] pw) in
      match strtok_r [c_dollar] pw with
      | Some (t0, r0) =>
          if bool_decide (t0 = str "6") then
            match strtok_r [c_dollar] r0 with
            | Some (t1, r1) =>
                match base64_decode t1 with
                | None => (MOSQ_ERR_INVAL, Unpwd (un_username u) cut (un_salt u))
                | Some salt =>
                    match strtok_r [c_dollar] r1 with
                    | Some (t2, _) =>
                        match base64_decode t2 with
                        | None => (MOSQ_ERR_INVAL, Unpwd (un_username u) cut salt)
                        | Some p => (MOSQ_ERR_SUCCESS, Unpwd (un_username u) (Some p) salt)
                        end
                    | None => (MOSQ_ERR_INVAL, Unpwd (un_username u) cut salt)
                    end
                end
            | None => (MOSQ_ERR_INVAL, Unpwd (un_username u) cut (un_salt u))
            end
          else (MOSQ_ERR_INVAL, Unpwd (un_username u) cut (un_salt u))
      | None => (MOSQ_ERR_INVAL, u)
      end
  end.

Fixpoint decode_entries (l : list unpwd) : Z * list unpwd :=
  match l with
  | [] => (MOSQ_ERR_SUCCESS, [])
  | u :: l' =>
      let '(rc, u') := decode_entry u in
      if rc =? MOSQ_ERR_SUCCESS then
        let '(rc', l'') := decode_entries l' in (rc', u' :: l'')
      else (rc, u' :: l')
  end.

Definition _unpwd_file_parse (sec : security) : option (Z * security) :=
  match password_file sec with
  | None => Some (MOSQ_ERR_SUCCESS, sec)
  | Some file =>
      '(rc, l) ← _pwfile_parse file (sec_unpwd sec);
      if negb (rc =? MOSQ_ERR_SUCCESS) then Some (rc, set_unpwd (λ _, l) sec)
      else let '(rc', l') := decode_entries l in Some (rc', set_unpwd (λ _, l') sec)
  end.
End decode.

Definition hex_digits : bytes := str "0123456789abcdefABCDEF".

(** The test of every entry: a key that is there and only hex digits. *)
Definition psk_entry_ok (u : unpwd) : bool :=
  match un_password u with
  | None => false
  | Some p => negb (length (take_while (in_set hex_digits) p) <? length p)%nat
  end.

Definition _psk_file_parse (sec : security) : option (Z * security) :=
  match psk_file sec with
  | None => Some (MOSQ_ERR_SUCCESS, sec)
  | Some file =>
      '(rc, l) ← _pwfile_parse file (psk_id sec);
      let sec' := set_psk (λ _, l) sec in
      if negb (rc =? MOSQ_ERR_SUCCESS) then Some (rc, sec')
      else Some (if forallb psk_entry_ok l then MOSQ_ERR_SUCCESS else MOSQ_ERR_INVAL, sec')
  end.

Definition mosquitto_security_init_default (base64_decode : bytes → option bytes) (sec : security) :
    option (Z * security) :=
  '(rc, sec) ← match password_file sec with
               | Some _ => _unpwd_file_parse base64_decode sec
               | None => Some (MOSQ_ERR_SUCCESS, sec)
               end;
  if negb (rc =? MOSQ_ERR_SUCCESS) then Some (rc, sec)
  else
    let '(rc, sec) := match acl_file sec with
                      | Some _ => _aclfile_parse sec
                      | None => (MOSQ_ERR_SUCCESS, sec)
                      end in
    if negb (rc =? MOSQ_ERR_SUCCESS) then Some (rc, sec)
    else
      match psk_file sec with
      | Some _ =>
          '(rc, sec) ← _psk_file_parse sec;
          if negb (rc =? MOSQ_ERR_SUCCESS) then Some (rc, sec) else Some (MOSQ_ERR_SUCCESS, sec)
      | None => Some (MOSQ_ERR_SUCCESS, sec)
      end.

(** ** Checking passwords and keys *)

Fixpoint memcmp_loop (a b : bytes) (n : nat) (i : nat) (rc : Z) : option Z :=
  match n with
  | O => Some rc
  | S n' =>
      x ← a !! i; y ← b !! i;
      memcmp_loop a b n' (S i) (if negb (x =? y) then 1 else rc)
  end.
Definition mosquitto__memcmp_const (a b : bytes) (len : nat) : option Z := memcmp_loop a b len 0 0.

Section digest.
(** The digest [EVP_get_digestbyname("sha512")] finds, if it does. *)
Context (sha512 : option (bytes → bytes)).

(** The hash, or the error code. *)
Definition _pw_digest (password salt : bytes) : Z + bytes :=
  match sha512 with
  | None => inl 1
  | Some h => inr (h (password ++ salt))
  end.

Fixpoint unpwd_loop (user : bytes) (password : option bytes) (l : list unpwd) : option Z :=
  match l with
  | [] => Some MOSQ_ERR_AUTH
  | u :: l' =>
      if bool_decide (un_username u = user) then
        match un_password u with
        | None => Some MOSQ_ERR_SUCCESS
        | Some upw =>
            match password with
            | None => Some MOSQ_ERR_AUTH
            | Some pw =>
                match _pw_digest pw (un_salt u) with
                | inl rc => Some rc
                | inr hash =>
                    if (length hash =? length upw)%nat then
                      r ← mosquitto__memcmp_const upw hash (length hash);
                      Some (if r =? 0 then MOSQ_ERR_SUCCESS else MOSQ_ERR_AUTH)
                    else Some MOSQ_ERR_AUTH
                end
            end
        end
      else unpwd_loop user password l'
  end.

Definition mosquitto_unpwd_check_default (sec : security) (user password : option bytes) : option Z :=
  if bool_decide (sec_unpwd sec = []) then Some MOSQ_ERR_SUCCESS
  else match user with
       | None => Some MOSQ_ERR_INVAL
       | Some u => unpwd_loop u password (sec_unpwd sec)
       end.

Definition mosquitto_unpwd_check (sec : security) (user password : option bytes) : option Z :=
  match plugin sec with
  | None => mosquitto_unpwd_check_default sec user password
  | Some p => Some (plugin_unpwd_check p user password)
  end.
End digest.

(** [HASH_ITER] frees every entry. *)
Definition _unpwd_cleanup (root : list unpwd) : Z * list unpwd := (MOSQ_ERR_SUCCESS, []).

Definition mosquitto_security_cleanup_default (sec : security) (d : db) : Z * security * db :=
  let '(rc, sec, d) := _acl_cleanup sec d in
  if negb (rc =? MOSQ_ERR_SUCCESS) then (rc, sec, d)
  else
    let '(rc, l) := _unpwd_cleanup (sec_unpwd sec) in
    if negb (rc =? MOSQ_ERR_SUCCESS) then (rc, set_unpwd (λ _, l) sec, d)
    else
      let '(rc, k) := _unpwd_cleanup (psk_id sec) in
      (rc, set_psk (λ _, k) (set_unpwd (λ _, l) sec), d).

(** [strncpy(key, s, n)] *)
Definition strncpy (s : bytes) (n : nat) : bytes := take n (s ++ replicate n 0).

(** The code and what is stored in [key]. *)
Definition mosquitto_psk_key_get_default (sec : security) (identity : bytes) (max_key_len : nat) :
    option (Z * option bytes) :=
  if bool_decide (psk_id sec = []) then Some (MOSQ_ERR_AUTH, None)
  else match find (λ u, bool_decide (un_username u = identity)) (psk_id sec) with
       | Some u => p ← un_password u; Some (MOSQ_ERR_SUCCESS, Some (strncpy p max_key_len))
       | None => Some (MOSQ_ERR_AUTH, None)
       end.

Definition mosquitto_psk_key_get (sec : security) (hint identity : bytes) (max_key_len : nat) :
    option (Z * option bytes) :=
  match plugin sec with
  | None => mosquitto_psk_key_get_default sec identity max_key_len
  | Some p => let '(rc, key) := plugin_psk_key_get p hint identity in Some (rc, Some key)
  end.

(** ** Pattern ACLs *)

Lemma count_sub_cons x a b s :
  count_sub x (a :: b :: s) =
    if (a =? c_percent) && (b =? x) then 1 + count_sub x s else count_sub x (b :: s).
Proof. done. Qed.

Lemma expand_cons cid user a b s :
  expand cid user (a :: b :: s) =
    if a =? c_percent then
      if b =? c_c then cid ++ expand cid user s
      else match user with
           | Some u => if b =? c_u then u ++ expand cid user s else a :: expand cid user (b :: s)
           | None => a :: expand cid user (b :: s)
           end
    else a :: expand cid user (b :: s).
Proof. done. Qed.

(** Induction two bytes at a time. *)
Lemma bytes_ind2 (P : bytes → Prop) :
  P [] → (∀ a, P [a]) → (∀ a b s, P s → P (b :: s) → P (a :: b :: s)) → ∀ s, P s.
Proof.
  intros H0 H1 H2 s. enough (P s ∧ ∀ a, P (a :: s)) by naive_solver.
  induction s as [|b s [IH1 IH2]]; [naive_solver|]. split; [apply IH2|]. intros a. by apply H2.
Qed.

Lemma count_sub_nonneg x s : 0 ≤ count_sub x s.
Proof.
  induction s as [|a|a b s IH1 IH2] using bytes_ind2; [done..|].
  rewrite count_sub_cons. case_match; lia.
Qed.

(** The number of bytes written: each [%c] and [%u] is replaced by the name. *)
Lemma expand_length cid user s :
  (user = None → count_sub c_u s = 0) →
  Z.of_nat (length (expand cid user s)) =
    Z.of_nat (length s) + count_sub c_c s * (Z.of_nat (length cid) - 2)
    + count_sub c_u s * (Z.of_nat (length (default [] user)) - 2).
Proof.
  induction s as [|a|a b s IH1 IH2] using bytes_ind2; intros Hu; [cbn; lia..|].
  rewrite expand_cons, !count_sub_cons. rewrite count_sub_cons in Hu.
  destruct (Z.eqb_spec a c_percent) as [Ea|Ea]; cbn [andb] in *.
  2: { cbn [length]. rewrite Nat2Z.inj_succ, IH2 by done. cbn [length]. lia. }
  destruct (Z.eqb_spec b c_c) as [Eb|Eb].
  { subst b. replace (c_c =? c_u) with false in * by done.
    assert (Hn : ∀ x, count_sub x (c_c :: s) = count_sub x s) by (intros x; by destruct s).
    rewrite Hn in *. rewrite length_app, Nat2Z.inj_add, IH1 by done. cbn [length]. lia. }
  destruct (Z.eqb_spec b c_u) as [Eu|Eu].
  - subst b. destruct user as [u|].
    + change (default [] (Some u)) with u in *. assert (Hn : ∀ x, count_sub x (c_u :: s) = count_sub x s) by (intros x; by destruct s).
      rewrite Hn. rewrite length_app, Nat2Z.inj_add, IH1 by done. cbn [length]. lia.
    + pose proof (count_sub_nonneg c_u s). specialize (Hu eq_refl). lia.
  - replace (match user with Some _ => _ | None => _ end) with (a :: expand cid user (b :: s)) by (by destruct user).
    cbn [length]. rewrite Nat2Z.inj_succ, IH2 by done. cbn [length]. lia.
Qed.

Lemma expand_no_nul cid user s :
  0 ∉ cid → 0 ∉ default [] user → 0 ∉ s → 0 ∉ expand cid user s.
Proof.
  intros Hc Hu. induction s as [|a|a b s IH1 IH2] using bytes_ind2; intros Hs; [set_solver..|].
  rewrite expand_cons. apply not_elem_of_cons in Hs as [Ha Hs].
  assert (0 ∉ a :: expand cid user (b :: s)) by (apply not_elem_of_cons; auto).
  apply not_elem_of_cons in Hs as [Hb Hs]. specialize (IH1 Hs).
  repeat case_match; subst; try done; rewrite elem_of_app; naive_solver.
Qed.

(** The entries [_add_acl_pattern] makes. *)
Definition pattern_ok (a : acl) : Prop :=
  0 ∉ acl_topic a ∧ ucount a = count_sub c_u (acl_topic a) ∧ ccount a = count_sub c_c (acl_topic a).

Lemma pattern_acl_exact cid user a :
  pattern_ok a → (ucount a = 0 ∨ is_Some user) →
  pattern_acl cid user a = Some (expand cid user (acl_topic a)).
Proof.
  intros (_ & Hu & Hc) Hn. unfold pattern_acl, terminated.
  assert (Hl : pattern_len cid user a = Z.of_nat (length (expand cid user (acl_topic a)))).
  { rewrite expand_length. 2: { intros ->. destruct Hn as [Hn|[? ?]]; [lia|done]. }
    unfold pattern_len. rewrite Hu, Hc. destruct user as [u|]; [change (default [] (Some u)) with u; lia|].
    destruct Hn as [Hn|[? ?]]; [|done]. rewrite <-Hu, Hn. lia. }
  rewrite Hl, Z.eqb_refl, Nat2Z.id, firstn_all. done.
Qed.

(** ** The checks against their specification *)

(** A filter that is valid by the broker's own check. *)
Definition filter_valid (f : bytes) : Prop :=
  f ≠ [] ∧ 0 ∉ f ∧ mosquitto_sub_topic_check f = MOSQ_ERR_SUCCESS.
Definition topic_valid (t : bytes) : Prop :=
  t ≠ [] ∧ mosquitto_pub_topic_check t = MOSQ_ERR_SUCCESS.

(** An entry with filter [f] lets a client access [topic]: MQTT matching,
    but for the parent level of a filter in [+/#]. *)
Definition grants (topic : bytes) (access : Z) (f : bytes) (a : acl) : bool :=
  mqtt_match f topic && negb (plus_hash_parent f topic) && negb (Z.land access (acl_access a) =? 0).

Lemma match_result_valid f t :
  filter_valid f → topic_valid t →
  match_result f t = Some (mqtt_match f t && negb (plus_hash_parent f t)).
Proof.
  intros (H1 & H2 & H3) [H4 H5]. unfold match_result.
  by rewrite topic_matches_sub_exact_aux.
Qed.

Lemma first_char_dollar s : (first_char s =? c_dollar) = dollar s.
Proof.
  unfold dollar, first_char. destruct s as [|c s]; [done|]. cbn.
  destruct (Z.eqb_spec c c_dollar); symmetry; [apply bool_decide_eq_true|apply bool_decide_eq_false]; congruence.
Qed.

Lemma check_user_acls_exact topic access l :
  topic_valid topic → Forall (λ a, filter_valid (acl_topic a)) l →
  check_user_acls topic access l = Some (existsb (λ a, grants topic access (acl_topic a) a) l).
Proof.
  intros Ht. induction 1 as [|a l Ha _ IH]; [done|]. cbn [check_user_acls existsb].
  rewrite IH, !first_char_dollar, match_result_valid by done. cbn [mbind option_bind].
  fold (grants topic access (acl_topic a) a).
  destruct (dollar topic && negb (dollar (acl_topic a))) eqn:E.
  2: { by destruct (grants _ _ _ _). }
  apply andb_true_iff in E as [E1 E2%negb_true_iff]. unfold grants at 2, mqtt_match. by rewrite E1, E2.
Qed.

(** The entry applies to a client with these names. *)
Definition pattern_grants (cid : bytes) (user : option bytes) (topic : bytes) (access : Z) (a : acl) : bool :=
  ((ucount a =? 0) || bool_decide (is_Some user)) &&
  grants topic access (expand cid user (acl_topic a)) a.

Lemma check_patterns_exact cid user topic access l :
  topic_valid topic → Forall pattern_ok l →
  Forall (λ a, filter_valid (expand cid user (acl_topic a))) l →
  check_patterns cid user topic access l = Some (existsb (pattern_grants cid user topic access) l).
Proof.
  intros Ht Hok. induction 1 as [|a l Ha _ IH]; [done|]. inversion Hok as [|?? Hoa Hol]; subst.
  cbn [check_patterns existsb]. unfold pattern_grants at 1. rewrite (IH Hol).
  destruct (Z.eqb_spec (ucount a) 0) as [Eu|Eu]; cbn [negb andb orb].
  - rewrite pattern_acl_exact by auto. cbn [mbind option_bind]. rewrite cstr_id by apply Ha.
    rewrite match_result_valid by done. cbn [mbind option_bind].
    fold (grants topic access (expand cid user (acl_topic a)) a). by destruct (grants _ _ _ _).
  - destruct user as [u|].
    + rewrite (bool_decide_eq_false_2 (Some u = None)), (bool_decide_eq_true_2 (is_Some (Some u))) by done.
      rewrite pattern_acl_exact by eauto. cbn [mbind option_bind]. rewrite cstr_id by apply Ha.
      rewrite match_result_valid by done. cbn [mbind option_bind].
      fold (grants topic access (expand cid (Some u) (acl_topic a)) a). by destruct (grants _ _ _ _).
    + rewrite (bool_decide_eq_true_2 (None = None)), (bool_decide_eq_false_2 (is_Some None)) by (done || apply is_Some_None).
      done.
Qed.

(** Who may do what: a declarative reading of the ACLs. *)
Definition acl_allows (sec : security) (x : mosquitto) (topic : bytes) (access : Z) : Prop :=
  (sec_acl_list sec = [] ∧ acl_patterns sec = []) ∨
  is_Some (c_bridge x) ∨
  (∃ i u a, acl_list x = Some i ∧ sec_acl_list sec !! i = Some u ∧ a ∈ au_acl u ∧
     grants topic access (acl_topic a) a = true) ∨
  (∃ cid a, id x = Some cid ∧ a ∈ acl_patterns sec ∧
     wildcard_free cid ∧ wildcard_free (default [] (username x)) ∧
     pattern_grants cid (username x) topic access a = true).

(** The ACLs the file can hold, seen by the client [x]. *)
Record acls_ok (sec : security) (x : mosquitto) : Prop := {
  acls_index : ∀ i, acl_list x = Some i → is_Some (sec_acl_list sec !! i);
  acls_users : Forall (λ u, Forall (λ a, filter_valid (acl_topic a)) (au_acl u)) (sec_acl_list sec);
  acls_patterns : Forall pattern_ok (acl_patterns sec);
  acls_expand : ∀ cid, id x = Some cid →
    Forall (λ a, filter_valid (expand cid (username x) (acl_topic a))) (acl_patterns sec);
}.

Lemma strpbrk_wildcards s : strpbrk s wildcards = false ↔ wildcard_free s.
Proof.
  unfold strpbrk, wildcards, wildcard_free, in_set. rewrite <-not_true_iff_false, existsb_exists. split.
  - intros H. split; intros Hx; apply H; eexists; (split; [by apply list_elem_of_In|]); apply bool_decide_eq_true; set_solver.
  - intros [H1 H2] (c & Hc%list_elem_of_In & Hw%bool_decide_eq_true). set_solver.
Qed.

Lemma existsb_elem {A} (f : A → bool) (l : list A) : existsb f l = true ↔ ∃ a, a ∈ l ∧ f a = true.
Proof. rewrite existsb_exists. by setoid_rewrite list_elem_of_In. Qed.

(** The client's own entries, once the list it points at is found. *)
Lemma own_acls_exact sec x topic access :
  acls_ok sec x → topic_valid topic →
  ∃ acls, (match acl_list x with
           | Some i => au_acl <$> sec_acl_list sec !! i
           | None => Some []
           end) = Some acls ∧
    (check_user_acls topic access acls = Some true ∨ check_user_acls topic access acls = Some false) ∧
    (check_user_acls topic access acls = Some true ↔
     ∃ i u a, acl_list x = Some i ∧ sec_acl_list sec !! i = Some u ∧ a ∈ au_acl u ∧
       grants topic access (acl_topic a) a = true).
Proof.
  intros Hok Ht. destruct (acl_list x) as [i|] eqn:Ei.
  - destruct (acls_index _ _ Hok i Ei) as [u Hu]. exists (au_acl u). rewrite Hu. split; [done|].
    pose proof (Forall_lookup_1 _ _ _ _ (acls_users _ _ Hok) Hu) as Hf.
    rewrite check_user_acls_exact by done. split; [destruct (existsb _ _); auto|].
    rewrite (inj_iff Some), existsb_elem. naive_solver.
  - exists []. split_and!; [done|by right|]. cbn. naive_solver.
Qed.

Lemma acl_check_default_exact_aux sec x topic access :
  is_Some (id x) → acls_ok sec x → topic_valid topic →
  ∃ rc, mosquitto_acl_check_default sec x topic access = Some rc ∧
    (rc = MOSQ_ERR_SUCCESS ∨ rc = MOSQ_ERR_ACL_DENIED) ∧
    (rc = MOSQ_ERR_SUCCESS ↔ acl_allows sec x topic access).
Proof.
  intros [cid Hid] Hok Ht. unfold mosquitto_acl_check_default, acl_allows.
  destruct (decide (sec_acl_list sec = [] ∧ acl_patterns sec = [])) as [[E1 E2]|E].
  { rewrite E1, E2. exists MOSQ_ERR_SUCCESS. tauto. }
  replace (bool_decide (sec_acl_list sec = []) && bool_decide (acl_patterns sec = [])) with false.
  2: { symmetry. rewrite <-bool_decide_and. by apply bool_decide_eq_false. }
  destruct (decide (is_Some (c_bridge x))) as [Hb|Hb];
    [rewrite bool_decide_eq_true_2 by done; exists MOSQ_ERR_SUCCESS; tauto|].
  rewrite (bool_decide_eq_false_2 (is_Some _)) by done.
  destruct (own_acls_exact sec x topic access Hok Ht) as (acls & -> & Hor & Hown).
  destruct (decide (acl_list x = None ∧ acl_patterns sec = [])) as [[E1 E2]|E'].
  { rewrite E1, E2. exists MOSQ_ERR_ACL_DENIED. split_and!; [done|by right|].
    split; [done|]. set_solver. }
  replace (bool_decide (acl_list x = None) && bool_decide (acl_patterns sec = [])) with false.
  2: { symmetry. rewrite <-bool_decide_and. by apply bool_decide_eq_false. }
  cbn [mbind option_bind]. destruct Hor as [Hg|Hg]; rewrite Hg; cbn [mbind option_bind].
  { exists MOSQ_ERR_SUCCESS. split_and!; [done|by left|]. apply Hown in Hg. tauto. }
  assert (Hno : ¬ ∃ i u a, acl_list x = Some i ∧ sec_acl_list sec !! i = Some u ∧ a ∈ au_acl u ∧
       grants topic access (acl_topic a) a = true) by (rewrite <-Hown, Hg; done).
  rewrite Hid. cbn [mbind option_bind].
  rewrite (check_patterns_exact cid (username x) topic access (acl_patterns sec) Ht
             (acls_patterns _ _ Hok) (acls_expand _ _ Hok cid Hid)). cbn [mbind option_bind].
  destruct (decide (wildcard_free cid ∧ wildcard_free (default [] (username x)))) as [[Hc Hu]|Hw].
  - apply strpbrk_wildcards in Hc as Hc'. apply strpbrk_wildcards in Hu as Hu'.
    rewrite Hu'. change (default [] (Some cid)) with cid. rewrite Hc', !andb_false_r.
    eexists. split; [done|]. split; [destruct (existsb _ _); auto|].
    destruct (existsb _ _) eqn:Ex.
    + apply existsb_elem in Ex as (a & Ha & Hg'). split; [intros _|done]. right. right. right. by exists cid, a.
    + apply not_true_iff_false in Ex. rewrite existsb_elem in Ex. split; [done|]. intros [?|[?|[?|?]]]; naive_solver.
  - exists MOSQ_ERR_ACL_DENIED. split_and!; [|by right|].
    + destruct (decide (acl_patterns sec = [])) as [->|Hp]; [done|].
      rewrite bool_decide_eq_false_2 by done. cbn [negb andb]. change (default [] (Some cid)) with cid.
      destruct (strpbrk (default [] (username x)) wildcards) eqn:E1; [done|].
      destruct (strpbrk cid wildcards) eqn:E2; [done|].
      apply strpbrk_wildcards in E1, E2. tauto.
    + split; [done|]. naive_solver.
Qed.

(** ** Passwords *)

Lemma memcmp_loop_spec a b n i rc :
  (i + n ≤ length a)%nat → (i + n ≤ length b)%nat → (rc = 0 ∨ rc = 1) →
  ∃ r, memcmp_loop a b n i rc = Some r ∧ (r = 0 ∨ r = 1) ∧
    (r = 0 ↔ rc = 0 ∧ take n (drop i a) = take n (drop i b)).
Proof.
  revert i rc. induction n as [|n IH]; intros i rc Ha Hb Hrc; cbn [memcmp_loop].
  { exists rc. rewrite !take_0. tauto. }
  destruct (lookup_lt_is_Some_2 a i ltac:(lia)) as [x Hx].
  destruct (lookup_lt_is_Some_2 b i ltac:(lia)) as [y Hy].
  rewrite Hx, Hy. cbn [mbind option_bind]. rewrite (drop_S _ _ _ Hx), (drop_S _ _ _ Hy). cbn [take].
  destruct (Z.eqb_spec x y) as [->|Hne]; cbn [negb].
  - destruct (IH (S i) rc) as (r & -> & Hr & Hiff); [lia..|done|]. exists r. split_and!; [done..|].
    rewrite Hiff. split; [intros [-> ->]; done|]. by intros [-> [= ->]].
  - destruct (IH (S i) 1) as (r & -> & Hr & Hiff); [lia..|by right|]. exists r. split_and!; [done..|].
    rewrite Hiff. naive_solver.
Qed.

Lemma memcmp_const_iff a b n :
  length a = n → length b = n →
  ∃ r, mosquitto__memcmp_const a b n = Some r ∧ (r = 0 ∨ r = 1) ∧ (r = 0 ↔ a = b).
Proof.
  intros Ha Hb. destruct (memcmp_loop_spec a b n 0 0) as (r & Hm & Hr & Hiff); [lia..|by left|].
  exists r. split_and!; [done..|]. rewrite Hiff, !drop_0, !firstn_all2 by lia. tauto.
Qed.

(** What the entry found for a user says. *)
Definition entry_spec (sha512 : option (bytes → bytes)) (password : option bytes) (o : option unpwd) : Z :=
  match o with
  | None => MOSQ_ERR_AUTH
  | Some u =>
      match un_password u, password, sha512 with
      | None, _, _ => MOSQ_ERR_SUCCESS
      | Some _, None, _ => MOSQ_ERR_AUTH
      | Some _, Some _, None => 1
      | Some hash, Some pw, Some h =>
          if bool_decide (h (pw ++ un_salt u) = hash) then MOSQ_ERR_SUCCESS else MOSQ_ERR_AUTH
      end
  end.

(** What the password file says of a user: the first entry decides. *)
Definition unpwd_spec (sha512 : option (bytes → bytes)) (l : list unpwd) (user password : option bytes) : Z :=
  match l, user with
  | [], _ => MOSQ_ERR_SUCCESS
  | _, None => MOSQ_ERR_INVAL
  | _, Some name => entry_spec sha512 password (find (λ u, bool_decide (un_username u = name)) l)
  end.

Lemma unpwd_loop_exact sha512 name password l :
  unpwd_loop sha512 name password l =
    Some (entry_spec sha512 password (find (λ u, bool_decide (un_username u = name)) l)).
Proof.
  induction l as [|u l IH]; [done|]. cbn [unpwd_loop find].
  destruct (bool_decide (un_username u = name)); [|apply IH]. cbn [entry_spec].
  destruct (un_password u) as [hash|]; [|done]. destruct password as [pw|]; [|done].
  unfold _pw_digest. destruct sha512 as [h|]; [|done]. set (d := h _).
  destruct (Nat.eqb_spec (length d) (length hash)) as [El|El].
  - destruct (memcmp_const_iff hash d (length d)) as (r & -> & Hr & Hiff); [done..|]. cbn [mbind option_bind].
    destruct (decide (d = hash)) as [Ed|Ed].
    + rewrite bool_decide_eq_true_2 by done. assert (r = 0) as -> by (apply Hiff; congruence). done.
    + rewrite bool_decide_eq_false_2 by done. destruct Hr as [Hr|Hr]; [|by rewrite Hr].
      apply Hiff in Hr. congruence.
  - rewrite bool_decide_eq_false_2 by congruence. done.
Qed.

(** ** The ACL file, printed and parsed *)

Lemma fgets_all_fuel size n1 n2 f :
  (2 ≤ size)%nat → (length f ≤ n1)%nat → (length f ≤ n2)%nat → fgets_all n1 size f = fgets_all n2 size f.
Proof.
  intros Hs. revert n2 f. induction n1 as [|n1 IH]; intros n2 f H1 H2;
    (destruct f as [|c f]; [by destruct n2|]); cbn in H1, H2; [lia|].
  destruct n2 as [|n2]; [lia|]. cbn [fgets_all].
  destruct (fgets_line (size - 1) (c :: f)) as [l r] eqn:E.
  assert (Hr : (length r ≤ length f)%nat).
  { destruct size as [|[|k]]; [lia..|]. cbn in E.
    assert (Hl : ∀ n g, (length (fgets_line n g).2 ≤ length g)%nat).
    { clear. intros n. induction n as [|n IH]; intros [|d g]; cbn; try lia.
      destruct (d =? 10); cbn; [lia|]. specialize (IH g). destruct (fgets_line n g). cbn in *. lia. }
    destruct (c =? 10); [simplify_eq; done|]. specialize (Hl k f).
    destruct (fgets_line k f). by simplify_eq/=. }
  f_equal. apply IH; lia.
Qed.

Lemma fgets_line_newline n l rest :
  (length l < n)%nat → 10 ∉ l → fgets_line n (l ++ 10 :: rest) = (l ++ [10], rest).
Proof.
  revert n. induction l as [|c l IH]; intros [|n] Hn H10; cbn in *; try lia; [done|].
  apply not_elem_of_cons in H10 as [Hc H10]. destruct (Z.eqb_spec c 10) as [E|_]; [congruence|].
  rewrite IH by (done || lia). done.
Qed.

(** A line that fits in the buffer is read whole. *)
Lemma file_lines_cons size l rest :
  (length l + 2 ≤ size)%nat → 10 ∉ l → 0 ∉ l →
  file_lines size (l ++ 10 :: rest) = (l ++ [10]) :: file_lines size rest.
Proof.
  intros Hs H10 H0. unfold file_lines.
  replace (length (l ++ 10 :: rest)) with (S (length l + length rest)) by (rewrite length_app; cbn; lia).
  cbn [fgets_all]. rewrite fgets_line_newline by (done || lia).
  destruct (l ++ 10 :: rest) as [|x s] eqn:E; [by destruct l|].
  rewrite cstr_id. 2: { rewrite elem_of_app, list_elem_of_singleton. naive_solver lia. }
  f_equal. apply fgets_all_fuel; lia.
Qed.

Lemma skip_while_head p s : (∀ c, head s = Some c → p c = false) → skip_while p s = s.
Proof. destruct s as [|c s]; [done|]. cbn. intros ->; done. Qed.

Lemma take_skip_app p a c s :
  Forall (λ x, p x = true) a → p c = false →
  take_while p (a ++ c :: s) = a ∧ skip_while p (a ++ c :: s) = c :: s.
Proof. intros Ha Hc. induction Ha as [|x a Hx _ [IH1 IH2]]; cbn; [by rewrite Hc|]. by rewrite Hx, IH1. Qed.

Lemma take_skip_all p a : Forall (λ x, p x = true) a → take_while p a = a ∧ skip_while p a = [].
Proof. induction 1 as [|x a Hx _ [IH1 IH2]]; [done|]. cbn. by rewrite Hx, IH1. Qed.

(** A word, then a space and the rest. *)
Lemma strtok_word w rest :
  w ≠ [] → 32 ∉ w → strtok_r spaces (w ++ 32 :: rest) = Some (w, rest).
Proof.
  intros Hw Hs. unfold strtok_r.
  assert (Hf : Forall (λ x, not_in_set spaces x = true) w).
  { apply Forall_forall. intros c Hc. unfold not_in_set, in_set, spaces.
    rewrite bool_decide_eq_false_2; [done|]. set_solver. }
  rewrite skip_while_head.
  - destruct (take_skip_app (not_in_set spaces) w 32 rest Hf eq_refl) as [Ht Hk].
    destruct (w ++ 32 :: rest) as [|x t]; [done|]. by rewrite Ht, Hk.
  - destruct w as [|c w]; [done|]. inversion Hf. intros c' [= <-].
    by apply negb_true_iff.
Qed.

(** The rest of the line. *)
Lemma strtok_all s : s ≠ [] → strtok_r [] s = Some (s, []).
Proof.
  intros Hs. unfold strtok_r. rewrite skip_while_head by done.
  destruct (take_skip_all (not_in_set []) s) as [Ht Hk]; [by apply Forall_forall|].
  destruct s as [|x t]; [done|]. by rewrite Ht, Hk.
Qed.

Lemma chomp_newline s : s ≠ [] → (∀ c, last s = Some c → is_eol c = false) → chomp (s ++ [10]) = s.
Proof.
  intros Hs Hl. destruct (exists_last Hs) as (s' & c & ->). unfold chomp.
  rewrite !rev_app_distr. cbn. rewrite (Hl c) by (by rewrite last_snoc).
  cbn. by rewrite rev_involutive.
Qed.

(** A name or a topic that the file format can carry. *)
Record word_ok (w : bytes) : Prop := {
  word_some : w ≠ [];
  word_bytes : 0 ∉ w ∧ 10 ∉ w;
  word_head : head w ≠ Some 32;
  word_last : last w ≠ Some 13;
  word_len : (length w ≤ 1004)%nat;
}.

Definition print_access (a : Z) : bytes :=
  if a =? MOSQ_ACL_READ then str "read" else if a =? MOSQ_ACL_WRITE then str "write" else str "readwrite".
Definition print_acl (kw : bytes) (a : acl) : bytes :=
  kw ++ 32 :: print_access (acl_access a) ++ 32 :: acl_topic a ++ [10].
Definition print_name (user : option bytes) : bytes :=
  match user with Some n => str "user" ++ 32 :: n ++ [10] | None => [] end.
Definition print_user (u : acl_user) : bytes :=
  print_name (au_username u) ++ concat (print_acl (str "topic") <$> au_acl u).
(** A file that says the same as these ACLs. *)
Definition print_acls (users : list acl_user) (patterns : list acl) : bytes :=
  concat (print_user <$> users) ++ concat (print_acl (str "pattern") <$> patterns).

Lemma access_print a :
  1 ≤ a ≤ 3 →
  access_of (print_access a) = Some a ∧ print_access a ≠ [] ∧ 32 ∉ print_access a ∧
  0 ∉ print_access a ∧ 10 ∉ print_access a ∧ (length (print_access a) ≤ 9)%nat.
Proof.
  intros Ha. assert (a = 1 ∨ a = 2 ∨ a = 3) as [->|[->| ->]] by lia; cbn;
    (split_and!; [done|done|by_compute..|lia]).
Qed.

(** Reading one printed line. *)
Lemma word_line_chomp kw w :
  word_ok w → chomp ((kw ++ w) ++ [10]) = kw ++ w.
Proof.
  intros Hw. apply chomp_newline.
  - intros [_ E]%app_eq_nil. by apply (word_some w Hw).
  - intros c. destruct (exists_last (word_some w Hw)) as (w' & c' & E). subst w.
    rewrite app_assoc, last_snoc. intros [= ->]. pose proof (word_last _ Hw) as H13.
    pose proof (word_bytes _ Hw) as [_ H10]. rewrite last_snoc in H13.
    unfold is_eol. destruct (Z.eqb_spec c 10), (Z.eqb_spec c 13); try done; subst; set_solver.
Qed.

Lemma skip_word w : word_ok w → skip_while (in_set spaces) w = w.
Proof.
  intros Hw. apply skip_while_head. intros c Hc. unfold in_set. apply bool_decide_eq_false.
  pose proof (word_head _ Hw). set_solver.
Qed.

Lemma parse_topic_line sec user kw a :
  kw = str "topic" ∨ kw = str "pattern" → word_ok (acl_topic a) → 1 ≤ acl_access a ≤ 3 →
  parse_acl_line (print_acl kw a) user sec =
    (MOSQ_ERR_SUCCESS, user,
     if bool_decide (kw ≠ str "topic") then (_add_acl_pattern sec (acl_topic a) (acl_access a)).2
     else (_add_acl sec user (acl_topic a) (acl_access a)).2).
Proof.
  intros Hkw Hw Ha. destruct (access_print _ Ha) as (Hof & Hne & Hsp & _). unfold parse_acl_line, print_acl.
  set (acc := print_access (acl_access a)) in *.
  replace (kw ++ 32 :: acc ++ 32 :: acl_topic a ++ [10])
    with (((kw ++ 32 :: acc ++ [32]) ++ acl_topic a) ++ [10])
    by (rewrite <-!app_assoc; cbn; by rewrite <-!app_assoc).
  rewrite word_line_chomp by done.
  replace ((kw ++ 32 :: acc ++ [32]) ++ acl_topic a) with (kw ++ 32 :: acc ++ 32 :: acl_topic a)
    by (rewrite <-!app_assoc; cbn; by rewrite <-!app_assoc).
  replace (first_char _ =? c_hash) with false by (by destruct Hkw as [-> | ->]).
  rewrite strtok_word by (destruct Hkw as [-> | ->]; [done || by_compute..]).
  replace (bool_decide (kw = str "topic") || bool_decide (kw = str "pattern")) with true
    by (by destruct Hkw as [-> | ->]).
  unfold parse_topic. rewrite strtok_word, strtok_all, Hof, skip_word by (done || apply Hw).
  by case_bool_decide.
Qed.

Lemma parse_user_line sec user n :
  word_ok n → parse_acl_line (print_name (Some n)) user sec = (MOSQ_ERR_SUCCESS, Some n, sec).
Proof.
  intros Hw. unfold parse_acl_line, print_name.
  replace (str "user" ++ 32 :: n ++ [10]) with ((str "user " ++ n) ++ [10]) by done.
  rewrite word_line_chomp by done. cbn [str app]. 
  change (strtok_r spaces (_ :: _ :: _ :: _ :: _ :: n)) with (strtok_r spaces (str "user" ++ 32 :: n)).
  rewrite strtok_word, strtok_all, skip_word by (done || by_compute || apply Hw). done.
Qed.

Abbreviation parse_file f := (parse_acl_lines (file_lines 1024 f)).

Definition entry_ok (a : acl) : Prop := word_ok (acl_topic a) ∧ 1 ≤ acl_access a ≤ 3.

(** A printed entry is one line of the file. *)
Lemma print_acl_line kw a rest :
  kw = str "topic" ∨ kw = str "pattern" → entry_ok a →
  file_lines 1024 (print_acl kw a ++ rest) = print_acl kw a :: file_lines 1024 rest.
Proof.
  intros Hkw [Hw Ha]. destruct (access_print _ Ha) as (_ & _ & _ & H0 & H10 & Hlen).
  unfold print_acl. set (acc := print_access (acl_access a)) in *.
  replace (kw ++ 32 :: acc ++ 32 :: acl_topic a ++ [10])
    with ((kw ++ 32 :: acc ++ 32 :: acl_topic a) ++ [10])
    by (rewrite <-!app_assoc; cbn; by rewrite <-!app_assoc).
  rewrite <-(app_assoc _ [10] rest). cbn [app].
  assert (Hk : 0 ∉ kw ∧ 10 ∉ kw ∧ (length kw ≤ 7)%nat)
    by (destruct Hkw as [-> | ->]; (split_and!; [by_compute..|cbn; lia])).
  pose proof (word_len _ Hw). pose proof (word_bytes _ Hw) as [Hw0 Hw10]. apply file_lines_cons.
  - rewrite length_app. cbn [length]. rewrite length_app. cbn [length]. lia.
  - rewrite elem_of_app, elem_of_cons, elem_of_app, elem_of_cons. naive_solver.
  - rewrite elem_of_app, elem_of_cons, elem_of_app, elem_of_cons. naive_solver.
Qed.

Lemma parse_patterns l user sec :
  Forall (λ a, entry_ok a ∧ pattern_ok a) l →
  parse_file (concat (print_acl (str "pattern") <$> l)) user sec =
    (MOSQ_ERR_SUCCESS, set_patterns (λ k, k ++ l) sec).
Proof.
  intros Hl. revert sec. induction Hl as [|a l [Ha Hp] _ IH]; intros sec; cbn [fmap list_fmap concat].
  { unfold set_patterns. cbn. destruct sec. cbn. by rewrite app_nil_r. }
  rewrite print_acl_line by auto. cbn [parse_acl_lines].
  rewrite parse_topic_line by (auto; apply Ha). rewrite bool_decide_eq_true_2 by done.
  cbn [_add_acl_pattern snd]. rewrite Z.eqb_refl, IH. f_equal. unfold set_patterns. cbn.
  rewrite <-app_assoc. cbn. destruct Hp as (_ & <- & <-). by destruct a.
Qed.

Lemma same_user_eq u n : same_user u n = bool_decide (n = u).
Proof.
  destruct u as [u|], n as [n|]; cbn; try done.
  destruct (decide (n = u)); [rewrite !bool_decide_eq_true_2|rewrite !bool_decide_eq_false_2]; congruence.
Qed.

Lemma add_to_user_new user a l :
  user ∉ (au_username <$> l) → add_to_user user a l = l ++ [AclUser user [a]].
Proof.
  induction l as [|u l IH]; [done|]. cbn. rewrite not_elem_of_cons, same_user_eq. intros [H1 H2].
  rewrite bool_decide_eq_false_2 by congruence. by rewrite IH.
Qed.

Lemma add_to_user_last user a l k :
  user ∉ (au_username <$> l) →
  add_to_user user a (l ++ [AclUser user k]) = l ++ [AclUser user (k ++ [a])].
Proof.
  induction l as [|u l IH]; cbn; intros Hu; rewrite same_user_eq.
  - by rewrite bool_decide_eq_true_2.
  - apply not_elem_of_cons in Hu as [H1 H2]. rewrite bool_decide_eq_false_2 by done. by rewrite IH.
Qed.

(** The rest of a user's entries. *)
Lemma parse_more l user sec done k rest :
  user ∉ (au_username <$> done) → sec_acl_list sec = done ++ [AclUser user k] →
  Forall (λ a, entry_ok a ∧ ucount a = 0 ∧ ccount a = 0) l →
  parse_file (concat (print_acl (str "topic") <$> l) ++ rest) user sec =
    parse_file rest user (set_acls (λ _, done ++ [AclUser user (k ++ l)]) sec).
Proof.
  intros Hu Hsec Hl. revert k sec Hsec.
  induction Hl as [|a l (Ha & Hu0 & Hc0) _ IH]; intros k sec Hsec; cbn [fmap list_fmap concat app].
  { rewrite app_nil_r, <-Hsec. by destruct sec. }
  rewrite <-app_assoc, print_acl_line by auto. cbn [parse_acl_lines].
  rewrite parse_topic_line by (auto; apply Ha). rewrite bool_decide_eq_false_2 by naive_solver.
  unfold _add_acl. cbn [snd]. rewrite Z.eqb_refl, (IH (k ++ [a])).
  - f_equal. unfold set_acls. cbn. by rewrite <-app_assoc.
  - cbn. rewrite Hsec, add_to_user_last by done. do 4 f_equal. destruct a; cbn in *. by subst.
Qed.

Definition user_ok (u : acl_user) : Prop :=
  au_acl u ≠ [] ∧ Forall (λ a, entry_ok a ∧ ucount a = 0 ∧ ccount a = 0) (au_acl u) ∧
  (∀ n, au_username u = Some n → word_ok n).

Lemma parse_one_user u cur sec rest :
  user_ok u → au_username u ∉ (au_username <$> sec_acl_list sec) →
  (au_username u = None → cur = None) →
  parse_file (print_user u ++ rest) cur sec =
    parse_file rest (au_username u) (set_acls (λ l, l ++ [u]) sec).
Proof.
  intros (Hne & Hacl & Hn) Hnew Hcur. unfold print_user. rewrite <-app_assoc.
  destruct u as [name [|a l]]; [done|]. cbn [au_username au_acl] in *.
  trans (parse_file (concat (print_acl (str "topic") <$> a :: l) ++ rest) name sec).
  { destruct name as [n|]; [|by rewrite Hcur]. specialize (Hn n eq_refl).
    pose proof (word_bytes _ Hn) as [H0 H10]. pose proof (word_len _ Hn).
    cbn [print_name].
    replace (str "user" ++ 32 :: n ++ [10]) with ((str "user " ++ n) ++ [10]) by done.
    rewrite <-(app_assoc (str "user " ++ n)). cbn [app]. rewrite file_lines_cons.
    - cbn [parse_acl_lines]. change ((str "user " ++ n) ++ [10]) with (print_name (Some n)).
      by rewrite parse_user_line.
    - rewrite length_app. cbn [length str]. lia.
    - rewrite elem_of_app. intros [H'|H']; [|done]. revert H'. by_compute.
    - rewrite elem_of_app. intros [H'|H']; [|done]. revert H'. by_compute. }
  inversion Hacl as [|?? (Ha & Hu0 & Hc0) Hl]; subst. cbn [fmap list_fmap concat].
  rewrite <-app_assoc, print_acl_line by auto. cbn [parse_acl_lines].
  rewrite parse_topic_line by (auto; apply Ha). rewrite bool_decide_eq_false_2 by naive_solver.
  unfold _add_acl. cbn [snd]. rewrite Z.eqb_refl, (parse_more l name _ (sec_acl_list sec) [a]); try done.
  cbn. rewrite add_to_user_new by done. do 4 f_equal. destruct a; cbn in *. by subst.
Qed.

Lemma parse_users users cur sec rest :
  Forall user_ok users →
  NoDup (au_username <$> sec_acl_list sec ++ users) →
  (None ∈ (au_username <$> tail users) → False) → (cur ≠ None → None ∉ (au_username <$> users)) →
  ∃ cur', parse_file (concat (print_user <$> users) ++ rest) cur sec =
    parse_file rest cur' (set_acls (λ l, l ++ users) sec).
Proof.
  intros Hu. revert cur sec. induction Hu as [|u users Hu Hus IH]; intros cur sec Hnd Htl Hcur.
  { exists cur. unfold set_acls. cbn. destruct sec. cbn. by rewrite app_nil_r. }
  cbn [fmap list_fmap concat tail] in *. rewrite <-app_assoc.
  rewrite parse_one_user; [|done| |].
  - destruct (IH (au_username u) (set_acls (λ l, l ++ [u]) sec)) as [cur' Hc].
    + cbn. by rewrite <-app_assoc.
    + intros H. apply Htl. destruct users; [done|]. cbn in *. by right.
    + intros _ H. by apply Htl.
    + exists cur'. rewrite Hc. f_equal. unfold set_acls. cbn. by rewrite <-app_assoc.
  - rewrite fmap_app, fmap_cons in Hnd. apply NoDup_app in Hnd as (_ & Hx & _). intros H. apply (Hx _ H). by left.
  - intros E. destruct cur; [|done]. exfalso. apply Hcur; [done|]. rewrite E. by left.
Qed.

(** ** The check is defined *)

(** The rules as [_add_acl] and [_add_acl_pattern] leave them: the filters are
    C strings, and the counts of a pattern are those of its text. *)
Definition rules_ok (sec : security) : Prop :=
  Forall (λ u, Forall (λ a, 0 ∉ acl_topic a) (au_acl u)) (sec_acl_list sec) ∧ Forall pattern_ok (acl_patterns sec).

(** [context->acl_list] points at an entry of [db->acl_list]. *)
Definition entry_of (sec : security) (o : option nat) : Prop := ∀ i, o = Some i → is_Some (sec_acl_list sec !! i).

Lemma match_result_defined f t : 0 ∉ f → is_Some (match_result f t).
Proof. intros Hf. destruct (topic_matches_sub_total f t Hf) as (rc & b & E). unfold match_result. rewrite E. by eexists. Qed.

Lemma check_user_acls_defined topic access l :
  Forall (λ a, 0 ∉ acl_topic a) l → is_Some (check_user_acls topic access l).
Proof.
  induction 1 as [|a l Ha _ IH]; cbn [check_user_acls]; [by eexists|]. case_match; [done|].
  destruct (match_result_defined _ topic Ha) as [b ->]. cbn [mbind option_bind]. case_match; [by eexists|done].
Qed.

Lemma check_patterns_defined cid user topic access l :
  Forall pattern_ok l → is_Some (check_patterns cid user topic access l).
Proof.
  induction 1 as [|a l Ha _ IH]; cbn [check_patterns]; [by eexists|].
  destruct (negb _ && _) eqn:Hu; [done|]. rewrite pattern_acl_exact; [|done|].
  - cbn [mbind option_bind]. edestruct match_result_defined as [b ->]; [apply cstr_no_nul|].
    cbn [mbind option_bind]. case_match; [by eexists|done].
  - destruct (Z.eqb_spec (ucount a) 0); [by left|right]. destruct user; [by eexists|done].
Qed.

(** With such rules and such a pointer the check reads nothing that is not
    there, whatever the client, the topic and the access are. *)
Lemma acl_check_defined sec x topic access :
  rules_ok sec → entry_of sec (acl_list x) → is_Some (mosquitto_acl_check sec x topic access).
Proof.
  intros [Hu Hp] He. unfold mosquitto_acl_check. destruct (id x) as [cid|] eqn:Hid; [|by eexists].
  destruct (plugin sec) as [p|]; [by repeat case_match; eexists|]. unfold mosquitto_acl_check_default.
  do 3 (case_match; [by eexists|]).
  assert (∃ acls, match acl_list x with Some i => au_acl <$> sec_acl_list sec !! i | None => Some [] end = Some acls ∧
    Forall (λ a, 0 ∉ acl_topic a) acls) as (acls & -> & Ha).
  { destruct (acl_list x) as [i|]; [|by exists []]. destruct (He i eq_refl) as [u Hi]. exists (au_acl u). rewrite Hi.
    split; [done|]. by apply (Forall_lookup_1 _ _ _ _ Hu Hi). }
  cbn [mbind option_bind]. destruct (check_user_acls_defined topic access acls Ha) as [g ->]. cbn [mbind option_bind].
  do 3 (case_match; [by eexists|]). rewrite Hid. cbn [mbind option_bind].
  destruct (check_patterns_defined cid (username x) topic access _ Hp) as [b ->]. by eexists.
Qed.

Lemma unpwd_check_defined sha512 sec user password : is_Some (mosquitto_unpwd_check sha512 sec user password).
Proof.
  unfold mosquitto_unpwd_check. destruct (plugin sec) as [p|]; [by eexists|]. unfold mosquitto_unpwd_check_default.
  case_match; [by eexists|]. destruct user as [u|]; [|by eexists]. rewrite unpwd_loop_exact. by eexists.
Qed.

(** ** Theorems *)

(** A broker's ACLs and a client, for the witnesses. *)
Definition sample_security : security :=
  Security [AclUser None [Acl (str "public/#") 1 0 0]; AclUser (Some (str "ann")) [Acl (str "a/+") 3 0 0]]
    [Acl (str "dev/%c/%u/#") 2 1 1] [Unpwd (str "ann") (Some [7; 8]) [8]] [] None false None None None.

Definition sample_ann : mosquitto :=
  Mosquitto None mosq_p_mqtt311 (Some (str "c1")) (Some (str "ann")) None 60 0 mosq_cs_connected 0 0 0
    packet_zero None [] None true false false None [] None 0 0 (Some 1%nat) None 0 [] [] [] [].

(** C8: without a plugin, with ACLs whose filters are valid, for a valid topic
    and a client that has an id, [mosquitto_acl_check] is defined and returns
    success exactly when the ACLs allow the access: there are none at all, the
    client is a bridge, one of the entries of its user gives the access and
    matches the topic, or a pattern does once the client's names are put in it,
    which is only tried if neither name holds a wildcard. Matching is that of
    MQTT by levels, except that a filter in [+/#] does not match the parent
    level. Every other access is denied. *)
Theorem acl_check_exact sec x topic access :
  plugin sec = None → is_Some (id x) → acls_ok sec x → topic_valid topic →
  ∃ rc, mosquitto_acl_check sec x topic access = Some rc ∧
    (rc = MOSQ_ERR_SUCCESS ∨ rc = MOSQ_ERR_ACL_DENIED) ∧
    (rc = MOSQ_ERR_SUCCESS ↔ acl_allows sec x topic access).
Proof.
  intros Hp [cid Hid] Hok Ht. unfold mosquitto_acl_check. rewrite Hid, Hp.
  apply acl_check_default_exact_aux; eauto.
Qed.

Lemma acl_check_exact_witness :
  ∃ rc, mosquitto_acl_check sample_security sample_ann (str "dev/c1/ann/temp") MOSQ_ACL_WRITE = Some rc ∧
    (rc = MOSQ_ERR_SUCCESS ∨ rc = MOSQ_ERR_ACL_DENIED) ∧
    (rc = MOSQ_ERR_SUCCESS ↔ acl_allows sample_security sample_ann (str "dev/c1/ann/temp") MOSQ_ACL_WRITE).
Proof.
  apply acl_check_exact; [done|by eexists| |split; [done|reflexivity]].
  split.
  - intros i [= <-]. by eexists.
  - apply Forall_cons. split; [|apply Forall_cons; split; [|done]]; (apply Forall_cons; split; [|done]);
      (split_and!; [done|by_compute|reflexivity]).
  - apply Forall_cons. split; [|done]. split_and!; [by_compute|reflexivity|reflexivity].
  - intros cid [= <-]. apply Forall_cons. split; [|done]. split_and!; [done|by_compute|reflexivity].
Defined.

(** The buffer [mosquitto_acl_check_default] allocates for a pattern of
    the ACL file is exactly as long as the pattern with the client's id and
    username in place of every [%c] and [%u]: nothing is written past its
    end, every byte before the terminator was written, and the filter that
    is matched is that text. *)
Lemma pattern_expansion_fits sec topic access cid user :
  0 ∉ topic → 0 ∉ cid → 0 ∉ default [] user →
  ∃ a, acl_patterns (_add_acl_pattern sec topic access).2 = acl_patterns sec ++ [a] ∧
    acl_topic a = topic ∧
    ((ucount a = 0 ∨ is_Some user) →
     pattern_len cid user a = Z.of_nat (length (expand cid user topic)) ∧
     cstr <$> pattern_acl cid user a = Some (expand cid user topic)).
Proof.
  intros Ht Hc Hu. eexists. split; [reflexivity|]. split; [reflexivity|]. intros Hn.
  set (a := Acl _ _ _ _) in *. assert (Hp : pattern_ok a) by done.
  pose proof (pattern_acl_exact cid user a Hp Hn) as He. rewrite He. cbn [fmap option_fmap option_map].
  rewrite cstr_id by (by apply expand_no_nul). split; [|done].
  change topic with (acl_topic a). rewrite expand_length.
  2: { intros ->. destruct Hn as [Hn|[? ?]]; [exact Hn|done]. }
  unfold pattern_len. destruct user as [u|]; [done|]. cbn [a ucount ccount acl_topic] in *.
  destruct Hn as [Hn|[? ?]]; [|done]. rewrite Hn. lia.
Qed.

Lemma unpwd_default_spec sha512 sec user password :
  mosquitto_unpwd_check_default sha512 sec user password =
    Some (unpwd_spec sha512 (sec_unpwd sec) user password).
Proof.
  unfold mosquitto_unpwd_check_default, unpwd_spec. destruct (sec_unpwd sec) as [|u l]; [done|].
  rewrite bool_decide_eq_false_2 by done. destruct user as [n|]; [|done]. apply unpwd_loop_exact.
Qed.

(** [mosquitto_unpwd_check_default] is defined and exact: with no
    password file everything is accepted; otherwise the first entry with the
    name decides, by the digest of the password and the entry's salt, which
    the constant-time comparison accepts only if it equals the stored one. *)
Lemma unpwd_check_exact sha512 sec user password :
  mosquitto_unpwd_check_default sha512 sec user password =
    Some (unpwd_spec sha512 (sec_unpwd sec) user password).
Proof. apply unpwd_default_spec. Qed.

(** C33: a file printed from ACLs, parsed by [_aclfile_parse] into a broker
    that has none, gives back exactly those users, entries and patterns, in
    their order. *)
Theorem acl_file_roundtrip sec users patterns :
  sec_acl_list sec = [] → acl_patterns sec = [] →
  acl_file sec = Some (Some (print_acls users patterns)) →
  Forall user_ok users → NoDup (au_username <$> users) → None ∉ (au_username <$> tail users) →
  Forall (λ a, entry_ok a ∧ pattern_ok a) patterns →
  _aclfile_parse sec = (MOSQ_ERR_SUCCESS, set_patterns (λ _, patterns) (set_acls (λ _, users) sec)).
Proof.
  intros Ha Hp Hf Hu Hnd Htl Hpat. unfold _aclfile_parse. rewrite Hf. unfold print_acls.
  destruct (parse_users users None sec (concat (print_acl (str "pattern") <$> patterns)))
    as [cur ->]; [done|by rewrite Ha|done|done|].
  rewrite parse_patterns by done. f_equal. destruct sec. cbn in *. by subst.
Qed.

Lemma acl_file_roundtrip_witness :
  let users := [AclUser None [Acl (str "public/#") 1 0 0]; AclUser (Some (str "ann")) [Acl (str "a/+") 3 0 0]] in
  let patterns := [Acl (str "dev/%c/%u/#") 2 1 1] in
  let sec := Security [] [] [] [] None false None (Some (Some (print_acls users patterns))) None in
  _aclfile_parse sec = (MOSQ_ERR_SUCCESS, set_patterns (λ _, patterns) (set_acls (λ _, users) sec)).
Proof.
  intros users patterns sec.
  assert (Hw : ∀ w, (w ≠ [] ∧ (0 ∉ w ∧ 10 ∉ w) ∧ head w ≠ Some 32 ∧ last w ≠ Some 13 ∧ (length w ≤ 1004)%nat) → word_ok w).
  { intros w (?&?&?&?&?). by split. }
  apply acl_file_roundtrip; try done.
  - apply Forall_cons. split; [|apply Forall_cons; split; [|done]];
      (split; [done|]; split; [apply Forall_cons; split; [|done]; split; [split; [apply Hw; by_compute|cbn; lia]|done]|]).
    + done.
    + intros n [= <-]. apply Hw. by_compute.
  - by_compute.
  - by_compute.
  - apply Forall_cons. split; [|done]. split; [split; [apply Hw; by_compute|cbn; lia]|].
    split_and!; [by_compute|reflexivity|reflexivity].
Defined.

(** A blank line in a password file makes [_pwfile_parse] read the byte
    before the start of the name. *)
Theorem pwfile_blank_line f root : _pwfile_parse (Some (10 :: f)) root = None.
Proof. by destruct f. Qed.

(** A reload keeps the patterns of the old file when the old file had no
    entry of a user: [_acl_cleanup] returns before it frees them. *)
Theorem reload_keeps_patterns sec d :
  sec_acl_list sec = [] → acl_patterns (mosquitto_security_cleanup_default sec d).1.2 = acl_patterns sec.
Proof. intros H. unfold mosquitto_security_cleanup_default, _acl_cleanup. by rewrite H. Qed.
