(* ===== verification/Subs.v ===== *)
(** * The subscription tree (src/subs.c)

    Subscriptions and retained messages are kept in a tree with one level of
    nodes per topic level. [_sub_add] and [_sub_remove] maintain it,
    [_sub_search] routes a publication, [_retain_search] finds the retained
    messages of a new subscription. *)

From stdpp Require Import base list numbers strings option sets gmap.
From Stdlib Require Import ZArith Lia.
From S2P Require Import Prelude Topic Packet State Store Send Messages Db.
Local Open Scope Z_scope.
Local Open Scope broker_scope.


(** ** [_sub_add] *)

(** The loop over the leaves: the index of the one whose context has the
    client's id. Every context passed is read. *)
Fixpoint find_leaf (ctxs : gmap ptr mosquitto) (cid : bytes) (l : list subleaf) (i : nat)
    : option (option nat) :=
  match l with
  | [] => Some None
  | lf :: l' =>
      x ← ctxs !! lf_context lf;
      if bool_decide (id x = Some cid) then Some (Some i) else find_leaf ctxs cid l' (S i)
  end.

(** At the end of the tokens: the return code, whether a leaf was added, and
    the node. *)
Definition add_leaf (ctxs : gmap ptr mosquitto) (c : option ptr) (q : Z) (h : subhier)
    : option (Z * bool * subhier) :=
  match c with
  | None => Some (MOSQ_ERR_SUCCESS, false, h)
  | Some c =>
      x ← ctxs !! c;
      match id x with
      | None => Some (MOSQ_ERR_SUCCESS, false, h)
      | Some cid =>
          found ← find_leaf ctxs cid (sh_subs h) 0;
          match found with
          | Some i =>
              let rc := if bool_decide (protocol x = mosq_p_mqtt31) then -1 else 0 in
              Some (rc, false,
                set_sh_subs (alter (λ lf, Subleaf (lf_context lf) q) i (sh_subs h)) h)
          | None => Some (MOSQ_ERR_SUCCESS, true, set_sh_subs (sh_subs h ++ [Subleaf c q]) h)
          end
      end
  end.

(** The first child with the token's topic, or a new last one. *)
Fixpoint _sub_add (ctxs : gmap ptr mosquitto) (c : option ptr) (q : Z) (tokens : list bytes)
    (h : subhier) : option (Z * bool * subhier) :=
  match tokens with
  | [] => add_leaf ctxs c q h
  | t :: ts =>
      match list_find (λ b, sh_topic b = t) (sh_children h) with
      | Some (i, b) =>
          '(rc, added, b') ← _sub_add ctxs c q ts b;
          Some (rc, added, set_sh_children (<[i := b']> (sh_children h)) h)
      | None =>
          '(rc, added, b') ← _sub_add ctxs c q ts (new_node t);
          Some (rc, added, set_sh_children (sh_children h ++ [b']) h)
      end
  end.

(** [context->subs]: the first free slot, or a new one. *)
Fixpoint fill_slot (p : path) (l : list (option path)) : list (option path) :=
  match l with
  | [] => [Some p]
  | None :: l' => Some p :: l'
  | Some x :: l' => Some x :: fill_slot p l'
  end.

(** The root's child with the first token's topic, or a new first one. *)
Definition sub_add_root (ctxs : gmap ptr mosquitto) (c : option ptr) (q : Z) (t : bytes)
    (tokens : list bytes) (ch : list subhier) : option (Z * bool * list subhier) :=
  match list_find (λ b, sh_topic b = t) ch with
  | Some (i, b) =>
      '(rc, added, b') ← _sub_add ctxs c q tokens b;
      Some (rc, added, <[i := b']> ch)
  | None =>
      '(rc, added, b') ← _sub_add ctxs c q tokens (new_node t);
      Some (rc, added, b' :: ch)
  end.

(** [mqtt3_sub_add]. A new leaf is also noted in the context. *)
Definition mqtt3_sub_add (c : ptr) (sub : bytes) (q : Z) : M db Z :=
  let* tokens := mlift (_sub_topic_tokenise sub) in
  let* d := mget in
  let* t := mlift (head tokens) in
  let* r := mlift (sub_add_root (contexts d) (Some c) q t tokens (subs_children d)) in
  let '(rc, added, ch) := r in
  mmodify (set_subs_children (λ _, ch)) ;;;
  (if (added : bool) then
     upd_context c (set_subs (fill_slot (t :: tokens))) ;;;
     mmodify (set_subscription_count (λ n, n + 1))
   else ret tt) ;;;
  ret (if rc =? -1 then MOSQ_ERR_SUCCESS else rc).

(** ** [_sub_remove] *)

Definition empty_node (h : subhier) : bool :=
  bool_decide (sh_children h = []) && bool_decide (sh_subs h = [])
  && bool_decide (sh_retained h = None).

(** The first leaf of the context goes; the boolean says there was one. *)
Definition remove_leaf (c : ptr) (h : subhier) : bool * subhier :=
  match list_find (λ lf, lf_context lf = c) (sh_subs h) with
  | Some (i, _) => (true, set_sh_subs (delete i (sh_subs h)) h)
  | None => (false, h)
  end.

Fixpoint _sub_remove (c : ptr) (tokens : list bytes) (h : subhier) : bool * subhier :=
  match tokens with
  | [] => remove_leaf c h
  | t :: ts =>
      match list_find (λ b, sh_topic b = t) (sh_children h) with
      | Some (i, b) =>
          let '(removed, b') := _sub_remove c ts b in
          (removed, set_sh_children
                      (if empty_node b' then delete i (sh_children h)
                       else <[i := b']> (sh_children h)) h)
      | None => (false, h)
      end
  end.

(** The first slot that holds the node is cleared. *)
Fixpoint clear_slot (p : path) (l : list (option path)) : list (option path) :=
  match l with
  | [] => []
  | x :: l' => if bool_decide (x = Some p) then None :: l' else x :: clear_slot p l'
  end.

Definition mqtt3_sub_remove (c : ptr) (sub : bytes) : M db Z :=
  let* tokens := mlift (_sub_topic_tokenise sub) in
  let* d := mget in
  let* t := mlift (head tokens) in
  match list_find (λ b, sh_topic b = t) (subs_children d) with
  | Some (i, b) =>
      let '(removed, b') := _sub_remove c tokens b in
      mmodify (set_subs_children <[i := b']>) ;;;
      (if removed then
         upd_context c (set_subs (clear_slot (t :: tokens))) ;;;
         mmodify (set_subscription_count (λ n, n - 1))
       else ret tt) ;;;
      ret MOSQ_ERR_SUCCESS
  | None => ret MOSQ_ERR_SUCCESS
  end.

(** ** [_sub_search]

    The traversal, for any treatment [process] of the nodes it reaches. *)

Section search.
Context {S : Type} (process : subhier → bool → M S subhier).

Definition is_plus (b : subhier) : bool := bool_decide (sh_topic b = [c_plus]).
Definition is_hash (b : subhier) : bool := bool_decide (sh_topic b = [c_hash]).

Fixpoint _sub_search (tokens : list bytes) (set_retain : bool) (h : subhier) {struct h}
    : M S subhier :=
  match h with
  | Subhier topic leaves retained children =>
      let* ch :=
        (fix branches (bs : list subhier) : M S (list subhier) :=
           match bs with
           | [] => ret []
           | b :: bs' =>
               let* b' :=
                 match tokens with
                 | t :: ts =>
                     if bool_decide (sh_topic b = t) || is_plus b then
                       let sr := if is_plus b then false else set_retain in
                       let* b1 := _sub_search ts sr b in
                       if bool_decide (ts = []) then process b1 sr else ret b1
                     else if is_hash b && bool_decide (sh_children b = [])
                     then process b false else ret b
                 | [] =>
                     if is_hash b && bool_decide (sh_children b = [])
                     then process b false else ret b
                 end in
               let* bs'' := branches bs' in
               ret (b' :: bs'')
           end) children in
      ret (Subhier topic leaves retained ch)
  end.
End search.

Section subs.
Context (E : env).
(** [mosquitto_acl_check] *)
Context (acl_check : mosquitto → bytes → Z → Z).

(** ** [_subs_process] *)

Definition upgrade_qos (q client_qos : Z) : Z :=
  if upgrade_outgoing_qos E then client_qos
  else if client_qos <? q then client_qos else q.

(** The new retained message replaces the old one; an empty one only clears
    it. *)
Definition set_retained (topic : bytes) (stored : ptr) (h : subhier) : M db subhier :=
  (if bool_decide (take 4 topic = str "$SYS") then ret tt
   else on_store (mmodify (λ d, set_persistence_changes (persistence_changes d + 1) d))) ;;;
  (match sh_retained h with
   | Some r =>
       on_store (mosquitto__db_msg_store_deref r) ;;;
       mmodify (set_retained_count (λ n, n - 1))
   | None => ret tt
   end) ;;;
  let* d := mget in
  let* st := mlift (deref_store stored (dmsg d)) in
  if payloadlen st =? 0 then ret (set_sh_retained None h)
  else
    on_store (λ d, d ← store_ref stored d; Some (tt, d)) ;;;
    mmodify (set_retained_count (λ n, n + 1)) ;;;
    ret (set_sh_retained (Some stored) h).

(** The loop over the leaves; [rc] is what will be returned. *)
Fixpoint deliver (source : option bytes) (topic : bytes) (q : Z) (r : bool) (stored : ptr)
    (leaves : list subleaf) (rc : Z) : M db Z :=
  match source, leaves with
  | None, _ | _, [] => ret rc
  | Some src, lf :: leaves' =>
      let c := lf_context lf in
      let* x := get_context c in
      match id x with
      | None => deliver source topic q r stored leaves' rc
      | Some cid =>
          if is_bridge x && bool_decide (cid = src)
          then deliver source topic q r stored leaves' rc
          else
            let rc2 := acl_check x topic MOSQ_ACL_READ in
            if rc2 =? MOSQ_ERR_ACL_DENIED then deliver source topic q r stored leaves' rc
            else if rc2 =? MOSQ_ERR_SUCCESS then
              let msg_qos := upgrade_qos q (lf_qos lf) in
              let* m := if msg_qos =? 0 then ret 0 else on_context c _mosquitto_mid_generate in
              let client_retain := if is_bridge x then r else false in
              let* rc3 := on_cm c (mqtt3_db_message_insert E m mosq_md_out msg_qos client_retain stored) in
              deliver source topic q r stored leaves' (if rc3 =? 1 then 1 else rc)
            else ret 1
      end
  end.

Definition _subs_process (source : option bytes) (topic : bytes) (q : Z) (r : bool) (stored : ptr)
    (h : subhier) (sr : bool) : M db subhier :=
  let* h' := if r && sr then set_retained topic stored h else ret h in
  deliver source topic q r stored (sh_subs h) 0 ;;;
  ret h'.

(** ** [mqtt3_db_messages_queue] *)

(** The loop over the root's children. *)
Fixpoint queue_roots (source : option bytes) (topic : bytes) (q : Z) (r : bool) (stored : ptr)
    (tokens : list bytes) (t : bytes) (bs : list subhier) : M db (list subhier) :=
  match bs with
  | [] => ret []
  | b :: bs' =>
      let* b' :=
        if bool_decide (sh_topic b = t) then
          let* d := mget in
          let* b1 := if r then mlift (snd <$> _sub_add (contexts d) None 0 tokens b) else ret b in
          _sub_search (_subs_process source topic q r stored) tokens true b1
        else ret b in
      let* bs'' := queue_roots source topic q r stored tokens t bs' in
      ret (b' :: bs'')
  end.

(** The new value of the caller's pointer. *)
Definition mqtt3_db_messages_queue (source : option bytes) (topic : bytes) (q : Z) (r : bool)
    (stored : ptr) : M db (Z * option ptr) :=
  let* tokens := mlift (_sub_topic_tokenise topic) in
  on_store (λ d, d ← store_ref stored d; Some (tt, d)) ;;;
  let* t := mlift (head tokens) in
  let* d := mget in
  let* bs := queue_roots source topic q r stored tokens t (subs_children d) in
  mmodify (set_subs_children (λ _, bs)) ;;;
  let* o := on_store (mosquitto__db_msg_store_deref stored) in
  ret (0, o).

(** ** Retained messages for a new subscription *)

Definition _retain_process (retained : ptr) (c : ptr) (sub_qos : Z) : M db Z :=
  let* d := mget in
  let* st := mlift (deref_store retained (dmsg d)) in
  let* x := get_context c in
  let* topic := mlift (ms_topic st) in
  let rc := acl_check x topic MOSQ_ACL_READ in
  if rc =? MOSQ_ERR_ACL_DENIED then ret MOSQ_ERR_SUCCESS
  else if negb (rc =? MOSQ_ERR_SUCCESS) then ret rc
  else
    let q := if sub_qos <? ms_qos st then sub_qos else ms_qos st in
    let* m := if 0 <? q then on_context c _mosquitto_mid_generate else ret 0 in
    on_cm c (mqtt3_db_message_insert E m mosq_md_out q true retained).

Definition process_retained (c : ptr) (sub_qos : Z) (b : subhier) : M db unit :=
  match sh_retained b with
  | Some r => _retain_process r c sub_qos ;;; ret tt
  | None => ret tt
  end.

(** The flag tells the caller to look at the parent of a [#]. *)
Fixpoint _retain_search (c : ptr) (sub_qos : Z) (tokens : list bytes) (level : Z) (h : subhier)
    {struct h} : M db bool :=
  match h, tokens with
  | Subhier _ _ _ children, t :: ts =>
      (fix branches (bs : list subhier) (flag : bool) : M db bool :=
         match bs with
         | [] => ret flag
         | b :: bs' =>
             if bool_decide (t = [c_hash]) && bool_decide (ts = []) then
               process_retained c sub_qos b ;;;
               (if bool_decide (sh_children b = []) then ret false
                else _retain_search c sub_qos tokens (level + 1) b) ;;;
               branches bs' true
             else if negb (is_plus b) && (bool_decide (sh_topic b = t) || bool_decide (t = [c_plus]))
             then
               (if bool_decide (ts = []) then process_retained c sub_qos b
                else
                  let* f := _retain_search c sub_qos ts (level + 1) b in
                  if (f : bool) || (bool_decide (bs' = []) && bool_decide (head ts = Some [c_hash])
                                    && (0 <? level))
                  then process_retained c sub_qos b else ret tt) ;;;
               branches bs' flag
             else branches bs' flag
         end) children false
  | Subhier _ _ _ [], [] => ret false
  | _, [] => undefined
  end.

Definition mqtt3_retain_queue (c : ptr) (sub : bytes) (sub_qos : Z) : M db Z :=
  let* tokens := mlift (_sub_topic_tokenise sub) in
  let* t := mlift (head tokens) in
  let* d := mget in
  match list_find (λ b, sh_topic b = t) (subs_children d) with
  | Some (_, b) => _retain_search c sub_qos tokens 0 b ;;; ret MOSQ_ERR_SUCCESS
  | None => ret MOSQ_ERR_SUCCESS
  end.
End subs.

(** ** [mqtt3_subs_clean_session] *)

(** The node at a path, and its replacement ([None] deletes it). *)
Fixpoint node_at (p : path) (ch : list subhier) : option subhier :=
  match p with
  | [] => None
  | t :: ts =>
      '(_, b) ← list_find (λ b, sh_topic b = t) ch;
      match ts with [] => Some b | _ => node_at ts (sh_children b) end
  end.

Fixpoint alter_at (f : subhier → option subhier) (p : path) (ch : list subhier) : list subhier :=
  match p with
  | [] => ch
  | t :: ts =>
      match list_find (λ b, sh_topic b = t) ch with
      | None => ch
      | Some (i, b) =>
          match ts with
          | [] => match f b with Some b' => <[i := b']> ch | None => delete i ch end
          | _ => <[i := set_sh_children (alter_at f ts (sh_children b)) b]> ch
          end
      end
  end.

(** [sub->parent]: the two nodes that [mqtt3_db_open] creates have none. *)
Definition has_parent (p : path) : bool :=
  match p with
  | [t] => negb (bool_decide (t = [])) && negb (bool_decide (t = str "$SYS"))
  | _ => true
  end.

(** Frees the node, and returns its parent if that is to be freed as well. *)
Definition tmp_remove_subs (p : path) (ch : list subhier) : option (option path * list subhier) :=
  sub ← node_at p ch;
  if negb (has_parent p) then Some (None, ch)
  else if negb (bool_decide (sh_children sub = [])) || negb (bool_decide (sh_subs sub = []))
  then Some (None, ch)
  else
    let ch := alter_at (λ _, None) p ch in
    let pp := take (length p - 1) p in
    match pp with
    | [] => Some (None, ch)
    | _ =>
        parent ← node_at pp ch;
        Some (if empty_node parent && has_parent pp then Some pp else None, ch)
    end.

(** [do{ hier = tmp_remove_subs(hier); }while(hier)], one level up with each
    round. *)
Fixpoint prune (n : nat) (p : path) (ch : list subhier) : option (list subhier) :=
  match n with
  | O => None
  | S n' =>
      '(o, ch) ← tmp_remove_subs p ch;
      match o with Some pp => prune n' pp ch | None => Some ch end
  end.

(** The loop over the client's subscriptions; the number of leaves removed. *)
Fixpoint clean_slots (c : ptr) (slots : list (option path)) (ch : list subhier)
    : option (Z * list subhier) :=
  match slots with
  | [] => Some (0, ch)
  | None :: slots' => clean_slots c slots' ch
  | Some p :: slots' =>
      h ← node_at p ch;
      let '(removed, h') := remove_leaf c h in
      let ch := alter_at (λ _, Some h') p ch in
      ch ← (if empty_node h' && has_parent p then prune (length p) p ch else Some ch);
      '(n, ch) ← clean_slots c slots' ch;
      Some ((if (removed : bool) then n + 1 else n), ch)
  end.

Definition mqtt3_subs_clean_session (c : ptr) : M db Z :=
  let* x := get_context c in
  let* d := mget in
  let* r := mlift (clean_slots c (subs x) (subs_children d)) in
  let '(n, ch) := r in
  mmodify (set_subs_children (λ _, ch)) ;;;
  mmodify (set_subscription_count (λ k, k - n)) ;;;
  upd_context c (set_subs (λ _, [])) ;;;
  ret MOSQ_ERR_SUCCESS.

(** ** Routing, against the reference matching *)

(** A node below [h], and its replacement. *)
Definition sub_at (p : path) (h : subhier) : option subhier :=
  match p with [] => Some h | _ => node_at p (sh_children h) end.
Definition put_at (p : path) (n : subhier) (h : subhier) : subhier :=
  match p with [] => n | _ => set_sh_children (alter_at (λ _, Some n) p (sh_children h)) h end.

Section visits.

(** The nodes a search reaches below [h], in order, with the flag they are
    processed with. *)
Fixpoint visits (tokens : list bytes) (sr : bool) (h : subhier) {struct h} : list (path * bool) :=
  match h with
  | Subhier _ _ _ children =>
      (fix branches (bs : list subhier) : list (path * bool) :=
         match bs with
         | [] => []
         | b :: bs' =>
             match tokens with
             | t :: ts =>
                 if bool_decide (sh_topic b = t) || is_plus b then
                   let sr' := if is_plus b then false else sr in
                   (prod_map (cons (sh_topic b)) (λ x, x) <$> visits ts sr' b)
                   ++ (if bool_decide (ts = []) then [([sh_topic b], sr')] else [])
                 else if is_hash b && bool_decide (sh_children b = [])
                 then [([sh_topic b], false)] else []
             | [] =>
                 if is_hash b && bool_decide (sh_children b = [])
                 then [([sh_topic b], false)] else []
             end ++ branches bs'
         end) children
  end.

(** The part of one branch. *)
Definition branch_visits (tokens : list bytes) (sr : bool) (b : subhier) : list (path * bool) :=
  match tokens with
  | t :: ts =>
      if bool_decide (sh_topic b = t) || is_plus b then
        let sr' := if is_plus b then false else sr in
        (prod_map (cons (sh_topic b)) (λ x, x) <$> visits ts sr' b)
        ++ (if bool_decide (ts = []) then [([sh_topic b], sr')] else [])
      else if is_hash b && bool_decide (sh_children b = []) then [([sh_topic b], false)] else []
  | [] => if is_hash b && bool_decide (sh_children b = []) then [([sh_topic b], false)] else []
  end.

Lemma visits_unfold tokens sr h :
  visits tokens sr h = concat (branch_visits tokens sr <$> sh_children h).
Proof.
  destruct h as [t s r ch]. cbn [visits sh_children].
  induction ch as [|b ch IH]; [done|]. cbn [fmap list_fmap concat]. by rewrite <-IH.
Qed.

Context {S : Type} (process : subhier → bool → M S subhier).

Definition branch_search (tokens : list bytes) (sr : bool) (b : subhier) : M S subhier :=
  match tokens with
  | t :: ts =>
      if bool_decide (sh_topic b = t) || is_plus b then
        let sr' := if is_plus b then false else sr in
        let* b1 := _sub_search process ts sr' b in
        if bool_decide (ts = []) then process b1 sr' else ret b1
      else if is_hash b && bool_decide (sh_children b = []) then process b false else ret b
  | [] => if is_hash b && bool_decide (sh_children b = []) then process b false else ret b
  end.

Fixpoint map_branches (f : subhier → M S subhier) (bs : list subhier) : M S (list subhier) :=
  match bs with
  | [] => ret []
  | b :: bs' => let* b' := f b in let* bs'' := map_branches f bs' in ret (b' :: bs'')
  end.

Lemma sub_search_unfold tokens sr h st :
  _sub_search process tokens sr h st =
    (let* ch := map_branches (branch_search tokens sr) (sh_children h) in
     ret (set_sh_children ch h)) st.
Proof.
  destruct h as [t s r ch]. cbn [_sub_search sh_children]. unfold set_sh_children.
  cbn [sh_topic sh_subs sh_retained].
  assert (Hbr : ∀ st,
    (fix branches (bs : list subhier) : M S (list subhier) :=
       match bs with
       | [] => ret []
       | b :: bs' =>
           let* b' :=
             match tokens with
             | t :: ts =>
                 if bool_decide (sh_topic b = t) || is_plus b then
                   let sr := if is_plus b then false else sr in
                   let* b1 := _sub_search process ts sr b in
                   if bool_decide (ts = []) then process b1 sr else ret b1
                 else if is_hash b && bool_decide (sh_children b = [])
                 then process b false else ret b
             | [] =>
                 if is_hash b && bool_decide (sh_children b = [])
                 then process b false else ret b
             end in
           let* bs'' := branches bs' in
           ret (b' :: bs'')
       end) ch st = map_branches (branch_search tokens sr) ch st).
  { induction ch as [|b ch IH]; intros st'; [done|]. cbn [map_branches].
    apply bind_ext. intros b' s1 _. unfold bind. by rewrite IH. }
  unfold bind at 1. rewrite Hbr. done.
Qed.

(** Processing the nodes of a list one after the other. *)
Fixpoint visit_list (vs : list (path * bool)) (h : subhier) : M S subhier :=
  match vs with
  | [] => ret h
  | (p, sr) :: vs' =>
      let* n := mlift (sub_at p h) in
      let* n' := process n sr in
      visit_list vs' (put_at p n' h)
  end.
End visits.

(** No two siblings have the same topic. *)
Inductive uniq : list subhier → Prop :=
| uniq_intro ch : NoDup (sh_topic <$> ch) → Forall (λ b, uniq (sh_children b)) ch → uniq ch.

Lemma find_child pre b bs :
  sh_topic b ∉ sh_topic <$> pre →
  list_find (λ x, sh_topic x = sh_topic b) (pre ++ b :: bs) = Some (length pre, b).
Proof.
  intros Hn. apply list_find_Some. split; [by rewrite list_lookup_middle|]. split; [done|].
  intros j y Hj Hlt Heq. rewrite lookup_app_l in Hj by done. apply Hn. rewrite <-Heq.
  by eapply list_elem_of_fmap_2, list_elem_of_lookup_2.
Qed.

Section search_visits.
Context {S : Type} (process : subhier → bool → M S subhier).

(** Processing a node does not change its place in the tree. *)
Context (Hprocess : ∀ n sr s n' s', process n sr s = Some (n', s') →
  sh_topic n' = sh_topic n ∧ sh_children n' = sh_children n).

Lemma sub_at_child t s r pre b bs p :
  sh_topic b ∉ sh_topic <$> pre →
  sub_at (sh_topic b :: p) (Subhier t s r (pre ++ b :: bs)) = sub_at p b.
Proof.
  intros Hn. cbn [sub_at node_at sh_children]. rewrite find_child by done.
  cbn [mbind option_bind]. by destruct p.
Qed.

Lemma put_at_child t s r pre b bs p n :
  sh_topic b ∉ sh_topic <$> pre →
  put_at (sh_topic b :: p) n (Subhier t s r (pre ++ b :: bs)) =
    Subhier t s r (pre ++ put_at p n b :: bs).
Proof.
  intros Hn. cbn [put_at alter_at sh_children set_sh_children]. rewrite find_child by done.
  unfold set_sh_children. cbn [sh_topic sh_subs sh_retained].
  f_equal. destruct p; by rewrite insert_app_r_alt, Nat.sub_diag by lia.
Qed.

Lemma put_at_topic p n h : p ≠ [] → sh_topic (put_at p n h) = sh_topic h.
Proof. by destruct p, h. Qed.

(** The visits below one child. *)
Lemma visit_list_under t s r pre b bs vs st :
  sh_topic b ∉ sh_topic <$> pre → Forall (λ v, v.1 ≠ []) vs →
  visit_list process (prod_map (cons (sh_topic b)) (λ x, x) <$> vs)
    (Subhier t s r (pre ++ b :: bs)) st =
  bind (visit_list process vs b) (λ b', ret (Subhier t s r (pre ++ b' :: bs))) st.
Proof.
  intros Hn Hvs. revert b Hn st. induction Hvs as [|[p sr] vs Hp _ IH]; intros b Hn st; [done|].
  cbn [fmap list_fmap prod_map visit_list fst snd].
  rewrite sub_at_child, bind_assoc by done. apply bind_ext. intros n s1 _.
  rewrite bind_assoc. apply bind_ext. intros n' s2 _.
  rewrite put_at_child by done. cbn [fst] in Hp.
  pose proof (put_at_topic p n' b Hp) as Ht. rewrite <-Ht. apply IH. by rewrite Ht.
Qed.

Lemma visit_list_app vs vs' h st :
  visit_list process (vs ++ vs') h st =
  bind (visit_list process vs h) (visit_list process vs') st.
Proof.
  revert h st. induction vs as [|[p sr] vs IH]; intros h st; [done|].
  cbn [app visit_list]. rewrite !bind_assoc. apply bind_ext. intros n s1 _.
  rewrite !bind_assoc. apply bind_ext. intros n' s2 _. apply IH.
Qed.

Lemma visits_nonempty tokens sr h : Forall (λ v, v.1 ≠ []) (visits tokens sr h).
Proof.
  rewrite visits_unfold. apply Forall_concat, Forall_fmap, Forall_forall. intros b _. cbn.
  unfold branch_visits. destruct tokens as [|t ts].
  - destruct (_ && _); [by repeat constructor|constructor].
  - destruct (_ || _); [|destruct (_ && _); [by repeat constructor|constructor]].
    apply Forall_app. split.
    + apply Forall_fmap, Forall_forall. by intros [p b'] _.
    + destruct (bool_decide _); [by repeat constructor|constructor].
Qed.

Lemma sub_search_topic tokens sr h st h' st' :
  _sub_search process tokens sr h st = Some (h', st') → sh_topic h' = sh_topic h.
Proof.
  rewrite sub_search_unfold. unfold bind. destruct (map_branches _ _ _) as [[ch s1]|]; [|done].
  intros [= <- <-]. done.
Qed.

(** One branch among its siblings. *)
Lemma visit_single t s r pre b bs sr st :
  sh_topic b ∉ sh_topic <$> pre →
  visit_list process [([sh_topic b], sr)] (Subhier t s r (pre ++ b :: bs)) st =
  bind (process b sr) (λ b', ret (Subhier t s r (pre ++ b' :: bs))) st.
Proof.
  intros Hn. cbn [visit_list]. rewrite sub_at_child by done. unfold bind at 1.
  cbn [sub_at mlift ret]. apply bind_ext. intros n' s1 _. by rewrite put_at_child.
Qed.

Lemma visit_branch tokens sr t s r pre b bs st :
  (∀ ts sr st, visit_list process (visits ts sr b) b st = _sub_search process ts sr b st) →
  sh_topic b ∉ sh_topic <$> pre →
  visit_list process (branch_visits tokens sr b) (Subhier t s r (pre ++ b :: bs)) st =
  bind (branch_search process tokens sr b) (λ b', ret (Subhier t s r (pre ++ b' :: bs))) st.
Proof.
  intros IH Hn. unfold branch_visits, branch_search.
  assert (Hhash : visit_list process
    (if is_hash b && bool_decide (sh_children b = []) then [([sh_topic b], false)] else [])
    (Subhier t s r (pre ++ b :: bs)) st =
    bind (if is_hash b && bool_decide (sh_children b = []) then process b false else ret b)
      (λ b', ret (Subhier t s r (pre ++ b' :: bs))) st).
  { destruct (_ && _); [by apply visit_single|done]. }
  destruct tokens as [|tk ts]; [exact Hhash|]. destruct (_ || _); [|exact Hhash].
  cbv zeta. set (sr' := if is_plus b then false else sr).
  rewrite visit_list_app, (bind_cong _ _ _ _ (visit_list_under t s r pre b bs _ st Hn
    (visits_nonempty ts sr' b))), !bind_assoc, (bind_cong _ _ _ _ (IH ts sr' st)).
  apply bind_ext. intros b1 s1 Hs1. apply sub_search_topic in Hs1.
  unfold bind at 1. cbn [ret]. destruct (bool_decide (ts = [])); [|done].
  rewrite <-Hs1 in *. by apply visit_single.
Qed.

(** All branches, those of [pre] being done. *)
Lemma visit_branches tokens sr t s r pre bs st :
  NoDup (sh_topic <$> (pre ++ bs)) →
  Forall (λ b, ∀ ts sr st, visit_list process (visits ts sr b) b st = _sub_search process ts sr b st) bs →
  visit_list process (concat (branch_visits tokens sr <$> bs)) (Subhier t s r (pre ++ bs)) st =
  bind (map_branches (branch_search process tokens sr) bs)
    (λ bs', ret (Subhier t s r (pre ++ bs'))) st.
Proof.
  revert pre st. induction bs as [|b bs IH]; intros pre st Hnd Hbs; [done|].
  apply Forall_cons in Hbs as [Hb Hbs]. cbn [fmap list_fmap concat map_branches].
  assert (Hn : sh_topic b ∉ sh_topic <$> pre).
  { rewrite fmap_app in Hnd. apply NoDup_app in Hnd as (_ & Hd & _). intros Hin.
    apply (Hd _ Hin). cbn. set_solver. }
  rewrite visit_list_app, (bind_cong _ _ _ _ (visit_branch tokens sr t s r pre b bs st Hb Hn)).
  rewrite !bind_assoc. apply bind_ext. intros b' s1 Hb'. unfold bind at 1. cbn [ret].
  assert (Ht : sh_topic b' = sh_topic b).
  { unfold branch_search in Hb'. destruct tokens as [|tk ts].
    - destruct (_ && _); [by apply Hprocess in Hb' as [? _]|unfold ret in Hb'; by simplify_eq].
    - destruct (_ || _); [|destruct (_ && _); [by apply Hprocess in Hb' as [? _]|unfold ret in Hb'; by simplify_eq]].
      unfold bind in Hb'. destruct (_sub_search _ _ _ _ _) as [[b1 s2]|] eqn:Es; [|done].
      apply sub_search_topic in Es. destruct (bool_decide _).
      + apply Hprocess in Hb' as [? _]. congruence.
      + unfold ret in Hb'. by simplify_eq. }
  replace (pre ++ b' :: bs) with ((pre ++ [b']) ++ bs) by (by rewrite <-(assoc_L (++))).
  rewrite IH; [| |done].
  2: { rewrite <-(assoc_L (++)). rewrite !fmap_app in Hnd |- *. cbn in Hnd |- *. by rewrite Ht. }
  rewrite bind_assoc. apply bind_ext. intros bs' s2 _. unfold bind. cbn [ret].
  by rewrite <-(assoc_L (++)).
Qed.

Lemma sub_search_visits tokens sr h st :
  uniq (sh_children h) →
  _sub_search process tokens sr h st = visit_list process (visits tokens sr h) h st.
Proof.
  revert tokens sr st. induction h as [t s r ch IH] using subhier_ind'. intros tokens sr st Hu.
  rewrite sub_search_unfold, visits_unfold. cbn [sh_children] in *. inversion Hu as [? Hn Hch]; subst.
  pose proof (visit_branches tokens sr t s r [] ch st Hn) as Hv. cbn [app] in Hv.
  rewrite Hv; [done|]. apply Forall_forall. intros b Hb ts sr' st'. symmetry.
  rewrite Forall_forall in IH, Hch. apply IH; auto.
Qed.
End search_visits.

(** *** The nodes reached are those that match *)

(** A [#] node has no children, as a [#] ends its filter. *)
Inductive hash_leaf : list subhier → Prop :=
| hash_leaf_intro ch :
    Forall (λ b, (sh_topic b = [c_hash] → sh_children b = []) ∧ hash_leaf (sh_children b)) ch →
    hash_leaf ch.

Definition literal (p : path) : bool :=
  forallb (λ t, negb (bool_decide (t = [c_plus])) && negb (bool_decide (t = [c_hash]))) p.

Definition no_wild (ts : list bytes) : Prop := Forall (λ t, t ≠ [c_plus] ∧ t ≠ [c_hash]) ts.

Lemma node_at_cons t ts ch n :
  uniq ch → node_at (t :: ts) ch = Some n ↔
    ∃ b, b ∈ ch ∧ sh_topic b = t ∧ sub_at ts b = Some n.
Proof.
  intros Hu. inversion Hu as [? Hn _]; subst. cbn [node_at]. split.
  - intros H. destruct (list_find _ ch) as [[i b]|] eqn:Hf; [|done].
    apply list_find_Some in Hf as (Hi & Ht & _). exists b.
    split; [by eapply list_elem_of_lookup_2|]. split; [done|]. by destruct ts.
  - intros (b & Hb & <- & Hs). apply list_elem_of_split in Hb as (pre & bs & ->).
    rewrite find_child.
    + cbn. by destruct ts.
    + rewrite fmap_app in Hn. apply NoDup_app in Hn as (_ & Hd & _). intros Hin.
      apply (Hd _ Hin). cbn. set_solver.
Qed.

Lemma match_levels_cons x p ts :
  match_levels (x :: p) ts =
    (bool_decide (x = [c_hash] ∧ p = []) ||
     match ts with [] => false | y :: ts' => bool_decide (x = [c_plus] ∨ x = y) && match_levels p ts' end).
Proof.
  cbn [match_levels]. destruct (decide (x = [c_hash] ∧ p = [])) as [H|H].
  - by rewrite bool_decide_eq_true_2.
  - by rewrite bool_decide_eq_false_2.
Qed.

Lemma literal_cons x p :
  literal (x :: p) = negb (bool_decide (x = [c_plus])) && negb (bool_decide (x = [c_hash])) && literal p.
Proof. done. Qed.

(** What a search below [h] reaches. *)
Definition reaches (ts : list bytes) (sr : bool) (h : subhier) (v : path * bool) : Prop :=
  v.1 ≠ [] ∧ is_Some (sub_at v.1 h) ∧ match_levels v.1 ts = true ∧ v.2 = sr && literal v.1.

(** What it reaches in one child. *)
Definition reaches_child (ts : list bytes) (sr : bool) (c : subhier) (v : path * bool) : Prop :=
  ∃ p, v.1 = sh_topic c :: p ∧ is_Some (sub_at p c) ∧ match_levels v.1 ts = true ∧
       v.2 = sr && literal v.1.

Lemma hash_visits ts sr c v :
  (sh_topic c = [c_hash] → sh_children c = []) →
  match ts with [] => True | t :: _ => sh_topic c ≠ t ∧ sh_topic c ≠ [c_plus] end →
  v ∈ (if is_hash c && bool_decide (sh_children c = []) then [([sh_topic c], false)] else []) ↔
  reaches_child ts sr c v.
Proof.
  intros Hh Ht. unfold is_hash, reaches_child. split.
  - case_bool_decide as H1; cbn [andb]; [|set_solver]. case_bool_decide; [|set_solver].
    intros ->%list_elem_of_singleton. exists []. cbn [fst snd]. rewrite match_levels_cons, H1.
    rewrite bool_decide_eq_true_2 by done. split; [done|]. split; [by eexists|]. split; [done|].
    rewrite literal_cons. by rewrite andb_false_r.
  - intros (p & Hp & Hs & Hm & Hb). destruct v as [q b]. cbn [fst snd] in *. subst q.
    rewrite match_levels_cons in Hm. apply orb_prop in Hm as [Hm|Hm].
    + apply bool_decide_eq_true in Hm as [H1 ->]. rewrite !bool_decide_eq_true_2 by auto.
      cbn [andb]. rewrite Hb, H1, literal_cons. rewrite andb_false_r. set_solver.
    + destruct ts as [|t ts]; [done|]. apply andb_prop in Hm as [Hm _].
      apply bool_decide_eq_true in Hm. naive_solver.
Qed.

Lemma branch_visits_match ts sr c v :
  (∀ ts sr v, no_wild ts → v ∈ visits ts sr c ↔ reaches ts sr c v) →
  (sh_topic c = [c_hash] → sh_children c = []) → no_wild ts →
  v ∈ branch_visits ts sr c ↔ reaches_child ts sr c v.
Proof.
  intros IH Hh Hw. unfold branch_visits. destruct ts as [|t ts]; [by apply hash_visits|].
  unfold no_wild in Hw. apply Forall_cons in Hw as [[Hw1 Hw2] Hw].
  destruct (bool_decide (sh_topic c = t) || is_plus c) eqn:Hb.
  2: { apply orb_false_elim in Hb as [Hb1%bool_decide_eq_false Hb2%bool_decide_eq_false].
       apply hash_visits; auto. }
  assert (Htok : sh_topic c = t ∨ sh_topic c = [c_plus]).
  { apply orb_prop in Hb as [H|H]; apply bool_decide_eq_true in H; auto. }
  assert (Hnh : sh_topic c ≠ [c_hash]) by (destruct Htok as [-> | ->]; done).
  set (sr' := if is_plus c then false else sr).
  assert (Hsr : ∀ p, sr && literal (sh_topic c :: p) = sr' && literal p).
  { intros p. rewrite literal_cons, (bool_decide_eq_false_2 (_ = [c_hash])) by done.
    subst sr'. unfold is_plus. destruct (bool_decide (sh_topic c = [c_plus])).
    - cbn. by rewrite andb_false_r.
    - done. }
  assert (Hml : ∀ p, match_levels (sh_topic c :: p) (t :: ts) = match_levels p ts).
  { intros p. rewrite match_levels_cons, (bool_decide_eq_false_2 (_ ∧ _)) by naive_solver.
    by rewrite (bool_decide_eq_true_2 (_ ∨ _)) by naive_solver. }
  rewrite elem_of_app, list_elem_of_fmap. split.
  - intros [([p b] & -> & Hv)|Hv].
    + apply IH in Hv as (Hne & Hs & Hm & Hb'); [|done]. exists p.
      cbn [fst snd prod_map] in *. rewrite Hml, Hsr. auto.
    + case_bool_decide as Hts; [|set_solver]. apply list_elem_of_singleton in Hv as ->.
      exists []. cbn [fst snd]. rewrite Hml, Hsr, Hts. split; [done|]. split; [by eexists|].
      split; [done|]. by rewrite andb_true_r.
  - intros (p & Hp & Hs & Hm & Hb'). destruct v as [q b]. cbn [fst snd] in *. subst q b.
    rewrite Hml in Hm. rewrite Hsr. destruct p as [|x p].
    + right. cbn in Hm. apply bool_decide_eq_true in Hm as ->. rewrite bool_decide_eq_true_2 by done.
      cbn. rewrite andb_true_r. set_solver.
    + left. exists (x :: p, sr' && literal (x :: p)). split; [done|]. apply IH; [done|].
      by split_and!.
Qed.

Lemma visits_match ts sr h v :
  uniq (sh_children h) → hash_leaf (sh_children h) → no_wild ts →
  v ∈ visits ts sr h ↔ reaches ts sr h v.
Proof.
  revert ts sr v. induction h as [t s r ch IH] using subhier_ind'. intros ts sr v Hu Hh Hw.
  rewrite visits_unfold. cbn [sh_children] in *.
  pose proof Hu as Hu'. inversion Hu' as [? Hn Hch]; subst. inversion Hh as [? Hhc]; subst.
  rewrite Forall_forall in IH, Hch, Hhc.
  assert (Hb : ∀ c, c ∈ ch → v ∈ branch_visits ts sr c ↔ reaches_child ts sr c v).
  { intros c Hc. destruct (Hhc c Hc). apply branch_visits_match; [|done|done].
    intros ts' sr' v' Hw'. apply IH; auto. }
  rewrite elem_of_concat_fmap. unfold reaches. split.
  - intros (c & Hc & Hv). apply Hb in Hv as (p & Hp & Hs & Hm & Hlit); [|done].
    rewrite Hp in *. split_and!; try done. destruct Hs as [n Hs]. exists n.
    cbn [sub_at sh_children]. apply node_at_cons; [done|]. eauto.
  - intros (Hne & [n Hs] & Hm & Hlit). destruct (v.1) as [|x p] eqn:Hp; [done|].
    cbn [sub_at sh_children] in Hs. apply node_at_cons in Hs as (c & Hc & Ht & Hs); [|done].
    exists c. split; [done|]. apply Hb; [done|]. exists p. rewrite Hp, Ht. eauto.
Qed.

Lemma branch_visits_head ts sr c v : v ∈ branch_visits ts sr c → head v.1 = Some (sh_topic c).
Proof.
  unfold branch_visits. destruct ts as [|t ts].
  - destruct (_ && _); set_solver.
  - destruct (_ || _); [|destruct (_ && _); set_solver].
    rewrite elem_of_app, list_elem_of_fmap. intros [([p b] & -> & _)|Hv]; [done|].
    case_bool_decide; set_solver.
Qed.

Lemma visits_nodup ts sr h : uniq (sh_children h) → NoDup (visits ts sr h).*1.
Proof.
  revert ts sr. induction h as [t s r ch IH] using subhier_ind'. intros ts sr Hu.
  rewrite visits_unfold. cbn [sh_children] in *. inversion Hu as [? Hn Hch]; subst. clear Hu.
  induction ch as [|c ch IHch]; [apply NoDup_nil_2|].
  apply Forall_cons in IH as [IHc IH]. apply Forall_cons in Hch as [Hc Hch].
  cbn in Hn. apply NoDup_cons in Hn as [Hnc Hn].
  cbn [fmap list_fmap concat]. rewrite fmap_app. apply NoDup_app. split; [|split].
  - assert (Hs : ∀ b : bool, NoDup [([sh_topic c], b)].*1) by (intros; apply NoDup_singleton).
    unfold branch_visits. destruct ts as [|tk ts].
    + destruct (_ && _); [apply Hs|apply NoDup_nil_2].
    + destruct (_ || _); [|destruct (_ && _); [apply Hs|apply NoDup_nil_2]].
      rewrite fmap_app, <-list_fmap_compose. apply NoDup_app. split; [|split].
      * rewrite (list_fmap_ext _ (cons (sh_topic c) ∘ fst)) by (by intros ? [? ?]).
        rewrite list_fmap_compose. apply NoDup_fmap_2; [|by apply IHc]. intros ? ? [= ->]. done.
      * intros p (v & -> & Hv)%list_elem_of_fmap Hp. pose proof (visits_nonempty ts
          (if is_plus c then false else sr) c) as Hne. rewrite Forall_forall in Hne.
        specialize (Hne v Hv). destruct v as [q b]. cbn in Hp. case_bool_decide; [|set_solver].
        cbn in Hp. apply list_elem_of_singleton in Hp. by simplify_eq.
      * case_bool_decide; [apply Hs|apply NoDup_nil_2].
  - intros p (v & -> & Hv)%list_elem_of_fmap (w & Hw & Hin)%list_elem_of_fmap.
    apply branch_visits_head in Hv. apply elem_of_concat_fmap in Hin as (c' & Hc' & Hin).
    apply branch_visits_head in Hin. rewrite Hw in Hv. rewrite Hv in Hin. simplify_eq.
    apply Hnc. rewrite Hin. by apply list_elem_of_fmap_2.
  - by apply IHch.
Qed.

(** ** Subscriptions as a map from paths *)

Definition child (x : bytes) (ch : list subhier) : option subhier :=
  snd <$> list_find (λ b, sh_topic b = x) ch.

Definition subs_of (p : path) (h : subhier) : list subleaf := default [] (sh_subs <$> sub_at p h).
Definition ret_of (p : path) (h : subhier) : option ptr := sub_at p h ≫= sh_retained.

Lemma sub_at_cons x p h : sub_at (x :: p) h = child x (sh_children h) ≫= sub_at p.
Proof.
  cbn [sub_at node_at]. unfold child. destruct (list_find _ _) as [[i b]|]; [|done].
  cbn. by destruct p.
Qed.

Lemma child_Some x ch b :
  NoDup (sh_topic <$> ch) → child x ch = Some b ↔ b ∈ ch ∧ sh_topic b = x.
Proof.
  intros Hn. unfold child. split.
  - destruct (list_find _ _) as [[i b']|] eqn:Hf; [|done]. intros [= ->].
    apply list_find_Some in Hf as (Hi & Ht & _). split; [by eapply list_elem_of_lookup_2|done].
  - intros [Hb <-]. apply list_elem_of_split in Hb as (pre & bs & ->).
    rewrite find_child; [done|]. rewrite fmap_app in Hn. apply NoDup_app in Hn as (_ & Hd & _).
    intros Hin. apply (Hd _ Hin). cbn. set_solver.
Qed.

Lemma list_insert_fmap_topic (ch : list subhier) (i : nat) (b b' : subhier) :
  ch !! i = Some b → sh_topic b' = sh_topic b → sh_topic <$> <[i := b']> ch = sh_topic <$> ch.
Proof.
  intros Hi Ht. rewrite list_fmap_insert, Ht. apply list_insert_id.
  by rewrite list_lookup_fmap, Hi.
Qed.

Lemma list_insert_split {A} (l : list A) i (x : A) :
  l !! i = Some x → ∃ l1 l2, l = l1 ++ x :: l2 ∧ length l1 = i ∧
    (∀ y, <[i := y]> l = l1 ++ y :: l2) ∧ delete i l = l1 ++ l2.
Proof.
  intros Hi. exists (take i l), (drop (S i) l). pose proof (lookup_lt_Some _ _ _ Hi).
  split; [by rewrite take_drop_middle|]. split; [rewrite length_take; lia|].
  split; [|apply delete_take_drop].
  intros y. rewrite <-(take_drop_middle l i x Hi) at 1.
  by rewrite insert_app_r_alt, length_take, Nat.min_l, Nat.sub_diag by (rewrite ?length_take; lia).
Qed.

Lemma child_Some_find x ch i b :
  list_find (λ b, sh_topic b = x) ch = Some (i, b) → child x ch = Some b.
Proof. unfold child. by intros ->. Qed.

Lemma child_None_find x ch :
  list_find (λ b, sh_topic b = x) ch = None → child x ch = None ∧ x ∉ sh_topic <$> ch.
Proof.
  intros H. unfold child. rewrite H. split; [done|]. apply list_find_None in H.
  intros (b & -> & Hb)%list_elem_of_fmap. rewrite Forall_forall in H. by apply (H b).
Qed.

Lemma child_insert x (ch : list subhier) (i : nat) (b b' : subhier) :
  NoDup (sh_topic <$> ch) → ch !! i = Some b → sh_topic b' = sh_topic b →
  child x (<[i := b']> ch) = if decide (x = sh_topic b) then Some b' else child x ch.
Proof.
  intros Hn Hi Ht. assert (Hn' : NoDup (sh_topic <$> <[i := b']> ch)).
  { by rewrite (list_insert_fmap_topic ch i b b'). }
  destruct (list_insert_split ch i b Hi) as (l1 & l2 & -> & _ & Hins & _). rewrite Hins in *.
  apply option_eq. intros n. rewrite child_Some by done. destruct (decide _) as [->|Hx].
  - rewrite <-Ht. split.
    + intros [Hin Heq]. rewrite fmap_app in Hn'. cbn in Hn'.
      apply NoDup_app in Hn' as (_ & Hd & [Hd2 _]%NoDup_cons).
      apply elem_of_app in Hin as [Hin|[->|Hin]%elem_of_cons]; [|done|].
      * destruct (Hd (sh_topic n)); [by apply list_elem_of_fmap_2|]. rewrite Heq. set_solver.
      * destruct Hd2. rewrite <-Heq. by apply list_elem_of_fmap_2.
    + intros [= <-]. set_solver.
  - rewrite child_Some by done. rewrite !elem_of_app, !elem_of_cons. naive_solver.
Qed.

Lemma child_cons x ch b' :
  child x (b' :: ch) = if decide (x = sh_topic b') then Some b' else child x ch.
Proof.
  unfold child. cbn [list_find]. destruct (decide (sh_topic b' = x)) as [<-|Hx].
  - by rewrite decide_True.
  - rewrite decide_False by done. by destruct (list_find _ ch) as [[i b]|].
Qed.

Lemma child_snoc x ch b' :
  sh_topic b' ∉ sh_topic <$> ch →
  child x (ch ++ [b']) = if decide (x = sh_topic b') then Some b' else child x ch.
Proof.
  induction ch as [|b ch IH]; intros Hn; cbn [app]; rewrite !child_cons.
  - done.
  - cbn in Hn. rewrite IH by set_solver. destruct (decide (x = sh_topic b)) as [->|]; [|done].
    rewrite decide_False by set_solver. done.
Qed.

Lemma child_delete x (ch : list subhier) (i : nat) (b : subhier) :
  NoDup (sh_topic <$> ch) → ch !! i = Some b →
  child x (delete i ch) = if decide (x = sh_topic b) then None else child x ch.
Proof.
  intros Hn Hi. destruct (list_insert_split ch i b Hi) as (l1 & l2 & -> & _ & _ & ->).
  rewrite fmap_app in Hn. cbn in Hn. pose proof Hn as (Hn1 & Hd & [Hd2 Hn2]%NoDup_cons)%NoDup_app.
  assert (Hn' : NoDup (sh_topic <$> (l1 ++ l2))).
  { rewrite fmap_app. apply NoDup_app. split_and!; [done| |done]. set_solver. }
  assert (Hn3 : NoDup (sh_topic <$> (l1 ++ b :: l2))) by (by rewrite fmap_app).
  apply option_eq. intros n. rewrite child_Some by done. destruct (decide _) as [->|Hx].
  - split; [|done]. intros [[Hin|Hin]%elem_of_app Heq]; exfalso.
    + apply (Hd (sh_topic n)); [by apply list_elem_of_fmap_2|]. rewrite Heq. set_solver.
    + apply Hd2. rewrite <-Heq. by apply list_elem_of_fmap_2.
  - rewrite child_Some by done. rewrite !elem_of_app, !elem_of_cons. naive_solver.
Qed.

(** *** Well-formed trees *)

Definition tree_ok (ch : list subhier) : Prop := uniq ch ∧ hash_leaf ch.

Definition node_ok (b : subhier) : Prop :=
  (sh_topic b = [c_hash] → sh_children b = []) ∧ tree_ok (sh_children b).

Lemma tree_ok_unfold ch : tree_ok ch ↔ NoDup (sh_topic <$> ch) ∧ Forall node_ok ch.
Proof.
  unfold tree_ok, node_ok. split.
  - intros [Hu Hh]. inversion Hu as [? Hn Hch]; subst. inversion Hh as [? Hhc]; subst.
    split; [done|]. rewrite Forall_forall in Hch, Hhc |- *. intros b Hb.
    destruct (Hhc b Hb). split; [done|]. split; [by apply Hch|done].
  - intros [Hn Hch]. rewrite Forall_forall in Hch.
    split; constructor; [done|..]; apply Forall_forall; intros b Hb; destruct (Hch b Hb) as [? []]; auto.
Qed.

Lemma tree_ok_nil : tree_ok [].
Proof. split; constructor; constructor. Qed.

Lemma tree_ok_insert ch (i : nat) (b b' : subhier) :
  tree_ok ch → ch !! i = Some b → sh_topic b' = sh_topic b → node_ok b' → tree_ok (<[i := b']> ch).
Proof.
  rewrite !tree_ok_unfold. intros [Hn Hch] Hi Ht Hb'.
  split; [by rewrite (list_insert_fmap_topic ch i b)|by apply Forall_insert].
Qed.

Lemma tree_ok_snoc ch b' :
  tree_ok ch → sh_topic b' ∉ sh_topic <$> ch → node_ok b' → tree_ok (ch ++ [b']).
Proof.
  rewrite !tree_ok_unfold. intros [Hn Hch] Ht Hb'. rewrite fmap_app.
  split; [|apply Forall_app; auto]. apply NoDup_app. split_and!; [done| |apply NoDup_singleton].
  cbn. set_solver.
Qed.

Lemma tree_ok_cons ch b' :
  tree_ok ch → sh_topic b' ∉ sh_topic <$> ch → node_ok b' → tree_ok (b' :: ch).
Proof.
  rewrite !tree_ok_unfold. intros [Hn Hch] Ht Hb'. split; [by apply NoDup_cons|by constructor].
Qed.

Lemma tree_ok_delete ch (i : nat) : tree_ok ch → tree_ok (delete i ch).
Proof.
  rewrite !tree_ok_unfold. intros [Hn Hch]. split.
  - eapply sublist_NoDup; [exact Hn|]. apply fmap_sublist, sublist_delete.
  - by apply Forall_delete.
Qed.

Lemma tree_ok_child ch x b : tree_ok ch → child x ch = Some b → node_ok b ∧ sh_topic b = x.
Proof.
  rewrite tree_ok_unfold. intros [Hn Hch] Hb. apply child_Some in Hb as [Hb Ht]; [|done].
  rewrite Forall_forall in Hch. auto.
Qed.

(** A [#] is the last token. *)
Fixpoint hash_last (ts : list bytes) : Prop :=
  match ts with [] => True | t :: ts' => (t = [c_hash] → ts' = []) ∧ hash_last ts' end.

(** Only the leaves at one path differ. *)
Record updates (p : path) (f : list subleaf → list subleaf) (h h' : subhier) : Prop := {
  up_topic : sh_topic h' = sh_topic h;
  up_subs p' : subs_of p' h' = if decide (p' = p) then f (subs_of p' h) else subs_of p' h;
  up_ret p' : ret_of p' h' = ret_of p' h;
}.

Lemma updates_here f h : updates [] f h (set_sh_subs (f (sh_subs h)) h).
Proof.
  split; [done|..]; intros [|x p']; try done; cbn; by destruct h.
Qed.

Lemma subs_of_cons x p h : subs_of (x :: p) h = default [] (subs_of p <$> child x (sh_children h)).
Proof. unfold subs_of. rewrite sub_at_cons. by destruct (child _ _). Qed.

Lemma ret_of_cons x p h : ret_of (x :: p) h = child x (sh_children h) ≫= ret_of p.
Proof. unfold ret_of. rewrite sub_at_cons. by destruct (child _ _). Qed.

Lemma empty_node_of p h : empty_node h = true → subs_of p h = [] ∧ ret_of p h = None.
Proof.
  unfold empty_node. intros H. apply andb_prop in H as [[H1 H2]%andb_prop H3].
  apply bool_decide_eq_true in H1, H2, H3. destruct p as [|x p].
  - cbn. by rewrite H2, H3.
  - by rewrite subs_of_cons, ret_of_cons, H1.
Qed.

(** A child changes, appears or, when it is empty, goes. *)
Lemma updates_child t p f h b b' ch' :
  updates p f b b' →
  (child t (sh_children h) = Some b ∨ child t (sh_children h) = None ∧ b = new_node t) →
  (∃ o, (o = Some b' ∨ o = None ∧ empty_node b' = true) ∧
     ∀ x, child x ch' = if decide (x = t) then o else child x (sh_children h)) →
  updates (t :: p) f h (set_sh_children ch' h).
Proof.
  intros [Ht Hs Hr] Hb (o & Ho & Hch).
  assert (Hold : ∀ q, default [] (subs_of q <$> child t (sh_children h)) = subs_of q b ∧
                      (child t (sh_children h) ≫= ret_of q) = ret_of q b).
  { intros q. destruct Hb as [->|[-> ->]]; [done|].
    by destruct (empty_node_of q (new_node t)) as [-> ->]. }
  assert (Hnew : ∀ q, default [] (subs_of q <$> o) = subs_of q b' ∧ (o ≫= ret_of q) = ret_of q b').
  { intros q. destruct Ho as [->|[-> He]]; [done|]. by destruct (empty_node_of q b') as [-> ->]. }
  split; [done|..]; intros [|x q]; try done.
  - rewrite !subs_of_cons. cbn [sh_children set_sh_children]. rewrite Hch.
    destruct (decide (x = t)) as [->|Hx].
    + destruct (Hnew q) as [-> _], (Hold q) as [-> _]. rewrite Hs.
      destruct (decide (q = p)) as [->|]; [by rewrite decide_True|rewrite decide_False; congruence].
    + rewrite decide_False by congruence. done.
  - rewrite !ret_of_cons. cbn [sh_children set_sh_children]. rewrite Hch.
    destruct (decide (x = t)) as [->|Hx]; [|done].
    destruct (Hnew q) as [_ ->], (Hold q) as [_ ->]. apply Hr.
Qed.

(** *** [_sub_add] and [_sub_remove] change one path *)

Lemma sub_add_updates ctxs c q ts h rc added f :
  (∀ n, sh_subs n = subs_of ts h → add_leaf ctxs c q n = Some (rc, added, set_sh_subs (f (sh_subs n)) n)) →
  node_ok h → (sh_topic h = [c_hash] → ts = []) → hash_last ts →
  ∃ h', _sub_add ctxs c q ts h = Some (rc, added, h') ∧ updates ts f h h' ∧ node_ok h' ∧
        is_Some (sub_at ts h').
Proof.
  revert h. induction ts as [|t ts IH]; intros h Hadd [Hh Hok] Hht Hl; cbn [_sub_add].
  - rewrite Hadd by done. eexists. split; [done|]. split; [apply updates_here|].
    by split; [split|eexists].
  - destruct Hl as [Hl1 Hl2]. destruct (list_find _ _) as [[i b]|] eqn:Hf.
    + pose proof (child_Some_find _ _ _ _ Hf) as Hc. apply list_find_Some in Hf as (Hi & _ & _).
      destruct (tree_ok_child _ _ _ Hok Hc) as [Hb Ht]. rewrite subs_of_cons, Hc in Hadd.
      destruct (IH b Hadd Hb) as (b' & -> & Hup & Hb' & Hs); [by rewrite Ht|done|]. cbn [mbind option_bind].
      eexists. split; [done|]. pose proof (up_topic _ _ _ _ Hup) as Ht'.
      assert (Hch : ∀ x, child x (<[i := b']> (sh_children h)) =
        if decide (x = t) then Some b' else child x (sh_children h)).
      { intros x. rewrite (child_insert x _ i b b'), Ht; [done| |done|congruence].
        by apply tree_ok_unfold in Hok as [? _]. }
      split; [apply (updates_child t ts f h b b'); [done|by left|exists (Some b'); by split; [left|]]|]. split.
      * split; [|by eapply tree_ok_insert]. intros H. by specialize (Hht H).
      * rewrite sub_at_cons. cbn [sh_children set_sh_children]. rewrite Hch, decide_True by done. done.
    + destruct (child_None_find _ _ Hf) as [Hc Hnin]. rewrite subs_of_cons, Hc in Hadd.
      assert (Hnn : ∀ q, subs_of q (new_node t) = []) by (intros; by apply empty_node_of).
      destruct (IH (new_node t)) as (b' & -> & Hup & Hb' & Hs);
        [by rewrite Hnn|split; [done|apply tree_ok_nil]|done|done|]. cbn [mbind option_bind].
      eexists. split; [done|]. pose proof (up_topic _ _ _ _ Hup) as Ht'. cbn in Ht'.
      assert (Hch : ∀ x, child x (sh_children h ++ [b']) =
        if decide (x = t) then Some b' else child x (sh_children h)).
      { intros x. rewrite child_snoc, Ht' by congruence. done. }
      split; [apply (updates_child t ts f h (new_node t) b'); [done|by right|exists (Some b'); by split; [left|]]|]. split.
      * split; [|apply tree_ok_snoc; congruence]. intros H. by specialize (Hht H).
      * rewrite sub_at_cons. cbn [sh_children set_sh_children]. rewrite Hch, decide_True by done. done.
Qed.

(** The first leaf of the context goes. *)
Definition drop_leaf (c : ptr) (l : list subleaf) : list subleaf :=
  match list_find (λ lf, lf_context lf = c) l with Some (i, _) => delete i l | None => l end.

Definition has_leaf (c : ptr) (l : list subleaf) : bool := bool_decide (c ∈ lf_context <$> l).

Lemma remove_leaf_eq c h :
  remove_leaf c h = (has_leaf c (sh_subs h), set_sh_subs (drop_leaf c (sh_subs h)) h).
Proof.
  unfold remove_leaf, has_leaf, drop_leaf. destruct (list_find _ _) as [[i lf]|] eqn:Hf.
  - apply list_find_Some in Hf as (Hi & <- & _). rewrite bool_decide_eq_true_2; [done|].
    by eapply list_elem_of_fmap_2, list_elem_of_lookup_2.
  - apply list_find_None in Hf. rewrite Forall_forall in Hf. rewrite bool_decide_eq_false_2.
    + by destruct h.
    + intros (lf & -> & Hlf)%list_elem_of_fmap. by apply (Hf lf).
Qed.

Lemma updates_id p f h : (∀ l, l = [] → f l = []) → subs_of p h = [] → updates p f h h.
Proof.
  intros Hf Hp. split; [done| |done]. intros p'. destruct (decide _) as [->|]; [|done].
  rewrite Hp. symmetry. auto.
Qed.

Lemma sub_remove_updates c ts h :
  node_ok h →
  ∃ h', _sub_remove c ts h = (has_leaf c (subs_of ts h), h') ∧ updates ts (drop_leaf c) h h' ∧
        node_ok h'.
Proof.
  revert h. induction ts as [|t ts IH]; intros h [Hh Hok]; cbn [_sub_remove].
  - rewrite remove_leaf_eq. eexists. split; [done|]. split; [apply updates_here|by split].
  - rewrite subs_of_cons. destruct (list_find _ _) as [[i b]|] eqn:Hf.
    + pose proof (child_Some_find _ _ _ _ Hf) as Hc. rewrite Hc.
      apply list_find_Some in Hf as (Hi & _ & _).
      destruct (tree_ok_child _ _ _ Hok Hc) as [Hb Ht].
      destruct (IH b Hb) as (b' & -> & Hup & Hb'). eexists. split; [done|].
      pose proof (up_topic _ _ _ _ Hup) as Ht'. pose proof Hok as [Hn _]%tree_ok_unfold. split.
      * apply (updates_child t ts _ h b b'); [done|by left|].
        destruct (empty_node b') eqn:He; (eexists; split; [by eauto|]); intros x.
        -- rewrite (child_delete x _ i b), Ht by done. done.
        -- rewrite (child_insert x _ i b b'), Ht by congruence. done.
      * split.
        -- intros H. specialize (Hh H). by rewrite Hh in Hi.
        -- cbn [sh_children set_sh_children]. destruct (empty_node b').
           ++ by apply tree_ok_delete.
           ++ by eapply tree_ok_insert.
    + destruct (child_None_find _ _ Hf) as [Hc _]. rewrite Hc. exists h. split; [done|].
      split; [|done]. apply updates_id; [by intros ? ->|]. by rewrite subs_of_cons, Hc.
Qed.

(** *** Subscriptions by client *)

Definition leaf_id (ctxs : gmap ptr mosquitto) (lf : subleaf) : option bytes :=
  ctxs !! lf_context lf ≫= id.

(** The QoS a client is subscribed with. *)
Fixpoint client_qos (ctxs : gmap ptr mosquitto) (cid : bytes) (l : list subleaf) : option Z :=
  match l with
  | [] => None
  | lf :: l' => if decide (leaf_id ctxs lf = Some cid) then Some (lf_qos lf) else client_qos ctxs cid l'
  end.

Fixpoint put_leaf (ctxs : gmap ptr mosquitto) (cid : bytes) (c : ptr) (q : Z) (l : list subleaf)
    : list subleaf :=
  match l with
  | [] => [Subleaf c q]
  | lf :: l' =>
      if decide (leaf_id ctxs lf = Some cid) then Subleaf (lf_context lf) q :: l'
      else lf :: put_leaf ctxs cid c q l'
  end.

Section leaves.
Context (ctxs : gmap ptr mosquitto).

Definition live (l : list subleaf) : Prop := Forall (λ lf, is_Some (ctxs !! lf_context lf)) l.

Lemma find_leaf_put cid c q l n :
  live l →
  match find_leaf ctxs cid l n with
  | Some (Some i) => ∃ j, i = (n + j)%nat ∧ is_Some (client_qos ctxs cid l) ∧
      alter (λ lf, Subleaf (lf_context lf) q) j l = put_leaf ctxs cid c q l
  | Some None => client_qos ctxs cid l = None ∧ l ++ [Subleaf c q] = put_leaf ctxs cid c q l
  | None => False
  end.
Proof.
  revert n. induction l as [|lf l IH]; intros n Hl; cbn [find_leaf client_qos put_leaf]; [done|].
  apply Forall_cons in Hl as [[x Hx] Hl]. unfold leaf_id. rewrite Hx. cbn [mbind option_bind].
  case_bool_decide as Hid.
  - rewrite !decide_True by done. exists 0%nat. split; [lia|]. by split; [eexists|].
  - rewrite !decide_False by done. specialize (IH (S n) Hl).
    destruct (find_leaf _ _ _ _) as [[i|]|]; [|by destruct IH as [-> <-]|done].
    destruct IH as (j & -> & Hq & <-). exists (S j). split; [lia|]. done.
Qed.

Lemma client_qos_put cid c q l cid' :
  leaf_id ctxs (Subleaf c q) = Some cid →
  client_qos ctxs cid' (put_leaf ctxs cid c q l) =
    if decide (cid' = cid) then Some q else client_qos ctxs cid' l.
Proof.
  intros Hc. induction l as [|lf l IH]; cbn [put_leaf client_qos].
  - rewrite Hc. destruct (decide (cid' = cid)) as [->|Hne]; [by rewrite decide_True|].
    rewrite decide_False by congruence. done.
  - destruct (decide (leaf_id ctxs lf = Some cid)) as [Hlf|Hlf]; cbn [client_qos].
    + assert (leaf_id ctxs (Subleaf (lf_context lf) q) = Some cid) as -> by done.
      destruct (decide (cid' = cid)) as [->|Hne]; [by rewrite decide_True|].
      rewrite !decide_False by congruence. done.
    + rewrite IH. destruct (decide (cid' = cid)) as [->|Hne]; [by rewrite decide_False|done].
Qed.

Lemma add_leaf_eq c x cid q l :
  ctxs !! c = Some x → id x = Some cid → live l →
  ∃ rc, (rc = 0 ∨ rc = -1) ∧ ∀ n, sh_subs n = l →
    add_leaf ctxs (Some c) q n =
      Some (rc, bool_decide (client_qos ctxs cid l = None), set_sh_subs (put_leaf ctxs cid c q (sh_subs n)) n).
Proof.
  intros Hx Hid Hl. pose proof (find_leaf_put cid c q l 0 Hl) as Hf.
  unfold add_leaf. rewrite Hx. cbn [mbind option_bind]. rewrite Hid.
  destruct (find_leaf ctxs cid l 0) as [[i|]|] eqn:E; [| |done].
  - destruct Hf as (j & -> & Hq & Heq). rewrite (bool_decide_eq_false_2 (client_qos _ _ _ = None)) by (by destruct Hq as [? ->]).
    exists (if bool_decide (protocol x = mosq_p_mqtt31) then -1 else 0).
    split; [case_bool_decide; auto|]. intros n ->. rewrite E. cbn [mbind option_bind].
    by rewrite <-Heq.
  - destruct Hf as [-> Heq]. rewrite (bool_decide_eq_true_2 (None = None)) by done. exists 0. split; [auto|].
    intros n ->. rewrite E. cbn [mbind option_bind]. by rewrite <-Heq.
Qed.

(** The client's leaves gone, if each client has one and the leaf is the
    context's own. *)
Lemma client_qos_drop c cid l cid' :
  NoDup (lf_context <$> l) → ctxs !! c ≫= id = Some cid →
  (∀ lf, lf ∈ l → leaf_id ctxs lf = Some cid → lf_context lf = c) →
  client_qos ctxs cid' (drop_leaf c l) = if decide (cid' = cid) then None else client_qos ctxs cid' l.
Proof.
  intros Hn Hc. induction l as [|lf l IH]; intros Hown.
  - cbn. by destruct (decide _).
  - cbn in Hn. apply NoDup_cons in Hn as [Hnin Hn]. unfold drop_leaf. cbn [list_find].
    destruct (decide (lf_context lf = c)) as [Hlf|Hlf].
    + cbn [delete list_delete client_qos].
      assert (Hlc : leaf_id ctxs lf = Some cid) by (unfold leaf_id; by rewrite Hlf). rewrite Hlc in *.
      destruct (decide (cid' = cid)) as [->|Hne]; [|by rewrite decide_False by congruence].
      clear IH Hn. induction l as [|lf' l IH]; [done|]. cbn in Hnin |- *.
      rewrite decide_False; [|intros Hl'; apply Hnin; rewrite Hlf, <-(Hown lf') by set_solver; by left].
      apply IH; [set_solver|]. intros lf'' Hin. apply Hown. set_solver.
    + assert (Hd : ∀ o : option (nat * subleaf),
        match prod_map S (λ x, x) <$> o with
        | Some (i, _) => delete i (lf :: l) | None => lf :: l end =
        lf :: match o with Some (i, _) => delete i l | None => l end) by (by intros [[]|]).
      rewrite Hd. cbn [client_qos]. fold (drop_leaf c l). rewrite IH by set_solver.
      destruct (decide (leaf_id ctxs lf = Some cid')) as [Hl'|]; [|done].
      rewrite decide_False; [done|]. intros ->. apply Hlf, Hown; set_solver.
Qed.
End leaves.

(** ** The broker's subscriptions *)

Definition root (d : db) : subhier := Subhier [] [] None (subs_children d).
Definition sub_path (sub : bytes) : path :=
  match tokens sub with t :: _ => t :: tokens sub | [] => [] end.

(** The abstract view: the QoS of a client's subscription at a place of the
    tree, and the retained message there. *)
Definition subscribed (d : db) (p : path) (cid : bytes) : option Z :=
  client_qos (contexts d) cid (subs_of p (root d)).
Definition retained_at (d : db) (p : path) : option ptr := ret_of p (root d).

Definition leaves_live (d : db) : Prop := ∀ p, live (contexts d) (subs_of p (root d)).

Lemma sub_topic_check_ok s :
  0 ∉ s → mosquitto_sub_topic_check s = MOSQ_ERR_SUCCESS → filter_ok (levels s).
Proof.
  intros H0 H. unfold mosquitto_sub_topic_check in H.
  by apply sub_topic_scan_iff in H as [H%valid_from_filter_ok _].
Qed.

Lemma filter_ok_hash_last ls : filter_ok ls → hash_last ls.
Proof.
  induction ls as [|l ls IH]; [done|]. intros [Hl Hls]. split; [|auto]. intros ->.
  destruct Hl as [Hl|[Hl|Hl]]; [|done|naive_solver]. unfold wildcard_free in Hl. set_solver.
Qed.

(** A mount point in front of a filter does not move its [#]. *)
Lemma hash_last_app m s : wildcard_free m → hash_last (levels s) → hash_last (levels (m ++ s)).
Proof.
  intros Hm Hs. induction m as [|c m IH]; [done|]. cbn [app].
  apply wildcard_free_cons in Hm as (_ & Hc & Hm). specialize (IH Hm).
  destruct (decide (c = c_slash)) as [->|Hsl]; [rewrite levels_slash; by split|].
  destruct (levels_cons (m ++ s)) as (l & ls & Hl). rewrite (levels_char c (m ++ s) l ls Hsl Hl).
  rewrite Hl in IH. destruct IH as [_ IH]. split; [|done]. congruence.
Qed.

Lemma hash_last_tokens s : hash_last (levels s) → hash_last (tokens s).
Proof. unfold tokens. by destruct (dollar s). Qed.

Lemma filter_ok_tokens s : filter_ok (levels s) → hash_last (tokens s).
Proof. intros H. by apply hash_last_tokens, filter_ok_hash_last. Qed.

(** The first token of a filter is not a wildcard. *)
Lemma tokens_head s : ∃ t ts, tokens s = t :: ts ∧ t ≠ [c_hash] ∧ t ≠ [c_plus].
Proof.
  unfold tokens. destruct (dollar s) eqn:Hd; cbn [app]; [|by do 2 eexists].
  destruct (levels_dollar s Hd) as (l & ls & Hl). rewrite Hl. by do 2 eexists.
Qed.

Lemma client_qos_ext ctxs ctxs' cid l :
  (∀ lf, lf ∈ l → leaf_id ctxs' lf = leaf_id ctxs lf) → client_qos ctxs' cid l = client_qos ctxs cid l.
Proof.
  induction l as [|lf l IH]; intros H; [done|]. cbn [client_qos]. rewrite H by set_solver.
  destruct (decide _); [done|]. apply IH. set_solver.
Qed.

Lemma leaf_id_insert (ctxs : gmap ptr mosquitto) c x x' lf :
  ctxs !! c = Some x → id x' = id x → leaf_id (<[c := x']> ctxs) lf = leaf_id ctxs lf.
Proof.
  intros Hc Hid. unfold leaf_id. destruct (decide (lf_context lf = c)) as [->|].
  - rewrite lookup_insert_eq, Hc. done.
  - by rewrite lookup_insert_ne.
Qed.

Lemma sub_add_root_updates ctxs c q t ts (d : db) rc added f :
  (∀ n, sh_subs n = subs_of (t :: ts) (root d) →
     add_leaf ctxs c q n = Some (rc, added, set_sh_subs (f (sh_subs n)) n)) →
  tree_ok (subs_children d) → t ≠ [c_hash] → hash_last ts →
  ∃ ch', sub_add_root ctxs c q t ts (subs_children d) = Some (rc, added, ch') ∧ tree_ok ch' ∧
    updates (t :: ts) f (root d) (root (set_subs_children (λ _, ch') d)).
Proof.
  intros Hadd Hok Ht Hl. unfold sub_add_root. rewrite subs_of_cons in Hadd. cbn [root sh_children] in Hadd.
  destruct (list_find _ _) as [[i b]|] eqn:Hf.
  - pose proof (child_Some_find _ _ _ _ Hf) as Hc. apply list_find_Some in Hf as (Hi & _ & _).
    destruct (tree_ok_child _ _ _ Hok Hc) as [Hb Htb]. rewrite Hc in Hadd.
    destruct (sub_add_updates _ _ _ _ _ _ _ _ Hadd Hb) as (b' & -> & Hup & Hb' & _); [congruence|done|].
    pose proof (up_topic _ _ _ _ Hup). eexists. split; [done|]. split; [by eapply tree_ok_insert|].
    apply (updates_child t ts f (root d) b b' (<[i := b']> (subs_children d))); [done|by left|].
    exists (Some b'). split; [by left|]. intros y.
    rewrite (child_insert y _ i b b'), Htb; [done| |done|congruence].
    by apply tree_ok_unfold in Hok as [? _].
  - destruct (child_None_find _ _ Hf) as [Hc Hnin]. rewrite Hc in Hadd.
    destruct (sub_add_updates ctxs c q ts (new_node t) rc added f) as (b' & -> & Hup & Hb' & _);
      [|split; [done|apply tree_ok_nil]|done|done|].
    { intros n Hn. apply Hadd. rewrite Hn. by apply empty_node_of. }
    pose proof (up_topic _ _ _ _ Hup) as Htb. cbn in Htb. eexists. split; [done|].
    split; [apply tree_ok_cons; congruence|].
    apply (updates_child t ts f (root d) (new_node t) b' (b' :: subs_children d)); [done|by right|].
    exists (Some b'). split; [by left|]. intros y. by rewrite child_cons, Htb.
Qed.

Section db_subs.
Context (d : db) (c : ptr) (x : mosquitto) (cid sub : bytes).
Context (Hx : contexts d !! c = Some x) (Hid : id x = Some cid).
Context (H0 : 0 ∉ sub) (Hok : tree_ok (subs_children d)).

Lemma sub_add_db q :
  live (contexts d) (subs_of (sub_path sub) (root d)) → hash_last (tokens sub) →
  ∃ ch', tree_ok ch' ∧
    updates (sub_path sub) (put_leaf (contexts d) cid c q) (root d)
      (root (set_subs_children (λ _, ch') d)) ∧
    mqtt3_sub_add c sub q d = Some (MOSQ_ERR_SUCCESS,
      let d1 := set_subs_children (λ _, ch') d in
      if bool_decide (subscribed d (sub_path sub) cid = None)
      then set_subscription_count (λ n, n + 1)
             (set_contexts <[c := set_subs (fill_slot (sub_path sub)) x]> d1)
      else d1).
Proof.
  intros Hl Hhl. destruct (tokens_head sub) as (t & ts & Ht & Hth & Htp).
  assert (Hp : sub_path sub = t :: tokens sub) by (unfold sub_path; by rewrite Ht).
  assert (Hhd : head (tokens sub) = Some t) by (by rewrite Ht).
  destruct (add_leaf_eq (contexts d) c x cid q _ Hx Hid Hl) as (rc & Hrc & Hadd). rewrite Hp in Hadd.
  destruct (sub_add_root_updates _ _ _ _ _ _ _ _ _ Hadd Hok Hth Hhl) as (ch' & Heq & Hok' & Hup).
  exists ch'. rewrite Hp in *. split; [done|]. split; [done|].
  unfold mqtt3_sub_add. rewrite tokenise_tokens by done.
  unfold bind, mlift, ret, mget, mmodify, upd_context, subscribed. cbv beta iota. rewrite Hhd. cbv beta iota.
  rewrite Heq. destruct (bool_decide _).
  - cbn [contexts set_subs_children]. rewrite Hx. by destruct Hrc as [-> | ->].
  - by destruct Hrc as [-> | ->].
Qed.

Lemma sub_remove_db :
  ∃ ch', tree_ok ch' ∧
    updates (sub_path sub) (drop_leaf c) (root d) (root (set_subs_children (λ _, ch') d)) ∧
    mqtt3_sub_remove c sub d = Some (MOSQ_ERR_SUCCESS,
      let d1 := set_subs_children (λ _, ch') d in
      if has_leaf c (subs_of (sub_path sub) (root d))
      then set_subscription_count (λ n, n - 1)
             (set_contexts <[c := set_subs (clear_slot (sub_path sub)) x]> d1)
      else d1).
Proof.
  destruct (tokens_head sub) as (t & ts & Ht & Hth & Htp).
  assert (Hp : sub_path sub = t :: tokens sub) by (unfold sub_path; by rewrite Ht).
  assert (Hhd : head (tokens sub) = Some t) by (by rewrite Ht).
  unfold mqtt3_sub_remove. rewrite tokenise_tokens by done.
  unfold bind, mlift, ret, mget, mmodify, upd_context. cbv beta iota. rewrite Hhd. cbv beta iota.
  rewrite Hp, subs_of_cons. cbn [root sh_children].
  destruct (list_find _ _) as [[i b]|] eqn:Hf.
  - pose proof (child_Some_find _ _ _ _ Hf) as Hc. apply list_find_Some in Hf as (Hi & _ & _).
    destruct (tree_ok_child _ _ _ Hok Hc) as [Hb Htb]. rewrite Hc. cbn [fmap option_fmap option_map default].
    destruct (sub_remove_updates c (tokens sub) b Hb) as (b' & -> & Hup & Hb').
    pose proof (up_topic _ _ _ _ Hup). exists (<[i := b']> (subs_children d)).
    split; [by eapply tree_ok_insert|]. split.
    + apply (updates_child t (tokens sub) _ (root d) b b' (<[i := b']> (subs_children d))); [done|by left|].
      exists (Some b'). split; [by left|]. intros y.
      rewrite (child_insert y _ i b b'), Htb; [done| |done|congruence].
      by apply tree_ok_unfold in Hok as [? _].
    + destruct (has_leaf _ _); [|done]. cbn [contexts set_subs_children]. by rewrite Hx.
  - destruct (child_None_find _ _ Hf) as [Hc _]. rewrite Hc. exists (subs_children d).
    split; [done|]. split; [|by destruct d].
    apply (updates_id (t :: tokens sub) _ (root d)); [by intros ? ->|].
    rewrite subs_of_cons. cbn [root sh_children]. by rewrite Hc.
Qed.
End db_subs.

(** What the tree maintains: its shape, and at each place at most one leaf
    for each context, all of contexts that exist. *)
Record subs_ok (d : db) : Prop := {
  so_tree : tree_ok (subs_children d);
  so_live p : live (contexts d) (subs_of p (root d));
  so_one p : NoDup (lf_context <$> subs_of p (root d));
}.

Lemma put_leaf_contexts ctxs cid c q l :
  lf_context <$> put_leaf ctxs cid c q l =
    (lf_context <$> l) ++ (if decide (client_qos ctxs cid l = None) then [c] else []).
Proof.
  induction l as [|lf l IH]; cbn [put_leaf client_qos]; [done|].
  destruct (decide (leaf_id ctxs lf = Some cid)) as [Hlf|Hlf].
  - by rewrite app_nil_r.
  - cbn [fmap list_fmap app]. by rewrite IH.
Qed.

Lemma client_qos_None ctxs cid l : client_qos ctxs cid l = None ↔ Some cid ∉ leaf_id ctxs <$> l.
Proof.
  induction l as [|lf l IH]; cbn [client_qos fmap list_fmap]; [set_solver|].
  rewrite not_elem_of_cons. destruct (decide _) as [->|H]; [naive_solver|]. rewrite IH. naive_solver.
Qed.

Lemma put_leaf_ok ctxs cid c q l :
  leaf_id ctxs (Subleaf c q) = Some cid → live ctxs l → NoDup (lf_context <$> l) →
  live ctxs (put_leaf ctxs cid c q l) ∧ NoDup (lf_context <$> put_leaf ctxs cid c q l).
Proof.
  intros Hc Hl Hn. assert (Hm : ∀ l, live ctxs l ↔ Forall (λ p, is_Some (ctxs !! p)) (lf_context <$> l)).
  { intros l'. by rewrite Forall_fmap. }
  rewrite Hm in Hl |- *. rewrite put_leaf_contexts. destruct (decide _) as [Hq|]; [|by rewrite app_nil_r].
  assert (Hcx : is_Some (ctxs !! c)).
  { unfold leaf_id in Hc. cbn in Hc. destruct (ctxs !! c); [by eexists|done]. }
  split; [apply Forall_app; by repeat constructor|]. apply NoDup_app. split; [done|].
  split; [|apply NoDup_singleton]. intros p Hp ->%list_elem_of_singleton.
  apply list_elem_of_fmap in Hp as (lf & -> & Hlf). apply client_qos_None in Hq. apply Hq.
  rewrite <-Hc. apply (list_elem_of_fmap_2 (leaf_id ctxs) l lf Hlf).
Qed.

Lemma drop_leaf_sublist c l : drop_leaf c l `sublist_of` l.
Proof. unfold drop_leaf. destruct (list_find _ _) as [[i lf]|]; [apply sublist_delete|done]. Qed.

(** A new tree over contexts whose ids are the same. *)
Lemma subs_ok_updates d d' p f :
  subs_ok d → tree_ok (subs_children d') → updates p f (root d) (root d') →
  (∀ c, is_Some (contexts d !! c) → is_Some (contexts d' !! c)) →
  (let l := f (subs_of p (root d)) in live (contexts d) l ∧ NoDup (lf_context <$> l)) →
  subs_ok d'.
Proof.
  intros Hok Ht Hup Hid [Hf1 Hf2]. split; [done|..]; intros p'; rewrite (up_subs _ _ _ _ Hup).
  - eapply (Forall_impl (λ lf, is_Some (contexts d !! lf_context lf))); [|intros lf; apply Hid].
    destruct (decide _) as [->|]; [done|by apply so_live].
  - destruct (decide _) as [->|]; [done|by apply so_one].
Qed.

Lemma subscribed_updates d d' p f p' cid :
  updates p f (root d) (root d') → (∀ lf, leaf_id (contexts d') lf = leaf_id (contexts d) lf) →
  subscribed d' p' cid =
    if decide (p' = p) then client_qos (contexts d) cid (f (subs_of p (root d)))
    else subscribed d p' cid.
Proof.
  intros Hup Hid. unfold subscribed. rewrite (client_qos_ext (contexts d)), (up_subs _ _ _ _ Hup) by auto.
  destruct (decide _) as [->|]; done.
Qed.

(** [mqtt3_sub_add] as an insertion, for any filter the tree can hold. *)
Lemma sub_add_map (d : db) (c : ptr) (x : mosquitto) (cid sub : bytes) (q : Z) :
  contexts d !! c = Some x → id x = Some cid → 0 ∉ sub → hash_last (tokens sub) → subs_ok d →
  ∃ d', mqtt3_sub_add c sub q d = Some (MOSQ_ERR_SUCCESS, d') ∧ subs_ok d' ∧
    (∀ p cid', subscribed d' p cid' =
       if decide (p = sub_path sub ∧ cid' = cid) then Some q else subscribed d p cid') ∧
    (∀ p, retained_at d' p = retained_at d p) ∧ dmsg d' = dmsg d ∧
    let new := bool_decide (subscribed d (sub_path sub) cid = None) in
    contexts d' = (if new then <[c := set_subs (fill_slot (sub_path sub)) x]> (contexts d)
                   else contexts d) ∧
    subscription_count d' = subscription_count d + (if new then 1 else 0).
Proof.
  intros Hx Hid H0 Hck Hok. pose proof (so_tree d Hok) as Htree.
  destruct (sub_add_db d c x cid sub Hx Hid H0 Htree q (so_live d Hok _) Hck) as (ch' & Hok' & Hup & Heq).
  assert (Hlc : leaf_id (contexts d) (Subleaf c q) = Some cid).
  { unfold leaf_id. cbn. by rewrite Hx. }
  eexists. split; [exact Heq|]. cbv zeta. set (new := bool_decide _). clearbody new.
  set (d' := if new then _ else _). assert (Hids : ∀ lf, leaf_id (contexts d') lf = leaf_id (contexts d) lf).
  { intros lf. subst d'. destruct new; [|done]. by apply (leaf_id_insert _ _ x). }
  assert (Hup' : updates (sub_path sub) (put_leaf (contexts d) cid c q) (root d) (root d')).
  { subst d'. by destruct new. }
  split_and!.
  - apply (subs_ok_updates d d' _ _ Hok) with (2 := Hup'); [by subst d'; destruct new| |].
    { intros c'. subst d'. destruct new; [|done]. cbn. rewrite lookup_insert_is_Some'. auto. }
    apply put_leaf_ok; [done|by apply so_live|by apply so_one].
  - intros p cid'. rewrite (subscribed_updates d d' _ _ p cid' Hup' Hids).
    destruct (decide (p = sub_path sub)) as [->|]; [|by rewrite decide_False by naive_solver].
    rewrite client_qos_put by done. destruct (decide (cid' = cid)) as [->|].
    + by rewrite decide_True.
    + by rewrite decide_False by naive_solver.
  - intros p. apply (up_ret _ _ _ _ Hup').
  - by subst d'; destruct new.
  - by subst d'; destruct new.
  - subst d'. destruct new; cbn; lia.
Qed.

(** C31: [mqtt3_sub_add] implements the insertion into a map from (filter,
    client) to QoS: afterwards the client is subscribed to the filter with
    the QoS asked for, every other subscription and every retained message
    is as it was, the tree stays well formed, and the subscription count and
    the client's list of subscriptions grow only with a new subscription. *)
Theorem sub_add_refines (d : db) (c : ptr) (x : mosquitto) (cid sub : bytes) (q : Z) :
  contexts d !! c = Some x → id x = Some cid → 0 ∉ sub →
  mosquitto_sub_topic_check sub = MOSQ_ERR_SUCCESS → subs_ok d →
  ∃ d', mqtt3_sub_add c sub q d = Some (MOSQ_ERR_SUCCESS, d') ∧ subs_ok d' ∧
    (∀ p cid', subscribed d' p cid' =
       if decide (p = sub_path sub ∧ cid' = cid) then Some q else subscribed d p cid') ∧
    (∀ p, retained_at d' p = retained_at d p) ∧ dmsg d' = dmsg d ∧
    let new := bool_decide (subscribed d (sub_path sub) cid = None) in
    contexts d' = (if new then <[c := set_subs (fill_slot (sub_path sub)) x]> (contexts d)
                   else contexts d) ∧
    subscription_count d' = subscription_count d + (if new then 1 else 0).
Proof. intros Hx Hid H0 Hck. apply sub_add_map; [done..|]. by apply filter_ok_tokens, sub_topic_check_ok. Qed.

(** C32: [mqtt3_sub_remove] deletes from that map: afterwards the client is not
    subscribed to the filter, and every other subscription and every retained
    message is as it was, although empty nodes of the tree were freed. *)
Theorem sub_remove_refines (d : db) (c : ptr) (x : mosquitto) (cid sub : bytes) :
  contexts d !! c = Some x → id x = Some cid → 0 ∉ sub → subs_ok d →
  (∀ p lf, lf ∈ subs_of p (root d) → leaf_id (contexts d) lf = Some cid → lf_context lf = c) →
  ∃ d', mqtt3_sub_remove c sub d = Some (MOSQ_ERR_SUCCESS, d') ∧ subs_ok d' ∧
    (∀ p cid', subscribed d' p cid' =
       if decide (p = sub_path sub ∧ cid' = cid) then None else subscribed d p cid') ∧
    (∀ p, retained_at d' p = retained_at d p) ∧ dmsg d' = dmsg d ∧
    let old := has_leaf c (subs_of (sub_path sub) (root d)) in
    contexts d' = (if old then <[c := set_subs (clear_slot (sub_path sub)) x]> (contexts d)
                   else contexts d) ∧
    subscription_count d' = subscription_count d - (if old then 1 else 0).
Proof.
  intros Hx Hid H0 Hok Hown. pose proof (so_tree d Hok) as Htree.
  destruct (sub_remove_db d c x sub Hx H0 Htree) as (ch' & Hok' & Hup & Heq).
  eexists. split; [exact Heq|]. cbv zeta. set (old := has_leaf _ _). clearbody old.
  set (d' := if old then _ else _). assert (Hids : ∀ lf, leaf_id (contexts d') lf = leaf_id (contexts d) lf).
  { intros lf. subst d'. destruct old; [|done]. by apply (leaf_id_insert _ _ x). }
  assert (Hup' : updates (sub_path sub) (drop_leaf c) (root d) (root d')).
  { subst d'. by destruct old. }
  split_and!.
  - apply (subs_ok_updates d d' _ _ Hok) with (2 := Hup'); [by subst d'; destruct old| |].
    { intros c'. subst d'. destruct old; [|done]. cbn. rewrite lookup_insert_is_Some'. auto. }
    pose proof (drop_leaf_sublist c (subs_of (sub_path sub) (root d))) as Hsub. split.
    + eapply Forall_subseteq; [apply (sublist_subseteq _ _ Hsub)|by apply so_live].
    + eapply sublist_NoDup; [by apply (so_one d Hok)|]. by apply fmap_sublist.
  - intros p cid'. rewrite (subscribed_updates d d' _ _ p cid' Hup' Hids).
    destruct (decide (p = sub_path sub)) as [->|]; [|by rewrite decide_False by naive_solver].
    rewrite (client_qos_drop _ _ cid); [|by apply so_one|by rewrite Hx|by eauto].
    destruct (decide (cid' = cid)) as [->|].
    + by rewrite decide_True.
    + by rewrite decide_False by naive_solver.
  - intros p. apply (up_ret _ _ _ _ Hup').
  - by subst d'; destruct old.
  - by subst d'; destruct old.
  - subst d'. destruct old; cbn; lia.
Qed.

(** *** The nodes a publication reaches *)

Lemma wildcard_free_tokens topic : wildcard_free topic → no_wild (tokens topic).
Proof.
  intros Hc.
  assert (Hlv : ∀ l s, l ∈ levels s → l ⊆ s).
  { intros l s. revert l. induction s as [|c s IH]; intros l Hin.
    - cbn in Hin. by apply list_elem_of_singleton in Hin as ->.
    - cbn [levels] in Hin. destruct (decide (c = c_slash)).
      + apply elem_of_cons in Hin as [->|Hin]; [apply list_subseteq_nil|].
        apply list_subseteq_cons, IH, Hin.
      + destruct (levels s) as [|l' ls]; apply elem_of_cons in Hin as [->|Hin].
        * apply list_subseteq_skip, list_subseteq_nil.
        * by apply elem_of_nil in Hin.
        * apply list_subseteq_skip, IH. by left.
        * apply list_subseteq_cons, IH. by right. }
  unfold no_wild, tokens. apply Forall_app. split.
  - destruct (dollar topic); repeat constructor; done.
  - apply Forall_forall. intros l Hl. apply Hlv in Hl. unfold wildcard_free in Hc.
    split; intros ->; set_solver.
Qed.

Lemma literal_match p ts : no_wild ts → match_levels p ts = true → literal p = bool_decide (p = ts).
Proof.
  revert ts. induction p as [|x p IH]; intros ts Hw Hm.
  - by destruct ts.
  - rewrite match_levels_cons in Hm. rewrite literal_cons. apply orb_prop in Hm as [Hm|Hm].
    + apply bool_decide_eq_true in Hm as [-> ->]. rewrite (bool_decide_eq_true_2 ([c_hash] = [c_hash])) by done.
      rewrite andb_false_r. cbn. rewrite bool_decide_eq_false_2; [done|]. intros <-. by inversion Hw as [|? ? [? ?]].
    + destruct ts as [|y ts]; [done|]. apply andb_prop in Hm as [Hxy%bool_decide_eq_true Hm].
      unfold no_wild in Hw. apply Forall_cons in Hw as [[Hy1 Hy2] Hw]. rewrite (IH ts Hw Hm).
      destruct Hxy as [-> | ->].
      * rewrite (bool_decide_eq_true_2 ([c_plus] = [c_plus])) by done. cbn. rewrite bool_decide_eq_false_2; [done|]. by intros [= <- _].
      * rewrite !(bool_decide_eq_false_2 (y = _)) by done. cbn. apply bool_decide_ext. split; [by intros ->|by intros [= ->]].
Qed.

Lemma mqtt_match_head sub topic :
  mqtt_match sub topic = true → head (tokens sub) = head (tokens topic).
Proof.
  rewrite <-match_tokens. destruct (tokens_head sub) as (t & ts & -> & Hh & Hp).
  rewrite match_levels_cons, (bool_decide_eq_false_2 (_ ∧ _)) by naive_solver.
  destruct (tokens topic) as [|y ys]; [done|]. intros [Hm _]%andb_prop.
  apply bool_decide_eq_true in Hm as [?| ->]; [done|]. done.
Qed.

(** C2: routing. In a well-formed tree the search for a valid topic processes
    each node at most once; the node of a filter is processed exactly when
    the filter matches the topic as MQTT defines it; and it is processed as
    the place of the retained message exactly when it is the topic's own
    node. *)
Theorem sub_search_routing {S} (process : subhier → bool → M S subhier) (d : db)
    (topic : bytes) (b : subhier) (s : S) :
  (∀ n sr s n' s', process n sr s = Some (n', s') →
     sh_topic n' = sh_topic n ∧ sh_children n' = sh_children n) →
  tree_ok (subs_children d) → mosquitto_pub_topic_check topic = MOSQ_ERR_SUCCESS →
  b ∈ subs_children d → head (tokens topic) = Some (sh_topic b) →
  ∃ vs, NoDup vs.*1 ∧
    _sub_search process (tokens topic) true b s = visit_list process vs b s ∧
    (∀ sub, is_Some (sub_at (sub_path sub) (root d)) →
       mqtt_match sub topic = true ↔ head (tokens sub) = Some (sh_topic b) ∧ tokens sub ∈ vs.*1) ∧
    (∀ p sr, (p, sr) ∈ vs → sr = bool_decide (p = tokens topic)).
Proof.
  intros Hproc Hok Hck Hb Hhd. pose proof (wildcard_free_tokens _ (pub_topic_scan_free _ _ Hck)) as Hw.
  pose proof Hok as [Hn Hch]%tree_ok_unfold. rewrite Forall_forall in Hch.
  destruct (Hch b Hb) as [_ [Hu Hh]].
  assert (Hc : child (sh_topic b) (subs_children d) = Some b) by (by apply child_Some).
  exists (visits (tokens topic) true b). split_and!.
  - by apply visits_nodup.
  - by apply sub_search_visits.
  - intros sub. destruct (tokens_head sub) as (t & ts & Ht & _ & _). unfold sub_path. rewrite Ht, <-Ht.
    rewrite sub_at_cons. cbn [root sh_children]. intros Hs.
    assert (Hhs : head (tokens sub) = Some t) by (by rewrite Ht).
    split.
    + intros Hm. pose proof (mqtt_match_head _ _ Hm) as Hhd'. rewrite Hhs, Hhd in Hhd'.
      injection Hhd' as ->. split; [done|]. rewrite Hc in Hs. rewrite <-match_tokens in Hm.
      apply list_elem_of_fmap. exists (tokens sub, literal (tokens sub)). split; [done|].
      apply visits_match; [done..|]. by split; [rewrite Ht|].
    + intros [_ ([p sr] & Hp & Hv)%list_elem_of_fmap]. apply visits_match in Hv as (_ & _ & Hm & _); [|done..].
      by rewrite <-match_tokens, Hp.
  - intros p sr Hv. apply visits_match in Hv as (_ & _ & Hm & Hsr); [|done..]. cbn in *. subst sr.
    by apply literal_match.
Qed.

(** ** Examples *)

(** All leaves of a tree. *)
Fixpoint tree_leaves (h : subhier) : list subleaf :=
  match h with Subhier _ l _ ch => l ++ concat (tree_leaves <$> ch) end.

Lemma subs_of_sublist p h : subs_of p h `sublist_of` tree_leaves h.
Proof.
  revert h. induction p as [|x p IH]; intros [t l r ch]; cbn [tree_leaves].
  - cbn. by apply sublist_inserts_r.
  - apply sublist_inserts_l. rewrite subs_of_cons. cbn [sh_children]. unfold child.
    destruct (list_find _ _) as [[i b]|] eqn:Hf; [|apply sublist_nil_l]. cbn.
    apply list_find_Some in Hf as (Hi & _ & _). etrans; [apply IH|].
    apply (list_insert_split ch i b) in Hi as (l1 & l2 & -> & _). rewrite fmap_app, concat_app. cbn.
    by apply sublist_inserts_l, sublist_inserts_r.
Qed.

Lemma subs_ok_leaves d :
  tree_ok (subs_children d) →
  live (contexts d) (tree_leaves (root d)) →
  NoDup (lf_context <$> tree_leaves (root d)) → subs_ok d.
Proof.
  intros Hok Hl Hn. split; [done|..]; intros p; pose proof (subs_of_sublist p (root d)) as Hs.
  - by eapply Forall_subseteq; [apply sublist_subseteq|].
  - eapply sublist_NoDup; [exact Hn|by apply fmap_sublist].
Qed.

(** A broker as [mqtt3_db_open] leaves it, with one client, and with a
    subscription of that client to [a/+]. *)
Definition fresh_tree : list subhier := [new_node (str "$SYS"); new_node []].
Definition one_sub_tree : list subhier :=
  [new_node (str "$SYS");
   Subhier [] [] None [Subhier [] [] None [Subhier (str "a") [] None
     [Subhier (str "+") [Subleaf 1 1] None []]]]].
Definition sample_broker : db :=
  Db {[1%positive := idle_context]} sample_db fresh_tree 0 0 [(str "c1", 1%positive)] [] [] [0] [].
Definition subscribed_broker : db :=
  Db {[1%positive := set_subs (λ _, [Some (sub_path (str "a/+"))]) idle_context]} sample_db
    one_sub_tree 1 0 [(str "c1", 1%positive)] [] [] [0] [].

(** A tree whose shape is checked by evaluation. *)
Fixpoint tree_okb (h : subhier) : bool :=
  match h with
  | Subhier t _ _ ch =>
      bool_decide (NoDup (sh_topic <$> ch)) && (negb (bool_decide (t = [c_hash])) || bool_decide (ch = []))
      && forallb tree_okb ch
  end.

Lemma tree_okb_ok h : tree_okb h = true → node_ok h.
Proof.
  induction h as [t l r ch IH] using subhier_ind'. cbn [tree_okb].
  intros [[Hn%bool_decide_eq_true Hh]%andb_prop Hch]%andb_prop. split; cbn [sh_topic sh_children].
  - intros ->. rewrite bool_decide_eq_true_2 in Hh by done. by apply bool_decide_eq_true in Hh.
  - apply tree_ok_unfold. split; [done|]. clear Hn Hh. induction IH as [|b ch Hb _ IHch]; [done|].
    cbn in Hch. apply andb_prop in Hch as [? ?]. constructor; auto.
Qed.

Lemma sample_broker_subs : subs_ok sample_broker ∧ subs_ok subscribed_broker.
Proof.
  split; (apply subs_ok_leaves; [eapply (tree_okb_ok (root _)); vm_compute; reflexivity|by_compute|by_compute]).
Qed.

Lemma sub_add_refines_witness :
  ∃ d', mqtt3_sub_add 1 (str "a/+") 1 sample_broker = Some (MOSQ_ERR_SUCCESS, d') ∧ subs_ok d' ∧
    subscribed d' (sub_path (str "a/+")) (str "c1") = Some 1 ∧ subscription_count d' = 1.
Proof.
  destruct (sub_add_refines sample_broker 1 idle_context (str "c1") (str "a/+") 1)
    as (d' & Hrun & Hok & Hs & _ & _ & _ & Hn);
    [reflexivity|reflexivity|by_compute|reflexivity|apply sample_broker_subs|].
  exists d'. split; [exact Hrun|]. split; [exact Hok|]. split.
  - rewrite Hs. by_compute.
  - rewrite Hn. by_compute.
Defined.

Lemma sub_remove_refines_witness :
  ∃ d', mqtt3_sub_remove 1 (str "a/+") subscribed_broker = Some (MOSQ_ERR_SUCCESS, d') ∧ subs_ok d' ∧
    subscribed subscribed_broker (sub_path (str "a/+")) (str "c1") = Some 1 ∧
    subscribed d' (sub_path (str "a/+")) (str "c1") = None ∧ subscription_count d' = 0.
Proof.
  destruct (sub_remove_refines subscribed_broker 1 _ (str "c1") (str "a/+") eq_refl eq_refl)
    as (d' & Hrun & Hok & Hs & _ & _ & _ & Hn); [by_compute|apply sample_broker_subs| |].
  { intros p lf Hlf _. apply (sublist_subseteq _ _ (subs_of_sublist p _)) in Hlf.
    apply list_elem_of_singleton in Hlf as ->. reflexivity. }
  exists d'. split; [exact Hrun|]. split; [exact Hok|]. split; [by_compute|]. split.
  - rewrite Hs. by_compute.
  - rewrite Hn. by_compute.
Defined.

(** The nodes a search processes, as a list. *)
Definition record_node (n : subhier) (sr : bool) : M (list (bytes * bool)) subhier :=
  mmodify (λ l, l ++ [(sh_topic n, sr)]) ;;; ret n.

Lemma sub_search_routing_witness :
  let b := Subhier [] [] None [Subhier [] [] None [Subhier (str "a") [] None
             [Subhier (str "+") [Subleaf 1 1] None []]]] in
  ∃ vs, NoDup vs.*1 ∧
    _sub_search record_node (tokens (str "a/x")) true b [] = visit_list record_node vs b [] ∧
    tokens (str "a/+") ∈ vs.*1.
Proof.
  intros b. destruct (sub_search_routing record_node subscribed_broker (str "a/x") b [])
    as (vs & Hn & Hs & Hr & _).
  - unfold record_node, bind, mmodify, ret. intros n sr s n' s' Heq. by injection Heq as <- <-.
  - apply sample_broker_subs.
  - reflexivity.
  - by right; left.
  - reflexivity.
  - exists vs. split; [exact Hn|]. split; [exact Hs|]. apply (Hr (str "a/+")); [|reflexivity].
    by eexists.
Defined.
