(* ===== verification/DbInv.v ===== *)
(** * The invariant of the whole broker

    Every context's queue is consistent and the reference count of every
    stored message is the number of references to it from all contexts, from
    the retained messages of the subscription tree and from the operation in
    progress. Publishing, queueing retained messages and removing a client's
    subscriptions preserve it, so none of them touches freed memory. *)

From stdpp Require Import base list numbers strings option sets gmap fin_maps.
From Stdlib Require Import ZArith Lia.
From S2P Require Import Prelude Topic Packet State Store Send Messages Db Subs.
Local Open Scope Z_scope.
Local Open Scope broker_scope.

(** ** References *)

Definition ctx_refs (m : gmap ptr mosquitto) : list ptr :=
  concat ((λ cx, cm_store <$> msgs cx.2) <$> map_to_list m).

Fixpoint tree_refs (h : subhier) : list ptr :=
  match h with
  | Subhier _ _ r ch => option_list r ++ concat (tree_refs <$> ch)
  end.

Lemma ctx_refs_delete m c x :
  m !! c = Some x → ctx_refs m ≡ₚ (cm_store <$> msgs x) ++ ctx_refs (delete c m).
Proof.
  intros Hx. unfold ctx_refs. rewrite <-(map_to_list_delete m c x Hx). done.
Qed.

Lemma ctx_refs_insert m c x :
  ctx_refs (<[c := x]> m) ≡ₚ (cm_store <$> msgs x) ++ ctx_refs (delete c m).
Proof.
  rewrite (ctx_refs_delete _ c x) by apply lookup_insert_eq. by rewrite delete_insert_eq.
Qed.

Lemma ctx_refs_same m c x x' :
  m !! c = Some x → msgs x' = msgs x → ctx_refs (<[c := x']> m) ≡ₚ ctx_refs m.
Proof. intros Hx Hm. by rewrite ctx_refs_insert, Hm, <-(ctx_refs_delete m c x). Qed.

(** ** Contexts *)

(** The queue of a context that has lost its id is not used again. *)
Record ctx_ok (d : msg_db) (x : mosquitto) : Prop := {
  cx_queue : is_Some (id x) → queue_ok x;
  cx_msgs : Forall (msg_ok d) (msgs x);
  cx_fresh : Forall (λ m, cm_ptr m < next_ptr d)%positive (msgs x);
  cx_out : outq_ok x;
  cx_bridge : bridge_ok x;
}.

Lemma cm_ok_split others x d :
  cm_ok others (CM x d) → ctx_ok d x ∧ store_ok ((cm_store <$> msgs x) ++ others) d.
Proof. intros [? ? ? ? ? ?]. split; [by split|done]. Qed.

Lemma cm_ok_join others x d :
  is_Some (id x) → ctx_ok d x → store_ok ((cm_store <$> msgs x) ++ others) d → cm_ok others (CM x d).
Proof. intros Hid [? ? ? ? ?] ?. split; auto. Qed.

(** [refs] are the references from outside the contexts. *)
Record core_ok (refs : list ptr) (d : db) : Prop := {
  co_ctx c x : contexts d !! c = Some x → ctx_ok (dmsg d) x;
  co_store : store_ok (ctx_refs (contexts d) ++ refs) (dmsg d);
}.

#[export] Instance core_ok_perm : Proper ((≡ₚ) ==> eq ==> iff) core_ok.
Proof.
  assert (H : ∀ l1 l2 d, l1 ≡ₚ l2 → core_ok l1 d → core_ok l2 d).
  { intros l1 l2 d Hp [Hc Hs]. split; [done|]. by rewrite <-Hp. }
  intros l1 l2 Hp d ? <-. split; by apply H.
Qed.

(** The messages a client has sent and not released. *)
Definition incoming (x : mosquitto) : list client_msg := filter (λ m, direction m = mosq_md_in) (msgs x).

(** The queue of a client that is not known yet. *)
Definition idle (x : mosquitto) : option (list client_msg * option ptr * Z * Z * list (option path)) :=
  if id x then None else Some (msgs x, last_msg x, msg_count x, msg_count12 x, subs x).

Lemma idle_named x y : is_Some (id x) → id y = id x → idle y = idle x.
Proof. unfold idle. intros [i ->] ->. done. Qed.

(** What ties a context to the tree and to its connection. *)
Definition conn (x : mosquitto) :=
  (id x, subs x, idle x,
   (sock x, protocol x, username x, password x, keepalive x, cstate x, will x, clean_session x,
    is_bridge x, acl_list x, listener x, disconnect_t x, rd x, c_in_packet x, topics <$> c_bridge x)).

(** What a context keeps while messages are queued for it. *)
Definition tie (x : mosquitto) := (conn x, incoming x).

(** The tables of contexts. *)
Definition tables (d : db) :=
  (contexts_by_id d, contexts_by_sock d, ll_for_free d, client_counts d, bridges d).

(** What a step leaves alone: the messages referenced from [refs], the
    contexts that exist with their ids, the subscriptions and the tables. *)
Record frame (refs : list ptr) (d d' : db) : Prop := {
  fr_keeps : keeps refs (dmsg d) (dmsg d');
  fr_ids c : tie <$> contexts d' !! c = tie <$> contexts d !! c;
  fr_tree : subs_children d' = subs_children d;
  fr_tables : tables d' = tables d;
}.

#[export] Instance frame_refl refs : Reflexive (frame refs).
Proof. intros d. by split. Qed.

#[export] Instance frame_trans refs : Transitive (frame refs).
Proof.
  intros d1 d2 d3 [K1 I1 T1 B1] [K2 I2 T2 B2]. split; [| |congruence|congruence].
  - intros s Hs. by rewrite K2, K1.
  - intros c. by rewrite I2, I1.
Qed.

Lemma frame_subseteq refs refs' d d' : refs' ⊆ refs → frame refs d d' → frame refs' d d'.
Proof. intros Hs [K I T B]. split; [|done..]. intros s H. apply K. set_solver. Qed.

Lemma frame_live refs d d' c : frame refs d d' → is_Some (contexts d !! c) → is_Some (contexts d' !! c).
Proof.
  intros Hf [x Hx]. pose proof (fr_ids _ _ _ Hf c) as Hi. rewrite Hx in Hi.
  destruct (contexts d' !! c); [by eexists|done].
Qed.

Lemma frame_tie refs d d' c x :
  frame refs d d' → contexts d !! c = Some x → ∃ x', contexts d' !! c = Some x' ∧ tie x' = tie x.
Proof.
  intros Hf Hx. pose proof (fr_ids _ _ _ Hf c) as Hi. rewrite Hx in Hi.
  destruct (contexts d' !! c) as [x'|]; [|done]. apply (inj Some) in Hi. eauto.
Qed.

Lemma tie_id x y : tie x = tie y → id x = id y.
Proof. unfold tie, conn. congruence. Qed.

Lemma frame_leaf_id refs d d' lf :
  frame refs d d' → leaf_id (contexts d') lf = leaf_id (contexts d) lf.
Proof.
  intros Hf. unfold leaf_id. pose proof (fr_ids _ _ _ Hf (lf_context lf)) as Hi.
  destruct (contexts d' !! _), (contexts d !! _); unfold tie, conn in *; cbn in *; congruence.
Qed.

Lemma frame_sendable refs d d' s :
  frame refs d d' → s ∈ refs → sendable (dmsg d) s → sendable (dmsg d') s.
Proof. intros [K _ _ _]. by apply keeps_sendable. Qed.

Definition core_step (refs : list ptr) (d d' : db) : Prop := core_ok refs d' ∧ frame refs d d'.

Lemma core_step_refl refs d : core_ok refs d → core_step refs d d.
Proof. by split. Qed.

#[export] Instance core_step_trans refs : Transitive (core_step refs).
Proof. intros d1 d2 d3 [? ?] [? ?]. split; [done|by etrans]. Qed.

(** Counters do not matter. *)
Lemma core_same refs refs' d d1 d2 :
  contexts d2 = contexts d1 → dmsg d2 = dmsg d1 → subs_children d2 = subs_children d1 →
  tables d2 = tables d1 → core_ok refs d1 → frame refs' d d1 → core_ok refs d2 ∧ frame refs' d d2.
Proof.
  intros Hc Hm Ht Hb [Hx Hs] [K I T B].
  split; split; rewrite ?Hc, ?Hm, ?Ht, ?Hb; auto.
Qed.

Lemma ctx_ok_keeps refs d d' x :
  ctx_ok d x → keeps refs d d' → (cm_store <$> msgs x) ⊆ refs → (next_ptr d ≤ next_ptr d')%positive →
  ctx_ok d' x.
Proof.
  intros [? ? Hf ? ?] Hk Hs Hp. split; [done| | |done|done].
  - by eapply Forall_msg_ok_keeps.
  - eapply Forall_impl; [exact Hf|]. intros m Hm. cbn in Hm |- *. lia.
Qed.

Lemma ctx_refs_elem m c x s : m !! c = Some x → s ∈ cm_store <$> msgs x → s ∈ ctx_refs m.
Proof. intros Hx Hs. rewrite (ctx_refs_delete m c x Hx). set_solver. Qed.

(** An operation on one context that respects what others hold. *)
Lemma wp_on_cm {A} refs c x (m : M cm A) (Q : A → cm → Prop) d :
  core_ok refs d → contexts d !! c = Some x → is_Some (id x) →
  (let others := ctx_refs (delete c (contexts d)) ++ refs in
   cm_ok others (CM x (dmsg d)) →
   wp m (λ a s', cm_ok others s' ∧ tie (ctx s') = tie x ∧ keeps others (dmsg d) (mdb s') ∧
                 (next_ptr (dmsg d) ≤ next_ptr (mdb s'))%positive ∧ Q a s') (CM x (dmsg d))) →
  wp (on_cm c m) (λ a d', core_step refs d d' ∧ ∃ s', Q a s' ∧
       d' = set_dmsg (λ _, mdb s') (set_contexts <[c := ctx s']> d)) d.
Proof.
  intros [Hc Hs] Hx Hid' Hm. cbv zeta in Hm. set (others := ctx_refs (delete c (contexts d)) ++ refs) in *.
  assert (Hok : cm_ok others (CM x (dmsg d))).
  { apply cm_ok_join; [done|by eapply Hc|]. unfold others.
    by rewrite (assoc_L (++)), <-(ctx_refs_delete _ _ _ Hx). }
  destruct (wp_inv _ _ _ (Hm Hok)) as (a & [x' d'] & Hrun & Hok' & Hid & Hk & Hp & HQ).
  cbn [ctx mdb] in *. unfold wp, on_cm. rewrite Hx. cbn [mbind option_bind]. rewrite Hrun.
  cbn [mbind option_bind]. split; [|exists (CM x' d'); auto].
  apply cm_ok_split in Hok' as [Hcx Hst]. split; split; cbn [contexts dmsg set_dmsg set_contexts].
  - intros c' y. destruct (decide (c' = c)) as [->|Hne].
    + rewrite lookup_insert_eq. by intros [= <-].
    + rewrite lookup_insert_ne by done. intros Hy. eapply (ctx_ok_keeps others); [by eapply Hc|done| |done].
      intros s Hs'. unfold others. apply elem_of_app. left. eapply ctx_refs_elem; [|done].
      by rewrite lookup_delete_ne.
  - rewrite ctx_refs_insert. unfold others in Hst. by rewrite (assoc_L (++)) in Hst.
  - intros s Hs'. apply Hk. unfold others. set_solver.
  - intros c'. destruct (decide (c' = c)) as [->|Hne].
    + rewrite lookup_insert_eq, Hx. cbn. by rewrite Hid.
    + by rewrite lookup_insert_ne.
  - done.
  - done.
Qed.

(** Operations on the store alone. *)
Lemma core_ok_dmsg refs refs' d s' :
  core_ok refs d → store_ok (ctx_refs (contexts d) ++ refs') s' →
  keeps (ctx_refs (contexts d) ++ refs') (dmsg d) s' → (next_ptr (dmsg d) ≤ next_ptr s')%positive →
  core_ok refs' (set_dmsg (λ _, s') d) ∧ frame refs' d (set_dmsg (λ _, s') d).
Proof.
  intros [Hc _] Hst Hk Hp. split; split; cbn; try done.
  - intros c x Hx. eapply ctx_ok_keeps; [by eapply Hc|done| |done]. intros s Hs.
    apply elem_of_app. left. by eapply ctx_refs_elem.
  - intros s Hs. apply Hk. set_solver.
Qed.

Lemma wp_on_store {A} (m : M msg_db A) Q d a s' :
  m (dmsg d) = Some (a, s') → Q a (set_dmsg (λ _, s') d) → wp (on_store m) Q d.
Proof. unfold wp, on_store. by intros ->. Qed.

Lemma wp_deref refs s d :
  core_ok (s :: refs) d →
  wp (on_store (mosquitto__db_msg_store_deref s)) (λ o d', core_ok refs d' ∧ frame refs d d' ∧
       o = (λ _, s) <$> heap (dmsg d') !! s) d.
Proof.
  intros Hok. pose proof (co_store _ _ Hok) as Hs.
  assert (Hs' : store_ok (s :: ctx_refs (contexts d) ++ refs) (dmsg d)).
  { by rewrite <-Permutation_middle in Hs. }
  destruct (store_deref_ok _ _ _ Hs') as (o & d' & Ed & Hst & Ho & Hn & _ & Hne & Hsm).
  eapply wp_on_store; [done|]. rewrite (assoc (∧)). split.
  - eapply (core_ok_dmsg (s :: refs)); [done|done| |by rewrite Hn]. by eapply deref_keeps.
  - cbn [dmsg set_dmsg]. rewrite Hsm, Ho. destruct (decide _); [|done].
    destruct (store_ok_live _ _ s Hs') as [m ->]; [set_solver|done].
Qed.

Lemma wp_ref refs s d :
  core_ok refs d → is_Some (heap (dmsg d) !! s) →
  wp (on_store (λ d, d ← store_ref s d; Some (tt, d))) (λ _ d', core_ok (s :: refs) d' ∧ frame (s :: refs) d d') d.
Proof.
  intros Hok [st Hst]. pose proof (co_store _ _ Hok) as Hs.
  destruct (store_ref_ok _ _ _ _ Hs Hst) as (d' & Ed & Hs' & Hh & Hn & _).
  eapply wp_on_store; [by rewrite Ed|]. eapply core_ok_dmsg; [done| | |by rewrite Hn].
  - by rewrite <-Permutation_middle.
  - intros x _. unfold content_at. rewrite Hh. destruct (decide (x = s)) as [->|].
    + by rewrite lookup_insert_eq, Hst.
    + by rewrite lookup_insert_ne.
Qed.

Lemma wp_changed refs f d :
  core_ok refs d →
  wp (on_store (mmodify (λ m, set_persistence_changes (f m) m))) (λ _ d', core_step refs d d') d.
Proof.
  intros Hok. eapply wp_on_store; [done|]. pose proof (co_store _ _ Hok) as [Hc [L1 L2 L3 L4]].
  by eapply core_ok_dmsg.
Qed.

Lemma wp_get_context c x Q d : contexts d !! c = Some x → Q x d → wp (get_context c) Q d.
Proof. unfold wp, get_context. by intros ->. Qed.

(** ** Queueing for one client *)

Lemma mid_step refs c x d :
  core_ok refs d → contexts d !! c = Some x → is_Some (id x) →
  wp (on_context c _mosquitto_mid_generate) (λ _ d', core_step refs d d') d.
Proof.
  intros Hok Hx Hid. eapply wp_mono;
    [apply (wp_on_cm refs c x _ (λ _ _, True)); [done|done|done|]|by intros m d' [H _]]. intros others Hcm.
  apply wp_on_ctx. unfold wp, _mosquitto_mid_generate. cbn [ctx mdb].
  split_and!; [|done..]. destruct Hcm as [[? ? ? ?] ? ? ? ? ?]. by split; [split|..].
Qed.

Lemma insert_step E refs c x m q r stored d :
  core_ok refs d → contexts d !! c = Some x → is_Some (id x) → sendable (dmsg d) stored → 0 ≤ q ≤ 2 →
  wp (on_cm c (mqtt3_db_message_insert E m mosq_md_out q r stored)) (λ _ d', core_step refs d d') d.
Proof.
  intros Hok Hx Hid0 Hs Hq. eapply wp_mono;
    [apply (wp_on_cm refs c x _ (λ _ _, True)); [done|done|done|]|by intros rc d' [H _]]. intros others Hcm.
  pose proof Hs as (st & t & Hst & _).
  eapply wp_mono; [by apply (message_insert_spec E others _ _ _ _ _ _ st)|].
  intros rc s' ([Hok' Hid Hk Hp] & _ & Hins). split_and!; [done| |done|done|done].
  assert (incoming (ctx s') = incoming x).
  { unfold incoming. destruct Hins as [-> |(p & st' & -> & _)]; [done|]. rewrite filter_app. cbn. by rewrite app_nil_r. }
  unfold ident in Hid. cbn [ctx] in Hid.
  assert (idle (ctx s') = idle x) by (apply idle_named; [done|congruence]). unfold tie, conn. congruence.
Qed.

(** The references [tr'] are the new message's or come from [tr], and what they
    refer to is the same. *)
Definition carried (stored : ptr) (tr tr' : list ptr) (d d' : db) : Prop :=
  ∀ s, s ∈ tr' → s ∈ stored :: tr ∧ content_at (dmsg d') s = content_at (dmsg d) s.

Lemma carried_refl stored tr d : carried stored tr tr d d.
Proof. intros s Hs. split; [set_solver|done]. Qed.

Lemma carried_trans stored tr1 tr2 tr3 d1 d2 d3 refs :
  stored ∈ refs → frame refs d1 d2 →
  carried stored tr1 tr2 d1 d2 → carried stored tr2 tr3 d2 d3 → carried stored tr1 tr3 d1 d3.
Proof.
  intros Hin Hf H1 H2 s Hs. destruct (H2 s Hs) as [[->|Hs2]%elem_of_cons Hc].
  - split; [set_solver|]. by rewrite Hc, (fr_keeps _ _ _ Hf).
  - destruct (H1 s Hs2) as [? Hc1]. by rewrite Hc, Hc1.
Qed.

(** References that a step keeps. *)
Lemma carried_frame stored tr tr' refs d1 d2 d3 :
  carried stored tr tr' d1 d2 → frame refs d2 d3 → tr' ⊆ refs → carried stored tr tr' d1 d3.
Proof.
  intros H Hf Hs s Hin. destruct (H s Hin) as [? Hc]. split; [done|].
  by rewrite (fr_keeps _ _ _ Hf), Hc by auto.
Qed.

Lemma carried_after stored tr tr' refs d1 d2 d3 :
  frame refs d1 d2 → stored ∈ refs → tr ⊆ refs → carried stored tr tr' d2 d3 →
  carried stored tr tr' d1 d3.
Proof.
  intros Hf Hin Hs H s Hs'. destruct (H s Hs') as [Hs2 Hc]. split; [done|].
  rewrite Hc. apply (fr_keeps _ _ _ Hf). apply elem_of_cons in Hs2 as [->|?]; auto.
Qed.

Lemma carried_app stored tr1 tr2 tr1' tr2' d d' :
  carried stored tr1 tr1' d d' → carried stored tr2 tr2' d d' →
  carried stored (tr1 ++ tr2) (tr1' ++ tr2') d d'.
Proof.
  intros H1 H2 s [Hs|Hs]%elem_of_app; [destruct (H1 s Hs)|destruct (H2 s Hs)];
    (split; [set_solver|done]).
Qed.

Section process.
Context (E : env) (acl_check : mosquitto → bytes → Z → Z).

(** The leaves of a node: of live contexts, with a valid QoS. *)
Definition leaves_ok (d : db) (l : list subleaf) : Prop :=
  Forall (λ lf, is_Some (contexts d !! lf_context lf) ∧ 0 ≤ lf_qos lf ≤ 2) l.

Lemma leaves_ok_frame refs d d' l : frame refs d d' → leaves_ok d l → leaves_ok d' l.
Proof.
  intros Hf H. eapply Forall_impl; [exact H|]. intros lf [? ?]. split; [|done]. by eapply frame_live.
Qed.

Lemma upgrade_qos_range q cq : 0 ≤ q ≤ 2 → 0 ≤ cq ≤ 2 → 0 ≤ upgrade_qos E q cq ≤ 2.
Proof. intros ? ?. unfold upgrade_qos. destruct (upgrade_outgoing_qos E); [done|]. by destruct (_ <? _). Qed.

Lemma deliver_spec refs source topic q r stored leaves rc d :
  core_ok refs d → stored ∈ refs → sendable (dmsg d) stored → 0 ≤ q ≤ 2 → leaves_ok d leaves →
  wp (deliver E acl_check source topic q r stored leaves rc) (λ _ d', core_step refs d d') d.
Proof.
  intros Hok Hin Hs Hq. revert d rc Hok Hs. induction leaves as [|lf leaves IH]; intros d rc Hok Hs Hl.
  { destruct source; by apply wp_ret, core_step_refl. }
  destruct source as [src|]; [|by apply wp_ret, core_step_refl].
  apply Forall_cons in Hl as [[[x Hx] Hlq] Hl]. cbn [deliver].
  apply wp_bind, (wp_get_context _ x); [done|].
  destruct (id x) as [cid|] eqn:Hid; [|by apply IH]. destruct (_ && _); [by apply IH|]. cbv zeta.
  destruct (_ =? MOSQ_ERR_ACL_DENIED); [by apply IH|].
  destruct (_ =? MOSQ_ERR_SUCCESS); [|by apply wp_ret, core_step_refl].
  apply wp_bind. eapply (wp_mono _ (λ _ d', core_step refs d d')).
  { destruct (_ =? 0); [by apply wp_ret, core_step_refl|eapply mid_step; [done|done|by eexists]]. }
  intros m d1 [Hok1 Hf1]. apply wp_bind. destruct (frame_tie _ _ _ _ _ Hf1 Hx) as (x1 & Hx1 & Ht1%tie_id).
  eapply wp_mono; [eapply insert_step; [done|done|rewrite Ht1; by eexists|by eapply frame_sendable|by apply upgrade_qos_range]|].
  intros rc3 d2 [Hok2 Hf2]. eapply wp_mono; [apply IH|]; try done.
  - eapply frame_sendable; [done|done|]. by eapply frame_sendable.
  - eapply leaves_ok_frame; [done|]. by eapply leaves_ok_frame.
  - intros ? d3 [? ?]. split; [done|]. etrans; [done|]. by etrans.
Qed.

(** ** The node of a retained message *)

(** What a retained publication leaves at its node: an empty payload clears
    it. *)
Definition replacement (d : msg_db) (stored : ptr) : option ptr :=
  st ← heap d !! stored; if payloadlen st =? 0 then None else Some stored.

Lemma replacement_frame refs d d' stored :
  frame refs d d' → stored ∈ refs → replacement (dmsg d') stored = replacement (dmsg d) stored.
Proof.
  intros Hf Hin. pose proof (fr_keeps _ _ _ Hf stored Hin) as Hc. unfold content_at in Hc.
  unfold replacement, payloadlen. destruct (heap (dmsg d') !! stored) as [st'|], (heap (dmsg d) !! stored) as [st|];
    cbn in *; try done. unfold content in Hc. assert (ms_payload st' = ms_payload st) as Hp by congruence. by rewrite Hp.
Qed.

Lemma set_retained_spec refs topic stored h d :
  core_ok (option_list (sh_retained h) ++ refs) d → stored ∈ refs → sendable (dmsg d) stored →
  wp (set_retained topic stored h) (λ h' d',
    core_ok (option_list (sh_retained h') ++ refs) d' ∧ frame refs d d' ∧
    h' = set_sh_retained (replacement (dmsg d) stored) h ∧
    carried stored [] (option_list (sh_retained h')) d d') d.
Proof.
  intros Hok Hin Hs. unfold set_retained. apply wp_bind.
  eapply (wp_mono _ (λ _ d', core_step (option_list (sh_retained h) ++ refs) d d')).
  { destruct (bool_decide _); [by apply wp_ret, core_step_refl|by apply wp_changed]. }
  intros [] d1 [Hok1 Hf1]. apply (frame_subseteq _ refs) in Hf1; [|set_solver].
  apply wp_bind. eapply (wp_mono _ (λ _ d', core_step refs d1 d')).
  { destruct (sh_retained h) as [o|]; [|by apply wp_ret, core_step_refl].
    apply wp_bind. eapply wp_mono; [by apply (wp_deref refs)|]. intros ? d' (? & ? & _).
    apply wp_modify. by apply (core_same refs refs d1 d'). }
  intros [] d2 [Hok2 Hf2]. assert (Hf : frame refs d d2) by (by etrans).
  pose proof (frame_sendable _ _ _ _ Hf Hin Hs) as (st & t & Hst & Ht).
  apply wp_bind, wp_get, wp_bind. eapply wp_lift; [exact Hst|].
  rewrite <-(replacement_frame refs d d2 stored Hf Hin). unfold replacement. rewrite Hst. cbn [mbind option_bind].
  destruct (_ =? 0).
  { apply wp_ret. split_and!; try done. intros s Hs'. by apply elem_of_nil in Hs'. }
  apply wp_bind. eapply wp_mono; [apply (wp_ref refs); [done|by eexists]|].
  intros [] d3 [Hok3 Hf3]. apply (frame_subseteq _ refs) in Hf3; [|set_solver].
  apply wp_bind, wp_modify, wp_ret. assert (Hf' : frame refs d d3) by (by etrans).
  destruct (core_same (stored :: refs) refs d d3 (set_retained_count (λ n, n + 1) d3)) as [? Hf'']; [done..|].
  split_and!; [done..|]. intros s Hs'%list_elem_of_singleton. subst s. split; [set_solver|].
  by apply (fr_keeps _ _ _ Hf'').
Qed.

Lemma subs_process_spec refs source topic q r stored h sr d :
  core_ok (option_list (sh_retained h) ++ refs) d → stored ∈ refs → sendable (dmsg d) stored →
  0 ≤ q ≤ 2 → leaves_ok d (sh_subs h) →
  wp (_subs_process E acl_check source topic q r stored h sr) (λ h' d',
    core_ok (option_list (sh_retained h') ++ refs) d' ∧ frame refs d d' ∧
    h' = (if r && sr then set_sh_retained (replacement (dmsg d) stored) h else h) ∧
    carried stored (option_list (sh_retained h)) (option_list (sh_retained h')) d d') d.
Proof.
  intros Hok Hin Hs Hq Hl. unfold _subs_process. apply wp_bind.
  eapply (wp_mono _ (λ h' d', core_ok (option_list (sh_retained h') ++ refs) d' ∧ frame refs d d' ∧
    h' = (if r && sr then set_sh_retained (replacement (dmsg d) stored) h else h) ∧
    carried stored (option_list (sh_retained h)) (option_list (sh_retained h')) d d')).
  { destruct (r && sr).
    - eapply wp_mono; [by apply (set_retained_spec refs)|]. intros h' d' (? & ? & ? & Hc).
      split_and!; try done. intros s Hs'. destruct (Hc s Hs'). split; [set_solver|done].
    - apply wp_ret. split_and!; [done|done|done|apply carried_refl]. }
  intros h' d1 (Hok1 & Hf1 & Hh & Hr). apply wp_bind.
  eapply wp_mono; [apply (deliver_spec (option_list (sh_retained h') ++ refs))|]; try done.
  - set_solver.
  - by eapply frame_sendable.
  - by eapply leaves_ok_frame.
  - intros _ d2 [Hok2 Hf2]. apply wp_ret. split_and!; try done.
    + etrans; [done|]. eapply frame_subseteq; [|done]. set_solver.
    + eapply carried_frame; [done..|set_solver].
Qed.
End process.

(** ** Trees of the same shape *)

(** They differ in the retained messages only. *)
Inductive shaped : subhier → subhier → Prop :=
| shaped_intro t l r r' ch ch' :
    Forall2 shaped ch ch' → shaped (Subhier t l r ch) (Subhier t l r' ch').

Lemma shaped_refl h : shaped h h.
Proof.
  induction h as [t l r ch IH] using subhier_ind'. constructor. induction IH; by constructor.
Qed.

Lemma Forall2_shaped_refl ch : Forall2 shaped ch ch.
Proof. induction ch; constructor; [apply shaped_refl|done]. Qed.

Lemma shaped_trans h1 h2 h3 : shaped h1 h2 → shaped h2 h3 → shaped h1 h3.
Proof.
  revert h2 h3. induction h1 as [t l r ch IH] using subhier_ind'. intros h2 h3 H12 H23.
  inversion H12; subst. inversion H23; subst. constructor.
  match goal with A : Forall2 _ ch ?ch2, B : Forall2 _ ?ch2 ?ch3 |- _ => rename A into H1; rename B into H2 end.
  clear -IH H1 H2. revert ch'0 H2. induction H1 as [|x y l k Hxy H1 IHl]; intros l3 H2; inversion H2; subst.
  - constructor.
  - apply Forall_cons in IH as [IHx IH]. constructor; eauto.
Qed.

Lemma shaped_topic h h' : shaped h h' → sh_topic h' = sh_topic h.
Proof. by inversion 1. Qed.

Lemma shaped_topics ch ch' : Forall2 shaped ch ch' → sh_topic <$> ch' = sh_topic <$> ch.
Proof. induction 1 as [|x y l k Hxy _ IH]; [done|]. cbn. by rewrite IH, (shaped_topic _ _ Hxy). Qed.

Lemma shaped_leaves h h' : shaped h h' → tree_leaves h' = tree_leaves h.
Proof.
  revert h'. induction h as [t l r ch IH] using subhier_ind'. intros h' H. inversion H; subst.
  cbn [tree_leaves]. do 2 f_equal.
  match goal with A : Forall2 _ _ _ |- _ => rename A into H1 end. clear -IH H1.
  induction H1 as [|x y l k Hxy H1 IHl]; [done|]. apply Forall_cons in IH as [IHx IH]. cbn.
  f_equal; auto.
Qed.

Lemma shaped_child x ch ch' :
  Forall2 shaped ch ch' →
  match child x ch, child x ch' with
  | Some b, Some b' => shaped b b'
  | None, None => True
  | _, _ => False
  end.
Proof.
  induction 1 as [|b b' l k Hb _ IH]; [done|]. rewrite !child_cons, (shaped_topic _ _ Hb).
  by destruct (decide _).
Qed.

Lemma shaped_subs_of p h h' : shaped h h' → subs_of p h' = subs_of p h.
Proof.
  revert h h'. induction p as [|x p IH]; intros h h' H.
  - by inversion H.
  - rewrite !subs_of_cons. inversion H as [? ? ? ? ? ? Hch]; subst. cbn [sh_children].
    pose proof (shaped_child x _ _ Hch) as Hc.
    destruct (child x ch), (child x ch'); try done. cbn. auto.
Qed.

Lemma shaped_tree_ok ch ch' : Forall2 shaped ch ch' → tree_ok ch → tree_ok ch'.
Proof.
  intros H. assert (Hg : ∀ h h', shaped h h' → node_ok h → node_ok h').
  { clear. intros h. induction h as [t l r ch IH] using subhier_ind'. intros h' H [Hh Hok].
    inversion H as [? ? ? ? ? ? Hch]; subst. cbn [sh_topic sh_children] in *. split; cbn.
    - intros Ht. rewrite (Hh Ht) in Hch. by inversion Hch.
    - rewrite tree_ok_unfold in Hok |- *. destruct Hok as [Hn Hok]. rewrite (shaped_topics _ _ Hch).
      split; [done|]. clear -Hch Hok IH. induction Hch; [done|].
      apply Forall_cons in IH as [? ?], Hok as [? ?]. constructor; auto. }
  rewrite !tree_ok_unfold. intros [Hn Hok]. rewrite (shaped_topics _ _ H). split; [done|].
  clear -H Hok Hg. induction H; [done|]. apply Forall_cons in Hok as [? ?]. constructor; eauto.
Qed.

(** ** The search keeps the broker consistent *)

Lemma concat_refs_subseteq (f : subhier → list ptr) b bs : b ∈ bs → f b ⊆ concat (f <$> bs).
Proof. intros Hb s Hs. apply elem_of_concat_fmap. eauto. Qed.

Section search.
Context (E : env) (acl_check : mosquitto → bytes → Z → Z).
Context (source : option bytes) (topic : bytes) (q : Z) (r : bool) (stored : ptr).
Context (Hq : 0 ≤ q ≤ 2).

Context (new : option ptr).

(** The effect on the tree alone. *)
Definition tag (h : subhier) (sr : bool) : M unit subhier :=
  ret (if r && sr then set_sh_retained new h else h).

Abbreviation process := (_subs_process E acl_check source topic q r stored).

(** What the search of a part of the tree starts from, and what it ends with;
    [tr] and [tr'] are the references of that part. *)
Definition search_pre (tr refs : list ptr) (leaves : list subleaf) (d : db) : Prop :=
  core_ok (tr ++ refs) d ∧ stored ∈ refs ∧ sendable (dmsg d) stored ∧ leaves_ok d leaves ∧
  replacement (dmsg d) stored = new.
Definition search_post (tr tr' refs : list ptr) (d d' : db) : Prop :=
  core_ok (tr' ++ refs) d' ∧ frame refs d d' ∧ carried stored tr tr' d d'.

Lemma search_post_refl tr refs d : core_ok (tr ++ refs) d → search_post tr tr refs d d.
Proof. intros H. split_and!; [done|done|apply carried_refl]. Qed.

Lemma search_next tr tr' refs leaves leaves' d d' :
  search_pre tr refs leaves d → search_post tr tr' refs d d' → leaves' ⊆ leaves →
  search_pre tr' refs leaves' d'.
Proof.
  intros (? & ? & ? & Hl & ?) (? & Hf & ?) Hs. split_and!; [done|done|by eapply frame_sendable| |].
  - eapply leaves_ok_frame; [done|]. by eapply Forall_subseteq.
  - by rewrite (replacement_frame _ _ _ _ Hf).
Qed.

Lemma search_post_trans tr1 tr2 tr3 refs d1 d2 d3 :
  stored ∈ refs → search_post tr1 tr2 refs d1 d2 → search_post tr2 tr3 refs d2 d3 → search_post tr1 tr3 refs d1 d3.
Proof. intros Hin (? & ? & ?) (? & ? & ?). split_and!; [done|by etrans|by eapply carried_trans]. Qed.

(** A branch, and then the others. *)
Lemma search_post_cons tr1 tr1' tr2 tr2' refs d d1 d2 :
  stored ∈ refs →
  search_post tr1 tr1' (tr2 ++ refs) d d1 → search_post tr2 tr2' (tr1' ++ refs) d1 d2 →
  search_post (tr1 ++ tr2) (tr1' ++ tr2') refs d d2.
Proof.
  intros Hin (Hok1 & Hf1 & Hr1) (Hok2 & Hf2 & Hr2). split_and!.
  - rewrite (assoc_L (++)) in Hok2. by rewrite (comm (++) tr1').
  - etrans; (eapply frame_subseteq; [|done]; set_solver).
  - apply carried_app.
    + eapply carried_frame; [done..|set_solver].
    + eapply carried_after; [exact Hf1|set_solver|set_solver|done].
Qed.

Lemma search_pre_cons tr1 tr1' tr2 refs leaves d d1 :
  search_pre (tr1 ++ tr2) refs leaves d → search_post tr1 tr1' (tr2 ++ refs) d d1 →
  search_pre tr2 (tr1' ++ refs) leaves d1.
Proof.
  intros (Hok & Hin & Hs & Hl & Hn) (Hok1 & Hf1 & Hr1).
  split_and!; [|set_solver|eapply frame_sendable; [done|set_solver|done]|by eapply leaves_ok_frame|].
  2: { rewrite (replacement_frame _ _ _ _ Hf1); [done|set_solver]. }
  rewrite (assoc_L (++)). by rewrite (comm (++) tr2 tr1'), <-(assoc_L (++)).
Qed.

Lemma process_tree refs h sr d :
  search_pre (tree_refs h) refs (tree_leaves h) d →
  wp (process h sr) (λ h' d', search_post (tree_refs h) (tree_refs h') refs d d' ∧
    shaped h h' ∧ tag h sr tt = Some (h', tt)) d.
Proof.
  intros (Hok & Hin & Hs & Hl & Hn). destruct h as [t l ro ch]. cbn [tree_refs tree_leaves] in *.
  eapply wp_mono; [apply (subs_process_spec E acl_check (concat (tree_refs <$> ch) ++ refs))|]; try done.
  - by rewrite (assoc_L (++)).
  - set_solver.
  - cbn. unfold leaves_ok in Hl |- *. by apply Forall_app in Hl as [? _].
  - intros h' d' (Hok' & Hf & Hh & Hr). assert (Hh' : h' = Subhier t l (sh_retained h') ch).
    { rewrite Hh. by destruct (r && sr). }
    split; [|split; [|unfold tag; by rewrite Hh, Hn]]; rewrite Hh'; cbn [tree_refs].
    + split_and!; [by rewrite <-(assoc_L (++))|eapply frame_subseteq; [|done]; set_solver|].
      apply carried_app; [done|]. intros s Hs'. split; [set_solver|]. apply (fr_keeps _ _ _ Hf). set_solver.
    + constructor. apply Forall2_shaped_refl.
Qed.

Lemma map_branches_spec f f' refs bs d :
  Forall (λ b, ∀ refs d, search_pre (tree_refs b) refs (tree_leaves b) d →
    wp (f b) (λ b' d', search_post (tree_refs b) (tree_refs b') refs d d' ∧
      shaped b b' ∧ f' b tt = Some (b', tt)) d) bs →
  search_pre (concat (tree_refs <$> bs)) refs (concat (tree_leaves <$> bs)) d →
  wp (map_branches f bs) (λ bs' d',
    search_post (concat (tree_refs <$> bs)) (concat (tree_refs <$> bs')) refs d d' ∧
    Forall2 shaped bs bs' ∧ map_branches f' bs tt = Some (bs', tt)) d.
Proof.
  intros Hf. revert refs d. induction Hf as [|b bs Hb _ IH]; intros refs d Hpre; cbn [map_branches].
  { apply wp_ret. split; [|done]. apply search_post_refl, Hpre. }
  destruct Hpre as (Hok & Hin & Hs & Hl & Hn). cbn [fmap list_fmap concat] in *.
  unfold leaves_ok in Hl. apply Forall_app in Hl as [Hlb Hl].
  set (rest := concat (tree_refs <$> bs)) in *. apply wp_bind.
  eapply wp_mono; [apply (Hb (rest ++ refs))|].
  { split_and!; [by rewrite (assoc_L (++))|set_solver|done|done|done]. }
  intros b' d1 (Hpost & Hsh & Htag). apply wp_bind. eapply wp_mono; [apply (IH (tree_refs b' ++ refs))|].
  { by eapply search_pre_cons. }
  intros bs' d2 (Hpost2 & Hsh2 & Htag2). apply wp_ret.
  split; [by eapply search_post_cons|]. split; [by constructor|].
  unfold bind. by rewrite Htag, Htag2.
Qed.

Lemma search_spec ts sr h refs d :
  search_pre (tree_refs h) refs (tree_leaves h) d →
  wp (_sub_search process ts sr h) (λ h' d',
    search_post (tree_refs h) (tree_refs h') refs d d' ∧
    shaped h h' ∧ _sub_search tag ts sr h tt = Some (h', tt)) d.
Proof.
  revert ts sr refs d. induction h as [t l ro ch IH] using subhier_ind'. intros ts sr refs d Hpre.
  unfold wp. rewrite sub_search_unfold. cbn [sh_children]. apply wp_bind.
  eapply wp_mono; [apply (map_branches_spec _ (branch_search tag ts sr) (option_list ro ++ refs))|].
  - eapply Forall_impl; [exact IH|]. cbv beta. clear -Hq. intros b IHb refs d Hpre.
    assert (Hskip : wp (ret b) (λ b' d', search_post (tree_refs b) (tree_refs b') refs d d' ∧
      shaped b b' ∧ ret b tt = Some (b', tt)) d).
    { apply wp_ret. split; [apply search_post_refl, Hpre|]. split; [apply shaped_refl|done]. }
    unfold branch_search. destruct ts as [|tk ts].
    { destruct (_ && _); [by apply process_tree|done]. }
    destruct (_ || _); [|destruct (_ && _); [by apply process_tree|done]].
    cbv zeta. set (sr' := if is_plus b then false else sr).
    apply wp_bind. eapply wp_mono; [by apply (IHb ts sr')|]. intros b1 d1 (Hpost & Hsh & Htag).
    unfold bind at 1. rewrite Htag. destruct (bool_decide _); [|by apply wp_ret].
    eapply wp_mono; [apply (process_tree refs); by eapply search_next; [..|by rewrite (shaped_leaves _ _ Hsh)]|].
    intros b2 d2 (Hpost2 & Hsh2 & Htag2).
    split; [eapply search_post_trans; [apply Hpre|done..]|]. by split; [eapply shaped_trans|].
  - destruct Hpre as (Hok & Hin & Hs & Hl & Hn). cbn [tree_refs tree_leaves] in *.
    unfold leaves_ok in Hl. apply Forall_app in Hl as [_ Hl].
    split_and!; [|set_solver|done|done|done]. rewrite (assoc_L (++)). by rewrite (comm (++) _ (option_list ro)).
  - intros ch' d' ((Hok' & Hf & Hr) & Hsh & Htag). apply wp_ret. cbn [set_sh_children sh_topic sh_subs sh_retained tree_refs].
    rewrite sub_search_unfold. unfold bind. cbn [sh_children]. rewrite Htag.
    split; [|by split; [constructor|]]. split_and!.
    + rewrite (assoc_L (++)) in Hok'. by rewrite (comm (++) (option_list ro)).
    + eapply frame_subseteq; [|done]. set_solver.
    + apply carried_app; [|done]. intros s Hs. split; [set_solver|].
      apply (fr_keeps _ _ _ Hf). set_solver.
Qed.

(** The retained messages after the search. *)
Lemma put_at_cons x p n h i b :
  list_find (λ b, sh_topic b = x) (sh_children h) = Some (i, b) →
  put_at (x :: p) n h = set_sh_children (<[i := put_at p n b]> (sh_children h)) h.
Proof. intros Hf. cbn [put_at alter_at]. rewrite Hf. by destruct p. Qed.

Lemma put_at_ret p p' o n h :
  tree_ok (sh_children h) → sub_at p h = Some n →
  let h' := put_at p (set_sh_retained o n) h in
  ret_of p' h' = (if decide (p' = p) then o else ret_of p' h) ∧
  sh_topic h' = sh_topic h ∧ tree_ok (sh_children h') ∧ (sh_children h = [] → sh_children h' = []).
Proof.
  cbv zeta. revert p' h. induction p as [|x p IH]; intros p' h Hok Hn.
  { injection Hn as <-. cbn [put_at]. split; [|by destruct h]. by destruct p', h. }
  rewrite sub_at_cons in Hn. unfold child in Hn.
  destruct (list_find _ _) as [[i b]|] eqn:Hf; [|done]. cbn in Hn.
  rewrite (put_at_cons _ _ _ _ _ _ Hf). pose proof (child_Some_find _ _ _ _ Hf) as Hc.
  apply list_find_Some in Hf as (Hi & _ & _). destruct (tree_ok_child _ _ _ Hok Hc) as [[Hbh Hbok] Hbt].
  pose proof Hok as [Hnd _]%tree_ok_unfold.
  cbn [sh_topic sh_children set_sh_children]. split; [|split; [done|split]].
  - destruct p' as [|y p']; [by rewrite decide_False|].
    destruct (IH p' b Hbok Hn) as (IHr & IHt & _ & _).
    rewrite !ret_of_cons. cbn [sh_children set_sh_children].
    rewrite (child_insert y _ i b) by done. rewrite Hbt. destruct (decide (y = x)) as [->|Hne].
    + cbn. rewrite IHr, Hc. destruct (decide (p' = p)) as [->|]; [by rewrite decide_True|].
      rewrite decide_False by congruence. done.
    + rewrite decide_False by congruence. done.
  - destruct (IH [] b Hbok Hn) as (_ & IHt & IHok & IHe).
    eapply tree_ok_insert; [done|done|done|]. split; [|done]. rewrite IHt. auto.
  - intros Hnil. by rewrite Hnil in Hi.
Qed.

Lemma visit_tag_ret vs h h' p :
  tree_ok (sh_children h) → visit_list tag vs h tt = Some (h', tt) →
  ret_of p h' = if decide (r = true ∧ (p, true) ∈ vs) then new else ret_of p h.
Proof.
  revert h. induction vs as [|[v sr] vs IH]; intros h Hok Hv; cbn [visit_list] in Hv.
  { injection Hv as <-. rewrite decide_False; [done|]. set_solver. }
  unfold bind in Hv at 1. destruct (sub_at v h) as [n|] eqn:Hn; [|done]. cbn in Hv.
  unfold bind, tag, ret in Hv. destruct (r && sr) eqn:Hrs.
  - destruct (put_at_ret v p new n h Hok Hn) as (Hr & _ & Hok' & _).
    rewrite (IH _ Hok' Hv), Hr. apply andb_prop in Hrs as [-> ->].
    destruct (decide (_ ∧ (p, true) ∈ vs)); [by rewrite decide_True by set_solver|].
    destruct (decide (p = v)) as [->|]; [by rewrite decide_True by set_solver|].
    rewrite decide_False; [done|]. set_solver.
  - assert (Hid : n = set_sh_retained (sh_retained n) n) by (by destruct n). rewrite Hid in Hv.
    destruct (put_at_ret v p (sh_retained n) n h Hok Hn) as (Hr & _ & Hok' & _).
    rewrite (IH _ Hok' Hv), Hr.
    assert (Hv' : (if decide (p = v) then sh_retained n else ret_of p h) = ret_of p h).
    { destruct (decide (p = v)) as [->|]; [|done]. unfold ret_of. by rewrite Hn. }
    rewrite Hv'. apply andb_false_iff in Hrs. destruct (decide (_ ∧ (p, true) ∈ vs)).
    + by rewrite decide_True by set_solver.
    + rewrite decide_False; [done|]. intros [-> [?|?]%elem_of_cons]; destruct Hrs; naive_solver.
Qed.

Lemma search_tag_ret ts h h' p :
  tree_ok (sh_children h) → no_wild ts → ts ≠ [] → _sub_search tag ts true h tt = Some (h', tt) →
  ret_of p h' = if decide (r = true ∧ p = ts ∧ is_Some (sub_at ts h)) then new else ret_of p h.
Proof.
  intros Hok Hw Hts Hs. destruct Hok as [Hu Hh]. rewrite sub_search_visits in Hs; [| |done].
  2: { intros n sr s n' s'. unfold tag, ret. intros [= <- <-]. by destruct (r && sr). }
  rewrite (visit_tag_ret _ _ _ p (conj Hu Hh) Hs).
  destruct (decide (r = true ∧ p = ts ∧ _)) as [(-> & -> & Hsome)|Hn].
  - rewrite decide_True; [done|]. split; [done|]. apply visits_match; [done..|].
    assert (Hm : match_levels ts ts = true).
    { clear -Hw. induction Hw as [|x ts [? ?] Hw IH]; [done|]. rewrite match_levels_cons.
      rewrite (bool_decide_eq_true_2 (_ ∨ _)), IH by auto. by rewrite orb_true_r. }
    split_and!; [done|done|done|]. cbn [fst snd andb]. rewrite (literal_match ts ts) by done. by rewrite bool_decide_eq_true_2.
  - rewrite decide_False; [done|]. intros [-> Hv]. apply Hn. split; [done|].
    apply visits_match in Hv as (_ & Hsome & Hm & Hlit); [|done..]. cbn [fst snd andb] in *.
    rewrite (literal_match p ts) in Hlit by done. symmetry in Hlit. apply bool_decide_eq_true in Hlit as ->.
    done.
Qed.

(** A part of the tree to which nodes without leaves were added. *)
Record grown (b b' : subhier) : Prop := {
  gr_topic : sh_topic b' = sh_topic b;
  gr_subs p : subs_of p b' = subs_of p b;
  gr_leaves : tree_leaves b' = tree_leaves b;
  gr_ok : node_ok b → node_ok b';
}.

Lemma grown_refl b : grown b b.
Proof. by split. Qed.

Lemma grown_trans b1 b2 b3 : grown b1 b2 → grown b2 b3 → grown b1 b3.
Proof.
  intros [T1 S1 L1 O1] [T2 S2 L2 O2]. split; [congruence| |congruence|auto].
  intros p. by rewrite S2, S1.
Qed.

Lemma shaped_grown b b' : shaped b b' → grown b b'.
Proof.
  intros H. split; [by apply shaped_topic|intros p; by apply shaped_subs_of|by apply shaped_leaves|].
  intros Hok. assert (tree_ok [b']) as [_ Hb]%tree_ok_unfold; [|by inversion Hb].
  apply (shaped_tree_ok [b]); [by repeat constructor|]. apply tree_ok_unfold.
  split; [apply NoDup_singleton|by constructor].
Qed.

Lemma sub_add_none_refs ctxs ts b :
  ∃ b', _sub_add ctxs None 0 ts b = Some (MOSQ_ERR_SUCCESS, false, b') ∧
    tree_refs b' = tree_refs b ∧ tree_leaves b' = tree_leaves b.
Proof.
  revert b. induction ts as [|t ts IH]; intros b; cbn [_sub_add]; [by eexists|].
  destruct (list_find _ _) as [[i n]|] eqn:Hf.
  - apply list_find_Some in Hf as (Hi & _ & _). destruct (IH n) as (n' & -> & Hr & Hl).
    eexists. split; [done|]. destruct b as [tb l ro ch]. cbn in *.
    by rewrite !list_fmap_insert, Hr, Hl, !list_insert_id by (by rewrite list_lookup_fmap, Hi).
  - destruct (IH (new_node t)) as (n' & -> & Hr & Hl). eexists. split; [done|].
    destruct b as [tb l ro ch]. cbn in *. rewrite !fmap_app, !concat_app. cbn.
    by rewrite Hr, Hl, !app_nil_r.
Qed.

Lemma sub_add_none_grown ctxs ts b :
  node_ok b → sh_topic b ≠ [c_hash] → hash_last ts →
  ∃ b', _sub_add ctxs None 0 ts b = Some (MOSQ_ERR_SUCCESS, false, b') ∧
    tree_refs b' = tree_refs b ∧ grown b b' ∧ (∀ p, ret_of p b' = ret_of p b) ∧
    is_Some (sub_at ts b').
Proof.
  intros Hok Ht Hl. destruct (sub_add_none_refs ctxs ts b) as (b' & Hadd & Hr & Hlv).
  exists b'. split; [done|]. split; [done|].
  destruct (sub_add_updates ctxs None 0 ts b MOSQ_ERR_SUCCESS false (λ l, l)) as (b'' & Hadd' & Hup & Hok' & Hsome);
    [by intros []|done|done|done|].
  rewrite Hadd' in Hadd. injection Hadd as <-. destruct Hup as [U1 U2 U3].
  split; [|done]. split; [done| |done|done].
  intros p. rewrite U2. by destruct (decide _).
Qed.

(** The tokens of a publication. *)
Context (tokens : list bytes) (t : bytes).
Context (Ht : t ≠ [c_hash]) (Hwild : no_wild tokens) (Hne : tokens ≠ []).

Lemma hash_last_no_wild ts : no_wild ts → hash_last ts.
Proof.
  induction 1 as [|x ts [_ Hx] _ IH]; [done|]. split; [by intros ->|done].
Qed.

(** A child of the root after a publication. *)
Record routed (b b' : subhier) : Prop := {
  ro_grown : grown b b';
  ro_other : sh_topic b ≠ t → b' = b;
  ro_ret p : sh_topic b = t →
    ret_of p b' = if decide (r = true ∧ p = tokens) then new else ret_of p b;
}.

Lemma queue_root_spec refs b d :
  node_ok b → sh_topic b = t → search_pre (tree_refs b) refs (tree_leaves b) d →
  wp (let* d := mget in
      let* b1 := if r then mlift (snd <$> _sub_add (contexts d) None 0 tokens b) else ret b in
      _sub_search process tokens true b1)
    (λ b' d', search_post (tree_refs b) (tree_refs b') refs d d' ∧ routed b b') d.
Proof.
  intros Hb Htb Hpre. apply wp_bind, wp_get, wp_bind.
  eapply (wp_mono _ (λ b1 d1, d1 = d ∧ tree_refs b1 = tree_refs b ∧ grown b b1 ∧
    (∀ p, ret_of p b1 = ret_of p b) ∧ (r = true → is_Some (sub_at tokens b1)))).
  - destruct r; [|by apply wp_ret; split_and!; [..|apply grown_refl| |]].
    destruct (sub_add_none_grown (contexts d) tokens b) as (b1 & -> & Hr & Hg & Hret & Hsome);
      [done|congruence|by apply hash_last_no_wild|]. by apply wp_ret.
  - intros b1 d1 (-> & Hr & Hg & Hret & Hsome). rewrite <-Hr in Hpre |- *.
    rewrite <-(gr_leaves _ _ Hg) in Hpre.
    eapply wp_mono; [by apply search_spec|]. intros b2 d2 (Hp & Hsh & Htag). split; [done|].
    destruct (gr_ok _ _ Hg Hb) as [_ Hok1].
    split; [eapply grown_trans; [done|by apply shaped_grown]|done|]. intros p _.
    rewrite (search_tag_ret _ _ _ p Hok1 Hwild Hne Htag), Hret.
    destruct (decide (r = true ∧ p = tokens)) as [[-> ->]|].
    + by rewrite decide_True by auto.
    + rewrite decide_False; [done|]. naive_solver.
Qed.

Lemma queue_roots_spec bs refs d :
  Forall node_ok bs → search_pre (concat (tree_refs <$> bs)) refs (concat (tree_leaves <$> bs)) d →
  wp (queue_roots E acl_check source topic q r stored tokens t bs) (λ bs' d',
    search_post (concat (tree_refs <$> bs)) (concat (tree_refs <$> bs')) refs d d' ∧
    Forall2 routed bs bs') d.
Proof.
  intros Hno. revert refs d. induction Hno as [|b bs Hb Hno IH]; intros refs d Hpre; cbn [queue_roots].
  { apply wp_ret. split; [apply search_post_refl, Hpre|done]. }
  destruct Hpre as (Hok & Hin & Hs & Hl & Hn). cbn [fmap list_fmap concat] in *.
  unfold leaves_ok in Hl. apply Forall_app in Hl as [Hlb Hl].
  set (rest := concat (tree_refs <$> bs)) in *. apply wp_bind.
  assert (Hpreb : search_pre (tree_refs b) (rest ++ refs) (tree_leaves b) d).
  { split_and!; [by rewrite (assoc_L (++))|set_solver|done|done|done]. }
  eapply (wp_mono _ (λ b' d', search_post (tree_refs b) (tree_refs b') (rest ++ refs) d d' ∧ routed b b')).
  { case_bool_decide as Htb; [by apply queue_root_spec|]. apply wp_ret.
    split; [apply search_post_refl, Hpreb|]. by split; [apply grown_refl|..]. }
  intros b' d1 [Hpost Hsh]. apply wp_bind. eapply wp_mono; [apply (IH (tree_refs b' ++ refs))|].
  { by eapply search_pre_cons. }
  intros bs' d2 [Hpost2 Hsh2]. apply wp_ret. split; [by eapply search_post_cons|by constructor].
Qed.
End search.

(** ** The broker's invariant

    [pins] are the references of the operation in progress. *)
Record db_ok (pins : list ptr) (d : db) : Prop := {
  db_core : core_ok (tree_refs (root d) ++ pins) d;
  db_subs : subs_ok d;
  db_leaves : leaves_ok d (tree_leaves (root d));
  db_retained : Forall (sendable (dmsg d)) (tree_refs (root d));
}.

Lemma grown_child x ch ch' :
  Forall2 grown ch ch' →
  match child x ch, child x ch' with
  | Some b, Some b' => grown b b'
  | None, None => True
  | _, _ => False
  end.
Proof.
  induction 1 as [|b b' l k Hb _ IH]; [done|]. rewrite !child_cons, (gr_topic _ _ Hb).
  by destruct (decide _).
Qed.

Lemma grown_topics ch ch' : Forall2 grown ch ch' → sh_topic <$> ch' = sh_topic <$> ch.
Proof. induction 1 as [|x y l k Hxy _ IH]; [done|]. cbn. by rewrite IH, (gr_topic _ _ Hxy). Qed.

Lemma grown_leaves ch ch' : Forall2 grown ch ch' → concat (tree_leaves <$> ch') = concat (tree_leaves <$> ch).
Proof. induction 1 as [|x y l k Hxy _ IH]; [done|]. cbn. by rewrite IH, (gr_leaves _ _ Hxy). Qed.

Lemma grown_subs_of p d d' :
  Forall2 grown (subs_children d) (subs_children d') → subs_of p (root d') = subs_of p (root d).
Proof.
  intros Hg. destruct p as [|x p]; [done|]. rewrite !subs_of_cons. cbn [root sh_children].
  pose proof (grown_child x _ _ Hg) as Hc. destruct (child x _), (child x _); try done.
  cbn. apply (gr_subs _ _ Hc).
Qed.

Lemma grown_subs_ok d d' :
  subs_ok d → Forall2 grown (subs_children d) (subs_children d') →
  (∀ c, is_Some (contexts d !! c) → is_Some (contexts d' !! c)) → subs_ok d'.
Proof.
  intros Hok Hg Hid.
  assert (Hs : ∀ p, subs_of p (root d') = subs_of p (root d)) by (intros p; by apply grown_subs_of).
  split.
  - pose proof (so_tree d Hok) as [Hn Hch]%tree_ok_unfold. apply tree_ok_unfold.
    rewrite (grown_topics _ _ Hg). split; [done|]. clear -Hg Hch. induction Hg; [done|].
    apply Forall_cons in Hch as [? ?]. constructor; [by eapply gr_ok|auto].
  - intros p. rewrite Hs. eapply Forall_impl; [apply (so_live d Hok p)|]. intros lf. apply Hid.
  - intros p. rewrite Hs. apply (so_one d Hok).
Qed.

Lemma routed_grown r new ts t bs bs' : Forall2 (routed r new ts t) bs bs' → Forall2 grown bs bs'.
Proof. induction 1; constructor; [by eapply ro_grown|done]. Qed.

Lemma routed_child r new ts t x bs bs' :
  Forall2 (routed r new ts t) bs bs' →
  match child x bs, child x bs' with
  | Some b, Some b' => routed r new ts t b b' ∧ sh_topic b = x
  | None, None => True
  | _, _ => False
  end.
Proof.
  induction 1 as [|b b' l k Hb _ IH]; [done|].
  rewrite !child_cons, (gr_topic _ _ (ro_grown _ _ _ _ _ _ Hb)).
  by destruct (decide (x = sh_topic b)) as [->|].
Qed.

(** Whether the tree has a place for the topic's retained message. *)
Definition has_root (d : db) (topic : bytes) : bool :=
  bool_decide (head (tokens topic) ∈ Some <$> (sh_topic <$> subs_children d)).

Lemma routed_retained r new topic t d d' p :
  head (tokens topic) = Some t → Forall2 (routed r new (tokens topic) t) (subs_children d) (subs_children d') →
  retained_at d' p =
    if decide (r = true ∧ p = sub_path topic ∧ has_root d topic = true) then new else retained_at d p.
Proof.
  intros Ht Hr. unfold retained_at, sub_path, has_root.
  assert (Hp : match tokens topic with t :: _ => t :: tokens topic | [] => [] end = t :: tokens topic).
  { destruct (tokens topic); [done|]. by injection Ht as ->. }
  rewrite Hp, Ht. destruct p as [|x p]; [by rewrite decide_False by naive_solver|].
  rewrite !ret_of_cons. cbn [root sh_children]. pose proof (routed_child _ _ _ _ x _ _ Hr) as Hc.
  destruct (child x (subs_children d)) as [b|] eqn:Hb, (child x (subs_children d')) as [b'|]; try done; cbn.
  - destruct Hc as [[Hg Ho Hre] Htb]. destruct (decide (x = t)) as [->|Hx].
    + rewrite Hre by done. destruct (decide (r = true ∧ p = _)) as [[-> ->]|Hn].
      * rewrite decide_True; [done|]. split_and!; [done..|]. apply bool_decide_eq_true.
        apply list_elem_of_fmap_2. rewrite <-Htb. unfold child in Hb.
        destruct (list_find _ _) as [[i n]|] eqn:Hf; [|done]. injection Hb as ->.
        apply list_find_Some in Hf as (Hi & _ & _). by eapply list_elem_of_fmap_2, list_elem_of_lookup_2.
      * rewrite decide_False; [done|]. naive_solver.
    + rewrite Ho by congruence. rewrite decide_False; [done|]. naive_solver.
  - rewrite decide_False; [done|]. intros (_ & [= -> _] & Hin%bool_decide_eq_true).
    apply list_elem_of_fmap in Hin as (y & [= <-] & (b & -> & Hin)%list_elem_of_fmap).
    unfold child in Hb. destruct (list_find _ _) eqn:Hf; [done|].
    apply list_find_None in Hf. rewrite Forall_forall in Hf. by apply (Hf b).
Qed.

Lemma messages_queue_spec E acl_check pins source topic q r stored d :
  db_ok pins d → sendable (dmsg d) stored → 0 ≤ q ≤ 2 → 0 ∉ topic → wildcard_free topic →
  wp (mqtt3_db_messages_queue E acl_check source topic q r stored) (λ '(rc, o) d',
    rc = MOSQ_ERR_SUCCESS ∧ db_ok pins d' ∧ keeps pins (dmsg d) (dmsg d') ∧
    (∀ c, tie <$> contexts d' !! c = tie <$> contexts d !! c) ∧ tables d' = tables d ∧
    (∀ p, subs_of p (root d') = subs_of p (root d)) ∧
    (∀ p, retained_at d' p =
       if decide (r = true ∧ p = sub_path topic ∧ has_root d topic = true)
       then replacement (dmsg d) stored else retained_at d p) ∧
    o = (λ _, stored) <$> heap (dmsg d') !! stored) d.
Proof.
  intros [Hcore Hsubs Hl Hret] Hs Hq H0 Hfree. pose proof (wildcard_free_tokens _ Hfree) as Hw.
  destruct (tokens_head topic) as (t & ts & Ht & Hth & Htp).
  assert (Hne : tokens topic ≠ []) by (by rewrite Ht).
  unfold mqtt3_db_messages_queue. apply wp_bind.
  eapply wp_lift; [by apply tokenise_tokens|]. apply wp_bind.
  assert (Hlive : is_Some (heap (dmsg d) !! stored)) by (destruct Hs as (st & _ & Hst & _); by eexists).
  eapply wp_mono; [by apply (wp_ref (tree_refs (root d) ++ pins))|]. intros [] d1 [Hok1 Hf1].
  apply wp_bind. eapply wp_lift; [by rewrite Ht|]. apply wp_bind, wp_get, wp_bind.
  rewrite (fr_tree _ _ _ Hf1). pose proof (so_tree d Hsubs) as [Hn Hch]%tree_ok_unfold.
  eapply wp_mono; [apply (queue_roots_spec E acl_check source topic q r stored Hq
    (replacement (dmsg d) stored) (tokens topic) t Hth Hw Hne (subs_children d) (stored :: pins) d1 Hch)|].
  { split_and!; [|set_solver|eapply frame_sendable; [done|set_solver|done]|by eapply leaves_ok_frame|].
    - by rewrite <-Permutation_middle.
    - apply (replacement_frame _ _ _ _ Hf1). set_solver. }
  intros bs d2 [(Hok2 & Hf2 & Hr2) Hro]. pose proof (routed_grown _ _ _ _ _ _ Hro) as Hg. apply wp_bind, wp_modify, wp_bind.
  set (d3 := set_subs_children (λ _, bs) d2).
  assert (Hok3 : core_ok (stored :: concat (tree_refs <$> bs) ++ pins) d3).
  { rewrite Permutation_middle. destruct Hok2. by split. }
  eapply wp_mono; [by apply (wp_deref (concat (tree_refs <$> bs) ++ pins) stored d3)|]. intros o d4 (Hok4 & Hf4 & Ho). apply wp_ret.
  assert (Hf0 : frame (stored :: pins) d d2).
  { etrans; [|done]. eapply frame_subseteq; [|done]. set_solver. }
  assert (Hids : ∀ c, tie <$> contexts d4 !! c = tie <$> contexts d !! c).
  { intros c. by rewrite (fr_ids _ _ _ Hf4), <-(fr_ids _ _ _ Hf0). }
  pose proof (fr_tree _ _ _ Hf4) as Htree. cbn in Htree.
  split; [done|]. split; [|split; [|split; [done|split; [|split; [|split; [|done]]]]]].
  - split.
    + cbn [root tree_refs]. by rewrite Htree.
    + apply (grown_subs_ok d); [done|by rewrite Htree|]. intros c Hc.
      specialize (Hids c). destruct (contexts d4 !! c), (contexts d !! c); by destruct Hc.
    + cbn [root tree_leaves]. rewrite Htree, (grown_leaves _ _ Hg). eapply leaves_ok_frame; [exact Hf4|].
      by eapply (leaves_ok_frame _ d d2).
    + cbn [root tree_refs]. rewrite Htree. apply Forall_forall. intros s Hs'.
      eapply frame_sendable; [exact Hf4|set_solver|]. destruct (Hr2 s Hs') as [Hin Hc].
      apply (keeps_sendable [s] (dmsg d1)); [by intros ? ->%list_elem_of_singleton|set_solver|].
      eapply frame_sendable; [exact Hf1|set_solver|]. apply elem_of_cons in Hin as [->|Hin]; [done|].
      rewrite Forall_forall in Hret. by apply Hret.
  - intros s Hs'. rewrite (fr_keeps _ _ _ Hf4) by set_solver. apply (fr_keeps _ _ _ Hf0). set_solver.
  - rewrite (fr_tables _ _ _ Hf4). apply (fr_tables _ _ _ Hf0).
  - intros p. apply (grown_subs_of p). by rewrite Htree.
  - intros p. apply (routed_retained _ _ _ t); [by rewrite Ht|by rewrite Htree].
Qed.

(** C3: publishing a message to all matching subscriptions
    ([mqtt3_db_messages_queue]) is safe in every consistent broker: it never
    follows a dangling pointer or fails an assertion, it ends, and afterwards
    every client's queue is consistent again and every reference count is
    exact; the caller's pointer is cleared exactly when nobody kept the
    message. *)
Theorem publish_safe E acl_check pins source topic q r stored d :
  db_ok pins d → sendable (dmsg d) stored → 0 ≤ q ≤ 2 → 0 ∉ topic →
  mosquitto_pub_topic_check topic = MOSQ_ERR_SUCCESS →
  ∃ o d', mqtt3_db_messages_queue E acl_check source topic q r stored d
            = Some ((MOSQ_ERR_SUCCESS, o), d') ∧
    db_ok pins d' ∧ keeps pins (dmsg d) (dmsg d') ∧
    o = (λ _, stored) <$> heap (dmsg d') !! stored.
Proof.
  intros Hok Hs Hq H0 Hck.
  destruct (wp_inv _ _ _ (messages_queue_spec E acl_check pins source topic q r stored d Hok Hs Hq H0
    (pub_topic_scan_free _ _ Hck)))
    as ([rc o] & d' & Hrun & -> & Hok' & Hk & _ & _ & _ & _ & Ho). eauto 6.
Qed.

(** C30: a publication changes no subscription, and of the retained messages at
    most the one of its own topic: a retained publication replaces it, or
    clears it when the payload is empty, provided the tree has the top-level
    node of the topic. *)
Theorem publish_retains E acl_check pins source topic q r stored d :
  db_ok pins d → sendable (dmsg d) stored → 0 ≤ q ≤ 2 → 0 ∉ topic →
  mosquitto_pub_topic_check topic = MOSQ_ERR_SUCCESS →
  ∃ res d', mqtt3_db_messages_queue E acl_check source topic q r stored d = Some (res, d') ∧
    (∀ p cid, subscribed d' p cid = subscribed d p cid) ∧
    (∀ p, retained_at d' p =
       if decide (r = true ∧ p = sub_path topic ∧ has_root d topic = true)
       then replacement (dmsg d) stored else retained_at d p).
Proof.
  intros Hok Hs Hq H0 Hck.
  destruct (wp_inv _ _ _ (messages_queue_spec E acl_check pins source topic q r stored d Hok Hs Hq H0
    (pub_topic_scan_free _ _ Hck)))
    as ([rc o] & d' & Hrun & _ & _ & _ & Hids & _ & Hsubs & Hret & _).
  exists (rc, o), d'. split; [done|]. split; [|done]. intros p cid. unfold subscribed. rewrite Hsubs.
  apply client_qos_ext. intros lf _. unfold leaf_id. specialize (Hids (lf_context lf)).
  destruct (contexts d' !! _), (contexts d !! _); unfold tie, conn in *; cbn in *; congruence.
Qed.

Lemma subscribed_broker_ok : db_ok [1%positive] subscribed_broker ∧ sendable (dmsg subscribed_broker) 1.
Proof.
  destruct sample_cm_ok as [Hcm Hs]. split; [|exact Hs].
  apply cm_ok_split in Hcm as [Hcx Hst]. split.
  - split; [|exact Hst]. intros c x Hx. cbn in Hx.
    apply lookup_singleton_Some in Hx as [_ <-]. destruct Hcx as [Hq ? ? ? ?]. destruct (Hq ltac:(by eexists)). by split; [split|..].
  - apply sample_broker_subs.
  - by_compute.
  - constructor.
Qed.

Lemma publish_safe_witness :
  ∃ o d', mqtt3_db_messages_queue sample_env (λ _ _ _, 0) (Some (str "src")) (str "a/b") 1 true 1
            subscribed_broker = Some ((MOSQ_ERR_SUCCESS, o), d') ∧
    db_ok [1%positive] d' ∧ keeps [1%positive] (dmsg subscribed_broker) (dmsg d') ∧
    o = (λ _, 1%positive) <$> heap (dmsg d') !! 1%positive.
Proof.
  destruct subscribed_broker_ok.
  apply (publish_safe sample_env (λ _ _ _, 0)); [assumption|assumption|lia|by_compute|reflexivity].
Defined.

Lemma publish_retains_witness :
  ∃ res d', mqtt3_db_messages_queue sample_env (λ _ _ _, 0) (Some (str "src")) (str "a/b") 1 true 1
            subscribed_broker = Some (res, d') ∧
    retained_at d' (sub_path (str "a/b")) = Some 1%positive ∧
    retained_at d' (sub_path (str "a/c")) = None.
Proof.
  destruct subscribed_broker_ok.
  destruct (publish_retains sample_env (λ _ _ _, 0) [1%positive] (Some (str "src")) (str "a/b") 1 true 1
    subscribed_broker) as (res & d' & Hrun & _ & Hr); [assumption|assumption|lia|by_compute|reflexivity|].
  exists res, d'. split; [exact Hrun|]. split.
  - rewrite Hr. by_compute.
  - rewrite Hr. by_compute.
Defined.
