(* ===== verification/Session.v ===== *)
(** * A client's subscriptions as a whole

    [mqtt3_subs_clean_session] removes all subscriptions of a client, before
    its context is freed, by following the pointers kept in the context. The
    invariant [slots_ok] says that these are exactly the nodes with a leaf of
    the client, so that no leaf is left behind. *)

From stdpp Require Import base list numbers strings option sets gmap fin_maps.
From Stdlib Require Import ZArith Lia.
From S2P Require Import Prelude Topic Packet State Store Send Messages Db Subs DbInv.
Local Open Scope Z_scope.
Local Open Scope broker_scope.

(** ** Changes of one node *)

(** The tree below a virtual root. *)
Definition forest (ch : list subhier) : subhier := Subhier [] [] None ch.

(** What changes when the leaves at [p] do: no other leaf, no retained message,
    no reference. *)
Record edits (p : path) (f : list subleaf → list subleaf) (h h' : subhier) : Prop := {
  ed_updates : updates p f h h';
  ed_refs : tree_refs h' = tree_refs h;
}.

Lemma node_at_forest p ch : p ≠ [] → sub_at p (forest ch) = node_at p ch.
Proof. by destruct p. Qed.

Lemma concat_insert_eq {A} (f : subhier → list A) (ch : list subhier) (i : nat) (b b' : subhier) :
  ch !! i = Some b → f b' = f b → concat (f <$> <[i := b']> ch) = concat (f <$> ch).
Proof.
  intros Hi Hf. rewrite list_fmap_insert, Hf, list_insert_id; [done|]. by rewrite list_lookup_fmap, Hi.
Qed.

Lemma concat_insert_subseteq {A} (f : subhier → list A) (ch : list subhier) (i : nat) (b b' : subhier) :
  ch !! i = Some b → f b' ⊆ f b → concat (f <$> <[i := b']> ch) ⊆ concat (f <$> ch).
Proof.
  intros Hi Hf. destruct (list_insert_split ch i b Hi) as (l1 & l2 & -> & _ & -> & _).
  rewrite !fmap_app, !concat_app. cbn. set_solver.
Qed.

Lemma concat_delete_eq {A} (f : subhier → list A) (ch : list subhier) (i : nat) (b : subhier) :
  ch !! i = Some b → f b = [] → concat (f <$> delete i ch) = concat (f <$> ch).
Proof.
  intros Hi Hf. destruct (list_insert_split ch i b Hi) as (l1 & l2 & -> & _ & _ & ->).
  rewrite !fmap_app, !concat_app. cbn. by rewrite Hf.
Qed.

(** A child replaced. *)
Lemma edits_child t p f h b b' (i : nat) :
  NoDup (sh_topic <$> sh_children h) → sh_children h !! i = Some b → sh_topic b = t →
  edits p f b b' → edits (t :: p) f h (set_sh_children (<[i := b']> (sh_children h)) h).
Proof.
  intros Hn Hi Ht [Hu Hr]. pose proof (up_topic _ _ _ _ Hu) as Htb. split.
  - apply (updates_child t p f h b b'); [done| |].
    + left. apply child_Some; [done|]. split; [by eapply list_elem_of_lookup_2|done].
    + exists (Some b'). split; [by left|]. intros x. rewrite (child_insert x _ i b b'), Ht by congruence. done.
  - destruct h as [th l r ch]. cbn in *. by erewrite concat_insert_eq.
Qed.

(** The leaves of the node at [p] changed. *)
Lemma edits_here f h : edits [] f h (set_sh_subs (f (sh_subs h)) h).
Proof. split; [apply updates_here|by destruct h]. Qed.

Lemma set_at_edits p f ch n :
  tree_ok ch → node_at p ch = Some n →
  let ch' := alter_at (λ _, Some (set_sh_subs (f (sh_subs n)) n)) p ch in
  edits p f (forest ch) (forest ch') ∧ tree_ok ch' ∧ node_at p ch' = Some (set_sh_subs (f (sh_subs n)) n)
  ∧ (ch = [] → ch' = []).
Proof.
  cbv zeta. revert ch. induction p as [|t p IH]; intros ch Hok Hn; [done|].
  cbn [node_at alter_at] in *. destruct (list_find _ ch) as [[i b]|] eqn:Hfind; [|done].
  pose proof (child_Some_find _ _ _ _ Hfind) as Hc. pose proof Hfind as (Hi & Ht & _)%list_find_Some.
  destruct (tree_ok_child _ _ _ Hok Hc) as [[Hbh Hbok] _]. pose proof Hok as [Hnd _]%tree_ok_unfold.
  cbn [mbind option_bind] in Hn.
  assert (Hfind' : ∀ b', sh_topic b' = sh_topic b →
    list_find (λ b, sh_topic b = t) (<[i := b']> ch) = Some (i, b')).
  { intros b' Hb'. destruct (list_insert_split ch i b Hi) as (l1 & l2 & E1 & E2 & E3 & _).
    rewrite E3, <-E2, <-Ht, <-Hb'. apply find_child. rewrite Hb', Ht.
    apply list_find_Some in Hfind as (_ & _ & Hfst). intros (y & Hy & Hin)%list_elem_of_fmap.
    apply list_elem_of_lookup in Hin as [j Hj]. pose proof (lookup_lt_Some _ _ _ Hj).
    apply (Hfst j y); [|lia|done]. rewrite E1, lookup_app_l; [done|lia]. }
  assert (Hnil : ch = [] → False) by (intros ->; done).
  destruct p as [|x p].
  - injection Hn as ->. split; [|split; [|split; [|by intros ?]]].
    + apply (edits_child t [] f (forest ch) n); [done|done|done|apply edits_here].
    + eapply tree_ok_insert; [done|done|done|by split].
    + by rewrite Hfind'.
  - destruct (IH (sh_children b) Hbok Hn) as ([[Hu1 Hu2 Hu3] Hr] & Hok' & Hn' & He).
    split; [|split; [|split; [|by intros ?]]].
    + apply (edits_child t (x :: p) f (forest ch) b); [done|done|done|]. split.
      * split; [done|..]; intros [|y p']; try done.
        -- rewrite !subs_of_cons. specialize (Hu2 (y :: p')). by rewrite !subs_of_cons in Hu2.
        -- rewrite !ret_of_cons. specialize (Hu3 (y :: p')). by rewrite !ret_of_cons in Hu3.
      * destruct b as [tb lb rb chb]. cbn in *. by rewrite Hr.
    + eapply tree_ok_insert; [done|done|done|]. split; [|done]. cbn. auto.
    + by rewrite Hfind'.
Qed.

(** The children of a node replaced by those of an edited forest. *)
Lemma edits_children p f b ch' :
  p ≠ [] → edits p f (forest (sh_children b)) (forest ch') → edits p f b (set_sh_children ch' b).
Proof.
  intros Hp [[Hu1 Hu2 Hu3] Hr]. split.
  - split; [done|..]; intros [|y p']; try done.
    + by rewrite decide_False.
    + rewrite !subs_of_cons. specialize (Hu2 (y :: p')). by rewrite !subs_of_cons in Hu2.
    + rewrite !ret_of_cons. specialize (Hu3 (y :: p')). by rewrite !ret_of_cons in Hu3.
  - destruct b as [tb lb rb chb]. cbn in *. by rewrite Hr.
Qed.

Lemma empty_node_inv h :
  empty_node h = true → sh_children h = [] ∧ sh_subs h = [] ∧ sh_retained h = None.
Proof.
  unfold empty_node. intros [[H1 H2]%andb_prop H3]%andb_prop.
  by apply bool_decide_eq_true in H1, H2, H3.
Qed.

(** An empty node freed. *)
Lemma delete_at_edits p ch n :
  tree_ok ch → node_at p ch = Some n → empty_node n = true →
  let ch' := alter_at (λ _, None) p ch in
  edits p (λ l, l) (forest ch) (forest ch') ∧ tree_ok ch' ∧ (ch = [] → ch' = []).
Proof.
  cbv zeta. intros Hok Hn He. apply empty_node_inv in He as (He1 & He2 & He3).
  revert ch Hok Hn. induction p as [|t p IH]; intros ch Hok Hn; [done|].
  cbn [node_at alter_at] in *. destruct (list_find _ ch) as [[i b]|] eqn:Hfind; [|done].
  pose proof (child_Some_find _ _ _ _ Hfind) as Hc. pose proof Hfind as (Hi & Ht & _)%list_find_Some.
  destruct (tree_ok_child _ _ _ Hok Hc) as [[Hbh Hbok] _]. pose proof Hok as [Hnd _]%tree_ok_unfold.
  cbn [mbind option_bind] in Hn.
  destruct p as [|x p].
  - injection Hn as ->. destruct n as [tn ln rn cn]. cbn in He1, He2, He3. subst.
    split; [|split; [by apply tree_ok_delete|by intros ->]]. split.
    + apply (updates_child _ [] (λ l, l) (forest ch) (Subhier tn [] None []) (Subhier tn [] None [])).
      * apply (updates_id []); [by intros|done].
      * by left.
      * exists None. split; [by right|]. intros y.
        rewrite (child_delete y _ i (Subhier tn [] None [])) by done. done.
    + cbn. by erewrite concat_delete_eq.
  - destruct (IH (sh_children b) Hbok Hn) as (Hed & Hok' & Hnil). split; [|split].
    + apply (edits_child t (x :: p) _ (forest ch) b); [done|done|done|]. by apply edits_children.
    + eapply tree_ok_insert; [done|done|done|]. split; [|done]. cbn. auto.
    + intros ->. done.
Qed.

Lemma edits_id_trans p q f h1 h2 h3 :
  edits p f h1 h2 → edits q (λ l, l) h2 h3 → edits p f h1 h3.
Proof.
  intros [[T1 S1 R1] E1] [[T2 S2 R2] E2].
  split; [split|congruence]; [congruence|..]; intros p'.
  - rewrite S2. by destruct (decide (p' = q)).
  - by rewrite R2.
Qed.

Lemma node_at_snoc p t ch n :
  p ≠ [] → node_at (p ++ [t]) ch = Some n → ∃ m, node_at p ch = Some m ∧ sh_children m ≠ [].
Proof.
  intros Hp. revert ch. induction p as [|x p IH]; intros ch Hn; [done|].
  cbn [app node_at] in *. destruct (list_find _ ch) as [[i b]|]; [|done]. cbn in *.
  destruct p as [|y p].
  - cbn in Hn. exists b. split; [done|]. intros Hnil. by rewrite Hnil in Hn.
  - cbn [app] in Hn. by apply IH.
Qed.

(** The parent is still there, with one child less. *)
Lemma delete_at_parent p t ch n :
  p ≠ [] → tree_ok ch → node_at (p ++ [t]) ch = Some n →
  is_Some (node_at p (alter_at (λ _, None) (p ++ [t]) ch)).
Proof.
  intros Hp. revert ch. induction p as [|x p IH]; intros ch Hok Hn; [done|].
  cbn [app node_at alter_at] in *.
  destruct (list_find _ ch) as [[i b]|] eqn:Hfind; [|done]. cbn in *.
  pose proof (child_Some_find _ _ _ _ Hfind) as Hc. pose proof Hfind as (Hi & Ht & _)%list_find_Some.
  destruct (tree_ok_child _ _ _ Hok Hc) as [[_ Hbok] _]. pose proof Hok as [Hnd _]%tree_ok_unfold.
  assert (Hch : ∀ b', sh_topic b' = sh_topic b → ∃ j, list_find (λ b, sh_topic b = x) (<[i := b']> ch) = Some (j, b')).
  { intros b' Hb'. pose proof (child_insert x ch i b b' Hnd Hi Hb') as Hci.
    rewrite decide_True in Hci by done. unfold child in Hci.
    destruct (list_find _ (<[i := b']> ch)) as [[j b2]|]; [|done]. injection Hci as ->. eauto. }
  destruct p as [|y p].
  - cbn [app] in *. destruct (Hch (set_sh_children (alter_at (λ _, None) [t] (sh_children b)) b)) as [j Hj]; [done|].
    rewrite Hj. by eexists.
  - cbn [app] in *. destruct (Hch (set_sh_children (alter_at (λ _, None) (y :: p ++ [t]) (sh_children b)) b))
      as [j Hj]; [done|]. rewrite Hj. cbn. by apply IH.
Qed.

Lemma edits_id p q h h' : edits p (λ l, l) h h' → edits q (λ l, l) h h'.
Proof.
  intros [[T S R] E]. split; [split|done]; [done| |done]. intros p'. rewrite S.
  by destruct (decide (p' = p)), (decide (p' = q)).
Qed.

Lemma prune_spec k p ch n :
  (length p ≤ k)%nat → p ≠ [] → tree_ok ch → node_at p ch = Some n → empty_node n = true →
  has_parent p = true →
  ∃ ch', prune k p ch = Some ch' ∧ edits p (λ l, l) (forest ch) (forest ch') ∧ tree_ok ch'.
Proof.
  revert p ch n. induction k as [|k IH]; intros p ch n Hlen Hp Hok Hn He Hpar.
  { destruct p; [done|cbn in Hlen; lia]. }
  destruct (delete_at_edits p ch n Hok Hn He) as (Hed & Hok' & _). cbn [prune].
  unfold tmp_remove_subs. rewrite Hn, Hpar. cbn [mbind option_bind negb].
  destruct (empty_node_inv _ He) as (He1 & He2 & _). rewrite He1, He2. cbn [bool_decide negb orb].
  destruct (exists_last Hp) as (pp & t & ->).
  assert (Hpp : take (length (pp ++ [t]) - 1) (pp ++ [t]) = pp).
  { rewrite length_app, Nat.add_sub. apply take_app_length. }
  rewrite Hpp. rewrite !bool_decide_eq_true_2 by done. cbn [negb orb].
  destruct pp as [|x pp]; [by eauto|].
  assert (Hpne : x :: pp ≠ []) by done. set (q := x :: pp) in *. clearbody q.
  destruct (delete_at_parent q t ch n Hpne Hok Hn) as [m Hm]. rewrite Hm. cbn [mbind option_bind].
  destruct (empty_node m && has_parent q) eqn:Hc; [|by eauto].
  apply andb_prop in Hc as [Hem Hpq]. rewrite length_app in Hlen. cbn in Hlen.
  destruct (IH q _ m ltac:(lia) Hpne Hok' Hm Hem Hpq) as (ch' & -> & Hed2 & Hok2).
  exists ch'. split; [done|]. split; [|done]. by eapply edits_id_trans.
Qed.

(** Every leaf is found along its path. *)
Lemma leaf_path h lf : tree_ok (sh_children h) → lf ∈ tree_leaves h → ∃ p, lf ∈ subs_of p h.
Proof.
  revert lf. induction h as [t s r ch IH] using subhier_ind'. intros lf Hok Hlf. cbn [sh_children tree_leaves] in *.
  apply elem_of_app in Hlf as [Hs|Hc]; [by exists []|].
  apply elem_of_concat_fmap in Hc as (b & Hb & Hlf). apply tree_ok_unfold in Hok as [Hn Hch].
  rewrite Forall_forall in IH, Hch. destruct (Hch b Hb) as [_ Hbo].
  destruct (IH b Hb lf Hbo Hlf) as [p Hp]. exists (sh_topic b :: p). rewrite subs_of_cons.
  cbn [sh_children]. by rewrite (proj2 (child_Some (sh_topic b) ch b Hn)).
Qed.

Lemma leaves_subs (P : subleaf → Prop) ch :
  tree_ok ch → (∀ p, Forall P (subs_of p (forest ch))) → Forall P (tree_leaves (forest ch)).
Proof.
  intros Hok Hp. apply Forall_forall. intros lf Hlf. destruct (leaf_path (forest ch) lf Hok Hlf) as [p Hin].
  specialize (Hp p). rewrite Forall_forall in Hp. by apply Hp.
Qed.

(** ** All subscriptions of a client *)

Definition occupied (slots : list (option path)) : list path := omap (λ o, o) slots.

Lemma occupied_cons p slots : length (occupied (Some p :: slots)) = S (length (occupied slots)).
Proof. done. Qed.

Lemma has_leaf_nonempty c p ch :
  has_leaf c (subs_of p (forest ch)) = true → p ≠ [] ∧ ∃ n, node_at p ch = Some n ∧ sh_subs n = subs_of p (forest ch).
Proof.
  intros H%bool_decide_eq_true. destruct p as [|x p].
  - cbn in H. by apply elem_of_nil in H.
  - split; [done|]. unfold subs_of in *. rewrite node_at_forest in * by done.
    destruct (node_at (x :: p) ch) as [n|]; [by eexists|]. cbn in H. by apply elem_of_nil in H.
Qed.

Lemma clean_slots_spec c slots ch :
  tree_ok ch → NoDup (occupied slots) →
  (∀ p, Some p ∈ slots → has_leaf c (subs_of p (forest ch)) = true) →
  ∃ ch', clean_slots c slots ch = Some (Z.of_nat (length (occupied slots)), ch') ∧ tree_ok ch' ∧
    tree_refs (forest ch') = tree_refs (forest ch) ∧
    (∀ p, subs_of p (forest ch') =
       if decide (Some p ∈ slots) then drop_leaf c (subs_of p (forest ch)) else subs_of p (forest ch)) ∧
    (∀ p, ret_of p (forest ch') = ret_of p (forest ch)).
Proof.
  revert ch. induction slots as [|[p|] slots IH]; intros ch Hok Hnd Hsl; cbn [clean_slots].
  - exists ch. split_and!; [done..| |done]. intros p. by rewrite decide_False by set_solver.
  - cbn [occupied omap list_omap] in Hnd. apply NoDup_cons in Hnd as [Hp Hnd].
    destruct (has_leaf_nonempty c p ch) as (Hne & n & Hn & Hs); [apply Hsl; set_solver|].
    pose proof (Hsl p ltac:(set_solver)) as Hhl. rewrite Hn. cbn [mbind option_bind].
    rewrite remove_leaf_eq, Hs, Hhl.
    destruct (set_at_edits p (drop_leaf c) ch n Hok Hn) as (Hed & Hok1 & Hn1 & _).
    rewrite Hs in *. set (ch1 := alter_at _ p ch) in *. set (n1 := set_sh_subs _ n) in *.
    assert (Hpr : ∃ ch2, (if empty_node n1 && has_parent p then prune (length p) p ch1 else Some ch1) = Some ch2 ∧
      edits p (drop_leaf c) (forest ch) (forest ch2) ∧ tree_ok ch2).
    { destruct (empty_node n1 && has_parent p) eqn:Hc; [|by eauto]. apply andb_prop in Hc as [He Hpar].
      destruct (prune_spec (length p) p ch1 n1 ltac:(lia) Hne Hok1 Hn1 He Hpar) as (ch2 & -> & Hed2 & Hok2).
      exists ch2. split; [done|]. split; [|done]. by eapply edits_id_trans. }
    destruct Hpr as (ch2 & -> & Hed2 & Hok2). cbn [mbind option_bind].
    destruct Hed2 as [[_ S2 R2] E2].
    destruct (IH ch2 Hok2 Hnd) as (ch' & -> & Hok' & Hr & Hsubs & Hret).
    { intros p' Hp'. rewrite S2, decide_False; [apply Hsl; set_solver|]. intros ->. apply Hp.
      apply list_elem_of_omap. eauto. }
    exists ch'. cbn [mbind option_bind]. split_and!; [by rewrite occupied_cons, Nat2Z.inj_succ|done|congruence| |].
    + intros p'. rewrite Hsubs, S2. destruct (decide (p' = p)) as [->|Hpp].
      * rewrite (decide_True (P := Some p ∈ Some p :: slots)) by set_solver. rewrite decide_False; [done|].
        intros Hin. apply Hp. apply list_elem_of_omap. eauto.
      * destruct (decide (Some p' ∈ slots)); [by rewrite decide_True by set_solver|].
        rewrite decide_False; [done|]. set_solver.
    + intros p'. by rewrite Hret.
  - destruct (IH ch Hok Hnd) as (ch' & -> & Hok' & Hr & Hsubs & Hret); [set_solver|].
    exists ch'. split_and!; try done. intros p. rewrite Hsubs.
    destruct (decide (Some p ∈ slots)); [by rewrite decide_True by set_solver|by rewrite decide_False by set_solver].
Qed.

(** ** Retained messages for a new subscription *)

Section retain.
Context (E : env) (acl_check : mosquitto → bytes → Z → Z).
Context (c : ptr) (sub_qos : Z) (Hq : 0 ≤ sub_qos ≤ 2).

(** The client is there, and the retained messages [tr] can be sent. *)
Definition retain_pre (tr refs : list ptr) (d : db) : Prop :=
  core_ok refs d ∧ tr ⊆ refs ∧ Forall (sendable (dmsg d)) tr ∧ is_Some (contexts d !! c ≫= id).

Lemma retain_pre_step tr tr' refs d d' :
  retain_pre tr refs d → core_step refs d d' → tr' ⊆ tr → retain_pre tr' refs d'.
Proof.
  intros (_ & Hin & Hs & Hc) [Hok Hf] Ht. split_and!; [done|by etrans| |].
  2: { destruct (contexts d !! c) as [x|] eqn:Hx; [|by destruct Hc].
       destruct (frame_tie _ _ _ _ _ Hf Hx) as (x' & -> & Hid%tie_id). cbn in *. by rewrite Hid. }
  rewrite Forall_forall in Hs |- *. intros s Hs'. eapply frame_sendable; [done|set_solver|]. set_solver.
Qed.

Lemma retain_process_spec retained refs d :
  retain_pre [retained] refs d →
  wp (_retain_process E acl_check retained c sub_qos) (λ _ d', core_step refs d d') d.
Proof.
  intros (Hok & Hin & Hs & Hc). destruct (contexts d !! c) as [x|] eqn:Hx; [|by destruct Hc].
  cbn in Hc. apply Forall_cons in Hs as [Hs _].
  pose proof Hs as (st & t & Hst & Ht & _ & _ & Hmq).
  unfold _retain_process. apply wp_bind, wp_get, wp_bind. eapply wp_lift; [exact Hst|].
  apply wp_bind, (wp_get_context _ x); [done|]. apply wp_bind. eapply wp_lift; [exact Ht|].
  cbv zeta. destruct (_ =? MOSQ_ERR_ACL_DENIED); [by apply wp_ret, core_step_refl|].
  destruct (negb _); [by apply wp_ret, core_step_refl|].
  set (q := if sub_qos <? ms_qos st then _ else _).
  assert (Hqr : 0 ≤ q ≤ 2) by (subst q; by destruct (_ <? _)).
  apply wp_bind. eapply (wp_mono _ (λ _ d', core_step refs d d')).
  { destruct (0 <? q); [by eapply mid_step|by apply wp_ret, core_step_refl]. }
  intros m d1 [Hok1 Hf1]. destruct (frame_tie _ _ _ _ _ Hf1 Hx) as (x1 & Hx1 & Hid1%tie_id).
  eapply wp_mono; [eapply insert_step; [done|done|by rewrite Hid1| |done]|].
  - eapply frame_sendable; [done|set_solver|done].
  - intros rc d2 Hstep. etrans; [|exact Hstep]. by split.
Qed.

Lemma process_retained_spec b refs d :
  retain_pre (option_list (sh_retained b)) refs d →
  wp (process_retained E acl_check c sub_qos b) (λ _ d', core_step refs d d') d.
Proof.
  intros Hpre. unfold process_retained. destruct (sh_retained b) as [r|].
  - apply wp_bind. eapply wp_mono; [by apply retain_process_spec|]. intros rc d' H. by apply wp_ret.
  - apply wp_ret, core_step_refl, Hpre.
Qed.

(** The loop over the branches. *)
Section branches.
Context (t : bytes) (ts : list bytes) (level : Z).
Fixpoint retain_branches (bs : list subhier) (flag : bool) : M db bool :=
  match bs with
  | [] => ret flag
  | b :: bs' =>
      if bool_decide (t = [c_hash]) && bool_decide (ts = []) then
        process_retained E acl_check c sub_qos b ;;;
        (if bool_decide (sh_children b = []) then ret false
         else _retain_search E acl_check c sub_qos (t :: ts) (level + 1) b) ;;;
        retain_branches bs' true
      else if negb (is_plus b) && (bool_decide (sh_topic b = t) || bool_decide (t = [c_plus]))
      then
        (if bool_decide (ts = []) then process_retained E acl_check c sub_qos b
         else
           let* f := _retain_search E acl_check c sub_qos ts (level + 1) b in
           if (f : bool) || (bool_decide (bs' = []) && bool_decide (head ts = Some [c_hash])
                             && (0 <? level))
           then process_retained E acl_check c sub_qos b else ret tt) ;;;
        retain_branches bs' flag
      else retain_branches bs' flag
  end.
End branches.

Lemma retain_search_unfold t ts level h :
  _retain_search E acl_check c sub_qos (t :: ts) level h =
    retain_branches t ts level (sh_children h) false.
Proof. by destruct h as [? ? ? []]. Qed.

Lemma retain_branches_spec t ts level bs flag refs d :
  Forall (λ b, ∀ ts level d, ts ≠ [] → retain_pre (tree_refs b) refs d →
    wp (_retain_search E acl_check c sub_qos ts level b) (λ _ d', core_step refs d d') d) bs →
  retain_pre (concat (tree_refs <$> bs)) refs d →
  wp (retain_branches t ts level bs flag) (λ _ d', core_step refs d d') d.
Proof.
  intros Hbs. revert d flag. induction Hbs as [|b bs Hb _ IHbs]; intros d flag Hpre.
  { apply wp_ret, core_step_refl, Hpre. }
  assert (Hbr : ∀ d', core_step refs d d' → retain_pre (option_list (sh_retained b)) refs d' ∧
    retain_pre (tree_refs b) refs d' ∧ retain_pre (concat (tree_refs <$> bs)) refs d').
  { intros d' Hst. split_and!; (eapply retain_pre_step; [done|done|]); cbn; [|set_solver..].
    destruct b. cbn. set_solver. }
  assert (Hrest : ∀ d' flag, core_step refs d d' →
    wp (retain_branches t ts level bs flag) (λ _ d'', core_step refs d d'') d').
  { intros d' fl Hst. eapply wp_mono; [by apply IHbs, Hbr|]. intros f d'' ?. by etrans. }
  pose proof (core_step_refl refs d (proj1 Hpre)) as Hrefl. cbn [retain_branches].
  destruct (_ && _).
  { apply wp_bind. eapply wp_mono; [apply (process_retained_spec b refs), Hbr, Hrefl|].
    intros [] d1 H1. apply wp_bind. eapply (wp_mono _ (λ _ d', core_step refs d1 d')).
    - destruct (bool_decide _); [by apply wp_ret, core_step_refl, H1|]. apply Hb; [done|by apply Hbr].
    - intros f d2 H2. apply Hrest. by etrans. }
  destruct (_ && _); [|by apply Hrest].
  apply wp_bind. eapply (wp_mono _ (λ _ d', core_step refs d d')); [|intros [] d1 H1; by apply Hrest].
  case_bool_decide as Hn; [apply (process_retained_spec b refs), Hbr, Hrefl|].
  apply wp_bind. eapply wp_mono; [apply Hb; [done|by apply Hbr]|]. intros f d1 H1.
  destruct (_ || _); [|by apply wp_ret]. eapply wp_mono; [apply (process_retained_spec b refs), Hbr, H1|].
  intros [] d2 H2. etrans; [exact H1|exact H2].
Qed.

Lemma retain_search_spec ts level h refs d :
  ts ≠ [] → retain_pre (tree_refs h) refs d →
  wp (_retain_search E acl_check c sub_qos ts level h) (λ _ d', core_step refs d d') d.
Proof.
  revert ts level d. induction h as [t l r ch IH] using subhier_ind'. intros ts level d Hts Hpre.
  destruct ts as [|tk ts]; [done|]. rewrite retain_search_unfold. cbn [sh_children].
  apply retain_branches_spec; [exact IH|].
  eapply retain_pre_step; [done|apply core_step_refl, Hpre|]. cbn. set_solver.
Qed.

Lemma retain_queue_spec sub refs d :
  0 ∉ sub → retain_pre (tree_refs (root d)) refs d →
  wp (mqtt3_retain_queue E acl_check c sub sub_qos) (λ rc d', rc = MOSQ_ERR_SUCCESS ∧ core_step refs d d') d.
Proof.
  intros H0 Hpre. unfold mqtt3_retain_queue. apply wp_bind. eapply wp_lift; [by apply tokenise_tokens|].
  destruct (tokens_head sub) as (t & ts & Ht & _). apply wp_bind. eapply wp_lift; [by rewrite Ht|].
  apply wp_bind, wp_get. destruct (list_find _ _) as [[i b]|] eqn:Hf.
  - apply wp_bind. eapply wp_mono; [apply (retain_search_spec (tokens sub) 0 b refs)|].
    + by rewrite Ht.
    + eapply retain_pre_step; [done|apply core_step_refl, Hpre|]. cbn.
      apply list_find_Some in Hf as (Hi & _ & _). apply concat_refs_subseteq. by eapply list_elem_of_lookup_2.
    + intros f d' H. by apply wp_ret.
  - apply wp_ret. split; [done|]. apply core_step_refl, Hpre.
Qed.
End retain.

(** ** References and leaves under subscribing and unsubscribing *)

Lemma add_leaf_tree ctxs c q h rc a h' (P : subleaf → Prop) :
  add_leaf ctxs c q h = Some (rc, a, h') → (∀ lf, P lf → P (Subleaf (lf_context lf) q)) →
  (∀ c', c = Some c' → P (Subleaf c' q)) →
  tree_refs h' = tree_refs h ∧ (Forall P (tree_leaves h) → Forall P (tree_leaves h')).
Proof.
  intros Hadd Hq Hc. destruct h as [t l r ch]. unfold add_leaf in Hadd.
  destruct c as [c|]; [|by simplify_eq]. destruct (ctxs !! c) as [x|]; [|done]. cbn in Hadd.
  destruct (id x); [|by simplify_eq]. destruct (find_leaf _ _ _ _) as [[i|]|]; simplify_eq/=.
  - split; [done|]. rewrite !Forall_app. intros [Hl ?]. split; [|done].
    apply Forall_alter; [done|]. intros lf _. apply Hq.
  - split; [done|]. rewrite !Forall_app. intros [Hl ?]. split; [|done]. split; [done|].
    constructor; [by apply Hc|constructor].
Qed.

Lemma sub_add_tree ctxs c q ts h rc a h' (P : subleaf → Prop) :
  _sub_add ctxs c q ts h = Some (rc, a, h') → (∀ lf, P lf → P (Subleaf (lf_context lf) q)) →
  (∀ c', c = Some c' → P (Subleaf c' q)) →
  tree_refs h' = tree_refs h ∧ (Forall P (tree_leaves h) → Forall P (tree_leaves h')).
Proof.
  intros Hadd Hq Hc. revert h h' Hadd. induction ts as [|t ts IH]; intros h h' Hadd; cbn [_sub_add] in Hadd.
  { by eapply add_leaf_tree. }
  destruct (list_find _ _) as [[i b]|] eqn:Hf.
  - destruct (_sub_add ctxs c q ts b) as [[[rc' a'] b']|] eqn:Hb; [|done]. simplify_eq/=.
    apply IH in Hb as [Hr Hl]. apply list_find_Some in Hf as (Hi & _ & _).
    destruct h as [th l r ch]. cbn in *. split; [by erewrite concat_insert_eq|].
    rewrite !Forall_app. intros [? Hch]. split; [done|].
    destruct (list_insert_split ch i b Hi) as (l1 & l2 & -> & _ & -> & _).
    rewrite !fmap_app, !concat_app in *. cbn in *. rewrite !Forall_app in *. naive_solver.
  - destruct (_sub_add ctxs c q ts (new_node t)) as [[[rc' a'] b']|] eqn:Hb; [|done]. simplify_eq/=.
    apply IH in Hb as [Hr Hl]. destruct h as [th l r ch]. cbn in *.
    rewrite !fmap_app, !concat_app. cbn. rewrite Hr, !app_nil_r. split; [done|].
    rewrite !Forall_app. intros [? ?]. split; [done|]. split; [done|]. apply Hl. constructor.
Qed.

Lemma sub_add_db_tree d d' c sub q rc :
  mqtt3_sub_add c sub q d = Some (rc, d') → is_Some (contexts d !! c) → 0 ≤ q ≤ 2 →
  tree_refs (root d') = tree_refs (root d) ∧
  (leaves_ok d (tree_leaves (root d)) → leaves_ok d (tree_leaves (root d'))).
Proof.
  intros Hrun Hc Hq. unfold mqtt3_sub_add, bind, mget, mlift, ret, undefined in Hrun.
  destruct (_sub_topic_tokenise sub) as [ts|]; [|done]. destruct (head ts) as [t|]; [|done].
  destruct (sub_add_root _ _ _ _ _ _) as [[[rc' a] ch]|] eqn:Hadd; [|done].
  assert (Htree : subs_children d' = ch).
  { destruct a; cbn in Hrun; [|by simplify_eq]. unfold upd_context in Hrun. cbn in Hrun.
    destruct (contexts d !! c); [|done]. cbn in Hrun. by simplify_eq. }
  cbn [root tree_refs tree_leaves option_list]. rewrite Htree. clear Hrun Htree.
  set (P := λ lf, is_Some (contexts d !! lf_context lf) ∧ 0 ≤ lf_qos lf ≤ 2).
  assert (HP : (∀ lf, P lf → P (Subleaf (lf_context lf) q)) ∧ (∀ c', Some c = Some c' → P (Subleaf c' q))).
  { unfold P. split; [naive_solver|]. intros ? [= <-]. done. }
  destruct HP as [HP1 HP2]. unfold sub_add_root in Hadd.
  destruct (list_find _ _) as [[i b]|] eqn:Hf.
  - destruct (_sub_add _ _ _ _ _) as [[[rc2 a2] b']|] eqn:Hb; [|done]. simplify_eq/=.
    destruct (sub_add_tree _ _ _ _ _ _ _ _ P Hb HP1 HP2) as [Hr Hl].
    apply list_find_Some in Hf as (Hi & _ & _). split; [by erewrite concat_insert_eq|].
    unfold leaves_ok. destruct (list_insert_split _ i b Hi) as (l1 & l2 & -> & _ & -> & _).
    rewrite !fmap_app, !concat_app. cbn. rewrite !Forall_app. naive_solver.
  - destruct (_sub_add _ _ _ _ _) as [[[rc2 a2] b']|] eqn:Hb; [|done]. simplify_eq/=.
    destruct (sub_add_tree _ _ _ _ _ _ _ _ P Hb HP1 HP2) as [Hr Hl]. rewrite Hr. split; [done|].
    unfold leaves_ok. rewrite Forall_app. intros ?. split; [|done]. apply Hl. constructor.
Qed.

Lemma empty_node_tree h : empty_node h = true → tree_refs h = [] ∧ tree_leaves h = [].
Proof. intros (H1 & H2 & H3)%empty_node_inv. destruct h. cbn in *. by subst. Qed.

Lemma sub_remove_tree c ts h r h' :
  _sub_remove c ts h = (r, h') → tree_refs h' = tree_refs h ∧ tree_leaves h' ⊆ tree_leaves h.
Proof.
  revert h r h'. induction ts as [|t ts IH]; intros h r h' Hrem; cbn [_sub_remove] in Hrem.
  - rewrite remove_leaf_eq in Hrem. injection Hrem as _ <-. destruct h as [th l rh ch]. cbn.
    split; [done|]. pose proof (sublist_subseteq _ _ (drop_leaf_sublist c l)). set_solver.
  - destruct (list_find _ _) as [[i b]|] eqn:Hf; [|by simplify_eq].
    destruct (_sub_remove c ts b) as [r' b'] eqn:Hb. injection Hrem as _ <-.
    apply IH in Hb as [Hr Hl]. apply list_find_Some in Hf as (Hi & _ & _). destruct h as [th l rh ch]. cbn in *.
    destruct (empty_node b') eqn:He.
    + destruct (empty_node_tree _ He) as [He1 He2]. rewrite He1 in Hr.
      split; [by erewrite concat_delete_eq|].
      destruct (list_insert_split ch i b Hi) as (l1 & l2 & -> & _ & _ & ->).
      rewrite !fmap_app, !concat_app. cbn. set_solver.
    + split; [by erewrite concat_insert_eq|].
      pose proof (concat_insert_subseteq tree_leaves ch i b b' Hi Hl). set_solver.
Qed.

Lemma sub_remove_db_tree d d' c sub rc :
  mqtt3_sub_remove c sub d = Some (rc, d') →
  tree_refs (root d') = tree_refs (root d) ∧ tree_leaves (root d') ⊆ tree_leaves (root d).
Proof.
  intros Hrun. unfold mqtt3_sub_remove, bind, mget, mlift, ret, undefined in Hrun.
  destruct (_sub_topic_tokenise sub) as [ts|]; [|done]. destruct (head ts) as [t|]; [|done].
  destruct (list_find _ _) as [[i b]|] eqn:Hf; [|by simplify_eq].
  destruct (_sub_remove c ts b) as [r b'] eqn:Hb.
  assert (Htree : subs_children d' = <[i := b']> (subs_children d)).
  { destruct r; cbn in Hrun; [|by simplify_eq]. unfold upd_context in Hrun. cbn in Hrun.
    destruct (contexts d !! c); [|done]. cbn in Hrun. by simplify_eq. }
  cbn [root tree_refs tree_leaves option_list]. rewrite Htree.
  apply list_find_Some in Hf as (Hi & _ & _). apply sub_remove_tree in Hb as [Hr Hl].
  split; [by erewrite concat_insert_eq|]. cbn [app]. by eapply concat_insert_subseteq.
Qed.

(** ** The invariant with the clients' lists of subscriptions *)

Definition slots_ok (d : db) : Prop := ∀ c x, contexts d !! c = Some x →
  NoDup (occupied (subs x)) ∧
  ∀ p, p ∈ occupied (subs x) ↔ has_leaf c (subs_of p (root d)) = true.

Record broker_ok (pins : list ptr) (d : db) : Prop := {
  bo_db : db_ok pins d;
  bo_slots : slots_ok d;
}.

Lemma occupied_fill p l : occupied (fill_slot p l) ≡ₚ p :: occupied l.
Proof.
  induction l as [|[x|] l IH]; [done| |done]. cbn [fill_slot].
  change (x :: occupied (fill_slot p l) ≡ₚ p :: x :: occupied l). rewrite IH. by constructor.
Qed.

Lemma occupied_clear p l : p ∈ occupied l → p :: occupied (clear_slot p l) ≡ₚ occupied l.
Proof.
  induction l as [|[x|] l IH]; intros Hin; [by apply elem_of_nil in Hin| |].
  - cbn [clear_slot]. case_bool_decide as Hx.
    + injection Hx as ->. done.
    + change (p :: x :: occupied (clear_slot p l) ≡ₚ x :: occupied l).
      change (p ∈ x :: occupied l) in Hin. rewrite (Permutation_swap x p), IH; [done|].
      apply elem_of_cons in Hin as [->|]; [done|done].
  - cbn [clear_slot]. case_bool_decide; [done|]. by apply IH.
Qed.

Lemma drop_leaf_filter c l :
  NoDup (lf_context <$> l) → drop_leaf c l = filter (λ lf, lf_context lf ≠ c) l.
Proof.
  unfold drop_leaf. induction l as [|lf l IH]; intros Hn; [done|].
  cbn in Hn. apply NoDup_cons in Hn as [Hnin Hn]. cbn [list_find].
  destruct (decide (lf_context lf = c)) as [<-|Hne].
  - rewrite filter_cons_False by naive_solver. cbn. symmetry. apply filter_all_id.
    apply Forall_forall. intros lf' Hin Heq. apply Hnin. rewrite <-Heq. by apply list_elem_of_fmap_2.
  - rewrite filter_cons_True, <-IH by done. by destruct (list_find _ l) as [[i lf']|].
Qed.

(** A context's list of subscriptions is not read by its queue. *)
Lemma core_ok_set_subs refs d d' c x f :
  core_ok refs d → contexts d !! c = Some x → dmsg d' = dmsg d →
  contexts d' = <[c := set_subs f x]> (contexts d) → core_ok refs d'.
Proof.
  intros [Hc Hs] Hx Hm Hcx. split; rewrite Hm, Hcx.
  - intros c' y. destruct (decide (c' = c)) as [->|Hne].
    + rewrite lookup_insert_eq. intros [= <-]. destruct (Hc c x Hx) as [Hq ? ? ? ?]. split; try done.
      intros Hid. destruct (Hq Hid). by split.
    + rewrite lookup_insert_ne by done. apply Hc.
  - by rewrite (ctx_refs_same _ _ x).
Qed.

Lemma leaves_ok_dom d d' l :
  (∀ c, is_Some (contexts d !! c) → is_Some (contexts d' !! c)) → leaves_ok d l → leaves_ok d' l.
Proof. intros Hc H. eapply Forall_impl; [exact H|]. intros lf [? ?]. auto. Qed.

(** A change of one path of the tree and of one context's list. *)
Lemma broker_ok_update pins d d' c x p f g :
  broker_ok pins d → contexts d !! c = Some x → dmsg d' = dmsg d →
  contexts d' = <[c := set_subs g x]> (contexts d) →
  subs_ok d' → updates p f (root d) (root d') → tree_refs (root d') = tree_refs (root d) →
  leaves_ok d (tree_leaves (root d')) →
  (∀ c', c' ≠ c → has_leaf c' (f (subs_of p (root d))) = has_leaf c' (subs_of p (root d))) →
  NoDup (occupied (g (subs x))) →
  (∀ p', p' ∈ occupied (g (subs x)) ↔
     if decide (p' = p) then has_leaf c (f (subs_of p (root d))) = true else p' ∈ occupied (subs x)) →
  broker_ok pins d'.
Proof.
  intros [[Hcore Hsubs Hl Hret] Hsl] Hx Hm Hcx Hsubs' [_ Hup _] Hr Hlv Hother Hnd Hocc. split; [split|].
  - rewrite Hr. by eapply core_ok_set_subs.
  - done.
  - eapply leaves_ok_dom; [|exact Hlv]. intros c'. rewrite Hcx, lookup_insert_is_Some'. auto.
  - by rewrite Hr, Hm.
  - intros c' y. rewrite Hcx. destruct (decide (c' = c)) as [->|Hne].
    + rewrite lookup_insert_eq. intros [= <-]. split; [done|]. intros p'. cbn [subs set_subs].
      rewrite Hocc, Hup. destruct (decide (p' = p)) as [->|]; [done|]. by apply Hsl.
    + rewrite lookup_insert_ne by done. intros Hy. destruct (Hsl c' y Hy) as [? Hs]. split; [done|].
      intros p'. rewrite Hs, Hup. destruct (decide (p' = p)) as [->|]; [|done]. by rewrite Hother.
Qed.

Lemma set_subs_id x : set_subs (λ l, l) x = x.
Proof. by destruct x. Qed.

(** Contexts and stored messages as they were, but for the list of
    subscriptions of [c]. *)
Definition same_clients (c : ptr) (d d' : db) : Prop :=
  dmsg d' = dmsg d ∧ tables d' = tables d ∧
  set_subs (λ _, []) <$> contexts d' !! c = set_subs (λ _, []) <$> contexts d !! c ∧
  ∀ c', c' ≠ c → contexts d' !! c' = contexts d !! c'.

Lemma same_clients_id d d' c0 c : same_clients c0 d d' → id <$> contexts d' !! c = id <$> contexts d !! c.
Proof.
  intros (_ & _ & H & Ho). destruct (decide (c = c0)) as [->|Hne]; [|by rewrite Ho].
  destruct (contexts d' !! c0) as [x|], (contexts d !! c0) as [y|]; try done.
  cbn in *. apply (inj Some) in H. apply (f_equal id) in H. cbn in H. by rewrite H.
Qed.

Lemma same_clients_insert d d' c x f :
  contexts d !! c = Some x → dmsg d' = dmsg d → tables d' = tables d → contexts d' = <[c := set_subs f x]> (contexts d) →
  same_clients c d d'.
Proof.
  intros Hx Hm Ht Hc. split_and!; [done|done|by rewrite Hc, lookup_insert_eq, Hx|].
  intros c' Hne. by rewrite Hc, lookup_insert_ne.
Qed.

Lemma subscribe_ok pins d c x cid sub q :
  broker_ok pins d → contexts d !! c = Some x → id x = Some cid → 0 ∉ sub →
  hash_last (tokens sub) → 0 ≤ q ≤ 2 →
  wp (mqtt3_sub_add c sub q) (λ rc d', rc = MOSQ_ERR_SUCCESS ∧ same_clients c d d' ∧ broker_ok pins d') d.
Proof.
  intros Hok Hx Hid H0 Hck Hq. pose proof Hok as [[Hcore Hsubs Hl Hret] Hsl].
  destruct (sub_add_db d c x cid sub Hx Hid H0 (so_tree d Hsubs) q (so_live d Hsubs _) Hck) as (ch' & Hok' & Hup & Heq).
  pose proof (sub_add_db_tree _ _ _ _ _ _ Heq ltac:(by eexists) Hq) as [Hr Hlv].
  assert (Hlc : leaf_id (contexts d) (Subleaf c q) = Some cid) by (unfold leaf_id; cbn; by rewrite Hx).
  unfold wp. rewrite Heq. split; [done|]. cbv zeta in *.
  split; [case_bool_decide; [by eapply same_clients_insert|done]|]. unfold subscribed in *.
  set (l := subs_of (sub_path sub) (root d)) in *.
  assert (Hctx : ∀ c', has_leaf c' (put_leaf (contexts d) cid c q l) =
    has_leaf c' l || bool_decide (c' = c) && bool_decide (client_qos (contexts d) cid l = None)).
  { intros c'. unfold has_leaf. rewrite put_leaf_contexts.
    destruct (decide (client_qos (contexts d) cid l = None)) as [Hn|Hn].
    - rewrite (bool_decide_eq_true_2 (client_qos _ _ _ = None)), andb_true_r, <-bool_decide_or by done.
      apply bool_decide_ext. rewrite elem_of_app, list_elem_of_singleton. done.
    - rewrite (bool_decide_eq_false_2 (client_qos _ _ _ = None)), andb_false_r, orb_false_r by done.
      by rewrite app_nil_r. }
  destruct (Hsl c x Hx) as [Hnd Hocc].
  assert (Hothers : ∀ c', c' ≠ c → has_leaf c' (put_leaf (contexts d) cid c q l) = has_leaf c' l).
  { intros c' Hne. rewrite Hctx, (bool_decide_eq_false_2 (c' = c)) by done. apply orb_false_r. }
  assert (Hsok : ∀ d', subs_children d' = ch' → (∀ c, is_Some (contexts d !! c) → is_Some (contexts d' !! c)) →
    subs_ok d').
  { intros d' Ht Hids. apply (subs_ok_updates d d' (sub_path sub) (put_leaf (contexts d) cid c q)); [done|by rewrite Ht| |done|].
    - cbn in Hup |- *. unfold root. by rewrite Ht.
    - apply put_leaf_ok; [done|by apply so_live|by apply so_one]. }
  case_bool_decide as Hnew.
  - eapply (broker_ok_update pins d _ c x (sub_path sub) (put_leaf (contexts d) cid c q) (fill_slot (sub_path sub)));
      [done|done|done|done| |done|done|by apply Hlv|done|..].
    + apply Hsok; [done|]. intros c'. cbn. rewrite lookup_insert_is_Some'. auto.
    + rewrite occupied_fill. apply NoDup_cons. split; [|done]. rewrite Hocc. fold l.
      unfold has_leaf. rewrite bool_decide_eq_true. intros (lf & Hlf & Hin)%list_elem_of_fmap.
      apply client_qos_None in Hnew. apply Hnew, list_elem_of_fmap. exists lf. split; [|done].
      unfold leaf_id in *. by rewrite <-Hlf.
    + intros p'. rewrite occupied_fill, elem_of_cons. destruct (decide (p' = sub_path sub)) as [->|]; [|naive_solver].
      fold l. rewrite Hctx, !bool_decide_eq_true_2, orb_true_r by done. naive_solver.
  - eapply (broker_ok_update pins d _ c x (sub_path sub) (put_leaf (contexts d) cid c q) (λ l, l));
      [done|done|done| | |done|done|by apply Hlv|done|done|].
    + cbn. by rewrite set_subs_id, insert_id.
    + by apply Hsok.
    + intros p'. rewrite Hocc. destruct (decide (p' = sub_path sub)) as [->|]; [|by rewrite Hocc].
      fold l. by rewrite Hctx, andb_false_r, orb_false_r.
Qed.

Lemma unsubscribe_ok pins d c x sub :
  broker_ok pins d → contexts d !! c = Some x → 0 ∉ sub →
  wp (mqtt3_sub_remove c sub) (λ rc d', rc = MOSQ_ERR_SUCCESS ∧ same_clients c d d' ∧ broker_ok pins d') d.
Proof.
  intros Hok Hx H0. pose proof Hok as [[Hcore Hsubs Hl Hret] Hsl].
  destruct (sub_remove_db d c x sub Hx H0 (so_tree d Hsubs)) as (ch' & Hok' & Hup & Heq).
  pose proof (sub_remove_db_tree _ _ _ _ _ Heq) as [Hr Hlv].
  unfold wp. rewrite Heq. split; [done|]. cbv zeta in *.
  split; [destruct (has_leaf _ _); [by eapply same_clients_insert|done]|].
  set (l := subs_of (sub_path sub) (root d)) in *.
  pose proof (so_one d Hsubs (sub_path sub)) as Hnc. fold l in Hnc.
  assert (Hctx : ∀ c', has_leaf c' (drop_leaf c l) = bool_decide (c' ≠ c) && has_leaf c' l).
  { intros c'. unfold has_leaf. rewrite drop_leaf_filter, <-bool_decide_and by done. apply bool_decide_ext.
    rewrite !list_elem_of_fmap. setoid_rewrite list_elem_of_filter. naive_solver. }
  destruct (Hsl c x Hx) as [Hnd Hocc]. pose proof (drop_leaf_sublist c l) as Hsub.
  assert (Hothers : ∀ c', c' ≠ c → has_leaf c' (drop_leaf c l) = has_leaf c' l).
  { intros c' Hne. by rewrite Hctx, (bool_decide_eq_true_2 (c' ≠ c)). }
  assert (Hsok : ∀ d', subs_children d' = ch' → (∀ c, is_Some (contexts d !! c) → is_Some (contexts d' !! c)) →
    subs_ok d').
  { intros d' Ht Hids. apply (subs_ok_updates d d' (sub_path sub) (drop_leaf c)); [done|by rewrite Ht| |done|].
    - cbn in Hup |- *. unfold root. by rewrite Ht.
    - split; [eapply Forall_subseteq; [apply (sublist_subseteq _ _ Hsub)|by apply so_live]|].
      eapply sublist_NoDup; [by apply (so_one d Hsubs)|]. by apply fmap_sublist. }
  assert (Hlv' : ∀ d', tree_leaves (root d') ⊆ tree_leaves (root d) → leaves_ok d (tree_leaves (root d'))).
  { intros d' ?. by eapply Forall_subseteq. }
  destruct (has_leaf c l) eqn:Hhl.
  - eapply (broker_ok_update pins d _ c x (sub_path sub) (drop_leaf c) (clear_slot (sub_path sub)));
      [done|done|done|done| |done|done|by apply Hlv'|done|..].
    + apply Hsok; [done|]. intros c'. cbn. rewrite lookup_insert_is_Some'. auto.
    + apply Hocc in Hhl. rewrite <-(occupied_clear _ _ Hhl) in Hnd. by apply NoDup_cons in Hnd as [_ ?].
    + apply Hocc in Hhl. pose proof (occupied_clear _ _ Hhl) as Hp. rewrite <-Hp in Hnd.
      apply NoDup_cons in Hnd as [Hnin _]. intros p'. fold l. rewrite Hctx, bool_decide_eq_false_2 by naive_solver.
      destruct (decide (p' = sub_path sub)) as [->|]; [naive_solver|].
      rewrite <-Hp, elem_of_cons. naive_solver.
  - eapply (broker_ok_update pins d _ c x (sub_path sub) (drop_leaf c) (λ l, l));
      [done|done|done| | |done|done|by apply Hlv'|done|done|].
    + cbn. by rewrite set_subs_id, insert_id.
    + by apply Hsok.
    + intros p'. rewrite Hocc. destruct (decide (p' = sub_path sub)) as [->|]; [|by rewrite Hocc].
      fold l. rewrite Hctx, Hhl, andb_false_r. done.
Qed.

Lemma has_leaf_filter c c' l :
  has_leaf c' (filter (λ lf, lf_context lf ≠ c) l) = bool_decide (c' ≠ c) && has_leaf c' l.
Proof.
  unfold has_leaf. rewrite <-bool_decide_and. apply bool_decide_ext.
  rewrite !list_elem_of_fmap. setoid_rewrite list_elem_of_filter. naive_solver.
Qed.

Lemma has_leaf_false c l : has_leaf c l = false → filter (λ lf, lf_context lf ≠ c) l = l.
Proof.
  intros H%bool_decide_eq_false. apply filter_all_id, Forall_forall. intros lf Hin Heq.
  apply H. rewrite <-Heq. by apply list_elem_of_fmap_2.
Qed.

Lemma clean_session_ok pins d c x :
  broker_ok pins d → contexts d !! c = Some x →
  wp (mqtt3_subs_clean_session c) (λ rc d', rc = MOSQ_ERR_SUCCESS ∧ broker_ok pins d' ∧
    (∀ p, subs_of p (root d') = filter (λ lf, lf_context lf ≠ c) (subs_of p (root d))) ∧
    (∀ p, retained_at d' p = retained_at d p) ∧
    contexts d' = <[c := set_subs (λ _, []) x]> (contexts d) ∧ dmsg d' = dmsg d ∧ tables d' = tables d ∧
    subscription_count d' = subscription_count d - Z.of_nat (length (occupied (subs x)))) d.
Proof.
  intros [[Hcore Hsubs Hl Hret] Hsl] Hx. destruct (Hsl c x Hx) as [Hnd Hocc].
  assert (Helem : ∀ p, Some p ∈ subs x ↔ p ∈ occupied (subs x)).
  { intros p. unfold occupied. rewrite list_elem_of_omap. split; [eauto|]. by intros (o & ? & ->). }
  destruct (clean_slots_spec c (subs x) (subs_children d) (so_tree d Hsubs) Hnd)
    as (ch' & Hrun & Hok' & Hr & Hs & Hrt).
  { intros p Hp. by apply Hocc, Helem. }
  assert (Hsf : ∀ p, subs_of p (forest ch') = filter (λ lf, lf_context lf ≠ c) (subs_of p (root d))).
  { intros p. rewrite Hs. destruct (decide _) as [Hp|Hp].
    - apply drop_leaf_filter. by apply (so_one d).
    - symmetry. apply has_leaf_false. rewrite Helem, Hocc in Hp. by apply not_true_iff_false. }
  unfold mqtt3_subs_clean_session. apply wp_bind, (wp_get_context _ x); [done|].
  apply wp_bind, wp_get, wp_bind. eapply wp_lift; [exact Hrun|]. cbv beta iota.
  apply wp_bind, wp_modify, wp_bind, wp_modify, wp_bind. unfold wp, upd_context. cbn [contexts set_subscription_count set_subs_children].
  rewrite Hx. cbn [mbind option_bind]. set (d' := set_contexts _ _).
  assert (Hroot : root d' = forest ch') by done.
  split_and!; [done| |done|done|done|done|done|done]. split; [split|].
  - rewrite Hroot, Hr. by eapply core_ok_set_subs.
  - split; [done|..]; intros p; rewrite Hroot, Hsf.
    + eapply Forall_subseteq; [apply list_subseteq_filter|].
      eapply Forall_impl; [by apply (so_live d Hsubs)|]. intros lf. cbn.
      rewrite lookup_insert_is_Some'. auto.
    + eapply sublist_NoDup; [apply (so_one d Hsubs p)|]. apply fmap_sublist, sublist_filter.
  - rewrite Hroot. eapply (leaves_ok_dom d); [|apply leaves_subs; [done|]].
    + intros c'. cbn. rewrite lookup_insert_is_Some'. auto.
    + intros p. rewrite Hsf. eapply Forall_subseteq, Hl.
      etrans; [apply list_subseteq_filter|apply sublist_subseteq, subs_of_sublist].
  - by rewrite Hroot, Hr.
  - intros c' y. cbn [contexts d' set_contexts]. rewrite Hroot. destruct (decide (c' = c)) as [->|Hne].
    + rewrite lookup_insert_eq. intros [= <-]. split; [apply NoDup_nil_2|]. intros p.
      rewrite Hsf, has_leaf_filter, bool_decide_eq_false_2 by naive_solver. set_solver.
    + rewrite lookup_insert_ne by done. intros Hy. destruct (Hsl c' y Hy) as [? Ho]. split; [done|].
      intros p. by rewrite Ho, Hsf, has_leaf_filter, bool_decide_eq_true_2.
Qed.

Lemma slots_ok_tie d d' :
  slots_ok d → (∀ c, tie <$> contexts d' !! c = tie <$> contexts d !! c) →
  (∀ p, subs_of p (root d') = subs_of p (root d)) → slots_ok d'.
Proof.
  intros Hsl Hids Hs c x Hx. specialize (Hids c). rewrite Hx in Hids.
  destruct (contexts d !! c) as [y|] eqn:Hy; [|done]. cbn in Hids.
  assert (subs x = subs y) as -> by (unfold tie, conn in Hids; congruence). destruct (Hsl c y Hy) as [? Ho]. split; [done|]. intros p. by rewrite Hs, Ho.
Qed.

Lemma publish_ok E acl_check pins d source topic q r stored :
  broker_ok pins d → sendable (dmsg d) stored → 0 ≤ q ≤ 2 → 0 ∉ topic → wildcard_free topic →
  wp (mqtt3_db_messages_queue E acl_check source topic q r stored) (λ '(rc, o) d', broker_ok pins d' ∧
    keeps pins (dmsg d) (dmsg d') ∧ (∀ c, tie <$> contexts d' !! c = tie <$> contexts d !! c) ∧
    tables d' = tables d ∧ rc = MOSQ_ERR_SUCCESS ∧ o = (λ _, stored) <$> heap (dmsg d') !! stored) d.
Proof.
  intros [Hdb Hsl] Hs Hq H0 Hck. eapply wp_mono; [by apply (messages_queue_spec E acl_check pins)|].
  intros [rc o] d' (-> & Hdb' & Hk & Hids & Htb & Hsubs & _ & Ho). split; [|done]. split; [done|].
  by apply (slots_ok_tie d).
Qed.

Lemma broker_ok_step pins d d' :
  broker_ok pins d → core_step (tree_refs (root d) ++ pins) d d' → broker_ok pins d'.
Proof.
  intros [[Hcore Hsubs Hl Hret] Hsl] [Hok Hf].
  assert (Hroot : root d' = root d) by (unfold root; by rewrite (fr_tree _ _ _ Hf)).
  split; [split|]; rewrite ?Hroot.
  - done.
  - destruct Hsubs as [Ht Hi Ho]. split; rewrite ?(fr_tree _ _ _ Hf), ?Hroot; [done| |done]. intros p.
    eapply Forall_impl; [apply Hi|]. intros lf. by apply (frame_live _ _ _ _ Hf).
  - by eapply leaves_ok_frame.
  - rewrite Forall_forall in Hret |- *. intros s Hs. eapply frame_sendable; [done|set_solver|auto].
  - apply (slots_ok_tie d); [done|apply Hf|by rewrite Hroot].
Qed.

Lemma retain_queue_ok E acl_check pins d c sub q :
  broker_ok pins d → is_Some (contexts d !! c ≫= id) → 0 ∉ sub → 0 ≤ q ≤ 2 →
  wp (mqtt3_retain_queue E acl_check c sub q) (λ rc d', rc = MOSQ_ERR_SUCCESS ∧ broker_ok pins d' ∧
    core_step (tree_refs (root d) ++ pins) d d') d.
Proof.
  intros Hok Hc H0 Hq. pose proof Hok as [[Hcore Hsubs Hl Hret] Hsl].
  eapply wp_mono; [apply (retain_queue_spec E acl_check c q Hq sub (tree_refs (root d) ++ pins)); [done|]|].
  - split_and!; [done|set_solver|done|done].
  - intros rc d' [-> Hst]. split; [done|]. split; [|done]. by eapply broker_ok_step.
Qed.

(** ** Properties *)

(** The operations a packet handler performs on the shared state. *)
Inductive broker_op :=
| OpSubscribe (c : ptr) (sub : bytes) (q : Z)
| OpUnsubscribe (c : ptr) (sub : bytes)
| OpRetained (c : ptr) (sub : bytes) (q : Z)
| OpCleanSession (c : ptr)
| OpPublish (source : option bytes) (topic : bytes) (q : Z) (r : bool) (stored : ptr).

Section ops.
Context (E : env) (acl_check : mosquitto → bytes → Z → Z).

Definition run_broker_op (op : broker_op) : M db unit :=
  match op with
  | OpSubscribe c sub q => mqtt3_sub_add c sub q ;;; ret tt
  | OpUnsubscribe c sub => mqtt3_sub_remove c sub ;;; ret tt
  | OpRetained c sub q => mqtt3_retain_queue E acl_check c sub q ;;; ret tt
  | OpCleanSession c => mqtt3_subs_clean_session c ;;; ret tt
  | OpPublish source topic q r stored =>
      mqtt3_db_messages_queue E acl_check source topic q r stored ;;; ret tt
  end.

Fixpoint run_broker_ops (ops : list broker_op) : M db unit :=
  match ops with [] => ret tt | op :: ops' => run_broker_op op ;;; run_broker_ops ops' end.

(** What the handlers check before: the topic or filter is valid, the QoS is,
    the client is connected, and a message to publish is held. *)
Definition broker_op_pre (pins : list ptr) (d : db) (op : broker_op) : Prop :=
  match op with
  | OpSubscribe c sub q => is_Some (contexts d !! c ≫= id) ∧ 0 ∉ sub ∧
      mosquitto_sub_topic_check sub = MOSQ_ERR_SUCCESS ∧ 0 ≤ q ≤ 2
  | OpUnsubscribe c sub => is_Some (contexts d !! c ≫= id) ∧ 0 ∉ sub
  | OpRetained c sub q => is_Some (contexts d !! c ≫= id) ∧ 0 ∉ sub ∧ 0 ≤ q ≤ 2
  | OpCleanSession c => is_Some (contexts d !! c ≫= id)
  | OpPublish _ topic q _ stored => 0 ∉ topic ∧ 0 ≤ q ≤ 2 ∧
      mosquitto_pub_topic_check topic = MOSQ_ERR_SUCCESS ∧ stored ∈ pins ∧ sendable (dmsg d) stored
  end.

(** A step that lets the following operations go on. *)
Definition broker_step (pins : list ptr) (d d' : db) : Prop :=
  broker_ok pins d' ∧ keeps pins (dmsg d) (dmsg d') ∧
  ∀ c, id <$> contexts d' !! c = id <$> contexts d !! c.

Lemma broker_op_pre_step pins d d' op :
  broker_step pins d d' → broker_op_pre pins d op → broker_op_pre pins d' op.
Proof.
  intros (_ & Hk & Hids).
  assert (Hc : ∀ c, is_Some (contexts d !! c ≫= id) → is_Some (contexts d' !! c ≫= id)).
  { intros c. specialize (Hids c). destruct (contexts d !! c), (contexts d' !! c); try done.
    cbn in *. by injection Hids as ->. }
  destruct op; cbn; [naive_solver..|]. intros (? & ? & ? & ? & ?). split_and!; try done; try lia.
  by eapply keeps_sendable.
Qed.

Lemma broker_op_ok pins d op :
  broker_ok pins d → broker_op_pre pins d op → wp (run_broker_op op) (λ _ d', broker_step pins d d') d.
Proof.
  assert (Hctx : ∀ c, is_Some (contexts d !! c ≫= id) →
    ∃ x cid, contexts d !! c = Some x ∧ id x = Some cid).
  { intros c [cid Hc]. destruct (contexts d !! c) as [x|]; [|done]. eauto. }
  intros Hok Hpre. destruct op as [c sub q|c sub|c sub q|c|src topic q r stored]; cbn in *; apply wp_bind.
  - destruct Hpre as ((x & cid & Hx & Hid)%Hctx & H0 & Hck & Hq).
    eapply wp_mono; [eapply subscribe_ok; try done; by apply filter_ok_tokens, sub_topic_check_ok|].
    intros rc d' (_ & Hsame & ?). apply wp_ret. pose proof Hsame as [Hm _].
    split_and!; [done| |intros; by eapply same_clients_id]. intros s _. by rewrite Hm.
  - destruct Hpre as ((x & cid & Hx & Hid)%Hctx & H0).
    eapply wp_mono; [by eapply unsubscribe_ok|]. intros rc d' (_ & Hsame & ?). apply wp_ret.
    pose proof Hsame as [Hm _]. split_and!; [done| |intros; by eapply same_clients_id].
    intros s _. by rewrite Hm.
  - destruct Hpre as (Hc & H0 & Hq).
    eapply wp_mono; [by eapply retain_queue_ok|]. intros rc d' (_ & Hok' & _ & [Hk Hi _ _]).
    apply wp_ret. split_and!; [done| |].
    + intros s Hs. apply Hk. set_solver.
    + intros c'. specialize (Hi c'). unfold tie, conn in Hi.
      destruct (contexts d !! c'), (contexts d' !! c'); cbn in *; congruence.
  - apply Hctx in Hpre as (x & cid & Hx & Hid).
    eapply wp_mono; [by eapply clean_session_ok|]. intros rc d' (_ & Hok' & _ & _ & Hc & Hm & _). apply wp_ret.
    split_and!; [done|intros s _; by rewrite Hm|]. intros c'. rewrite Hc.
    destruct (decide (c' = c)) as [->|]; [by rewrite lookup_insert_eq, Hx|by rewrite lookup_insert_ne].
  - destruct Hpre as (H0 & Hq & Hck & Hin & Hs).
    eapply wp_mono; [apply (publish_ok E acl_check pins); try done; by eapply pub_topic_scan_free|].
    intros [rc o] d' (Hok' & Hk & Hi & _). apply wp_ret.
    split_and!; [done|done|]. intros c'. specialize (Hi c'). unfold tie, conn in Hi.
    destruct (contexts d !! c'), (contexts d' !! c'); cbn in *; congruence.
Qed.

(** C9: every sequence of subscriptions, unsubscriptions, publications, retained
    deliveries and session clean-ups, in any order and by any clients, runs to
    its end without touching freed memory, and keeps the broker consistent:
    reference counts are exact, the tree is well formed, and every client's
    list of subscriptions names exactly the nodes that have a leaf of it. *)
Theorem broker_ops_safe pins ops d :
  broker_ok pins d → Forall (broker_op_pre pins d) ops →
  ∃ d', run_broker_ops ops d = Some (tt, d') ∧ broker_ok pins d'.
Proof.
  intros Hok Hpre. revert d Hok Hpre. induction ops as [|op ops IH]; intros d Hok Hpre; [by eauto|].
  apply Forall_cons in Hpre as [Hp Hpre].
  destruct (wp_inv _ _ _ (broker_op_ok pins d op Hok Hp)) as ([] & d1 & Hrun & Hst).
  destruct (IH d1) as (d' & Hrun' & Hok'); [apply Hst| |].
  - eapply Forall_impl; [exact Hpre|]. intros op'. by apply broker_op_pre_step.
  - exists d'. split; [|done]. cbn [run_broker_ops]. unfold bind. by rewrite Hrun.
Qed.
End ops.

(** Cleaning a session removes every subscription of the client and nothing
    else: no leaf of its context is left anywhere in the tree, so freeing the
    context leaves no dangling pointer, while other clients' subscriptions and
    all retained messages stay. *)
Lemma clean_session_complete pins d c x :
  broker_ok pins d → contexts d !! c = Some x →
  ∃ d', mqtt3_subs_clean_session c d = Some (MOSQ_ERR_SUCCESS, d') ∧ broker_ok pins d' ∧
    (∀ p, subs_of p (root d') = filter (λ lf, lf_context lf ≠ c) (subs_of p (root d))) ∧
    (∀ p, retained_at d' p = retained_at d p) ∧
    subscription_count d' = subscription_count d - Z.of_nat (length (occupied (subs x))).
Proof.
  intros Hok Hx. destruct (wp_inv _ _ _ (clean_session_ok pins d c x Hok Hx))
    as (rc & d' & Hrun & -> & ? & ? & ? & _ & _ & _ & ?). eauto 8.
Qed.

(** ** Examples *)

Lemma sample_broker_ok : broker_ok [1%positive] sample_broker ∧ sendable (dmsg sample_broker) 1.
Proof.
  destruct sample_cm_ok as [Hcm Hs]. split; [|exact Hs]. apply cm_ok_split in Hcm as [Hcx Hst].
  assert (Hnil : ∀ p, subs_of p (root sample_broker) = []).
  { intros p. pose proof (subs_of_sublist p (root sample_broker)) as H. cbn in H. by apply sublist_nil_r in H. }
  split; [split|].
  - split; [|exact Hst]. intros c x Hx. cbn in Hx. apply lookup_singleton_Some in Hx as [_ <-].
    destruct Hcx as [Hq ? ? ? ?]. destruct (Hq ltac:(by eexists)). by split; [split|..].
  - apply sample_broker_subs.
  - constructor.
  - constructor.
  - intros c x Hx. cbn in Hx. apply lookup_singleton_Some in Hx as [_ <-].
    split; [apply NoDup_nil_2|]. intros p. rewrite Hnil. cbn. set_solver.
Qed.

Lemma broker_ops_safe_witness :
  ∃ d', run_broker_ops sample_env (λ _ _ _, 0)
      [OpSubscribe 1 (str "a/+") 1; OpPublish (Some (str "src")) (str "a/b") 1 true 1;
       OpSubscribe 1 (str "#") 2; OpRetained 1 (str "#") 2; OpUnsubscribe 1 (str "a/+");
       OpPublish (Some (str "src")) (str "$SYS/x") 0 true 1; OpCleanSession 1] sample_broker = Some (tt, d') ∧
    broker_ok [1%positive] d'.
Proof.
  destruct sample_broker_ok as [Hok Hs]. apply broker_ops_safe; [exact Hok|].
  assert (Hid : is_Some (contexts sample_broker !! 1%positive ≫= id)) by (by eexists).
  repeat (apply Forall_cons; split; [cbn [broker_op_pre]|]); [..|apply Forall_nil; exact I];
    split_and?; first [exact Hid|exact Hs|lia|reflexivity|by_compute].
Defined.
