(* ===== verification/Context.v ===== *)
(** * Contexts (src/context.c, src/loop.c, src/database.c, lib/net_mosq.c)

    The life of a client's context: creation, release of the messages it
    sent, wills, closing the socket, disconnection, and freeing. The check of
    access is an interface: these operations, and the packet handlers, use
    only what [Access] promises. *)

From stdpp Require Import base list numbers strings option sets gmap.
From Stdlib Require Import ZArith Lia.
From S2P Require Import Prelude Topic Packet State Store Send Messages Db Subs Acl.
Local Open Scope Z_scope.
Local Open Scope broker_scope.

(** What the broker asks of its access control ([mosquitto_acl_check],
    [mosquitto_unpwd_check]), and the entry of [db->acl_list] that a user gets
    in place of the one it had. *)
Class Access := {
  acl_check : mosquitto → bytes → Z → Z;
  unpwd_check : option bytes → option bytes → Z;
  acl_entry : option bytes → option nat → option nat;
}.

(** The loop over [db->acl_list] that finds the entry of a user. *)
Fixpoint find_acl (l : list acl_user) (user : option bytes) (i : nat) : option nat :=
  match l with
  | [] => None
  | u :: l' => if same_user user (au_username u) then Some i else find_acl l' user (S i)
  end.

(** [context->acl_list] when a connection is accepted: a user without an entry
    keeps the one it had, and without any ACL of users there is none. *)
Definition connect_acl (sec : security) (user : option bytes) (old : option nat) : option nat :=
  match sec_acl_list sec with
  | [] => None
  | l => match find_acl l user 0 with Some i => Some i | None => old end
  end.

(** The access control is that of security.c: it answers what the checks
    answer, wherever they are defined, and gives a client the entry of its
    user. The operations of the broker are defined and treated for every
    access control; nothing is assumed of the answer where a check is
    undefined. *)
Record secured (sha512 : option (bytes → bytes)) (sec : security) (A : Access) : Prop := {
  sc_acl x topic access rc : mosquitto_acl_check sec x topic access = Some rc → acl_check x topic access = rc;
  sc_unpwd user password rc : mosquitto_unpwd_check sha512 sec user password = Some rc → unpwd_check user password = rc;
  sc_entry user old : acl_entry user old = connect_acl sec user old;
}.

Section context.
Context (E : env) `{Access}.

Abbreviation messages_queue := (mqtt3_db_messages_queue E acl_check).

(** ** [mqtt3_db_message_release] *)

(** A queued message within the first [max_inflight] is made ready; the
    reception of an incoming one is acknowledged first. *)
Definition release_ready (c : ptr) (i : nat) (m : client_msg) : M db unit :=
  (match direction m with
   | mosq_md_in => if qos m =? 2 then on_context c (_mosquitto_send_pubrec E (mid m)) ;;; ret tt else ret tt
   | mosq_md_out => ret tt
   end) ;;;
  on_cm c (upd_msg i (make_ready E)).

(** The rounds of the loop from index [i] up to a message to release ([inr]:
    its index, and [msg_index] there), or to the end ([inl]: the code
    returned). *)
Fixpoint release_scan (n : nat) (c : ptr) (rmid : Z) (dir : msg_direction) (i : nat) (msg_index : Z)
    (deleted : bool) : M db (Z + nat * Z) :=
  let* x := get_context c in
  match msgs x !! i with
  | None => ret (inl (if deleted then MOSQ_ERR_SUCCESS else 1))
  | Some m =>
      match n with
      | O => undefined
      | S n' =>
          let msg_index := msg_index + 1 in
          (if bool_decide (state m = mosq_ms_queued) && (msg_index <=? max_inflight E)
           then release_ready c i m else ret tt) ;;;
          if (mid m =? rmid) && bool_decide (direction m = dir) then ret (inr (i, msg_index))
          else if (max_inflight E <? msg_index) && deleted then ret (inl MOSQ_ERR_SUCCESS)
          else release_scan n' c rmid dir (S i) msg_index deleted
      end
  end.

(** A message is published, unless it was refused, and taken out of the
    queue. Publishing may add messages to the same queue: the message is
    found again by its address. *)
Definition release_one (c : ptr) (i : nat) : M db (option nat) :=
  let* x := get_context c in
  let* m := mlift (msgs x !! i) in
  let* d := mget in
  let* st := mlift (deref_store (cm_store m) (dmsg d)) in
  let* rc := match ms_topic st with
             | None => ret 0
             | Some topic =>
                 let* (rc, o) := messages_queue (Some (source_id st)) topic (ms_qos st) (retain m) (cm_store m) in
                 massert (bool_decide (o = Some (cm_store m))) ;;;
                 ret rc
             end in
  if rc =? 0 then
    let* x := get_context c in
    let* (j, _) := mlift (list_find (λ y, cm_ptr y = cm_ptr m) (msgs x)) in
    on_cm c (_message_remove E j) ;;;
    ret (Some j)
  else ret None.

(** Each round of [release_loop] takes a message out. *)
Fixpoint release_loop (k : nat) (c : ptr) (rmid : Z) (dir : msg_direction) (i : nat) (msg_index : Z)
    (deleted : bool) : M db Z :=
  let* x := get_context c in
  let* r := release_scan (length (msgs x)) c rmid dir i msg_index deleted in
  match r, k with
  | inl rc, _ => ret rc
  | inr _, O => undefined
  | inr (j, msg_index), S k' =>
      let* o := release_one c j in
      match o with
      | None => ret 1
      | Some j =>
          if max_inflight E <? msg_index then ret MOSQ_ERR_SUCCESS
          else release_loop k' c rmid dir j msg_index true
      end
  end.

Definition mqtt3_db_message_release (c : ptr) (rmid : Z) (dir : msg_direction) : M db Z :=
  let* x := get_context c in
  release_loop (length (msgs x)) c rmid dir 0 0 false.

(** ** [mqtt3_db_message_timeout_check] *)

Fixpoint timeout_contexts (timeout : Z) (l : list (Z * ptr)) : M db unit :=
  match l with
  | [] => ret tt
  | (_, c) :: l' => on_cm c (timeout_context E timeout) ;;; timeout_contexts timeout l'
  end.
Definition mqtt3_db_message_timeout_check (timeout : Z) : M db Z :=
  let* d := mget in
  timeout_contexts timeout (contexts_by_sock d) ;;;
  ret MOSQ_ERR_SUCCESS.

(** ** [mqtt3_db_messages_easy_queue] *)

Definition mqtt3_db_messages_easy_queue (c : option ptr) (topic : bytes) (q : Z) (pl : bytes) (r : bool)
    : M db Z :=
  let* sid := match c with
              | Some c => let* x := get_context c in ret (default [] (id x))
              | None => ret []
              end in
  let* stored := on_store (λ d, Some (mqtt3_db_message_store sid 0 (Some topic) q pl r 0 d)) in
  let* (rc, _) := messages_queue (Some sid) topic q r stored in
  ret rc.

(** ** Closing and disconnecting *)

(** [None]: the context is not in the table, or the listener's count would be
    negative. *)
Definition _mosquitto_socket_close (c : ptr) : M db unit :=
  let* x := get_context c in
  (match sock x with
   | Some _ =>
       let* d := mget in
       massert (bool_decide (c ∈ (contexts_by_sock d).*2)) ;;;
       mmodify (set_by_sock (filter (λ e, e.2 ≠ c))) ;;;
       upd_context c (set_sock (λ _, None))
   | None => ret tt
   end) ;;;
  match listener x with
  | Some l =>
      let* d := mget in
      let* n := mlift (client_counts d !! l) in
      massert (0 <=? n - 1) ;;;
      mmodify (set_client_counts (<[l := n - 1]>)) ;;;
      upd_context c (set_listener (λ _, None))
  | None => ret tt
  end.

Definition mqtt3_context_send_will (c : ptr) : M db unit :=
  let* x := get_context c in
  (match will x with
   | Some w =>
       if negb (bool_decide (cstate x = mosq_cs_disconnecting))
          && (acl_check x (m_topic w) MOSQ_ACL_WRITE =? MOSQ_ERR_SUCCESS)
       then mqtt3_db_messages_easy_queue (Some c) (m_topic w) (m_qos w) (m_payload w) (m_retain w) ;;; ret tt
       else ret tt
   | None => ret tt
   end) ;;;
  upd_context c (set_will (λ _, None)).

Definition mqtt3_context_disconnect (c : ptr) : M db unit :=
  mqtt3_context_send_will c ;;;
  upd_context c (set_disconnect_t (λ _, wall_clock E)) ;;;
  _mosquitto_socket_close c.

Definition mosquitto__add_context_to_disused (c : ptr) : M db unit :=
  mmodify (set_ll_for_free (λ l, c :: l)).

(** [HASH_DELETE(hh_id, ...)], and the id is freed. *)
Definition forget_id (c : ptr) : M db unit :=
  let* x := get_context c in
  match id x with
  | Some _ =>
      let* d := mget in
      massert (bool_decide (c ∈ (contexts_by_id d).*2)) ;;;
      mmodify (set_by_id (filter (λ e, e.2 ≠ c))) ;;;
      upd_context c (set_id (λ _, None))
  | None => ret tt
  end.

Definition do_disconnect (c : ptr) : M db unit :=
  let* x := get_context c in
  if bool_decide (cstate x = mosq_cs_disconnected) then ret tt
  else
    mqtt3_context_disconnect c ;;;
    let* x := get_context c in
    (if clean_session x && bool_decide (c_bridge x = None)
     then mosquitto__add_context_to_disused c ;;; forget_id c
     else ret tt) ;;;
    upd_context c (set_cstate (λ _, mosq_cs_disconnected)).

(** ** Creating and freeing *)

(** [calloc] and the fields that are set; [None] for the socket: a bridge's
    context. *)
Definition new_context (s : option Z) : mosquitto :=
  Mosquitto s mosq_p_invalid None None None 60 0 mosq_cs_new (now E) (now E + 60) 0
    (_mosquitto_packet_cleanup packet_zero) None [] None true false false None [] None 0 0 None None 0 [] [] [] [].

(** [c] is the address the allocator gives; [address_ok] tells whether the
    peer's address can be had. *)
Definition mqtt3_context_init (c : ptr) (s : option Z) (address_ok : bool) : M db (option ptr) :=
  let* d := mget in
  massert (bool_decide (contexts d !! c = None)) ;;;
  match s with
  | Some fd =>
      if address_ok then
        mmodify (set_contexts (<[c := new_context s]>)) ;;;
        mmodify (set_by_sock (λ l, l ++ [(fd, c)])) ;;;
        ret (Some c)
      else ret None
  | None => mmodify (set_contexts (<[c := new_context s]>)) ;;; ret (Some c)
  end.

(** The names of the client, and of the bridge. *)
Definition clear_names (c : ptr) : M db unit :=
  let* x := get_context c in
  upd_context c (λ x, set_password (λ _, None) (set_username (λ _, None) x)) ;;;
  match c_bridge x with
  | Some b =>
      mmodify (set_bridges (fmap (λ o, if bool_decide (o = Some c) then None else o))) ;;;
      upd_context c (set_bridge (λ _, Some (clear_identity b)))
  | None => ret tt
  end.

Definition mqtt3_context_cleanup (c : ptr) (do_free : bool) : M db unit :=
  clear_names c ;;;
  _mosquitto_socket_close c ;;;
  let* x := get_context c in
  (if do_free || clean_session x
   then mqtt3_subs_clean_session c ;;; on_cm c mqtt3_db_messages_delete ;;; ret tt
   else ret tt) ;;;
  mqtt3_context_send_will c ;;;
  forget_id c ;;;
  upd_context c (λ x, set_out_packet (λ _, []) (set_current_out (λ _, None)
                (set_in_packet _mosquitto_packet_cleanup x))) ;;;
  (if do_free || clean_session x
   then
     let* x := get_context c in
     on_store (deref_msgs (msgs x)) ;;;
     upd_context c (λ x, set_last_msg (λ _, None) (set_msgs (λ _, []) x))
   else ret tt) ;;;
  if do_free then mmodify (set_contexts (delete c)) else ret tt.

(** The listeners that have the socket [listensock] count the client; the last
    one is its own. [socks] are the listeners' sockets. *)
Fixpoint assign_listener (c : ptr) (listensock : Z) (socks : list (list Z)) (i : nat) : M db unit :=
  match socks with
  | [] => ret tt
  | s :: socks' =>
      (if bool_decide (listensock ∈ s) then
         upd_context c (set_listener (λ _, Some i)) ;;;
         let* d := mget in
         let* n := mlift (client_counts d !! i) in
         mmodify (set_client_counts (<[i := n + 1]>))
       else ret tt) ;;;
      assign_listener c listensock socks' (S i)
  end.

(** [fd] is what [accept] returns, [nonblock] tells whether the socket could be
    made non-blocking, [c] and [address_ok] are as for [mqtt3_context_init];
    [max_connections] are the listeners'. The listeners use no TLS. *)
Definition mqtt3_socket_accept (socks : list (list Z)) (max_connections : list Z) (listensock : Z)
    (fd : option Z) (nonblock : bool) (c : ptr) (address_ok : bool) : M db Z :=
  match fd with
  | None => ret (-1)
  | Some s =>
      if negb nonblock then ret (-1)
      else
        let* o := mqtt3_context_init c (Some s) address_ok in
        match o with
        | None => ret (-1)
        | Some c =>
            assign_listener c listensock socks 0 ;;;
            let* x := get_context c in
            match listener x with
            | None => mqtt3_context_cleanup c true ;;; ret (-1)
            | Some l =>
                let* d := mget in
                let* n := mlift (client_counts d !! l) in
                let* m := mlift (max_connections !! l) in
                if (0 <? m) && (m <? n) then mqtt3_context_cleanup c true ;;; ret (-1) else ret s
            end
        end
  end.

Fixpoint free_contexts (l : list ptr) : M db unit :=
  match l with
  | [] => ret tt
  | c :: l' => mqtt3_context_cleanup c true ;;; free_contexts l'
  end.
Definition mosquitto__free_disused_contexts : M db unit :=
  let* d := mget in
  free_contexts (ll_for_free d) ;;;
  mmodify (set_ll_for_free (λ _, [])).

(** ** Opening and closing the database *)

(** [mqtt3_db_open] on a zeroed [struct mosquitto_db], without a file to
    restore: the tree has its two top nodes. *)
Definition mqtt3_db_open (listeners : nat) : Z * db :=
  (0, Db ∅ (MsgDb ∅ [] 0 0 0 1) [Subhier [] [] None []; Subhier (str "$SYS") [] None []] 0 0 [] [] []
        (replicate listeners 0) []).

(** A node is freed with its leaves; its retained message is released before
    its children. *)
Fixpoint subhier_clean (h : subhier) : M db unit :=
  match h with
  | Subhier _ _ retained children =>
      (match retained with
       | Some s => on_store (mosquitto__db_msg_store_deref s) ;;; ret tt
       | None => ret tt
       end) ;;;
      (fix clean_list (l : list subhier) : M db unit :=
         match l with [] => ret tt | h' :: l' => subhier_clean h' ;;; clean_list l' end) children
  end.
Fixpoint subhier_clean_list (l : list subhier) : M db unit :=
  match l with [] => ret tt | h :: l' => subhier_clean h ;;; subhier_clean_list l' end.

Definition mqtt3_db_close : M db Z :=
  let* d := mget in
  subhier_clean_list (subs_children d) ;;;
  mmodify (set_subs_children (λ _, [])) ;;;
  on_store (λ m, m' ← mosquitto__db_msg_store_clean m; Some (tt, m')) ;;;
  ret MOSQ_ERR_SUCCESS.

(** ** The end of the program *)

(** [HASH_ITER(hh_id, ...)]: the wills, and then the contexts; a will may be
    queued for the others. *)
Fixpoint send_wills (l : list ptr) : M db unit :=
  match l with [] => ret tt | c :: l' => mqtt3_context_send_will c ;;; send_wills l' end.

(** The entries of [bridges] that are not NULL. *)
Fixpoint free_bridges (n : nat) (i : nat) : M db unit :=
  match n with
  | O => ret tt
  | S n' =>
      let* d := mget in
      let* b := mlift (bridges d !! i) in
      (match b with Some c => mqtt3_context_cleanup c true | None => ret tt end) ;;;
      free_bridges n' (S i)
  end.

(** The contexts that have an id, those that have a socket, the bridges, the
    contexts that wait to be freed, and the database. *)
Definition free_all : M db unit :=
  let* d := mget in
  free_contexts (contexts_by_id d).*2 ;;;
  let* d := mget in
  free_contexts (contexts_by_sock d).*2 ;;;
  let* d := mget in
  free_bridges (length (bridges d)) 0 ;;;
  mmodify (set_bridges (λ _, [])) ;;;
  mosquitto__free_disused_contexts ;;;
  mqtt3_db_close ;;;
  ret tt.

(** ** The passes of the main loop *)

(** A client that was silent for too long is disconnected; for the others the
    queue is written. The result is the entry for [poll]: whether the socket
    is also to be written. *)
Definition check_client (now : Z) (c : ptr) : M db (option bool) :=
  let* x := get_context c in
  if bool_decide (sock x = None) then ret None
  else if (keepalive x =? 0) || bool_decide (is_Some (c_bridge x))
          || (now - c_last_msg_in x <? Z.quot (keepalive x * 3) 2)
  then
    let* rc := on_cm c (mqtt3_db_message_write E) in
    if rc =? MOSQ_ERR_SUCCESS then
      let* x := get_context c in
      ret (Some (bool_decide (is_Some (current_out_packet x)) || bool_decide (cstate x = mosq_cs_connect_pending)))
    else do_disconnect c ;;; ret None
  else do_disconnect c ;;; ret None.

(** Persistent clients that stayed away for longer than [expiration]. *)
Fixpoint expire_clients (now_time expiration : Z) (l : list (bytes * ptr)) : M db unit :=
  match l with
  | [] => ret tt
  | (_, c) :: l' =>
      let* x := get_context c in
      (if bool_decide (sock x = None) && negb (clean_session x) && (disconnect_t x + expiration <? now_time)
       then
         upd_context c (λ x, set_cstate (λ _, mosq_cs_expiring) (set_clean_session (λ _, true) x)) ;;;
         do_disconnect c
       else ret tt) ;;;
      expire_clients now_time expiration l'
  end.

(** [mosquitto_security_apply_default]: after a reload, clients that are no
    longer allowed in are disconnected, and the others get their ACLs. *)
Fixpoint apply_clients (sha512 : option (bytes → bytes)) (sec : security) (l : list (bytes * ptr)) : M db unit :=
  match l with
  | [] => ret tt
  | (_, c) :: l' =>
      let* x := get_context c in
      (if negb (allow_anonymous E) && bool_decide (username x = None) then
         upd_context c (set_cstate (λ _, mosq_cs_disconnecting)) ;;; do_disconnect c
       else
         let* rc := mlift (mosquitto_unpwd_check_default sha512 sec (username x) (password x)) in
         if negb (rc =? MOSQ_ERR_SUCCESS) then
           upd_context c (set_cstate (λ _, mosq_cs_disconnecting)) ;;; do_disconnect c
         else
           match find_acl (sec_acl_list sec) (username x) 0 with
           | Some i => upd_context c (set_acl_list (λ _, Some i))
           | None => ret tt
           end) ;;;
      apply_clients sha512 sec l'
  end.
Definition mosquitto_security_apply_default (sha512 : option (bytes → bytes)) (sec : security) : M db Z :=
  let* d := mget in
  apply_clients sha512 sec (contexts_by_id d) ;;;
  ret MOSQ_ERR_SUCCESS.
End context.
