(* ===== verification/Handlers.v ===== *)
(** * The packet handlers (src/read_handle.c, src/read_handle_server.c,
    src/read_handle_client.c, lib/read_handle_shared.c) and the loop that
    calls them (lib/net_mosq.c, src/loop.c)

    A handler reads the packet of its context, changes the broker, and returns
    the code on which the caller disconnects the client. *)

From stdpp Require Import base list numbers strings option sets gmap.
From Stdlib Require Import ZArith Lia.
From S2P Require Import Prelude Topic Packet State Store Send Messages Db Subs Acl Context.
Local Open Scope Z_scope.
Local Open Scope broker_scope.

(** Code with early returns: [inl rc] leaves the handler. *)
Definition ebind {S A B} (m : M S (Z + A)) (k : A → M S (Z + B)) : M S (Z + B) :=
  bind m (λ r, match r with inl rc => ret (inl rc) | inr a => k a end).
Definition fail {S A} (rc : Z) : M S (Z + A) := ret (inl rc).
Definition done_with {S A} (a : A) : M S (Z + A) := ret (inr a).
Definition lift_m {S A} (m : M S A) : M S (Z + A) := bind m (λ a, ret (inr a)).
(** The code of a body that ends in [return] on every path. *)
Definition returns {S} (m : M S (Z + Z)) : M S Z :=
  bind m (λ r, match r with inl rc | inr rc => ret rc end).

Notation "'let?' x ':=' c 'in' k" := (ebind c (λ x, k))
  (at level 10, x pattern, k at level 200) : broker_scope.

(** Reading from the packet of the context. *)
Definition read_in {A} (r : reader A) : M mosquitto (Z + A) := λ x,
  '(a, p) ← r (c_in_packet x); Some (a, set_in_packet (λ _, p) x).

(** [if(_mosquitto_read_...(...)) return 1;] *)
Definition or_1 {S A} (m : M S (Z + A)) : M S (Z + A) :=
  bind m (λ r, ret (match r with inl _ => inl 1 | inr a => inr a end)).

(** [a] or [b], whichever is needed: [if(m) rc = 1;] *)
Definition fail_1 (m rc : Z) : Z := if m =? 0 then rc else 1.

Section handlers.
Context (E : env) `{Access}.

Abbreviation queue_messages := (mqtt3_db_messages_queue E acl_check).

Definition read {A} (c : ptr) (r : reader A) : M db (Z + A) := on_context c (read_in r).

(** ** PUBLISH *)

(** What a bridge's topic makes of the topic of a message that came in. *)
Definition map_topic_in (t : bridge_topic) (topic : bytes) : bytes :=
  let topic := match remote_prefix t with
               | Some p => if has_prefix p topic then drop (length p) topic else topic
               | None => topic
               end in
  match local_prefix t with Some p => p ++ topic | None => topic end.

Fixpoint remap_in_loop (ts : list bridge_topic) (topic : bytes) : option (Z + bytes) :=
  match ts with
  | [] => Some (inr topic)
  | t :: ts' =>
      if negb (bool_decide (bt_direction t = bd_out))
         && (bool_decide (is_Some (remote_prefix t)) || bool_decide (is_Some (local_prefix t)))
      then
        '(rc, m) ← mosquitto_topic_matches_sub (remote_topic t) topic;
        if negb (rc =? MOSQ_ERR_SUCCESS) then Some (inl rc)
        else
          b ← m;
          if (b : bool) then Some (inr (map_topic_in t topic)) else remap_in_loop ts' topic
      else remap_in_loop ts' topic
  end.

Definition remap_in (x : mosquitto) (topic : bytes) : option (Z + bytes) :=
  match c_bridge x with
  | Some b =>
      if negb (bool_decide (topics b = [])) && topic_remapping b then remap_in_loop (topics b) topic
      else Some (inr topic)
  | None => Some (inr topic)
  end.

(** [mount_point] and the topic, when the listener has one *)
Definition mounted (x : mosquitto) (topic : bytes) : bytes :=
  match mount_point E x with Some m => m ++ topic | None => topic end.

(** [process_bad_message]: the message is dropped, but acknowledged. *)
Definition reject_publish (c : ptr) (q m : Z) : M db Z :=
  if q =? 0 then ret MOSQ_ERR_SUCCESS
  else if q =? 1 then on_context c (_mosquitto_send_puback E m)
  else if q =? 2 then
    let* (_, stored) := on_cm c (mqtt3_db_message_store_find m) in
    let* res := match stored with
                | None =>
                    let* x := get_context c in
                    let* s := on_store (λ d, Some (mqtt3_db_message_store (default [] (id x)) m None q [] false 0 d)) in
                    on_cm c (mqtt3_db_message_insert E m mosq_md_in q false s)
                | Some _ => ret 0
                end in
    if res =? 0 then on_context c (_mosquitto_send_pubrec E m) else ret res
  else ret 1.

(** The message is stored, unless it is there already, and published, or kept
    until it is released. *)
Definition accept_publish (c : ptr) (topic : bytes) (q m : Z) (r : bool) (pl : bytes) : M db Z :=
  let* x := get_context c in
  let* (_, found) := if 0 <? q then on_cm c (mqtt3_db_message_store_find m) else ret (0, None) in
  let dup := bool_decide (is_Some found) in
  let* stored := match found with
                 | Some s => ret s
                 | None => on_store (λ d, Some (mqtt3_db_message_store (default [] (id x)) m (Some topic) q pl r 0 d))
                 end in
  if q =? 0 then
    let* (rc, _) := queue_messages (id x) topic q r stored in
    ret (fail_1 rc 0)
  else if q =? 1 then
    let* (rc, _) := queue_messages (id x) topic q r stored in
    let* rc2 := on_context c (_mosquitto_send_puback E m) in
    ret (fail_1 rc2 (fail_1 rc 0))
  else if q =? 2 then
    let* res := if dup then ret 0 else on_cm c (mqtt3_db_message_insert E m mosq_md_in q r stored) in
    if res =? 0 then
      let* rc := on_context c (_mosquitto_send_pubrec E m) in
      ret (fail_1 rc 0)
    else ret (if res =? 1 then 1 else 0)
  else ret 0.

Definition mqtt3_handle_publish (c : ptr) : M db Z :=
  returns (
    let? x := lift_m (get_context c) in
    let header := command (c_in_packet x) in
    let q := Z.shiftr (Z.land header 0x06) 1 in
    let r := negb (Z.land header 0x01 =? 0) in
    if q =? 3 then fail 1
    else
      let? topic := or_1 (read c _mosquitto_read_string) in
      if bool_decide (topic = []) then fail 1
      else
        let? topic := mlift (remap_in x topic) in
        if negb (mosquitto_pub_topic_check topic =? MOSQ_ERR_SUCCESS) then fail 1
        else
          let? m := if 0 <? q then or_1 (read c _mosquitto_read_uint16) else done_with 0 in
          let? x := lift_m (get_context c) in
          let payloadlen := u32 (remaining_length (c_in_packet x) - pos (c_in_packet x)) in
          let topic := mounted x topic in
          if negb (payloadlen =? 0) && negb (message_size_limit E =? 0) && (message_size_limit E <? payloadlen)
          then lift_m (reject_publish c q m)
          else
            let? pl := if payloadlen =? 0 then done_with []
                       else or_1 (read c (_mosquitto_read_bytes payloadlen)) in
            let rc := acl_check x topic MOSQ_ACL_WRITE in
            if rc =? MOSQ_ERR_ACL_DENIED then lift_m (reject_publish c q m)
            else if negb (rc =? MOSQ_ERR_SUCCESS) then fail rc
            else lift_m (accept_publish c topic q m r pl)).

(** ** The shared handlers *)

Definition _mosquitto_handle_pingreq (c : ptr) : M db Z := on_context c (_mosquitto_send_pingresp E).

Definition _mosquitto_handle_pingresp (c : ptr) : M db Z :=
  upd_context c (set_ping_t (λ _, 0)) ;;; ret MOSQ_ERR_SUCCESS.

Definition _mosquitto_handle_pubackcomp (c : ptr) : M db Z :=
  returns (
    let? m := read c _mosquitto_read_uint16 in
    if m =? 0 then done_with MOSQ_ERR_SUCCESS
    else
      let? rc := lift_m (on_cm c (mqtt3_db_message_delete E m mosq_md_out)) in
      done_with (if rc =? MOSQ_ERR_NOT_FOUND then MOSQ_ERR_SUCCESS else rc)).

Definition _mosquitto_handle_pubrec (c : ptr) : M db Z :=
  returns (
    let? m := read c _mosquitto_read_uint16 in
    let? rc := lift_m (on_cm c (mqtt3_db_message_update E m mosq_md_out mosq_ms_wait_for_pubcomp)) in
    if negb (rc =? MOSQ_ERR_NOT_FOUND) && negb (rc =? MOSQ_ERR_SUCCESS) then fail rc
    else lift_m (on_context c (_mosquitto_send_pubrel E m))).

(** A packet of version 3.1.1 with other flags than the reserved ones. *)
Definition bad_flags (x : mosquitto) (flags : Z) : bool :=
  bool_decide (protocol x = mosq_p_mqtt311) && negb (Z.land (command (c_in_packet x)) 0x0F =? flags).

Definition _mosquitto_handle_pubrel (c : ptr) : M db Z :=
  returns (
    let? x := lift_m (get_context c) in
    if bad_flags x 0x02 then fail MOSQ_ERR_PROTOCOL
    else
      let? m := read c _mosquitto_read_uint16 in
      let? _ := lift_m (mqtt3_db_message_release E c m mosq_md_in) in
      lift_m (on_context c (_mosquitto_send_pubcomp E m))).

(** The granted QoS go into an array of [count] elements. *)
Fixpoint suback_loop (n : nat) (c : ptr) (count i : Z) : M db (Z + unit) :=
  let? x := lift_m (get_context c) in
  if pos (c_in_packet x) <? remaining_length (c_in_packet x) then
    match n with
    | O => undefined
    | S n' =>
        let? _ := read c _mosquitto_read_byte in
        let? _ := lift_m (massert (i <? count)) in
        suback_loop n' c count (i + 1)
    end
  else done_with tt.

Definition _mosquitto_handle_suback (c : ptr) : M db Z :=
  returns (
    let? _ := read c _mosquitto_read_uint16 in
    let? x := lift_m (get_context c) in
    let qos_count := remaining_length (c_in_packet x) - pos (c_in_packet x) in
    let? _ := suback_loop (Z.to_nat qos_count) c qos_count 0 in
    done_with MOSQ_ERR_SUCCESS).

Definition _mosquitto_handle_unsuback (c : ptr) : M db Z :=
  returns (let? _ := read c _mosquitto_read_uint16 in done_with MOSQ_ERR_SUCCESS).

(** ** DISCONNECT, SUBSCRIBE, UNSUBSCRIBE *)

Definition mqtt3_handle_disconnect (c : ptr) : M db Z :=
  let* x := get_context c in
  if negb (remaining_length (c_in_packet x) =? 0) then ret MOSQ_ERR_PROTOCOL
  else if bad_flags x 0x00 then do_disconnect E c ;;; ret MOSQ_ERR_PROTOCOL
  else
    upd_context c (set_cstate (λ _, mosq_cs_disconnecting)) ;;;
    do_disconnect E c ;;;
    ret MOSQ_ERR_SUCCESS.

(** One filter of a SUBSCRIBE: the QoS granted and the code so far. *)
Definition subscribe_one (c : ptr) (rc : Z) : M db (Z + Z * Z) :=
  let? sub := or_1 (read c _mosquitto_read_string) in
  if bool_decide (sub = []) then fail 1
  else if negb (mosquitto_sub_topic_check sub =? MOSQ_ERR_SUCCESS) then fail 1
  else
    let? q := or_1 (read c _mosquitto_read_byte) in
    let q := u8 q in
    if 2 <? q then fail 1
    else
      let? x := lift_m (get_context c) in
      let sub := mounted x sub in
      let? rc2 := lift_m (mqtt3_sub_add c sub q) in
      if rc2 =? MOSQ_ERR_SUCCESS then
        let? rc3 := lift_m (mqtt3_retain_queue E acl_check c sub q) in
        done_with (q, fail_1 rc3 rc)
      else done_with (q, if rc2 =? -1 then rc else rc2).

(** Each round reads at least two bytes. *)
Fixpoint subscribe_loop (n : nat) (c : ptr) (payload : bytes) (rc : Z) : M db (Z + bytes * Z) :=
  let? x := lift_m (get_context c) in
  if pos (c_in_packet x) <? remaining_length (c_in_packet x) then
    match n with
    | O => undefined
    | S n' =>
        let? r := subscribe_one c rc in
        subscribe_loop n' c (payload ++ [r.1]) r.2
    end
  else done_with (payload, rc).

(** [db->persistence_changes++] *)
Definition changed : M db unit :=
  on_store (mmodify (λ d, set_persistence_changes (persistence_changes d + 1) d)).

Definition mqtt3_handle_subscribe (c : ptr) : M db Z :=
  returns (
    let? x := lift_m (get_context c) in
    if bad_flags x 0x02 then fail MOSQ_ERR_PROTOCOL
    else
      let? m := or_1 (read c _mosquitto_read_uint16) in
      let? r := subscribe_loop (Z.to_nat (remaining_length (c_in_packet x))) c [] 0 in
      if bool_decide (protocol x = mosq_p_mqtt311) && bool_decide (r.1 = []) then fail MOSQ_ERR_PROTOCOL
      else
        let? rc2 := lift_m (on_context c (_mosquitto_send_suback E m r.1)) in
        let? _ := lift_m changed in
        done_with (fail_1 rc2 r.2)).

Definition unsubscribe_one (c : ptr) : M db (Z + unit) :=
  let? sub := or_1 (read c _mosquitto_read_string) in
  if bool_decide (sub = []) then fail 1
  else if negb (mosquitto_sub_topic_check sub =? MOSQ_ERR_SUCCESS) then fail 1
  else
    let? _ := lift_m (mqtt3_sub_remove c sub) in
    done_with tt.

Fixpoint unsubscribe_loop (n : nat) (c : ptr) : M db (Z + unit) :=
  let? x := lift_m (get_context c) in
  if pos (c_in_packet x) <? remaining_length (c_in_packet x) then
    match n with
    | O => undefined
    | S n' => let? _ := unsubscribe_one c in unsubscribe_loop n' c
    end
  else done_with tt.

Definition mqtt3_handle_unsubscribe (c : ptr) : M db Z :=
  returns (
    let? x := lift_m (get_context c) in
    if bad_flags x 0x02 then fail MOSQ_ERR_PROTOCOL
    else
      let? m := or_1 (read c _mosquitto_read_uint16) in
      let? _ := unsubscribe_loop (Z.to_nat (remaining_length (c_in_packet x))) c in
      let? _ := lift_m changed in
      lift_m (on_context c (_mosquitto_send_command_with_mid E UNSUBACK m false))).

(** ** CONNACK, for bridges *)

Definition CONNACK_ACCEPTED : Z := 0.
Definition CONNACK_REFUSED_PROTOCOL_VERSION : Z := 1.
Definition CONNACK_REFUSED_IDENTIFIER_REJECTED : Z := 2.
Definition CONNACK_REFUSED_SERVER_UNAVAILABLE : Z := 3.
Definition CONNACK_REFUSED_BAD_USERNAME_PASSWORD : Z := 4.
Definition CONNACK_REFUSED_NOT_AUTHORIZED : Z := 5.

(** The bridge announces itself on both sides. *)
Definition notify_connected (c : ptr) (b : bridge) : M db (Z + unit) :=
  let topic := match notification_topic b with
               | Some t => t
               | None => str "$SYS/broker/connection/" ++ remote_clientid b ++ str "/state"
               end in
  let pl := [49] in
  let? m := lift_m (on_context c _mosquitto_mid_generate) in
  let? rc := lift_m (on_context c (_mosquitto_send_real_publish E m topic pl 1 true false)) in
  if negb (rc =? 0) then fail 1
  else
    let? _ := lift_m (mqtt3_db_messages_easy_queue E (Some c) topic 1 pl true) in
    done_with tt.

Fixpoint bridge_subscribe (c : ptr) (b : bridge) (ts : list bridge_topic) : M db (Z + unit) :=
  match ts with
  | [] => done_with tt
  | t :: ts' =>
      if bool_decide (bt_direction t = bd_in) || bool_decide (bt_direction t = bd_both) then
        let? r := lift_m (on_context c (_mosquitto_send_subscribe E (remote_topic t) (bt_qos t))) in
        if negb (r.1 =? 0) then fail 1 else bridge_subscribe c b ts'
      else if attempt_unsubscribe b then
        let? r := lift_m (on_context c (_mosquitto_send_unsubscribe E (remote_topic t))) in
        if negb (r.1 =? 0) then fail 1 else bridge_subscribe c b ts'
      else bridge_subscribe c b ts'
  end.

Definition mqtt3_handle_connack (c : ptr) : M db Z :=
  returns (
    let? _ := or_1 (read c _mosquitto_read_byte) in
    let? rc := or_1 (read c _mosquitto_read_byte) in
    let? x := lift_m (get_context c) in
    if rc =? CONNACK_ACCEPTED then
      let? _ := match c_bridge x with
                | Some b =>
                    let? _ := if notifications b then notify_connected c b else done_with tt in
                    bridge_subscribe c b (topics b)
                | None => done_with tt
                end in
      let? _ := lift_m (upd_context c (set_cstate (λ _, mosq_cs_connected))) in
      done_with MOSQ_ERR_SUCCESS
    else if rc =? CONNACK_REFUSED_PROTOCOL_VERSION then
      let? _ := lift_m (upd_context c (set_bridge (fmap (set_try_private_accepted (λ _, false))))) in
      fail 1
    else fail 1).
End handlers.

(** ** CONNECT *)

(** [leaf->context = context] for the leaves of the nodes in [slots] that are
    of [from]; [None]: a slot points at no node. *)
Definition relink_leaf (from to : ptr) (lf : subleaf) : subleaf :=
  if bool_decide (lf_context lf = from) then Subleaf to (lf_qos lf) else lf.
Fixpoint relink_slots (from to : ptr) (slots : list (option path)) (ch : list subhier) : option (list subhier) :=
  match slots with
  | [] => Some ch
  | None :: slots' => relink_slots from to slots' ch
  | Some p :: slots' =>
      h ← node_at p ch;
      relink_slots from to slots'
        (alter_at (λ _, Some (set_sh_subs (relink_leaf from to <$> sh_subs h) h)) p ch)
  end.

(** What the variable header and the payload of a CONNECT say. *)
Record connect_info := ConnectInfo {
  ci_version : Z;
  ci_clean : bool;
  ci_id : bytes;
  ci_will : option message;
  ci_user : option bytes;
  ci_password : option bytes;
}.

Section connect.
Context (E : env) `{Access}.
(** The values [rand] returns. *)
Context (rand : nat → Z).
(** The name in the certificate or PSK of the peer, when the listener takes
    user names from there; [Some None]: there is none. *)
Context (peer_identity : option (option bytes)).

(** 64 random characters after the prefix, cut off at 64 bytes in all. *)
Definition client_id_gen : bytes :=
  let chars := (λ i, rand i `mod` 73 + 48) <$> seq 0 64 in
  cstr (<[64%nat := 0]> (auto_id_prefix E ++ chars ++ [0])).

Definition refuse {A} (c : ptr) (code rc : Z) : M db (Z + A) :=
  on_context c (_mosquitto_send_connack E 0 code) ;;; fail rc.

(** Protocol name and version. *)
Definition connect_protocol (c : ptr) : M db (Z + Z) :=
  let? name := or_1 (read c _mosquitto_read_string) in
  let? version := or_1 (read c _mosquitto_read_byte) in
  let? x := lift_m (get_context c) in
  if bool_decide (name = str "MQIsdp") then
    if negb (Z.land version 0x7F =? 3) then refuse c CONNACK_REFUSED_PROTOCOL_VERSION MOSQ_ERR_PROTOCOL
    else
      let? _ := lift_m (upd_context c (set_protocol (λ _, mosq_p_mqtt31))) in
      done_with version
  else if bool_decide (name = str "MQTT") then
    if negb (Z.land version 0x7F =? 4) then refuse c CONNACK_REFUSED_PROTOCOL_VERSION MOSQ_ERR_PROTOCOL
    else if negb (Z.land (command (c_in_packet x)) 0x0F =? 0) then fail MOSQ_ERR_PROTOCOL
    else
      let? _ := lift_m (upd_context c (set_protocol (λ _, mosq_p_mqtt311))) in
      done_with version
  else fail MOSQ_ERR_PROTOCOL.

(** The client's id, or a generated one. *)
Definition connect_id (c : ptr) (clean : bool) : M db (Z + bytes) :=
  let? cid := or_1 (read c _mosquitto_read_string) in
  let? x := lift_m (get_context c) in
  let? cid :=
    if bool_decide (cid = []) then
      if bool_decide (protocol x = mosq_p_mqtt31)
      then refuse c CONNACK_REFUSED_IDENTIFIER_REJECTED MOSQ_ERR_PROTOCOL
      else if negb clean || negb (allow_zero_length_clientid E)
      then refuse c CONNACK_REFUSED_IDENTIFIER_REJECTED MOSQ_ERR_PROTOCOL
      else done_with client_id_gen
    else done_with cid in
  match clientid_prefixes E with
  | Some p => if has_prefix p cid then done_with cid else refuse c CONNACK_REFUSED_NOT_AUTHORIZED 1
  | None => done_with cid
  end.

Definition connect_will (c : ptr) (flags : Z) : M db (Z + option message) :=
  let will_qos := Z.shiftr (Z.land flags 0x18) 3 in
  let will_retain := Z.land flags 0x20 =? 0x20 in
  let? x := lift_m (get_context c) in
  if negb (Z.land flags 0x04 =? 0) then
    let? topic := or_1 (read c _mosquitto_read_string) in
    if bool_decide (topic = []) then fail 1
    else
      let topic := mounted E x topic in
      if negb (mosquitto_pub_topic_check topic =? MOSQ_ERR_SUCCESS) then fail 1
      else
        let? len := or_1 (read c _mosquitto_read_uint16) in
        let? pl := if 0 <? len then or_1 (read c (_mosquitto_read_bytes len)) else done_with [] in
        done_with (Some (Message topic pl will_qos will_retain))
  else if bool_decide (protocol x = mosq_p_mqtt311) && (negb (will_qos =? 0) || will_retain)
  then fail MOSQ_ERR_PROTOCOL
  else done_with None.

(** User name and password; a missing one is ignored in version 3.1. *)
Definition connect_login (c : ptr) (flags : Z) : M db (Z + option bytes * option bytes) :=
  let? x := lift_m (get_context c) in
  let v311 := bool_decide (protocol x = mosq_p_mqtt311) in
  if negb (Z.land flags 0x80 =? 0) then
    let* r := read c _mosquitto_read_string in
    match r with
    | inl rc => if v311 then fail MOSQ_ERR_PROTOCOL else done_with (None, None)
    | inr user =>
        if negb (Z.land flags 0x40 =? 0) then
          let* r := read c _mosquitto_read_string in
          match r with
          | inl rc => if v311 then fail MOSQ_ERR_PROTOCOL else done_with (Some user, None)
          | inr pw => done_with (Some user, Some pw)
          end
        else done_with (Some user, None)
    end
  else if v311 && negb (Z.land flags 0x40 =? 0) then fail MOSQ_ERR_PROTOCOL
  else done_with (None, None).

(** The packet. *)
Definition parse_connect (c : ptr) : M db (Z + connect_info) :=
  let? version := connect_protocol c in
  let? flags := or_1 (read c _mosquitto_read_byte) in
  let? x := lift_m (get_context c) in
  if bool_decide (protocol x = mosq_p_mqtt311) && negb (Z.land flags 0x01 =? 0) then fail MOSQ_ERR_PROTOCOL
  else
    let clean := negb (Z.land flags 0x02 =? 0) in
    if Z.shiftr (Z.land flags 0x18) 3 =? 3 then fail MOSQ_ERR_PROTOCOL
    else
      let? ka := or_1 (read c _mosquitto_read_uint16) in
      let? _ := lift_m (upd_context c (set_keepalive (λ _, ka))) in
      let? cid := connect_id c clean in
      let? w := connect_will c flags in
      let? login := connect_login c flags in
      done_with (ConnectInfo version clean cid w login.1 login.2).

(** Who the client is. *)
Definition authenticate (c : ptr) (ci : connect_info) : M db (Z + unit) :=
  match peer_identity with
  | Some None => refuse c CONNACK_REFUSED_BAD_USERNAME_PASSWORD 1
  | Some (Some name) => lift_m (upd_context c (set_username (λ _, Some name)))
  | None =>
      match ci_user ci with
      | Some user =>
          let rc := unpwd_check (Some user) (ci_password ci) in
          if rc =? MOSQ_ERR_SUCCESS then
            lift_m (upd_context c (λ x, set_password (λ _, ci_password ci) (set_username (λ _, Some user) x)))
          else
            let? _ := if rc =? MOSQ_ERR_AUTH
                      then lift_m (on_context c (_mosquitto_send_connack E 0 CONNACK_REFUSED_NOT_AUTHORIZED))
                      else done_with 0 in
            let? _ := lift_m (mqtt3_context_disconnect E c) in
            fail 1
      | None =>
          if allow_anonymous E then done_with tt else refuse c CONNACK_REFUSED_NOT_AUTHORIZED 1
      end
  end.

Definition use_username (x : mosquitto) : bool :=
  default false (l ← listener x; use_username_as_clientid E !! l).

(** The id the client is known by. *)
Definition effective_id (c : ptr) (cid : bytes) : M db (Z + bytes) :=
  let? x := lift_m (get_context c) in
  if use_username x then
    match username x with
    | Some u => done_with u
    | None => refuse c CONNACK_REFUSED_NOT_AUTHORIZED 1
    end
  else done_with cid.

(** The session of an older connection: its messages and subscriptions. *)
Definition inherit_session (c found : ptr) : M db unit :=
  let* f := get_context found in
  (if bool_decide (msgs f = []) then ret tt
   else
     upd_context c (set_msgs (λ _, msgs f)) ;;;
     upd_context found (set_msgs (λ _, [])) ;;;
     on_cm c (mqtt3_db_message_reconnect_reset E) ;;; ret tt) ;;;
  upd_context c (set_subs (λ _, subs f)) ;;;
  upd_context found (set_subs (λ _, [])) ;;;
  upd_context c (set_last_mid (λ _, last_mid f)) ;;;
  let* d := mget in
  let* ch := mlift (relink_slots found c (subs f) (subs_children d)) in
  mmodify (set_subs_children (λ _, ch)).

(** [HASH_FIND(hh_id, ...)] *)
Definition find_client (cid : bytes) (d : db) : option ptr :=
  snd <$> (snd <$> list_find (λ e, e.1 = cid) (contexts_by_id d)).

(** An older connection with this id is closed; the flags of the CONNACK. *)
Definition take_over (c : ptr) (cid : bytes) (clean : bool) : M db Z :=
  let* d := mget in
  match find_client cid d with
  | None => ret 0
  | Some found =>
      let* x := get_context c in
      let* f := get_context found in
      let ack := if bool_decide (protocol x = mosq_p_mqtt311) && negb clean then 1 else 0 in
      upd_context c (set_clean_session (λ _, clean)) ;;;
      (if negb clean && negb (clean_session f) then inherit_session c found else ret tt) ;;;
      upd_context found (λ y, set_cstate (λ _, mosq_cs_disconnecting) (set_clean_session (λ _, true) y)) ;;;
      do_disconnect E found ;;;
      ret ack
  end.

(** The loop that drops queued messages the client may not read; [prev] is
    the index of [msg_prev]. Only the list and, for the first element, its
    last pointer are changed. *)
Fixpoint acl_filter (n : nat) (c : ptr) (i : nat) : M db unit :=
  let* x := get_context c in
  match msgs x !! i with
  | None => ret tt
  | Some m =>
      match n with
      | O => undefined
      | S n' =>
          match direction m with
          | mosq_md_out =>
              let* d := mget in
              let* st := mlift (deref_store (cm_store m) (dmsg d)) in
              let allowed := match ms_topic st with
                             | Some topic => acl_check x topic MOSQ_ACL_READ =? MOSQ_ERR_SUCCESS
                             | None => false
                             end in
              if negb allowed then
                on_store (mosquitto__db_msg_store_deref (cm_store m)) ;;;
                upd_context c (set_msgs (delete i)) ;;;
                (if bool_decide (i = 0%nat) && bool_decide (last_msg x = Some (cm_ptr m))
                 then upd_context c (set_last_msg (λ _, None)) else ret tt) ;;;
                acl_filter n' c i
              else acl_filter n' c (S i)
          | mosq_md_in => acl_filter n' c (S i)
          end
      end
  end.

(** What the context becomes when the connection is accepted. *)
Definition accepted (ci : connect_info) (cid : bytes) (x : mosquitto) : mosquitto :=
  let x := set_acl_list (acl_entry (username x)) x in
  let x := match ci_will ci with Some w => set_will (λ _, Some w) x | None => x end in
  let x := set_is_dropping (λ _, false) (set_ping_t (λ _, 0)
             (set_clean_session (λ _, ci_clean ci) (set_id (λ _, Some cid) x))) in
  if Z.land (ci_version ci) 0x80 =? 0x80 then set_is_bridge (λ _, true) x else x.

Definition finish_connect (c : ptr) (ci : connect_info) (cid : bytes) (ack : Z) : M db Z :=
  upd_context c (accepted ci cid) ;;;
  let* x := get_context c in
  acl_filter (length (msgs x)) c 0 ;;;
  mmodify (set_by_id (λ l, l ++ [(cid, c)])) ;;;
  (if ci_clean ci then ret tt else changed) ;;;
  upd_context c (set_cstate (λ _, mosq_cs_connected)) ;;;
  on_context c (_mosquitto_send_connack E ack CONNACK_ACCEPTED).

Definition mqtt3_handle_connect (c : ptr) : M db Z :=
  returns (
    let? x := lift_m (get_context c) in
    if negb (bool_decide (cstate x = mosq_cs_new)) then fail MOSQ_ERR_PROTOCOL
    else
      let? ci := parse_connect c in
      let? _ := authenticate c ci in
      let? cid := effective_id c (ci_id ci) in
      let? ack := lift_m (take_over c cid (ci_clean ci)) in
      lift_m (finish_connect c ci cid ack)).

(** ** Dispatch *)

Definition mqtt3_packet_handle (c : ptr) : M db Z :=
  let* x := get_context c in
  let cmd := Z.land (command (c_in_packet x)) 0xF0 in
  if cmd =? PINGREQ then _mosquitto_handle_pingreq E c
  else if cmd =? PINGRESP then _mosquitto_handle_pingresp c
  else if cmd =? PUBACK then _mosquitto_handle_pubackcomp E c
  else if cmd =? PUBCOMP then _mosquitto_handle_pubackcomp E c
  else if cmd =? PUBLISH then mqtt3_handle_publish E c
  else if cmd =? PUBREC then _mosquitto_handle_pubrec E c
  else if cmd =? PUBREL then _mosquitto_handle_pubrel E c
  else if cmd =? CONNECT then mqtt3_handle_connect c
  else if cmd =? DISCONNECT then mqtt3_handle_disconnect E c
  else if cmd =? SUBSCRIBE then mqtt3_handle_subscribe E c
  else if cmd =? UNSUBSCRIBE then mqtt3_handle_unsubscribe E c
  else if cmd =? CONNACK then mqtt3_handle_connack E c
  else if cmd =? SUBACK then _mosquitto_handle_suback c
  else if cmd =? UNSUBACK then _mosquitto_handle_unsuback c
  else ret MOSQ_ERR_PROTOCOL.

(** ** [_mosquitto_packet_read]: the packet is filled from the socket, and
    handled once it is complete. *)

Definition fill_packet : M mosquitto (option Z) := λ x,
  let fresh_client := bool_decide (c_bridge x = None) && bool_decide (cstate x = mosq_cs_new) in
  '(r, ci) ← packet_fill fresh_client (now E) (ConnIn (c_in_packet x) (rd x) (c_last_msg_in x));
  Some (r, set_last_msg_in (λ _, last_msg_in ci) (set_rd (λ _, input ci)
             (set_in_packet (λ _, in_packet ci) x))).

Definition _mosquitto_packet_read (c : ptr) : M db Z :=
  let* x := get_context c in
  if bool_decide (sock x = None) then ret MOSQ_ERR_NO_CONN
  else if bool_decide (cstate x = mosq_cs_connect_pending) then ret MOSQ_ERR_SUCCESS
  else
    let* r := on_context c fill_packet in
    match r with
    | Some rc => ret rc
    | None =>
        let* rc := mqtt3_packet_handle c in
        upd_context c (λ x, set_last_msg_in (λ _, now E) (set_in_packet _mosquitto_packet_cleanup x)) ;;;
        ret rc
    end.

(** ** [loop_handle_reads_writes] *)

(** What [poll] reports for a context; [so_error] is what [getsockopt] finds
    ([None]: it fails). *)
Record poll_event := PollEvent {
  pollin : bool;
  pollout : bool;
  pollerr : bool;
  so_error : option Z;
}.

Definition handle_write (c : ptr) (ev : poll_event) : M db unit :=
  let* x := get_context c in
  if pollout ev then
    let* go := if bool_decide (cstate x = mosq_cs_connect_pending) then
                 match so_error ev with
                 | Some err => (if err =? 0 then upd_context c (set_cstate (λ _, mosq_cs_new)) else ret tt) ;;; ret true
                 | None => do_disconnect E c ;;; ret false
                 end
               else ret true in
    if go : bool then
      let* rc := on_context c (_mosquitto_packet_write E) in
      if negb (rc =? 0) then do_disconnect E c else ret tt
    else ret tt
  else ret tt.

Definition handle_read (c : ptr) (ev : poll_event) : M db unit :=
  (if pollin ev then
     let* rc := _mosquitto_packet_read c in
     if negb (rc =? 0) then do_disconnect E c else ret tt
   else ret tt) ;;;
  if pollerr ev then do_disconnect E c else ret tt.

(** [HASH_ITER(hh_sock, ...)] over the contexts that were in the table. *)
Fixpoint iter_contexts (f : ptr → poll_event → M db unit) (l : list (Z * ptr)) (events : ptr → option poll_event)
    : M db unit :=
  match l with
  | [] => ret tt
  | (_, c) :: l' =>
      match events c with Some ev => f c ev | None => ret tt end ;;;
      iter_contexts f l' events
  end.

(** [events c = None]: the context is not among those polled. *)
Definition loop_handle_reads_writes (events : ptr → option poll_event) : M db unit :=
  let* d := mget in
  iter_contexts handle_write (contexts_by_sock d) events ;;;
  let* d := mget in
  iter_contexts handle_read (contexts_by_sock d) events.
End connect.
