(* ===== verification/Persist.v ===== *)
(** * Persistence (src/persist.c, src/persist.h)

    The database is saved to a file, a header and a sequence of chunks, and
    restored from it when the broker starts. The writer follows the store,
    the sessions that are kept and the tree; the reader rebuilds them chunk by
    chunk. Integers of the format are big-endian, but for the ids of stored
    messages and times, which are written as the machine has them: here
    little-endian, with a 64-bit [time_t]. *)

From stdpp Require Import base list numbers strings option sets gmap infinite.
From Stdlib Require Import ZArith Lia.
From S2P Require Import Prelude Topic Packet State Store Send Messages Db Subs Acl Context Handlers.
Local Open Scope Z_scope.
Local Open Scope broker_scope.

Definition MOSQ_DB_VERSION : Z := 3.
Definition magic : bytes := [0x00; 0xB5; 0x00] ++ str "mosquitto db".
Definition DB_CHUNK_CFG : Z := 1.
Definition DB_CHUNK_MSG_STORE : Z := 2.
Definition DB_CHUNK_CLIENT_MSG : Z := 3.
Definition DB_CHUNK_RETAIN : Z := 4.
Definition DB_CHUNK_SUB : Z := 5.
Definition DB_CHUNK_CLIENT : Z := 6.

(** ** Integers in memory *)

Fixpoint le_bytes (n : nat) (x : Z) : bytes :=
  match n with O => [] | S n' => x `mod` 256 :: le_bytes n' (x / 256) end.
Fixpoint le_value (bs : bytes) : Z :=
  match bs with [] => 0 | b :: bs' => b + 256 * le_value bs' end.
(** [htons] and [htonl] *)
Definition be_bytes (n : nat) (x : Z) : bytes := reverse (le_bytes n x).
Definition be_value (bs : bytes) : Z := le_value (reverse bs).
(** A signed 64-bit integer. *)
Definition s64 (x : Z) : Z := (x + 2 ^ 63) `mod` 2 ^ 64 - 2 ^ 63.

(** The values of the enumerations; [None]: not one of them. *)
Definition direction_code (x : msg_direction) : Z := match x with mosq_md_in => 0 | mosq_md_out => 1 end.
Definition msg_directions : list msg_direction := [mosq_md_in; mosq_md_out].
Definition state_code (s : msg_state) : Z :=
  match s with
  | mosq_ms_invalid => 0 | mosq_ms_publish_qos0 => 1 | mosq_ms_publish_qos1 => 2
  | mosq_ms_wait_for_puback => 3 | mosq_ms_publish_qos2 => 4 | mosq_ms_wait_for_pubrec => 5
  | mosq_ms_resend_pubrel => 6 | mosq_ms_wait_for_pubrel => 7 | mosq_ms_resend_pubcomp => 8
  | mosq_ms_wait_for_pubcomp => 9 | mosq_ms_send_pubrec => 10 | mosq_ms_queued => 11
  end.
Definition msg_states : list msg_state :=
  [mosq_ms_invalid; mosq_ms_publish_qos0; mosq_ms_publish_qos1; mosq_ms_wait_for_puback;
   mosq_ms_publish_qos2; mosq_ms_wait_for_pubrec; mosq_ms_resend_pubrel; mosq_ms_wait_for_pubrel;
   mosq_ms_resend_pubcomp; mosq_ms_wait_for_pubcomp; mosq_ms_send_pubrec; mosq_ms_queued].
Definition bool_code (b : bool) : Z := if b then 1 else 0.

(** ** Writing *)

(** A stream that is being written: what has reached the file, what is in the
    buffer of stdio, how many more bytes fit on the disk ([None]: all), and
    when the buffer is passed on: of [n] bytes that are in it after an
    [fwrite], the first [wf_stdio n] are written then. *)
Record wfile := WFile { wf_data : bytes; wf_buf : bytes; wf_room : option nat; wf_stdio : nat → nat }.

(** The first [n] bytes of the buffer are written, as far as the disk has room
    for them. *)
Definition pass_on (n : nat) (f : wfile) : wfile :=
  let n := match wf_room f with None => n | Some r => Nat.min n r end in
  WFile (wf_data f ++ take n (wf_buf f)) (drop n (wf_buf f)) ((λ r, (r - n)%nat) <$> wf_room f) (wf_stdio f).

(** [write_e]: [fwrite], and [goto error] when it reports less than was
    asked for. What is only in the buffer counts as written. *)
Definition write_e (bs : bytes) : M wfile (Z + unit) := λ f,
  let buf := wf_buf f ++ bs in
  let n := Nat.min (wf_stdio f (length buf)) (length buf) in
  let f' := pass_on n (WFile (wf_data f) buf (wf_room f) (wf_stdio f)) in
  Some (if decide (length (wf_data f') = length (wf_data f) + n)%nat then inr tt else inl 1, f').

(** [fflush] and [fclose]: the rest of the buffer. *)
Definition close_file (f : wfile) : bytes := wf_data (pass_on (length (wf_buf f)) f).

(** A buffer of [size] bytes that is full: whole blocks are passed on. *)
Definition stdio_buffer (size n : nat) : nat := if (n <=? size)%nat then 0%nat else (n / size * size)%nat.
Definition write_u8 (x : Z) : M wfile (Z + unit) := write_e [u8 x].
Definition write_u16 (x : Z) : M wfile (Z + unit) := write_e (be_bytes 2 (u16 x)).
Definition write_u32 (x : Z) : M wfile (Z + unit) := write_e (be_bytes 4 (u32 x)).
Definition write_u64 (x : Z) : M wfile (Z + unit) := write_e (le_bytes 8 x).

Notation "c '?;' k" := (ebind c (λ _, k)) (at level 199, right associativity) : broker_scope.

(** [!strncmp(topic, "$SYS", 4)] *)
Definition sys_topic (t : bytes) : bool := bool_decide (take 4 t = str "$SYS").
(** A [$SYS] message that is only retained. *)
Definition only_retained (st : msg_store) : bool := (ref_count st <=? 1) && bool_decide (dest_ids st = []).

Section write.
Context (d : db).

(** The loop of [mqtt3_db_client_messages_write]. [strncmp] follows the
    topic's pointer, and [strlen] the id's. *)
Fixpoint mqtt3_db_client_messages_write (cid : bytes) (l : list client_msg) : M wfile (Z + unit) :=
  match l with
  | [] => done_with tt
  | m :: l' =>
      let? st := lift_m (mlift (deref_store (cm_store m) (dmsg d))) in
      let? t := lift_m (mlift (ms_topic st)) in
      if sys_topic t && only_retained st then mqtt3_db_client_messages_write cid l'
      else
        let n := u16 (slen cid) in
        write_u16 DB_CHUNK_CLIENT_MSG ?;
        write_u32 (8 + 2 + 1 + 1 + 1 + 1 + 1 + 2 + n) ?;
        write_u16 n ?;
        write_e (take (Z.to_nat n) cid) ?;
        write_u64 (db_id st) ?;
        write_u16 (mid m) ?;
        write_u8 (qos m) ?;
        write_u8 (bool_code (retain m)) ?;
        write_u8 (direction_code (direction m)) ?;
        write_u8 (state_code (state m)) ?;
        write_u8 (bool_code (dup m)) ?;
        mqtt3_db_client_messages_write cid l'
  end.

(** One message of [mqtt3_db_message_store_write]. *)
Definition store_write (st : msg_store) : M wfile (Z + unit) :=
  let sys := match ms_topic st with Some t => sys_topic t | None => false end in
  if sys && only_retained st then done_with tt
  else
    let t := default [] (ms_topic st) in
    let tlen := u16 (slen t) in
    let n := u16 (slen (source_id st)) in
    write_u16 DB_CHUNK_MSG_STORE ?;
    write_u32 (8 + 2 + slen (source_id st) + 2 + 2 + 2 + tlen + 4 + payloadlen st + 1 + 1) ?;
    write_u64 (db_id st) ?;
    write_u16 n ?;
    (if n =? 0 then done_with tt else write_e (take (Z.to_nat n) (source_id st))) ?;
    write_u16 (source_mid st) ?;
    write_u16 (ms_mid st) ?;
    write_u16 tlen ?;
    (if tlen =? 0 then done_with tt else write_e (take (Z.to_nat tlen) t)) ?;
    write_u8 (ms_qos st) ?;
    write_u8 (if sys then 0 else bool_code (ms_retain st)) ?;
    write_u32 (payloadlen st) ?;
    (if payloadlen st =? 0 then done_with tt else write_e (ms_payload st)).

Fixpoint mqtt3_db_message_store_write (l : list ptr) : M wfile (Z + unit) :=
  match l with
  | [] => done_with tt
  | s :: l' =>
      let? st := lift_m (mlift (deref_store s (dmsg d))) in
      store_write st ?;
      mqtt3_db_message_store_write l'
  end.

(** The sessions that are kept; [time] is the time of day. *)
Fixpoint mqtt3_db_client_write (time : Z) (l : list ptr) : M wfile (Z + unit) :=
  match l with
  | [] => done_with tt
  | c :: l' =>
      let? x := lift_m (mlift (contexts d !! c)) in
      (if clean_session x then done_with tt
       else
         let? cid := lift_m (mlift (id x)) in
         let n := u16 (slen cid) in
         write_u16 DB_CHUNK_CLIENT ?;
         write_u32 (2 + slen cid + 2 + 8) ?;
         write_u16 n ?;
         write_e (take (Z.to_nat n) cid) ?;
         write_u16 (last_mid x) ?;
         write_u64 (if disconnect_t x =? 0 then time else disconnect_t x) ?;
         mqtt3_db_client_messages_write cid (msgs x)) ?;
      mqtt3_db_client_write time l'
  end.

(** The leaves of a node. *)
Fixpoint subs_write (topic : bytes) (l : list subleaf) : M wfile (Z + unit) :=
  match l with
  | [] => done_with tt
  | lf :: l' =>
      let? x := lift_m (mlift (contexts d !! lf_context lf)) in
      (if clean_session x then done_with tt
       else
         let? cid := lift_m (mlift (id x)) in
         write_u16 DB_CHUNK_SUB ?;
         write_u32 (2 + slen cid + 2 + slen topic + 1) ?;
         write_u16 (slen cid) ?;
         write_e cid ?;
         write_u16 (slen topic) ?;
         write_e topic ?;
         write_u8 (lf_qos lf)) ?;
      subs_write topic l'
  end.

Definition retained_write (r : option ptr) : M wfile (Z + unit) :=
  match r with
  | None => done_with tt
  | Some s =>
      let? st := lift_m (mlift (deref_store s (dmsg d))) in
      let? t := lift_m (mlift (ms_topic st)) in
      if sys_topic t then done_with tt
      else write_u16 DB_CHUNK_RETAIN ?; write_u32 8 ?; write_u64 (db_id st)
  end.

(** [snprintf(thistopic, slen, "%s/%s", ...)] *)
Definition join_topic (level : nat) (topic t : bytes) : bytes :=
  if bool_decide (1 < level)%nat || negb (bool_decide (topic = [])) then topic ++ c_slash :: t else t.

(** What the children return is not looked at. *)
Fixpoint _db_subs_retain_write (topic : bytes) (level : nat) (h : subhier) : M wfile (Z + unit) :=
  match h with
  | Subhier t leaves retained children =>
      let thistopic := join_topic level topic t in
      subs_write thistopic leaves ?;
      retained_write retained ?;
      lift_m ((fix write_children (l : list subhier) : M wfile unit :=
         match l with
         | [] => ret tt
         | h' :: l' => _db_subs_retain_write thistopic (S level) h' ;;; write_children l'
         end) children)
  end.

(** Of each child of the root, the first child. *)
Fixpoint mqtt3_db_subs_retain_write (l : list subhier) : M wfile unit :=
  match l with
  | [] => ret tt
  | h :: l' =>
      (match sh_children h with
       | [] => ret tt
       | h' :: _ => _db_subs_retain_write [] 0 h' ;;; ret tt
       end) ;;;
      mqtt3_db_subs_retain_write l'
  end.

(** The header, the configuration and the store. *)
Definition write_first (at_shutdown : bool) : M wfile (Z + unit) :=
  write_e magic ?;
  write_u32 0 ?;
  write_u32 MOSQ_DB_VERSION ?;
  write_u16 DB_CHUNK_CFG ?;
  write_u32 (8 + 1 + 1) ?;
  write_u8 (bool_code at_shutdown) ?;
  write_u8 8 ?;
  write_u64 (last_db_id (dmsg d)) ?;
  mqtt3_db_message_store_write (msg_list (dmsg d)).

(** The codes of the rest are not looked at. *)
Definition write_db (time : Z) (at_shutdown : bool) : M wfile (Z + unit) :=
  write_first at_shutdown ?;
  lift_m (mqtt3_db_client_write time (contexts_by_id d).*2 ;;;
          mqtt3_db_subs_retain_write (subs_children d)).
End write.

(** ** The file system *)

(** The file [persistence_filepath], and the one with [.new] after its name. *)
Record files := Files { db_file : option bytes; new_file : option bytes }.
(** What the system calls of a backup do: [unlink] fails (but not with
    [ENOENT]), [fopen] fails, the room on the disk, [rename] fails; and how
    stdio buffers. *)
Record disk := Disk {
  unlink_fails : bool;
  fopen_fails : bool;
  disk_room : option nat;
  rename_fails : bool;
  disk_stdio : nat → nat;
}.

(** [filepath]: whether there is a file to save to. The code of [unlink],
    which is -1 when there was no new file, is what is returned in the end.
    The file is closed on all paths; what [fflush], [fsync] and [fclose]
    return is not looked at. *)
Definition mqtt3_db_backup (D : disk) (filepath : bool) (time : Z) (at_shutdown : bool) (d : db) : M files Z :=
  if negb filepath then ret MOSQ_ERR_INVAL
  else if unlink_fails D then ret 1
  else
    let* fs := mget in
    let rc := if bool_decide (new_file fs = None) then -1 else 0 in
    mmodify (λ fs, Files (db_file fs) None) ;;;
    if fopen_fails D then ret 1
    else
      let* r := mlift (write_db d time at_shutdown (WFile [] [] (disk_room D) (disk_stdio D))) in
      let '(res, f) := r in
      mmodify (λ fs, Files (db_file fs) (Some (close_file f))) ;;;
      match res with
      | inl _ => ret 1
      | inr _ =>
          if rename_fails D then ret 1
          else mmodify (λ fs, Files (new_file fs) None) ;;; ret rc
      end.

(** ** Reading *)

(** The database with [db->msg_store_load], which finds the stored messages by
    id, the last one added first. *)
Record loading := Loading { ld_db : db; ld_load : list (Z * option ptr) }.
(** [rs_version] is [db_version], [rs_file] what is left of the file. *)
Record rstate := RState { rs_loading : loading; rs_version : Z; rs_file : bytes }.

Definition on_db {A} (m : M db A) : M loading A := λ s,
  '(a, d) ← m (ld_db s); Some (a, Loading d (ld_load s)).
Definition set_load f : M loading unit := mmodify (λ s, Loading (ld_db s) (f (ld_load s))).
Definition on_loading {A} (m : M loading A) : M rstate A := λ s,
  '(a, l) ← m (rs_loading s); Some (a, RState l (rs_version s) (rs_file s)).

(** [read_e] *)
Definition read_e (n : nat) : M rstate (Z + bytes) := λ s,
  let f := rs_file s in
  Some (if decide (n ≤ length f)%nat then inr (take n f) else inl 1,
        RState (rs_loading s) (rs_version s) (drop n f)).
Definition read_u8 : M rstate (Z + Z) := let? b := read_e 1 in done_with (le_value b).
Definition read_u16 : M rstate (Z + Z) := let? b := read_e 2 in done_with (be_value b).
Definition read_u32 : M rstate (Z + Z) := let? b := read_e 4 in done_with (be_value b).
Definition read_u64 : M rstate (Z + Z) := let? b := read_e 8 in done_with (le_value b).
(** A string of [n] bytes. *)
Definition read_str (n : Z) : M rstate (Z + bytes) :=
  let? b := read_e (Z.to_nat n) in done_with (cstr b).

Section restore.
Context (E : env) `{Access} (time : Z).

Definition _db_find_or_add_context (cid : bytes) (lmid : Z) : M db ptr :=
  let* d := mget in
  let* c := match find_client cid d with
            | Some c => ret c
            | None =>
                let* o := mqtt3_context_init E (fresh (dom (contexts d))) None true in
                let* c := mlift o in
                upd_context c (set_id (λ _, Some cid)) ;;;
                upd_context c (set_clean_session (λ _, false)) ;;;
                mmodify (set_by_id (λ l, l ++ [(cid, c)])) ;;;
                ret c
            end in
  (if lmid =? 0 then ret tt else upd_context c (set_last_mid (λ _, lmid))) ;;;
  ret c.

(** [context->msgs] decides whether the last message is followed. *)
Definition link_msg (m : client_msg) (x : mosquitto) : option mosquitto :=
  match msgs x, last_msg x with
  | [], _ => Some (set_last_msg (λ _, Some (cm_ptr m)) (set_msgs (λ _, [m]) x))
  | _, None => None
  | _, Some _ => append_msg m x
  end.

Definition find_load (i : Z) (l : list (Z * option ptr)) : option (option ptr) :=
  snd <$> (snd <$> list_find (λ e, e.1 = i) l).

Definition _db_client_msg_restore (cid : bytes) (m q r dir st du : Z) (store_id : Z) : M loading Z :=
  let* p := on_db (on_store (λ d, Some (fresh_ptr d))) in
  let* s := mget in
  match find_load store_id (ld_load s) with
  | None => ret 1
  | Some o =>
      let* dir := mlift (snd <$> list_find (λ x, direction_code x = dir) msg_directions) in
      let* st := mlift (snd <$> list_find (λ x, state_code x = st) msg_states) in
      let* stored := mlift o in
      on_db (on_store (λ d, d ← store_ref stored d; Some (tt, d))) ;;;
      let* c := on_db (_db_find_or_add_context cid 0) in
      on_db (on_context c (λ x, x ← link_msg (ClientMsg p stored 0 m q (negb (r =? 0)) dir st (negb (du =? 0))) x;
                                Some (tt, x))) ;;;
      ret MOSQ_ERR_SUCCESS
  end.

(** After the fields of the chunk were read. *)
Definition restore_client (cid : bytes) (lmid t : Z) : M loading unit :=
  let* c := on_db (_db_find_or_add_context cid lmid) in
  on_db (upd_context c (set_disconnect_t (λ _, t))).

Definition _db_client_chunk_restore : M rstate (Z + unit) :=
  let? n := read_u16 in
  if n =? 0 then fail 1
  else
    let? cid := read_str n in
    let? lmid := read_u16 in
    let? s := lift_m mget in
    let? t := if rs_version s =? 2 then done_with time else let? t := read_u64 in done_with (s64 t) in
    lift_m (on_loading (restore_client cid lmid t)).

Definition _db_client_msg_chunk_restore : M rstate (Z + unit) :=
  let? n := read_u16 in
  if n =? 0 then fail 1
  else
    let? cid := read_str n in
    let? store_id := read_u64 in
    let? m := read_u16 in
    let? q := read_u8 in
    let? r := read_u8 in
    let? dir := read_u8 in
    let? st := read_u8 in
    let? du := read_u8 in
    let? rc := lift_m (on_loading (_db_client_msg_restore cid m q r dir st du store_id)) in
    if rc =? 0 then done_with tt else fail 1.

Definition restore_store (store_id : Z) (source : bytes) (smid : Z) (topic : option bytes) (q r : Z) (pl : bytes)
    : M loading unit :=
  let* stored := on_db (on_store (λ d,
    Some (mqtt3_db_message_store source smid topic q pl (negb (r =? 0)) store_id d))) in
  let* s := mget in
  let* st := mlift (deref_store stored (dmsg (ld_db s))) in
  set_load (cons (db_id st, Some stored)).

Definition _db_msg_store_chunk_restore : M rstate (Z + unit) :=
  let? store_id := read_u64 in
  let? n := read_u16 in
  let? source := if n =? 0 then done_with [] else read_str n in
  let? smid := read_u16 in
  let? _ := read_u16 in
  let? n := read_u16 in
  let? topic := if n =? 0 then done_with None else let? t := read_str n in done_with (Some t) in
  let? q := read_u8 in
  let? r := read_u8 in
  let? len := read_u32 in
  let? pl := if len =? 0 then done_with [] else read_e (Z.to_nat len) in
  lift_m (on_loading (restore_store store_id source smid topic q r pl)).

(** The message is published, for nobody, as a retained one. *)
Definition restore_retained (store_id : Z) : M loading Z :=
  let* s := mget in
  match find_load store_id (ld_load s) with
  | None => ret MOSQ_ERR_INVAL
  | Some o =>
      let* stored := mlift o in
      let* st := mlift (deref_store stored (dmsg (ld_db s))) in
      let* t := mlift (ms_topic st) in
      let* r := on_db (mqtt3_db_messages_queue E acl_check None t (ms_qos st) (ms_retain st) stored) in
      set_load (fmap (λ e, if bool_decide (e = (store_id, Some stored)) then (e.1, r.2) else e)) ;;;
      ret MOSQ_ERR_SUCCESS
  end.

Definition _db_retain_chunk_restore : M rstate (Z + unit) :=
  let? store_id := read_u64 in
  let? rc := lift_m (on_loading (restore_retained store_id)) in
  if rc =? 0 then done_with tt else fail rc.

Definition _db_restore_sub (cid sub : bytes) (q : Z) : M db Z :=
  let* c := _db_find_or_add_context cid 0 in
  mqtt3_sub_add c sub q.

Definition _db_sub_chunk_restore : M rstate (Z + unit) :=
  let? n := read_u16 in
  let? cid := read_str n in
  let? n := read_u16 in
  let? topic := read_str n in
  let? q := read_u8 in
  let? rc := lift_m (on_loading (on_db (_db_restore_sub cid topic q))) in
  if rc =? 0 then done_with tt else fail 1.

Definition set_last_db_id (last : Z) : M db unit :=
  on_store (mmodify (λ d,
    MsgDb (heap d) (msg_list d) (msg_store_count d) last (persistence_changes d) (next_ptr d))).

Definition cfg_restore : M rstate (Z + unit) :=
  let? _ := read_u8 in
  let? size := read_u8 in
  if negb (size =? 8) then fail 1
  else
    let? last := read_u64 in
    lift_m (on_loading (on_db (set_last_db_id last))).

(** The [switch] over the chunks. *)
Definition restore_chunk (chunk len : Z) : M rstate (Z + unit) :=
  if chunk =? DB_CHUNK_CFG then cfg_restore
  else if chunk =? DB_CHUNK_MSG_STORE then or_1 _db_msg_store_chunk_restore
  else if chunk =? DB_CHUNK_CLIENT_MSG then or_1 _db_client_msg_chunk_restore
  else if chunk =? DB_CHUNK_RETAIN then or_1 _db_retain_chunk_restore
  else if chunk =? DB_CHUNK_SUB then or_1 _db_sub_chunk_restore
  else if chunk =? DB_CHUNK_CLIENT then or_1 _db_client_chunk_restore
  else lift_m (mmodify (λ s, RState (rs_loading s) (rs_version s) (drop (Z.to_nat len) (rs_file s)))).

(** [n] bounds the chunks: each has more than two bytes. *)
Fixpoint restore_loop (n : nat) : M rstate (Z + unit) :=
  let? s := lift_m mget in
  if bool_decide (length (rs_file s) < 2)%nat then done_with tt
  else
    match n with
    | O => undefined
    | S n' =>
        let? chunk := read_u16 in
        let? len := read_u32 in
        restore_chunk chunk len ?;
        restore_loop n'
    end.

Definition restore_file : M rstate (Z + Z) :=
  let? s := lift_m mget in
  let header := take 15 (rs_file s) in
  if bool_decide (header = []) then fail 0
  else
    let? header := read_e 15 in
    if negb (bool_decide (header = magic)) then done_with 1
    else
      let? _ := read_u32 in
      let? version := read_u32 in
      lift_m (mmodify (λ s, RState (rs_loading s) version (rs_file s))) ?;
      if (MOSQ_DB_VERSION <? version) && negb (version =? 0) && negb (version =? 2) then fail 1
      else
        let? s := lift_m mget in
        restore_loop (length (rs_file s)) ?;
        done_with 0.

(** [file]: what [fopen] finds. *)
Definition mqtt3_db_restore (file : option bytes) : M db Z := λ d,
  match file with
  | None => Some (MOSQ_ERR_SUCCESS, d)
  | Some f => '(rc, s) ← returns restore_file (RState (Loading d []) 0 f); Some (rc, ld_db (rs_loading s))
  end.

(** [mqtt3_db_open] with persistence. *)
Definition db_open_restored (listeners : nat) (file : option bytes) : option (Z * db) :=
  let '(rc, d) := mqtt3_db_open listeners in
  '(r, d) ← mqtt3_db_restore file d; Some (if r =? 0 then rc else 1, d).
End restore.
