(* ===== verification/Nodes.v ===== *)
(** * The nodes of the subscription tree

    The tree as the list of its nodes with their paths, in the order in which
    it is walked over when the database is saved, and the topic that is saved
    for a path. *)

From stdpp Require Import base list numbers strings option sets gmap.
From Stdlib Require Import ZArith Lia.
From S2P Require Import Prelude Topic Packet State Store Send Messages Db Subs DbInv Persist.
Local Open Scope Z_scope.

Definition under (b : subhier) (e : path * subhier) : path * subhier := (sh_topic b :: e.1, e.2).

Fixpoint nodes (h : subhier) : list (path * subhier) :=
  match h with
  | Subhier _ _ _ ch => ([], h) :: concat ((λ b, under b <$> nodes b) <$> ch)
  end.

Lemma nodes_cons h p n x :
  (x :: p, n) ∈ nodes h ↔ ∃ b, b ∈ sh_children h ∧ sh_topic b = x ∧ (p, n) ∈ nodes b.
Proof.
  destruct h as [t s r ch]. cbn [nodes sh_children]. rewrite elem_of_cons, elem_of_concat_fmap. split.
  - intros [[=]|(b & Hb & ([p' n'] & Heq & Hin)%list_elem_of_fmap)]. unfold under in Heq. cbn in Heq.
    injection Heq as -> -> ->. eauto.
  - intros (b & Hb & <- & Hin). right. exists b. split; [done|]. apply list_elem_of_fmap. by exists (p, n).
Qed.

Lemma nodes_nil h n : ([], n) ∈ nodes h ↔ n = h.
Proof.
  destruct h as [t s r ch]. cbn [nodes]. rewrite elem_of_cons, elem_of_concat_fmap. split.
  - intros [[= ->]|(b & _ & (e & [=] & _)%list_elem_of_fmap)]. done.
  - intros ->. by left.
Qed.

(** In a well-formed tree the nodes are what the paths find. *)
Lemma nodes_sub_at h p n : uniq (sh_children h) → (p, n) ∈ nodes h ↔ sub_at p h = Some n.
Proof.
  revert h. induction p as [|x p IH]; intros h Hu; [rewrite nodes_nil; cbn; naive_solver|].
  rewrite nodes_cons, sub_at_cons. inversion Hu as [ch Hn Hch]; subst. rewrite Forall_forall in Hch. split.
  - intros (b & Hb & Hx & Hin). assert (child x (sh_children h) = Some b) as -> by (by apply child_Some).
    cbn. apply IH; [by apply Hch|done].
  - destruct (child x (sh_children h)) as [b|] eqn:Hc; [|done]. apply child_Some in Hc as [Hb Hx]; [|done].
    cbn. intros Hs. exists b. split_and!; [done|done|]. apply IH; [by apply Hch|done].
Qed.

Lemma nodes_unique h : uniq (sh_children h) → NoDup (nodes h).*1.
Proof.
  induction h as [t s r ch IH] using subhier_ind'. cbn [sh_children nodes]. intros Hu. cbn [fmap list_fmap fst].
  inversion Hu as [? Hn Hch]; subst. apply NoDup_cons. split.
  { intros (e & He & (b & _ & (e' & -> & _)%list_elem_of_fmap)%elem_of_concat_fmap)%list_elem_of_fmap. done. }
  clear Hu. induction IH as [|b ch Hb _ IHch]; [apply NoDup_nil_2|]. cbn [fmap list_fmap concat] in *. apply NoDup_cons in Hn as [Hnb Hn].
  apply Forall_cons in Hch as [Hub Hch]. rewrite fmap_app. apply NoDup_app. split; [|split; [|by apply IHch]].
  - rewrite <-list_fmap_compose. change (NoDup (cons (sh_topic b) ∘ fst <$> nodes b)).
    rewrite list_fmap_compose. apply (NoDup_fmap_2 _), Hb, Hub.
  - intros p (e & -> & (e' & -> & _)%list_elem_of_fmap)%list_elem_of_fmap.
    intros (e2 & He & (b2 & Hb2 & (e3 & -> & _)%list_elem_of_fmap)%elem_of_concat_fmap)%list_elem_of_fmap.
    injection He as He _. apply Hnb. rewrite He. by apply list_elem_of_fmap_2.
Qed.

Lemma tree_refs_nodes h : tree_refs h = concat ((λ e, option_list (sh_retained e.2)) <$> nodes h).
Proof.
  induction h as [t s r ch IH] using subhier_ind'. cbn [tree_refs nodes fmap list_fmap concat snd sh_retained]. f_equal.
  induction IH as [|b ch Hb _ IHch]; [done|]. cbn [fmap list_fmap concat]. rewrite fmap_app, concat_app, <-IHch, Hb. f_equal.
  by rewrite <-list_fmap_compose.
Qed.

(** The retained messages are those at the paths. *)
Lemma tree_refs_at h s : uniq (sh_children h) → s ∈ tree_refs h ↔ ∃ p, ret_of p h = Some s.
Proof.
  intros Hu. rewrite tree_refs_nodes, elem_of_concat_fmap. unfold ret_of. split.
  - intros ([p n] & Hin & Hs). apply (nodes_sub_at h p n Hu) in Hin. exists p. rewrite Hin. cbn in *.
    destruct (sh_retained n); [|by apply elem_of_nil in Hs]. by apply list_elem_of_singleton in Hs as ->.
  - intros [p Hp]. destruct (sub_at p h) as [n|] eqn:Hn; [|done]. cbn in Hp. exists (p, n).
    split; [by apply nodes_sub_at|]. cbn. rewrite Hp. by apply list_elem_of_singleton.
Qed.

(** Below a [#] there is nothing. *)
Lemma sub_at_hash_last h p n : tree_ok (sh_children h) → sub_at p h = Some n → hash_last p.
Proof.
  revert h. induction p as [|x p IH]; intros h Hok Hn; cbn [hash_last]; [done|]. rewrite sub_at_cons in Hn.
  destruct (child x (sh_children h)) as [b|] eqn:Hb; [|done]. cbn [mbind option_bind] in Hn.
  destruct (tree_ok_child _ _ _ Hok Hb) as [[Hh Hb'] <-]. split; [|by eapply IH]. intros Hx%Hh. destruct p as [|y p]; [done|].
  rewrite sub_at_cons, Hx in Hn. done.
Qed.

(** ** Topics *)

(** The topic of the node that is reached from one at [level] with [topic]. *)
Fixpoint topic_from (level : nat) (topic : bytes) (p : path) : bytes :=
  match p with [] => topic | x :: p' => topic_from (S level) (join_topic level topic x) p' end.

(** The topic of a place in the tree; its first token is there twice. *)
Definition topic_of (p : path) : bytes := match p with [] => [] | _ :: p' => topic_from 0 [] p' end.

Lemma topic_from_deep level topic p :
  (1 < level)%nat ∨ topic ≠ [] → p ≠ [] → topic_from level topic p = topic ++ c_slash :: join_levels p.
Proof.
  revert level topic. induction p as [|x p IH]; intros level topic Hl Hp; [done|]. cbn [topic_from].
  assert (Hj : join_topic level topic x = topic ++ c_slash :: x).
  { unfold join_topic. destruct Hl as [Hl|Hl]; [by rewrite bool_decide_eq_true_2|].
    by rewrite (bool_decide_eq_false_2 (topic = [])), orb_true_r. }
  rewrite Hj. destruct p as [|y p]; [done|]. rewrite IH; [|right; by destruct topic|done].
  rewrite join_levels_cons, <-app_assoc. done.
Qed.

(** What is saved for a subscription or a retained message is its topic. *)
Lemma topic_of_sub_path s : topic_of (sub_path s) = s.
Proof.
  unfold topic_of, sub_path, tokens. destruct (dollar s) eqn:Hd; cbn [app].
  - destruct (levels_dollar s Hd) as (l & ls & Hl). rewrite Hl. cbn [topic_from].
    assert (Hj : join_topic 0 [] (c_dollar :: l) = c_dollar :: l) by done. rewrite Hj. etrans; [|apply join_levels_levels].
    rewrite Hl. destruct ls as [|y ls]; [done|]. rewrite topic_from_deep; [done|by right|done].
  - cbn [topic_from]. assert (Hj : join_topic 0 [] [] = []) by done. rewrite Hj. etrans; [|apply join_levels_levels].
    destruct (levels s) as [|x [|y ls]]; [done|done|].
    change (topic_from 1 [] (x :: y :: ls)) with (topic_from 2 x (y :: ls)). rewrite topic_from_deep; [by rewrite join_levels_cons|left; lia|done].
Qed.
