(* ===== verification/Snapshot.v ===== *)
(** * The format of the database file (src/persist.c)

    The file as a list of typed chunks: what the writer puts into it is the
    encoding of the chunks of [snapshot], on a disk of any size a prefix of
    it, and what the reader does with an encoded chunk is [apply_chunk]. *)

From stdpp Require Import base list numbers strings option sets gmap infinite.
From Stdlib Require Import ZArith Lia.
From S2P Require Import Prelude Topic Packet State Store Send Messages Db Subs Acl Context Handlers Persist.
Local Open Scope Z_scope.
Local Open Scope broker_scope.

(** ** Chunks *)

Inductive chunk :=
| KCfg (at_shutdown : bool) (last : Z)
| KStore (i : Z) (source : bytes) (smid m : Z) (topic : option bytes) (q : Z) (r : bool) (pl : bytes)
| KClient (cid : bytes) (lmid t : Z)
| KMsg (cid : bytes) (i m q : Z) (r : bool) (dir : msg_direction) (st : msg_state) (du : bool)
| KRetain (i : Z)
| KSub (cid topic : bytes) (q : Z).

Definition e8 (x : Z) : bytes := [u8 x].
Definition e16 (x : Z) : bytes := be_bytes 2 (u16 x).
Definition e32 (x : Z) : bytes := be_bytes 4 (u32 x).
Definition e64 (x : Z) : bytes := le_bytes 8 x.
(** A string cut to what its length field can say. *)
Definition cut (s : bytes) : bytes := take (Z.to_nat (u16 (slen s))) s.
Definition estr (s : bytes) : bytes := e16 (slen s) ++ cut s.

Definition encode (k : chunk) : bytes :=
  match k with
  | KCfg sh last => e16 DB_CHUNK_CFG ++ e32 (8 + 1 + 1) ++ e8 (bool_code sh) ++ e8 8 ++ e64 last
  | KStore i source smid m topic q r pl =>
      let t := default [] topic in
      e16 DB_CHUNK_MSG_STORE ++ e32 (8 + 2 + slen source + 2 + 2 + 2 + u16 (slen t) + 4 + slen pl + 1 + 1) ++
      e64 i ++ estr source ++ e16 smid ++ e16 m ++ estr t ++ e8 q ++ e8 (bool_code r) ++ e32 (slen pl) ++ pl
  | KClient cid lmid t =>
      e16 DB_CHUNK_CLIENT ++ e32 (2 + slen cid + 2 + 8) ++ estr cid ++ e16 lmid ++ e64 t
  | KMsg cid i m q r dir st du =>
      e16 DB_CHUNK_CLIENT_MSG ++ e32 (8 + 2 + 1 + 1 + 1 + 1 + 1 + 2 + u16 (slen cid)) ++ estr cid ++ e64 i ++ e16 m ++
      e8 q ++ e8 (bool_code r) ++ e8 (direction_code dir) ++ e8 (state_code st) ++ e8 (bool_code du)
  | KRetain i => e16 DB_CHUNK_RETAIN ++ e32 8 ++ e64 i
  | KSub cid topic q =>
      e16 DB_CHUNK_SUB ++ e32 (2 + slen cid + 2 + slen topic + 1) ++
      e16 (slen cid) ++ cid ++ e16 (slen topic) ++ topic ++ e8 q
  end.

Definition encode_all (ks : list chunk) : bytes := concat (encode <$> ks).
Definition header : bytes := magic ++ e32 0 ++ e32 MOSQ_DB_VERSION.

(** ** What is saved *)

Section snapshot.
Context (d : db).

Definition saved_msg (cid : bytes) (m : client_msg) : option (list chunk) :=
  st ← heap (dmsg d) !! cm_store m;
  t ← ms_topic st;
  Some (if sys_topic t && only_retained st then []
        else [KMsg cid (db_id st) (mid m) (qos m) (retain m) (direction m) (state m) (dup m)]).

Definition saved_store (st : msg_store) : list chunk :=
  let sys := match ms_topic st with Some t => sys_topic t | None => false end in
  if sys && only_retained st then []
  else [KStore (db_id st) (source_id st) (source_mid st) (ms_mid st) (ms_topic st) (ms_qos st)
          (if sys then false else ms_retain st) (ms_payload st)].

Definition saved_client (time : Z) (c : ptr) : option (list chunk) :=
  x ← contexts d !! c;
  if clean_session x then Some []
  else
    cid ← id x;
    ms ← mapM (saved_msg cid) (msgs x);
    Some (KClient cid (last_mid x) (if disconnect_t x =? 0 then time else disconnect_t x) :: concat ms).

Definition saved_leaf (topic : bytes) (lf : subleaf) : option (list chunk) :=
  x ← contexts d !! lf_context lf;
  if clean_session x then Some [] else cid ← id x; Some [KSub cid topic (lf_qos lf)].

Definition saved_retained (r : option ptr) : option (list chunk) :=
  match r with
  | None => Some []
  | Some s =>
      st ← heap (dmsg d) !! s;
      t ← ms_topic st;
      Some (if sys_topic t then [] else [KRetain (db_id st)])
  end.

Fixpoint saved_node (topic : bytes) (level : nat) (h : subhier) : option (list chunk) :=
  match h with
  | Subhier t leaves retained children =>
      let thistopic := join_topic level topic t in
      ls ← mapM (saved_leaf thistopic) leaves;
      r ← saved_retained retained;
      cs ← (fix saved_children (l : list subhier) : option (list chunk) :=
              match l with
              | [] => Some []
              | h' :: l' => k ← saved_node thistopic (S level) h'; ks ← saved_children l'; Some (k ++ ks)
              end) children;
      Some (concat ls ++ r ++ cs)
  end.

Definition saved_root (h : subhier) : option (list chunk) :=
  match sh_children h with [] => Some [] | h' :: _ => saved_node [] 0 h' end.

(** The part whose failure is noticed, and the rest. *)
Definition saved_first (at_shutdown : bool) : option (list chunk) :=
  ss ← mapM (λ s, saved_store <$> heap (dmsg d) !! s) (msg_list (dmsg d));
  Some (KCfg at_shutdown (last_db_id (dmsg d)) :: concat ss).
Definition saved_clients (time : Z) : option (list chunk) :=
  ks ← mapM (saved_client time) (contexts_by_id d).*2; Some (concat ks).
Definition saved_tree : option (list chunk) :=
  ks ← mapM saved_root (subs_children d); Some (concat ks).

Definition snapshot (time : Z) (at_shutdown : bool) : option (list chunk) :=
  k1 ← saved_first at_shutdown; k2 ← saved_clients time; k3 ← saved_tree; Some (k1 ++ k2 ++ k3).
End snapshot.

(** ** The writer *)

(** The stream [f], from which a file with room for [R] bytes was opened, after
    the bytes [T]: they are in the file and in the buffer, which has what stdio
    left in it; or the disk is full, which was found when stdio passed
    something on, and the file has what fits of them. *)
Record fine (R : option nat) (T : bytes) (f : wfile) : Prop := {
  fi_bytes : wf_data f ++ wf_buf f = T;
  fi_room : wf_room f = (λ r, (r - length (wf_data f))%nat) <$> R;
  fi_fits r : R = Some r → (length (wf_data f) ≤ r)%nat;
  fi_buf : ∃ n, length (wf_buf f) = (n - wf_stdio f n)%nat;
}.
Record stuck (R : option nat) (T : bytes) (f : wfile) : Prop := {
  st_room : wf_room f = Some 0%nat;
  st_data : ∃ r, R = Some r ∧ wf_data f = take r T ∧ (r < length T)%nat;
  st_passed : ∃ n, (n ≤ length T)%nat ∧ wf_stdio f n ≠ 0%nat;
}.
Definition holds (R : option nat) (T : bytes) (f : wfile) : Prop := fine R T f ∨ stuck R T f.

Lemma stuck_app R T bs f : stuck R T f → stuck R (T ++ bs) f.
Proof.
  intros [Hr (r & -> & Hd & Hl) (n & Hn & Hs)]. split; [done|..]; rewrite length_app.
  - exists r. rewrite take_app_le by lia. split_and!; [done|done|lia].
  - exists n. split; [lia|done].
Qed.

(** What one [fwrite] does: what stdio passes on is at most what is in the
    buffer. *)
Lemma write_e_fine R T bs f :
  fine R T f →
  ∃ f', (write_e bs f = Some (inr tt, f') ∧ fine R (T ++ bs) f' ∨ write_e bs f = Some (inl 1, f') ∧ stuck R (T ++ bs) f') ∧
    wf_stdio f' = wf_stdio f.
Proof.
  intros [Hb Hr Hf _]. unfold write_e. set (buf := wf_buf f ++ bs). set (n := Nat.min (wf_stdio f (length buf)) (length buf)).
  set (f0 := WFile (wf_data f) buf (wf_room f) (wf_stdio f)).
  assert (Hn : (n ≤ length buf)%nat) by lia. assert (HT : T ++ bs = wf_data f ++ buf) by (unfold buf; by rewrite <-Hb, app_assoc).
  assert (Hlen : (length (T ++ bs) = length (wf_data f) + length buf)%nat) by (by rewrite HT, length_app).
  assert (Hleft : ∃ k, length (drop n buf) = (k - wf_stdio f k)%nat) by (exists (length buf); rewrite length_drop; lia).
  exists (pass_on n f0). split; [|done]. unfold pass_on. cbn [wf_room wf_data wf_buf f0]. rewrite Hr. destruct R as [r|]; cbn.
  - specialize (Hf r eq_refl). rewrite length_app, length_take. destruct (decide (n ≤ r - length (wf_data f))%nat) as [Hle|Hgt].
    + left. rewrite decide_True by lia. split; [done|]. rewrite Nat.min_l by lia. split; cbn.
      * by rewrite HT, <-app_assoc, take_drop.
      * f_equal. rewrite length_app, length_take. lia.
      * intros r' [= <-]. rewrite length_app, length_take. lia.
      * done.
    + right. rewrite decide_False by lia. split; [done|]. rewrite Nat.min_r by lia. split; cbn; [f_equal; lia|..].
      * exists r. split; [done|]. rewrite HT. split; [|rewrite length_app; lia]. by rewrite take_app_ge by lia.
      * exists (length buf). split; lia.
  - left. rewrite length_app, length_take, decide_True by lia. split; [done|]. split; cbn; [|done..].
    by rewrite HT, <-app_assoc, take_drop.
Qed.

Lemma write_e_stuck R T bs f : stuck R T f → ∃ res f', write_e bs f = Some (res, f') ∧ stuck R (T ++ bs) f'.
Proof.
  intros Hs. pose proof (stuck_app R T bs f Hs) as [Hr Hd Hp]. do 2 eexists. split; [done|].
  unfold pass_on. cbn [wf_room wf_data wf_buf]. rewrite Hr, Nat.min_0_r. split; [done|..]; cbn; [by rewrite app_nil_r|done].
Qed.

(** [m] writes the bytes [bs] and fails when the disk is found to be full. *)
Record writes (bs : bytes) (m : M wfile (Z + unit)) : Prop := {
  wr_fine R T f : fine R T f →
    ∃ f', (m f = Some (inr tt, f') ∧ fine R (T ++ bs) f' ∨ m f = Some (inl 1, f') ∧ stuck R (T ++ bs) f') ∧ wf_stdio f' = wf_stdio f;
  wr_stuck R T f : stuck R T f → ∃ res f', m f = Some (res, f') ∧ stuck R (T ++ bs) f';
}.
(** The same, but a failure may be ignored. *)
Definition puts {A} (bs : bytes) (m : M wfile A) : Prop :=
  ∀ R T f, holds R T f → ∃ r f', m f = Some (r, f') ∧ holds R (T ++ bs) f'.

Lemma writes_nil : writes [] (done_with tt).
Proof.
  split; intros R T f Hf; rewrite app_nil_r; [|by exists (inr tt), f]. exists f. split; [by left|done].
Qed.

Lemma writes_seq a b m k : writes a m → writes b k → writes (a ++ b) (m ?; k).
Proof.
  intros [Hm1 Hm2] [Hk1 Hk2]. split; intros R T f Hf; unfold ebind, bind; rewrite (assoc_L (++)).
  - destruct (Hm1 R T f Hf) as (f1 & [[-> Hf1]|[-> Hf1]] & Hp1).
    + destruct (Hk1 R _ f1 Hf1) as (f2 & Hf2 & Hp2). exists f2. split; [done|congruence].
    + exists f1. split; [|done]. right. split; [done|by apply stuck_app].
  - destruct (Hm2 R T f Hf) as ([e|[]] & f1 & -> & Hf1); [|by apply Hk2]. exists (inl e), f1. split; [done|by apply stuck_app].
Qed.

Lemma writes_puts bs m : writes bs m → puts bs m.
Proof.
  intros [Hm1 Hm2] R T f [Hf|Hf].
  - destruct (Hm1 R T f Hf) as (f' & [[-> Hf']|[-> Hf']] & _); do 2 eexists; (split; [done|]); [by left|by right].
  - destruct (Hm2 R T f Hf) as (res & f' & -> & Hf'). do 2 eexists. split; [done|by right].
Qed.

Lemma puts_nil {A} (a : A) : puts [] (ret a).
Proof. intros R T f Hf. exists a, f. by rewrite app_nil_r. Qed.

Lemma puts_seq {A B} a b (m : M wfile A) (k : M wfile B) : puts a m → puts b k → puts (a ++ b) (m ;;; k).
Proof.
  intros Hm Hk R T f Hf. destruct (Hm R T f Hf) as (r & f1 & Hr & Hf1). destruct (Hk R _ f1 Hf1) as (r' & f2 & Hr' & Hf2).
  exists r', f2. unfold bind. by rewrite Hr, Hr', (assoc_L (++)).
Qed.

Lemma puts_then {A} a b m (k : M wfile (Z + A)) : writes a m → puts b k → puts (a ++ b) (m ?; k).
Proof.
  intros [Hm1 Hm2] Hk R T f Hf. unfold ebind, bind. rewrite (assoc_L (++)).
  assert (Hst : ∀ f1 (e : Z), stuck R (T ++ a) f1 → ∃ r f', @ret wfile (Z + A) (inl e) f1 = Some (r, f') ∧ holds R ((T ++ a) ++ b) f').
  { intros f1 e H1. exists (inl e), f1. split; [done|right; by apply stuck_app]. }
  destruct Hf as [Hf|Hf].
  - destruct (Hm1 R T f Hf) as (f1 & [[-> Hf1]|[-> Hf1]] & _); [apply Hk; by left|by apply Hst].
  - destruct (Hm2 R T f Hf) as ([e|[]] & f1 & -> & Hf1); [by apply Hst|apply Hk; by right].
Qed.

Lemma puts_lift {A} a (m : M wfile A) : puts a m → puts a (lift_m m).
Proof. intros Hm R T f Hf. destruct (Hm R T f Hf) as (r & f' & Hr & Hf'). exists (inr r), f'. unfold lift_m, bind. by rewrite Hr. Qed.

(** A pointer that is followed. *)
Lemma writes_deref {A} bs (o : option A) a k : o = Some a → writes bs (k a) → writes bs (let? x := lift_m (mlift o) in k x).
Proof. intros -> [H1 H2]. split; [apply H1|apply H2]. Qed.

Lemma writes_e bs : writes bs (write_e bs).
Proof. split; intros R T f; [apply write_e_fine|apply write_e_stuck]. Qed.

Lemma writes_unless bs b : (b = true → bs = []) → writes bs (if b : bool then done_with tt else write_e bs).
Proof. destruct b; [|intros _; apply writes_e]. intros ->; [|done]. apply writes_nil. Qed.

Lemma u16_range x : 0 ≤ u16 x < 65536.
Proof. unfold u16. by apply Z.mod_pos_bound. Qed.
Lemma u16_idemp x : u16 (u16 x) = u16 x.
Proof. unfold u16. by rewrite Z.mod_mod. Qed.

Lemma cut_nil s : (u16 (slen s) =? 0) = true → cut s = [].
Proof. unfold cut. intros ->%Z.eqb_eq. done. Qed.

Lemma slen_nil s : (slen s =? 0) = true → s = [].
Proof. unfold slen. intros Hl%Z.eqb_eq. destruct s; [done|cbn in Hl; lia]. Qed.

(** One field after the other. *)
Ltac write_field := first [apply writes_e | apply writes_unless; first [exact (cut_nil _) | exact (slen_nil _)]].
Ltac writes := repeat (apply writes_seq; [write_field|]); try write_field.

Lemma encode_all_cons k ks : encode_all (k :: ks) = encode k ++ encode_all ks.
Proof. done. Qed.
Lemma encode_all_app ks ks' : encode_all (ks ++ ks') = encode_all ks ++ encode_all ks'.
Proof. unfold encode_all. by rewrite fmap_app, concat_app. Qed.
Lemma encode_all_nil : encode_all [] = [].
Proof. done. Qed.

Section writer.
Context (d : db).

Lemma store_write_ok st : writes (encode_all (saved_store st)) (store_write st).
Proof.
  unfold store_write, saved_store. set (sys := match ms_topic st with Some t => sys_topic t | None => false end).
  destruct (sys && only_retained st); [apply writes_nil|]. cbv zeta. rewrite encode_all_cons, encode_all_nil, app_nil_r.
  cbn [encode]. unfold estr. rewrite <-!app_assoc. unfold payloadlen. fold (slen (ms_payload st)).
  replace (write_u16 (u16 (slen (source_id st)))) with (write_u16 (slen (source_id st)))
    by (unfold write_u16; by rewrite u16_idemp).
  replace (write_u16 (u16 (slen (default [] (ms_topic st))))) with (write_u16 (slen (default [] (ms_topic st))))
    by (unfold write_u16; by rewrite u16_idemp).
  replace (write_u8 (if sys then 0 else bool_code (ms_retain st)))
    with (write_u8 (bool_code (if sys then false else ms_retain st))) by (by destruct sys).
  writes.
Qed.

Lemma message_store_write_ok l ss :
  mapM (λ s, saved_store <$> heap (dmsg d) !! s) l = Some ss →
  writes (encode_all (concat ss)) (mqtt3_db_message_store_write d l).
Proof.
  revert ss. induction l as [|s l IH]; intros ss Hm; cbn [mapM] in Hm; [injection Hm as <-; apply writes_nil|].
  destruct (heap (dmsg d) !! s) as [st|] eqn:Hs; [|done]. cbn [mbind option_bind] in Hm.
  destruct (mapM _ l) as [ss'|]; [|done]. injection Hm as <-. cbn [concat]. rewrite encode_all_app.
  eapply writes_deref; [exact Hs|]. apply writes_seq; [apply store_write_ok|by apply IH].
Qed.

Lemma client_messages_write_ok cid l ks :
  mapM (saved_msg d cid) l = Some ks → writes (encode_all (concat ks)) (mqtt3_db_client_messages_write d cid l).
Proof.
  revert ks. induction l as [|m l IH]; intros ks Hm; cbn [mapM] in Hm; [injection Hm as <-; apply writes_nil|].
  destruct (saved_msg d cid m) as [k|] eqn:Hk; [|done]. cbn [mbind option_bind] in Hm.
  destruct (mapM _ l) as [ks'|]; [|done]. injection Hm as <-. specialize (IH _ eq_refl). cbn [concat]. unfold saved_msg in Hk.
  destruct (heap (dmsg d) !! cm_store m) as [st|] eqn:Hs; [|done]. cbn [mbind option_bind] in Hk.
  destruct (ms_topic st) as [t|] eqn:Ht; [|done]. injection Hk as <-.
  eapply writes_deref; [exact Hs|]. eapply writes_deref; [exact Ht|].
  destruct (sys_topic t && only_retained st); [done|]. cbv zeta. cbn [app]. rewrite encode_all_cons.
  cbn [encode]. unfold estr. rewrite <-!app_assoc.
  replace (write_u16 (u16 (slen cid))) with (write_u16 (slen cid)) by (unfold write_u16; by rewrite u16_idemp).
  writes. exact IH.
Qed.

Lemma client_write_ok time l ks :
  mapM (saved_client d time) l = Some ks → writes (encode_all (concat ks)) (mqtt3_db_client_write d time l).
Proof.
  revert ks. induction l as [|c l IH]; intros ks Hm; cbn [mapM] in Hm; [injection Hm as <-; apply writes_nil|].
  destruct (saved_client d time c) as [k|] eqn:Hk; [|done]. cbn [mbind option_bind] in Hm.
  destruct (mapM _ l) as [ks'|]; [|done]. injection Hm as <-. cbn [concat]. rewrite encode_all_app. unfold saved_client in Hk.
  destruct (contexts d !! c) as [x|] eqn:Hx; [|done]. cbn [mbind option_bind] in Hk.
  eapply writes_deref; [exact Hx|]. apply writes_seq; [|by apply IH].
  destruct (clean_session x); [injection Hk as <-; apply writes_nil|].
  destruct (id x) as [cid|] eqn:Hid; [|done]. cbn in Hk.
  destruct (mapM (saved_msg d cid) (msgs x)) as [ms|] eqn:Hms; [|done]. injection Hk as <-. rewrite encode_all_cons.
  eapply writes_deref; [done|]. cbv zeta. cbn [encode]. unfold estr. rewrite <-!app_assoc.
  replace (write_u16 (u16 (slen cid))) with (write_u16 (slen cid)) by (unfold write_u16; by rewrite u16_idemp).
  writes. by apply client_messages_write_ok.
Qed.

Lemma subs_write_ok topic l ks :
  mapM (saved_leaf d topic) l = Some ks → writes (encode_all (concat ks)) (subs_write d topic l).
Proof.
  revert ks. induction l as [|lf l IH]; intros ks Hm; cbn [mapM] in Hm; [injection Hm as <-; apply writes_nil|].
  destruct (saved_leaf d topic lf) as [k|] eqn:Hk; [|done]. cbn [mbind option_bind] in Hm.
  destruct (mapM _ l) as [ks'|]; [|done]. injection Hm as <-. cbn [concat]. rewrite encode_all_app. unfold saved_leaf in Hk.
  destruct (contexts d !! lf_context lf) as [x|] eqn:Hx; [|done]. cbn [mbind option_bind] in Hk.
  eapply writes_deref; [exact Hx|]. apply writes_seq; [|by apply IH].
  destruct (clean_session x); [injection Hk as <-; apply writes_nil|].
  destruct (id x) as [cid|] eqn:Hid; [|done]. injection Hk as <-. eapply writes_deref; [done|].
  rewrite encode_all_cons, encode_all_nil, app_nil_r. cbn [encode]. writes.
Qed.

Lemma retained_write_ok r ks : saved_retained d r = Some ks → writes (encode_all ks) (retained_write d r).
Proof.
  unfold saved_retained, retained_write. destruct r as [s|]; [|intros [= <-]; apply writes_nil].
  destruct (heap (dmsg d) !! s) as [st|] eqn:Hs; [|done]. cbn.
  destruct (ms_topic st) as [t|] eqn:Ht; [|done]. intros [= <-].
  eapply writes_deref; [exact Hs|]. eapply writes_deref; [exact Ht|].
  destruct (sys_topic t); [apply writes_nil|]. rewrite encode_all_cons, encode_all_nil, app_nil_r. cbn [encode]. writes.
Qed.

Lemma node_write_ok h topic level ks :
  saved_node d topic level h = Some ks → puts (encode_all ks) (_db_subs_retain_write d topic level h).
Proof.
  revert topic level ks. induction h as [t leaves r ch IH] using subhier_ind'. intros topic level ks Hk.
  cbn [saved_node] in Hk. cbn [_db_subs_retain_write]. cbv zeta in *. set (this := join_topic level topic t) in *.
  destruct (mapM _ leaves) as [ls|] eqn:Hl; [|done]. cbn [mbind option_bind] in Hk.
  destruct (saved_retained d r) as [rs|] eqn:Hr; [|done]. cbn [mbind option_bind] in Hk.
  destruct (_ ch) as [cs|] eqn:Hc in Hk; [|done]. injection Hk as <-. rewrite !encode_all_app.
  apply puts_then; [by apply subs_write_ok|]. apply puts_then; [by apply retained_write_ok|]. apply puts_lift.
  revert cs Hc. induction IH as [|h ch Hh _ IHch]; intros cs Hc; [injection Hc as <-; apply puts_nil|].
  destruct (saved_node d this (S level) h) as [k|] eqn:Hk; [|done]. cbn [mbind option_bind] in Hc.
  destruct (_ ch) as [cs'|] eqn:Hc' in Hc; [|done]. injection Hc as <-. rewrite encode_all_app.
  apply puts_seq; [by apply Hh|by apply IHch].
Qed.

Lemma tree_write_ok l ks :
  mapM (saved_root d) l = Some ks → puts (encode_all (concat ks)) (mqtt3_db_subs_retain_write d l).
Proof.
  revert ks. induction l as [|h l IH]; intros ks Hm; cbn [mapM] in Hm; [injection Hm as <-; apply puts_nil|].
  destruct (saved_root d h) as [k|] eqn:Hk; [|done]. cbn [mbind option_bind] in Hm.
  destruct (mapM _ l) as [ks'|]; [|done]. injection Hm as <-. cbn [concat]. rewrite encode_all_app.
  apply puts_seq; [|by apply IH]. unfold saved_root in Hk. destruct (sh_children h) as [|h' ch]; [injection Hk as <-; apply puts_nil|].
  rewrite <-(app_nil_r (encode_all k)). apply puts_seq; [by apply node_write_ok|apply puts_nil].
Qed.

Lemma write_first_ok sh k1 : saved_first d sh = Some k1 → writes (header ++ encode_all k1) (write_first d sh).
Proof.
  unfold saved_first. intros H1. destruct (mapM _ (msg_list _)) as [ss|] eqn:Hs; [|done]. injection H1 as <-.
  unfold header. rewrite encode_all_cons. cbn [encode]. rewrite <-!app_assoc. unfold write_first. writes. by apply message_store_write_ok.
Qed.

(** A disk that is full is noticed while the header, the configuration and the
    store are written; of the rest what fits is written. *)
Lemma write_db_ok time sh k1 k2 k3 R T f :
  saved_first d sh = Some k1 → saved_clients d time = Some k2 → saved_tree d = Some k3 → fine R T f →
  ∃ f1, (write_first d sh f = Some (inl 1, f1) ∧ write_db d time sh f = Some (inl 1, f1) ∧ stuck R (T ++ header ++ encode_all k1) f1 ∨
    write_first d sh f = Some (inr tt, f1) ∧ fine R (T ++ header ++ encode_all k1) f1 ∧
    ∃ f2, write_db d time sh f = Some (inr tt, f2) ∧ holds R (T ++ header ++ encode_all (k1 ++ k2 ++ k3)) f2) ∧ wf_stdio f1 = wf_stdio f.
Proof.
  intros H1 H2 H3 Hf. destruct (wr_fine _ _ (write_first_ok sh k1 H1) R T f Hf) as (f1 & Hf1 & Hp). exists f1. split; [|done].
  unfold saved_clients, saved_tree in H2, H3.
  destruct (mapM _ (contexts_by_id d).*2) as [cs|] eqn:Hc; [|done]. injection H2 as <-.
  destruct (mapM _ (subs_children d)) as [ts|] eqn:Ht; [|done]. injection H3 as <-.
  unfold write_db, ebind, bind at 1 3. destruct Hf1 as [[E Hf1]|[E Hf1]]; rewrite E; [right|left; done].
  split; [done|]. split; [done|].
  assert (Hrest : puts (encode_all (concat cs ++ concat ts))
    (mqtt3_db_client_write d time (contexts_by_id d).*2 ;;; mqtt3_db_subs_retain_write d (subs_children d))).
  { rewrite encode_all_app. apply puts_seq; [by apply writes_puts, client_write_ok|by apply tree_write_ok]. }
  destruct (Hrest R _ f1 (or_introl Hf1)) as ([] & f2 & Hr & Hf2). exists f2. unfold lift_m, bind at 1. rewrite Hr. split; [done|].
  rewrite (encode_all_app k1). by rewrite <-!(assoc_L (++)) in Hf2.
Qed.
End writer.

(** ** Integers *)

Lemma le_value_bytes n x : le_value (le_bytes n x) = x `mod` 256 ^ Z.of_nat n.
Proof.
  revert x. induction n as [|n IH]; intros x; cbn [le_bytes le_value]; [by rewrite Z.mod_1_r|].
  rewrite IH, Nat2Z.inj_succ, Z.pow_succ_r, Z.rem_mul_r by lia. lia.
Qed.

Lemma length_le_bytes n x : length (le_bytes n x) = n.
Proof. revert x. induction n; intros x; cbn; auto. Qed.

Lemma length_be_bytes n x : length (be_bytes n x) = n.
Proof. unfold be_bytes. by rewrite length_reverse, length_le_bytes. Qed.

Lemma be_value_bytes n x : be_value (be_bytes n x) = x `mod` 256 ^ Z.of_nat n.
Proof. unfold be_value, be_bytes. by rewrite reverse_involutive, le_value_bytes. Qed.

Lemma s64_signed t : - 2 ^ 63 ≤ t < 2 ^ 63 → s64 (t `mod` 2 ^ 64) = t.
Proof. intros Ht. unfold s64. rewrite Zplus_mod_idemp_l, Z.mod_small; lia. Qed.

(** ** The reader *)

(** [m] reads [a] from the bytes [bs] and leaves the rest. *)
Definition reads {A} (bs : bytes) (a : A) (m : M rstate (Z + A)) : Prop :=
  ∀ l v rest, m (RState l v (bs ++ rest)) = Some (inr a, RState l v rest).

Lemma reads_e bs : reads bs bs (read_e (length bs)).
Proof.
  intros l v rest. unfold read_e. cbn [rs_file rs_loading rs_version].
  rewrite decide_True by (rewrite length_app; lia). by rewrite take_app_length, drop_app_length.
Qed.

Lemma reads_then {A B} bs bs' a b m (k : A → M rstate (Z + B)) :
  reads bs a m → reads bs' b (k a) → reads (bs ++ bs') b (let? x := m in k x).
Proof. intros Hm Hk l v rest. unfold ebind, bind. rewrite <-app_assoc, Hm. apply Hk. Qed.

Lemma reads_map {A B} bs a m (k : A → B) : reads bs a m → reads bs (k a) (let? x := m in done_with (k x)).
Proof. intros Hm l v rest. unfold ebind, bind. by rewrite Hm. Qed.

Lemma reads_nil {A} (a : A) : reads [] a (done_with a).
Proof. done. Qed.

Lemma reads_e8 x : 0 ≤ x < 256 → reads (e8 x) x read_u8.
Proof.
  intros Hx. unfold read_u8. replace x with (le_value (e8 x)) at 2; [apply reads_map, (reads_e (e8 x))|].
  cbn. unfold u8. rewrite Z.mod_small; lia.
Qed.

Lemma reads_e16 x : 0 ≤ x < 65536 → reads (e16 x) x read_u16.
Proof.
  intros Hx. unfold read_u16. replace x with (be_value (e16 x)) at 2;
    [replace 2%nat with (length (e16 x)) by apply length_be_bytes; apply reads_map, reads_e|].
  unfold e16, u16. rewrite be_value_bytes, Z.mod_mod, Z.mod_small; lia.
Qed.

Lemma reads_e32 x : 0 ≤ x < 2 ^ 32 → reads (e32 x) x read_u32.
Proof.
  intros Hx. unfold read_u32. replace x with (be_value (e32 x)) at 2;
    [replace 4%nat with (length (e32 x)) by apply length_be_bytes; apply reads_map, reads_e|].
  unfold e32, u32. rewrite be_value_bytes. change (256 ^ Z.of_nat 4) with 4294967296. rewrite Z.mod_mod, Z.mod_small; lia.
Qed.

Lemma reads_u32 x : reads (e32 x) (u32 x) read_u32.
Proof.
  replace (e32 x) with (e32 (u32 x)) by (unfold e32, u32; by rewrite Z.mod_mod).
  apply reads_e32. unfold u32. by apply Z.mod_pos_bound.
Qed.

Lemma reads_e64 x : reads (e64 x) (x `mod` 2 ^ 64) read_u64.
Proof.
  unfold read_u64. replace (x `mod` 2 ^ 64) with (le_value (e64 x));
    [replace 8%nat with (length (e64 x)) by apply length_le_bytes; apply reads_map, reads_e|].
  apply le_value_bytes.
Qed.

Lemma reads_str s : 0 ∉ s → reads s s (read_str (slen s)).
Proof.
  intros H0. unfold read_str, slen. rewrite Nat2Z.id. rewrite <-(cstr_id s H0) at 2. apply reads_map, reads_e.
Qed.

(** Strings that the format can hold. *)
Definition str_ok (s : bytes) : Prop := 0 ∉ s ∧ slen s < 65536.

Lemma slen_nonneg s : 0 ≤ slen s.
Proof. unfold slen. lia. Qed.

Lemma estr_ok s : str_ok s → estr s = e16 (slen s) ++ s.
Proof.
  intros [_ Hl]. unfold estr, cut, u16. pose proof (slen_nonneg s). rewrite Z.mod_small by lia.
  unfold slen. by rewrite Nat2Z.id, take_ge.
Qed.

Lemma slen_zero s : slen s = 0 ↔ s = [].
Proof. unfold slen. destruct s; cbn; split; intros; try done; lia. Qed.

Lemma bool_code_range b : 0 ≤ bool_code b < 256.
Proof. by destruct b. Qed.
Lemma direction_code_range x : 0 ≤ direction_code x < 256.
Proof. by destruct x. Qed.
Lemma state_code_range x : 0 ≤ state_code x < 256.
Proof. by destruct x. Qed.

(** What a chunk can hold. *)
Definition chunk_ok (k : chunk) : Prop :=
  match k with
  | KCfg _ last => 0 ≤ last < 2 ^ 64
  | KStore i source smid m topic q r pl =>
      0 ≤ i < 2 ^ 64 ∧ str_ok source ∧ 0 ≤ smid < 65536 ∧ 0 ≤ m < 65536 ∧
      match topic with Some t => str_ok t ∧ t ≠ [] | None => True end ∧ 0 ≤ q < 256 ∧ slen pl < 2 ^ 32
  | KClient cid lmid t => str_ok cid ∧ cid ≠ [] ∧ 0 ≤ lmid < 65536 ∧ - 2 ^ 63 ≤ t < 2 ^ 63
  | KMsg cid i m q r dir st du => str_ok cid ∧ cid ≠ [] ∧ 0 ≤ i < 2 ^ 64 ∧ 0 ≤ m < 65536 ∧ 0 ≤ q < 256
  | KRetain i => 0 ≤ i < 2 ^ 64
  | KSub cid topic q => str_ok cid ∧ str_ok topic ∧ 0 ≤ q < 256
  end.

#[export] Instance chunk_ok_dec k : Decision (chunk_ok k).
Proof. destruct k as [| ? ? ? ? [t|] ? ? ?| | | |]; cbn; unfold str_ok; apply _. Defined.

Section reader.
Context (E : env) `{Access} (time : Z).

(** What the restoring of a chunk does once it has been read. *)
Definition checked {S} (m : M S Z) : M S (Z + unit) :=
  let* rc := m in if rc =? 0 then done_with tt else fail 1.

Definition apply_chunk (k : chunk) : M loading (Z + unit) :=
  match k with
  | KCfg _ last => lift_m (on_db (set_last_db_id last))
  | KStore i source smid m topic q r pl => lift_m (restore_store i source smid topic q (bool_code r) pl)
  | KClient cid lmid t => lift_m (restore_client E cid lmid t)
  | KMsg cid i m q r dir st du =>
      checked (_db_client_msg_restore E cid m q (bool_code r) (direction_code dir) (state_code st) (bool_code du) i)
  | KRetain i => checked (restore_retained E i)
  | KSub cid topic q => checked (on_db (_db_restore_sub E cid topic q))
  end.

Fixpoint apply_all (ks : list chunk) : M loading (Z + unit) :=
  match ks with [] => done_with tt | k :: ks' => apply_chunk k ?; apply_all ks' end.

(** [m] reads the bytes [bs] of a file of the current version, and acts on the
    database as [act] does. *)
Definition performs (bs : bytes) (act : M loading (Z + unit)) (m : M rstate (Z + unit)) : Prop :=
  ∀ l rest, m (RState l MOSQ_DB_VERSION (bs ++ rest)) =
    match act l with Some (r, l') => Some (r, RState l' MOSQ_DB_VERSION rest) | None => None end.

Lemma performs_read {A} bs bs' (a : A) act m k :
  reads bs a m → performs bs' act (k a) → performs (bs ++ bs') act (let? x := m in k x).
Proof. intros Hm Hk l rest. unfold ebind, bind. rewrite <-app_assoc, Hm. apply Hk. Qed.

Lemma performs_act (act : M loading unit) : performs [] (lift_m act) (lift_m (on_loading act)).
Proof. intros l rest. unfold lift_m, bind, on_loading. cbn. by destruct (act l) as [[[] l']|]. Qed.

Lemma performs_code (act : M loading Z) (f : Z → Z) :
  performs [] (let? r := lift_m act in if r =? 0 then done_with tt else fail (f r))
    (let? r := lift_m (on_loading act) in if r =? 0 then done_with tt else fail (f r)).
Proof.
  intros l rest. unfold ebind, lift_m, bind, on_loading. cbn. destruct (act l) as [[r l']|]; [|done]. cbn. by destruct (r =? 0).
Qed.

Lemma performs_or_1 bs act act' m :
  performs bs act m → (∀ l, or_1 act l = act' l) → performs bs act' (or_1 m).
Proof.
  intros Hm Ha l rest. rewrite <-Ha. unfold or_1, bind. rewrite Hm. by destruct (act l) as [[r l']|].
Qed.

Lemma or_1_code (act : M loading Z) f l :
  or_1 (let? r := lift_m act in if r =? 0 then done_with tt else fail (f r)) l = checked act l.
Proof.
  unfold or_1, checked, ebind, lift_m, bind. destruct (act l) as [[r l']|]; [|done]. cbn. by destruct (r =? 0).
Qed.

Lemma or_1_lift (act : M loading unit) l : or_1 (lift_m act) l = lift_m act l.
Proof. unfold or_1, lift_m, bind. by destruct (act l) as [[r l']|]. Qed.

Lemma performs_length {A} s bs (a : A) act m k :
  str_ok s → reads s a (m (slen s)) → performs bs act (k a) →
  performs (estr s ++ bs) act (let? n := read_u16 in let? x := m n in k x).
Proof.
  intros Hs Hm Hk. pose proof (slen_nonneg s). rewrite (estr_ok s Hs), <-app_assoc.
  eapply performs_read; [apply reads_e16; destruct Hs; lia|]. by eapply performs_read.
Qed.

Lemma performs_id cid bs act k :
  str_ok cid → cid ≠ [] → performs bs act (k cid) →
  performs (estr cid ++ bs) act (let? n := read_u16 in if n =? 0 then fail 1 else let? c := read_str n in k c).
Proof.
  intros Hs Hne Hk. pose proof (slen_nonneg cid). rewrite (estr_ok cid Hs), <-app_assoc.
  eapply performs_read; [apply reads_e16; destruct Hs; lia|]. cbn beta.
  destruct (Z.eqb_spec (slen cid) 0) as [Hz|_]; [by apply slen_zero in Hz|].
  eapply performs_read; [apply reads_str, Hs|done].
Qed.

Lemma reads_source s : str_ok s → reads s s (if slen s =? 0 then done_with [] else read_str (slen s)).
Proof.
  intros [H0 _]. destruct (Z.eqb_spec (slen s) 0) as [->%slen_zero|]; [apply reads_nil|by apply reads_str].
Qed.

Lemma reads_topic o :
  match o with Some t => str_ok t ∧ t ≠ [] | None => True end →
  let s := default [] o in
  reads s o (if slen s =? 0 then done_with None else let? t := read_str (slen s) in done_with (Some t)).
Proof.
  destruct o as [t|]; cbn; [|intros _; apply reads_nil]. intros [[H0 _] Hne].
  destruct (Z.eqb_spec (slen t) 0) as [?%slen_zero|]; [done|]. by apply reads_map, reads_str.
Qed.

Lemma cfg_restore_ok sh last :
  0 ≤ last < 2 ^ 64 →
  performs (e8 (bool_code sh) ++ e8 8 ++ e64 last) (apply_chunk (KCfg sh last)) cfg_restore.
Proof.
  intros Hl. eapply performs_read; [apply reads_e8, bool_code_range|]. eapply performs_read; [by apply reads_e8|].
  cbn [negb Z.eqb Pos.eqb]. rewrite <-(app_nil_r (e64 last)). eapply performs_read; [apply reads_e64|].
  rewrite Z.mod_small by done. apply performs_act.
Qed.

Lemma store_restore_ok i source smid m topic q r pl :
  chunk_ok (KStore i source smid m topic q r pl) →
  performs (e64 i ++ estr source ++ e16 smid ++ e16 m ++ estr (default [] topic) ++ e8 q ++ e8 (bool_code r) ++
    e32 (slen pl) ++ pl) (apply_chunk (KStore i source smid m topic q r pl)) (or_1 _db_msg_store_chunk_restore).
Proof.
  intros (Hi & Hs & Hsm & Hm & Ht & Hq & Hp). eapply performs_or_1; [|intros l; apply or_1_lift].
  eapply performs_read; [apply reads_e64|]. rewrite Z.mod_small by done.
  apply (performs_length source _ source); [done|by apply reads_source|].
  eapply performs_read; [by apply reads_e16|]. eapply performs_read; [by apply reads_e16|].
  apply (performs_length (default [] topic) _ topic); [by destruct topic as [t|]; [apply Ht|split; [apply not_elem_of_nil|]]|by apply reads_topic|].
  eapply performs_read; [by apply reads_e8|]. eapply performs_read; [apply reads_e8, bool_code_range|].
  eapply performs_read; [apply reads_e32; split; [apply slen_nonneg|done]|]. rewrite <-(app_nil_r pl) at 1.
  eapply performs_read; [|apply performs_act].
  destruct (Z.eqb_spec (slen pl) 0) as [->%slen_zero|]; [apply reads_nil|]. unfold slen. rewrite Nat2Z.id. apply reads_e.
Qed.

Lemma client_restore_ok cid lmid t :
  chunk_ok (KClient cid lmid t) →
  performs (estr cid ++ e16 lmid ++ e64 t) (apply_chunk (KClient cid lmid t)) (or_1 (_db_client_chunk_restore E time)).
Proof.
  intros (Hs & Hne & Hl & Ht). eapply performs_or_1; [|intros l; apply or_1_lift].
  apply performs_id; [done|done|]. eapply performs_read; [by apply reads_e16|].
  intros l rest. unfold ebind, lift_m at 1, mget, bind at 1 2 3. cbn [rs_version MOSQ_DB_VERSION Z.eqb Pos.eqb].
  rewrite <-(app_nil_r (e64 t)). revert l rest.
  change (performs (e64 t ++ []) (lift_m (restore_client E cid lmid t))
    (let? t' := (let? t0 := read_u64 in done_with (s64 t0)) in lift_m (on_loading (restore_client E cid lmid t')))).
  eapply performs_read; [apply reads_map, reads_e64|]. rewrite s64_signed by done. apply performs_act.
Qed.

Lemma client_msg_restore_ok cid i m q r dir st du :
  chunk_ok (KMsg cid i m q r dir st du) →
  performs (estr cid ++ e64 i ++ e16 m ++ e8 q ++ e8 (bool_code r) ++ e8 (direction_code dir) ++ e8 (state_code st) ++
    e8 (bool_code du)) (apply_chunk (KMsg cid i m q r dir st du)) (or_1 (_db_client_msg_chunk_restore E)).
Proof.
  intros (Hs & Hne & Hi & Hm & Hq). eapply performs_or_1; [|intros l; apply (or_1_code _ (λ _, 1))].
  apply performs_id; [done|done|]. eapply performs_read; [apply reads_e64|]. rewrite Z.mod_small by done.
  eapply performs_read; [by apply reads_e16|]. eapply performs_read; [by apply reads_e8|].
  eapply performs_read; [apply reads_e8, bool_code_range|]. eapply performs_read; [apply reads_e8, direction_code_range|].
  eapply performs_read; [apply reads_e8, state_code_range|]. rewrite <-(app_nil_r (e8 (bool_code du))).
  eapply performs_read; [apply reads_e8, bool_code_range|]. apply (performs_code _ (λ _, 1)).
Qed.

Lemma retain_restore_ok i :
  0 ≤ i < 2 ^ 64 → performs (e64 i) (apply_chunk (KRetain i)) (or_1 (_db_retain_chunk_restore E)).
Proof.
  intros Hi. eapply performs_or_1; [|intros l; apply (or_1_code _ (λ r, r))]. rewrite <-(app_nil_r (e64 i)).
  eapply performs_read; [apply reads_e64|]. rewrite Z.mod_small by done. apply (performs_code _ (λ r, r)).
Qed.

Lemma sub_restore_ok cid topic q :
  chunk_ok (KSub cid topic q) →
  performs (e16 (slen cid) ++ cid ++ e16 (slen topic) ++ topic ++ e8 q) (apply_chunk (KSub cid topic q))
    (or_1 (_db_sub_chunk_restore E)).
Proof.
  intros (Hs & Ht & Hq). eapply performs_or_1; [|intros l; apply (or_1_code _ (λ _, 1))].
  rewrite (app_assoc (e16 (slen cid))), <-(estr_ok cid Hs), (app_assoc (e16 (slen topic))), <-(estr_ok topic Ht).
  apply (performs_length cid _ cid); [done|apply reads_str, Hs|].
  apply (performs_length topic _ topic); [done|apply reads_str, Ht|]. rewrite <-(app_nil_r (e8 q)).
  eapply performs_read; [by apply reads_e8|]. apply (performs_code _ (λ _, 1)).
Qed.

(** The length is only used for chunks that are not known. *)
Lemma restore_chunk_ok k :
  chunk_ok k → ∃ code len body, encode k = e16 code ++ e32 len ++ body ∧ 0 ≤ code < 65536 ∧
    ∀ len', performs body (apply_chunk k) (restore_chunk E time code len').
Proof.
  destruct k as [sh last|i source smid m topic q r pl|cid lmid t|cid i m q r dir st du|i|cid topic q];
    intros Hk; do 3 eexists; (split; [reflexivity|]); (split; [done|]); intros len'.
  - by apply cfg_restore_ok.
  - by apply store_restore_ok.
  - by apply client_restore_ok.
  - by apply client_msg_restore_ok.
  - by apply retain_restore_ok.
  - by apply sub_restore_ok.
Qed.

Lemma restore_loop_step n l v code len f :
  0 ≤ code < 65536 →
  restore_loop E time (S n) (RState l v (e16 code ++ e32 len ++ f)) =
    (restore_chunk E time code (u32 len) ?; restore_loop E time n) (RState l v f).
Proof.
  intros Hc. cbn [restore_loop]. set (s := RState l v (e16 code ++ e32 len ++ f)).
  assert (Hb : bool_decide (length (rs_file s) < 2)%nat = false).
  { apply bool_decide_eq_false. cbn [rs_file s]. rewrite !length_app. change (length (e16 code)) with 2%nat. lia. }
  unfold ebind at 1, lift_m, mget, bind at 1 2. unfold ret at 1. rewrite Hb. unfold ebind at 1, bind at 1.
  subst s. rewrite (reads_e16 code Hc). unfold ebind at 1, bind at 1. by rewrite (reads_u32 len).
Qed.

(** The loop acts on the chunks in order; what is left of the file after an
    error is not looked at. *)
Lemma restore_loop_ok ks n l :
  Forall chunk_ok ks → (length (encode_all ks) ≤ n)%nat →
  match apply_all ks l with
  | Some (r, l') => ∃ f, restore_loop E time n (RState l MOSQ_DB_VERSION (encode_all ks)) = Some (r, RState l' MOSQ_DB_VERSION f)
  | None => restore_loop E time n (RState l MOSQ_DB_VERSION (encode_all ks)) = None
  end.
Proof.
  intros Hks. revert n l. induction Hks as [|k ks Hk _ IH]; intros n l Hn; cbn [apply_all].
  { exists []. by destruct n. }
  destruct (restore_chunk_ok k Hk) as (code & len & body & Henc & Hcode & Hbody). rewrite encode_all_cons, Henc in *.
  rewrite !length_app in Hn. change (length (e16 code)) with 2%nat in Hn. change (length (e32 len)) with 4%nat in Hn.
  destruct n as [|n]; [lia|]. rewrite <-!app_assoc, restore_loop_step by done.
  unfold ebind, bind. rewrite (Hbody _ l (encode_all ks)). destruct (apply_chunk k l) as [[[rc|[]] l']|]; [|apply IH; lia|done].
  eexists. reflexivity.
Qed.

Lemma restore_header_ok ks l :
  Forall chunk_ok ks →
  match apply_all ks l with
  | Some (r, l') => ∃ f, restore_file E time (RState l 0 (header ++ encode_all ks)) =
      Some (match r with inl rc => inl rc | inr _ => inr 0 end, RState l' MOSQ_DB_VERSION f)
  | None => restore_file E time (RState l 0 (header ++ encode_all ks)) = None
  end.
Proof.
  intros Hks. pose proof (restore_loop_ok ks (length (encode_all ks)) l Hks ltac:(lia)) as Hl.
  assert (Hrun : restore_file E time (RState l 0 (header ++ encode_all ks)) =
    (let? _ := restore_loop E time (length (encode_all ks)) in done_with 0) (RState l MOSQ_DB_VERSION (encode_all ks))).
  { done. }
  rewrite Hrun. unfold ebind, bind. destruct (apply_all ks l) as [[r l']|]; [|by rewrite Hl].
  destruct Hl as [f ->]. exists f. by destruct r.
Qed.
End reader.
