(* ===== verification/Lifecycle.v ===== *)
(** * The invariant of the running broker, and the life of a context

    On top of the consistency of messages and subscriptions ([broker_ok]): the
    tables of contexts list exactly the contexts with a socket and with an id,
    the contexts waiting to be freed are closed, the listeners' counts are
    exact, and what a client left for later (its will, a packet it sent in
    part) is well formed. Releasing messages, closing, disconnecting and
    freeing preserve it. *)

From stdpp Require Import base list numbers strings option sets gmap fin_maps.
From Stdlib Require Import ZArith Lia.
From S2P Require Import Prelude Topic Packet State Store Send Messages Db Subs DbInv Session Acl Context.
Local Open Scope Z_scope.
Local Open Scope broker_scope.

(** ** The invariant *)

(** A will that can be published. *)
Definition will_ok (w : message) : Prop :=
  0 ∉ m_topic w ∧ wildcard_free (m_topic w) ∧
  slen (m_topic w) < SIZE_BOUND ∧ slen (m_payload w) < SIZE_BOUND ∧ 0 ≤ m_qos w ≤ 2.

(** The command of a packet of which nothing was read, or that is a CONNECT. *)
Definition first_command (p : packet) : Prop := command p = 0 ∨ Z.land (command p) 0xF0 = CONNECT.

(** [busy]: the client's packet is being handled. *)
Record client_ok (busy : bool) (x : mosquitto) : Prop := {
  cl_will w : will x = Some w → will_ok w;
  cl_packet : busy = false → is_Some (sock x) → reader_inv (c_in_packet x) ∧
    (c_bridge x = None → cstate x = mosq_cs_new → first_command (c_in_packet x));
  cl_idle : busy = false → is_Some (sock x) → id x = None → idle x = Some ([], None, 0, 0, []);
  cl_known : is_Some (sock x) → c_bridge x = None →
    (cstate x = mosq_cs_new ↔ id x = None) ∧ cstate x ≠ mosq_cs_connect_pending;
  cl_gone : cstate x = mosq_cs_disconnected → sock x = None;
}.

(** A change that closes the connection, or leaves it alone. *)
Lemma client_ok_same busy x x' :
  client_ok busy x → will x' = will x ∨ will x' = None →
  sock x' = None ∨ (sock x' = sock x ∧ id x' = id x ∧ idle x' = idle x ∧ c_in_packet x' = c_in_packet x ∧
    cstate x' = cstate x ∧ topics <$> c_bridge x' = topics <$> c_bridge x) →
  client_ok busy x'.
Proof.
  intros [Hw Hp Hi Hn Hg] Ew E.
  assert (Hbr : topics <$> c_bridge x' = topics <$> c_bridge x → c_bridge x' = None → c_bridge x = None).
  { intros Hb Hx'. rewrite Hx' in Hb. by destruct (c_bridge x). }
  split.
  - intros w Hx'. apply Hw. destruct Ew; congruence.
  - destruct E as [->|(-> & _ & _ & -> & -> & Hb)]; [by intros _ [? ?]|]. intros H1 H2.
    destruct (Hp H1 H2) as [? ?]. split; [done|auto].
  - destruct E as [->|(-> & -> & -> & _)]; [by intros _ [? ?]|done].
  - destruct E as [->|(-> & -> & _ & _ & -> & Hb)]; [by intros [? ?]|auto].
  - destruct E as [->|(-> & _ & _ & _ & -> & _)]; [done|auto].
Qed.

(** A client that is known changes its state. *)
Lemma client_ok_state busy s x :
  client_ok busy x → is_Some (id x) → s ≠ mosq_cs_new → s ≠ mosq_cs_disconnected → s ≠ mosq_cs_connect_pending →
  client_ok busy (set_cstate (λ _, s) x).
Proof.
  intros [Hw Hp Hi Hn Hg] [i Hid] Hs Hs' Hs''. split; try done.
  - intros H1 H2. destruct (Hp H1 H2). by split.
  - cbn. rewrite Hid. done.
Qed.

Definition count_listener (l : nat) (m : gmap ptr mosquitto) : Z :=
  Z.of_nat (length (filter (λ o, o = Some l) (map_to_list (listener <$> m)).*2)).

(** A context that waits to be freed. *)
Definition closed (x : mosquitto) : Prop :=
  cstate x = mosq_cs_disconnected ∧ id x = None ∧ sock x = None ∧ will x = None ∧ listener x = None.

(** A hash table lists exactly the contexts that have the key. *)
Definition table_ok {K} (f : mosquitto → option K) (m : gmap ptr mosquitto) (t : list (K * ptr)) : Prop :=
  (∀ k c, (k, c) ∈ t ↔ ∃ x, m !! c = Some x ∧ f x = Some k) ∧ NoDup t.*2.

(** [free]: the contexts that are to be freed. *)
Record tables_ok (free : list ptr) (d : db) : Prop := {
  tb_sock : table_ok sock (contexts d) (contexts_by_sock d);
  tb_id : table_ok id (contexts d) (contexts_by_id d);
  tb_free_nodup : NoDup free;
  tb_free c : c ∈ free → ∃ x, contexts d !! c = Some x ∧ closed x;
  tb_count l n : client_counts d !! l = Some n → n = count_listener l (contexts d);
  tb_listener c x l : contexts d !! c = Some x → listener x = Some l → (l < length (client_counts d))%nat;
  tb_unique : NoDup (contexts_by_id d).*1;
}.

Record broker_inv_but (free : list ptr) (busy : option ptr) (d : db) : Prop := {
  bi_ok : broker_ok [] d;
  bi_tables : tables_ok free d;
  bi_clients c x : contexts d !! c = Some x → client_ok (bool_decide (busy = Some c)) x;
}.
Arguments bi_ok {free} busy d _.
Arguments bi_tables {free} busy d _.
Arguments bi_clients {free} busy d _ c x.
Abbreviation broker_inv busy d := (broker_inv_but (ll_for_free d) busy d).

(** ** Steps that keep the connections *)

Lemma conn_fields x y :
  conn x = conn y →
  id x = id y ∧ (subs x = subs y ∧ idle x = idle y) ∧ sock x = sock y ∧ cstate x = cstate y ∧ will x = will y ∧
  listener x = listener y ∧ c_in_packet x = c_in_packet y ∧ protocol x = protocol y ∧
  clean_session x = clean_session y ∧ topics <$> c_bridge x = topics <$> c_bridge y ∧ username x = username y.
Proof. unfold conn. intros H. split_and!; congruence. Qed.

(** Equality of connections after the same change of a field that the queue
    does not depend on. *)
Ltac conn_congr H :=
  let Hid := fresh in
  match type of H with conn ?x = conn ?y =>
    assert (Hid : idle x = idle y) by (unfold conn in H; congruence);
    unfold conn in H |- *;
    repeat match goal with
           | |- context [idle ?z] => progress change (idle z) with (idle x)
           | |- context [idle ?z] => progress change (idle z) with (idle y)
           end;
    rewrite Hid in *; generalize dependent (idle y)
  end; intros; cbn in *; congruence.

(** The same contexts, with the same [f]. *)
Record same_on {K} (f : mosquitto → K) (d d' : db) : Prop := {
  sc_conn c : f <$> contexts d' !! c = f <$> contexts d !! c;
  sc_tables : tables d' = tables d;
}.

#[export] Instance same_on_preorder {K} (f : mosquitto → K) : PreOrder (same_on f).
Proof.
  split; [by split|]. intros d1 d2 d3 [C1 T1] [C2 T2]. split; [|congruence]. intros c. by rewrite C2, C1.
Qed.

(** The same connections, each with what it had. *)
Abbreviation same_conns := (same_on conn).

(** What the tables and the invariants of connections depend on. *)
Definition face (x : mosquitto) :=
  (id x, idle x, sock x, cstate x, will x, listener x, c_in_packet x, topics <$> c_bridge x).

Lemma same_on_weaken {K L} (f : mosquitto → K) (g : mosquitto → L) d d' :
  (∀ x y, f x = f y → g x = g y) → same_on f d d' → same_on g d d'.
Proof.
  intros Hfg [Hc Ht]. split; [|done]. intros c. specialize (Hc c).
  destruct (contexts d' !! c), (contexts d !! c); try done. cbn in *. apply (inj Some) in Hc. by rewrite (Hfg _ _ Hc).
Qed.

Lemma conn_face x y : conn x = conn y → face x = face y.
Proof. intros H%conn_fields. unfold face. destruct H as (-> & [_ ->] & -> & -> & -> & -> & -> & _ & _ & -> & _). done. Qed.

Lemma same_conns_face d d' : same_conns d d' → same_on face d d'.
Proof. apply same_on_weaken, conn_face. Qed.

Lemma same_conns_lookup {K} (f : mosquitto → K) d d' c x :
  same_on f d d' → contexts d !! c = Some x → ∃ x', contexts d' !! c = Some x' ∧ f x' = f x.
Proof.
  intros [Hc _] Hx. specialize (Hc c). rewrite Hx in Hc.
  destruct (contexts d' !! c) as [x'|]; [|done]. apply (inj Some) in Hc. eauto.
Qed.

Lemma same_conns_lookup' {K} (f : mosquitto → K) d d' c x' :
  same_on f d d' → contexts d' !! c = Some x' → ∃ x, contexts d !! c = Some x ∧ f x' = f x.
Proof.
  intros [Hc _] Hx. specialize (Hc c). rewrite Hx in Hc.
  destruct (contexts d !! c) as [x|]; [|done]. apply (inj Some) in Hc. eauto.
Qed.

Lemma same_listeners d d' : same_on face d d' → listener <$> contexts d' = listener <$> contexts d.
Proof.
  intros Hs. apply map_eq. intros c. rewrite !lookup_fmap.
  apply (sc_conn listener), (same_on_weaken face); [|done]. unfold face. congruence.
Qed.

Lemma table_ok_face {K} (f : mosquitto → option K) d d' t :
  (∀ x y, face x = face y → f x = f y) → table_ok f (contexts d) t → same_on face d d' →
  table_ok f (contexts d') t.
Proof.
  intros Hf [H1 H2] Hs. split; [|done]. intros k c. rewrite H1. split; intros (x & Hx & Hk).
  - destruct (same_conns_lookup _ _ _ _ _ Hs Hx) as (x' & Hx' & Hc%Hf). exists x'. by rewrite Hc.
  - destruct (same_conns_lookup' _ _ _ _ _ Hs Hx) as (x' & Hx' & Hc%Hf). exists x'. by rewrite <-Hc.
Qed.

Lemma tables_ok_face free d d' : tables_ok free d → same_on face d d' → tables_ok free d'.
Proof.
  intros [H1 H3 H5 H6 H7 H8] Hs. pose proof (sc_tables _ _ _ Hs) as Ht. unfold tables in Ht.
  injection Ht as Ei Es Ef Ec _. split; rewrite ?Ei, ?Es, ?Ec; try done.
  - eapply table_ok_face; [|done|done]. unfold face. congruence.
  - eapply table_ok_face; [|done|done]. unfold face. congruence.
  - intros c Hc. destruct (H6 c Hc) as (x & Hx & Hcl). destruct (same_conns_lookup _ _ _ _ _ Hs Hx) as (x' & Hx' & Hcn).
    exists x'. split; [done|]. unfold closed, face in *.
    destruct Hcl as (? & ? & ? & ? & ?). split_and!; congruence.
  - intros l n Hn. unfold count_listener. rewrite (same_listeners _ _ Hs). by apply H7.
  - intros c x l Hx Hl. destruct (same_conns_lookup' _ _ _ _ _ Hs Hx) as (x' & Hx' & Hcn).
    eapply H8; [exact Hx'|]. unfold face in Hcn. congruence.
Qed.

Lemma inv_face busy d d' :
  broker_inv busy d → broker_ok [] d' → same_on face d d' → broker_inv busy d'.
Proof.
  intros [Hok Ht Hcl] Hok' Hs. split; [done| |].
  - assert (ll_for_free d' = ll_for_free d) as -> by (pose proof (sc_tables _ _ _ Hs) as H; unfold tables in H; congruence).
    by eapply tables_ok_face.
  - intros c x Hx. destruct (same_conns_lookup' _ _ _ _ _ Hs Hx) as (x' & Hx' & Hcn).
    unfold face in Hcn. apply (client_ok_same _ x'); [by apply Hcl|left; congruence|right; split_and!; congruence].
Qed.

Lemma inv_conns busy d d' :
  broker_inv busy d → broker_ok [] d' → same_conns d d' → broker_inv busy d'.
Proof. intros ? ? Hs%same_conns_face. by eapply inv_face. Qed.

(** Publishing and the like. *)
Lemma frame_conns refs d d' : frame refs d d' → same_conns d d'.
Proof.
  intros [_ Hi _ Ht]. split; [|done]. intros c. specialize (Hi c).
  destruct (contexts d' !! c), (contexts d !! c); try done. cbn in *. apply (inj Some) in Hi.
  unfold tie in Hi. congruence.
Qed.

Lemma ident_conn x y : is_Some (id y) → ident x = ident y → conn x = conn y.
Proof.
  intros Hy H. assert (id x = id y) by (unfold ident in H; congruence).
  pose proof (idle_named y x Hy ltac:(done)). unfold ident, conn in *. congruence.
Qed.

Lemma broker_ok_ext pins d d' :
  broker_ok pins d → contexts d' = contexts d → dmsg d' = dmsg d → subs_children d' = subs_children d →
  broker_ok pins d'.
Proof.
  intros [[[Hc Hst] [Ht Hl Ho] Hlv Hr] Hsl] E1 E2 E3.
  assert (Hroot : root d' = root d) by (unfold root; by rewrite E3).
  split; [split; [split|split|..]|]; unfold leaves_ok, slots_ok in *; rewrite ?E1, ?E2, ?E3, ?Hroot; done.
Qed.

(** A step of the messages of one client. *)
Lemma on_cm_ok {A} busy c x (m : M cm A) (Q : A → cm → Prop) d :
  broker_inv busy d → contexts d !! c = Some x → is_Some (id x) →
  (∀ others, cm_ok others (CM x (dmsg d)) →
     wp m (λ a s', step_ok others (CM x (dmsg d)) s' ∧ Q a s') (CM x (dmsg d))) →
  wp (on_cm c m) (λ a d', broker_inv busy d' ∧ same_conns d d' ∧ ∃ s', Q a s' ∧
       d' = set_dmsg (λ _, mdb s') (set_contexts <[c := ctx s']> d)) d.
Proof.
  intros Hinv Hx Hid Hm. pose proof (bi_ok _ _ Hinv) as [[[Hc Hst] Hsubs Hlv Hr] Hsl]. rewrite app_nil_r in Hst.
  set (others := ctx_refs (delete c (contexts d)) ++ tree_refs (root d)).
  assert (Hok : cm_ok others (CM x (dmsg d))).
  { apply cm_ok_join; [done|by eapply Hc|]. unfold others.
    by rewrite (assoc_L (++)), <-(ctx_refs_delete _ _ _ Hx). }
  destruct (wp_inv _ _ _ (Hm others Hok)) as (a & [x' s'] & Hrun & [Hok' Hident Hk Hp] & HQ).
  cbn [ctx mdb] in *. unfold wp, on_cm. rewrite Hx. cbn [mbind option_bind]. rewrite Hrun. cbn [mbind option_bind].
  set (d' := set_dmsg _ _).
  assert (Hs : same_conns d d').
  { split; [|done]. intros c'. subst d'. cbn [contexts set_dmsg set_contexts].
    destruct (decide (c' = c)) as [->|]; [|by rewrite lookup_insert_ne].
    rewrite lookup_insert_eq, Hx. cbn. f_equal. by apply ident_conn. }
  split; [|split; [done|exists (CM x' s'); auto]].
  apply (inv_conns busy d); [done| |done]. apply cm_ok_split in Hok' as [Hcx Hst'].
  assert (Hdom : ∀ c', is_Some (contexts d !! c') → is_Some (contexts d' !! c')).
  { intros c' [y Hy]. destruct (same_conns_lookup _ _ _ _ _ Hs Hy) as (y' & -> & _). by eexists. }
  split; [split|].
  - split; cbn [contexts dmsg set_dmsg set_contexts d'].
    + intros c' y. destruct (decide (c' = c)) as [->|Hne].
      * rewrite lookup_insert_eq. by intros [= <-].
      * rewrite lookup_insert_ne by done. intros Hy. eapply (ctx_ok_keeps others); [by eapply Hc|done| |done].
        intros s Hs'. unfold others. apply elem_of_app. left. eapply ctx_refs_elem; [|done].
        by rewrite lookup_delete_ne.
    + rewrite ctx_refs_insert, app_nil_r. unfold others in Hst'. by rewrite (assoc_L (++)) in Hst'.
  - destruct Hsubs as [Ht Hl Ho]. split; [done| |done]. intros p. eapply Forall_impl; [apply Hl|]. intros lf. apply Hdom.
  - eapply Forall_impl; [exact Hlv|]. intros lf [? ?]. split; [by apply Hdom|done].
  - eapply Forall_impl; [|intros s Hs'; exact Hs']. rewrite Forall_forall in Hr |- *. intros s Hs'.
    eapply keeps_sendable; [exact Hk| |by apply Hr]. unfold others. set_solver.
  - intros c' y Hy. destruct (same_conns_lookup' _ _ _ _ _ Hs Hy) as (y' & Hy' & Hcn).
    apply conn_fields in Hcn as (_ & [-> _] & _). by apply Hsl.
Qed.

(** ** Changing one context *)

(** How a table follows the key of the context [c]: unchanged, deleted, or
    added. *)
Definition table_upd {K} (c : ptr) (k k' : option K) (t t' : list (K * ptr)) : Prop :=
  (k' = k ∧ t' = t) ∨ (k' = None ∧ t' = filter (λ e, e.2 ≠ c) t) ∨
  (k = None ∧ ∃ i, k' = Some i ∧ t' = t ++ [(i, c)]).

Lemma table_ok_set {K} (f : mosquitto → option K) m c x x' t t' :
  table_ok f m t → m !! c = Some x → table_upd c (f x) (f x') t t' → table_ok f (<[c := x']> m) t'.
Proof.
  intros [H1 H2] Hx Hu.
  assert (Hins : ∀ k c', (∃ y, <[c := x']> m !! c' = Some y ∧ f y = Some k) ↔
    (if decide (c' = c) then f x' = Some k else ∃ y, m !! c' = Some y ∧ f y = Some k)).
  { intros k c'. destruct (decide (c' = c)) as [->|].
    - rewrite lookup_insert_eq. naive_solver.
    - by rewrite lookup_insert_ne. }
  destruct Hu as [[Hk ->]|[[Hk ->]|(Hk & i & Hk' & ->)]]; split; try done.
  - intros k c'. rewrite Hins, H1. destruct (decide (c' = c)) as [->|]; [|done]. rewrite Hk, Hx. naive_solver.
  - intros k c'. rewrite Hins, list_elem_of_filter, H1. cbn. destruct (decide (c' = c)) as [->|]; [|naive_solver].
    rewrite Hk. naive_solver.
  - eapply sublist_NoDup; [exact H2|]. apply fmap_sublist, sublist_filter.
  - intros k c'. rewrite Hins, elem_of_app, list_elem_of_singleton, H1. destruct (decide (c' = c)) as [->|].
    + rewrite Hk', Hx. split; [naive_solver congruence|]. intros [= ->]. by right.
    + naive_solver.
  - rewrite fmap_app. apply NoDup_app. split; [done|]. split; [|apply NoDup_singleton].
    intros p Hp Hpc. cbn in Hpc. apply list_elem_of_singleton in Hpc as ->.
    apply list_elem_of_fmap in Hp as ([k c'] & -> & Hin). apply H1 in Hin as (y & Hy & Hfy). cbn in *. rewrite Hx in Hy. congruence.
Qed.

Lemma table_keys_set {K} c (k k' : option K) t t' :
  NoDup t.*1 → table_upd c k k' t t' → (k = None → ∀ i, k' = Some i → i ∉ t.*1) → NoDup t'.*1.
Proof.
  intros Hnd [[_ ->]|[[_ ->]|(Hk & i & Hk' & ->)]] Hnew; [done| |].
  - eapply sublist_NoDup; [exact Hnd|]. apply fmap_sublist, sublist_filter.
  - rewrite fmap_app. apply NoDup_app. split; [done|]. split; [|apply NoDup_singleton].
    intros j Hj Hji. cbn in Hji. apply list_elem_of_singleton in Hji as ->. by eapply Hnew.
Qed.

Lemma count_listener_set l m c x x' :
  m !! c = Some x →
  count_listener l (<[c := x']> m) =
    count_listener l m + (if decide (listener x' = Some l) then 1 else 0)
    - (if decide (listener x = Some l) then 1 else 0).
Proof.
  intros Hx. unfold count_listener. rewrite fmap_insert.
  set (n := listener <$> m). assert (Hn : n !! c = Some (listener x)) by (unfold n; by rewrite lookup_fmap, Hx).
  assert (Hv : ∀ (n : gmap ptr (option nat)) y, n !! c = Some y →
    (map_to_list n).*2 ≡ₚ y :: (map_to_list (delete c n)).*2).
  { intros k y Hy. by rewrite <-(map_to_list_delete k c y Hy). }
  rewrite (Hv n _ Hn), (Hv (<[c := listener x']> n) _ (lookup_insert_eq _ _ _)), delete_insert_eq.
  rewrite !filter_cons. repeat case_decide; cbn [length]; lia.
Qed.

Lemma count_listener_pos l m c x : m !! c = Some x → listener x = Some l → 1 ≤ count_listener l m.
Proof.
  intros Hx Hl. pose proof (count_listener_set l m c x (set_listener (λ _, None) x) Hx) as Hc.
  destruct (decide (listener x = Some l)); [|done].
  destruct (decide (listener (set_listener (λ _, None) x) = Some l)); [done|]. unfold count_listener in *. lia.
Qed.

(** How the count of a listener follows the context. *)
Definition count_upd (o o' : option nat) (n n' : list Z) : Prop :=
  (o' = o ∧ n' = n) ∨ (o' = None ∧ ∃ l k, o = Some l ∧ n !! l = Some k ∧ n' = <[l := k - 1]> n) ∨
  (o = None ∧ ∃ l k, o' = Some l ∧ n !! l = Some k ∧ n' = <[l := k + 1]> n).

Lemma tables_ok_set free free' d d' c x x' :
  tables_ok free d → contexts d !! c = Some x → contexts d' = <[c := x']> (contexts d) →
  table_upd c (sock x) (sock x') (contexts_by_sock d) (contexts_by_sock d') →
  table_upd c (id x) (id x') (contexts_by_id d) (contexts_by_id d') →
  (id x = None → ∀ i, id x' = Some i → i ∉ (contexts_by_id d).*1) →
  count_upd (listener x) (listener x') (client_counts d) (client_counts d') →
  NoDup free' → (∀ c', c' ∈ free' → (c' ∈ free ∧ c' ≠ c) ∨ (c' = c ∧ closed x')) →
  tables_ok free' d'.
Proof.
  intros [H1 H3 H5 H6 H7 H8 H9] Hx Hc Hs Hi Hnew Hcnt Hnd Hfree.
  split; rewrite ?Hc; [by eapply table_ok_set|by eapply table_ok_set|done| | | |by eapply table_keys_set].
  - intros c' Hc'. destruct (Hfree c' Hc') as [[Hf Hne]|[-> Hcl]].
    + rewrite lookup_insert_ne by done. by apply H6.
    + exists x'. by rewrite lookup_insert_eq.
  - intros l n Hn. rewrite (count_listener_set l _ c x) by done.
    destruct Hcnt as [[El Ec]|[(El & l0 & k & El0 & Hk & Ec)|(El & l0 & k & El0 & Hk & Ec)]]; rewrite Ec in Hn.
    + rewrite El, (H7 l n Hn). case_decide; lia.
    + rewrite El, El0. destruct (decide (l = l0)) as [->|Hne].
      * rewrite list_lookup_insert_eq in Hn by (by eapply lookup_lt_Some). injection Hn as <-.
        rewrite (H7 _ _ Hk), decide_False, decide_True by done. lia.
      * rewrite list_lookup_insert_ne in Hn by done. rewrite (H7 _ _ Hn), !decide_False by congruence. lia.
    + rewrite El, El0. destruct (decide (l = l0)) as [->|Hne].
      * rewrite list_lookup_insert_eq in Hn by (by eapply lookup_lt_Some). injection Hn as <-.
        rewrite (H7 _ _ Hk), decide_True, decide_False by done. lia.
      * rewrite list_lookup_insert_ne in Hn by done. rewrite (H7 _ _ Hn), !decide_False by congruence. lia.
  - assert (Hlen : length (client_counts d') = length (client_counts d)).
    { destruct Hcnt as [[_ ->]|[(_ & l0 & k & _ & _ & ->)|(_ & l0 & k & _ & _ & ->)]]; rewrite ?length_insert; done. }
    rewrite Hlen. intros c' y l. destruct (decide (c' = c)) as [->|].
    + rewrite lookup_insert_eq. intros [= <-] Hl.
      destruct Hcnt as [[El _]|[(El & _)|(_ & l0 & k & El & Hk & _)]]; [|congruence|].
      * eapply H8; [exact Hx|congruence].
      * assert (l = l0) as -> by congruence. by eapply lookup_lt_Some.
    + rewrite lookup_insert_ne by done. apply H8.
Qed.

(** The part of a context that its queue and its output depend on. *)
Definition qpart (x : mosquitto) :=
  (msgs x, last_msg x, msg_count x, msg_count12 x, current_out_packet x, out_packet x, topics <$> c_bridge x).

Lemma ctx_ok_light d x x' :
  ctx_ok d x → qpart x' = qpart x → (is_Some (id x') → is_Some (id x)) → ctx_ok d x'.
Proof.
  intros [Hq Hm Hf Ho Hb] E Hid. unfold qpart in E. injection E as E1 E2 E3 E4 E5 E6 E7.
  split; rewrite ?E1; try done.
  - intros H. destruct (Hq (Hid H)) as [? ? ? ?]. split; rewrite ?E1, ?E2, ?E3, ?E4; done.
  - unfold outq_ok in *. by rewrite E5, E6.
  - unfold bridge_ok in *. destruct (c_bridge x'), (c_bridge x); try done. cbn in E7. by injection E7 as ->.
Qed.

Lemma broker_ok_set pins d d' c x x' :
  broker_ok pins d → contexts d !! c = Some x → ctx_ok (dmsg d) x' → msgs x' = msgs x → subs x' = subs x →
  contexts d' = <[c := x']> (contexts d) → dmsg d' = dmsg d → subs_children d' = subs_children d →
  broker_ok pins d'.
Proof.
  intros [[[Hc Hst] [Ht Hl Ho] Hlv Hr] Hsl] Hx Hx' Hm Hs E1 E2 E3.
  assert (Hroot : root d' = root d) by (unfold root; by rewrite E3).
  assert (Hdom : ∀ c', is_Some (contexts d !! c') → is_Some (contexts d' !! c')).
  { intros c'. rewrite E1, lookup_insert_is_Some'. auto. }
  split; [split; [split|split|..]|]; rewrite ?Hroot, ?E2, ?E3; try done.
  - intros c' y. rewrite E1. destruct (decide (c' = c)) as [->|].
    + rewrite lookup_insert_eq. by intros [= <-].
    + rewrite lookup_insert_ne by done. apply Hc.
  - by rewrite E1, (ctx_refs_same _ _ x).
  - intros p. eapply Forall_impl; [apply Hl|]. intros lf. apply Hdom.
  - eapply Forall_impl; [exact Hlv|]. intros lf [? ?]. split; [by apply Hdom|done].
  - intros c' y. rewrite E1, Hroot. destruct (decide (c' = c)) as [->|].
    + rewrite lookup_insert_eq. intros [= <-]. rewrite Hs. by apply Hsl.
    + rewrite lookup_insert_ne by done. apply Hsl.
Qed.

(** A new value of a context that changes nothing its queue depends on, with
    the tables that go with it. *)
Record light_step (free free' : list ptr) (busy : option ptr) (c : ptr) (x x' : mosquitto) (d d' : db) : Prop := {
  ls_contexts : contexts d' = <[c := x']> (contexts d);
  ls_dmsg : dmsg d' = dmsg d;
  ls_tree : subs_children d' = subs_children d;
  ls_queue : qpart x' = qpart x;
  ls_subs : subs x' = subs x;
  ls_named : is_Some (id x') → is_Some (id x);
  ls_sock : table_upd c (sock x) (sock x') (contexts_by_sock d) (contexts_by_sock d');
  ls_id : table_upd c (id x) (id x') (contexts_by_id d) (contexts_by_id d');
  ls_count : count_upd (listener x) (listener x') (client_counts d) (client_counts d');
  ls_client : client_ok (bool_decide (busy = Some c)) x';
  ls_free : NoDup free' ∧ ∀ c', c' ∈ free' → (c' ∈ free ∧ c' ≠ c) ∨ (c' = c ∧ closed x');
}.

Lemma inv_light_but free free' busy c x x' d d' :
  broker_inv_but free busy d → contexts d !! c = Some x → light_step free free' busy c x x' d d' →
  broker_inv_but free' busy d'.
Proof.
  intros [Hok Ht Hcl] Hx [E1 E2 E3 Hq Hs Hid Hsk Hi Hcnt Hcl' [Hnd Hfree]].
  assert (Hm : msgs x' = msgs x) by (unfold qpart in Hq; congruence). split.
  - eapply (broker_ok_set [] d d' c x x'); try done.
    eapply ctx_ok_light; [|done|done]. by apply (co_ctx _ _ (db_core _ _ (bo_db _ _ Hok)) c).
  - eapply tables_ok_set; try done. intros Hn i Hi'. rewrite Hi' in Hid. destruct Hid as [? ?]; [by eexists|congruence].
  - intros c' y. rewrite E1. destruct (decide (c' = c)) as [->|].
    + rewrite lookup_insert_eq. by intros [= <-].
    + rewrite lookup_insert_ne by done. apply Hcl.
Qed.

Lemma inv_light busy c x x' d d' :
  broker_inv busy d → contexts d !! c = Some x →
  light_step (ll_for_free d) (ll_for_free d') busy c x x' d d' → broker_inv busy d'.
Proof. apply inv_light_but. Qed.

(** The usual case: only fields that no table follows. *)
Lemma free_light busy c x d d' x' :
  broker_inv busy d → contexts d !! c = Some x → ll_for_free d' = ll_for_free d →
  (c ∈ ll_for_free d → closed x') →
  NoDup (ll_for_free d') ∧
    ∀ c', c' ∈ ll_for_free d' → (c' ∈ ll_for_free d ∧ c' ≠ c) ∨ (c' = c ∧ closed x').
Proof.
  intros Hinv Hx -> Hc. split; [apply (bi_tables _ _ Hinv)|]. intros c' Hc'.
  destruct (decide (c' = c)) as [->|]; [right|left]; auto.
Qed.

(** The fields that the invariant ties together. *)
Definition linked (x : mosquitto) := (qpart x, subs x, id x, sock x, listener x).

Lemma inv_upd busy c x f d :
  broker_inv busy d → contexts d !! c = Some x → linked (f x) = linked x →
  client_ok (bool_decide (busy = Some c)) (f x) → (closed x → closed (f x)) →
  wp (upd_context c f) (λ _ d', broker_inv busy d' ∧ d' = set_contexts <[c := f x]> d) d.
Proof.
  intros Hinv Hx Hl Hcl Hcs. unfold wp, upd_context. rewrite Hx. cbn [mbind option_bind]. split; [|done].
  assert (qpart (f x) = qpart x ∧ subs (f x) = subs x ∧ id (f x) = id x ∧ sock (f x) = sock x ∧
    listener (f x) = listener x) as (Hq & Hs & Hi & Hk & Hn) by (unfold linked in Hl; split_and!; congruence).
  eapply inv_light; [done|done|]. split; try done.
  - by rewrite Hi.
  - left. by rewrite Hk.
  - left. by rewrite Hi.
  - left. by rewrite Hn.
  - eapply free_light; [done|done|done|]. intros Hf. apply Hcs.
    destruct (tb_free _ _ (bi_tables _ _ Hinv) c Hf) as (y & Hy & ?). congruence.
Qed.

(** Sending on the connection of a context. *)
Lemma set_dmsg_id d : set_dmsg (λ _, dmsg d) d = d.
Proof. by destruct d. Qed.

Lemma wp_on_context {A} c x (m : M mosquitto A) Q d :
  contexts d !! c = Some x → wp m (λ a x', Q a (set_contexts <[c := x']> d)) x → wp (on_context c m) Q d.
Proof.
  intros Hx Hm. destruct (wp_inv _ _ _ Hm) as (a & x' & Hrun & HQ).
  unfold wp, on_context, on_cm, on_ctx. rewrite Hx. cbn [mbind option_bind ctx mdb]. rewrite Hrun.
  cbn [mbind option_bind ctx mdb]. by destruct d.
Qed.

Lemma net_only_conn x x' : net_only x x' → conn x' = conn x ∧ (msgs x', last_msg x', msg_count x', msg_count12 x', c_bridge x') = (msgs x, last_msg x, msg_count x, msg_count12 x, c_bridge x).
Proof. by intros (s & w & cur & out & t & ->). Qed.

Lemma inv_net busy c x m d :
  broker_inv busy d → contexts d !! c = Some x →
  wp m (λ (_ : Z) x', net_only x x' ∧ outq_ok x') x →
  wp (on_context c m) (λ _ d', broker_inv busy d' ∧ same_conns d d' ∧ dmsg d' = dmsg d ∧
    ∃ x', contexts d' !! c = Some x' ∧ net_only x x') d.
Proof.
  intros Hinv Hx Hm. eapply wp_on_context; [done|]. eapply wp_mono; [exact Hm|].
  intros rc x' [Hn Ho]. pose proof Hn as [Hcn Hq]%net_only_conn. injection Hq as E1 E2 E3 E4 E5.
  assert (Hs : same_conns d (set_contexts <[c := x']> d)).
  { split; [|done]. intros c'. cbn. destruct (decide (c' = c)) as [->|]; [|by rewrite lookup_insert_ne].
    rewrite lookup_insert_eq, Hx. cbn. by rewrite Hcn. }
  split_and!; try done; [|exists x'; split; [apply lookup_insert_eq|done]]. eapply inv_conns; [done| |done].
  pose proof (bi_ok _ _ Hinv) as Hok.
  destruct (co_ctx _ _ (db_core _ _ (bo_db _ _ Hok)) c x Hx) as [Hq Hms Hf _ Hb].
  eapply (broker_ok_set [] d _ c x x'); try done.
  - split; rewrite ?E1; try done.
    + intros Hid. apply conn_fields in Hcn as (Hi & _). rewrite Hi in Hid.
      destruct (Hq Hid) as [? ? ? ?]. split; rewrite ?E1, ?E2, ?E3, ?E4; done.
    + unfold bridge_ok in *. by rewrite E5.
  - by apply conn_fields in Hcn as (_ & [? _] & _).
Qed.

Lemma ties_conns d d' :
  (∀ c, tie <$> contexts d' !! c = tie <$> contexts d !! c) → tables d' = tables d → same_conns d d'.
Proof.
  intros Hi Ht. split; [|done]. intros c. specialize (Hi c).
  destruct (contexts d' !! c), (contexts d !! c); try done. cbn in *. apply (inj Some) in Hi.
  unfold tie in Hi. congruence.
Qed.

Section life.
Context (E : env) `{Access}.

(** ** Storing and publishing *)

Lemma inv_store busy source smid topic q pl r sid d :
  broker_inv busy d →
  wp (on_store (λ d, Some (mqtt3_db_message_store source smid topic q pl r sid d))) (λ s d',
    broker_inv busy d' ∧ same_conns d d' ∧ contexts d' = contexts d ∧
    ∃ m, heap (dmsg d') !! s = Some m ∧ ms_topic m = topic ∧ ms_payload m = pl ∧ ms_qos m = q) d.
Proof.
  intros Hinv. pose proof (bi_ok _ _ Hinv) as Hok. pose proof (db_core _ _ (bo_db _ _ Hok)) as Hcore.
  destruct (message_store_ok _ _ source smid topic q pl r sid (co_store _ _ Hcore))
    as (s & s' & m & Hrun & Hst & Hnone & Hh & Hs & Hp & _ & _ & Ht & Hpl & Hq & _).
  eapply wp_on_store; [by rewrite Hrun|].
  assert (Hstep : core_step (tree_refs (root d) ++ []) d (set_dmsg (λ _, s') d)).
  { eapply core_ok_dmsg; [done|done| |lia]. intros y Hy. unfold content_at. rewrite Hh.
    rewrite lookup_insert_ne; [done|]. intros <-.
    destruct (store_ok_live _ _ _ (co_store _ _ Hcore) Hy) as [? ?]. congruence. }
  assert (Hsc : same_conns d (set_dmsg (λ _, s') d)) by (eapply frame_conns, Hstep).
  split_and!; [|done|done|].
  - eapply inv_conns; [done| |done]. by eapply broker_ok_step.
  - exists m. cbn. by rewrite Hh, lookup_insert_eq.
Qed.

Lemma inv_publish busy source topic q r stored d :
  broker_inv busy d → sendable (dmsg d) stored → 0 ≤ q ≤ 2 → 0 ∉ topic → wildcard_free topic →
  wp (mqtt3_db_messages_queue E acl_check source topic q r stored) (λ '(rc, o) d',
    broker_inv busy d' ∧ same_conns d d' ∧ (∀ c, tie <$> contexts d' !! c = tie <$> contexts d !! c) ∧
    rc = MOSQ_ERR_SUCCESS ∧ o = (λ _, stored) <$> heap (dmsg d') !! stored) d.
Proof.
  intros Hinv Hs Hq H0 Hw. eapply wp_mono; [apply (publish_ok E acl_check []); [apply Hinv|done..]|].
  intros [rc o] d' (Hok' & _ & Hi & Ht & -> & Ho). pose proof (ties_conns _ _ Hi Ht) as Hsc.
  split_and!; try done. by eapply inv_conns.
Qed.

Lemma inv_easy_queue busy o topic q pl r d :
  broker_inv busy d → (∀ c, o = Some c → is_Some (contexts d !! c)) → will_ok (Message topic pl q r) →
  wp (mqtt3_db_messages_easy_queue E o topic q pl r) (λ _ d',
    broker_inv busy d' ∧ same_conns d d' ∧ ∀ c, tie <$> contexts d' !! c = tie <$> contexts d !! c) d.
Proof.
  intros Hinv Ho (H0 & Hw & Hst & Hsp & Hq). cbn in *. unfold mqtt3_db_messages_easy_queue.
  apply wp_bind. eapply (wp_mono _ (λ _ d', d' = d)).
  { destruct o as [c|]; [|by apply wp_ret]. destruct (Ho c eq_refl) as [x Hx].
    apply wp_bind, (wp_get_context _ x); [done|]. by apply wp_ret. }
  intros sid d0 ->. apply wp_bind.
  eapply wp_mono; [by apply inv_store|]. intros s d1 (Hinv1 & Hs1 & Hc1 & m & Hm & Ht & Hpl & Hmq).
  apply wp_bind. eapply wp_mono; [apply (inv_publish busy); try done|].
  - exists m, topic. by rewrite Hpl, Hmq.
  - intros [rc o'] d2 (Hinv2 & Hs2 & Hi & _). apply wp_ret. split_and!; [done|by etrans|].
    intros c'. by rewrite Hi, Hc1.
Qed.

Lemma send_will_ok busy c x d :
  broker_inv busy d → contexts d !! c = Some x →
  wp (mqtt3_context_send_will E c) (λ _ d', broker_inv busy d' ∧ tables d' = tables d ∧
    ∃ x', contexts d' !! c = Some x' ∧ conn x' = conn (set_will (λ _, None) x) ∧ incoming x' = incoming x ∧
      (∀ c', c' ≠ c → tie <$> contexts d' !! c' = tie <$> contexts d !! c')) d.
Proof.
  intros Hinv Hx. unfold mqtt3_context_send_will. apply wp_bind, (wp_get_context _ x); [done|].
  pose proof (bi_clients _ _ Hinv c x Hx) as [Hw _]. apply wp_bind.
  eapply (wp_mono _ (λ _ d', broker_inv busy d' ∧ same_conns d d' ∧
    ∀ c, tie <$> contexts d' !! c = tie <$> contexts d !! c)).
  { destruct (will x) as [w|]; [|by apply wp_ret]. destruct (_ && _); [|by apply wp_ret].
    apply wp_bind. eapply wp_mono; [eapply inv_easy_queue; [done|by intros ? [= <-]|]|intros rc d' H'; by apply wp_ret].
    specialize (Hw w eq_refl). by destruct w. }
  intros [] d1 (Hinv1 & Hs1 & Hi1). pose proof (Hi1 c) as Hic. rewrite Hx in Hic.
  destruct (contexts d1 !! c) as [x1|] eqn:Hx1; [|done]. apply (inj Some) in Hic.
  assert (Hcn : conn x1 = conn x) by (unfold tie in Hic; congruence).
  assert (Hin : incoming x1 = incoming x) by (unfold tie in Hic; congruence).
  eapply wp_mono; [apply (inv_upd busy c x1); try done|].
  - apply (client_ok_same _ x1); [by apply (bi_clients _ _ Hinv1 c)|by right|by right].
  - intros (? & ? & ? & ? & ?). by split_and!.
  - intros _ d2 [Hinv2 ->]. split; [done|]. split; [apply (sc_tables _ _ _ Hs1)|].
    eexists. split; [apply lookup_insert_eq|]. split; [|split; [exact Hin|]].
    + conn_congr Hcn.
    + intros c' Hne. cbn. by rewrite lookup_insert_ne, Hi1.
Qed.

(** ** Closing *)

Lemma table_listed {K} (f : mosquitto → option K) m t c x k :
  table_ok f m t → m !! c = Some x → f x = Some k → c ∈ t.*2.
Proof. intros [Ht _] Hx Hk. apply (list_elem_of_fmap_2 snd t (k, c)), Ht. eauto. Qed.

Definition closed_sock (x : mosquitto) : mosquitto := set_listener (λ _, None) (set_sock (λ _, None) x).

Lemma socket_close_ok busy c x d :
  broker_inv busy d → contexts d !! c = Some x →
  wp (_mosquitto_socket_close c) (λ _ d', broker_inv busy d' ∧
    contexts d' = <[c := closed_sock x]> (contexts d) ∧ dmsg d' = dmsg d ∧ subs_children d' = subs_children d ∧
    contexts_by_id d' = contexts_by_id d ∧ ll_for_free d' = ll_for_free d ∧ bridges d' = bridges d) d.
Proof.
  intros Hinv Hx. pose proof (bi_tables _ _ Hinv) as Ht. unfold _mosquitto_socket_close.
  apply wp_bind, (wp_get_context _ x); [done|]. apply wp_bind.
  eapply (wp_mono _ (λ _ d1, broker_inv busy d1 ∧ contexts d1 = <[c := set_sock (λ _, None) x]> (contexts d) ∧
    dmsg d1 = dmsg d ∧ subs_children d1 = subs_children d ∧
    contexts_by_id d1 = contexts_by_id d ∧ ll_for_free d1 = ll_for_free d ∧ bridges d1 = bridges d)).
  { destruct (sock x) as [fd|] eqn:Hfd.
    - apply wp_bind, wp_get, wp_bind, wp_assert.
      { apply bool_decide_eq_true. by eapply (table_listed sock), Hfd; [apply Ht|]. }
      apply wp_bind, wp_modify. unfold wp, upd_context. cbn [contexts set_by_sock]. rewrite Hx. cbn [mbind option_bind].
      split_and!; try done. eapply (inv_light busy c x); [done|done|]. split; try done.
      + right. left. done.
      + by left.
      + by left.
      + apply (client_ok_same _ x); [by apply (bi_clients _ _ Hinv c)|by left|by left].
      + eapply free_light; [done|done|done|]. intros Hf.
        destruct (tb_free _ _ Ht c Hf) as (y & Hy & Hcl). assert (y = x) as -> by congruence.
        destruct Hcl as (? & ? & ? & ? & ?). by split_and!.
    - apply wp_ret. split_and!; try done. rewrite insert_id; [done|]. rewrite Hx. f_equal.
      destruct x. cbn in Hfd. by subst. }
  intros [] d1 (Hinv1 & Hc1 & Hd1 & Ht1 & Hi1 & Hf1 & Hb1). set (x1 := set_sock (λ _, None) x) in *.
  assert (Hx1 : contexts d1 !! c = Some x1) by (by rewrite Hc1, lookup_insert_eq).
  pose proof (bi_tables _ _ Hinv1) as Htb1. change (listener x) with (listener x1).
  destruct (listener x1) as [l|] eqn:Hl.
  - apply wp_bind, wp_get. destruct (lookup_lt_is_Some_2 (client_counts d1) l (tb_listener _ _ Htb1 c x1 l Hx1 Hl)) as [n Hn].
    apply wp_bind. eapply wp_lift; [exact Hn|]. apply wp_bind, wp_assert.
    { apply Z.leb_le. rewrite (tb_count _ _ Htb1 l n Hn). pose proof (count_listener_pos l _ c x1 Hx1 Hl). lia. }
    apply wp_bind, wp_modify. unfold wp, upd_context. cbn [contexts set_client_counts]. rewrite Hx1. cbn [mbind option_bind].
    cbn [contexts dmsg subs_children contexts_by_id ll_for_free bridges set_contexts set_client_counts].
    rewrite Hc1, insert_insert_eq. split_and!; try done.
    eapply (inv_light_but _ _ busy c x1 (closed_sock x)); [exact Hinv1|exact Hx1|]. split; try done.
    + by left.
    + by left.
    + right. left. split; [done|]. exists l, n. by rewrite Hl.
    + apply (client_ok_same _ x); [by apply (bi_clients _ _ Hinv c)|by left|by left].
    + eapply free_light; [done|done|done|]. intros Hf.
      destruct (tb_free _ _ Htb1 c Hf) as (y & Hy & Hcl). assert (y = x1) as -> by congruence.
      destruct Hcl as (? & ? & ? & ? & ?). by split_and!.
  - apply wp_ret. split_and!; try done. rewrite Hc1. f_equal. unfold closed_sock.
    change (listener x1) with (listener x) in Hl. destruct x. cbn in *. by subst.
Qed.

(** ** Disconnecting *)

Lemma context_disconnect_ok busy c x d :
  broker_inv busy d → contexts d !! c = Some x →
  wp (mqtt3_context_disconnect E c) (λ _ d', broker_inv busy d' ∧
    (∃ x', contexts d' !! c = Some x' ∧
       conn x' = conn (closed_sock (set_disconnect_t (λ _, wall_clock E) (set_will (λ _, None) x)))) ∧
    (∀ c', c' ≠ c → tie <$> contexts d' !! c' = tie <$> contexts d !! c') ∧
    contexts_by_id d' = contexts_by_id d ∧ ll_for_free d' = ll_for_free d) d.
Proof.
  intros Hinv Hx. unfold mqtt3_context_disconnect. apply wp_bind.
  eapply wp_mono; [by apply (send_will_ok busy)|]. intros [] d1 (Hinv1 & Ht1 & x1 & Hx1 & Hc1 & _ & Ho1).
  apply wp_bind. eapply wp_mono; [apply (inv_upd busy c x1); try done|].
  { apply (client_ok_same _ x1); [by apply (bi_clients _ _ Hinv1 c)|by left|by right]. }
  intros _ d2 [Hinv2 ->]. set (x2 := set_disconnect_t (λ _, wall_clock E) x1) in *.
  eapply wp_mono; [apply (socket_close_ok busy c x2); [done|apply lookup_insert_eq]|].
  intros _ d3 (Hinv3 & Hc3 & _ & _ & Hi3 & Hf3 & _). unfold tables in Ht1. split; [done|]. split; [|split].
  - exists (closed_sock x2). rewrite Hc3, lookup_insert_eq. split; [done|].
    conn_congr Hc1.
  - intros c' Hne. rewrite Hc3, lookup_insert_ne by done. cbn [contexts set_contexts].
    by rewrite lookup_insert_ne, Ho1.
  - rewrite Hi3, Hf3. cbn. split; congruence.
Qed.

Lemma do_disconnect_ok busy c x d :
  broker_inv busy d → contexts d !! c = Some x →
  wp (do_disconnect E c) (λ _ d', broker_inv busy d' ∧
    (∃ x', contexts d' !! c = Some x' ∧ cstate x' = mosq_cs_disconnected ∧ subs x' = subs x ∧
       (cstate x ≠ mosq_cs_disconnected → sock x' = None ∧ will x' = None ∧
        (clean_session x = true → c_bridge x = None → c ∈ ll_for_free d' ∧ id x' = None))) ∧
    ∀ c', c' ≠ c → tie <$> contexts d' !! c' = tie <$> contexts d !! c') d.
Proof.
  intros Hinv Hx. unfold do_disconnect. apply wp_bind, (wp_get_context _ x); [done|].
  case_bool_decide as Hst.
  { apply wp_ret. split; [done|]. split; [|done]. by exists x. }
  apply wp_bind. eapply wp_mono; [by apply (context_disconnect_ok busy)|].
  intros [] d1 (Hinv1 & (x1 & Hx1 & Hcn) & Ho1 & Hi1 & Hf1).
  assert (Hfields : id x1 = id x ∧ subs x1 = subs x ∧ sock x1 = None ∧ will x1 = None ∧ listener x1 = None ∧
    clean_session x1 = clean_session x ∧ topics <$> c_bridge x1 = topics <$> c_bridge x ∧ cstate x1 = cstate x).
  { apply conn_fields in Hcn. cbn in Hcn. tauto. }
  destruct Hfields as (Hid & Hsb & Hsk & Hwl & Hls & Hcs & Hbr & Hcst).
  assert (Hbr' : c_bridge x1 = None ↔ c_bridge x = None) by (destruct (c_bridge x1), (c_bridge x); naive_solver).
  assert (Hnf : c ∉ ll_for_free d1).
  { intros Hc. destruct (tb_free _ _ (bi_tables _ _ Hinv1) c Hc) as (y & Hy & Hcl & _). congruence. }
  apply wp_bind, (wp_get_context _ x1); [done|]. apply wp_bind.
  destruct (clean_session x1 && bool_decide (c_bridge x1 = None)) eqn:Hclean.
  - apply wp_bind, wp_modify. set (d2 := set_ll_for_free _ d1).
    assert (Hx2 : contexts d2 !! c = Some x1) by done.
    set (x2 := set_cstate (λ _, mosq_cs_disconnected) (set_id (λ _, None) x1)).
    set (d3 := set_contexts <[c := x2]> (set_by_id (λ t, if id x1 then filter (λ e, e.2 ≠ c) t else t) d2)).
    assert (Hinv3 : broker_inv busy d3).
    { eapply (inv_light busy c x1 x2); [exact Hinv1|exact Hx1|]. split; try done.
      - cbn. by intros [? ?].
      - by left.
      - cbn. destruct (id x1); [right; left|left]; done.
      - by left.
      - apply (client_ok_same _ x1); [by apply (bi_clients _ _ Hinv1 c)|by left|by left].
      - split; [by apply NoDup_cons; split; [|apply (bi_tables _ _ Hinv1)]|]. cbn.
        intros c' [->|Hc']%elem_of_cons; [by right|left]. split; [done|]. by intros ->. }
    eapply (wp_mono _ (λ _ d', d' = set_contexts <[c := set_id (λ _, None) x1]>
      (set_by_id (λ t, if id x1 then filter (λ e, e.2 ≠ c) t else t) d2))).
    { unfold forget_id. apply wp_bind, (wp_get_context _ x1); [done|]. destruct (id x1) as [i|] eqn:Hi.
      - apply wp_bind, wp_get, wp_bind, wp_assert.
        { apply bool_decide_eq_true. by eapply (table_listed id); [apply (bi_tables _ _ Hinv1)|exact Hx1|]. }
        apply wp_bind, wp_modify. unfold wp, upd_context. cbn [contexts set_by_id]. rewrite Hx2. done.
      - apply wp_ret. assert (set_id (λ _, None) x1 = x1) as -> by (destruct x1; cbn in *; by subst).
        unfold set_contexts. cbn [contexts set_by_id]. rewrite (insert_id _ _ _ Hx2). by destruct d2. }
    intros [] d' ->. unfold wp, upd_context. cbn [contexts set_contexts]. rewrite lookup_insert_eq. cbn [mbind option_bind].
    assert (Hd3 : set_contexts <[c := x2]> (set_contexts <[c := set_id (λ _, None) x1]>
      (set_by_id (λ t, if id x1 then filter (λ e, e.2 ≠ c) t else t) d2)) = d3).
    { unfold d3, set_contexts. cbn [contexts set_by_id dmsg subs_children]. by rewrite insert_insert_eq. }
    fold x2. rewrite Hd3. split; [done|]. split.
    + exists x2. split; [apply lookup_insert_eq|]. split_and!; try done. intros _.
      split_and!; try done. intros _ _. split; [by left|done].
    + intros c' Hne. cbn. by rewrite lookup_insert_ne, Ho1.
  - apply wp_ret. eapply wp_mono; [apply (inv_upd busy c x1); try done|].
    + apply (client_ok_same _ x1); [by apply (bi_clients _ _ Hinv1 c)|by left|by left].
    + by intros (? & ? & ? & ? & ?).
    + intros _ d2 [Hinv2 ->]. split; [done|]. split.
      * eexists. split; [apply lookup_insert_eq|]. split_and!; try done. intros _. split_and!; try done.
        intros Hc Hb. rewrite Hcs, Hc, (bool_decide_eq_true_2 (c_bridge x1 = None)) in Hclean by (by apply Hbr'). done.
      * intros c' Hne. cbn. by rewrite lookup_insert_ne, Ho1.
Qed.
End life.
