(* ===== verification/Release.v ===== *)
(** * Releasing and freeing

    The release of the messages a client sent, which publishes to the whole
    broker, and the freeing of closed contexts: both end, and preserve the
    invariant. *)

From stdpp Require Import base list numbers strings option sets gmap.
From Stdlib Require Import ZArith Lia.
From S2P Require Import Prelude Topic Packet State Store Send Messages Db Acl Subs DbInv Session Context Lifecycle.
Local Open Scope Z_scope.
Local Open Scope broker_scope.

(** How many messages have the key [k]. *)
Definition matches (k : Z * msg_direction) (l : list client_msg) : nat :=
  length (filter (λ y, y.2 = k) (core <$> l)).

Lemma matches_core k l l' : core <$> l' = core <$> l → matches k l' = matches k l.
Proof. unfold matches. by intros ->. Qed.

Lemma matches_le k l : (matches k l ≤ length l)%nat.
Proof. unfold matches. rewrite <-(length_fmap core l). apply length_filter. Qed.

Lemma matches_delete k l i m :
  l !! i = Some m → key m = k → matches k l = S (matches k (delete i l)).
Proof.
  intros Hi Hk. unfold matches.
  assert (Hp : core <$> l ≡ₚ core m :: (core <$> delete i l)) by (by rewrite (delete_Permutation _ _ _ Hi) at 1).
  rewrite Hp, filter_cons_True by done. done.
Qed.

Lemma matches_incoming r x y :
  incoming y = incoming x → matches (r, mosq_md_in) (msgs y) = matches (r, mosq_md_in) (msgs x).
Proof.
  assert (H : ∀ l, matches (r, mosq_md_in) l = length (filter (λ m, mid m = r) (filter (λ m, direction m = mosq_md_in) l))).
  { unfold matches. induction l as [|m l IH]; [done|]. rewrite fmap_cons, !filter_cons. cbn [core key snd].
    destruct (decide (direction m = mosq_md_in)) as [Hd|Hd].
    - rewrite filter_cons. destruct (decide (mid m = r)) as [Hm|Hm].
      + rewrite decide_True by (unfold key; congruence). cbn [length]. by rewrite IH.
      + rewrite decide_False by (unfold key; congruence). done.
    - rewrite decide_False by (unfold key; congruence). done. }
  unfold incoming. intros Hi. by rewrite !H, Hi.
Qed.

Lemma bind_run {S A B} (m : M S A) (k : A → M S B) s b s' :
  bind m k s = Some (b, s') → ∃ a s1, m s = Some (a, s1) ∧ k a s1 = Some (b, s').
Proof. unfold bind. destruct (m s) as [[a s1]|]; [|done]. eauto. Qed.

Section release.
Context (E : env) `{Access} (busy : option ptr) (c : ptr).

(** *** What is published *)

(** Nothing but the context [c] changed; nothing but it and the store. *)
Definition only_context (d d' : db) : Prop := ∃ x, d' = set_contexts <[c := x]> d.
Definition only_queue (d d' : db) : Prop := ∃ x s, d' = set_dmsg (λ _, s) (set_contexts <[c := x]> d).

(** The message [m] of a queue is published, if it was not refused. *)
Definition publishes (m : client_msg) (d d' : db) : Prop :=
  ∃ st, heap (dmsg d) !! cm_store m = Some st ∧
    match ms_topic st with
    | None => d' = d
    | Some topic =>
        mqtt3_db_messages_queue E acl_check (Some (source_id st)) topic (ms_qos st) (retain m) (cm_store m) d =
          Some ((0, Some (cm_store m)), d')
    end.

(** The messages [ms] of the queue of [c] are published, one after the other,
    each once, and taken out of the queue; nothing else happens outside [c]. *)
Fixpoint publishes_all (ms : list client_msg) (d d' : db) : Prop :=
  match ms with
  | [] => only_context d d'
  | m :: ms' => ∃ da x db dc, only_context d da ∧ contexts da !! c = Some x ∧ m ∈ msgs x ∧ publishes m da db ∧ only_queue db dc ∧
      publishes_all ms' dc d'
  end.

Lemma only_context_refl d x : contexts d !! c = Some x → only_context d d.
Proof. intros Hx. exists x. unfold set_contexts. rewrite insert_id by done. by destruct d. Qed.

Lemma only_context_trans d1 d2 d3 : only_context d1 d2 → only_context d2 d3 → only_context d1 d3.
Proof. intros [x ->] [y ->]. exists y. unfold set_contexts. cbn. by rewrite insert_insert_eq. Qed.

Lemma only_queue_context d1 d2 d3 : only_queue d1 d2 → only_context d2 d3 → only_queue d1 d3.
Proof. intros (x & s & ->) [y ->]. exists y, s. unfold set_contexts, set_dmsg. cbn. by rewrite insert_insert_eq. Qed.

Lemma publishes_all_context d1 d2 d3 ms : only_context d1 d2 → publishes_all ms d2 d3 → publishes_all ms d1 d3.
Proof.
  intros H12. destruct ms as [|m ms]; cbn [publishes_all]; [by apply only_context_trans|].
  intros (da & x & db & dc & H2a & Hr). exists da, x, db, dc. split; [by eapply only_context_trans|done].
Qed.

Lemma on_cm_queue {A} (m : M cm A) a d d' : on_cm c m d = Some (a, d') → only_queue d d'.
Proof.
  unfold on_cm. destruct (contexts d !! c) as [x|]; [|done]. cbn. destruct (m (CM x (dmsg d))) as [[a' s]|]; [|done].
  intros [= _ <-]. by exists (ctx s), (mdb s).
Qed.

Lemma on_cm_context {A} (m : M cm A) a d d' :
  (∀ s a s', m s = Some (a, s') → mdb s' = mdb s) → on_cm c m d = Some (a, d') → only_context d d'.
Proof.
  intros Hm. unfold on_cm. destruct (contexts d !! c) as [x|]; [|done]. cbn.
  destruct (m (CM x (dmsg d))) as [[a' s]|] eqn:Hr; [|done]. intros [= _ <-]. exists (ctx s). rewrite (Hm _ _ _ Hr). by destruct d.
Qed.

Lemma on_ctx_mdb {A} (m : M mosquitto A) s a s' : on_ctx m s = Some (a, s') → mdb s' = mdb s.
Proof. unfold on_ctx. destruct (m (ctx s)) as [[? ?]|]; [|done]. by intros [= _ <-]. Qed.

Lemma release_ready_context i m d a d' : is_Some (contexts d !! c) → release_ready E c i m d = Some (a, d') → only_context d d'.
Proof.
  intros [x Hx] ([] & d1 & H1 & H2)%bind_run.
  eapply (only_context_trans _ d1); [|by eapply on_cm_context in H2; [|intros ? ? ? [= _ <-]]].
  destruct (direction m); [destruct (qos m =? 2)|]; [|injection H1 as <-; by eapply only_context_refl..].
  apply bind_run in H1 as (rc & d2 & H3 & [= <-]).
  eapply on_cm_context; [|exact H3]. intros ? ? ?. apply on_ctx_mdb.
Qed.

Lemma release_scan_context n rmid dir i idx del d r d' :
  release_scan E n c rmid dir i idx del d = Some (r, d') → only_context d d'.
Proof.
  revert i idx d. induction n as [|n IH]; intros i idx d; cbn [release_scan]; unfold bind at 1, get_context;
    destruct (contexts d !! c) as [x|] eqn:Hx; try done; cbn [mbind option_bind]; destruct (msgs x !! i) as [m|];
    try done; try (unfold ret; intros [= _ <-]; by eapply only_context_refl).
  intros ([] & d1 & H1 & H2)%bind_run. revert H2.
  assert (H01 : only_context d d1).
  { destruct (_ && _); [by eapply release_ready_context|]. injection H1 as <-. by eapply only_context_refl. }
  destruct ((mid m =? rmid) && _); [unfold ret; by intros [= _ <-]|]. destruct (_ && del); [unfold ret; by intros [= _ <-]|].
  intros H2%IH. by eapply only_context_trans.
Qed.

Lemma release_one_publishes x j m d j' d' :
  contexts d !! c = Some x → msgs x !! j = Some m → release_one E c j d = Some (Some j', d') →
  ∃ db, publishes m d db ∧ only_queue db d'.
Proof.
  intros Hx Hj (x' & d0 & H0 & H1)%bind_run. unfold get_context in H0. rewrite Hx in H0. injection H0 as <- <-.
  apply bind_run in H1 as (m' & d0 & H0 & H1). rewrite Hj in H0. injection H0 as <- <-.
  apply bind_run in H1 as (dd & d0 & [= <- <-] & H1).
  apply bind_run in H1 as (st & d0 & H0 & H1). destruct (deref_store (cm_store m) (dmsg d)) as [st'|] eqn:Hst; [|done]. injection H0 as <- <-.
  apply bind_run in H1 as (rc & d1 & Hpub & Hrest).
  assert (Hd : rc = 0 ∧ only_queue d1 d').
  { destruct (Z.eqb_spec rc 0) as [->|]; [|done]. split; [done|].
    apply bind_run in Hrest as (y & d2 & H2 & Hrest). unfold get_context in H2. destruct (contexts d1 !! c); [|done]. injection H2 as <- <-.
    apply bind_run in Hrest as ([k z] & d2 & H2 & Hrest). destruct (list_find _ _) as [[? ?]|]; [|done]. injection H2 as -> -> <-.
    apply bind_run in Hrest as (u & d2 & H2 & [= _ <-]). by eapply on_cm_queue. }
  destruct Hd as [-> Hd]. exists d1. split; [|done]. exists st'. split; [exact Hst|]. destruct (ms_topic st') as [t|]; [|by injection Hpub as <-].
  apply bind_run in Hpub as ([rc o] & d2 & Hq & Hpub). apply bind_run in Hpub as ([] & d3 & Ha & [= -> <-]).
  unfold massert in Ha. destruct (bool_decide (o = Some (cm_store m))) eqn:Ho; [|done]. injection Ha as <-.
  by apply bool_decide_eq_true in Ho as ->.
Qed.

(** *** Safety *)

(** The connections are the same, and [c] still has messages [P]. *)
Definition released (P : list client_msg → Prop) (d d' : db) : Prop :=
  broker_inv busy d' ∧ same_conns d d' ∧ ∃ x', contexts d' !! c = Some x' ∧ P (msgs x').

Lemma released_to (P : list client_msg → Prop) d d' x' :
  broker_inv busy d' → same_conns d d' → contexts d' !! c = Some x' → P (msgs x') → released P d d'.
Proof. intros ? ? ? ?. split; [done|]. split; [done|]. eauto. Qed.

Lemma released_named d d' x x' :
  contexts d !! c = Some x → is_Some (id x) → same_conns d d' → contexts d' !! c = Some x' → is_Some (id x').
Proof.
  intros Hx Hid Hs Hx'. destruct (same_conns_lookup _ _ _ _ _ Hs Hx) as (y & Hy & Hcn).
  apply conn_fields in Hcn as (Hi & _). rewrite Hx' in Hy. injection Hy as <-. by rewrite Hi.
Qed.

Lemma release_ready_ok x i m d :
  broker_inv busy d → contexts d !! c = Some x → is_Some (id x) → msgs x !! i = Some m →
  wp (release_ready E c i m) (λ _ d', released (λ l, core <$> l = core <$> msgs x) d d') d.
Proof.
  intros Hinv Hx Hid Hi. unfold release_ready. apply wp_bind.
  eapply (wp_mono _ (λ _ d1, broker_inv busy d1 ∧ same_conns d d1 ∧
    ∃ x1, contexts d1 !! c = Some x1 ∧ msgs x1 = msgs x)).
  { pose proof (co_ctx _ _ (db_core _ _ (bo_db _ _ (bi_ok _ _ Hinv))) c x Hx) as Hcx.
    destruct (direction m); [destruct (qos m =? 2)|]; [|by apply wp_ret; split_and!; eauto..].
    apply wp_bind. eapply wp_mono; [apply (inv_net busy c x); [done|done|]|].
    - unfold _mosquitto_send_pubrec. exact (emits_safe _ _ (send_command_with_mid_emits E PUBREC (mid m)) x (cx_out _ _ Hcx)).
    - intros rc d1 (? & ? & _ & x1 & ? & Hn). apply wp_ret. split_and!; [done|done|].
      exists x1. split; [done|]. by destruct Hn as (? & ? & ? & ? & ? & ->). }
  intros [] d1 (Hinv1 & Hs1 & x1 & Hx1 & Hm1). pose proof (released_named _ _ _ _ Hx Hid Hs1 Hx1) as Hid1.
  eapply wp_mono; [apply (on_cm_ok busy c x1 _ (λ _ s', core <$> msgs (ctx s') = core <$> msgs x1)); [done..|]|].
  - intros others Hok. rewrite <-Hm1 in Hi.
    assert (Hr : restated m (make_ready E m)).
    { eapply make_ready_restated. eapply Forall_lookup_1; [apply Hok|exact Hi]. }
    eapply wp_mono; [by apply (upd_msg_spec others _ i m)|]. intros _ s' [Hst Hl]. split; [done|].
    rewrite Hl. apply restated_core. eapply Forall2_restated_alter; [apply Hok|done|done].
  - intros _ d2 (Hinv2 & Hs2 & s' & Hc & ->). split; [done|]. split; [by etrans|].
    exists (ctx s'). split; [apply lookup_insert_eq|]. by rewrite Hc, Hm1.
Qed.

Lemma release_scan_ok n rmid dir i idx del x d :
  broker_inv busy d → contexts d !! c = Some x → is_Some (id x) → (length (msgs x) ≤ i + n)%nat →
  wp (release_scan E n c rmid dir i idx del) (λ r d', released (λ l, core <$> l = core <$> msgs x ∧
    match r with
    | inr (j, _) => ∃ m, l !! j = Some m ∧ key m = (rmid, dir)
    | inl rc => rc = (if del then 0 else 1) ∧ (del = false → Forall (λ y, y.2 ≠ (rmid, dir)) (drop i (core <$> l)))
    end) d d') d.
Proof.
  revert i idx x d. induction n as [|n IH]; intros i idx x d Hinv Hx Hid Hn; cbn [release_scan];
    apply wp_bind, (wp_get_context _ x); try done; destruct (msgs x !! i) as [m|] eqn:Hi;
    try (apply wp_ret, (released_to _ d d x); [done..|]; split; [done|]; split; [by destruct del|]; intros _;
      rewrite drop_ge; [constructor|]; rewrite length_fmap; by apply lookup_ge_None).
  { apply lookup_lt_Some in Hi. lia. }
  apply wp_bind. eapply (wp_mono _ (λ _ d', released (λ l, core <$> l = core <$> msgs x) d d')).
  { destruct (bool_decide (state m = mosq_ms_queued) && (idx + 1 <=? max_inflight E)); [by eapply release_ready_ok|]. by apply wp_ret, (released_to _ d d x). }
  intros _ d1 (Hinv1 & Hs1 & x1 & Hx1 & Hc1). pose proof (released_named _ _ _ _ Hx Hid Hs1 Hx1) as Hid1.
  assert (Hlen : length (msgs x1) = length (msgs x)) by (apply (f_equal length) in Hc1; by rewrite !length_fmap in Hc1).
  assert (Hci : (core <$> msgs x1) !! i = Some (core m)) by (by rewrite Hc1, list_lookup_fmap, Hi).
  destruct ((mid m =? rmid) && bool_decide (direction m = dir)) eqn:Hk.
  - apply wp_ret, (released_to _ d d1 x1); [done..|]. split; [done|].
    apply andb_true_iff in Hk as [Hk1%Z.eqb_eq Hk2%bool_decide_eq_true].
    rewrite list_lookup_fmap in Hci. destruct (msgs x1 !! i) as [m1|]; [|done]. exists m1. split; [done|].
    cbn in Hci. apply (inj Some) in Hci. unfold core in Hci. assert (key m1 = key m) as -> by congruence. unfold key. congruence.
  - destruct ((max_inflight E <? idx + 1) && del) eqn:Hstop.
    { apply andb_true_iff in Hstop as [_ ->]. by apply wp_ret, (released_to _ d d1 x1). }
    eapply wp_mono; [apply (IH (S i) (idx + 1) x1 d1); [done|done|done|lia]|].
    intros r d2 (Hinv2 & Hs2 & x2 & Hx2 & Hc2 & Hr). split; [done|]. split; [by etrans|].
    exists x2. split; [done|]. split; [congruence|]. destruct r as [rc|]; [|done]. destruct Hr as [-> Hr]. split; [done|].
    intros Hdel. rewrite Hc2, (drop_S _ _ _ Hci). constructor; [|rewrite <-Hc2; by apply Hr].
    cbn. unfold key. intros [= Hm1 Hd1]. by rewrite Hm1, Hd1, Z.eqb_refl, bool_decide_eq_true_2 in Hk.
Qed.

(** A message that is still referred to is there. *)
Lemma store_live d x m :
  broker_inv busy d → contexts d !! c = Some x → m ∈ msgs x → is_Some (heap (dmsg d) !! cm_store m).
Proof.
  intros Hinv Hx Hm. pose proof (db_core _ _ (bo_db _ _ (bi_ok _ _ Hinv))) as Hcore.
  eapply store_ok_live; [apply (co_store _ _ Hcore)|]. apply elem_of_app. left.
  eapply ctx_refs_elem; [exact Hx|]. by apply list_elem_of_fmap_2.
Qed.

Lemma in_message d x m :
  broker_inv busy d → contexts d !! c = Some x → m ∈ msgs x → direction m = mosq_md_in → publishable (dmsg d) (cm_store m).
Proof.
  intros Hinv Hx Hm Hd. pose proof (co_ctx _ _ (db_core _ _ (bo_db _ _ (bi_ok _ _ Hinv))) c x Hx) as Hcx.
  pose proof (cx_msgs _ _ Hcx) as Hms. rewrite Forall_forall in Hms.
  destruct (Hms m Hm) as (_ & _ & Hcar & _). by rewrite Hd in Hcar.
Qed.

Lemma remove_found_ok rmid x m d :
  broker_inv busy d → contexts d !! c = Some x → is_Some (id x) → m ∈ msgs x → key m = (rmid, mosq_md_in) →
  wp (let* x := get_context c in
      let* r := mlift (list_find (λ y, cm_ptr y = cm_ptr m) (msgs x)) in
      let (j, _) := r in on_cm c (_message_remove E j) ;;; ret (Some j))
    (λ o d', is_Some o ∧ released (λ l, matches (rmid, mosq_md_in) (msgs x) = S (matches (rmid, mosq_md_in) l)) d d') d.
Proof.
  intros Hinv Hx Hid Hm Hk. apply wp_bind, (wp_get_context _ x); [done|]. apply wp_bind.
  pose proof (co_ctx _ _ (db_core _ _ (bo_db _ _ (bi_ok _ _ Hinv))) c x Hx) as Hcx.
  destruct (list_find_elem_of (λ y, cm_ptr y = cm_ptr m) (msgs x) m Hm eq_refl) as [[j y] Hf].
  eapply wp_lift; [exact Hf|]. apply list_find_Some in Hf as (Hj & Hy & _).
  assert (y = m) as ->.
  { apply list_elem_of_lookup in Hm as [i Hi]. pose proof (q_nodup _ (cx_queue _ _ Hcx Hid)) as Hnd.
    assert (j = i) as ->.
    { eapply (NoDup_lookup _ _ _ (cm_ptr m) Hnd); rewrite list_lookup_fmap, ?Hj, ?Hi; cbn; congruence. }
    congruence. }
  apply wp_bind. eapply wp_mono;
    [apply (on_cm_ok busy c x _ (λ _ s', core <$> msgs (ctx s') = core <$> delete j (msgs x))); [done..|]|].
  - intros others Hok. eapply wp_mono; [by apply (message_remove_spec E others _ j m)|].
    intros _ s' (Hst & Hl & Hkp & _). split; [done|]. rewrite Hl. apply restated_core.
    eapply promote_queued_restated. pose proof (ok_msgs _ _ Hok) as Hms.
    eapply (Forall_subseteq _ _ (msgs x)); [|exact Hms]. rewrite (delete_Permutation _ _ _ Hj). set_solver.
  - intros _ d' (Hinv' & Hs & s' & Hc & ->). apply wp_ret. split; [by eexists|].
    apply (released_to _ d _ (ctx s')); [done|done|apply lookup_insert_eq|]. rewrite (matches_core _ _ _ Hc). by eapply matches_delete.
Qed.

Lemma release_one_ok rmid x j m d :
  broker_inv busy d → contexts d !! c = Some x → is_Some (id x) → msgs x !! j = Some m →
  key m = (rmid, mosq_md_in) →
  wp (release_one E c j) (λ o d', is_Some o ∧
    released (λ l, matches (rmid, mosq_md_in) (msgs x) = S (matches (rmid, mosq_md_in) l)) d d') d.
Proof.
  intros Hinv Hx Hid Hj Hk. pose proof (list_elem_of_lookup_2 _ _ _ Hj) as Hm.
  assert (Hd : direction m = mosq_md_in) by (unfold key in Hk; congruence).
  destruct (in_message _ _ _ Hinv Hx Hm Hd) as (st & Hst & Hpub).
  unfold release_one. apply wp_bind, (wp_get_context _ x); [done|]. apply wp_bind. eapply wp_lift; [exact Hj|].
  apply wp_bind, wp_get, wp_bind. eapply wp_lift; [exact Hst|]. apply wp_bind.
  eapply (wp_mono _ (λ rc d1, rc = 0 ∧ broker_inv busy d1 ∧ same_conns d d1 ∧
    ∃ x1, contexts d1 !! c = Some x1 ∧ incoming x1 = incoming x)).
  { destruct (ms_topic st) as [t|]; [|by apply wp_ret; split_and!; eauto].
    destruct (Hpub t eq_refl) as (H0 & Hw & Hs). pose proof Hs as (st' & t' & Hst' & _ & _ & _ & Hq).
    rewrite Hst in Hst'. injection Hst' as <-.
    apply wp_bind. eapply wp_mono; [by apply (inv_publish E busy)|].
    intros [rc o] d1 (Hinv1 & Hs1 & Hi1 & -> & ->). pose proof (Hi1 c) as Hic. rewrite Hx in Hic.
    destruct (contexts d1 !! c) as [x1|] eqn:Hx1; [|done]. apply (inj Some) in Hic.
    assert (Hin : incoming x1 = incoming x) by (unfold tie in Hic; congruence).
    destruct (store_live d1 x1 m Hinv1 Hx1) as [st1 Hst1].
    { assert (m ∈ incoming x1) as Hmi by (rewrite Hin; unfold incoming; by apply list_elem_of_filter).
      unfold incoming in Hmi. by apply list_elem_of_filter in Hmi as [_ ?]. }
    apply wp_bind, wp_assert; [rewrite Hst1; by apply bool_decide_eq_true|]. apply wp_ret. split_and!; eauto. }
  intros rc d1 (-> & Hinv1 & Hs1 & x1 & Hx1 & Hin1). cbn [Z.eqb].
  pose proof (released_named _ _ _ _ Hx Hid Hs1 Hx1) as Hid1.
  assert (Hm1 : m ∈ msgs x1).
  { assert (m ∈ incoming x1) as Hmi by (rewrite Hin1; unfold incoming; by apply list_elem_of_filter).
    unfold incoming in Hmi. by apply list_elem_of_filter in Hmi as [_ ?]. }
  eapply wp_mono; [by apply (remove_found_ok rmid x1)|]. intros o d2 (Ho & Hinv2 & Hs2 & x2 & Hx2 & Hc2).
  split; [done|]. split; [done|]. split; [by etrans|]. exists x2. split; [done|].
  by rewrite <-(matches_incoming rmid x x1 Hin1).
Qed.

(** What is left of the messages with the key, and the code. *)
Definition release_post (del : bool) (n n' : nat) (rc : Z) : Prop :=
  if del then rc = 0 ∧ (n' ≤ n)%nat else (n = 0%nat ∧ n' = n ∧ rc = 1) ∨ (n' < n)%nat ∧ rc = 0.

Lemma no_matches k l : Forall (λ y, y.2 ≠ k) (core <$> l) → matches k l = 0%nat.
Proof.
  unfold matches. intros Hf. destruct (filter _ _) as [|y l'] eqn:Hl; [done|].
  assert (y ∈ filter (λ y, y.2 = k) (core <$> l)) as [Hy Hin]%list_elem_of_filter by (rewrite Hl; by left).
  rewrite Forall_forall in Hf. by destruct (Hf y Hin).
Qed.

(** The messages that were published and those that are left, of those with
    the key in [l]. *)
Definition published_of (rmid : Z) (l : list client_msg) (d d' : db) : Prop :=
  ∃ ms x', publishes_all ms d d' ∧ contexts d' !! c = Some x' ∧
    matches (rmid, mosq_md_in) l = (length ms + matches (rmid, mosq_md_in) (msgs x'))%nat ∧
    (∀ m, head ms = Some m → key m = (rmid, mosq_md_in) ∧ core m ∈ core <$> l).

Lemma release_loop_ok k rmid i idx del x d :
  broker_inv busy d → contexts d !! c = Some x → is_Some (id x) → (matches (rmid, mosq_md_in) (msgs x) ≤ k)%nat →
  (del = false → i = 0%nat) →
  wp (release_loop E k c rmid mosq_md_in i idx del) (λ rc d', released (λ l,
    release_post del (matches (rmid, mosq_md_in) (msgs x)) (matches (rmid, mosq_md_in) l) rc) d d' ∧ published_of rmid (msgs x) d d') d.
Proof.
  revert i idx del x d. induction k as [|k IH]; intros i idx del x d Hinv Hx Hid Hk Hi; cbn [release_loop];
    apply wp_bind, (wp_get_context _ x); try done; apply wp_bind;
    destruct (wp_inv _ _ _ (release_scan_ok (length (msgs x)) rmid mosq_md_in i idx del x d Hinv Hx Hid ltac:(lia)))
      as (r & d1 & Hscan & Hinv1 & Hs1 & x1 & Hx1 & Hc1 & Hr);
    unfold wp at 1; rewrite Hscan; apply release_scan_context in Hscan as H01;
    pose proof (matches_core (rmid, mosq_md_in) _ _ Hc1) as Hmc; destruct r as [rc|[j idx']];
    try (apply wp_ret; split; [apply (released_to _ d d1 x1); [done..|]; destruct Hr as [-> Hr]; unfold release_post;
         destruct del; [lia|]; left; rewrite (Hi eq_refl) in Hr; rewrite <-Hmc, (no_matches _ _ (Hr eq_refl)); lia|
         exists [], x1; split_and!; [done|done|by rewrite Hmc|done]]);
    destruct Hr as (m & Hj & Hkey); pose proof (released_named _ _ _ _ Hx Hid Hs1 Hx1) as Hid1;
    pose proof (matches_delete _ _ _ _ Hj Hkey) as Hmd; [lia|].
  apply wp_bind. destruct (wp_inv _ _ _ (release_one_ok rmid x1 j m d1 Hinv1 Hx1 Hid1 Hj Hkey)) as (o & d2 & Hone & [j' ->] & Hinv2 & Hs2 & x2 & Hx2 & Hm2).
  unfold wp at 1. rewrite Hone. destruct (release_one_publishes x1 j m d1 j' d2 Hx1 Hj Hone) as (db & Hpub & Hrem).
  cbn beta in Hm2. assert (Hin : core m ∈ core <$> msgs x) by (rewrite <-Hc1; apply list_elem_of_fmap_2; by eapply list_elem_of_lookup_2).
  assert (Hall : ∀ ms d3, publishes_all ms d2 d3 → publishes_all (m :: ms) d d3).
  { intros ms d3 Hms. exists d1, x1, db, d2. split_and!; try done. by eapply list_elem_of_lookup_2. }
  destruct (_ <? _).
  - apply wp_ret. split.
    + apply (released_to _ d d2 x2); [done|by etrans|done|]. unfold release_post. destruct del; [split; [done|lia]|right; split; [lia|done]].
    + exists [m], x2. split_and!; [apply (Hall []), (only_context_refl _ x2 Hx2)|done|cbn [length]; lia|by intros ? [= <-]].
  - eapply wp_mono; [apply (IH j' idx' true x2 d2); [done|done| |lia|done]|].
    + exact (released_named _ _ _ _ Hx1 Hid1 Hs2 Hx2).
    + intros rc d3 [(? & ? & x3 & Hx3 & -> & Hle) (ms & x3' & Hms & Hx3' & Hlen & _)]. split.
      * apply (released_to _ d d3 x3); [done|by etrans; [|etrans]|done|]. unfold release_post. destruct del; [split; [done|lia]|right; split; [lia|done]].
      * exists (m :: ms), x3'. split_and!; [by apply Hall|done|cbn [length]; lia|by intros ? [= <-]].
Qed.

Lemma message_release_ok rmid x d :
  broker_inv busy d → contexts d !! c = Some x → is_Some (id x) →
  wp (mqtt3_db_message_release E c rmid mosq_md_in) (λ rc d', released (λ l,
    release_post false (matches (rmid, mosq_md_in) (msgs x)) (matches (rmid, mosq_md_in) l) rc) d d' ∧ published_of rmid (msgs x) d d') d.
Proof.
  intros Hinv Hx Hid. apply wp_bind, (wp_get_context _ x); [done|].
  eapply release_loop_ok; [done|done|done|apply matches_le|done].
Qed.
End release.
