(* ===== verification/Free.v ===== *)
(** * Freeing contexts

    A context that waits to be freed is taken out of the subscription tree,
    its messages are dropped, and nothing refers to it when its memory is
    released. *)

From stdpp Require Import base list numbers strings option sets gmap.
From Stdlib Require Import ZArith Lia.
From S2P Require Import Prelude Topic Packet State Store Send Messages Db Acl Subs DbInv Session Context Lifecycle.
Local Open Scope Z_scope.
Local Open Scope broker_scope.

(** A context that no table knows. *)
Definition quiet (x : mosquitto) : Prop := id x = None ∧ sock x = None ∧ will x = None ∧ listener x = None.

Lemma closed_quiet x : closed x → quiet x.
Proof. by intros (_ & ? & ? & ? & ?). Qed.

Lemma quiet_client busy x : quiet x → client_ok busy x.
Proof. intros (_ & Hs & Hw & _). split; rewrite ?Hs, ?Hw; [done|by intros _ [? ?]|by intros _ [? ?]|by intros [? ?]|done]. Qed.

(** Nothing but the tables of bridges, the counters and the list of contexts to
    free. *)
Lemma inv_but_ext free busy d d' :
  broker_inv_but free busy d → contexts d' = contexts d → dmsg d' = dmsg d → subs_children d' = subs_children d →
  contexts_by_id d' = contexts_by_id d → contexts_by_sock d' = contexts_by_sock d → client_counts d' = client_counts d →
  broker_inv_but free busy d'.
Proof.
  intros [Hok [H1 H2 H3 H4 H5 H6] Hcl] E1 E2 E3 E4 E5 E6. split.
  - by eapply broker_ok_ext.
  - split; rewrite ?E1, ?E4, ?E5, ?E6; done.
  - rewrite E1. apply Hcl.
Qed.

(** A step of the context [c], which stays quiet; the rest is as it was. *)
Definition only (c : ptr) (x' : mosquitto) (d d' : db) : Prop :=
  contexts d' = <[c := x']> (contexts d) ∧ ll_for_free d' = ll_for_free d.

Lemma quiet_step free busy c x x' d d' :
  broker_inv_but free busy d → contexts d !! c = Some x → c ∉ free → quiet x → quiet x' →
  broker_ok [] d' → contexts d' = <[c := x']> (contexts d) →
  contexts_by_id d' = contexts_by_id d → contexts_by_sock d' = contexts_by_sock d → client_counts d' = client_counts d →
  broker_inv_but free busy d'.
Proof.
  intros [Hok Ht Hcl] Hx Hnf Hcx Hcx' Hok' Hc E1 E2 E3. split; [done| |].
  - destruct Hcx as (I1 & S1 & _ & L1). pose proof Hcx' as (I2 & S2 & _ & L2).
    eapply (tables_ok_set free free d d' c x x'); try done.
    + left. by rewrite S1, S2.
    + left. by rewrite I1, I2.
    + intros _ i. by rewrite I2.
    + left. by rewrite L1, L2.
    + apply Ht.
    + intros c' Hc'. left. split; [done|]. by intros ->.
  - intros c' y. rewrite Hc. destruct (decide (c' = c)) as [->|].
    + rewrite lookup_insert_eq. intros [= <-]. by apply quiet_client.
    + rewrite lookup_insert_ne by done. apply Hcl.
Qed.

Lemma upd_quiet free busy c x f d :
  broker_inv_but free busy d → contexts d !! c = Some x → c ∉ free → quiet x → quiet (f x) →
  ctx_ok (dmsg d) (f x) → msgs (f x) = msgs x → subs (f x) = subs x →
  wp (upd_context c f) (λ _ d', broker_inv_but free busy d' ∧ d' = set_contexts <[c := f x]> d) d.
Proof.
  intros Hinv Hx Hnf Hcx Hcx' Hctx Hm Hs. unfold wp, upd_context. rewrite Hx. cbn [mbind option_bind]. split; [|done].
  eapply (quiet_step free busy c x (f x)); try done. eapply (broker_ok_set [] d _ c x (f x)); try done. apply Hinv.
Qed.

Definition emptied (x : mosquitto) : mosquitto :=
  set_msg_count12 (λ _, 0) (set_msg_count (λ _, 0) (set_last_msg (λ _, None) (set_msgs (λ _, []) x))).

(** The messages of [c] are released, and its queue forgotten. *)
Lemma drop_queue_ok c x x' d :
  broker_ok [] d → contexts d !! c = Some x → ctx_ok (dmsg d) x' → msgs x' = [] → subs x' = subs x →
  ∃ s', deref_msgs (msgs x) (dmsg d) = Some (tt, s') ∧
    broker_ok [] (set_dmsg (λ _, s') (set_contexts <[c := x']> d)).
Proof.
  intros [[[Hc Hst] [Ht Hl Ho] Hlv Hr] Hsl] Hx Hx' Hm Hs. rewrite app_nil_r in Hst.
  set (others := ctx_refs (delete c (contexts d)) ++ tree_refs (root d)).
  assert (Hst0 : store_ok ((cm_store <$> msgs x) ++ others) (dmsg d)).
  { unfold others. by rewrite (assoc_L (++)), <-(ctx_refs_delete _ _ _ Hx). }
  destruct (wp_inv _ _ _ (deref_msgs_spec _ _ _ Hst0)) as ([] & s' & Ed & Hs' & Hk & Hn).
  exists s'. split; [done|]. set (d' := set_dmsg _ _).
  assert (Hdom : ∀ c', is_Some (contexts d !! c') → is_Some (contexts d' !! c')).
  { intros c'. cbn. rewrite lookup_insert_is_Some'. auto. }
  split; [split; [split|split|..]|]; cbn [contexts dmsg d' set_dmsg set_contexts]; try done.
  - intros c' y. destruct (decide (c' = c)) as [->|Hne].
    + rewrite lookup_insert_eq. intros [= <-]. destruct Hx' as [? ? ? ? ?]. split; rewrite ?Hm; done || constructor.
    + rewrite lookup_insert_ne by done. intros Hy. eapply (ctx_ok_keeps others); [by eapply Hc|done| |by rewrite Hn].
      intros s Hsy. unfold others. apply elem_of_app. left. eapply ctx_refs_elem; [|done]. by rewrite lookup_delete_ne.
  - rewrite ctx_refs_insert, app_nil_r, Hm. exact Hs'.
  - intros p. eapply Forall_impl; [apply Hl|]. intros lf. apply Hdom.
  - eapply Forall_impl; [exact Hlv|]. intros lf [? ?]. split; [by apply Hdom|done].
  - rewrite Forall_forall in Hr |- *. intros s Hs0. eapply keeps_sendable; [exact Hk| |by apply Hr]. unfold others. set_solver.
  - intros c' y. cbn [contexts d' set_dmsg set_contexts]. destruct (decide (c' = c)) as [->|].
    + rewrite lookup_insert_eq. intros [= <-]. rewrite Hs. by apply (Hsl c x).
    + rewrite lookup_insert_ne by done. apply Hsl.
Qed.

Lemma emptied_ctx d x : ctx_ok d x → ctx_ok d (emptied x).
Proof. intros [_ _ _ ? ?]. split; try done; try constructor; try done. by apply NoDup_nil_2. Qed.

Lemma delete_messages_run c x s' d :
  contexts d !! c = Some x → deref_msgs (msgs x) (dmsg d) = Some (tt, s') →
  on_cm c mqtt3_db_messages_delete d = Some (MOSQ_ERR_SUCCESS, set_dmsg (λ _, s') (set_contexts <[c := emptied x]> d)).
Proof.
  intros Hx Ed. unfold on_cm, mqtt3_db_messages_delete, bind, mget, on_mdb, upd_ctx, mmodify, ret. rewrite Hx.
  cbn [mbind option_bind ctx mdb]. rewrite Ed. done.
Qed.

Lemma delete_messages_ok free busy c x d :
  broker_inv_but free busy d → contexts d !! c = Some x → c ∉ free → quiet x →
  wp (on_cm c mqtt3_db_messages_delete) (λ _ d', broker_inv_but free busy d' ∧ only c (emptied x) d d' ∧
    subs_children d' = subs_children d) d.
Proof.
  intros Hinv Hx Hnf Hcx. pose proof (bi_ok _ _ Hinv) as Hok.
  pose proof (co_ctx _ _ (db_core _ _ (bo_db _ _ Hok)) c x Hx) as Hctx.
  destruct (drop_queue_ok c x (emptied x) d) as (s' & Ed & Hok'); try done; [by apply emptied_ctx|].
  unfold wp. rewrite (delete_messages_run c x s' d Hx Ed). split; [|done].
  by eapply (quiet_step free busy c x (emptied x)).
Qed.

(** ** Releasing the memory *)

Lemma table_ok_delete {K} (f : mosquitto → option K) m c x t :
  table_ok f m t → m !! c = Some x → f x = None → table_ok f (delete c m) t.
Proof.
  intros [H1 H2] Hx Hf. split; [|done]. intros k c'. rewrite H1. destruct (decide (c' = c)) as [->|].
  - rewrite lookup_delete_eq, Hx. naive_solver congruence.
  - by rewrite lookup_delete_ne.
Qed.

Lemma count_listener_delete l m c x :
  m !! c = Some x → listener x = None → count_listener l (delete c m) = count_listener l m.
Proof.
  intros Hx Hl. unfold count_listener. rewrite fmap_delete.
  assert (Hn : (listener <$> m) !! c = Some None) by (by rewrite lookup_fmap, Hx, <-Hl).
  rewrite <-(map_to_list_delete (listener <$> m) c None Hn). by rewrite fmap_cons, filter_cons_False.
Qed.

(** Nothing refers to a context with no subscriptions. *)
Lemma no_leaf c x d : broker_ok [] d → contexts d !! c = Some x → subs x = [] →
  Forall (λ lf, lf_context lf ≠ c) (tree_leaves (root d)).
Proof.
  intros [[_ Hsubs _ _] Hsl] Hx Hs. apply Forall_forall. intros lf Hlf <-.
  destruct (leaf_path (root d) lf (so_tree d Hsubs) Hlf) as [p Hp].
  destruct (Hsl _ x Hx) as [_ Ho]. specialize (Ho p). rewrite Hs in Ho.
  apply (not_elem_of_nil p), Ho. unfold has_leaf. apply bool_decide_eq_true. by apply list_elem_of_fmap_2.
Qed.

Lemma delete_context_ok free busy c x d :
  broker_inv_but free busy d → contexts d !! c = Some x → c ∉ free → quiet x → msgs x = [] → subs x = [] →
  broker_inv_but free busy (set_contexts (delete c) d).
Proof.
  intros [Hok Ht Hcl] Hx Hnin (Hi & Hk & _ & Hn) Hm Hs. pose proof (no_leaf c x d Hok Hx Hs) as Hnl.
  pose proof Hok as [[[Hc Hst] [Htr Hl Ho] Hlv Hr] Hsl].
  assert (Hdom : ∀ lf, lf_context lf ≠ c → is_Some (contexts d !! lf_context lf) →
    is_Some (delete c (contexts d) !! lf_context lf)) by (intros lf ?; by rewrite lookup_delete_ne).
  rewrite Forall_forall in Hnl. split.
  - split; [split; [split|split|..]|]; cbn [contexts dmsg set_contexts]; try done.
    + intros c' y Hy. apply lookup_delete_Some in Hy as [_ Hy]. by eapply Hc.
    + rewrite app_nil_r in Hst |- *. rewrite (ctx_refs_delete _ _ _ Hx), Hm in Hst. exact Hst.
    + intros p. pose proof (Hl p) as Hlp. unfold live in Hlp |- *. rewrite Forall_forall in Hlp. apply Forall_forall. intros lf Hlf.
      apply Hdom; [|by apply Hlp]. apply Hnl. eapply (sublist_subseteq _ _ (subs_of_sublist p (root d))), Hlf.
    + unfold leaves_ok in *. rewrite Forall_forall in Hlv. apply Forall_forall. intros lf Hlf. destruct (Hlv lf Hlf) as [? ?].
      split; [|done]. by apply Hdom; [apply Hnl|].
    + intros c' y Hy. cbn in Hy. apply lookup_delete_Some in Hy as [_ Hy]. by apply Hsl.
  - destruct Ht as [H1 H2 H3 H4 H5 H6 H7].
    split; cbn [contexts contexts_by_sock contexts_by_id client_counts set_contexts]; [..|done| | | |done].
    + by eapply table_ok_delete.
    + by eapply table_ok_delete.
    + intros c' Hc'. rewrite lookup_delete_ne by (by intros ->). by apply H4.
    + intros l n Hln. rewrite (count_listener_delete l _ c x) by done. by apply H5.
    + intros c' y l Hy. apply lookup_delete_Some in Hy as [_ Hy]. by eapply H6.
  - intros c' y Hy. cbn in Hy. apply lookup_delete_Some in Hy as [_ Hy]. by apply Hcl.
Qed.

Section cleanup.
Context (E : env) `{Access} (free : list ptr) (busy : option ptr) (c : ptr).

Lemma clear_names_ok x d :
  broker_inv_but free busy d → contexts d !! c = Some x → c ∉ free → quiet x →
  wp (clear_names c) (λ _ d', broker_inv_but free busy d' ∧ ∃ x', only c x' d d' ∧ quiet x') d.
Proof.
  intros Hinv Hx Hnf Hcx. unfold clear_names. apply wp_bind, (wp_get_context _ x); [done|].
  pose proof (co_ctx _ _ (db_core _ _ (bo_db _ _ (bi_ok _ _ Hinv))) c x Hx) as Hctx.
  set (f := λ x, set_password (λ _, None) (set_username (λ _, None) x)).
  apply wp_bind. eapply wp_mono; [apply (upd_quiet free busy c x f); try done|].
  { by apply (ctx_ok_light _ x). }
  intros [] d1 [Hinv1 ->]. set (x1 := f x) in *.
  destruct (c_bridge x) as [b|] eqn:Hb; [|apply wp_ret; split; [done|by exists x1]].
  apply wp_bind, wp_modify. set (d2 := set_bridges _ _).
  assert (Hinv2 : broker_inv_but free busy d2) by (by eapply inv_but_ext).
  eapply wp_mono; [apply (upd_quiet free busy c x1 (set_bridge (λ _, Some (clear_identity b))) d2); try done|].
  - apply lookup_insert_eq.
  - apply (ctx_ok_light _ x); [done| |done]. unfold qpart. cbn. by rewrite Hb.
  - intros _ d3 [Hinv3 ->]. split; [done|].
    exists (set_bridge (λ _, Some (clear_identity b)) x1). split; [|done]. split; [|done].
    cbn [d2 contexts set_contexts set_bridges]. apply insert_insert_eq.
Qed.

(** Each function on a quiet context. *)
Lemma quiet_socket_close x d (Q : unit → db → Prop) :
  contexts d !! c = Some x → quiet x → Q tt d → wp (_mosquitto_socket_close c) Q d.
Proof.
  intros Hx (_ & Hs & _ & Hl) HQ. unfold _mosquitto_socket_close.
  apply wp_bind, (wp_get_context _ x); [done|]. rewrite Hs, Hl. by apply wp_bind, wp_ret, wp_ret.
Qed.

Lemma quiet_send_will x d :
  contexts d !! c = Some x → quiet x →
  wp (mqtt3_context_send_will E c) (λ _ d', d' = d) d.
Proof.
  intros Hx Hcx. unfold mqtt3_context_send_will. apply wp_bind, (wp_get_context _ x); [done|].
  destruct Hcx as (_ & _ & Hw & _). rewrite Hw. apply wp_bind, wp_ret. unfold wp, upd_context. rewrite Hx.
  cbn [mbind option_bind]. assert (set_will (λ _, None) x = x) as -> by (destruct x; cbn in *; by subst).
  unfold set_contexts. rewrite insert_id by done. by destruct d.
Qed.

Lemma quiet_forget x d (Q : unit → db → Prop) :
  contexts d !! c = Some x → quiet x → Q tt d → wp (forget_id c) Q d.
Proof.
  intros Hx (Hi & _) HQ. unfold forget_id. apply wp_bind, (wp_get_context _ x); [done|].
  rewrite Hi. by apply wp_ret.
Qed.
End cleanup.

Section free.
Context (E : env) `{Access} (busy : option ptr).

(** [mqtt3_context_cleanup] after the socket is closed. *)
Lemma cleanup_rest free c x1 d1 :
  broker_inv_but free busy d1 → contexts d1 !! c = Some x1 → c ∉ free → quiet x1 →
  wp (let* x := get_context c in
      (if true || clean_session x
       then mqtt3_subs_clean_session c ;;; on_cm c mqtt3_db_messages_delete ;;; ret tt
       else ret tt) ;;;
      mqtt3_context_send_will E c ;;;
      forget_id c ;;;
      upd_context c (λ x, set_out_packet (λ _, []) (set_current_out (λ _, None)
                    (set_in_packet _mosquitto_packet_cleanup x))) ;;;
      (if true || clean_session x
       then
         let* x := get_context c in
         on_store (deref_msgs (msgs x)) ;;;
         upd_context c (λ x, set_last_msg (λ _, None) (set_msgs (λ _, []) x))
       else ret tt) ;;;
      mmodify (set_contexts (delete c)))
    (λ _ d', broker_inv_but free busy d' ∧ contexts d' = delete c (contexts d1) ∧ ll_for_free d' = ll_for_free d1) d1.
Proof.
  intros Hinv1 Hx1 Hnf Hcx1.
  apply wp_bind, (wp_get_context _ x1); [done|]. cbn [orb]. apply wp_bind.
  apply wp_bind. eapply wp_mono; [apply (clean_session_ok [] d1 c x1); [apply Hinv1|done]|].
  intros rc d2 (_ & Hok2 & _ & _ & Hc2 & Hm2 & Ht2 & _). set (x2 := set_subs (λ _, []) x1) in *.
  unfold tables in Ht2. injection Ht2 as Ei Es Ef Ec _.
  assert (Hinv2 : broker_inv_but free busy d2) by (by eapply (quiet_step _ _ c x1 x2)).
  assert (Hx2 : contexts d2 !! c = Some x2) by (by rewrite Hc2, lookup_insert_eq).
  apply wp_bind. eapply wp_mono; [by apply (delete_messages_ok free busy c x2)|].
  intros rc3 d3 (Hinv3 & [Hc3 Hf3] & _). set (x3 := emptied x2) in *. apply wp_ret.
  assert (Hx3 : contexts d3 !! c = Some x3) by (by rewrite Hc3, lookup_insert_eq).
  apply wp_bind. eapply wp_mono; [by apply (quiet_send_will E c x3)|]. intros [] d4 ->.
  apply wp_bind, (quiet_forget c x3); [done|done|]. apply wp_bind.
  pose proof (co_ctx _ _ (db_core _ _ (bo_db _ _ (bi_ok _ _ Hinv3))) c x3 Hx3) as [Hq Hms Hfr _ Hbr].
  eapply wp_mono; [apply (upd_quiet free busy c x3); try done|].
  { split; try done. intros Hid. destruct (Hq Hid). by split. }
  intros [] d5 [Hinv5 ->]. cbn [orb].
  apply wp_bind, wp_bind. eapply wp_get_context; [apply lookup_insert_eq|].
  apply wp_bind, wp_ret. unfold wp at 1, upd_context. cbn [contexts set_dmsg set_contexts mbind option_bind].
  rewrite lookup_insert_eq. cbn [mbind option_bind]. apply wp_modify.
  split; [|split; [cbn [contexts set_contexts set_dmsg]; by rewrite !delete_insert_eq, Hc3, Hc2, !delete_insert_eq|
    cbn [ll_for_free set_contexts set_dmsg]; congruence]].
  eapply inv_but_ext; [eapply (delete_context_ok free busy c _ _ Hinv5); [apply lookup_insert_eq|done|done|done|done]|..]; try done.
  cbn. by rewrite insert_insert_eq, !delete_insert_eq.
Qed.

(** [mqtt3_context_cleanup] frees a context whose socket is closed. *)
Lemma cleanup_quiet free c x d :
  broker_inv_but free busy d → contexts d !! c = Some x → c ∉ free → quiet x →
  wp (mqtt3_context_cleanup E c true) (λ _ d', broker_inv_but free busy d' ∧
    contexts d' = delete c (contexts d) ∧ ll_for_free d' = ll_for_free d) d.
Proof.
  intros Hinv Hx Hnf Hcx. unfold mqtt3_context_cleanup.
  apply wp_bind. eapply wp_mono; [by apply (clear_names_ok free busy c x)|]. intros [] d1 (Hinv1 & x1 & [Hc1 Hf1] & Hcx1).
  assert (Hx1 : contexts d1 !! c = Some x1) by (by rewrite Hc1, lookup_insert_eq).
  apply wp_bind, (quiet_socket_close c x1); [done|done|].
  eapply wp_mono; [by apply (cleanup_rest free c x1 d1)|].
  intros _ d2 (? & Hc2 & Hf2). split; [done|]. split; [by rewrite Hc2, Hc1, delete_insert_eq|congruence].
Qed.

Lemma tables_tail free c d : tables_ok (c :: free) d → tables_ok free d ∧ c ∉ free.
Proof.
  intros [H1 H2 H3 H4 H5 H6]. apply NoDup_cons in H3 as [? ?]. split; [|done]. split; try done.
  intros c' Hc'. apply H4. by right.
Qed.

Lemma cleanup_ok free c x d :
  broker_inv_but (c :: free) busy d → contexts d !! c = Some x →
  wp (mqtt3_context_cleanup E c true) (λ _ d', broker_inv_but free busy d' ∧
    contexts d' = delete c (contexts d) ∧ ll_for_free d' = ll_for_free d) d.
Proof.
  intros [Hok Ht Hcl] Hx. destruct (tables_tail _ _ _ Ht) as [Ht' Hnf].
  destruct (tb_free _ _ Ht c) as (x0 & Hx0 & Hcx); [by left|]. rewrite Hx in Hx0. injection Hx0 as <-.
  apply (cleanup_quiet free c x); [by split|done|done|by apply closed_quiet].
Qed.

Lemma free_contexts_ok free d :
  broker_inv_but free busy d →
  wp (free_contexts E free) (λ _ d', broker_inv_but [] busy d' ∧
    ∀ c, contexts d' !! c = if decide (c ∈ free) then None else contexts d !! c) d.
Proof.
  revert d. induction free as [|c free IH]; intros d Hinv; cbn [free_contexts]; [by apply wp_ret|].
  destruct (tb_free _ _ (bi_tables _ _ Hinv) c) as (x & Hx & _); [by left|].
  apply wp_bind. eapply wp_mono; [by eapply cleanup_ok|]. intros [] d1 (Hinv1 & Hc1 & _).
  eapply wp_mono; [by apply IH|]. intros _ d2 [Hinv2 Hc2]. split; [done|]. intros c'.
  rewrite Hc2, Hc1. destruct (decide (c' = c)) as [->|Hne].
  - rewrite lookup_delete_eq, (decide_True (P := c ∈ c :: free)) by (by left). by destruct (decide _).
  - rewrite lookup_delete_ne by done. destruct (decide (c' ∈ free)) as [Hin|Hnin].
    + by rewrite decide_True by (by right).
    + rewrite decide_False; [done|]. by intros [->|]%elem_of_cons.
Qed.
End free.
