(* ===== verification/Serve.v ===== *)
(** * Serving packets

    Every packet a connected client may send is handled without undefined
    behaviour, to the end, and leaves the broker consistent: the handlers,
    the reader of packets and the round of the loop. *)

From stdpp Require Import base list numbers strings option sets gmap.
From Stdlib Require Import ZArith Lia.
From S2P Require Import Prelude Topic Packet State Store Send Messages Db Acl Subs DbInv Session Context Handlers Lifecycle Release Free.
Local Open Scope Z_scope.
Local Open Scope broker_scope.

(** The mount points of the configuration: strings without wildcards, of a
    sensible size. *)
Definition env_ok (E : env) : Prop :=
  ∀ l mp, mount_points E !! l = Some (Some mp) → 0 ∉ mp ∧ wildcard_free mp ∧ slen mp < 536870912.

(** A client that is not known yet has no session. *)
Definition fresh_client (x : mosquitto) : Prop := id x = None → idle x = Some ([], None, 0, 0, []).

Lemma fresh_conn x x' : conn x' = conn x → fresh_client x → fresh_client x'.
Proof. unfold fresh_client. intros (-> & [_ ->] & _)%conn_fields. done. Qed.

Lemma fresh_known x : is_Some (id x) → fresh_client x.
Proof. intros [i Hi] Hn. congruence. Qed.

(** The packet of [c] was handled: the context is still there. *)
Definition ended (c : ptr) (d : db) : Prop :=
  broker_inv (Some c) d ∧ ∃ x, contexts d !! c = Some x ∧ (is_Some (sock x) → fresh_client x).

(** The packet of the client [c] is being handled. *)
Record handling (c : ptr) (x : mosquitto) (d : db) : Prop := {
  ha_inv : broker_inv (Some c) d;
  ha_ctx : contexts d !! c = Some x;
  ha_packet : packet_ok (c_in_packet x);
  ha_client : c_bridge x = None;
  ha_sock : is_Some (sock x);
  ha_fresh : fresh_client x;
}.

Lemma handling_ended c x d : handling c x d → ended c d.
Proof. intros [? Hx _ _ _ ?]. split; [done|by eexists]. Qed.

Lemma handling_conns c x d d' :
  handling c x d → broker_inv (Some c) d' → same_conns d d' →
  ∃ x', handling c x' d' ∧ conn x' = conn x.
Proof.
  intros [Hinv Hx Hp Hb Hk Hf] Hinv' Hs. destruct (same_conns_lookup _ _ _ _ _ Hs Hx) as (x' & Hx' & Hcn).
  exists x'. split; [|done]. pose proof (fresh_conn _ _ Hcn Hf) as Hf'. apply conn_fields in Hcn as (_ & _ & Ek & _ & _ & _ & Ep & _ & _ & Eb & _).
  split; [done|done|by rewrite Ep| |by rewrite Ek|done]. rewrite Hb in Eb. by destruct (c_bridge x').
Qed.

Lemma handling_out c x d : handling c x d → outq_ok x.
Proof. intros [Hinv Hx _ _ _ _]. apply (co_ctx _ _ (db_core _ _ (bo_db _ _ (bi_ok _ _ Hinv))) c x Hx). Qed.

(** ** Code with early returns *)

(** [m] returns early, the packet handled, or goes on with [Q]. *)
Definition safe {A} (c : ptr) (m : M db (Z + A)) (Q : A → db → Prop) (d : db) : Prop :=
  wp m (λ r d', match r with inl _ => ended c d' | inr a => Q a d' end) d.

Section safe.
Context {A B : Type} (c : ptr).

Lemma safe_bind (m : M db (Z + A)) (k : A → M db (Z + B)) Q d :
  safe c m (λ a d', safe c (k a) Q d') d → safe c (ebind m k) Q d.
Proof.
  intros Hm. apply wp_bind. eapply wp_mono; [exact Hm|]. intros [rc|a] d' Hd'; [by apply wp_ret|done].
Qed.

Lemma safe_lift (m : M db A) Q d : wp m Q d → safe c (lift_m m) Q d.
Proof. intros Hm. apply wp_bind. eapply wp_mono; [exact Hm|]. intros a d' ?. by apply wp_ret. Qed.

Lemma safe_fail rc (Q : A → db → Prop) d : ended c d → safe c (fail rc) Q d.
Proof. intros H. by apply wp_ret. Qed.

Lemma safe_done (a : A) Q d : Q a d → safe c (done_with a) Q d.
Proof. intros H. by apply wp_ret. Qed.

Lemma safe_or_1 (m : M db (Z + A)) Q d : safe c m Q d → safe c (or_1 m) Q d.
Proof. intros Hm. apply wp_bind. eapply wp_mono; [exact Hm|]. intros [rc|a] d' ?; by apply wp_ret. Qed.

Lemma safe_mono (m : M db (Z + A)) (Q R : A → db → Prop) d :
  safe c m Q d → (∀ a d', Q a d' → R a d') → safe c m R d.
Proof. intros Hm HQ. eapply wp_mono; [exact Hm|]. intros [rc|a] d' ?; auto. Qed.

Lemma safe_get x (Q : mosquitto → db → Prop) d :
  contexts d !! c = Some x → Q x d → safe c (lift_m (get_context c)) Q d.
Proof. intros Hx HQ. apply wp_bind, (wp_get_context _ x); [done|]. by apply wp_ret. Qed.
End safe.

Lemma safe_try {A B} c (m : M db A) (k : A → M db (Z + B)) Q d :
  wp m (λ a d', safe c (k a) Q d') d → safe c (bind m k) Q d.
Proof. apply wp_bind. Qed.

Lemma returns_safe c (m : M db (Z + Z)) d :
  safe c m (λ _ d', ended c d') d → wp (returns m) (λ _ d', ended c d') d.
Proof. intros Hm. apply wp_bind. eapply wp_mono; [exact Hm|]. intros [rc|rc] d' ?; by apply wp_ret. Qed.

(** ** Reading the packet *)

(** The context after some of its packet was read. *)
Definition read_to (p : packet) (x : mosquitto) : mosquitto := set_in_packet (λ _, p) x.

Record advanced (p p' : packet) : Prop := {
  ad_length : remaining_length p' = remaining_length p;
  ad_pos : pos p ≤ pos p';
  ad_command : command p' = command p;
}.

Lemma read_ok {A} c x d (r : reader A) (Q : A → Prop) :
  handling c x d → safe_reader Q r →
  wp (read c r) (λ o d', ∃ p', r (c_in_packet x) = Some (o, p') ∧ advanced (c_in_packet x) p' ∧
    handling c (read_to p' x) d' ∧ d' = set_contexts <[c := read_to p' x]> d ∧
    match o with inl _ => True | inr a => Q a end) d.
Proof.
  intros [Hinv Hx Hp Hb Hk Hfr] Hr. destruct (Hr _ Hp) as (res & p' & Hrun & Hp' & Hl & Hpos & _ & Hcmd & Hres).
  unfold read. eapply wp_on_context; [exact Hx|]. unfold wp, read_in. rewrite Hrun. cbn [mbind option_bind].
  exists p'. split_and!; try done; [|by destruct res]. split; [|apply lookup_insert_eq|done..].
  eapply (inv_light (Some c) c x (read_to p' x)); [done|done|]. split; try done; try by left.
  - destruct (bi_clients _ _ Hinv c x Hx) as [Hw _ Hi Hn Hg]. split; [done| |done|done|done]. by rewrite bool_decide_eq_true_2.
  - eapply free_light; [done|done|done|]. intros Hf. destruct (tb_free _ _ (bi_tables _ _ Hinv) c Hf) as (y & Hy & Hcl).
    rewrite Hx in Hy. injection Hy as <-. exact Hcl.
Qed.

Lemma read_safe {A} c x d (r : reader A) (Q : A → Prop) :
  handling c x d → safe_reader Q r →
  safe c (read c r) (λ a d', ∃ p', r (c_in_packet x) = Some (inr a, p') ∧ Q a ∧ advanced (c_in_packet x) p' ∧
    handling c (read_to p' x) d' ∧ d' = set_contexts <[c := read_to p' x]> d) d.
Proof.
  intros Hh Hr. eapply wp_mono; [by apply (read_ok c x d r Q)|].
  intros [rc|a] d' (p' & Hrun & Ha & Hh' & Hd' & Hres); [by eapply handling_ended|]. eauto 8.
Qed.

(** Sending an answer. *)
Lemma reply_safe c x d m :
  handling c x d → net_safe m →
  wp (on_context c m) (λ _ d', ∃ x', handling c x' d' ∧ conn x' = conn x ∧ same_conns d d') d.
Proof.
  intros Hh Hm. eapply wp_mono; [apply (inv_net (Some c) c x); [apply Hh|apply Hh|apply Hm, (handling_out c x d Hh)]|].
  intros rc d' (Hinv & Hs & Hd & _). destruct (handling_conns _ _ _ _ Hh Hinv Hs) as (x' & ? & ?). eauto.
Qed.

(** A step of the client's queue. *)
Lemma client_step_ok {A} c x d (m : M cm A) (Q : A → cm → Prop) :
  handling c x d → is_Some (id x) →
  (∀ others, cm_ok others (CM x (dmsg d)) →
     wp m (λ a s', step_ok others (CM x (dmsg d)) s' ∧ Q a s') (CM x (dmsg d))) →
  wp (on_cm c m) (λ a d', ∃ x', handling c x' d' ∧ conn x' = conn x ∧ ∃ s', Q a s' ∧ dmsg d' = mdb s' ∧ x' = ctx s') d.
Proof.
  intros Hh Hid Hm. eapply wp_mono; [apply (on_cm_ok (Some c) c x m Q); [apply Hh|apply Hh|done|done]|].
  intros a d' (Hinv & Hs & s' & HQ & ->). destruct (handling_conns _ _ _ _ Hh Hinv Hs) as (x' & Hh' & Hcn).
  exists x'. split_and!; [done|done|]. exists s'. split_and!; [done|done|].
  pose proof (ha_ctx _ _ _ Hh') as Hx'. cbn in Hx'. rewrite lookup_insert_eq in Hx'. by injection Hx'.
Qed.

Lemma conn_id x y : conn x = conn y → is_Some (id y) → is_Some (id x).
Proof. intros (-> & _)%conn_fields. done. Qed.

Section serve.
Context (E : env) (HE : env_ok E) `{Access} (c : ptr).

(** ** The shared handlers *)

Lemma simple_reply_ok x d cmd :
  handling c x d → wp (on_context c (_mosquitto_send_simple_command E cmd)) (λ _ d', ended c d') d.
Proof.
  intros Hh. eapply wp_mono; [by apply (reply_safe c x), (emits_safe _ _ (send_simple_command_emits E cmd))|].
  intros rc d' (x' & Hh' & _). by eapply handling_ended.
Qed.

Lemma mid_reply_ok x d cmd m :
  handling c x d →
  wp (on_context c (_mosquitto_send_command_with_mid E cmd m false)) (λ _ d', ended c d') d.
Proof.
  intros Hh. eapply wp_mono; [by apply (reply_safe c x), (emits_safe _ _ (send_command_with_mid_emits E cmd m))|].
  intros rc d' (x' & Hh' & _). by eapply handling_ended.
Qed.

Lemma handle_pingreq_ok x d : handling c x d → wp (_mosquitto_handle_pingreq E c) (λ _ d', ended c d') d.
Proof. apply simple_reply_ok. Qed.

Lemma handle_pingresp_ok x d : handling c x d → wp (_mosquitto_handle_pingresp c) (λ _ d', ended c d') d.
Proof.
  intros [Hinv Hx Hp Hb Hk Hf]. apply wp_bind. eapply wp_mono; [apply (inv_upd (Some c) c x); try done|].
  - apply (client_ok_same _ x); [by apply (bi_clients _ _ Hinv c)|by left|by right].
  - intros _ d' [Hinv' ->]. apply wp_ret. split; [done|]. eexists. split; [apply lookup_insert_eq|]. intros _. exact Hf.
Qed.

Lemma handle_pubackcomp_ok x d :
  handling c x d → is_Some (id x) → wp (_mosquitto_handle_pubackcomp E c) (λ _ d', ended c d') d.
Proof.
  intros Hh Hid. apply returns_safe, safe_bind. eapply safe_mono; [apply (read_safe c x d); [done|apply read_uint16_safe]|].
  intros m d1 (p & _ & _ & _ & Hh1 & _). destruct (m =? 0); [by eapply safe_done, handling_ended|].
  apply safe_bind, safe_lift. eapply wp_mono; [apply (client_step_ok c _ d1 _ (λ _ _, True) Hh1 Hid)|].
  - intros others Hok. eapply wp_mono; [by apply (message_delete_spec E others)|]. intros rc s' (_ & ? & _). done.
  - intros rc d2 (x2 & Hh2 & _). by eapply safe_done, handling_ended.
Qed.

Lemma handle_pubrec_ok x d :
  handling c x d → is_Some (id x) → wp (_mosquitto_handle_pubrec E c) (λ _ d', ended c d') d.
Proof.
  intros Hh Hid. apply returns_safe, safe_bind. eapply safe_mono; [apply (read_safe c x d); [done|apply read_uint16_safe]|].
  intros m d1 (p & _ & _ & _ & Hh1 & _).
  apply safe_bind, safe_lift. eapply wp_mono; [apply (client_step_ok c _ d1 _ (λ _ _, True) Hh1 Hid)|].
  - intros others Hok. eapply wp_mono; [by apply (message_update_spec E others)|]. intros rc s' (? & _). done.
  - intros rc d2 (x2 & Hh2 & _). destruct (_ && _); [by eapply safe_fail, handling_ended|].
    apply safe_lift. exact (mid_reply_ok x2 d2 (Z.lor PUBREL 2) m Hh2).
Qed.

Lemma handle_pubrel_ok x d :
  handling c x d → is_Some (id x) → wp (_mosquitto_handle_pubrel E c) (λ _ d', ended c d') d.
Proof.
  intros Hh Hid. apply returns_safe, safe_bind, (safe_get c x); [apply Hh|].
  destruct (bad_flags x 2); [by eapply safe_fail, handling_ended|].
  apply safe_bind. eapply safe_mono; [apply (read_safe c x d); [done|apply read_uint16_safe]|].
  intros m d1 (p & _ & _ & _ & Hh1 & _). apply safe_bind, safe_lift.
  eapply wp_mono; [apply (message_release_ok E (Some c) c m (read_to p x) d1); [apply Hh1|apply Hh1|done]|].
  intros rc d2 [(Hinv2 & Hs2 & _) _]. destruct (handling_conns _ _ _ _ Hh1 Hinv2 Hs2) as (x2 & Hh2 & _).
  apply safe_lift. exact (mid_reply_ok x2 d2 PUBCOMP m Hh2).
Qed.

Lemma read_byte_progress p b p' : packet_ok p → _mosquitto_read_byte p = Some (inr b, p') → pos p' = pos p + 1.
Proof.
  intros ((Hpos & Hpl) & Hl & _) Hr. unfold _mosquitto_read_byte, MAX_BODY in *. rewrite u32_small in Hr by lia.
  destruct (_ <? _); [done|]. destruct (payload p); [|done]. cbn in Hr. destruct (_ !! _); [|done]. cbn in Hr. by simplify_eq.
Qed.

Lemma suback_loop_ok n count i x d :
  handling c x d → (remaining_length (c_in_packet x) - pos (c_in_packet x) ≤ Z.of_nat n) →
  i + (remaining_length (c_in_packet x) - pos (c_in_packet x)) = count →
  safe c (suback_loop n c count i) (λ _ d', ended c d') d.
Proof.
  revert i x d. induction n as [|n IH]; intros i x d Hh Hn Hi; cbn [suback_loop];
    apply safe_bind, (safe_get c x); try (apply Hh);
    (destruct (Z.ltb_spec (pos (c_in_packet x)) (remaining_length (c_in_packet x))) as [Hlt|];
      [|by eapply safe_done, handling_ended]); [lia|].
  apply safe_bind. eapply safe_mono; [apply (read_safe c x d); [done|apply read_byte_safe]|].
  intros b d1 (p & Hr & _ & [Hl _ _] & Hh1 & _).
  apply read_byte_progress in Hr; [|apply Hh].
  apply safe_bind, safe_lift, wp_assert; [apply Z.ltb_lt; lia|].
  apply (IH (i + 1) (read_to p x)); cbn [read_to set_in_packet c_in_packet]; [done|lia|lia].
Qed.

Lemma handle_suback_ok x d : handling c x d → wp (_mosquitto_handle_suback c) (λ _ d', ended c d') d.
Proof.
  intros Hh. apply returns_safe, safe_bind. eapply safe_mono; [apply (read_safe c x d); [done|apply read_uint16_safe]|].
  intros m d1 (p & _ & _ & _ & Hh1 & _). apply safe_bind, (safe_get c (read_to p x)); [apply Hh1|].
  apply safe_bind. eapply safe_mono; [apply (suback_loop_ok _ _ _ (read_to p x)); [done|lia|lia]|].
  intros [] d2 Hd2. by apply safe_done.
Qed.

Lemma handle_unsuback_ok x d : handling c x d → wp (_mosquitto_handle_unsuback c) (λ _ d', ended c d') d.
Proof.
  intros Hh. apply returns_safe, safe_bind. eapply safe_mono; [apply (read_safe c x d); [done|apply read_uint16_safe]|].
  intros m d1 (p & _ & _ & _ & Hh1 & _). by eapply safe_done, handling_ended.
Qed.

(** ** DISCONNECT *)

Lemma disconnect_ended x d :
  broker_inv (Some c) d → contexts d !! c = Some x → wp (do_disconnect E c) (λ _ d', ended c d') d.
Proof.
  intros Hinv Hx. eapply wp_mono; [by apply (do_disconnect_ok E (Some c) c x)|].
  intros _ d' (Hinv' & (x' & Hx' & Hcs & _) & _). split; [done|]. exists x'. split; [done|].
  rewrite (cl_gone _ x' (bi_clients _ _ Hinv' c x' Hx') Hcs). by intros [? ?].
Qed.

Lemma handle_disconnect_ok x d :
  handling c x d → is_Some (id x) → wp (mqtt3_handle_disconnect E c) (λ _ d', ended c d') d.
Proof.
  intros Hh Hid. pose proof Hh as [Hinv Hx Hp Hb Hk _]. unfold mqtt3_handle_disconnect.
  apply wp_bind, (wp_get_context _ x); [done|]. destruct (negb _); [by eapply wp_ret, handling_ended|].
  destruct (bad_flags x 0).
  { apply wp_bind. eapply wp_mono; [by eapply disconnect_ended|]. intros [] d' ?. by apply wp_ret. }
  apply wp_bind. eapply wp_mono; [apply (inv_upd (Some c) c x); try done|].
  - apply client_ok_state; [by apply (bi_clients _ _ Hinv c)|done..].
  - intros (_ & _ & Hs & _). rewrite Hs in Hk. by destruct Hk.
  - intros [] d1 [Hinv1 ->]. apply wp_bind.
    eapply wp_mono; [eapply disconnect_ended; [done|apply lookup_insert_eq]|]. intros [] d' ?. by apply wp_ret.
Qed.

(** ** SUBSCRIBE and UNSUBSCRIBE *)

Lemma read_string_progress p s p' : packet_ok p → _mosquitto_read_string p = Some (inr s, p') → pos p + 2 ≤ pos p'.
Proof.
  intros Hp Hr. unfold _mosquitto_read_string in Hr.
  destruct (read_uint16_safe p Hp) as (r & p1 & E1 & Hp1 & Hl1 & _ & _ & _ & Hn).
  assert (Hpos : match r with inr _ => pos p1 = pos p + 2 | inl _ => True end).
  { destruct r; [done|]. pose proof Hp as ((? & ?) & ? & _). unfold _mosquitto_read_uint16, MAX_BODY in *.
    rewrite !u32_small in E1 by (rewrite ?u32_small; lia).
    destruct (remaining_length p <? pos p + 2); [done|]. destruct (payload p) as [b|]; [|done]. cbn [mbind option_bind] in E1.
    destruct (b !! Z.to_nat (pos p)); [|done]. cbn [mbind option_bind] in E1.
    destruct (b !! Z.to_nat (pos p + 1)); [|done]. cbn [mbind option_bind] in E1. injection E1 as _ <-. cbn. lia. }
  rewrite E1 in Hr. cbn [mbind option_bind] in Hr. destruct r as [rc|n]; [done|].
  destruct Hp1 as ((? & ?) & ? & _). unfold MAX_BODY in *. rewrite u32_small in Hr by lia.
  destruct (remaining_length p1 <? pos p1 + n); [done|]. destruct (payload_slice p1 n); [|done]. cbn in Hr. injection Hr as _ <-. cbn. lia.
Qed.

Lemma same_clients_face x d d' :
  contexts d !! c = Some x → is_Some (id x) → same_clients c d d' →
  same_on face d d' ∧ ∃ x', contexts d' !! c = Some x' ∧ set_subs (λ _, []) x' = set_subs (λ _, []) x ∧ face x' = face x.
Proof.
  intros Hx Hid (Hm & Ht & Hcc & Hc). rewrite Hx in Hcc. destruct (contexts d' !! c) as [x'|] eqn:Hx'; [|done]. apply (inj Some) in Hcc.
  assert (Hf : face x' = face x).
  { assert (id x' = id x) by (apply (f_equal id) in Hcc; exact Hcc).
    assert (idle x' = idle x) as Hi by (by apply idle_named). unfold face. rewrite Hi.
    apply (f_equal (λ x, (id x, sock x, cstate x, will x, listener x, c_in_packet x, topics <$> c_bridge x))) in Hcc.
    cbn in Hcc. congruence. }
  split; [|by exists x']. split; [|done]. intros c'. destruct (decide (c' = c)) as [->|Hne].
  - rewrite Hx', Hx. cbn. by rewrite Hf.
  - by rewrite Hc.
Qed.

Lemma handling_clients x d d' :
  handling c x d → is_Some (id x) → broker_ok [] d' → same_clients c d d' →
  ∃ x', handling c x' d' ∧ set_subs (λ _, []) x' = set_subs (λ _, []) x.
Proof.
  intros [Hinv Hx Hp Hb Hk _] Hid Hok Hsc. destruct (same_clients_face x d d' Hx Hid Hsc) as (Hs & x' & Hx' & Hcc & Hf).
  exists x'. split; [|done]. assert (E0 : id x' = id x) by (unfold face in Hf; congruence).
  assert (E1 : c_in_packet x' = c_in_packet x) by (unfold face in Hf; congruence).
  assert (E2 : c_bridge x' = c_bridge x) by (apply (f_equal c_bridge) in Hcc; exact Hcc).
  assert (E3 : sock x' = sock x) by (unfold face in Hf; congruence).
  split; [|done|by rewrite E1|by rewrite E2|by rewrite E3|apply fresh_known; by rewrite E0]. by eapply inv_face.
Qed.

(** What a round of the loops needs: the client is known, and so much of the
    packet was read. *)
Record in_packet_at (x : mosquitto) (k : Z) (l : Z) : Prop := {
  ip_id : is_Some (id x);
  ip_pos : k ≤ pos (c_in_packet x);
  ip_length : remaining_length (c_in_packet x) = l;
}.

Lemma same_subs_at x x' k l : set_subs (λ _, []) x' = set_subs (λ _, []) x → in_packet_at x k l → in_packet_at x' k l.
Proof.
  intros Hs [? ? ?]. assert (E1 : c_in_packet x' = c_in_packet x) by (apply (f_equal c_in_packet) in Hs; exact Hs).
  assert (E2 : id x' = id x) by (apply (f_equal id) in Hs; exact Hs). split; rewrite ?E1, ?E2; done.
Qed.

Lemma conn_at x x' k l : conn x' = conn x → in_packet_at x k l → in_packet_at x' k l.
Proof.
  intros (E2 & _ & _ & _ & _ & _ & E1 & _)%conn_fields [? ? ?]. split; rewrite ?E1, ?E2; done.
Qed.

Lemma wildcard_free_app m s : wildcard_free m → wildcard_free s → wildcard_free (m ++ s).
Proof. unfold wildcard_free. set_solver. Qed.

Lemma mounted_cases x t :
  mounted E x t = t ∨ ∃ mp, mounted E x t = mp ++ t ∧ 0 ∉ mp ∧ wildcard_free mp ∧ slen mp < 536870912.
Proof.
  unfold mounted. destruct (mount_point E x) as [mp|] eqn:Hm; [|by left]. right. exists mp. split; [done|].
  unfold mount_point in Hm. destruct (listener x) as [l|]; [|done]. cbn in Hm.
  destruct (mount_points E !! l) as [o|] eqn:Ho; [|done]. cbn in Hm. subst o. by eapply HE.
Qed.

Lemma mounted_topic x t :
  0 ∉ t → wildcard_free t → slen t < 65536 →
  0 ∉ mounted E x t ∧ wildcard_free (mounted E x t) ∧ slen (mounted E x t) < SIZE_BOUND.
Proof.
  intros H0 Hw Hl. unfold SIZE_BOUND. destruct (mounted_cases x t) as [->|(mp & -> & ? & ? & ?)]; [split_and!; [done|done|lia]|].
  split_and!; [set_solver|by apply wildcard_free_app|]. unfold slen in *. rewrite length_app. lia.
Qed.

Lemma mounted_filter x t :
  0 ∉ t → mosquitto_sub_topic_check t = MOSQ_ERR_SUCCESS → 0 ∉ mounted E x t ∧ hash_last (tokens (mounted E x t)).
Proof.
  intros H0 Hc%sub_topic_check_ok; [|done]. apply filter_ok_hash_last in Hc.
  destruct (mounted_cases x t) as [->|(mp & -> & ? & ? & ?)]; split; try done.
  - by apply hash_last_tokens.
  - set_solver.
  - by apply hash_last_tokens, hash_last_app.
Qed.

Lemma subscribe_one_ok rc x d k l :
  handling c x d → in_packet_at x k l →
  safe c (subscribe_one E c rc) (λ r d', ∃ x', handling c x' d' ∧ in_packet_at x' (k + 1) l) d.
Proof.
  intros Hh [Hid Hk Hl]. apply safe_bind, safe_or_1.
  eapply safe_mono; [apply (read_safe c x d); [done|apply read_string_safe]|].
  intros sub d1 (p & Hr & [H0 Hlen] & [Ha _ _] & Hh1 & _). apply read_string_progress in Hr; [|apply Hh].
  case_bool_decide; [by eapply safe_fail, handling_ended|].
  destruct (mosquitto_sub_topic_check sub =? MOSQ_ERR_SUCCESS) eqn:Hck; [|by eapply safe_fail, handling_ended].
  apply Z.eqb_eq in Hck. cbn [negb]. apply safe_bind, safe_or_1.
  eapply safe_mono; [apply (read_safe c (read_to p x) d1); [done|apply read_byte_safe]|].
  intros q d2 (p2 & _ & _ & [Ha2 Hp2 _] & Hh2 & _). cbn [read_to set_in_packet c_in_packet] in *.
  set (x2 := read_to p2 (read_to p x)) in *.
  destruct (Z.ltb_spec 2 (u8 q)) as [|Hq]; [by eapply safe_fail, handling_ended|].
  assert (Hq0 : 0 ≤ u8 q) by (unfold u8; by apply Z.mod_pos_bound).
  assert (Hat : in_packet_at x2 (k + 1) l) by (split; cbn; [done|lia|lia]).
  apply safe_bind, (safe_get c x2); [apply Hh2|]. destruct (mounted_filter x2 sub H0 Hck) as [H0' Hlast].
  destruct Hid as [cid Hcid]. apply safe_bind, safe_lift.
  eapply wp_mono; [apply (subscribe_ok [] d2 c x2 cid); [apply Hh2|apply Hh2|done|done|done|lia]|].
  intros rc2 d3 (-> & Hsc & Hok3). destruct (handling_clients _ _ _ Hh2 (ip_id _ _ _ Hat) Hok3 Hsc) as (x3 & Hh3 & Hs3).
  pose proof (same_subs_at _ _ _ _ Hs3 Hat) as Hat3. cbn [Z.eqb MOSQ_ERR_SUCCESS].
  apply safe_bind, safe_lift. eapply wp_mono; [apply (retain_queue_ok E acl_check [] d3 c (mounted E x2 sub) (u8 q));
    [done| |done|lia]|].
  { rewrite (ha_ctx _ _ _ Hh3). cbn. apply Hat3. }
  intros rc3 d4 (_ & Hok4 & [_ Hf]). apply frame_conns in Hf.
  destruct (handling_conns _ _ _ d4 Hh3) as (x4 & Hh4 & Hc4); [by eapply inv_conns; [apply Hh3|..]|done|].
  apply safe_done. exists x4. split; [done|]. by eapply conn_at.
Qed.

Lemma subscribe_loop_ok n pl rc x d l :
  handling c x d → in_packet_at x (slen pl + 2) l → l - pos (c_in_packet x) ≤ Z.of_nat n →
  safe c (subscribe_loop E n c pl rc) (λ r d', slen r.1 + 2 ≤ l ∧ ∃ x', handling c x' d') d.
Proof.
  revert pl rc x d. induction n as [|n IH]; intros pl rc x d Hh Hat Hn; cbn [subscribe_loop];
    apply safe_bind, (safe_get c x); try (apply Hh); pose proof Hat as [Hid Hk Hl];
    pose proof (ha_packet _ _ _ Hh) as ([_ Hpos] & _);
    (destruct (Z.ltb_spec (pos (c_in_packet x)) (remaining_length (c_in_packet x))) as [Hlt|];
      [|apply safe_done; split; [cbn; lia|eauto]]); [lia|].
  apply safe_bind. set (k := Z.max (slen pl + 2) (pos (c_in_packet x))).
  eapply safe_mono; [apply (subscribe_one_ok rc x d k l); [done|by split; [|unfold k; lia|]]|].
  intros [q rc'] d1 (x1 & Hh1 & [Hid1 Hk1 Hl1]). apply (IH _ _ x1); [done| |unfold k in *; lia].
  split; [done| |done]. unfold slen in *. cbn [fst]. rewrite length_app. cbn [length]. unfold k in *. lia.
Qed.

Lemma changed_ok x d : handling c x d → wp changed (λ _ d', ∃ x', handling c x' d') d.
Proof.
  intros Hh. pose proof (ha_inv _ _ _ Hh) as Hinv. pose proof (bi_ok _ _ Hinv) as Hok.
  eapply wp_mono; [apply (wp_changed (tree_refs (root d) ++ [])), Hok|].
  intros [] d' Hst. pose proof (frame_conns _ _ _ (proj2 Hst)) as Hs.
  destruct (handling_conns _ _ _ d' Hh) as (x' & Hh' & _); [|done|eauto].
  eapply inv_conns; [done| |done]. by eapply broker_ok_step.
Qed.

Lemma read_mid_pos p m p' : packet_ok p → _mosquitto_read_uint16 p = Some (inr m, p') → pos p' = pos p + 2.
Proof.
  intros ((? & ?) & ? & _) Hr. unfold _mosquitto_read_uint16, MAX_BODY in *.
  rewrite !u32_small in Hr by (rewrite ?u32_small; lia).
  destruct (remaining_length p <? pos p + 2); [done|]. destruct (payload p) as [b|]; [|done]. cbn [mbind option_bind] in Hr.
  destruct (b !! Z.to_nat (pos p)); [|done]. cbn [mbind option_bind] in Hr.
  destruct (b !! Z.to_nat (pos p + 1)); [|done]. cbn [mbind option_bind] in Hr. injection Hr as _ <-. cbn. lia.
Qed.

Lemma handle_subscribe_ok x d :
  handling c x d → is_Some (id x) → wp (mqtt3_handle_subscribe E c) (λ _ d', ended c d') d.
Proof.
  intros Hh Hid. apply returns_safe, safe_bind, (safe_get c x); [apply Hh|].
  destruct (bad_flags x 2); [by eapply safe_fail, handling_ended|]. pose proof (ha_packet _ _ _ Hh) as ([Hp0 _] & Hmax & _).
  apply safe_bind, safe_or_1. eapply safe_mono; [apply (read_safe c x d); [done|apply read_uint16_safe]|].
  intros m d1 (p & Hr & _ & [Hl _ _] & Hh1 & _). apply read_mid_pos in Hr; [|apply Hh].
  apply safe_bind. eapply safe_mono; [apply (subscribe_loop_ok _ [] 0 (read_to p x) d1 (remaining_length p)); [done| |]|].
  - split; cbn [read_to set_in_packet c_in_packet slen length]; [done|unfold slen; cbn [length]; lia|done].
  - cbn [read_to set_in_packet c_in_packet]. lia.
  - intros [pl rc] d2 (Hpl & x2 & Hh2). destruct (_ && _); [by eapply safe_fail, handling_ended|].
    apply safe_bind, safe_lift. eapply wp_mono; [apply (reply_safe c x2 d2); [done|]|].
    + eapply emits_safe, send_suback_emits. cbn [fst] in *. lia.
    + intros rc2 d3 (x3 & Hh3 & _). apply safe_bind, safe_lift.
      eapply wp_mono; [by eapply changed_ok|]. intros [] d4 (x4 & Hh4). by eapply safe_done, handling_ended.
Qed.

Lemma unsubscribe_one_ok x d k l :
  handling c x d → in_packet_at x k l →
  safe c (unsubscribe_one c) (λ r d', ∃ x', handling c x' d' ∧ in_packet_at x' (k + 1) l) d.
Proof.
  intros Hh [Hid Hk Hl]. apply safe_bind, safe_or_1.
  eapply safe_mono; [apply (read_safe c x d); [done|apply read_string_safe]|].
  intros sub d1 (p & Hr & [H0 Hlen] & [Ha _ _] & Hh1 & _). apply read_string_progress in Hr; [|apply Hh].
  assert (Hat : in_packet_at (read_to p x) (k + 1) l) by (split; cbn; [done|lia|lia]).
  case_bool_decide; [by eapply safe_fail, handling_ended|].
  destruct (negb _); [by eapply safe_fail, handling_ended|].
  apply safe_bind, safe_lift. eapply wp_mono; [apply (unsubscribe_ok [] d1 c (read_to p x)); [apply Hh1|apply Hh1|done]|].
  intros rc d2 (-> & Hsc & Hok2). destruct (handling_clients _ _ _ Hh1 ltac:(done) Hok2 Hsc) as (x2 & Hh2 & Hs2).
  apply safe_done. exists x2. split; [done|]. by eapply same_subs_at.
Qed.

Lemma unsubscribe_loop_ok n x d k l :
  handling c x d → in_packet_at x k l → l - k ≤ Z.of_nat n →
  safe c (unsubscribe_loop n c) (λ _ d', ∃ x', handling c x' d') d.
Proof.
  revert x d k. induction n as [|n IH]; intros x d k Hh Hat Hn; cbn [unsubscribe_loop];
    apply safe_bind, (safe_get c x); try (apply Hh); pose proof Hat as [Hid Hk Hl];
    (destruct (Z.ltb_spec (pos (c_in_packet x)) (remaining_length (c_in_packet x))) as [Hlt|];
      [|apply safe_done; eauto]); [lia|].
  apply safe_bind. eapply safe_mono; [by apply (unsubscribe_one_ok x d k l)|].
  intros [] d1 (x1 & Hh1 & Hat1). apply (IH x1 _ (k + 1)); [done|done|lia].
Qed.

Lemma handle_unsubscribe_ok x d :
  handling c x d → is_Some (id x) → wp (mqtt3_handle_unsubscribe E c) (λ _ d', ended c d') d.
Proof.
  intros Hh Hid. apply returns_safe, safe_bind, (safe_get c x); [apply Hh|].
  destruct (bad_flags x 2); [by eapply safe_fail, handling_ended|]. pose proof (ha_packet _ _ _ Hh) as ([Hp0 _] & _).
  apply safe_bind, safe_or_1. eapply safe_mono; [apply (read_safe c x d); [done|apply read_uint16_safe]|].
  intros m d1 (p & Hr & _ & [Hl Hpos _] & Hh1 & _).
  apply safe_bind. eapply safe_mono; [apply (unsubscribe_loop_ok _ (read_to p x) d1 0 (remaining_length p)); [done| |]|].
  - split; cbn; [done|lia|done].
  - lia.
  - intros [] d2 (x2 & Hh2). apply safe_bind, safe_lift.
    eapply wp_mono; [by eapply changed_ok|]. intros [] d3 (x3 & Hh3).
    apply safe_lift. exact (mid_reply_ok x3 d3 UNSUBACK m Hh3).
Qed.

(** ** PUBLISH *)

(** No message that was refused waits for its release. *)
Definition no_refused (x : mosquitto) (d : db) : Prop :=
  ∀ m, m ∈ msgs x → direction m = mosq_md_in → ∃ st t, heap (dmsg d) !! cm_store m = Some st ∧ ms_topic st = Some t.

Lemma handling_same x d d' :
  handling c x d → broker_inv (Some c) d' → contexts d' = contexts d → handling c x d'.
Proof. intros [_ Hx ? ? ?] Hinv Hc. split; try done. by rewrite Hc. Qed.

Lemma store_find_in l m d rc s :
  store_find_loop l m d = Some (rc, Some s) → ∃ y, y ∈ l ∧ direction y = mosq_md_in ∧ cm_store y = s.
Proof.
  induction l as [|y l IH]; cbn [store_find_loop]; [done|]. intros Hf.
  destruct (deref_store (cm_store y) d) as [st|]; [|done]. cbn [mbind option_bind] in Hf.
  destruct ((source_mid st =? m) && bool_decide (direction y = mosq_md_in)) eqn:Hb.
  - apply andb_true_iff in Hb as [_ Hd%bool_decide_eq_true]. exists y. split; [by left|]. split; [done|]. by injection Hf.
  - destruct (IH Hf) as (z & Hz & ?). exists z. split; [by right|done].
Qed.

Lemma store_find_ok m x d :
  handling c x d → is_Some (id x) →
  wp (on_cm c (mqtt3_db_message_store_find m)) (λ r d', d' = d ∧
    match r.2 with Some s => ∃ y, y ∈ msgs x ∧ direction y = mosq_md_in ∧ cm_store y = s | None => True end) d.
Proof.
  intros Hh Hid. pose proof (ha_inv _ _ _ Hh) as Hinv. pose proof (ha_ctx _ _ _ Hh) as Hx.
  pose proof (bi_ok _ _ Hinv) as [[[Hc Hst] _ _ _] _]. rewrite app_nil_r in Hst.
  assert (Hok : cm_ok (ctx_refs (delete c (contexts d)) ++ tree_refs (root d)) (CM x (dmsg d))).
  { apply cm_ok_join; [done|by eapply Hc|]. by rewrite (assoc_L (++)), <-(ctx_refs_delete _ _ _ Hx). }
  destruct (store_find_spec _ _ m Hok) as (rc & o & Hrun & _).
  unfold wp, on_cm. rewrite Hx. cbn [mbind option_bind]. rewrite Hrun. cbn [mbind option_bind ctx mdb]. split.
  - unfold set_dmsg, set_contexts. cbn. rewrite insert_id by done. by destruct d.
  - cbn. destruct o as [s|]; [|done]. unfold mqtt3_db_message_store_find, bind, mget, mlift in Hrun. cbn [ctx mdb] in Hrun.
    destruct (store_find_loop (msgs x) m (dmsg d)) as [[rc' o']|] eqn:Hf; [|done]. injection Hrun as -> ->.
    by eapply store_find_in.
Qed.

Lemma insert_in_ok m r s x d :
  handling c x d → is_Some (id x) → publishable (dmsg d) s →
  wp (on_cm c (mqtt3_db_message_insert E m mosq_md_in 2 r s)) (λ _ d', ∃ x', handling c x' d') d.
Proof.
  intros Hh Hid Hp. pose proof Hp as (st & Hst & _). eapply wp_mono; [apply (client_step_ok c x d _ (λ _ _, True) Hh Hid)|].
  - intros others Hok. eapply wp_mono; [by apply (message_insert_spec E others _ m mosq_md_in 2 r s st)|].
    intros rc s' (? & _). done.
  - intros rc d' (x' & Hh' & _). eauto.
Qed.

Lemma reject_publish_ok q m x d :
  handling c x d → is_Some (id x) → wp (reject_publish E c q m) (λ _ d', ended c d') d.
Proof.
  intros Hh Hid. unfold reject_publish. destruct (q =? 0); [by eapply wp_ret, handling_ended|].
  destruct (q =? 1); [exact (mid_reply_ok x d PUBACK m Hh)|].
  destruct (Z.eqb_spec q 2) as [->|]; [|by eapply wp_ret, handling_ended].
  apply wp_bind. eapply wp_mono; [by apply (store_find_ok m x d)|]. intros [rc o] d1 [-> Ho]. apply wp_bind.
  eapply (wp_mono _ (λ _ d', ∃ x', handling c x' d')).
  { destruct o as [s|]; [apply wp_ret; eauto|]. apply wp_bind, (wp_get_context _ x); [apply Hh|].
    apply wp_bind. eapply wp_mono; [apply inv_store, Hh|]. intros s d2 (Hinv2 & _ & Hc2 & st & Hst & Ht & _).
    eapply (insert_in_ok _ _ _ x); [by eapply handling_same|done|]. exists st. split; [done|]. intros t. congruence. }
  intros res d2 (x2 & Hh2). destruct (res =? 0); [exact (mid_reply_ok x2 d2 PUBREC m Hh2)|].
  by eapply wp_ret, handling_ended.
Qed.

(** A message that came in a packet. *)
Record message_ok (topic : bytes) (q : Z) (pl : bytes) : Prop := {
  mo_topic : 0 ∉ topic ∧ wildcard_free topic ∧ slen topic < SIZE_BOUND;
  mo_payload : slen pl < SIZE_BOUND;
  mo_qos : 0 ≤ q ≤ 2;
}.

Lemma publish_step topic q r s x d :
  handling c x d → sendable (dmsg d) s → 0 ≤ q ≤ 2 → 0 ∉ topic → wildcard_free topic →
  wp (mqtt3_db_messages_queue E acl_check (id x) topic q r s) (λ _ d', ∃ x', handling c x' d') d.
Proof.
  intros Hh Hs Hq H0 Hw. eapply wp_mono; [apply (inv_publish E (Some c)); try done; apply Hh|].
  intros [rc o] d' (Hinv' & Hs' & _). destruct (handling_conns _ _ _ d' Hh Hinv' Hs') as (x' & Hh' & _). eauto.
Qed.

Lemma accept_publish_ok topic q m r pl x d :
  handling c x d → is_Some (id x) → message_ok topic q pl → (q = 1 → no_refused x d) →
  wp (accept_publish E c topic q m r pl) (λ _ d', ended c d') d.
Proof.
  intros Hh Hid [(H0 & Hw & Ht) Hpl Hq] Hnr. unfold accept_publish. apply wp_bind, (wp_get_context _ x); [apply Hh|].
  apply wp_bind. eapply (wp_mono _ (λ r d', d' = d ∧ match r.2 with
    | Some s => 0 < q ∧ ∃ y, y ∈ msgs x ∧ direction y = mosq_md_in ∧ cm_store y = s | None => True end)).
  { destruct (Z.ltb_spec 0 q); [|by apply wp_ret]. eapply wp_mono; [by apply (store_find_ok m x d)|].
    intros [rc o] d1 [-> Ho]. split; [done|]. destruct o; [by split|done]. }
  intros [rc o] d1 [-> Ho]. cbn [snd] in Ho. apply wp_bind.
  eapply (wp_mono _ (λ s d', handling c x d' ∧ publishable (dmsg d') s ∧ (q ≠ 2 → sendable (dmsg d') s))).
  { destruct o as [s|].
    - destruct Ho as (Hq0 & y & Hy & Hd & <-). apply wp_ret.
      pose proof (in_message (Some c) c d x y (ha_inv _ _ _ Hh) (ha_ctx _ _ _ Hh) Hy Hd) as Hp.
      split; [done|]. split; [done|]. intros Hq2. destruct (Hnr ltac:(lia) y Hy Hd) as (st & t & Hst & Hts).
      destruct Hp as (st' & Hst' & Hp'). rewrite Hst in Hst'. injection Hst' as <-. by apply (Hp' t).
    - eapply wp_mono; [apply inv_store, Hh|]. intros s d2 (Hinv2 & _ & Hc2 & st & Hst & Hts & Hps & Hqs).
      assert (Hs : sendable (dmsg d2) s) by (exists st, topic; split_and!; try done; [by rewrite Hps|lia|lia]).
      split; [by eapply handling_same|]. split; [|done]. exists st. split; [done|]. intros t Htt.
      assert (t = topic) as -> by congruence. done. }
  intros s d2 (Hh2 & Hp2 & Hs2). destruct (Z.eqb_spec q 0) as [->|Hq0].
  { apply wp_bind. eapply wp_mono; [apply (publish_step topic 0 r s x d2); auto|].
    intros [rc1 o1] d3 (x3 & Hh3). by eapply wp_ret, handling_ended. }
  destruct (Z.eqb_spec q 1) as [->|Hq1].
  { apply wp_bind. eapply wp_mono; [apply (publish_step topic 1 r s x d2); auto|].
    intros [rc1 o1] d3 (x3 & Hh3). apply wp_bind. eapply wp_mono; [exact (mid_reply_ok x3 d3 PUBACK m Hh3)|].
    intros rc2 d4 Hd4. by apply wp_ret. }
  assert (q = 2) as -> by lia. cbn [Z.eqb Pos.eqb]. apply wp_bind.
  eapply (wp_mono _ (λ _ d', ∃ x', handling c x' d')).
  { destruct (bool_decide _); [apply wp_ret; eauto|]. by apply (insert_in_ok m r s x). }
  intros res d3 (x3 & Hh3). destruct (res =? 0); [|by eapply wp_ret, handling_ended].
  apply wp_bind. eapply wp_mono; [exact (mid_reply_ok x3 d3 PUBREC m Hh3)|]. intros rc2 d4 Hd4. by apply wp_ret.
Qed.

(** The QoS in the header of a PUBLISH. *)
Definition header_qos (p : packet) : Z := Z.shiftr (Z.land (command p) 0x06) 1.

Lemma header_qos_range p : 0 ≤ header_qos p ≤ 3.
Proof.
  unfold header_qos. rewrite Z.shiftr_div_pow2 by done. change (2 ^ 1) with 2.
  assert (0 ≤ Z.land (command p) 6 ≤ 7).
  { split; [apply Z.land_nonneg; lia|]. change 6 with (Z.land 6 7). rewrite Z.land_assoc.
    change 7 with (Z.ones 3) at 1. rewrite Z.land_ones by done. assert (Hm := Z.mod_pos_bound (Z.land (command p) 6) (2 ^ 3)).
    change (2 ^ 3) with 8 in Hm |- *. lia. }
  split; [apply Z.div_pos; lia|]. assert (Z.land (command p) 6 `div` 2 ≤ 7 `div` 2) by (apply Z.div_le_mono; lia).
  change (7 `div` 2) with 3 in *. lia.
Qed.

Lemma pub_topic_check_free t : mosquitto_pub_topic_check t = MOSQ_ERR_SUCCESS → wildcard_free t.
Proof. apply pub_topic_scan_free. Qed.

(** The part of the handler after the topic and the message id. *)
Lemma publish_body_ok topic q m r x d :
  handling c x d → is_Some (id x) → 0 ≤ q ≤ 2 → 0 ∉ topic → wildcard_free topic → slen topic < 65536 →
  (q = 1 → no_refused x d) →
  safe c (
    let? x := lift_m (get_context c) in
    let payloadlen := u32 (remaining_length (c_in_packet x) - pos (c_in_packet x)) in
    let topic := mounted E x topic in
    if negb (payloadlen =? 0) && negb (message_size_limit E =? 0) && (message_size_limit E <? payloadlen)
    then lift_m (reject_publish E c q m)
    else
      let? pl := if payloadlen =? 0 then done_with [] else or_1 (read c (_mosquitto_read_bytes payloadlen)) in
      let rc := acl_check x topic MOSQ_ACL_WRITE in
      if rc =? MOSQ_ERR_ACL_DENIED then lift_m (reject_publish E c q m)
      else if negb (rc =? MOSQ_ERR_SUCCESS) then fail rc
      else lift_m (accept_publish E c topic q m r pl)) (λ _ d', ended c d') d.
Proof.
  intros Hh Hid Hq H0 Hw Hl Hnr. apply safe_bind, (safe_get c x); [apply Hh|]. cbv zeta.
  pose proof (ha_packet _ _ _ Hh) as ([Hp0 Hp1] & Hmax & _). unfold MAX_BODY in Hmax.
  set (n := u32 _). assert (Hn : 0 ≤ n < MAX_BODY) by (unfold n, MAX_BODY; rewrite u32_small; lia).
  destruct (_ && _); [by eapply safe_lift, reject_publish_ok|].
  destruct (mounted_topic x topic H0 Hw Hl) as (H0' & Hw' & Hl').
  apply safe_bind. eapply (safe_mono _ _ (λ pl d', slen pl < SIZE_BOUND ∧ ∃ x', handling c x' d' ∧ id x' = id x ∧
    (q = 1 → no_refused x' d'))).
  { destruct (n =? 0); [apply safe_done; split; [done|eauto]|]. apply safe_or_1.
    eapply safe_mono; [apply (read_safe c x d); [done|by apply read_bytes_safe]|].
    intros pl d1 (p & _ & Hpl & _ & Hh1 & ->). split; [unfold slen, SIZE_BOUND, MAX_BODY in *; lia|].
    exists (read_to p x). done. }
  intros pl d1 (Hpl & x1 & Hh1 & Hid1 & Hnr1). rewrite <-Hid1 in Hid.
  destruct (_ =? MOSQ_ERR_ACL_DENIED); [by eapply safe_lift, reject_publish_ok|].
  destruct (negb _); [by eapply safe_fail, handling_ended|]. apply safe_lift.
  by apply (accept_publish_ok _ q m r pl x1).
Qed.

Lemma handle_publish_ok x d :
  handling c x d → is_Some (id x) → (header_qos (c_in_packet x) = 1 → no_refused x d) →
  wp (mqtt3_handle_publish E c) (λ _ d', ended c d') d.
Proof.
  intros Hh Hid Hnr. apply returns_safe, safe_bind, (safe_get c x); [apply Hh|]. cbv zeta.
  fold (header_qos (c_in_packet x)). set (q := header_qos (c_in_packet x)) in *.
  pose proof (header_qos_range (c_in_packet x)) as Hq. fold q in Hq.
  destruct (Z.eqb_spec q 3) as [|Hq3]; [by eapply safe_fail, handling_ended|].
  apply safe_bind, safe_or_1. eapply safe_mono; [apply (read_safe c x d); [done|apply read_string_safe]|].
  intros topic d1 (p & _ & [H0 Hl] & _ & Hh1 & ->).
  case_bool_decide; [by eapply safe_fail, handling_ended|].
  apply safe_bind. unfold remap_in. rewrite (ha_client _ _ _ Hh). unfold safe at 1. cbn [mlift]. apply wp_ret.
  destruct (Z.eqb_spec (mosquitto_pub_topic_check topic) MOSQ_ERR_SUCCESS) as [Hck|]; [|by eapply safe_fail, handling_ended].
  apply pub_topic_check_free in Hck. cbn [negb]. apply safe_bind.
  eapply (safe_mono _ _ (λ m d', ∃ x', handling c x' d' ∧ id x' = id x ∧ (q = 1 → no_refused x' d'))).
  { destruct (0 <? q); [|apply safe_done; by exists (read_to p x)]. apply safe_or_1.
    eapply safe_mono; [apply (read_safe c (read_to p x)); [done|apply read_uint16_safe]|].
    intros m d2 (p2 & _ & _ & _ & Hh2 & ->). by exists (read_to p2 (read_to p x)). }
  intros m d2 (x2 & Hh2 & Hid2 & Hnr2). rewrite <-Hid2 in Hid. apply (publish_body_ok topic q m _ x2 d2); try done. lia.
Qed.
End serve.
