(* ===== verification/Resume.v ===== *)
(** * Resuming a session (src/read_handle_server.c)

    A client that connects with an id whose session was kept inherits the
    queue and the subscriptions of the older context, which is then
    disconnected. Between the two steps the older context has counters that
    belong to no queue; [quiet] puts them right, and nothing depends on them. *)

From stdpp Require Import base list numbers strings option sets gmap.
From Stdlib Require Import ZArith Lia.
From S2P Require Import Prelude Topic Packet State Store Send Messages Db Acl Subs DbInv Session Context Handlers Lifecycle Release Free Serve.
Local Open Scope Z_scope.
Local Open Scope broker_scope.

(** ** Relinking the leaves *)

Lemma relink_none from to l : has_leaf from l = false → relink_leaf from to <$> l = l.
Proof.
  intros Hl%bool_decide_eq_false. induction l as [|lf l IH]; [done|]. cbn in *. f_equal; [|apply IH; set_solver].
  unfold relink_leaf. rewrite bool_decide_eq_false_2; [done|]. intros <-. apply Hl. by left.
Qed.

Lemma relink_slots_spec from to slots ch :
  tree_ok ch → NoDup (occupied slots) →
  (∀ p, Some p ∈ slots → has_leaf from (subs_of p (forest ch)) = true) →
  ∃ ch', relink_slots from to slots ch = Some ch' ∧ tree_ok ch' ∧
    tree_refs (forest ch') = tree_refs (forest ch) ∧
    (∀ p, subs_of p (forest ch') =
       if decide (Some p ∈ slots) then relink_leaf from to <$> subs_of p (forest ch) else subs_of p (forest ch)) ∧
    ∀ p, ret_of p (forest ch') = ret_of p (forest ch).
Proof.
  revert ch. induction slots as [|[p|] slots IH]; intros ch Hok Hnd Hsl; cbn [relink_slots].
  - exists ch. split_and!; [done..| |done]. intros p. by rewrite decide_False by set_solver.
  - cbn [occupied omap list_omap] in Hnd. apply NoDup_cons in Hnd as [Hp Hnd].
    destruct (has_leaf_nonempty from p ch) as (Hne & n & Hn & Hs); [apply Hsl; set_solver|].
    rewrite Hn. cbn [mbind option_bind].
    destruct (set_at_edits p (fmap (relink_leaf from to)) ch n Hok Hn) as ([[_ S1 R1] E1] & Hok1 & _).
    set (ch1 := alter_at _ p ch) in *.
    destruct (IH ch1 Hok1 Hnd) as (ch' & -> & Hok' & Hr & Hsubs & Hret).
    { intros p' Hp'. rewrite S1, decide_False; [apply Hsl; set_solver|]. intros ->. apply Hp.
      apply list_elem_of_omap. eauto. }
    exists ch'. split_and!; [done|done|congruence| |].
    + intros p'. rewrite Hsubs, S1. destruct (decide (p' = p)) as [->|Hpp].
      * rewrite (decide_True (P := Some p ∈ Some p :: slots)) by set_solver. rewrite decide_False; [done|].
        intros Hin. apply Hp. apply list_elem_of_omap. eauto.
      * destruct (decide (Some p' ∈ slots)); [by rewrite decide_True by set_solver|].
        rewrite decide_False; [done|]. set_solver.
    + intros p'. by rewrite Hret.
  - destruct (IH ch Hok Hnd) as (ch' & -> & Hok' & Hr & Hsubs & Hret); [set_solver|].
    exists ch'. split_and!; try done. intros p. rewrite Hsubs.
    destruct (decide (Some p ∈ slots)); [by rewrite decide_True by set_solver|by rewrite decide_False by set_solver].
Qed.

(** All leaves of [from], wherever they are. *)
Lemma relink_all d from to x :
  broker_ok [] d → contexts d !! from = Some x →
  ∃ ch', relink_slots from to (subs x) (subs_children d) = Some ch' ∧ tree_ok ch' ∧
    tree_refs (forest ch') = tree_refs (root d) ∧
    (∀ p, subs_of p (forest ch') = relink_leaf from to <$> subs_of p (root d)) ∧
    ∀ p, ret_of p (forest ch') = retained_at d p.
Proof.
  intros [[_ Hsubs _ _] Hsl] Hx. destruct (Hsl from x Hx) as [Hnd Hocc].
  assert (Helem : ∀ p, Some p ∈ subs x ↔ p ∈ occupied (subs x)).
  { intros p. unfold occupied. rewrite list_elem_of_omap. split; [eauto|]. by intros (o & ? & ->). }
  destruct (relink_slots_spec from to (subs x) (subs_children d) (so_tree d Hsubs) Hnd) as (ch' & Hrun & Hok' & Hr & Hs & Hrt).
  { intros p Hp. by apply Hocc, Helem. }
  exists ch'. split_and!; try done. intros p. rewrite Hs. destruct (decide _) as [Hp|Hp]; [done|].
  symmetry. apply relink_none. rewrite Helem, Hocc in Hp. by apply not_true_iff_false.
Qed.

Lemma has_leaf_relink from to c l :
  from ≠ to → has_leaf c (relink_leaf from to <$> l) =
    if decide (c = from) then false else if decide (c = to) then has_leaf from l || has_leaf to l else has_leaf c l.
Proof.
  intros Hne. induction l as [|lf l IH]; [by repeat case_decide|].
  assert (Hcons : ∀ c lf l, has_leaf c (lf :: l) = bool_decide (lf_context lf = c) || has_leaf c l).
  { intros c' lf' l'. unfold has_leaf. rewrite <-bool_decide_or. apply bool_decide_ext. cbn. rewrite elem_of_cons. naive_solver. }
  cbn [fmap list_fmap]. rewrite !Hcons, IH. unfold relink_leaf.
  destruct (decide (lf_context lf = from)) as [Hf|Hf].
  - rewrite (bool_decide_eq_true_2 (lf_context lf = from)) by done. cbn [lf_context].
    repeat case_decide; subst; rewrite ?Hf; repeat case_bool_decide; subst; try done; try congruence.
  - rewrite (bool_decide_eq_false_2 (lf_context lf = from)) by done.
    repeat case_decide; subst; repeat case_bool_decide; subst; try done; by rewrite ?orb_true_r.
Qed.

Lemma relink_one from to l :
  NoDup (lf_context <$> l) → has_leaf to l = false → NoDup (lf_context <$> (relink_leaf from to <$> l)).
Proof.
  intros Hnd Hto%bool_decide_eq_false. induction l as [|lf l IH]; [done|]. cbn in *. apply NoDup_cons in Hnd as [Hn Hnd].
  apply NoDup_cons. split; [|apply IH; set_solver]. intros (lf' & Heq & (lf2 & -> & Hin)%list_elem_of_fmap)%list_elem_of_fmap.
  assert (Hin2 : lf_context lf2 ∈ lf_context <$> l) by (by apply list_elem_of_fmap_2).
  unfold relink_leaf in Heq. repeat case_bool_decide; cbn in Heq; try congruence.
  - apply Hto. right. by rewrite Heq.
  - apply Hto. rewrite <-Heq. by left.
Qed.

(** ** Moving the session *)

(** The context with the queue [l]. *)
Definition requeued (l : list client_msg) (x : mosquitto) : mosquitto :=
  set_msg_count12 (λ _, count12 l) (set_msg_count (λ _, Z.of_nat (length l))
    (set_last_msg (λ _, cm_ptr <$> last l) (set_msgs (λ _, l) x))).

Lemma requeued_frame l x y :
  same_frame x y → msgs y = l → msg_count y = Z.of_nat (length l) → msg_count12 y = count12 l →
  last_msg y = cm_ptr <$> last l → y = requeued l x.
Proof.
  intros Hf H1 H2 H3 H4.
  assert (Hy : y = set_msg_count12 (λ _, msg_count12 y) (set_msg_count (λ _, msg_count y)
    (set_last_msg (λ _, last_msg y) (set_msgs (λ _, msgs y) (but_queue y))))) by (by destruct y).
  rewrite Hy, Hf, H1, H2, H3, H4. reflexivity.
Qed.

Lemma requeued_same x : queue_ok x → requeued (msgs x) x = x.
Proof.
  intros [H1 H2 H3 H4]. symmetry. by apply requeued_frame.
Qed.

(** A context whose queue was given away, with counters that fit. *)
Definition quiet (x : mosquitto) : mosquitto :=
  set_msg_count12 (λ _, 0) (set_msg_count (λ _, 0) (set_last_msg (λ _, None) x)).

Section inherit.
Context (E : env) (c found : ptr) (x f : mosquitto).

(** The messages as they are sent again. *)
Definition inherited_msgs : list client_msg := unqueue_first E (reset_msg <$> msgs f).
Definition heir : mosquitto :=
  set_last_mid (λ _, last_mid f) (set_subs (λ _, subs f) (requeued inherited_msgs x)).
Definition left_behind : mosquitto := set_subs (λ _, []) (set_msgs (λ _, []) f).

Lemma inherited_restated d :
  Forall (msg_ok d) (msgs f) → Forall (λ m, state m = mosq_ms_queued → direction m = mosq_md_out) (msgs f) →
  Forall2 restated (msgs f) (reset_msg <$> msgs f) ∧ Forall2 restated (reset_msg <$> msgs f) inherited_msgs.
Proof.
  intros Hm Hq. assert (Hr : Forall2 restated (msgs f) (reset_msg <$> msgs f)).
  { eapply Forall2_restated_fmap; [done|]. intros. by eapply reset_msg_restated. }
  split; [done|]. rewrite Forall_forall in Hm, Hq. eapply unqueue_first_restated; apply Forall_forall.
  - intros y (m & -> & Hin)%list_elem_of_fmap. eapply restated_msg_ok; [by eapply reset_msg_restated, Hm|by apply Hm].
  - intros y (m & -> & Hin)%list_elem_of_fmap Hy. destruct (Hm m Hin) as (? & _). apply reset_msg_queued in Hy; [|done].
    pose proof (reset_msg_restated d m (Hm m Hin)) as (_ & _ & _ & _ & _ & -> & _). auto.
Qed.

Context (d : db) (cid : bytes) (Hinv : broker_inv (Some c) d) (Hne : c ≠ found).
Context (Hx : contexts d !! c = Some x) (Hidx : id x = None) (Hfresh : fresh_client x).
Context (Hf : contexts d !! found = Some f) (Hidf : id f = Some cid).
Context (Hq : Forall (λ m, state m = mosq_ms_queued → direction m = mosq_md_out) (msgs f)).

Lemma found_ok : ctx_ok (dmsg d) f.
Proof. apply (co_ctx _ _ (db_core _ _ (bo_db _ _ (bi_ok _ _ Hinv))) found f Hf). Qed.

Lemma inherited_fields :
  cm_ptr <$> inherited_msgs = cm_ptr <$> msgs f ∧ cm_store <$> inherited_msgs = cm_store <$> msgs f ∧
  length inherited_msgs = length (msgs f) ∧ count12 inherited_msgs = count12 (msgs f) ∧
  Forall (msg_ok (dmsg d)) inherited_msgs.
Proof.
  destruct (inherited_restated (dmsg d) (cx_msgs _ _ found_ok) Hq) as [H1 H2].
  destruct (restated_fields _ _ H1) as (A1 & A2 & A3 & A4), (restated_fields _ _ H2) as (B1 & B2 & B3 & B4).
  split_and!; [congruence..|]. pose proof (cx_msgs _ _ found_ok) as Hm.
  assert (Hall : ∀ l l', Forall2 restated l l' → Forall (msg_ok (dmsg d)) l → Forall (msg_ok (dmsg d)) l').
  { induction 1 as [|m m' l l' Hr _ IH]; [done|]. intros [? ?]%Forall_cons. constructor; [by eapply restated_msg_ok|auto]. }
  by eapply Hall, Hall.
Qed.

Lemma fresh_fields : msgs x = [] ∧ last_msg x = None ∧ msg_count x = 0 ∧ msg_count12 x = 0 ∧ subs x = [].
Proof. specialize (Hfresh Hidx). unfold idle in Hfresh. rewrite Hidx in Hfresh. by injection Hfresh. Qed.

(** The messages inherited are the ones left, in other states. *)
Lemma heir_restated : Forall2 restated (msgs f) inherited_msgs.
Proof.
  destruct (inherited_restated (dmsg d) (cx_msgs _ _ found_ok) Hq) as [H1 H2].
  assert (Ht : Transitive restated).
  { intros m m' m'' (? & ? & ? & ? & ? & Hd & _) (? & ? & ? & ? & ? & ? & ?). unfold restated. rewrite <-Hd. split_and!; congruence || auto. }
  by transitivity (reset_msg <$> msgs f).
Qed.

Lemma heir_resumed : inherited_msgs = resumed_queue E (msgs f).
Proof.
  apply resumed_queue_spec; [|done]. eapply Forall_impl; [apply (cx_msgs _ _ found_ok)|]. by intros m (? & _).
Qed.

Lemma heir_queue : queue_ok heir.
Proof.
  destruct inherited_fields as (H1 & H2 & H3 & H4 & _). destruct (cx_queue _ _ found_ok ltac:(by eexists)) as [_ Hn _ _].
  split; try done. change (NoDup (cm_ptr <$> inherited_msgs)). by rewrite H1.
Qed.

Lemma heir_ok : ctx_ok (dmsg d) heir.
Proof.
  destruct inherited_fields as (H1 & H2 & H3 & H4 & H5).
  destruct (co_ctx _ _ (db_core _ _ (bo_db _ _ (bi_ok _ _ Hinv))) c x Hx) as [_ _ _ Ho Hb].
  destruct found_ok as [_ _ Hfr _ _]. split; try done.
  - intros _. apply heir_queue.
  - change (Forall (λ m, (cm_ptr m < next_ptr (dmsg d))%positive) inherited_msgs).
    rewrite <-(Forall_fmap cm_ptr (λ p, p < next_ptr (dmsg d))%positive), H1, Forall_fmap. done.
Qed.

Lemma left_ok : ctx_ok (dmsg d) (quiet (left_behind)).
Proof. destruct found_ok as [_ _ _ Ho Hb]. split; try done; try (by constructor). intros _. split; try done. apply NoDup_nil_2. Qed.

Lemma moved_refs : ctx_refs (<[found := quiet left_behind]> (<[c := heir]> (contexts d))) ≡ₚ ctx_refs (contexts d).
Proof.
  destruct inherited_fields as (_ & H2 & _). destruct fresh_fields as (Hm & _).
  rewrite ctx_refs_insert, delete_insert_ne by done. cbn [msgs quiet left_behind fmap list_fmap app].
  change (msgs (quiet left_behind)) with (@nil client_msg). cbn [fmap list_fmap app].
  rewrite ctx_refs_insert. change (msgs heir) with inherited_msgs. rewrite H2.
  rewrite (ctx_refs_delete (contexts d) found f Hf), (ctx_refs_delete (delete found (contexts d)) c x); [|by rewrite lookup_delete_ne].
  by rewrite Hm.
Qed.

(** No leaf is of a client that is not known. *)
Lemma unlinked p : has_leaf c (subs_of p (root d)) = false.
Proof.
  destruct (bo_slots _ _ (bi_ok _ _ Hinv) c x Hx) as [_ Ho]. destruct fresh_fields as (_ & _ & _ & _ & Hs). rewrite Hs in Ho.
  apply not_true_iff_false. intros Hl%Ho. by apply elem_of_nil in Hl.
Qed.

Context (dp : db) (Hctx : contexts dp = <[found := quiet left_behind]> (<[c := heir]> (contexts d))).
Context (Hdm : dmsg dp = dmsg d) (Htab : tables dp = tables d).
Context (Htree : tree_ok (subs_children dp)) (Hrefs : tree_refs (root dp) = tree_refs (root d)).
Context (Hsubs : ∀ p, subs_of p (root dp) = relink_leaf found c <$> subs_of p (root d)).

Lemma moved_dom c' : is_Some (contexts d !! c') → is_Some (contexts dp !! c').
Proof. rewrite Hctx, !lookup_insert_is_Some'. auto. Qed.

Lemma moved_subs_ok : subs_ok dp.
Proof.
  pose proof (db_subs _ _ (bo_db _ _ (bi_ok _ _ Hinv))) as [_ Hl Ho]. split; [done|..]; intros p; rewrite Hsubs.
  - apply Forall_forall. intros lf (lf' & -> & Hin)%list_elem_of_fmap. specialize (Hl p). unfold live in Hl. rewrite Forall_forall in Hl.
    unfold relink_leaf. case_bool_decide; [|by apply moved_dom, Hl]. apply moved_dom. cbn. by rewrite Hx.
  - apply relink_one; [apply Ho|apply unlinked].
Qed.

Lemma moved_slots_ok : slots_ok dp.
Proof.
  pose proof (bo_slots _ _ (bi_ok _ _ Hinv)) as Hsl. intros c' y. rewrite Hctx. destruct (decide (c' = found)) as [->|Hnf].
  - rewrite lookup_insert_eq. intros [= <-]. split; [apply NoDup_nil_2|]. intros p. rewrite Hsubs, has_leaf_relink by done.
    rewrite decide_True by done. split; [by intros ?%elem_of_nil|done].
  - rewrite lookup_insert_ne by done. destruct (decide (c' = c)) as [->|Hnc].
    + rewrite lookup_insert_eq. intros [= <-]. destruct (Hsl found f Hf) as [Hnd Hocc]. split; [done|]. intros p.
      rewrite Hsubs, has_leaf_relink, decide_False, decide_True, unlinked, orb_false_r by done. apply Hocc.
    + rewrite lookup_insert_ne by done. intros Hy. destruct (Hsl c' y Hy) as [Hnd Hocc]. split; [done|]. intros p.
      rewrite Hsubs, has_leaf_relink, !decide_False by done. apply Hocc.
Qed.

Lemma moved_leaves_ok : leaves_ok dp (tree_leaves (root dp)).
Proof.
  pose proof (db_leaves _ _ (bo_db _ _ (bi_ok _ _ Hinv))) as Hl. apply leaves_subs; [done|]. intros p.
  change (forest (subs_children dp)) with (root dp). rewrite Hsubs. apply Forall_forall. intros lf (lf' & -> & Hin)%list_elem_of_fmap.
  unfold leaves_ok in Hl. rewrite Forall_forall in Hl.
  destruct (Hl lf') as [Hlive Hqos]; [by eapply sublist_subseteq; [apply subs_of_sublist|]|].
  unfold relink_leaf. case_bool_decide; cbn; (split; [apply moved_dom|done]); [by rewrite Hx|done].
Qed.

Lemma moved_broker_ok : broker_ok [] dp.
Proof.
  pose proof (bo_db _ _ (bi_ok _ _ Hinv)) as [[Hc Hst] _ _ Hr]. split; [split|apply moved_slots_ok].
  - rewrite Hrefs. split; rewrite Hdm.
    + intros c' y. rewrite Hctx. destruct (decide (c' = found)) as [->|]; [rewrite lookup_insert_eq; intros [= <-]; apply left_ok|].
      rewrite lookup_insert_ne by done. destruct (decide (c' = c)) as [->|]; [rewrite lookup_insert_eq; intros [= <-]; apply heir_ok|].
      rewrite lookup_insert_ne by done. apply Hc.
    + by rewrite Hctx, moved_refs.
  - apply moved_subs_ok.
  - apply moved_leaves_ok.
  - by rewrite Hrefs, Hdm.
Qed.

Lemma moved_ok : broker_inv (Some c) dp.
Proof.
  pose proof (bi_tables _ _ Hinv) as Ht. unfold tables in Htab. injection Htab as Ei Es Ef Ec Eb.
  assert (Hopen : ∀ c', c' ∈ ll_for_free d → c' ≠ found).
  { intros c' Hc' ->. destruct (tb_free _ _ Ht found Hc') as (y & Hy & _ & Hid & _). congruence. }
  split; [apply moved_broker_ok| |].
  - set (dm := set_contexts <[c := heir]> d). rewrite Ef.
    assert (Htm : tables_ok (ll_for_free d) dm).
    { eapply (tables_ok_set (ll_for_free d) _ d dm c x heir); try done; [by left|by left|intros _ i Hi; change (id x = Some i) in Hi; congruence|by left|apply Ht|].
      intros c' Hc'. destruct (decide (c' = c)) as [->|]; [right|by left]. split; [done|].
      destruct (tb_free _ _ Ht c Hc') as (y & Hy & Hcl). assert (y = x) as -> by congruence. exact Hcl. }
    eapply (tables_ok_set (ll_for_free d) _ dm dp found f (quiet left_behind)); try done.
    + cbn. by rewrite lookup_insert_ne.
    + left. split; [done|]. by rewrite Es.
    + left. split; [done|]. by rewrite Ei.
    + congruence.
    + left. split; [done|]. by rewrite Ec.
    + apply Ht.
    + intros c' Hc'. left. auto.
  - intros c' y. rewrite Hctx. destruct (decide (c' = found)) as [->|].
    + rewrite lookup_insert_eq. intros [= <-]. apply (client_ok_same _ f); [by apply Hinv|by left|right].
      split_and!; try done. unfold idle. change (id (quiet left_behind)) with (id f). by rewrite Hidf.
    + rewrite lookup_insert_ne by done. destruct (decide (c' = c)) as [->|]; [|rewrite lookup_insert_ne by done; apply Hinv].
      rewrite lookup_insert_eq. intros [= <-]. destruct (bi_clients _ _ Hinv c x Hx) as [H1 H2 H3 H4 H5].
      rewrite bool_decide_eq_true_2 in * by done. by split.
Qed.
End inherit.

Lemma wp_upd c x g Q d : contexts d !! c = Some x → Q tt (set_contexts <[c := g x]> d) → wp (upd_context c g) Q d.
Proof. intros Hx HQ. unfold wp, upd_context. rewrite Hx. exact HQ. Qed.

Section run.
Context (E : env) (c found : ptr) (x f : mosquitto) (d : db) (cid : bytes).
Context (Hinv : broker_inv (Some c) d) (Hne : c ≠ found).
Context (Hx : contexts d !! c = Some x) (Hidx : id x = None) (Hfresh : fresh_client x).
Context (Hf : contexts d !! found = Some f) (Hidf : id f = Some cid).
Context (Hq : Forall (λ m, state m = mosq_ms_queued → direction m = mosq_md_out) (msgs f)).

(** The queue. *)
Lemma inherit_queue :
  wp (if bool_decide (msgs f = []) then ret tt
      else
        upd_context c (set_msgs (λ _, msgs f)) ;;;
        upd_context found (set_msgs (λ _, [])) ;;;
        on_cm c (mqtt3_db_message_reconnect_reset E) ;;; ret tt) (λ _ d',
    ∃ ctxs, d' = set_contexts (λ _, ctxs) d ∧
      ctxs = <[found := set_msgs (λ _, []) f]> (<[c := requeued (inherited_msgs E f) x]> (contexts d))) d.
Proof.
  pose proof (fresh_fields x Hidx Hfresh) as (F1 & F2 & F3 & F4 & _).
  assert (Hself : ∀ g, g = set_contexts (λ _, contexts g) g) by (by intros []).
  case_bool_decide as Hm.
  - apply wp_ret. exists (contexts d). split; [apply Hself|]. unfold inherited_msgs. rewrite Hm.
    assert (Hr : requeued (unqueue_first E (reset_msg <$> [])) x = x).
    { unfold unqueue_first. cbn. rewrite take_nil, drop_nil. destruct (max_inflight E =? 0); destruct x; cbn in *; by subst. }
    rewrite Hr. assert (set_msgs (λ _, []) f = f) as -> by (destruct f; cbn in *; by subst). by rewrite (insert_id _ c), insert_id.
  - apply wp_bind, (wp_upd c x); [done|]. apply wp_bind, (wp_upd found f); [cbn; by rewrite lookup_insert_ne|].
    set (d1 := set_contexts _ _). apply wp_bind.
    assert (Hx1 : contexts d1 !! c = Some (set_msgs (λ _, msgs f) x)) by (cbn; by rewrite lookup_insert_ne, lookup_insert_eq).
    pose proof (found_ok c found f d Hinv Hf) as Hfo.
    assert (Hin : Forall (λ m, direction m = mosq_md_in → qos m = 2) (msgs f)).
    { eapply Forall_impl; [apply (cx_msgs _ _ Hfo)|]. intros m (_ & ? & _). done. }
    destruct (wp_inv _ _ _ (reconnect_reset_exact E (CM (set_msgs (λ _, msgs f) x) (dmsg d1)) Hin)) as (rc & [y m] & Hrun & -> & Hd & Hfr & H1 & H2 & H3 & H4).
    cbn [ctx mdb] in *. unfold wp, on_cm. rewrite Hx1. cbn [mbind option_bind]. rewrite Hrun. cbn [mbind option_bind].
    destruct (inherited_fields E c found f d Hinv Hf Hq) as (I1 & _ & I3 & I4 & _).
    assert (Hy : y = requeued (inherited_msgs E f) x).
    { apply requeued_frame; [exact Hfr|exact H1|by rewrite I3|by rewrite I4|]. rewrite H4, <-fmap_last, I1, fmap_last.
      change (msgs (set_msgs (λ _, msgs f) x)) with (msgs f). destruct (last (msgs f)) eqn:Hl; [done|]. by apply last_None in Hl. }
    exists (<[found := set_msgs (λ _, []) f]> (<[c := y]> (contexts d))). rewrite Hy. split; [|done]. subst m y.
    unfold set_dmsg, set_contexts, d1. cbn. f_equal.
    rewrite (insert_insert_ne _ c found) by done. by rewrite insert_insert_eq.
Qed.

(** The whole session. *)
Lemma inherit_run :
  wp (inherit_session E c found) (λ _ d', contexts d' = <[found := left_behind f]> (<[c := heir E x f]> (contexts d)) ∧
    dmsg d' = dmsg d ∧ tables d' = tables d ∧ tree_ok (subs_children d') ∧ tree_refs (root d') = tree_refs (root d) ∧
    ∀ p, subs_of p (root d') = relink_leaf found c <$> subs_of p (root d)) d.
Proof.
  unfold inherit_session. apply wp_bind, (wp_get_context _ f); [done|]. apply wp_bind. eapply wp_mono; [apply inherit_queue|].
  intros [] d1 (ctxs & -> & Hc1). set (x1 := requeued (inherited_msgs E f) x) in *. set (f1 := set_msgs (λ _, []) f) in *.
  assert (L1 : ctxs !! c = Some x1) by (rewrite Hc1; by rewrite lookup_insert_ne, lookup_insert_eq).
  assert (L2 : ctxs !! found = Some f1) by (rewrite Hc1; by rewrite lookup_insert_eq).
  apply wp_bind, (wp_upd c x1); [done|]. apply wp_bind, (wp_upd found f1); [cbn; by rewrite lookup_insert_ne|].
  apply wp_bind, (wp_upd c (set_subs (λ _, subs f) x1)); [cbn; by rewrite lookup_insert_ne, lookup_insert_eq|].
  apply wp_bind, wp_get, wp_bind.
  destruct (relink_all d found c f (bi_ok _ _ Hinv) Hf) as (ch' & Hrun & Htree & Hrefs & Hsubs & _).
  eapply wp_lift; [exact Hrun|]. apply wp_modify. split_and!; [|done|done|exact Htree|exact Hrefs|exact Hsubs].
  cbn [contexts set_contexts set_subs_children]. rewrite Hc1. fold x1.
  change (set_last_mid (λ _, last_mid f) (set_subs (λ _, subs f) x1)) with (heir E x f).
  change (set_subs (λ _, []) f1) with (left_behind f).
  apply map_eq. intros c'. destruct (decide (c' = c)) as [->|]; [by rewrite lookup_insert_eq, lookup_insert_ne, lookup_insert_eq by done|].
  rewrite lookup_insert_ne by done. destruct (decide (c' = found)) as [->|]; [by rewrite !lookup_insert_eq|].
  by rewrite !lookup_insert_ne by done.
Qed.
End run.

(** ** Counters that belong to no queue *)

(** The broker with the counters of [c] put right. *)
Definition hushed (c : ptr) (d : db) : db := set_contexts (alter quiet c) d.

Section hushed.
Context (E : env) `{Access} (c : ptr).

(** [m] does the same when they are. *)
Definition deaf {A} (m : M db A) : Prop :=
  ∀ d, m (hushed c d) = match m d with Some (a, d') => Some (a, hushed c d') | None => None end.

Lemma deaf_ret {A} (a : A) : deaf (ret a).
Proof. done. Qed.
Lemma deaf_bind {A B} (m : M db A) (k : A → M db B) : deaf m → (∀ a, deaf (k a)) → deaf (bind m k).
Proof. intros Hm Hk d. unfold bind. rewrite Hm. destruct (m d) as [[a d']|]; [apply Hk|done]. Qed.
Lemma deaf_lift {A} (o : option A) : deaf (mlift o).
Proof. by destruct o. Qed.
Lemma deaf_assert b : deaf (massert b).
Proof. by destruct b. Qed.
Lemma deaf_modify g : (∀ d, g (hushed c d) = hushed c (g d)) → deaf (mmodify g).
Proof. intros Hg d. unfold mmodify. by rewrite Hg. Qed.
Lemma deaf_get {A} (k : db → M db A) : (∀ d s, k (hushed c d) s = k d s) → (∀ d, deaf (k d)) → deaf (bind mget k).
Proof. intros Hg Hk d. unfold bind, mget. rewrite Hg. apply Hk. Qed.
Lemma deaf_context {A} (k : mosquitto → M db A) : (∀ x s, k (quiet x) s = k x s) → (∀ x, deaf (k x)) → deaf (bind (get_context c) k).
Proof.
  intros Hg Hk d. unfold bind, get_context. cbn. rewrite lookup_alter_eq. destruct (contexts d !! c) as [x|]; [|done].
  cbn. rewrite Hg. apply Hk.
Qed.
Lemma deaf_upd g : (∀ x, quiet (g x) = g (quiet x)) → deaf (upd_context c g).
Proof.
  intros Hg d. unfold upd_context. cbn. rewrite lookup_alter_eq. destruct (contexts d !! c) as [x|] eqn:Hx; [|done].
  cbn. unfold hushed, set_contexts. cbn. do 3 f_equal. apply map_eq. intros c'. destruct (decide (c' = c)) as [->|].
  - by rewrite lookup_insert_eq, lookup_alter_eq, lookup_insert_eq, <-Hg.
  - by rewrite lookup_insert_ne, !lookup_alter_ne, lookup_insert_ne by done.
Qed.

(** Closing without a will. *)
Lemma close_deaf : deaf (_mosquitto_socket_close c).
Proof.
  apply deaf_context; [done|]. intros x. apply deaf_bind.
  - destruct (sock x); [|apply deaf_ret]. apply deaf_get; [done|]. intros d. apply deaf_bind; [apply deaf_assert|]. intros _.
    apply deaf_bind; [by apply deaf_modify|]. intros _. by apply deaf_upd.
  - intros _. destruct (listener x); [|apply deaf_ret]. apply deaf_get; [done|]. intros d. apply deaf_bind; [apply deaf_lift|]. intros k.
    apply deaf_bind; [apply deaf_assert|]. intros _. apply deaf_bind; [by apply deaf_modify|]. intros _. by apply deaf_upd.
Qed.

Definition quiet_disconnect : M db unit :=
  upd_context c (set_will (λ _, None)) ;;;
  upd_context c (set_disconnect_t (λ _, wall_clock E)) ;;;
  _mosquitto_socket_close c ;;;
  let* x := get_context c in
  (if clean_session x && bool_decide (c_bridge x = None)
   then mosquitto__add_context_to_disused c ;;; forget_id c
   else ret tt) ;;;
  upd_context c (set_cstate (λ _, mosq_cs_disconnected)).

Lemma quiet_disconnect_deaf : deaf quiet_disconnect.
Proof.
  unfold quiet_disconnect. apply deaf_bind; [by apply deaf_upd|]. intros _. apply deaf_bind; [by apply deaf_upd|]. intros _.
  apply deaf_bind; [apply close_deaf|]. intros _. apply deaf_context; [done|]. intros x.
  apply deaf_bind; [|intros _; by apply deaf_upd]. destruct (_ && _); [|apply deaf_ret].
  apply deaf_bind; [by apply deaf_modify|]. intros _. apply deaf_context; [done|]. intros y. destruct (id y); [|apply deaf_ret].
  apply deaf_get; [done|]. intros d. apply deaf_bind; [apply deaf_assert|]. intros _. apply deaf_bind; [by apply deaf_modify|].
  intros _. by apply deaf_upd.
Qed.

(** Other contexts and the tree are left alone. *)
Definition aside (d d' : db) : Prop :=
  subs_children d' = subs_children d ∧ ∀ c', c' ≠ c → contexts d' !! c' = contexts d !! c'.
Definition keeps_aside {A} (m : M db A) : Prop := ∀ d a d', m d = Some (a, d') → aside d d'.

Lemma aside_ret {A} (a : A) : keeps_aside (ret a).
Proof. by intros d b d' [= _ <-]. Qed.
Lemma aside_bind {A B} (m : M db A) (k : A → M db B) : keeps_aside m → (∀ a, keeps_aside (k a)) → keeps_aside (bind m k).
Proof.
  intros Hm Hk d b d2. unfold bind. destruct (m d) as [[a d1]|] eqn:Hrun; [|done]. intros Hrun2.
  destruct (Hm _ _ _ Hrun) as [T1 C1], (Hk _ _ _ _ Hrun2) as [T2 C2]. split; [congruence|]. intros c' Hc. by rewrite C2, C1.
Qed.
Lemma aside_get {A} (k : db → M db A) : (∀ d, keeps_aside (k d)) → keeps_aside (bind mget k).
Proof. intros Hk d b d' Hrun. unfold bind, mget in Hrun. exact (Hk d d b d' Hrun). Qed.
Lemma aside_context {A} (k : mosquitto → M db A) : (∀ x, keeps_aside (k x)) → keeps_aside (bind (get_context c) k).
Proof. intros Hk d b d'. unfold bind, get_context. destruct (contexts d !! c) as [x|]; [|done]. apply Hk. Qed.
Lemma aside_lift {A} (o : option A) : keeps_aside (mlift o).
Proof. intros d b d'. destruct o; [by intros [= _ <-]|done]. Qed.
Lemma aside_assert b : keeps_aside (massert b).
Proof. intros d a d'. destruct b; [by intros [= _ <-]|done]. Qed.
Lemma aside_modify g : (∀ d, subs_children (g d) = subs_children d ∧ contexts (g d) = contexts d) → keeps_aside (mmodify g).
Proof. intros Hg d b d' [= _ <-]. destruct (Hg d) as [H1 H2]. split; [done|]. by rewrite H2. Qed.
Lemma aside_upd g : keeps_aside (upd_context c g).
Proof.
  intros d b d'. unfold upd_context. destruct (contexts d !! c); [|done]. intros [= _ <-]. split; [done|]. intros c' Hc. cbn.
  by rewrite lookup_insert_ne.
Qed.

Lemma quiet_disconnect_aside : keeps_aside quiet_disconnect.
Proof.
  unfold quiet_disconnect. apply aside_bind; [apply aside_upd|]. intros _. apply aside_bind; [apply aside_upd|]. intros _.
  apply aside_bind.
  { apply aside_context. intros x. apply aside_bind.
    - destruct (sock x); [|apply aside_ret]. apply aside_get. intros d. apply aside_bind; [apply aside_assert|]. intros _.
      apply aside_bind; [by apply aside_modify|]. intros _. apply aside_upd.
    - intros _. destruct (listener x); [|apply aside_ret]. apply aside_get. intros d. apply aside_bind; [apply aside_lift|]. intros k.
      apply aside_bind; [apply aside_assert|]. intros _. apply aside_bind; [by apply aside_modify|]. intros _. apply aside_upd. }
  intros _. apply aside_context. intros x. apply aside_bind; [|intros _; apply aside_upd]. destruct (_ && _); [|apply aside_ret].
  apply aside_bind; [by apply aside_modify|]. intros _. apply aside_context. intros y. destruct (id y); [|apply aside_ret].
  apply aside_get. intros d. apply aside_bind; [apply aside_assert|]. intros _. apply aside_bind; [by apply aside_modify|].
  intros _. apply aside_upd.
Qed.

(** A context that is disconnecting sends no will. *)
Lemma do_disconnect_quiet x d :
  contexts d !! c = Some x → cstate x = mosq_cs_disconnecting → do_disconnect E c d = quiet_disconnect d.
Proof.
  intros Hx Hs. assert (Hw : mqtt3_context_send_will E c d = upd_context c (set_will (λ _, None)) d).
  { unfold mqtt3_context_send_will, bind, get_context. rewrite Hx. cbn [mbind option_bind].
    destruct (will x); [rewrite (bool_decide_eq_true_2 (cstate x = _)) by done|]; done. }
  unfold do_disconnect, quiet_disconnect, mqtt3_context_disconnect. unfold bind at 1, get_context at 1. rewrite Hx. cbn [mbind option_bind].
  rewrite bool_decide_eq_false_2 by (by rewrite Hs). unfold bind. rewrite Hw.
  destruct (upd_context c (set_will (λ _, None)) d) as [[[] d1]|]; [|done].
  destruct (upd_context c (set_disconnect_t (λ _, wall_clock E)) d1) as [[[] d2]|]; [|done]. by destruct (_mosquitto_socket_close c d2) as [[[] d3]|].
Qed.

(** Once the context has no id, its counters do not matter. *)
Lemma unhush busy x d :
  broker_inv busy (hushed c d) → contexts d !! c = Some x → id x = None → sock x = None → broker_inv busy d.
Proof.
  intros Hinv Hx Hid Hs. assert (Hc : contexts d = <[c := x]> (contexts (hushed c d))).
  { apply map_eq. intros c'. cbn. destruct (decide (c' = c)) as [->|]; [by rewrite lookup_insert_eq|].
    by rewrite lookup_insert_ne, lookup_alter_ne by done. }
  assert (Hxh : contexts (hushed c d) !! c = Some (quiet x)) by (cbn; by rewrite lookup_alter_eq, Hx).
  pose proof (bi_tables _ _ Hinv) as Ht. split.
  - eapply (broker_ok_set [] (hushed c d) d c (quiet x) x); try done; [apply Hinv|].
    destruct (co_ctx _ _ (db_core _ _ (bo_db _ _ (bi_ok _ _ Hinv))) c _ Hxh) as [_ H2 H3 H4 H5]. split; try done.
    rewrite Hid. by intros [? ?].
  - eapply (tables_ok_set _ _ (hushed c d) d c (quiet x) x); try done; [by left|by left|cbn; intros ? i Hi; congruence|by left|apply Ht|].
    intros c' Hc'. destruct (decide (c' = c)) as [->|]; [right|by left]. split; [done|].
    destruct (tb_free _ _ Ht c Hc') as (y & Hy & Hcl). rewrite Hxh in Hy. apply (inj Some) in Hy as <-. exact Hcl.
  - intros c' y. rewrite Hc. destruct (decide (c' = c)) as [->|]; [|rewrite lookup_insert_ne by done; apply Hinv].
    rewrite lookup_insert_eq. intros [= <-]. pose proof (bi_clients _ _ Hinv c _ Hxh) as Hcl.
    apply (client_ok_same _ (quiet x)); [done|by left|by left].
Qed.
End hushed.
