(* ===== verification/Connect.v ===== *)
(** * Connecting (src/read_handle_server.c, src/read_handle_client.c)

    CONNECT, from the first byte of the packet to the CONNACK, on a client that
    is not known yet: parsing, authentication, taking over from an older
    connection with the same id, and the entry in the table of clients. Then
    the dispatch of packets, their reading, and a round of the loop. *)

From stdpp Require Import base list numbers strings option sets gmap.
From Stdlib Require Import ZArith Lia.
From S2P Require Import Prelude Topic Packet State Store Send Messages Db Acl Subs DbInv Session Context Handlers Lifecycle Release Free Serve Resume.
Local Open Scope Z_scope.
Local Open Scope broker_scope.

(** The client [c] is about to become known. *)
Record joining (c : ptr) (x : mosquitto) (d : db) : Prop := {
  jo_handling : handling c x d;
  jo_id : id x = None;
}.

Lemma joining_ended c x d : joining c x d → ended c d.
Proof. intros [H _]. by eapply handling_ended. Qed.

(** A client that was not known has an empty queue. *)
Lemma idle_queue x : idle x = Some ([], None, 0, 0, []) → msgs x = [] ∧ subs x = [] ∧ queue_ok x.
Proof.
  unfold idle. destruct (id x); [done|]. intros [= Hm Hl Hc H12 Hs]. split_and!; [done|done|].
  split; rewrite ?Hl, ?Hm, ?Hc, ?H12; try done. apply NoDup_nil_2.
Qed.

Lemma queue_ok_qpart x y : qpart y = qpart x → queue_ok x → queue_ok y.
Proof.
  unfold qpart. intros Hq [H1 H2 H3 H4]. assert (Hm : msgs y = msgs x) by congruence.
  split; rewrite Hm; [rewrite <-H1|done|rewrite <-H3|rewrite <-H4]; congruence.
Qed.

(** The client is about to be known, with the messages of its session. *)
Record entering (c : ptr) (x : mosquitto) (d : db) : Prop := {
  en_inv : broker_inv (Some c) d;
  en_ctx : contexts d !! c = Some x;
  en_packet : packet_ok (c_in_packet x);
  en_client : c_bridge x = None;
  en_sock : is_Some (sock x);
  en_id : id x = None;
  en_queue : queue_ok x;
}.

Lemma handling_entering c x d : handling c x d → id x = None → entering c x d ∧ msgs x = [].
Proof. intros [? ? ? ? ? Hf] Hid. destruct (idle_queue x (Hf Hid)) as (? & _ & ?). by split. Qed.

Section join.
Context (E : env) (HE : env_ok E) `{Access} (c : ptr).

Lemma join_read {A} x d (r : reader A) (Q : A → Prop) :
  joining c x d → safe_reader Q r →
  safe c (read c r) (λ a d', Q a ∧ ∃ p', joining c (read_to p' x) d') d.
Proof.
  intros [Hh Hid] Hr. eapply safe_mono; [by apply (read_safe c x d r Q)|].
  intros a d' (p' & _ & HQ & _ & Hh' & ->). split; [done|]. by exists p'.
Qed.

(** The two outcomes of a read whose failure does not end the handler. *)
Lemma join_try {A} x d (r : reader A) (Q : A → Prop) :
  joining c x d → safe_reader Q r →
  wp (read c r) (λ o d', ∃ p', joining c (read_to p' x) d' ∧ match o with inr a => Q a | inl _ => True end) d.
Proof.
  intros [Hh Hid] Hr. eapply wp_mono; [by apply (read_ok c x d r Q)|].
  intros o d' (p' & _ & _ & Hh' & -> & Ho). exists p'. split; [|done]. by split.
Qed.

Lemma join_reply x d m :
  joining c x d → net_safe m →
  wp (on_context c m) (λ _ d', ∃ x', joining c x' d' ∧ conn x' = conn x) d.
Proof.
  intros [Hh Hid] Hm. eapply wp_mono; [by apply (reply_safe c x d)|].
  intros rc d' (x' & Hh' & Hcn & Hs). exists x'. split; [|done]. split; [done|].
  apply conn_fields in Hcn as (-> & _). done.
Qed.

Lemma refuse_ok {A} x d code rc (Q : A → db → Prop) : joining c x d → safe c (refuse E c code rc) Q d.
Proof.
  intros Hj. apply safe_try. eapply wp_mono; [by apply (join_reply x d), (emits_safe _ _ (send_connack_emits E 0 code))|].
  intros rc' d' (x' & Hj' & _). by eapply safe_fail, joining_ended.
Qed.

(** Fields that nothing depends on. *)
Lemma join_upd x d f :
  joining c x d → linked (f x) = linked x → face (f x) = face x → c_bridge (f x) = c_bridge x →
  wp (upd_context c f) (λ _ d', joining c (f x) d') d.
Proof.
  intros [[Hinv Hx Hp Hb Hk Hfr] Hid] Hl Hf Hbr. unfold face in Hf.
  eapply wp_mono; [apply (inv_upd (Some c) c x f); try done|].
  - apply (client_ok_same _ x); [by apply (bi_clients _ _ Hinv c)|left; congruence|right; split_and!; congruence].
  - unfold closed. intros (? & ? & ? & ? & ?). split_and!; congruence.
  - intros _ d' [Hinv' ->]. split; [split; [done|apply lookup_insert_eq|..]|congruence].
    + assert (c_in_packet (f x) = c_in_packet x) as -> by congruence. done.
    + congruence.
    + assert (sock (f x) = sock x) as -> by congruence. done.
    + unfold fresh_client. assert (idle (f x) = idle x) as -> by congruence. by assert (id (f x) = id x) as -> by congruence.
Qed.

(** ** Parsing *)

Lemma connect_protocol_ok x d :
  joining c x d → safe c (connect_protocol E c) (λ _ d', ∃ x', joining c x' d') d.
Proof.
  intros Hj. apply safe_bind, safe_or_1. eapply safe_mono; [apply (join_read x d); [done|apply read_string_safe]|].
  intros name d1 (_ & p1 & Hj1). apply safe_bind, safe_or_1.
  eapply safe_mono; [eapply (join_read _ d1 _ _ Hj1), read_byte_safe|]. intros v d2 (_ & p2 & Hj2).
  apply safe_bind. eapply safe_get; [apply Hj2|].
  assert (Hset : ∀ pr, safe c (let? _ := lift_m (upd_context c (set_protocol (λ _, pr))) in done_with v)
    (λ _ d', ∃ x', joining c x' d') d2).
  { intros pr. apply safe_bind, safe_lift. eapply wp_mono; [by apply (join_upd _ d2 _ Hj2)|].
    intros [] d3 Hj3. apply safe_done. eauto. }
  case_bool_decide; [destruct (negb _); [by eapply refuse_ok|apply Hset]|].
  case_bool_decide; [|by eapply safe_fail, joining_ended].
  destruct (negb _); [by eapply refuse_ok|]. destruct (negb _); [by eapply safe_fail, joining_ended|apply Hset].
Qed.

Lemma connect_id_ok rand x d clean :
  joining c x d → safe c (connect_id E rand c clean) (λ _ d', ∃ x', joining c x' d') d.
Proof.
  intros Hj. apply safe_bind, safe_or_1. eapply safe_mono; [apply (join_read x d); [done|apply read_string_safe]|].
  intros cid d1 (_ & p1 & Hj1). apply safe_bind. eapply safe_get; [apply Hj1|]. apply safe_bind.
  eapply (safe_mono _ _ (λ _ d', joining c (read_to p1 x) d')).
  - case_bool_decide; [|by apply safe_done]. case_bool_decide; [by eapply refuse_ok|].
    destruct (negb clean || _); [by eapply refuse_ok|by apply safe_done].
  - intros cid' d2 Hj2. destruct (clientid_prefixes E) as [p|]; [|apply safe_done; eauto].
    destruct (has_prefix p cid'); [apply safe_done; eauto|by eapply refuse_ok].
Qed.

Lemma will_qos_range flags : 0 ≤ Z.shiftr (Z.land flags 0x18) 3 ≤ 3.
Proof.
  rewrite Z.shiftr_div_pow2 by done. change (2 ^ 3) with 8.
  assert (0 ≤ Z.land flags 24 ≤ 31).
  { split; [apply Z.land_nonneg; lia|]. change 24 with (Z.land 24 31). rewrite Z.land_assoc.
    change 31 with (Z.ones 5) at 1. rewrite Z.land_ones by done. assert (Hm := Z.mod_pos_bound (Z.land flags 24) (2 ^ 5)).
    change (2 ^ 5) with 32 in Hm |- *. lia. }
  split; [apply Z.div_pos; lia|]. assert (Z.land flags 24 `div` 8 ≤ 31 `div` 8) by (apply Z.div_le_mono; lia).
  change (31 `div` 8) with 3 in *. lia.
Qed.

Definition will_valid (o : option message) : Prop := match o with Some w => will_ok w | None => True end.

Lemma connect_will_ok flags x d :
  joining c x d → Z.shiftr (Z.land flags 0x18) 3 ≠ 3 →
  safe c (connect_will E c flags) (λ w d', will_valid w ∧ ∃ x', joining c x' d') d.
Proof.
  intros Hj Hq3. pose proof (will_qos_range flags) as Hqr. unfold connect_will. cbv zeta. apply safe_bind.
  eapply safe_get; [apply Hj|]. destruct (negb _).
  2:{ destruct (_ && _); [by eapply safe_fail, joining_ended|]. apply safe_done. split; [done|eauto]. }
  apply safe_bind, safe_or_1. eapply safe_mono; [apply (join_read x d); [done|apply read_string_safe]|].
  intros topic d1 ([H0 Hlen] & p1 & Hj1). case_bool_decide; [by eapply safe_fail, joining_ended|].
  set (t := mounted E x topic).
  assert (Ht : 0 ∉ t ∧ slen t < SIZE_BOUND).
  { unfold t, SIZE_BOUND. destruct (mounted_cases E HE x topic) as [->|(mp & -> & ? & ? & ?)]; unfold slen in *.
    - split; [done|lia].
    - split; [set_solver|]. rewrite length_app. lia. }
  destruct (Z.eqb_spec (mosquitto_pub_topic_check t) MOSQ_ERR_SUCCESS) as [Hck|]; [|by eapply safe_fail, joining_ended].
  apply pub_topic_check_free in Hck. cbn [negb]. apply safe_bind, safe_or_1.
  eapply safe_mono; [eapply (join_read _ d1 _ _ Hj1), read_uint16_safe|]. intros len d2 (Hlr & p2 & Hj2).
  apply safe_bind. eapply (safe_mono _ _ (λ pl d', slen pl < SIZE_BOUND ∧ ∃ x', joining c x' d')).
  - destruct (0 <? len); [|apply safe_done; split; [done|eauto]]. apply safe_or_1.
    eapply safe_mono; [eapply (join_read _ d2 _ _ Hj2), read_bytes_safe; unfold MAX_BODY; lia|].
    intros pl d3 (Hpl & p3 & Hj3). split; [unfold slen, SIZE_BOUND; lia|eauto].
  - intros pl d3 (Hpl & x3 & Hj3). apply safe_done. split; [|eauto]. destruct Ht. split_and!; cbn; try done; lia.
Qed.

Lemma connect_login_ok flags x d :
  joining c x d → safe c (connect_login c flags) (λ _ d', ∃ x', joining c x' d') d.
Proof.
  intros Hj. apply safe_bind. eapply safe_get; [apply Hj|]. cbv zeta. destruct (negb _).
  2:{ destruct (_ && _); [by eapply safe_fail, joining_ended|]. apply safe_done. eauto. }
  apply safe_try. eapply wp_mono; [eapply (join_try x d _ _ Hj), read_string_safe|].
  intros [rc|user] d1 (p1 & Hj1 & _).
  { destruct (bool_decide _); [by eapply safe_fail, joining_ended|]. apply safe_done. eauto. }
  destruct (negb _); [|apply safe_done; eauto].
  apply safe_try. eapply wp_mono; [eapply (join_try _ d1 _ _ Hj1), read_string_safe|].
  intros [rc|pw] d2 (p2 & Hj2 & _); [|apply safe_done; eauto].
  destruct (bool_decide _); [by eapply safe_fail, joining_ended|]. apply safe_done. eauto.
Qed.

Lemma parse_connect_ok rand x d :
  joining c x d → safe c (parse_connect E rand c) (λ ci d', will_valid (ci_will ci) ∧ ∃ x', joining c x' d') d.
Proof.
  intros Hj. apply safe_bind. eapply safe_mono; [by apply (connect_protocol_ok x d)|].
  intros v d1 (x1 & Hj1). apply safe_bind, safe_or_1.
  eapply safe_mono; [eapply (join_read _ d1 _ _ Hj1), read_byte_safe|]. intros flags d2 (_ & p2 & Hj2).
  apply safe_bind. eapply safe_get; [apply Hj2|]. destruct (_ && _); [by eapply safe_fail, joining_ended|]. cbv zeta.
  destruct (Z.eqb_spec (Z.shiftr (Z.land flags 0x18) 3) 3) as [|Hq]; [by eapply safe_fail, joining_ended|].
  apply safe_bind, safe_or_1. eapply safe_mono; [eapply (join_read _ d2 _ _ Hj2), read_uint16_safe|].
  intros ka d3 (_ & p3 & Hj3). apply safe_bind, safe_lift.
  eapply wp_mono; [by apply (join_upd _ d3 (set_keepalive (λ _, ka)) Hj3)|]. intros [] d4 Hj4.
  apply safe_bind. eapply safe_mono; [by eapply (connect_id_ok rand)|]. intros cid d5 (x5 & Hj5).
  apply safe_bind. eapply safe_mono; [by eapply (connect_will_ok flags)|]. intros w d6 (Hw & x6 & Hj6).
  apply safe_bind. eapply safe_mono; [by eapply (connect_login_ok flags)|]. intros [u pw] d7 (x7 & Hj7).
  apply safe_done. eauto.
Qed.

(** ** Authentication *)

Lemma authenticate_ok peer ci x d :
  joining c x d → safe c (authenticate E peer c ci) (λ _ d', ∃ x', joining c x' d') d.
Proof.
  intros Hj. unfold authenticate. destruct peer as [[name|]|].
  - apply safe_lift. eapply wp_mono; [by apply (join_upd x d _ Hj)|]. intros [] d' ?. eauto.
  - by eapply refuse_ok.
  - destruct (ci_user ci) as [user|].
    2:{ destruct (allow_anonymous E); [apply safe_done; eauto|by eapply refuse_ok]. }
    cbv zeta. destruct (_ =? MOSQ_ERR_SUCCESS).
    { apply safe_lift. eapply wp_mono; [by apply (join_upd x d _ Hj)|]. intros [] d' ?. eauto. }
    apply safe_bind. eapply (safe_mono _ _ (λ _ d', ∃ x', joining c x' d')).
    { destruct (_ =? MOSQ_ERR_AUTH); [|apply safe_done; eauto]. apply safe_lift.
      eapply wp_mono; [apply (join_reply x d), (emits_safe _ _ (send_connack_emits E 0 _)); done|].
      intros rc d' (x' & ? & _). eauto. }
    intros rc d1 (x1 & Hj1). apply safe_bind, safe_lift.
    eapply wp_mono; [apply (context_disconnect_ok E (Some c) c x1); apply Hj1|].
    intros [] d2 (Hinv2 & (x2 & Hx2 & Hg2) & _). apply safe_fail. split; [done|]. exists x2. split; [done|].
    apply conn_fields in Hg2 as (_ & _ & -> & _). by intros [? ?].
Qed.

Lemma effective_id_ok cid x d :
  joining c x d → safe c (effective_id E c cid) (λ _ d', ∃ x', joining c x' d') d.
Proof.
  intros Hj. apply safe_bind. eapply safe_get; [apply Hj|]. destruct (use_username E x); [|apply safe_done; eauto].
  destruct (username x); [apply safe_done; eauto|by eapply refuse_ok].
Qed.

(** ** Taking over *)

(** A client id is of one context. *)
Lemma unique_client free d i c1 c2 x1 x2 :
  tables_ok free d → contexts d !! c1 = Some x1 → id x1 = Some i → contexts d !! c2 = Some x2 → id x2 = Some i → c1 = c2.
Proof.
  intros [_ [Ht _] _ _ _ _ Hu] H1 I1 H2 I2.
  assert (L1 : (i, c1) ∈ contexts_by_id d) by (apply Ht; eauto).
  assert (L2 : (i, c2) ∈ contexts_by_id d) by (apply Ht; eauto).
  apply list_elem_of_lookup in L1 as [j1 J1]. apply list_elem_of_lookup in L2 as [j2 J2].
  assert (j1 = j2) as ->; [|congruence].
  eapply (NoDup_lookup _ _ _ i Hu); rewrite list_lookup_fmap; [by rewrite J1|by rewrite J2].
Qed.

Lemma find_client_Some cid d found :
  broker_inv (Some c) d → find_client cid d = Some found → ∃ f, contexts d !! found = Some f ∧ id f = Some cid.
Proof.
  intros Hinv Hf. unfold find_client in Hf. destruct (list_find _ _) as [[i [k p]]|] eqn:Hl; [|done].
  cbn in Hf. injection Hf as <-. apply list_find_Some in Hl as (Hi & Hk & _). cbn in Hk. subst k.
  apply (tb_id _ _ (bi_tables _ _ Hinv)). by eapply list_elem_of_lookup_2.
Qed.

Lemma find_client_None cid d : find_client cid d = None → cid ∉ (contexts_by_id d).*1.
Proof.
  unfold find_client. destruct (list_find _ _) as [[? ?]|] eqn:Hl; [done|]. intros _.
  apply list_find_None in Hl. rewrite Forall_forall in Hl. intros ([k p] & -> & Hin)%list_elem_of_fmap. by eapply Hl.
Qed.

(** When the only context with an id lost it, nobody has it. *)
Lemma forgotten cid found f f' d d' :
  broker_inv (Some c) d → broker_inv (Some c) d' → contexts d !! found = Some f → id f = Some cid →
  contexts d' !! found = Some f' → id f' = None →
  (∀ c', c' ≠ found → tie <$> contexts d' !! c' = tie <$> contexts d !! c') → cid ∉ (contexts_by_id d').*1.
Proof.
  intros Hinv Hinv' Hf Hi Hf' Hi' Ho ([k c'] & -> & Hin)%list_elem_of_fmap. cbn in *.
  apply (tb_id _ _ (bi_tables _ _ Hinv')) in Hin as (y & Hy & Hyi).
  destruct (decide (c' = found)) as [->|Hne]; [congruence|]. specialize (Ho c' Hne). rewrite Hy in Ho.
  destruct (contexts d !! c') as [y0|] eqn:Hy0; [|done]. apply (inj Some) in Ho. apply Hne.
  eapply (unique_client _ d k); [apply (bi_tables _ _ Hinv)|exact Hy0| |exact Hf|exact Hi].
  unfold tie, conn in Ho. congruence.
Qed.

Lemma handling_tie x d d' :
  handling c x d → broker_inv (Some c) d' → tie <$> contexts d' !! c = tie <$> contexts d !! c →
  ∃ x', handling c x' d' ∧ conn x' = conn x.
Proof.
  intros [Hinv Hx Hp Hb Hk Hf] Hinv' Ht. rewrite Hx in Ht. destruct (contexts d' !! c) as [x'|] eqn:Hx'; [|done].
  apply (inj Some) in Ht. assert (Hcn : conn x' = conn x) by (unfold tie in Ht; congruence). exists x'. split; [|done].
  pose proof (fresh_conn _ _ Hcn Hf). apply conn_fields in Hcn as (_ & _ & Ek & _ & _ & _ & Ep & _ & _ & Eb & _).
  split; [done|done|by rewrite Ep| |by rewrite Ek|done]. rewrite Hb in Eb. by destruct (c_bridge x').
Qed.

Lemma entering_tie x d d' :
  entering c x d → broker_inv (Some c) d' → tie <$> contexts d' !! c = tie <$> contexts d !! c → ∃ x', entering c x' d'.
Proof.
  intros [Hinv Hx Hp Hb Hk Hid Hq] Hinv' Ht. rewrite Hx in Ht. destruct (contexts d' !! c) as [x'|] eqn:Hx'; [|done].
  apply (inj Some) in Ht. assert (Hcn : conn x' = conn x) by (unfold tie in Ht; congruence). exists x'.
  apply conn_fields in Hcn as (Ei & [_ Eq] & Ek & _ & _ & _ & Ep & _ & _ & Eb & _).
  split; [done|done|by rewrite Ep|rewrite Hb in Eb; by destruct (c_bridge x')|by rewrite Ek|congruence|].
  unfold idle in Eq. rewrite Ei, Hid in Eq. injection Eq as E1 E2 E3 E4 _. destruct Hq as [Q1 Q2 Q3 Q4]. split; congruence.
Qed.

(** The older connection is closed, and its id is free. *)
Lemma leave_ok cid x found f d :
  joining c x d → found ≠ c → contexts d !! found = Some f → id f = Some cid → c_bridge f = None →
  wp (upd_context found (λ y, set_cstate (λ _, mosq_cs_disconnecting) (set_clean_session (λ _, true) y)) ;;; do_disconnect E found)
    (λ _ d', ∃ x', entering c x' d' ∧ cid ∉ (contexts_by_id d').*1) d.
Proof.
  intros [Hh Hid] Hne Hf Hfid Hfb. pose proof (ha_inv _ _ _ Hh) as Hinv.
  apply wp_bind. eapply wp_mono; [apply (inv_upd (Some c) found f); try done|].
  - apply client_ok_state; [|change (is_Some (id f)); by rewrite Hfid|done..]. destruct (bi_clients _ _ Hinv found f Hf). by split.
  - intros (_ & Hi & _). congruence.
  - intros [] d2 [Hinv2 ->]. set (f2 := set_cstate _ _) in *.
    assert (Hen : entering c x (set_contexts <[found := f2]> d)).
    { destruct (handling_entering c x d Hh Hid) as [[_ Hx ? ? ? ? ?] _]. split; try done. cbn. by rewrite lookup_insert_ne. }
    eapply wp_mono; [apply (do_disconnect_ok E (Some c) found f2); [done|apply lookup_insert_eq]|].
    intros [] d3 (Hinv3 & (f3 & Hf3 & _ & _ & Hcl3) & Ho3). destruct (Hcl3 ltac:(done)) as (_ & _ & Hfr).
    destruct (entering_tie _ _ _ Hen Hinv3 (Ho3 c ltac:(done))) as (x3 & Hen3). exists x3. split; [done|].
    apply (forgotten cid found f2 f3 _ d3 Hinv2 Hinv3); try done; [apply lookup_insert_eq|by apply Hfr].
Qed.

(** The same for a context whose session was inherited. *)
Lemma leave_resumed_ok cid x found f d :
  entering c x (hushed found d) → found ≠ c → contexts d !! found = Some f → id f = Some cid → c_bridge f = None →
  wp (upd_context found (λ y, set_cstate (λ _, mosq_cs_disconnecting) (set_clean_session (λ _, true) y)) ;;; do_disconnect E found)
    (λ _ d', entering c x d' ∧ cid ∉ (contexts_by_id d').*1 ∧ subs_children d' = subs_children d ∧ found ∈ ll_for_free d') d.
Proof.
  intros Hen Hne Hf Hfid Hfb. pose proof (en_inv _ _ _ Hen) as Hinv. set (g := λ y : mosquitto, set_cstate _ _).
  assert (Hfh : contexts (hushed found d) !! found = Some (quiet f)) by (cbn; by rewrite lookup_alter_eq, Hf).
  apply wp_bind, (wp_upd found f); [done|]. set (d2 := set_contexts <[found := g f]> d).
  assert (Hinv2 : broker_inv (Some c) (hushed found d2)).
  { assert (Hupd : wp (upd_context found g) (λ _ d', broker_inv (Some c) d') (hushed found d)).
    { eapply wp_mono; [apply (inv_upd (Some c) found (quiet f) g); try done|by intros [] d' [? _]].
      - apply client_ok_state; [|change (is_Some (id f)); by rewrite Hfid|done..].
        destruct (bi_clients _ _ Hinv found _ Hfh). by split.
      - intros (_ & Hi & _). change (id f = None) in Hi. congruence. }
    unfold wp in Hupd. rewrite (deaf_upd found g) in Hupd by done. unfold upd_context in Hupd. rewrite Hf in Hupd. exact Hupd. }
  assert (Hf2 : contexts d2 !! found = Some (g f)) by apply lookup_insert_eq.
  assert (Hfh2 : contexts (hushed found d2) !! found = Some (quiet (g f))) by (cbn; by rewrite lookup_alter_eq, lookup_insert_eq).
  destruct (wp_inv _ _ _ (do_disconnect_ok E (Some c) found _ _ Hinv2 Hfh2)) as ([] & dr & Hrun & Hinvr & (fr & Hfr & _ & _ & Hcl) & Ho).
  rewrite (do_disconnect_quiet E found _ _ Hfh2 eq_refl), (quiet_disconnect_deaf E found) in Hrun.
  unfold wp. rewrite (do_disconnect_quiet E found _ _ Hf2 eq_refl). destruct (quiet_disconnect E found d2) as [[[] d3]|] eqn:Hq; [|done].
  injection Hrun as <-. destruct (Hcl ltac:(done)) as (Hs & _ & Hgone). destruct (Hgone eq_refl Hfb) as [Hfree Hgid].
  cbn in Hfr. rewrite lookup_alter_eq in Hfr. destruct (contexts d3 !! found) as [f3|] eqn:Hf3; [|done]. apply (inj Some) in Hfr as <-.
  pose proof (unhush found (Some c) f3 d3 Hinvr Hf3 Hgid Hs) as Hinv3.
  assert (Hen2 : entering c x (hushed found d2)).
  { destruct Hen as [_ Hx ? ? ? ? ?]. split; try done. cbn in Hx |- *. rewrite lookup_alter_ne in Hx by done. by rewrite lookup_alter_ne, lookup_insert_ne. }
  destruct (quiet_disconnect_aside E found _ _ _ Hq) as [Htr Hoth]. split; [|split; [|split; [exact Htr|exact Hfree]]].
  { destruct Hen2 as [_ Hx2 ? ? ? ? ?]. split; try done. rewrite Hoth by done. cbn in Hx2. by rewrite lookup_alter_ne in Hx2. }
  apply (forgotten cid found (quiet (g f)) (quiet f3) _ (hushed found d3) Hinv2 Hinvr Hfh2); try done.
  cbn. by rewrite lookup_alter_eq, Hf3.
Qed.

(** A session is inherited, and the context that had it is left. *)
Lemma inherit_ok cid x found f d :
  joining c x d → found ≠ c → contexts d !! found = Some f → id f = Some cid → c_bridge f = None →
  Forall (λ m, state m = mosq_ms_queued → direction m = mosq_md_out) (msgs f) →
  wp (inherit_session E c found) (λ _, wp
    (upd_context found (λ y, set_cstate (λ _, mosq_cs_disconnecting) (set_clean_session (λ _, true) y)) ;;; do_disconnect E found)
    (λ _ d', entering c (heir E x f) d' ∧ cid ∉ (contexts_by_id d').*1 ∧ found ∈ ll_for_free d' ∧
       ∀ p, subs_of p (root d') = relink_leaf found c <$> subs_of p (root d))) d.
Proof.
  intros [[Hinv Hx Hp Hb Hk Hfr] Hid] Hne Hf Hfid Hfb Hq. pose proof (not_eq_sym Hne) as Hne'.
  eapply wp_mono; [by apply (inherit_run E c found x f d cid)|].
  intros [] d2 (Hctx & Hdm & Htab & Htree & Hrefs & Hsubs).
  assert (Hch : contexts (hushed found d2) = <[found := quiet (left_behind f)]> (<[c := heir E x f]> (contexts d))).
  { cbn. rewrite Hctx. apply map_eq. intros c'. destruct (decide (c' = found)) as [->|].
    - by rewrite lookup_alter_eq, !lookup_insert_eq.
    - by rewrite lookup_alter_ne, !(lookup_insert_ne _ found) by done. }
  eapply wp_mono; [apply (leave_resumed_ok cid (heir E x f) found (left_behind f)); try done; [|by rewrite Hctx, lookup_insert_eq]|].
  - split; try done.
    + by apply (moved_ok E c found x f d cid Hinv Hne' Hx Hid Hfr Hf Hfid Hq (hushed found d2) Hch).
    + rewrite Hch, lookup_insert_ne by done. apply lookup_insert_eq.
    + by apply (heir_queue E c found x f d cid Hinv Hf Hfid Hq).
  - intros [] d3 (Hen & Hnew & Htr & Hfree). split_and!; try done. intros p. unfold root. rewrite Htr. apply Hsubs.
Qed.

(** The session that a CONNECT finds is not a bridge's, and none of its
    incoming messages is queued, if it is resumed. *)
Definition session_ok (clean : bool) (cid : bytes) (d : db) : Prop :=
  match find_client cid d ≫= (contexts d !!.) with
  | None => True
  | Some f => c_bridge f = None ∧ (clean = false → clean_session f = false →
      Forall (λ m, state m = mosq_ms_queued → direction m = mosq_md_out) (msgs f))
  end.

(** What taking over does when it finds a session. *)
Lemma take_over_found cid clean x found f d (Q : db → Prop) :
  joining c x d → find_client cid d = Some found → contexts d !! found = Some f →
  (∀ d1, d1 = set_contexts <[c := set_clean_session (λ _, clean) x]> d → joining c (set_clean_session (λ _, clean) x) d1 →
     contexts d1 !! found = Some f →
     wp (if negb clean && negb (clean_session f) then inherit_session E c found else ret tt) (λ _, wp
       (upd_context found (λ y, set_cstate (λ _, mosq_cs_disconnecting) (set_clean_session (λ _, true) y)) ;;; do_disconnect E found)
       (λ _, Q)) d1) →
  wp (take_over E c cid clean) (λ ack d', ack = (if bool_decide (protocol x = mosq_p_mqtt311) && negb clean then 1 else 0) ∧ Q d') d.
Proof.
  intros Hj Hf Hfd Hrest. pose proof Hj as [Hh Hid]. unfold take_over. apply wp_bind, wp_get. rewrite Hf.
  destruct (find_client_Some _ _ _ (ha_inv _ _ _ Hh) Hf) as (f' & Hfd' & Hfid). assert (f' = f) as -> by congruence.
  assert (Hne : found ≠ c) by (intros ->; pose proof (ha_ctx _ _ _ Hh); congruence).
  apply wp_bind, (wp_get_context _ x); [apply Hh|]. apply wp_bind, (wp_get_context _ f); [done|]. apply wp_bind, (wp_upd c x); [apply Hh|].
  set (d1 := set_contexts _ _). assert (Hj1 : joining c (set_clean_session (λ _, clean) x) d1).
  { pose proof (wp_inv _ _ _ (join_upd x d (set_clean_session (λ _, clean)) Hj eq_refl eq_refl eq_refl)) as (a & d' & Hrun & Hj').
    unfold upd_context in Hrun. rewrite (ha_ctx _ _ _ Hh) in Hrun. cbn [mbind option_bind] in Hrun. by injection Hrun as _ <-. }
  apply wp_bind. eapply wp_mono; [apply (Hrest d1 eq_refl Hj1); cbn; by rewrite lookup_insert_ne|].
  intros [] d2 Hw. apply wp_inv in Hw as ([] & d' & Hrun & HQ). unfold wp, bind, ret in *.
  destruct (upd_context _ _ d2) as [[[] d3]|]; [|done]. by rewrite Hrun.
Qed.

Lemma take_over_ok cid clean x d :
  joining c x d → session_ok clean cid d →
  wp (take_over E c cid clean) (λ _ d', ∃ x', entering c x' d' ∧ cid ∉ (contexts_by_id d').*1) d.
Proof.
  intros Hj Hso. pose proof Hj as [Hh Hid]. unfold session_ok in Hso. destruct (find_client cid d) as [found|] eqn:Hf.
  2:{ unfold take_over. apply wp_bind, wp_get. rewrite Hf. apply wp_ret. exists x.
      split; [by apply handling_entering|by apply find_client_None]. }
  destruct (find_client_Some _ _ _ (ha_inv _ _ _ Hh) Hf) as (f & Hfd & Hfid). cbn [mbind option_bind] in Hso. rewrite Hfd in Hso.
  destruct Hso as [Hfb Hq]. assert (Hne : found ≠ c) by (intros ->; pose proof (ha_ctx _ _ _ Hh); congruence).
  eapply wp_mono; [eapply (take_over_found cid clean x found f d (λ d', ∃ x', entering c x' d' ∧ cid ∉ (contexts_by_id d').*1)); try done|by intros ack d' [_ ?]].
  intros d1 _ Hj1 Hf1. destruct (negb clean && negb (clean_session f)) eqn:Hres; [|apply wp_ret; by eapply leave_ok].
  apply andb_prop in Hres as [Hcl%negb_true_iff Hcf%negb_true_iff].
  eapply wp_mono; [apply (inherit_ok cid _ found f d1 Hj1 Hne Hf1 Hfid Hfb (Hq Hcl Hcf))|].
  intros [] d2 Hw. eapply wp_mono; [exact Hw|]. intros [] d3 (? & ? & _). eauto.
Qed.
End join.

(** ** Becoming known *)

Definition connected_as `{Access} (ci : connect_info) (cid : bytes) (x : mosquitto) : mosquitto :=
  set_cstate (λ _, mosq_cs_connected) (accepted ci cid x).

Lemma accepted_fields `{Access} ci cid x :
  id (accepted ci cid x) = Some cid ∧ qpart (accepted ci cid x) = qpart x ∧ subs (accepted ci cid x) = subs x ∧
  sock (accepted ci cid x) = sock x ∧ listener (accepted ci cid x) = listener x ∧
  c_in_packet (accepted ci cid x) = c_in_packet x ∧ c_bridge (accepted ci cid x) = c_bridge x ∧
  will (accepted ci cid x) = match ci_will ci with Some w => Some w | None => will x end.
Proof. unfold accepted. destruct (ci_will ci), (Z.land (ci_version ci) 0x80 =? 0x80); by split_and!. Qed.

Section finish.
Context (E : env) `{Access} (c : ptr).

Lemma known_ok ci cid x d :
  entering c x d → cid ∉ (contexts_by_id d).*1 → will_valid (ci_will ci) →
  handling c (connected_as ci cid x)
    (set_contexts <[c := connected_as ci cid x]> (set_by_id (λ l, l ++ [(cid, c)]) d)).
Proof.
  intros [Hinv Hx Hp Hb Hk Hid Hq] Hnew Hw. set (x' := connected_as ci cid x). set (d' := set_contexts _ _).
  destruct (accepted_fields ci cid x) as (Ei & Eq & Es & Ek & El & Ep & Eb & Ew).
  pose proof (bi_clients _ _ Hinv c x Hx) as [Hwill _ _ _ _]. pose proof (bi_ok _ _ Hinv) as Hok.
  assert (Hqp : qpart x' = qpart x) by exact Eq.
  split; [|apply lookup_insert_eq|by change (packet_ok (c_in_packet (accepted ci cid x))); rewrite Ep
    |by change (c_bridge (accepted ci cid x) = None); rewrite Eb|by change (is_Some (sock (accepted ci cid x))); rewrite Ek
    |apply fresh_known; change (is_Some (id (accepted ci cid x))); by rewrite Ei].
  split.
  - eapply (broker_ok_set [] d d' c x x'); try done; [|unfold qpart in Hqp; congruence].
    destruct (co_ctx _ _ (db_core _ _ (bo_db _ _ Hok)) c x Hx) as [_ Hms Hfr Ho Hbr]. unfold qpart in Hqp.
    assert (Hmm : msgs x' = msgs x) by congruence. split; rewrite ?Hmm; try done.
    + intros _. by eapply queue_ok_qpart.
    + unfold outq_ok in *. assert (out_packet x' = out_packet x) as -> by congruence.
      by assert (current_out_packet x' = current_out_packet x) as -> by congruence.
    + unfold bridge_ok in *. by change (c_bridge x') with (c_bridge (accepted ci cid x)); rewrite Eb.
  - eapply (tables_ok_set _ _ d d' c x x'); try done; [apply Hinv|left|right; right| |left|apply (bi_tables _ _ Hinv)|].
    + split; [exact Ek|done].
    + split; [done|]. exists cid. split; [exact Ei|done].
    + intros _ i Hi. change (id (accepted ci cid x) = Some i) in Hi. congruence.
    + split; [exact El|done].
    + intros c' Hc'. destruct (decide (c' = c)) as [->|]; [|by left]. exfalso.
      destruct (tb_free _ _ (bi_tables _ _ Hinv) c Hc') as (y & Hy & _ & _ & Hs & _). rewrite Hx in Hy. injection Hy as <-.
      rewrite Hs in Hk. by destruct Hk.
  - intros c' y. cbn [contexts d' set_contexts set_by_id]. destruct (decide (c' = c)) as [->|].
    + rewrite lookup_insert_eq. intros [= <-]. split.
      * change (will x') with (will (accepted ci cid x)). rewrite Ew. intros w Hww.
        destruct (ci_will ci) as [w'|]; [|by apply Hwill]. injection Hww as <-. exact Hw.
      * by rewrite bool_decide_eq_true_2.
      * change (id x') with (id (accepted ci cid x)). by rewrite Ei.
      * change (id x') with (id (accepted ci cid x)). by rewrite Ei.
      * done.
    + rewrite lookup_insert_ne by done. apply Hinv.
Qed.

(** The client may have a message of its queue. *)
Definition may_read (y : mosquitto) (d : db) (m : client_msg) : bool :=
  match direction m with
  | mosq_md_in => true
  | mosq_md_out =>
      match heap (dmsg d) !! cm_store m ≫= ms_topic with
      | Some t => acl_check y t MOSQ_ACL_READ =? MOSQ_ERR_SUCCESS
      | None => false
      end
  end.

(** Then the loop over the queue drops nothing. *)
Lemma acl_filter_none n i y d :
  contexts d !! c = Some y → Forall (λ m, may_read y d m = true) (msgs y) → (length (msgs y) - i ≤ n)%nat →
  acl_filter n c i d = Some (tt, d).
Proof.
  intros Hy Hall. revert i. induction n as [|n IH]; intros i Hn; cbn [acl_filter]; unfold bind at 1, get_context; rewrite Hy;
    cbn [mbind option_bind]; destruct (msgs y !! i) as [m|] eqn:Hm; try done.
  - apply lookup_lt_Some in Hm. lia.
  - rewrite Forall_forall in Hall. specialize (Hall m (list_elem_of_lookup_2 _ _ _ Hm)). unfold may_read in Hall.
    destruct (direction m); [apply IH; lia|]. unfold bind at 1, mget, deref_store. unfold bind at 1.
    destruct (heap (dmsg d) !! cm_store m) as [st|]; [|done]. cbn [mlift]. unfold ret at 1. cbn [mbind option_bind] in Hall.
    destruct (ms_topic st) as [t|]; [|done]. rewrite Hall. apply IH. lia.
Qed.

Lemma finish_connect_ok ci cid ack x d :
  entering c x d → Forall (λ m, may_read (accepted ci cid x) d m = true) (msgs x) → cid ∉ (contexts_by_id d).*1 → will_valid (ci_will ci) →
  wp (finish_connect E c ci cid ack) (λ _ d', ended c d') d.
Proof.
  intros Hh Hm Hnew Hw. pose proof (known_ok ci cid x d Hh Hnew Hw) as Hk. set (x' := connected_as ci cid x) in *.
  assert (Hm' : msgs (accepted ci cid x) = msgs x).
  { destruct (accepted_fields ci cid x) as (_ & Eq & _). unfold qpart in Eq. congruence. }
  unfold finish_connect. apply wp_bind. unfold wp at 1, upd_context. rewrite (en_ctx _ _ _ Hh). cbn [mbind option_bind].
  apply wp_bind. eapply wp_get_context; [apply lookup_insert_eq|]. apply wp_bind. unfold wp at 1.
  rewrite (acl_filter_none _ 0 (accepted ci cid x)); [|apply lookup_insert_eq|by rewrite Hm'|lia].
  apply wp_bind, wp_modify. set (d1 := set_by_id _ _).
  apply wp_bind. eapply (wp_mono _ (λ _ d', wp (upd_context c (set_cstate (λ _, mosq_cs_connected)))
    (λ _ d'', ∃ y, handling c y d'') d')).
  - set (d2 := set_contexts <[c := x']> (set_by_id (λ l, l ++ [(cid, c)]) d)) in *.
    assert (Hd1 : contexts d1 = <[c := accepted ci cid x]> (contexts d)) by done.
    destruct (ci_clean ci).
    + apply wp_ret. unfold wp, upd_context. rewrite Hd1, lookup_insert_eq. cbn [mbind option_bind].
      exists x'. replace (set_contexts _ d1) with d2; [done|]. unfold d2, d1, set_contexts. cbn. by rewrite insert_insert_eq.
    + destruct (wp_inv _ _ _ (changed_ok c x' d2 Hk)) as ([] & d3 & Hrun & Hh3).
      unfold changed, on_store, mmodify in Hrun |- *. cbn [mbind option_bind] in Hrun. injection Hrun as <-.
      unfold wp, upd_context. cbn [mbind option_bind contexts set_dmsg]. rewrite Hd1, lookup_insert_eq. cbn [mbind option_bind].
      replace (set_contexts _ _) with (set_dmsg (λ _, set_persistence_changes (persistence_changes (dmsg d2) + 1) (dmsg d2)) d2);
        [exact Hh3|]. unfold d2, d1, set_contexts, set_dmsg. cbn. by rewrite insert_insert_eq.
  - intros [] d2 Hd2. apply wp_bind. eapply wp_mono; [exact Hd2|]. intros [] d3 (y & Hy).
    eapply wp_mono; [by apply (reply_safe c y), (emits_safe _ _ (send_connack_emits E ack CONNACK_ACCEPTED))|].
    intros rc d4 (z & Hz & _). by eapply handling_ended.
Qed.
End finish.

Section dispatch.
Context (E : env) (HE : env_ok E) `{Access} (rand : nat → Z) (peer : option (option bytes)) (c : ptr).

(** A CONNECT up to the search for a session. *)
Definition connect_front : M db (Z + connect_info * bytes) :=
  let? ci := parse_connect E rand c in
  let? _ := authenticate E peer c ci in
  let? cid := effective_id E c (ci_id ci) in
  done_with (ci, cid).

(** A session that it resumes has no queued incoming messages, and only
    messages that the client may read. *)
Definition resume_ok (ci : connect_info) (cid : bytes) (d : db) : Prop :=
  session_ok (ci_clean ci) cid d ∧
  match take_over E c cid (ci_clean ci) d with
  | Some (_, d') =>
      match contexts d' !! c with
      | Some x => Forall (λ m, may_read (accepted ci cid x) d' m = true) (msgs x)
      | None => True
      end
  | None => True
  end.

(** What the handlers take for granted of the packet: the first one of a client
    is a CONNECT (the reader sees to it), the session that a CONNECT resumes is
    as above, and with QoS 1 no refused message is pending. *)
Record request_ok (x : mosquitto) (d : db) : Prop := {
  rq_first : cstate x = mosq_cs_new → Z.land (command (c_in_packet x)) 0xF0 = CONNECT;
  rq_connect ci cid d1 : cstate x = mosq_cs_new → connect_front d = Some (inr (ci, cid), d1) → resume_ok ci cid d1;
  rq_publish : Z.land (command (c_in_packet x)) 0xF0 = PUBLISH → header_qos (c_in_packet x) = 1 → no_refused x d;
}.

Lemma handle_connect_ok x d :
  handling c x d → request_ok x d → wp (mqtt3_handle_connect E rand peer c) (λ _ d', ended c d') d.
Proof.
  intros Hh [_ Hrq _]. apply returns_safe, safe_bind, (safe_get c x); [apply Hh|].
  case_bool_decide as Hst; [|by eapply safe_fail, handling_ended]. cbn [negb].
  assert (Hid : id x = None).
  { apply (bi_clients _ _ (ha_inv _ _ _ Hh) c x (ha_ctx _ _ _ Hh)); [apply Hh|apply Hh|done]. }
  assert (Hj : joining c x d) by (by split).
  assert (Hfront : safe c connect_front (λ '(ci, cid) d', will_valid (ci_will ci) ∧ ∃ x', joining c x' d') d).
  { apply safe_bind. eapply safe_mono; [by apply (parse_connect_ok E HE c rand x d)|]. intros ci d1 (Hw & x1 & Hj1).
    apply safe_bind. eapply safe_mono; [by apply (authenticate_ok E c peer ci x1 d1)|]. intros [] d2 (x2 & Hj2).
    apply safe_bind. eapply safe_mono; [by apply (effective_id_ok E c (ci_id ci) x2 d2)|]. intros cid d3 (x3 & Hj3).
    apply safe_done. eauto. }
  assert (Hback : ∀ (k : connect_info → bytes → M db (Z + Z)) Q, safe c (let? (ci, cid) := connect_front in k ci cid) Q d →
    safe c (let? ci := parse_connect E rand c in let? _ := authenticate E peer c ci in
      let? cid := effective_id E c (ci_id ci) in k ci cid) Q d).
  { intros k Q. unfold safe, wp, connect_front, ebind, bind. destruct (parse_connect E rand c d) as [[[rc|ci] d1]|]; [done| |done].
    destruct (authenticate E peer c ci d1) as [[[rc|[]] d2]|]; [done| |done].
    by destruct (effective_id E c (ci_id ci) d2) as [[[rc|cid] d3]|]. }
  apply Hback, safe_bind. destruct (wp_inv _ _ _ Hfront) as ([rc|[ci cid]] & d3 & Hrun & Hp).
  { unfold safe, wp. by rewrite Hrun. }
  destruct (Hrq ci cid d3 Hst Hrun) as [Hso Hread]. destruct Hp as (Hw & x3 & Hj3). unfold safe at 1, wp. rewrite Hrun.
  apply safe_bind, safe_lift. destruct (wp_inv _ _ _ (take_over_ok E c cid (ci_clean ci) x3 d3 Hj3 Hso)) as (ack & d4 & Hto & x4 & Hen & Hnew4).
  unfold wp at 1. rewrite Hto in Hread |- *. rewrite (en_ctx _ _ _ Hen) in Hread. apply safe_lift. by eapply finish_connect_ok.
Qed.

Lemma handle_connack_ok x d :
  handling c x d → is_Some (id x) → wp (mqtt3_handle_connack E c) (λ _ d', ended c d') d.
Proof.
  intros Hh Hid. apply returns_safe, safe_bind, safe_or_1.
  eapply safe_mono; [apply (read_safe c x d); [done|apply read_byte_safe]|]. intros b d1 (p1 & _ & _ & _ & Hh1 & _).
  apply safe_bind, safe_or_1. eapply safe_mono; [apply (read_safe c (read_to p1 x) d1); [done|apply read_byte_safe]|].
  intros rc d2 (p2 & _ & _ & _ & Hh2 & _). set (x2 := read_to p2 _) in *.
  change (is_Some (id x2)) in Hid. clearbody x2.
  apply safe_bind, (safe_get c x2); [apply Hh2|]. pose proof Hh2 as [Hinv2 Hx2 Hp2 Hb2 Hk2 Hf2].
  assert (Hnc : closed x2 → False) by (intros (_ & _ & Hs & _); rewrite Hs in Hk2; by destruct Hk2).
  destruct (rc =? CONNACK_ACCEPTED).
  - apply safe_bind. rewrite Hb2. apply safe_done, safe_bind, safe_lift.
    eapply wp_mono; [apply (inv_upd (Some c) c x2); try done|].
    + apply client_ok_state; [by apply (bi_clients _ _ Hinv2 c)|done..].
    + intros [] d3 [Hinv3 ->]. apply safe_done. split; [done|]. eexists. split; [apply lookup_insert_eq|]. intros _.
      by apply fresh_known.
  - destruct (rc =? CONNACK_REFUSED_PROTOCOL_VERSION); [|by eapply safe_fail, handling_ended].
    assert (Hsb : ∀ g, set_bridge (fmap g) x2 = x2) by (intros g; destruct x2; cbn in *; by subst).
    apply safe_bind, safe_lift. eapply wp_mono; [apply (inv_upd (Some c) c x2); rewrite ?Hsb; try done|].
    + by apply (bi_clients _ _ Hinv2 c).
    + intros [] d3 [Hinv3 ->]. apply safe_fail. split; [done|]. eexists. split; [apply lookup_insert_eq|]. intros _.
      by apply fresh_known.
Qed.

Lemma packet_handle_ok x d :
  handling c x d → request_ok x d → wp (mqtt3_packet_handle E rand peer c) (λ _ d', ended c d') d.
Proof.
  intros Hh Hrq. unfold mqtt3_packet_handle. apply wp_bind, (wp_get_context _ x); [apply Hh|]. cbv zeta.
  destruct (decide (cstate x = mosq_cs_new)) as [Hn|Hn].
  { rewrite (rq_first _ _ Hrq Hn). cbn -[mqtt3_handle_connect]. by eapply handle_connect_ok. }
  assert (Hid : is_Some (id x)).
  { destruct (id x) as [i|] eqn:Hi; [by eexists|]. destruct Hn.
    apply (bi_clients _ _ (ha_inv _ _ _ Hh) c x (ha_ctx _ _ _ Hh)); [apply Hh|apply Hh|done]. }
  destruct (_ =? PINGREQ); [by eapply handle_pingreq_ok|].
  destruct (_ =? PINGRESP); [by eapply handle_pingresp_ok|].
  destruct (_ =? PUBACK); [by eapply handle_pubackcomp_ok|].
  destruct (_ =? PUBCOMP); [by eapply handle_pubackcomp_ok|].
  destruct (Z.eqb_spec (Z.land (command (c_in_packet x)) 0xF0) PUBLISH) as [Hpub|];
    [eapply handle_publish_ok; [done|done|done|by apply Hrq]|].
  destruct (_ =? PUBREC); [by eapply handle_pubrec_ok|].
  destruct (_ =? PUBREL); [by eapply handle_pubrel_ok|].
  destruct (_ =? CONNECT); [by eapply handle_connect_ok|].
  destruct (_ =? DISCONNECT); [by eapply handle_disconnect_ok|].
  destruct (_ =? SUBSCRIBE); [by eapply handle_subscribe_ok|].
  destruct (_ =? UNSUBSCRIBE); [by eapply handle_unsubscribe_ok|].
  destruct (_ =? CONNACK); [by eapply handle_connack_ok|].
  destruct (_ =? SUBACK); [by eapply handle_suback_ok|].
  destruct (_ =? UNSUBACK); [by eapply handle_unsuback_ok|].
  by eapply wp_ret, handling_ended.
Qed.
End dispatch.
