(* ===== verification/Broker.v ===== *)
(** * The main loop (src/net.c, src/loop.c, lib/net_mosq.c)

    Accepting a connection, reading and writing its socket, the passes of the
    main loop over the contexts, and the freeing of contexts: each keeps the
    invariant of the running broker, whatever the peer sent. *)

From stdpp Require Import base list numbers strings option sets gmap.
From Stdlib Require Import ZArith Lia.
From S2P Require Import Prelude Topic Packet State Store Send Messages Db Acl Subs DbInv Session Context Handlers Lifecycle Release Free Serve Connect.
Local Open Scope Z_scope.
Local Open Scope broker_scope.

(** ** Accepting a connection *)

Lemma new_context_fields E s :
  msgs (new_context E s) = [] ∧ subs (new_context E s) = [] ∧ ∀ d, ctx_ok d (new_context E s).
Proof.
  split_and!; [done|done|]. intros d. split; try done; try (by constructor).
  intros _. split; try done. apply NoDup_nil_2.
Qed.

(** No leaf is of a context that does not exist. *)
Lemma dead_leaf d c p : broker_ok [] d → contexts d !! c = None → has_leaf c (subs_of p (root d)) = false.
Proof.
  intros [[_ Hsubs _ _] _] Hc. apply bool_decide_eq_false. intros (lf & -> & Hlf)%list_elem_of_fmap.
  pose proof (so_live d Hsubs p) as Hl. unfold live in Hl. rewrite Forall_forall in Hl.
  destruct (Hl lf Hlf) as [y Hy]. congruence.
Qed.

(** A new context enters a table, if it has a key. *)
Lemma table_add {K} (f : mosquitto → option K) m t c x :
  table_ok f m t → m !! c = None →
  table_ok f (<[c := x]> m) (t ++ option_list ((λ k, (k, c)) <$> f x)).
Proof.
  intros [H1 H2] Hc. assert (Hnew : c ∉ t.*2).
  { intros ([k c'] & -> & Hin)%list_elem_of_fmap. apply H1 in Hin as (y & Hy & _). cbn in *. congruence. }
  split.
  - intros k c'. rewrite elem_of_app, H1. destruct (decide (c' = c)) as [->|Hne].
    + rewrite lookup_insert_eq, Hc. destruct (f x) as [k'|] eqn:Hf; cbn; rewrite ?list_elem_of_singleton, ?elem_of_nil; naive_solver.
    + rewrite lookup_insert_ne by done. destruct (f x) as [k'|]; cbn; rewrite ?list_elem_of_singleton, ?elem_of_nil; naive_solver.
  - rewrite fmap_app. apply NoDup_app. split; [done|]. destruct (f x); cbn; [|split; [by intros ? _ ?%elem_of_nil|apply NoDup_nil_2]].
    split; [|apply NoDup_singleton]. by intros p Hp ->%list_elem_of_singleton.
Qed.

(** A context without messages and subscriptions joins the broker. *)
Lemma add_context_ok busy c x d d' :
  broker_inv busy d → contexts d !! c = None → msgs x = [] → subs x = [] → ctx_ok (dmsg d) x → listener x = None →
  client_ok (bool_decide (busy = Some c)) x → (∀ i, id x = Some i → i ∉ (contexts_by_id d).*1) →
  d' = set_by_id (λ l, l ++ option_list ((λ i, (i, c)) <$> id x)) (set_by_sock (λ l, l ++ option_list ((λ s, (s, c)) <$> sock x))
         (set_contexts <[c := x]> d)) →
  broker_inv busy d'.
Proof.
  intros [Hok Ht Hcl] Hc Hm Hs Hx Hli Hclx Hnew ->. set (d' := set_by_id _ _). pose proof (dead_leaf d c) as Hdead.
  pose proof Hok as [[[Hco Hst] [Htr Hl Ho] Hlv Hr] Hsl].
  assert (Hcd : contexts d' = <[c := x]> (contexts d)) by done.
  assert (Hdom : ∀ c', is_Some (contexts d !! c') → is_Some (contexts d' !! c')).
  { intros c'. rewrite Hcd, lookup_insert_is_Some'. auto. }
  split.
  - split; [split; [split|split|..]|]; try done.
    + intros c' y. rewrite Hcd. destruct (decide (c' = c)) as [->|].
      * rewrite lookup_insert_eq. by intros [= <-].
      * rewrite lookup_insert_ne by done. apply Hco.
    + rewrite Hcd, ctx_refs_insert, (delete_id _ _ Hc), Hm. exact Hst.
    + intros p. eapply Forall_impl; [apply Hl|]. intros lf. apply Hdom.
    + eapply Forall_impl; [exact Hlv|]. intros lf [? ?]. split; [by apply Hdom|done].
    + intros c' y. rewrite Hcd. destruct (decide (c' = c)) as [->|].
      * rewrite lookup_insert_eq. intros [= <-]. rewrite Hs. split; [apply NoDup_nil_2|]. intros p. rewrite Hdead by done.
        split; [|done]. by intros ?%elem_of_nil.
      * rewrite lookup_insert_ne by done. apply Hsl.
  - destruct Ht as [H1 H3 H5 H6 H7 H8 H9]. split; rewrite ?Hcd; try done.
    + by apply table_add.
    + by apply table_add.
    + intros c' Hc'. destruct (H6 c' Hc') as (y & Hy & ?). exists y. split; [|done]. rewrite lookup_insert_ne; [done|congruence].
    + intros l n Hn. rewrite (H7 l n Hn). unfold count_listener. rewrite fmap_insert.
      rewrite (map_to_list_insert _ c (listener x)) by (by rewrite lookup_fmap, Hc).
      by rewrite Hli, fmap_cons, filter_cons_False.
    + intros c' y l. destruct (decide (c' = c)) as [->|].
      * rewrite lookup_insert_eq. intros [= <-]. by rewrite Hli.
      * rewrite lookup_insert_ne by done. apply H8.
    + cbn. rewrite fmap_app. apply NoDup_app. split; [done|]. destruct (id x) as [i|]; cbn; [|split; [by intros ? _ ?%elem_of_nil|apply NoDup_nil_2]].
      split; [|apply NoDup_singleton]. intros k Hk ->%list_elem_of_singleton. by eapply Hnew.
  - intros c' y. rewrite Hcd. destruct (decide (c' = c)) as [->|].
    + rewrite lookup_insert_eq. by intros [= <-].
    + rewrite lookup_insert_ne by done. apply Hcl.
Qed.

Lemma new_context_ok E busy c fd d :
  broker_inv busy d → contexts d !! c = None →
  broker_inv busy (set_by_sock (λ l, l ++ [(fd, c)]) (set_contexts <[c := new_context E (Some fd)]> d)).
Proof.
  intros Hinv Hc. destruct (new_context_fields E (Some fd)) as (Hm & Hs & Hx).
  apply (add_context_ok busy c (new_context E (Some fd)) d); try done.
  - split; try done. intros _ _. split; [apply reader_inv_cleanup|]. intros _ _. by left.
  - unfold set_by_id. cbn. by rewrite app_nil_r.
Qed.

(** A listening socket is of one listener. *)
Definition sole (listensock : Z) (socks : list (list Z)) : Prop :=
  (length (filter (λ s, listensock ∈ s) socks) ≤ 1)%nat.

Lemma sole_tail ls s socks : sole ls (s :: socks) → sole ls socks ∧ (ls ∈ s → Forall (λ s', ls ∉ s') socks).
Proof.
  unfold sole. rewrite filter_cons. destruct (decide (ls ∈ s)) as [Hin|Hin]; cbn [length]; intros Hl; [|by split].
  split; [lia|]. intros _. apply Forall_forall. intros s' Hs' Hls.
  assert (s' ∈ filter (λ s, ls ∈ s) socks) as Hf by (by apply list_elem_of_filter).
  destruct (filter _ socks); [by apply not_elem_of_nil in Hf|]. cbn in Hl. lia.
Qed.

Section accept.
Context (E : env) `{Access} (c : ptr).

Lemma assign_none ls socks i d (Q : unit → db → Prop) :
  Forall (λ s, ls ∉ s) socks → Q tt d → wp (assign_listener c ls socks i) Q d.
Proof.
  intros Hs HQ. revert i. induction Hs as [|s socks Hn _ IH]; intros i; cbn [assign_listener]; [by apply wp_ret|].
  rewrite bool_decide_eq_false_2 by done. apply wp_bind, wp_ret, IH.
Qed.

Lemma assign_listener_ok ls socks i x d :
  broker_inv None d → contexts d !! c = Some x → listener x = None → is_Some (sock x) →
  (i + length socks ≤ length (client_counts d))%nat → sole ls socks →
  wp (assign_listener c ls socks i) (λ _ d', broker_inv None d' ∧ length (client_counts d') = length (client_counts d) ∧
    ∃ o, contexts d' !! c = Some (set_listener (λ _, o) x)) d.
Proof.
  revert i d. induction socks as [|s socks IH]; intros i d Hinv Hx Hl Hk Hlen Hsole; cbn [assign_listener].
  { apply wp_ret. split_and!; [done|done|]. exists None. rewrite Hx. f_equal. destruct x. cbn in *. by subst. }
  apply sole_tail in Hsole as [Hsole Hrest]. cbn [length] in Hlen.
  case_bool_decide as Hin; [|apply wp_bind, wp_ret, IH; try done; lia].
  apply wp_bind, wp_bind. unfold wp at 1, upd_context. rewrite Hx. cbn [mbind option_bind].
  apply wp_bind, wp_get, wp_bind. destruct (lookup_lt_is_Some_2 (client_counts d) i) as [n Hn]; [lia|].
  eapply wp_lift; [exact Hn|]. apply wp_modify. set (x' := set_listener (λ _, Some i) x). set (d' := set_client_counts _ _).
  apply assign_none; [by apply Hrest|]. split_and!.
  - eapply (inv_light None c x x'); [done|done|]. split; try done; try by left.
    + right. right. split; [done|]. by exists i, n.
    + apply (client_ok_same _ x); [by apply (bi_clients _ _ Hinv c)|by left|by right].
    + eapply free_light; [done|done|done|]. intros Hf. exfalso.
      destruct (tb_free _ _ (bi_tables _ _ Hinv) c Hf) as (y & Hy & _ & _ & Hs & _). rewrite Hx in Hy. injection Hy as <-.
      rewrite Hs in Hk. by destruct Hk.
  - cbn. by rewrite length_insert.
  - exists (Some i). cbn. by rewrite lookup_insert_eq.
Qed.

(** A new context is freed at once. *)
Lemma cleanup_new_ok x d :
  broker_inv None d → contexts d !! c = Some x →
  (id x, username x, password x, will x, c_bridge x, cstate x) = (None, None, None, None, None, mosq_cs_new) →
  wp (mqtt3_context_cleanup E c true) (λ _ d', broker_inv None d' ∧ contexts d' !! c = None) d.
Proof.
  intros Hinv Hx Hnew. injection Hnew as Hi Hu Hp Hw Hb Hst. unfold mqtt3_context_cleanup.
  apply wp_bind, wp_bind, (wp_get_context _ x); [done|]. rewrite Hb. apply wp_bind. unfold wp at 1, upd_context. rewrite Hx.
  cbn [mbind option_bind]. assert (set_password (λ _, None) (set_username (λ _, None) x) = x) as -> by (destruct x; cbn in *; by subst).
  assert (set_contexts <[c := x]> d = d) as -> by (unfold set_contexts; rewrite insert_id by done; by destruct d).
  apply wp_ret, wp_bind. eapply wp_mono; [by apply (socket_close_ok None c x)|].
  intros [] d1 (Hinv1 & Hc1 & _). assert (Hx1 : contexts d1 !! c = Some (closed_sock x)) by (by rewrite Hc1, lookup_insert_eq).
  eapply wp_mono; [apply (cleanup_rest E None (ll_for_free d1) c (closed_sock x) d1); [done|done| |done]|].
  - intros Hf. destruct (tb_free _ _ (bi_tables _ _ Hinv1) c Hf) as (y & Hy & Hcs & _). rewrite Hx1 in Hy.
    injection Hy as <-. change (cstate x = mosq_cs_disconnected) in Hcs. congruence.
  - intros _ d2 (Hinv2 & Hc2 & Hf2). rewrite Hf2. split; [done|]. by rewrite Hc2, lookup_delete_eq.
Qed.

(** The context [c], if it is there: it counts, within the limit. *)
Definition admitted (maxc : list Z) (d : db) : Prop :=
  ∀ x, contexts d !! c = Some x → ∃ l n m, listener x = Some l ∧ client_counts d !! l = Some n ∧
    maxc !! l = Some m ∧ (0 < m → n ≤ m).

Lemma socket_accept_ok socks maxc ls fd nonblock addr d :
  broker_inv None d → contexts d !! c = None → sole ls socks →
  length socks = length (client_counts d) → length maxc = length (client_counts d) →
  wp (mqtt3_socket_accept E socks maxc ls fd nonblock c addr) (λ rc d', broker_inv None d' ∧ admitted maxc d' ∧
    (is_Some (contexts d' !! c) → fd = Some rc)) d.
Proof.
  intros Hinv Hc Hsole Hl1 Hl2. unfold mqtt3_socket_accept.
  assert (Hnone : ∀ d' (rc : Z), broker_inv None d' → contexts d' !! c = None →
    broker_inv None d' ∧ admitted maxc d' ∧ (is_Some (contexts d' !! c) → fd = Some rc)).
  { intros d' rc ? Hn. unfold admitted. rewrite Hn. split_and!; [done|done|by intros [? ?]]. }
  destruct fd as [s|]; [|apply wp_ret; auto].
  destruct nonblock; [|apply wp_ret; auto]. cbn [negb]. apply wp_bind. unfold mqtt3_context_init.
  apply wp_bind, wp_get, wp_bind, wp_assert; [by apply bool_decide_eq_true|].
  destruct addr; [|apply wp_ret, wp_ret; auto]. apply wp_bind, wp_modify, wp_bind, wp_modify, wp_ret.
  set (x := new_context E (Some s)). set (d1 := set_by_sock _ _).
  assert (Hinv1 : broker_inv None d1) by (by apply new_context_ok).
  assert (Hx1 : contexts d1 !! c = Some x) by apply lookup_insert_eq.
  apply wp_bind. eapply wp_mono; [apply (assign_listener_ok ls socks 0 x d1); try done; cbn; lia|].
  intros [] d2 (Hinv2 & Hlen2 & o & Hx2). apply wp_bind, (wp_get_context _ (set_listener (λ _, o) x)); [done|].
  change (listener (set_listener (λ _, o) x)) with o.
  assert (Hclean : ∀ rc : Z, wp (mqtt3_context_cleanup E c true ;;; ret rc) (λ rc d', broker_inv None d' ∧ admitted maxc d' ∧
    (is_Some (contexts d' !! c) → Some s = Some rc)) d2).
  { intros rc. apply wp_bind. eapply wp_mono; [by eapply cleanup_new_ok|]. intros [] d3 [? ?]. apply wp_ret. auto. }
  destruct o as [l|]; [|apply Hclean]. apply wp_bind, wp_get, wp_bind.
  assert (Hll : (l < length (client_counts d2))%nat) by (by eapply (tb_listener _ _ (bi_tables _ _ Hinv2) c)).
  change (client_counts d1) with (client_counts d) in Hlen2.
  destruct (lookup_lt_is_Some_2 (client_counts d2) l) as [n Hn]; [done|]. eapply wp_lift; [exact Hn|]. apply wp_bind.
  destruct (lookup_lt_is_Some_2 maxc l) as [m Hm]; [lia|]. eapply wp_lift; [exact Hm|].
  destruct ((0 <? m) && (m <? n)) eqn:Hlim; [apply Hclean|]. apply wp_ret. split_and!; [done| |done].
  intros y Hy. rewrite Hx2 in Hy. injection Hy as <-. exists l, n, m. split_and!; try done. intros Hpos.
  apply andb_false_iff in Hlim as [?%Z.ltb_ge|?%Z.ltb_ge]; lia.
Qed.
End accept.

(** ** Reading a packet *)

(** What the phases after the first byte do with the command: nothing. *)
Definition keeps_command (f : phase) : Prop :=
  ∀ ci r ci', f ci = Some (r, ci') → command (in_packet ci') = command (in_packet ci).

Lemma then_keeps f g : keeps_command f → keeps_command g → keeps_command (then_phase f g).
Proof.
  intros Hf Hg ci r ci' Hrun. unfold then_phase in Hrun. destruct (f ci) as [[[rc|] ci1]|] eqn:Hfc; [| |done]; cbn [mbind option_bind] in Hrun.
  - injection Hrun as _ <-. by eapply Hf.
  - etrans; [by eapply Hg|by eapply Hf].
Qed.

Lemma digits_keeps n : keeps_command (read_digits n).
Proof.
  induction n as [|n IH]; intros ci r ci' Hrun; cbn [read_digits] in Hrun; [done|].
  destruct (_mosquitto_net_read 1 (input ci)) as [[[|b [|? ?]]| |e] i]; try done; try by injection Hrun as _ <-.
  destruct (_ <? -4); [by injection Hrun as _ <-|]. destruct (negb _); [|by injection Hrun as _ <-].
  by apply IH in Hrun.
Qed.

Lemma remaining_keeps : keeps_command read_remaining.
Proof.
  intros ci r ci' Hrun. unfold read_remaining in Hrun. destruct (_ <=? 0); [|by injection Hrun as _ <-].
  revert Hrun. apply then_keeps; [apply digits_keeps|]. intros c1 r1 c2 Hrun. unfold alloc_payload in Hrun.
  injection Hrun as _ <-. cbn [in_packet set_in]. by destruct (0 <? _).
Qed.

Lemma payload_keeps now n : keeps_command (read_payload now n).
Proof.
  induction n as [|n IH]; intros ci r ci' Hrun; cbn [read_payload] in Hrun.
  - destruct (0 <? _); [done|]. by injection Hrun as _ <-.
  - destruct (0 <? _); [|by injection Hrun as _ <-].
    destruct (_mosquitto_net_read _ _) as [[bs| |[]] i]; try by injection Hrun as _ <-.
    destruct (payload (in_packet ci)); [|done]. cbn [mbind option_bind] in Hrun.
    destruct (_ <=? _)%nat; [|done]. by apply IH in Hrun.
Qed.

(** The first packet of a client is a CONNECT. *)
Lemma fill_first now ci r ci' :
  first_command (in_packet ci) → packet_fill true now ci = Some (r, ci') →
  match r with
  | None => Z.land (command (in_packet ci')) 0xF0 = CONNECT
  | Some rc => rc = MOSQ_ERR_SUCCESS → first_command (in_packet ci')
  end.
Proof.
  intros Hf Hrun. unfold packet_fill, then_phase at 1 in Hrun.
  destruct (read_command true ci) as [[r1 c1]|] eqn:Hcmd; [|done]. cbn [mbind option_bind] in Hrun.
  assert (Hc1 : match r1 with None => Z.land (command (in_packet c1)) 0xF0 = CONNECT
                | Some rc => rc = MOSQ_ERR_SUCCESS → first_command (in_packet c1) end).
  { unfold read_command in Hcmd. destruct (Z.eqb_spec (command (in_packet ci)) 0) as [H0|H0].
    - destruct (_mosquitto_net_read 1 (input ci)) as [[[|b [|? ?]]| |e] i]; try done;
        try (injection Hcmd as <- <-; intros _; by left).
      cbn [andb] in Hcmd. destruct (Z.eqb_spec (Z.land b 0xF0) CONNECT); by injection Hcmd as <- <-.
    - injection Hcmd as <- <-. by destruct Hf. }
  destruct r1 as [rc|]; [by injection Hrun as <- <-|].
  assert (Hk : command (in_packet ci') = command (in_packet c1)).
  { revert Hrun. apply then_keeps; [apply remaining_keeps|]. intros c2 r2 c3. apply then_keeps; [apply payload_keeps|].
    intros c4 r4 c5 [= _ <-]. done. }
  destruct r as [rc|]; [intros _; right|]; by rewrite Hk.
Qed.

(** Any other first byte is refused. *)
Lemma fill_refused now ci b bs i :
  command (in_packet ci) = 0 → input ci = InData (b :: bs) :: i → Z.land b 0xF0 ≠ CONNECT →
  ∃ ci', packet_fill true now ci = Some (Some MOSQ_ERR_PROTOCOL, ci').
Proof.
  intros H0 Hi Hb. unfold packet_fill, then_phase at 1, read_command. rewrite H0, Hi. cbn.
  apply Z.eqb_neq in Hb as ->. by eexists.
Qed.

Lemma client_ok_busy b x : client_ok false x → client_ok b x.
Proof. intros [? Hp Hi ? ?]. split; try done; intros _; [by apply Hp|by apply Hi]. Qed.

Lemma busy_on c d : broker_inv None d → broker_inv (Some c) d.
Proof. intros [Hok Ht Hcl]. split; [done|done|]. intros c' x Hx. apply client_ok_busy. exact (Hcl c' x Hx). Qed.

Lemma busy_off c x d :
  broker_inv (Some c) d → contexts d !! c = Some x → client_ok false x → broker_inv None d.
Proof.
  intros [Hok Ht Hcl] Hx Hc. split; [done|done|]. intros c' y Hy. destruct (decide (c' = c)) as [->|Hne].
  - rewrite Hx in Hy. by injection Hy as <-.
  - specialize (Hcl c' y Hy). by rewrite bool_decide_eq_false_2 in Hcl by congruence.
Qed.

(** The connection is closed: nothing of the packet matters any more. *)
Lemma closed_off c x d :
  broker_inv (Some c) d → contexts d !! c = Some x → sock x = None → broker_inv None d.
Proof.
  intros Hinv Hx Hs. apply (busy_off c x); [done|done|]. destruct (bi_clients _ _ Hinv c x Hx) as [? _ ? ? ?].
  split; try done; rewrite Hs; by intros _ [? ?].
Qed.

Lemma disconnect_off E `{Access} busy c x d :
  broker_inv busy d → busy = None ∨ busy = Some c → contexts d !! c = Some x →
  wp (do_disconnect E c) (λ _ d', broker_inv None d' ∧
    (∃ x', contexts d' !! c = Some x' ∧ sock x' = None ∧ cstate x' = mosq_cs_disconnected) ∧
    ∀ c', c' ≠ c → tie <$> contexts d' !! c' = tie <$> contexts d !! c') d.
Proof.
  intros Hinv Hb Hx. eapply wp_mono; [by apply (do_disconnect_ok E busy)|].
  intros [] d' (Hinv' & (x' & Hx' & Hcs & _) & Ho).
  assert (Hs : sock x' = None) by (by eapply (cl_gone _ x' (bi_clients _ _ Hinv' c x' Hx'))).
  split; [|split; [by exists x'|done]]. destruct Hb as [->| ->]; [done|]. by eapply closed_off.
Qed.

(** A new value of fields that nothing else depends on. *)
Lemma inv_set busy c x x' d :
  broker_inv busy d → contexts d !! c = Some x → linked x' = linked x →
  client_ok (bool_decide (busy = Some c)) x' → (closed x → closed x') →
  broker_inv busy (set_contexts <[c := x']> d).
Proof.
  intros Hinv Hx Hl Hcl Hcs. pose proof (inv_upd busy c x (λ _, x') d Hinv Hx Hl Hcl Hcs) as Hu.
  unfold wp, upd_context in Hu. rewrite Hx in Hu. by destruct Hu.
Qed.

Section reading.
Context (E : env) (HE : env_ok E) `{Access} (rand : nat → Z) (peer : option (option bytes)) (c : ptr).

Definition filled (x x' : mosquitto) : Prop :=
  ∃ t i p, x' = set_last_msg_in (λ _, t) (set_rd (λ _, i) (set_in_packet (λ _, p) x)).

Lemma filled_inv busy x x' d :
  broker_inv busy d → contexts d !! c = Some x → filled x x' →
  client_ok (bool_decide (busy = Some c)) x' → broker_inv busy (set_contexts <[c := x']> d).
Proof.
  intros Hinv Hx (t & i & p & ->) Hcl. by apply (inv_set busy c x).
Qed.

(** Filling the packet. *)
Lemma fill_ok x d :
  broker_inv None d → contexts d !! c = Some x → is_Some (sock x) → c_bridge x = None →
  wp (on_context c (fill_packet E)) (λ r d', ∃ x', contexts d' !! c = Some x' ∧ filled x x' ∧
    d' = set_contexts <[c := x']> d ∧
    match r with
    | None => handling c x' d' ∧ (cstate x' = mosq_cs_new → Z.land (command (c_in_packet x')) 0xF0 = CONNECT)
    | Some rc => broker_inv (Some c) d' ∧ (rc = MOSQ_ERR_SUCCESS → broker_inv None d')
    end) d.
Proof.
  intros Hinv Hx Hs Hb. eapply wp_on_context; [done|].
  pose proof (bi_clients _ _ Hinv c x Hx) as Hcl. change (client_ok false x) in Hcl.
  destruct Hcl as [Hw Hp Hi Hn Hg]. destruct (Hp eq_refl Hs) as [Hri Hfc]. specialize (Hfc Hb).
  unfold wp, fill_packet. set (fc := bool_decide _ && _). set (ci := ConnIn _ _ _).
  destruct (safe_fill fc (now E) ci) as (r & ci' & Hrun & Hsafe); [exact Hri|]. rewrite Hrun. cbn [mbind option_bind].
  assert (Hfirst : cstate x = mosq_cs_new → match r with
    | None => Z.land (command (in_packet ci')) 0xF0 = CONNECT
    | Some rc => rc = MOSQ_ERR_SUCCESS → first_command (in_packet ci') end).
  { intros Hst. apply (fill_first (now E) ci); [exact (Hfc Hst)|].
    replace true with fc; [exact Hrun|]. unfold fc. by rewrite !bool_decide_eq_true_2. }
  set (x' := set_last_msg_in _ _). assert (Hf : filled x x') by (by do 3 eexists).
  exists x'. split; [apply lookup_insert_eq|]. split; [done|]. split; [done|].
  assert (Hbusy : broker_inv (Some c) (set_contexts <[c := x']> d)).
  { apply (filled_inv _ x); [by apply busy_on|done|done|]. split; try done; by rewrite bool_decide_eq_true_2. }
  destruct r as [rc|].
  - split; [done|]. intros Hrc. apply (filled_inv _ x); try done. split; try done. intros _ _. split; [by apply Hsafe|].
    intros _ Hst. by apply (Hfirst Hst).
  - split; [|exact Hfirst]. split; try done; [apply lookup_insert_eq|apply Hsafe|]. intros Hid. by apply Hi.
Qed.

(** What is asked of the packet that becomes complete, if one does. *)
Definition read_pre (d : db) : Prop :=
  match contexts d !! c with Some x => c_bridge x = None | None => False end ∧
  match on_context c (fill_packet E) d with
  | Some (None, d1) =>
      match contexts d1 !! c with
      | Some x =>
          (cstate x = mosq_cs_new →
             match connect_front E rand peer c d1 with Some (inr (ci, cid), d2) => resume_ok E c ci cid d2 | _ => True end) ∧
          (Z.land (command (c_in_packet x)) 0xF0 = PUBLISH → header_qos (c_in_packet x) = 1 → no_refused x d1)
      | None => True
      end
  | _ => True
  end.

Lemma packet_read_ok x d :
  broker_inv None d → contexts d !! c = Some x → read_pre d →
  wp (_mosquitto_packet_read E rand peer c) (λ rc d', is_Some (contexts d' !! c) ∧ broker_inv (Some c) d' ∧
    (rc = MOSQ_ERR_SUCCESS → broker_inv None d')) d.
Proof.
  intros Hinv Hx Hpre. unfold _mosquitto_packet_read. apply wp_bind, (wp_get_context _ x); [done|].
  assert (Hsame : is_Some (contexts d !! c) ∧ broker_inv (Some c) d ∧ broker_inv None d).
  { split; [by eexists|]. split; [by apply busy_on|done]. }
  case_bool_decide as Hs; [apply wp_ret; naive_solver|].
  case_bool_decide; [apply wp_ret; naive_solver|]. apply wp_bind.
  assert (Hsk : is_Some (sock x)) by (by destruct (sock x)).
  destruct Hpre as [Hb Hpre]. rewrite Hx in Hb. pose proof (fill_ok x d Hinv Hx Hsk Hb) as Hfill.
  destruct (wp_inv _ _ _ Hfill) as (r & d1 & Hrun & x1 & Hx1 & Hf1 & _ & Hr). unfold wp. rewrite Hrun in Hpre |- *. cbn beta iota.
  destruct r as [rc|].
  { apply wp_ret. split; [by eexists|]. destruct Hr as [? ?]. by split. }
  destruct Hr as [Hh Hfirst]. apply wp_bind. eapply wp_mono; [apply (packet_handle_ok E HE rand peer c x1 d1 Hh)|].
  { rewrite Hx1 in Hpre. destruct Hpre as [Hc Hp]. split; [done| |done]. intros ci cid d2 Hst Hfront. specialize (Hc Hst).
    by rewrite Hfront in Hc. }
  intros rc d2 (Hinv2 & x2 & Hx2 & Hf2). apply wp_bind. eapply wp_mono; [apply (inv_upd (Some c) c x2); try done|].
  - destruct (bi_clients _ _ Hinv2 c x2 Hx2). split; try done; by rewrite bool_decide_eq_true_2.
  - intros [] d3 [Hinv3 ->]. apply wp_ret. split; [eexists; apply lookup_insert_eq|]. split; [done|]. intros _.
    eapply busy_off; [exact Hinv3|apply lookup_insert_eq|]. destruct (bi_clients _ _ Hinv2 c x2 Hx2). split; try done.
    intros _ _. split; [apply reader_inv_cleanup|]. intros _ _. by left.
Qed.

Lemma handle_read_ok x ev d :
  broker_inv None d → contexts d !! c = Some x → read_pre d →
  wp (handle_read E rand peer c ev) (λ _ d', broker_inv None d') d.
Proof.
  intros Hinv Hx Hpre. unfold handle_read. apply wp_bind.
  eapply (wp_mono _ (λ _ d', broker_inv None d' ∧ is_Some (contexts d' !! c))).
  - destruct (pollin ev); [|apply wp_ret; eauto]. apply wp_bind. eapply wp_mono; [by eapply packet_read_ok|].
    intros rc d1 ([x1 Hx1] & Hinv1 & H0). destruct (Z.eqb_spec rc 0) as [->|]; cbn [negb].
    + apply wp_ret. split; [by apply H0|by eexists].
    + eapply wp_mono; [eapply (disconnect_off E (Some c)); eauto|]. intros [] d2 (? & (x2 & ? & _) & _). eauto.
  - intros [] d1 [Hinv1 [x1 Hx1]]. destruct (pollerr ev); [|by apply wp_ret].
    eapply wp_mono; [eapply (disconnect_off E None); eauto|]. intros [] d2 (? & _). done.
Qed.
End reading.

(** ** The other passes of the loop *)

Section passes.
Context (E : env) `{Access}.

Lemma bi_ctx busy free d c x : broker_inv_but free busy d → contexts d !! c = Some x → ctx_ok (dmsg d) x.
Proof. intros Hinv. apply (co_ctx _ _ (db_core _ _ (bo_db _ _ (bi_ok _ _ Hinv)))). Qed.

(** A step of the messages that does nothing. *)
Lemma on_cm_same {A} c x (m : M cm A) a d (Q : A → db → Prop) :
  contexts d !! c = Some x → m (CM x (dmsg d)) = Some (a, CM x (dmsg d)) → Q a d → wp (on_cm c m) Q d.
Proof.
  intros Hx Hm HQ. unfold wp, on_cm. rewrite Hx. cbn [mbind option_bind]. rewrite Hm. cbn [mbind option_bind mdb ctx].
  assert (set_dmsg (λ _, dmsg d) (set_contexts <[c := x]> d) = d) as ->; [|done].
  unfold set_contexts. rewrite insert_id by done. by destruct d.
Qed.

Lemma queue_write_ok c x d :
  broker_inv None d → contexts d !! c = Some x →
  wp (on_cm c (mqtt3_db_message_write E)) (λ _ d', broker_inv None d' ∧ same_conns d d') d.
Proof.
  intros Hinv Hx. destruct (id x) as [i|] eqn:Hi.
  - eapply wp_mono; [apply (on_cm_ok None c x _ (λ _ _, True)); [done|done|by eexists|]|].
    + intros others Hok. eapply wp_mono; [by apply message_write_spec|]. by intros rc s' ?.
    + intros rc d' (? & ? & _). done.
  - unfold mqtt3_db_message_write. destruct (sock x) as [k|] eqn:Hk;
      [destruct (decide (cstate x = mosq_cs_connected)) as [Hst|Hst]|];
      (eapply on_cm_same; [done| |done]); unfold bind, mget, ret; cbn [mbind option_bind ctx]; rewrite Hk; [| |done].
    + rewrite decide_True by done. by rewrite Hi.
    + by rewrite decide_False.
Qed.

Lemma disconnect_inv c x d :
  broker_inv None d → contexts d !! c = Some x → wp (do_disconnect E c) (λ _ d', broker_inv None d') d.
Proof.
  intros Hinv Hx. eapply wp_mono; [eapply (disconnect_off E None); eauto|]. intros [] d' (? & _). done.
Qed.

Lemma check_client_ok now c x d :
  broker_inv None d → contexts d !! c = Some x → wp (check_client E now c) (λ _ d', broker_inv None d') d.
Proof.
  intros Hinv Hx. unfold check_client. apply wp_bind, (wp_get_context _ x); [done|].
  case_bool_decide; [by apply wp_ret|].
  assert (Hdrop : ∀ d y, broker_inv None d → contexts d !! c = Some y →
    wp (do_disconnect E c ;;; ret (None : option bool)) (λ _ d', broker_inv None d') d).
  { intros d1 y H1 Hy. apply wp_bind. eapply wp_mono; [by eapply disconnect_inv|]. intros [] d2 ?. by apply wp_ret. }
  destruct (_ || _); [|by eapply Hdrop]. apply wp_bind. eapply wp_mono; [by eapply queue_write_ok|].
  intros rc d1 [Hinv1 Hs1]. destruct (same_conns_lookup _ _ _ _ _ Hs1 Hx) as (x1 & Hx1 & _).
  destruct (rc =? MOSQ_ERR_SUCCESS); [|by eapply Hdrop]. apply wp_bind, (wp_get_context _ x1); [done|]. by apply wp_ret.
Qed.

Lemma handle_write_ok c x ev d :
  broker_inv None d → contexts d !! c = Some x → wp (handle_write E c ev) (λ _ d', broker_inv None d') d.
Proof.
  intros Hinv Hx. unfold handle_write. apply wp_bind, (wp_get_context _ x); [done|].
  destruct (pollout ev); [|by apply wp_ret]. apply wp_bind.
  eapply (wp_mono _ (λ _ d', broker_inv None d' ∧ is_Some (contexts d' !! c))).
  - case_bool_decide as Hst; [|apply wp_ret; eauto]. destruct (so_error ev) as [err|].
    + apply wp_bind. destruct (err =? 0); [|apply wp_ret, wp_ret; eauto].
      pose proof (bi_clients _ _ Hinv c x Hx) as [? Hp ? Hn ?].
      eapply wp_mono; [apply (inv_upd None c x); try done|].
      * split; try done.
        -- intros _ Hs. destruct (Hp eq_refl Hs). split; [done|]. intros Hb. by destruct (Hn Hs Hb) as [_ []].
        -- intros Hs Hb. by destruct (Hn Hs Hb) as [_ []].
      * intros (Hcs & _). congruence.
      * intros [] d1 [Hinv1 ->]. apply wp_ret. split; [done|]. eexists. apply lookup_insert_eq.
    + apply wp_bind. eapply wp_mono; [eapply (disconnect_off E None); eauto|].
      intros [] d1 (? & (x1 & ? & _) & _). apply wp_ret. eauto.
  - intros go d1 [Hinv1 [x1 Hx1]]. destruct go; [|by apply wp_ret]. apply wp_bind.
    eapply wp_mono; [apply (inv_net None c x1); [done|done|]|].
    + eapply wp_mono; [apply packet_write_spec, (bi_ctx None _ d1 c x1 Hinv1 Hx1)|]. intros rc x' [(Hn & Ho & _) _]. by split.
    + intros rc d2 (Hinv2 & _ & _ & x2 & Hx2 & _). destruct (negb _); [by eapply disconnect_inv|by apply wp_ret].
Qed.

(** The contexts of a snapshot that are still there, with what they had. *)
Definition listed {K} (f : mosquitto → option K) (l : list (K * ptr)) (d : db) : Prop :=
  NoDup l.*2 ∧ ∀ k c, (k, c) ∈ l → ∃ x, contexts d !! c = Some x ∧ f x = Some k.

Lemma listed_cons {K} (f : mosquitto → option K) k c l d :
  listed f ((k, c) :: l) d → (∃ x, contexts d !! c = Some x ∧ f x = Some k) ∧ listed f l d ∧ c ∉ l.*2.
Proof.
  intros [Hnd Hl]. apply NoDup_cons in Hnd as [Hn Hnd]. split; [apply Hl; by left|]. split; [|done].
  split; [done|]. intros k' c' Hin. apply Hl. by right.
Qed.

Lemma listed_but {K} (f : mosquitto → option K) c l d d' :
  (∀ x y, conn x = conn y → f x = f y) → listed f l d → c ∉ l.*2 →
  (∀ c', c' ≠ c → conn <$> contexts d' !! c' = conn <$> contexts d !! c') → listed f l d'.
Proof.
  intros Hf [Hnd Hl] Hc Ht. split; [done|]. intros k c' Hin. destruct (Hl k c' Hin) as (x & Hx & Hk).
  assert (Hne : c' ≠ c) by (intros ->; destruct Hc; apply (list_elem_of_fmap_2 snd l (k, c) Hin)).
  specialize (Ht c' Hne). rewrite Hx in Ht. destruct (contexts d' !! c') as [x'|]; [|done].
  apply (inj Some) in Ht. exists x'. split; [done|]. by rewrite (Hf x' x Ht).
Qed.

Lemma tie_conn d d' c : tie <$> contexts d' !! c = tie <$> contexts d !! c → conn <$> contexts d' !! c = conn <$> contexts d !! c.
Proof. destruct (contexts d' !! c), (contexts d !! c); try done. cbn. intros Ht%(inj Some). f_equal. unfold tie in Ht. congruence. Qed.

Lemma timeout_ok t c x d :
  broker_inv None d → contexts d !! c = Some x → is_Some (sock x) →
  wp (on_cm c (timeout_context E t)) (λ _ d', broker_inv None d' ∧ same_conns d d') d.
Proof.
  intros Hinv Hx Hs. destruct (id x) as [i|] eqn:Hi.
  - eapply wp_mono; [apply (on_cm_ok None c x _ (λ _ _, True)); [done|done|by eexists|]|].
    + intros others Hok. eapply wp_mono; [by apply timeout_context_spec|]. by intros rc s' (? & _).
    + intros rc d' (? & ? & _). done.
  - pose proof (bi_clients _ _ Hinv c x Hx) as [_ _ Hidle _ _]. destruct (idle_queue x (Hidle eq_refl Hs Hi)) as [Hm _].
    eapply (on_cm_same c x _ tt); [done| |done]. unfold timeout_context, upd_ctx, mmodify. cbn.
    destruct x. cbn in *. by subst.
Qed.

Lemma timeout_contexts_ok t l d :
  broker_inv None d → listed sock l d →
  wp (timeout_contexts E t l) (λ _ d', broker_inv None d' ∧ same_conns d d') d.
Proof.
  revert d. induction l as [|[k c] l IH]; intros d Hinv Hl; cbn [timeout_contexts]; [by apply wp_ret|].
  destruct (listed_cons _ _ _ _ _ Hl) as ((x & Hx & Hk) & Hl' & Hc). apply wp_bind.
  eapply wp_mono; [eapply timeout_ok; [done|done|by rewrite Hk]|]. intros _ d1 [Hinv1 Hs1].
  eapply wp_mono; [apply IH; [done|]|].
  - eapply (listed_but _ c); [|done|done|intros c' _; apply Hs1]. intros y z Hyz. apply conn_fields in Hyz. tauto.
  - intros _ d2 [? ?]. split; [done|by etrans].
Qed.

Lemma table_listed_ok {K} (f : mosquitto → option K) d t : table_ok f (contexts d) t → listed f t d.
Proof. intros [H1 H2]. split; [done|]. intros k c Hin. by apply H1. Qed.

Lemma timeout_check_ok t d :
  broker_inv None d → wp (mqtt3_db_message_timeout_check E t) (λ _ d', broker_inv None d') d.
Proof.
  intros Hinv. apply wp_bind, wp_get, wp_bind. eapply wp_mono; [apply timeout_contexts_ok; [done|]|].
  - apply table_listed_ok, (bi_tables _ _ Hinv).
  - intros _ d' [? _]. by apply wp_ret.
Qed.

(** A client is changed, and disconnected. *)
Lemma upd_disconnect_ok c x f d :
  broker_inv None d → contexts d !! c = Some x → is_Some (id x) → linked (f x) = linked x → client_ok false (f x) →
  wp (upd_context c f ;;; do_disconnect E c) (λ _ d', broker_inv None d' ∧
    ∀ c', c' ≠ c → conn <$> contexts d' !! c' = conn <$> contexts d !! c') d.
Proof.
  intros Hinv Hx Hid Hl Hcl. apply wp_bind. eapply wp_mono; [apply (inv_upd None c x f); try done|].
  - intros (_ & Hn & _). rewrite Hn in Hid. by destruct Hid.
  - intros [] d1 [Hinv1 ->]. eapply wp_mono; [eapply (disconnect_off E None); [done|by left|apply lookup_insert_eq]|].
    intros [] d2 (Hinv2 & _ & Ho). split; [done|]. intros c' Hne. rewrite (tie_conn _ _ _ (Ho c' Hne)).
    cbn. by rewrite lookup_insert_ne.
Qed.

Lemma expire_clients_ok t e l d :
  broker_inv None d → listed id l d → wp (expire_clients E t e l) (λ _ d', broker_inv None d') d.
Proof.
  revert d. induction l as [|[k c] l IH]; intros d Hinv Hl; cbn [expire_clients]; [by apply wp_ret|].
  destruct (listed_cons _ _ _ _ _ Hl) as ((x & Hx & Hk) & Hl' & Hc).
  apply wp_bind, (wp_get_context _ x); [done|]. apply wp_bind.
  eapply (wp_mono _ (λ _ d', broker_inv None d' ∧ ∀ c', c' ≠ c → conn <$> contexts d' !! c' = conn <$> contexts d !! c')).
  - case_bool_decide as Hs; cbn [andb]; [|by apply wp_ret]. destruct (_ && _); [|by apply wp_ret].
    apply (upd_disconnect_ok c x); [done|done|by rewrite Hk|done|].
    apply (client_ok_same _ x); [by apply (bi_clients _ _ Hinv c)|by left|by left].
  - intros [] d1 [Hinv1 Ho]. apply IH; [done|]. apply (listed_but _ c _ d); [|done..].
    intros y z Hyz. by apply conn_fields in Hyz as (? & _).
Qed.

Lemma apply_clients_ok sha512 sec l d :
  broker_inv None d → listed id l d → wp (apply_clients E sha512 sec l) (λ _ d', broker_inv None d') d.
Proof.
  revert d. induction l as [|[k c] l IH]; intros d Hinv Hl; cbn [apply_clients]; [by apply wp_ret|].
  destruct (listed_cons _ _ _ _ _ Hl) as ((x & Hx & Hk) & Hl' & Hc).
  apply wp_bind, (wp_get_context _ x); [done|]. apply wp_bind.
  pose proof (bi_clients _ _ Hinv c x Hx) as Hcl.
  assert (Hdrop : wp (upd_context c (set_cstate (λ _, mosq_cs_disconnecting)) ;;; do_disconnect E c) (λ _ d', broker_inv None d' ∧
    ∀ c', c' ≠ c → conn <$> contexts d' !! c' = conn <$> contexts d !! c') d).
  { apply (upd_disconnect_ok c x); [done|done|by rewrite Hk|done|]. apply client_ok_state; done. }
  eapply (wp_mono _ (λ _ d', broker_inv None d' ∧ ∀ c', c' ≠ c → conn <$> contexts d' !! c' = conn <$> contexts d !! c')).
  - destruct (_ && _); [exact Hdrop|]. apply wp_bind. eapply wp_lift; [apply unpwd_default_spec|].
    destruct (negb _); [exact Hdrop|]. destruct (find_acl _ _ _) as [i|]; [|by apply wp_ret].
    eapply wp_mono; [apply (inv_upd None c x); try done|].
    + apply (client_ok_same _ x); [done|by left|by right].
    + intros [] d1 [Hinv1 ->]. split; [done|]. intros c' Hne. cbn. by rewrite lookup_insert_ne.
  - intros [] d1 [Hinv1 Ho]. apply IH; [done|]. apply (listed_but _ c _ d); [|done..].
    intros y z Hyz. by apply conn_fields in Hyz as (? & _).
Qed.

Lemma security_apply_ok sha512 sec d :
  broker_inv None d → wp (mosquitto_security_apply_default E sha512 sec) (λ _ d', broker_inv None d') d.
Proof.
  intros Hinv. apply wp_bind, wp_get, wp_bind. eapply wp_mono; [apply apply_clients_ok; [done|]|].
  - apply table_listed_ok, (bi_tables _ _ Hinv).
  - intros [] d' ?. by apply wp_ret.
Qed.

Lemma free_disused_ok d :
  broker_inv None d →
  wp (mosquitto__free_disused_contexts E) (λ _ d', broker_inv None d' ∧ ll_for_free d' = [] ∧
    ∀ c, contexts d' !! c = if decide (c ∈ ll_for_free d) then None else contexts d !! c) d.
Proof.
  intros Hinv. apply wp_bind, wp_get, wp_bind. eapply wp_mono; [by apply free_contexts_ok|].
  intros [] d1 [Hinv1 Hc1]. apply wp_modify. split; [|done]. by eapply inv_but_ext.
Qed.
End passes.
