(* ===== verification/Runs.v ===== *)
(** * Runs of the broker

    The broker from [mqtt3_db_open] on: sequences of what the peers do to the
    sockets and of the steps of the main loop. Whatever the peers send, in
    whatever pieces, the broker stays consistent; what follows for the
    clients. *)

From stdpp Require Import base list numbers strings option sets gmap.
From Stdlib Require Import ZArith Lia.
From S2P Require Import Prelude Topic Packet State Store Send Messages Db Acl Subs DbInv Session Context Handlers Lifecycle Release Free Serve Resume Connect Broker.
Local Open Scope Z_scope.
Local Open Scope broker_scope.

(** ** Events *)

(** What the peers do, and what the main loop does, in the order the sockets
    and the clock decide. [Network]: what the next reads from a socket find,
    and what the next writes to it do. *)
Inductive event :=
  | Network (c : ptr) (arrived : list in_event) (room : list out_event)
  | Accept (listensock : Z) (fd : option Z) (nonblock : bool) (c : ptr) (address_ok : bool)
  | Readable (rand : nat → Z) (peer : option (option bytes)) (c : ptr) (ev : poll_event)
  | Writable (c : ptr) (ev : poll_event)
  | Poll (now : Z) (c : ptr)
  | Expire (now expiration : Z)
  | Retry (timeout : Z)
  | Announce (topic : bytes) (q : Z) (pl : bytes) (r : bool)
  | Reload (sha512 : option (bytes → bytes)) (sec : security)
  | FreeDisused.

Section runs.
(** The sockets and the limits of the listeners. *)
Context (socks : list (list Z)) (max_connections : list Z).

Definition broker_event (E : env) (A : Access) (ev : event) : M db unit :=
  match ev with
  | Network c arrived room => upd_context c (λ x, set_wr (λ l, l ++ room) (set_rd (λ l, l ++ arrived) x))
  | Accept ls fd nonblock c address_ok =>
      mqtt3_socket_accept E socks max_connections ls fd nonblock c address_ok ;;; ret tt
  | Readable rand peer c ev => handle_read E rand peer c ev
  | Writable c ev => handle_write E c ev
  | Poll now c => check_client E now c ;;; ret tt
  | Expire now expiration => let* d := mget in expire_clients E now expiration (contexts_by_id d)
  | Retry timeout => mqtt3_db_message_timeout_check E timeout ;;; ret tt
  | Announce topic q pl r => mqtt3_db_messages_easy_queue E None topic q pl r ;;; ret tt
  | Reload sha512 sec => mosquitto_security_apply_default E sha512 sec ;;; ret tt
  | FreeDisused => mosquitto__free_disused_contexts E
  end.

(** When an event can happen: a new context has a new address, only contexts
    that exist are polled, and a packet does not resume a session that the
    broker does not resume correctly, or publish over a refused message. *)
Definition event_pre (E : env) (A : Access) (ev : event) (d : db) : Prop :=
  match ev with
  | Accept ls _ _ c _ =>
      contexts d !! c = None ∧ sole ls socks ∧
      length socks = length (client_counts d) ∧ length max_connections = length (client_counts d)
  | Readable rand peer c _ => read_pre E rand peer c d
  | Network c _ _ | Writable c _ | Poll _ c => is_Some (contexts d !! c)
  | Announce topic q pl r => will_ok (Message topic pl q r)
  | Expire _ _ | Retry _ | Reload _ _ | FreeDisused => True
  end.

Lemma event_ok E A ev d :
  env_ok E → broker_inv None d → event_pre E A ev d → wp (broker_event E A ev) (λ _ d', broker_inv None d') d.
Proof.
  intros HE Hinv Hpre. destruct ev; cbn [broker_event event_pre] in *.
  - destruct Hpre as [x Hx]. eapply wp_mono; [apply (inv_upd None c x); try done|].
    + apply (client_ok_same _ x); [by apply (bi_clients _ _ Hinv c)|by left|by right].
    + intros [] d' [? _]. done.
  - destruct Hpre as (? & ? & ? & ?). apply wp_bind. eapply wp_mono; [by apply socket_accept_ok|]. intros rc d' [? _]. by apply wp_ret.
  - pose proof Hpre as [Hx _]. destruct (contexts d !! c) as [x|] eqn:Hc; [|done]. by eapply handle_read_ok.
  - destruct Hpre as [x Hx]. by eapply handle_write_ok.
  - destruct Hpre as [x Hx]. apply wp_bind. eapply wp_mono; [by eapply check_client_ok|]. intros o d' ?. by apply wp_ret.
  - apply wp_bind, wp_get, expire_clients_ok; [done|]. apply table_listed_ok, (bi_tables _ _ Hinv).
  - apply wp_bind. eapply wp_mono; [by apply timeout_check_ok|]. intros o d' ?. by apply wp_ret.
  - apply wp_bind. eapply wp_mono; [by apply inv_easy_queue|]. intros o d' (? & _). by apply wp_ret.
  - apply wp_bind. eapply wp_mono; [by apply security_apply_ok|]. intros o d' ?. by apply wp_ret.
  - eapply wp_mono; [by apply free_disused_ok|]. intros [] d' (? & _). done.
Qed.

(** The clock and the configuration are those of the moment. *)
Fixpoint broker_run (evs : list (env * Access * event)) : M db unit :=
  match evs with
  | [] => ret tt
  | (E, A, ev) :: evs' => broker_event E A ev ;;; broker_run evs'
  end.

Fixpoint run_pre (evs : list (env * Access * event)) (d : db) : Prop :=
  match evs with
  | [] => True
  | (E, A, ev) :: evs' =>
      env_ok E ∧ event_pre E A ev d ∧
      match broker_event E A ev d with Some (_, d') => run_pre evs' d' | None => True end
  end.

Lemma run_ok evs d : broker_inv None d → run_pre evs d → wp (broker_run evs) (λ _ d', broker_inv None d') d.
Proof.
  revert d. induction evs as [|[[E A] ev] evs IH]; intros d Hinv Hpre; cbn [broker_run run_pre] in *; [by apply wp_ret|].
  destruct Hpre as (HE & Hpre & Hrest). apply wp_bind.
  destruct (wp_inv _ _ _ (event_ok E A ev d HE Hinv Hpre)) as ([] & d' & Hrun & Hinv'). unfold wp. rewrite Hrun in Hrest |- *.
  by apply IH.
Qed.
End runs.

(** ** The preconditions can be computed *)

Definition mount_ok (o : option bytes) : Prop :=
  match o with Some mp => 0 ∉ mp ∧ wildcard_free mp ∧ slen mp < 536870912 | None => True end.

#[export] Instance mount_ok_dec o : Decision (mount_ok o).
Proof. unfold mount_ok, wildcard_free. destruct o; apply _. Defined.

Lemma env_ok_alt E : env_ok E ↔ Forall mount_ok (mount_points E).
Proof.
  rewrite Forall_lookup. split; [|intros HE l mp Hl; apply (HE l (Some mp) Hl)].
  intros HE l [mp|] Hl; [by eapply HE|done].
Qed.

#[export] Instance env_ok_dec E : Decision (env_ok E).
Proof. refine (cast_if (decide (Forall mount_ok (mount_points E)))); abstract (by rewrite env_ok_alt). Defined.

Lemma no_refused_alt x d :
  no_refused x d ↔ Forall (λ m, direction m = mosq_md_in → is_Some (heap (dmsg d) !! cm_store m ≫= ms_topic)) (msgs x).
Proof.
  rewrite Forall_forall. split; intros Hn m Hm Hd.
  - destruct (Hn m Hm Hd) as (st & t & -> & Ht). by exists t.
  - destruct (Hn m Hm Hd) as [t Ht]. destruct (heap (dmsg d) !! cm_store m) as [st|]; [by exists st, t|done].
Qed.

#[export] Instance no_refused_dec x d : Decision (no_refused x d).
Proof.
  refine (cast_if (decide (Forall (λ m, direction m = mosq_md_in → is_Some (heap (dmsg d) !! cm_store m ≫= ms_topic)) (msgs x))));
    abstract (by rewrite no_refused_alt).
Defined.

#[export] Instance session_ok_dec clean cid d : Decision (session_ok clean cid d).
Proof. unfold session_ok. destruct (find_client cid d ≫= _); apply _. Defined.

#[export] Instance resume_ok_dec E `{Access} c ci cid d : Decision (resume_ok E c ci cid d).
Proof.
  unfold resume_ok. apply and_dec; [apply _|]. destruct (take_over E c cid (ci_clean ci) d) as [[ack d']|]; [|apply _].
  destruct (contexts d' !! c); apply _.
Defined.

#[export] Instance read_pre_dec E `{Access} rand peer c d : Decision (read_pre E rand peer c d).
Proof.
  unfold read_pre. apply and_dec; [destruct (contexts d !! c); apply _|].
  destruct (on_context c (fill_packet E) d) as [[[rc|] d1]|]; [apply _| |apply _].
  destruct (contexts d1 !! c) as [x|]; [|apply _]. apply and_dec; [|apply _].
  apply impl_dec; [apply _|]. destruct (connect_front E rand peer c d1) as [[[?|[? ?]] ?]|]; apply _.
Defined.

#[export] Instance event_pre_dec socks maxc E A ev d : Decision (event_pre socks maxc E A ev d).
Proof. destruct ev; cbn [event_pre]; unfold sole, will_ok, wildcard_free; apply _. Defined.

#[export] Instance run_pre_dec socks maxc evs d : Decision (run_pre socks maxc evs d).
Proof.
  revert d. induction evs as [|[[E A] ev] evs IH]; intros d; cbn [run_pre]; [apply _|].
  apply and_dec; [apply _|]. apply and_dec; [apply _|].
  destruct (broker_event socks maxc E A ev d) as [[[] d']|]; [apply IH|apply _].
Defined.

(** The broker before the first connection. *)
Lemma open_ok n : broker_inv None (mqtt3_db_open n).2.
Proof.
  set (d := (mqtt3_db_open n).2).
  assert (Hnil : ∀ p, subs_of p (root d) = []).
  { intros p. pose proof (subs_of_sublist p (root d)) as H. cbn in H. by apply sublist_nil_r in H. }
  split.
  - split; [split; [split|split|..]|]; try done.
    + split; [done|]. split; [apply NoDup_nil_2| |done|by intros s [? ?]]. intros s. cbn. rewrite lookup_empty, elem_of_nil. split; [done|by intros [? ?]].
    + apply tree_ok_unfold. cbn. split; [by apply (bool_decide_unpack _); vm_compute|]. repeat constructor.
    + intros p. rewrite Hnil. constructor.
    + intros p. rewrite Hnil. apply NoDup_nil_2.
    + constructor.
  - split; try done.
    + split; [|apply NoDup_nil_2]. intros k c. cbn. rewrite lookup_empty, elem_of_nil. naive_solver.
    + split; [|apply NoDup_nil_2]. intros k c. cbn. rewrite lookup_empty, elem_of_nil. naive_solver.
    + apply NoDup_nil_2.
    + by intros c []%not_elem_of_nil.
    + intros l k. cbn. intros [-> _]%lookup_replicate. done.
    + apply NoDup_nil_2.
  - done.
Qed.

(** ** An example *)

(** An access control that allows everything. *)
Definition open_access : Access :=
  {| acl_check _ _ _ := MOSQ_ERR_SUCCESS; unpwd_check _ _ := MOSQ_ERR_SUCCESS; acl_entry _ old := old |}.
#[local] Existing Instance open_access.

(** The CONNECT of a client with a one-letter id, a clean session and 60
    seconds of keepalive. *)
Definition sample_connect (i : Z) : bytes := [0x10; 13; 0; 4; 77; 81; 84; 84; 4; 2; 0; 60; 0; 1; i].
Definition readable (c : ptr) : event := Readable (λ _, 0) None c (PollEvent true false false None).
Definition sends (c : ptr) (bs : bytes) : list event := [Network c [InData bs] []; readable c].
Definition timed (ev : event) : env * Access * event := (sample_env, open_access, ev).

(** Two clients connect; one subscribes to t, the other publishes to it with
    QoS 1. *)
Definition sample_events : list event :=
  [Accept 3 (Some 10) true 1 true; Accept 3 (Some 11) true 2 true] ++
  sends 1 (sample_connect 97) ++ sends 2 (sample_connect 98) ++
  sends 1 [0x82; 6; 0; 1; 0; 1; 116; 1] ++ sends 2 [0x32; 7; 0; 1; 116; 0; 7; 104; 105].

(** The client a has a session that is kept and is subscribed to t; b publishes
    a retained message to u. Then a leaves, and b publishes to t. *)
Definition kept_connect (i : Z) : bytes := [0x10; 13; 0; 4; 77; 81; 84; 84; 4; 0; 0; 60; 0; 1; i].
Definition kept_events : list event :=
  [Accept 3 (Some 10) true 1 true; Accept 3 (Some 11) true 2 true] ++
  sends 1 (kept_connect 97) ++ sends 2 (sample_connect 98) ++
  sends 1 [0x82; 6; 0; 1; 0; 1; 116; 1] ++ sends 2 [0x31; 5; 0; 1; 117; 104; 105].
Definition kept_message : list event := sends 1 [0xE0; 0] ++ sends 2 [0x32; 7; 0; 1; 116; 0; 7; 104; 105].

Definition sample_run (evs : list event) : M db unit := broker_run [[3]] [2] (timed <$> evs).
Definition after (evs : list event) : db := run_state (sample_run evs) (mqtt3_db_open 1).2.

Lemma after_ok evs : run_pre [[3]] [2] (timed <$> evs) (mqtt3_db_open 1).2 → broker_inv None (after evs).
Proof.
  intros Hpre. destruct (wp_inv _ _ _ (run_ok [[3]] [2] (timed <$> evs) _ (open_ok 1) Hpre)) as ([] & d' & Hrun & Hinv).
  unfold after, sample_run, run_state. by rewrite Hrun.
Qed.

(** ** Properties *)

(** C1: the broker is safe in the runs that [run_pre] admits. From any
    consistent state, every sequence of arriving bytes, accepted connections,
    readable and writable sockets, polls, expiries, retries, announcements,
    reloads and frees, with clients that leave sessions and come back to them,
    runs to its end without undefined behaviour, and leaves the broker
    consistent: every reference count is exact, the tables of clients and
    sockets list exactly the contexts that have them, every subscription and
    queue belongs to a live context, and the listeners' counts are right. The
    access control may be any that gives an answer, a different one at every
    step; whether the checks of security.c do is [acl_check_defined]. What
    [run_pre] asks: the sockets of bridges are not read; a CONNECT does not take
    the id of a bridge, and does not resume a session that has an incoming
    message still queued or a message that the client may not read; no PUBLISH
    of QoS 1 comes from a client that has a refused message pending; a listening
    socket is of one listener, and the mount points are topics. Without the
    conditions on packets the broker is not safe ([refused_message_published]). *)
Theorem broker_run_safe socks max_connections evs d :
  broker_inv None d → run_pre socks max_connections evs d →
  ∃ d', broker_run socks max_connections evs d = Some (tt, d') ∧ broker_inv None d'.
Proof. intros Hinv Hpre. destruct (wp_inv _ _ _ (run_ok _ _ _ _ Hinv Hpre)) as ([] & d' & ? & ?). eauto. Qed.

(** A client with a kept session leaves and comes back for its message, which
    it acknowledges; the publisher leaves. *)
Lemma broker_run_safe_witness :
  ∃ d', sample_run (kept_events ++ kept_message ++ [Accept 3 (Some 12) true 3 true] ++ sends 3 (kept_connect 97) ++
      [Poll 0 3; FreeDisused] ++ sends 3 [0x40; 2; 0; 1] ++ sends 2 [0xE0; 0] ++ [FreeDisused])
      (mqtt3_db_open 1).2 = Some (tt, d') ∧ broker_inv None d'.
Proof. apply broker_run_safe; [apply open_ok|by_compute]. Defined.

(** C4: a client id is of one connection. However the clients connect, in the
    runs that [run_pre] admits from the start of the broker (see
    [broker_run_safe]; in particular no client takes the id of a bridge), at any
    moment the contexts with the same id are the same context, and it is the one
    the table of clients finds. *)
Theorem one_client_per_id n socks max_connections evs d c1 c2 x1 x2 i :
  run_pre socks max_connections evs (mqtt3_db_open n).2 →
  broker_run socks max_connections evs (mqtt3_db_open n).2 = Some (tt, d) →
  contexts d !! c1 = Some x1 → contexts d !! c2 = Some x2 → id x1 = Some i → id x2 = Some i →
  c1 = c2 ∧ find_client i d = Some c1.
Proof.
  intros Hpre Hrun H1 H2 I1 I2. pose proof (wp_run _ _ _ _ _ (run_ok _ _ _ _ (open_ok n) Hpre) Hrun) as Hinv. cbn beta in Hinv.
  pose proof (λ c1 c2 x1 x2, unique_client _ d i c1 c2 x1 x2 (bi_tables _ _ Hinv)) as Hu. split; [by eapply Hu|].
  destruct (find_client i d) as [c|] eqn:Hf.
  - destruct (find_client_Some c i d c (busy_on c d Hinv) Hf) as (f & Hfc & Hfi). f_equal. by eapply Hu.
  - destruct (find_client_None i d Hf). apply (list_elem_of_fmap_2 fst _ (i, c1)).
    apply (tb_id _ _ (bi_tables _ _ Hinv)). eauto.
Qed.

(** A second connection with the id of the first: the first one loses it. *)
Lemma one_client_per_id_witness :
  let d := after ([Accept 3 (Some 10) true 1 true; Accept 3 (Some 11) true 2 true] ++
             sends 1 (sample_connect 97) ++ sends 2 (sample_connect 97)) in
  is_Some (contexts d !! 1%positive) ∧ (contexts d !! 1%positive ≫= id) = None ∧
  (∀ c1 x1, contexts d !! c1 = Some x1 → id x1 = Some [97] → c1 = 2%positive ∧ find_client [97] d = Some c1).
Proof.
  intros d. split; [by_compute|]. split; [vm_compute; reflexivity|]. intros c1 x1 H1 I1.
  destruct (contexts d !! 2%positive) as [x2|] eqn:H2; [|by vm_compute in H2].
  apply (one_client_per_id 1 [[3]] [2] (timed <$> ([Accept 3 (Some 10) true 1 true; Accept 3 (Some 11) true 2 true] ++
    sends 1 (sample_connect 97) ++ sends 2 (sample_connect 97))) d c1 2 x1 x2 [97]);
    [by_compute|vm_compute; reflexivity|exact H1|exact H2|exact I1|].
  assert (Hid : id <$> contexts d !! 2%positive = Some (Some [97])) by (vm_compute; reflexivity). rewrite H2 in Hid. exact (inj Some _ _ Hid).
Defined.



(** A client's first packet is a CONNECT. When the first byte that arrives
    on a new connection is of any other packet, nothing is handled: the read
    disconnects the client at once, the context goes to the list of those to
    be freed, and no other context and no table entry of another client
    changes. *)
Lemma first_packet_refused E `{Access} rand peer c x d ev b bs i :
  broker_inv None d → contexts d !! c = Some x → is_Some (sock x) → c_bridge x = None → clean_session x = true →
  cstate x = mosq_cs_new → command (c_in_packet x) = 0 → rd x = InData (b :: bs) :: i → Z.land b 0xF0 ≠ CONNECT →
  pollin ev = true → pollerr ev = false →
  ∃ d', handle_read E rand peer c ev d = Some (tt, d') ∧ broker_inv None d' ∧ c ∈ ll_for_free d' ∧
    (∀ c', c' ≠ c → tie <$> contexts d' !! c' = tie <$> contexts d !! c').
Proof.
  intros Hinv Hx Hk Hb Hcl Hst Hcmd Hrd Hne Hin Herr. apply wp_ends. unfold handle_read. rewrite Hin, Herr.
  apply wp_bind, wp_bind. unfold _mosquitto_packet_read. apply wp_bind, (wp_get_context _ x); [done|].
  rewrite bool_decide_eq_false_2 by (intros Hn; rewrite Hn in Hk; by destruct Hk).
  rewrite bool_decide_eq_false_2 by (by rewrite Hst). apply wp_bind.
  destruct (wp_inv _ _ _ (fill_ok E c x d Hinv Hx Hk Hb)) as (r & d1 & Hrun & x1 & Hx1 & (t & j & p & ->) & -> & Hr).
  destruct (fill_refused (now E) (ConnIn (c_in_packet x) (rd x) (c_last_msg_in x)) b bs i Hcmd Hrd Hne) as [ci' Hfill].
  assert (r = Some MOSQ_ERR_PROTOCOL) as ->.
  { unfold on_context, on_cm, on_ctx, fill_packet in Hrun. rewrite Hx in Hrun. cbn [mbind option_bind ctx mdb] in Hrun.
    rewrite !bool_decide_eq_true_2 in Hrun by done. cbn [andb] in Hrun. rewrite Hfill in Hrun.
    cbn [mbind option_bind ctx mdb] in Hrun. congruence. }
  unfold wp at 1. rewrite Hrun. apply wp_ret. cbn [Z.eqb negb]. set (x1 := set_last_msg_in _ _) in *.
  eapply wp_mono; [apply (do_disconnect_ok E (Some c) c x1); [apply Hr|done]|].
  intros [] d2 (Hinv2 & (x2 & Hx2 & Hcs & _ & Hgone) & Ho). apply wp_ret.
  destruct Hgone as (Hs2 & _ & Hfree); [by change (cstate x1) with (cstate x); rewrite Hst|].
  destruct (Hfree Hcl Hb) as [Hf _]. split; [by eapply closed_off|]. split; [done|].
  intros c' Hc'. rewrite (Ho c' Hc'). cbn. by rewrite lookup_insert_ne.
Qed.

(** C22: [mqtt3_socket_accept] respects [max_connections]. Whatever [accept]
    and the listeners are, the broker stays consistent, and if the new context
    is kept then it is counted by its listener, whose count, the exact number
    of its clients, is within the limit; otherwise the context is gone. *)
Theorem accept_within_limit E `{Access} c socks max_connections listensock fd nonblock address_ok d :
  broker_inv None d → contexts d !! c = None → sole listensock socks →
  length socks = length (client_counts d) → length max_connections = length (client_counts d) →
  ∃ rc d', mqtt3_socket_accept E socks max_connections listensock fd nonblock c address_ok d = Some (rc, d') ∧
    broker_inv None d' ∧
    match contexts d' !! c with
    | None => True
    | Some x => fd = Some rc ∧ ∃ l m, listener x = Some l ∧ max_connections !! l = Some m ∧
        (0 < m → count_listener l (contexts d') ≤ m)
    end.
Proof.
  intros Hinv Hc Hsole Hl1 Hl2.
  destruct (wp_inv _ _ _ (socket_accept_ok E c socks max_connections listensock fd nonblock address_ok d Hinv Hc Hsole Hl1 Hl2))
    as (rc & d' & Hrun & Hinv' & Had & Hfd). exists rc, d'. split; [done|]. split; [done|].
  destruct (contexts d' !! c) as [x|] eqn:Hx; [|done]. split; [apply Hfd; by eexists|].
  destruct (Had x Hx) as (l & n & m & Hl & Hn & Hm & Hle). exists l, m. split_and!; try done.
  by rewrite <-(tb_count _ _ (bi_tables _ _ Hinv') l n Hn).
Qed.

(** The third client of a listener for two. *)
Lemma accept_within_limit_witness :
  let d := after [Accept 3 (Some 10) true 1 true; Accept 3 (Some 11) true 2 true] in
  ∃ rc d', mqtt3_socket_accept sample_env [[3]] [2] 3 (Some 12) true 3 true d = Some (rc, d') ∧
    broker_inv None d' ∧
    match contexts d' !! 3%positive with
    | None => True
    | Some x => Some 12 = Some rc ∧ ∃ l m, listener x = Some l ∧ [2] !! l = Some m ∧
        (0 < m → count_listener l (contexts d') ≤ m)
    end.
Proof.
  intros d. apply accept_within_limit;
    [apply after_ok; by_compute|vm_compute; reflexivity|unfold sole; by_compute|vm_compute; reflexivity|vm_compute; reflexivity].
Defined.

(** C21: a silent client is not kept. A client with a keepalive of k seconds
    from which nothing came for 3k/2 seconds is disconnected by the next pass
    of the loop: its socket is closed and leaves the table, its will is
    dealt with; with a clean session the pass that frees contexts then removes
    it from memory, and the broker stays consistent. *)
Theorem silent_client_freed E `{Access} now c x d :
  broker_inv None d → contexts d !! c = Some x → is_Some (sock x) → c_bridge x = None →
  keepalive x ≠ 0 → Z.quot (keepalive x * 3) 2 ≤ now - c_last_msg_in x →
  ∃ d1 x1 d2, check_client E now c d = Some (None, d1) ∧ contexts d1 !! c = Some x1 ∧
    sock x1 = None ∧ will x1 = None ∧ c ∉ (contexts_by_sock d1).*2 ∧
    mosquitto__free_disused_contexts E d1 = Some (tt, d2) ∧ broker_inv None d2 ∧
    (clean_session x = true → contexts d2 !! c = None).
Proof.
  intros Hinv Hx Hk Hb Hka Hlate. pose proof (bi_clients _ _ Hinv c x Hx) as [_ _ _ _ Hgone].
  assert (Hcs : cstate x ≠ mosq_cs_disconnected) by (intros Hd; rewrite (Hgone Hd) in Hk; by destruct Hk).
  destruct (wp_ends _ _ _ (do_disconnect_ok E None c x d Hinv Hx)) as (d1 & Hrun & Hinv1 & (x1 & Hx1 & _ & _ & H1) & _).
  destruct (H1 Hcs) as (Hs1 & Hw1 & Hfree).
  destruct (wp_ends _ _ _ (free_disused_ok E d1 Hinv1)) as (d2 & Hrun2 & Hinv2 & _ & Hc2).
  exists d1, x1, d2. split_and!; try done.
  - unfold check_client, bind at 1, get_context. rewrite Hx. cbn [mbind option_bind].
    rewrite bool_decide_eq_false_2 by (intros Hn; rewrite Hn in Hk; by destruct Hk).
    apply Z.eqb_neq in Hka as ->. rewrite Hb, bool_decide_eq_false_2 by (by intros [? ?]).
    apply Z.ltb_ge in Hlate as ->. cbn [orb]. unfold bind. by rewrite Hrun.
  - intros ([k c'] & -> & Hin)%list_elem_of_fmap. apply (tb_sock _ _ (bi_tables _ _ Hinv1)) in Hin as (y & Hy & Hyk).
    cbn in Hx1. congruence.
  - intros Hcl. rewrite Hc2, decide_True; [done|]. by apply Hfree.
Qed.

Lemma silent_client_freed_witness :
  let d := after sample_events in
  ∃ x d1 x1 d2, contexts d !! 1%positive = Some x ∧ check_client sample_env 1090 1 d = Some (None, d1) ∧
    contexts d1 !! 1%positive = Some x1 ∧
    sock x1 = None ∧ will x1 = None ∧ 1%positive ∉ (contexts_by_sock d1).*2 ∧
    mosquitto__free_disused_contexts sample_env d1 = Some (tt, d2) ∧ broker_inv None d2 ∧
    (clean_session x = true → contexts d2 !! 1%positive = None).
Proof.
  intros d. destruct (contexts d !! 1%positive) as [x|] eqn:Hx; [|by vm_compute in Hx]. exists x.
  assert (Hf : (λ x, (sock x, c_bridge x, keepalive x, c_last_msg_in x)) <$> contexts d !! 1%positive =
    Some (Some 10, None, 60, 1000)) by (vm_compute; reflexivity).
  rewrite Hx in Hf. apply (inj Some) in Hf. injection Hf as H1 H2 H3 H4.
  destruct (silent_client_freed sample_env 1090 1 x d) as (d1 & x1 & d2 & Hc);
    [apply after_ok; by_compute|exact Hx|by eexists|exact H2|lia|rewrite H3, H4; by_compute|].
  exists d1, x1, d2. split; [reflexivity|exact Hc].
Defined.

(** C19: [mosquitto__free_disused_contexts] frees exactly the contexts that wait
    for it, and nothing refers to them afterwards: the others are unchanged,
    the list is empty, every subscription in the tree and every entry of the
    tables is of a context that still exists. *)
Theorem free_disused_exact E `{Access} d :
  broker_inv None d →
  ∃ d', mosquitto__free_disused_contexts E d = Some (tt, d') ∧ broker_inv None d' ∧ ll_for_free d' = [] ∧
    (∀ c, contexts d' !! c = if decide (c ∈ ll_for_free d) then None else contexts d !! c) ∧
    Forall (λ lf, is_Some (contexts d' !! lf_context lf)) (tree_leaves (root d')) ∧
    Forall (λ c, is_Some (contexts d' !! c)) ((contexts_by_id d').*2 ++ (contexts_by_sock d').*2).
Proof.
  intros Hinv. destruct (wp_ends _ _ _ (free_disused_ok E d Hinv)) as (d' & Hrun & Hinv' & Hf & Hc).
  exists d'. split_and!; try done.
  - pose proof (db_leaves _ _ (bo_db _ _ (bi_ok _ _ Hinv'))) as Hl. eapply Forall_impl; [exact Hl|]. by intros lf [? _].
  - apply Forall_app. split; apply Forall_forall; intros c ([k c'] & -> & Hin)%list_elem_of_fmap.
    + apply (tb_id _ _ (bi_tables _ _ Hinv')) in Hin as (x & Hx & _). by eexists.
    + apply (tb_sock _ _ (bi_tables _ _ Hinv')) in Hin as (x & Hx & _). by eexists.
Qed.

(** The subscriber leaves: its subscription goes with it. *)
Lemma free_disused_exact_witness :
  let d := after (sample_events ++ sends 1 [0xE0; 0]) in
  ll_for_free d = [1%positive] ∧ length (tree_leaves (root d)) = 1%nat ∧
  ∃ d', mosquitto__free_disused_contexts sample_env d = Some (tt, d') ∧ broker_inv None d' ∧ ll_for_free d' = [] ∧
    (∀ c, contexts d' !! c = if decide (c ∈ ll_for_free d) then None else contexts d !! c) ∧
    Forall (λ lf, is_Some (contexts d' !! lf_context lf)) (tree_leaves (root d')) ∧
    Forall (λ c, is_Some (contexts d' !! c)) ((contexts_by_id d').*2 ++ (contexts_by_sock d').*2).
Proof.
  intros d. split; [vm_compute; reflexivity|]. split; [vm_compute; reflexivity|].
  apply free_disused_exact, after_ok. by_compute.
Defined.

(** C13: PUBREL publishes a message once. [mqtt3_db_message_release] ends,
    although publishing a message can add messages to the very queue it walks
    over. If one incoming message has the id, the code is 0, the message
    leaves the queue, and it is published exactly once, unless it was refused:
    outside the client's own queue, the broker changes by one call of
    [mqtt3_db_messages_queue] with the stored message and by nothing else.
    Releasing the same id again reports that there was none, and changes
    nothing but the client's own context. *)
Theorem message_released_once E `{Access} c rmid x d :
  broker_inv None d → contexts d !! c = Some x → is_Some (id x) → matches (rmid, mosq_md_in) (msgs x) = 1%nat →
  ∃ m da db d1 x1 d2 x2, mqtt3_db_message_release E c rmid mosq_md_in d = Some (0, d1) ∧ broker_inv None d1 ∧
    contexts d1 !! c = Some x1 ∧ matches (rmid, mosq_md_in) (msgs x1) = 0%nat ∧
    m ∈ msgs x ∧ key m = (rmid, mosq_md_in) ∧
    only_context c d da ∧ publishes E m da db ∧ only_queue c db d1 ∧
    mqtt3_db_message_release E c rmid mosq_md_in d1 = Some (1, d2) ∧ broker_inv None d2 ∧
    contexts d2 !! c = Some x2 ∧ matches (rmid, mosq_md_in) (msgs x2) = 0%nat ∧ only_context c d1 d2.
Proof.
  intros Hinv Hx Hid Hone.
  destruct (wp_inv _ _ _ (message_release_ok E None c rmid x d Hinv Hx Hid))
    as (rc & d1 & Hrun & (Hinv1 & Hs1 & x1 & Hx1 & H1) & ms & x1' & Hms & Hx1' & Hlen & Hhead).
  cbn beta in H1. rewrite Hone in H1, Hlen. destruct H1 as [(? & _)|[Hlt ->]]; [done|].
  assert (H0 : matches (rmid, mosq_md_in) (msgs x1) = 0%nat) by lia. assert (x1' = x1) as -> by congruence.
  destruct ms as [|m [|? ?]]; cbn [length] in Hlen; [lia| |lia]. destruct Hms as (da & y & db & dc & Hda & _ & _ & Hpub & Hq & Hdc).
  destruct (Hhead m eq_refl) as [Hkey Hin]. apply list_elem_of_fmap in Hin as (m0 & Hcore & Hm0).
  assert (Hm : cm_store m0 = cm_store m ∧ retain m0 = retain m ∧ key m0 = key m) by (unfold core in Hcore; split_and!; congruence).
  destruct Hm as (E1 & E2 & E3).
  assert (Hid1 : is_Some (id x1)).
  { destruct (same_conns_lookup _ _ _ _ _ Hs1 Hx) as (z & Hz & Hcn). apply conn_fields in Hcn as (Hi & _). congruence. }
  destruct (wp_inv _ _ _ (message_release_ok E None c rmid x1 d1 Hinv1 Hx1 Hid1))
    as (rc2 & d2 & Hrun2 & (Hinv2 & _ & x2 & Hx2 & H2) & ms2 & x2' & Hms2 & Hx2' & Hlen2 & _).
  cbn beta in H2. rewrite H0 in H2, Hlen2. destruct H2 as [(_ & H2 & ->)|[? _]]; [|lia]. destruct ms2; [|cbn in Hlen2; lia].
  exists m0, da, db, d1, x1, d2, x2. split_and!; try done; [congruence| |by eapply only_queue_context].
  unfold publishes. by rewrite E1, E2.
Qed.

(** A QoS 2 message to a topic the sender subscribed to itself. *)
Lemma message_released_once_witness :
  let d := after (sample_events ++ sends 1 [0x34; 7; 0; 1; 116; 0; 9; 104; 105]) in
  ∃ m da db d1 x1 d2 x2, mqtt3_db_message_release sample_env 1 9 mosq_md_in d = Some (0, d1) ∧ broker_inv None d1 ∧
    contexts d1 !! 1%positive = Some x1 ∧ matches (9, mosq_md_in) (msgs x1) = 0%nat ∧
    m ∈ default [] (msgs <$> contexts d !! 1%positive) ∧ key m = (9, mosq_md_in) ∧
    only_context 1 d da ∧ publishes sample_env m da db ∧ only_queue 1 db d1 ∧
    mqtt3_db_message_release sample_env 1 9 mosq_md_in d1 = Some (1, d2) ∧ broker_inv None d2 ∧
    contexts d2 !! 1%positive = Some x2 ∧ matches (9, mosq_md_in) (msgs x2) = 0%nat ∧ only_context 1 d1 d2.
Proof.
  intros d. destruct (contexts d !! 1%positive) as [x|] eqn:Hx; [|by vm_compute in Hx].
  assert (Hf : (λ x, (id x, matches (9, mosq_md_in) (msgs x))) <$> contexts d !! 1%positive = Some (Some [97], 1%nat))
    by (vm_compute; reflexivity).
  rewrite Hx in Hf. apply (inj Some) in Hf. injection Hf as H1 H2.
  apply (message_released_once sample_env 1 9 x d); [apply after_ok; by_compute|exact Hx|by rewrite H1|exact H2].
Defined.

(** ** A message that was refused *)

(** Nobody may write to s. *)
Definition closed_access : Access :=
  {| acl_check _ topic access := if bool_decide (topic = str "s" ∧ access = MOSQ_ACL_WRITE) then MOSQ_ERR_ACL_DENIED else MOSQ_ERR_SUCCESS;
     unpwd_check _ _ := MOSQ_ERR_SUCCESS; acl_entry _ old := old |}.

(** Without the condition on packets the broker is not safe. A client that
    publishes to a topic it may not write to with QoS 2, and then to another
    topic with QoS 1 and the same message id, makes the broker queue the message
    it refused, whose topic is NULL, for the subscribers of the second topic;
    the next pass writes it, and the assertion of [_mosquitto_send_publish] that
    there is a topic fails. *)
Lemma refused_message_published :
  let run := broker_run [[3]] [2] in
  let by_client evs := (λ ev, (sample_env, closed_access, ev)) <$> evs in
  ∃ d, run (by_client (sample_events ++ sends 2 [0x34; 7; 0; 1; 115; 0; 9; 104; 105] ++
         sends 2 [0x32; 7; 0; 1; 116; 0; 9; 104; 105])) (mqtt3_db_open 1).2 = Some (tt, d) ∧
    (λ x, (λ m, (state m, ms_topic <$> heap (dmsg d) !! cm_store m)) <$> msgs x) <$> contexts d !! 1%positive =
      Some [(mosq_ms_publish_qos1, Some (Some (str "t"))); (mosq_ms_publish_qos1, Some None)] ∧
    run (by_client [Poll 0 1]) d = None.
Proof. eexists. split; [vm_compute; reflexivity|]. split; vm_compute; reflexivity. Qed.
