(* ===== verification/Restore.v ===== *)
(** * Restoring the database (src/persist.c)

    What [mqtt3_db_restore] does to the broker, chunk by chunk. A restored
    context has its messages but not their counters, which stay 0; [recounted]
    is the broker with the counters put right, and it is this one that is
    consistent after every chunk. *)

From stdpp Require Import base list numbers strings option sets gmap infinite.
From Stdlib Require Import ZArith Lia.
From S2P Require Import Prelude Topic Packet State Store Send Messages Db Acl Subs DbInv Session Context Handlers Lifecycle Release Free Serve Connect Broker Persist Snapshot.
Local Open Scope Z_scope.
Local Open Scope broker_scope.

(** ** The counters *)

Definition recount (x : mosquitto) : mosquitto :=
  set_msg_count12 (λ _, count12 (msgs x)) (set_msg_count (λ _, Z.of_nat (length (msgs x))) x).
Definition recounted (d : db) : db := set_contexts (fmap recount) d.

(** [m] does the same when the contexts are changed by [f]. *)
Definition commutes {A} (f : gmap ptr mosquitto → gmap ptr mosquitto) (m : M db A) : Prop :=
  ∀ d, m (set_contexts f d) = match m d with Some (a, d') => Some (a, set_contexts f d') | None => None end.

Section commutes.
Context (f : gmap ptr mosquitto → gmap ptr mosquitto).

Lemma commutes_ret {A} (a : A) : commutes f (ret a).
Proof. done. Qed.

Lemma commutes_bind {A B} (m : M db A) (k : A → M db B) :
  commutes f m → (∀ a, commutes f (k a)) → commutes f (bind m k).
Proof. intros Hm Hk d. unfold bind. rewrite Hm. destruct (m d) as [[a d']|]; [apply Hk|done]. Qed.

Lemma commutes_lift {A} (o : option A) : commutes f (mlift o).
Proof. by destruct o. Qed.

Lemma commutes_store {A} (m : M msg_db A) : commutes f (on_store m).
Proof. intros d. unfold on_store. cbn. by destruct (m (dmsg d)) as [[a s]|]. Qed.

Lemma commutes_modify g : (∀ d, g (set_contexts f d) = set_contexts f (g d)) → commutes f (mmodify g).
Proof. intros Hg d. unfold mmodify. by rewrite Hg. Qed.

(** Reading what is not a context. *)
Lemma commutes_get {A} (k : db → M db A) :
  (∀ d s, k (set_contexts f d) s = k d s) → (∀ d, commutes f (k d)) → commutes f (bind mget k).
Proof. intros Hg Hk d. unfold bind, mget. rewrite Hg. apply Hk. Qed.

Lemma set_retained_commutes topic stored h : commutes f (set_retained topic stored h).
Proof.
  unfold set_retained. apply commutes_bind; [case_bool_decide; [apply commutes_ret|apply commutes_store]|]. intros _.
  apply commutes_bind.
  { destruct (sh_retained h); [|apply commutes_ret]. apply commutes_bind; [apply commutes_store|]. intros _.
    by apply commutes_modify. }
  intros _. apply commutes_get; [done|]. intros d.
  apply commutes_bind; [apply commutes_lift|]. intros st. destruct (_ =? 0); [apply commutes_ret|].
  apply commutes_bind; [apply commutes_store|]. intros _. apply commutes_bind; [by apply commutes_modify|]. intros _.
  apply commutes_ret.
Qed.

Lemma map_branches_commutes g bs : Forall (λ b, commutes f (g b)) bs → commutes f (map_branches g bs).
Proof.
  induction 1 as [|b bs Hb _ IH]; cbn [map_branches]; [apply commutes_ret|].
  apply commutes_bind; [done|]. intros b'. apply commutes_bind; [done|]. intros bs'. apply commutes_ret.
Qed.

Lemma sub_search_commutes process tokens sr h :
  (∀ h sr, commutes f (process h sr)) → commutes f (_sub_search process tokens sr h).
Proof.
  intros Hp. revert tokens sr. induction h as [t s r ch IH] using subhier_ind'. intros tokens sr d.
  rewrite !sub_search_unfold. cbn [sh_children]. apply commutes_bind; [|intros ch'; apply commutes_ret].
  apply map_branches_commutes. eapply Forall_impl; [exact IH|]. intros b Hb. unfold branch_search.
  assert (Hh : commutes f (if is_hash b && bool_decide (sh_children b = []) then process b false else ret b)).
  { destruct (_ && _); [apply Hp|apply commutes_ret]. }
  destruct tokens as [|t' ts]; [done|]. destruct (_ || _); [|done]. cbv zeta.
  apply commutes_bind; [apply Hb|]. intros b1. destruct (bool_decide (ts = [])); [apply Hp|apply commutes_ret].
Qed.

(** A message that is published for nobody does not look at the contexts. *)
Lemma add_nobody ctxs ctxs' q tokens h : _sub_add ctxs None q tokens h = _sub_add ctxs' None q tokens h.
Proof.
  revert h. induction tokens as [|t ts IH]; intros h; cbn [_sub_add]; [done|].
  destruct (list_find _ _) as [[i b]|]; by rewrite IH.
Qed.

Lemma queue_roots_commutes E acl topic q r stored tokens t bs :
  commutes f (queue_roots E acl None topic q r stored tokens t bs).
Proof.
  induction bs as [|b bs IH]; cbn [queue_roots]; [apply commutes_ret|].
  apply commutes_bind; [|intros b'; apply commutes_bind; [done|intros bs'; apply commutes_ret]].
  case_bool_decide; [|apply commutes_ret].
  apply commutes_get.
  { intros d s. destruct r; [|done]. by rewrite (add_nobody _ (contexts d)). }
  intros d. apply commutes_bind; [destruct r; [apply commutes_lift|apply commutes_ret]|]. intros b1.
  apply sub_search_commutes. intros h sr. unfold _subs_process.
  apply commutes_bind; [destruct (_ && _); [apply set_retained_commutes|apply commutes_ret]|]. intros h'.
  apply commutes_bind; [|intros _; apply commutes_ret]. destruct (sh_subs h); apply commutes_ret.
Qed.

Lemma messages_queue_commutes E acl topic q r stored :
  commutes f (mqtt3_db_messages_queue E acl None topic q r stored).
Proof.
  unfold mqtt3_db_messages_queue. apply commutes_bind; [apply commutes_lift|]. intros ts.
  apply commutes_bind; [apply commutes_store|]. intros _. apply commutes_bind; [apply commutes_lift|]. intros t.
  apply commutes_get; [done|]. intros d. apply commutes_bind; [apply queue_roots_commutes|]. intros bs.
  apply commutes_bind; [by apply commutes_modify|]. intros _. apply commutes_bind; [apply commutes_store|]. intros o.
  apply commutes_ret.
Qed.
End commutes.

Lemma set_contexts_same d : set_contexts (λ _, contexts d) d = d.
Proof. by destruct d. Qed.

Lemma messages_queue_contexts E acl topic q r stored d a d' :
  mqtt3_db_messages_queue E acl None topic q r stored d = Some (a, d') → contexts d' = contexts d.
Proof.
  intros Hrun. pose proof (messages_queue_commutes (λ _, contexts d) E acl topic q r stored d) as Hc.
  rewrite set_contexts_same, Hrun in Hc. injection Hc as Hc. by rewrite Hc.
Qed.

(** The same for the other steps, when only the counters change. *)
Abbreviation recounts := (fmap recount : gmap ptr mosquitto → gmap ptr mosquitto).

Lemma upd_recounts c g : (∀ x, recount (g x) = g (recount x)) → commutes recounts (upd_context c g).
Proof.
  intros Hg d. unfold upd_context. cbn [contexts set_contexts]. rewrite lookup_fmap.
  destruct (contexts d !! c) as [x|]; [|done]. cbn. unfold set_contexts. cbn. by rewrite fmap_insert, Hg.
Qed.

Lemma find_leaf_recounts ctxs cid l i : find_leaf (recounts ctxs) cid l i = find_leaf ctxs cid l i.
Proof.
  revert i. induction l as [|lf l IH]; intros i; cbn [find_leaf]; [done|]. rewrite lookup_fmap.
  destruct (ctxs !! lf_context lf) as [x|]; [|done]. cbn [fmap option_fmap option_map mbind option_bind].
  by destruct (bool_decide _); rewrite ?IH.
Qed.

Lemma sub_add_recounts ctxs c q ts h : _sub_add (recounts ctxs) c q ts h = _sub_add ctxs c q ts h.
Proof.
  revert h. induction ts as [|t ts IH]; intros h; cbn [_sub_add].
  - unfold add_leaf. destruct c as [c|]; [|done]. rewrite lookup_fmap. destruct (ctxs !! c) as [x|]; [|done].
    cbn [fmap option_fmap option_map mbind option_bind]. change (id (recount x)) with (id x).
    destruct (id x); [|done]. by rewrite find_leaf_recounts.
  - destruct (list_find _ _) as [[i b]|]; by rewrite IH.
Qed.

Lemma sub_add_commutes c sub q : commutes recounts (mqtt3_sub_add c sub q).
Proof.
  unfold mqtt3_sub_add. apply commutes_bind; [apply commutes_lift|]. intros ts. apply commutes_get.
  - intros d s. cbn [contexts set_contexts subs_children]. destruct (head ts) as [t|]; [|done].
    assert (Hr : sub_add_root (recounts (contexts d)) (Some c) q t ts (subs_children d) =
      sub_add_root (contexts d) (Some c) q t ts (subs_children d)).
    { unfold sub_add_root. destruct (list_find (λ b, sh_topic b = t) (subs_children d)) as [[i b]|]; by rewrite sub_add_recounts. }
    unfold bind at 1 4. unfold mlift at 1 3, ret at 1 3. by rewrite Hr.
  - intros d. apply commutes_bind; [apply commutes_lift|]. intros t. apply commutes_bind; [apply commutes_lift|].
    intros [[rc added] ch]. apply commutes_bind; [by apply commutes_modify|]. intros _.
    apply commutes_bind; [|intros _; apply commutes_ret]. destruct added; [|apply commutes_ret].
    apply commutes_bind; [by apply upd_recounts|]. intros _. by apply commutes_modify.
Qed.

(** ** Contexts *)

Section contexts.
Context (E : env).

(** The context of a session that was not in the table. *)
Definition restored_context (cid : bytes) (lmid : Z) : mosquitto :=
  set_last_mid (λ n, if lmid =? 0 then n else lmid)
    (set_clean_session (λ _, false) (set_id (λ _, Some cid) (new_context E None))).

Lemma find_or_add_known cid d c : find_client cid d = Some c → _db_find_or_add_context E cid 0 d = Some (c, d).
Proof. intros Hf. unfold _db_find_or_add_context, bind, mget. rewrite Hf. done. Qed.

Lemma find_or_add_new cid lmid d :
  find_client cid d = None →
  let c := fresh (dom (contexts d)) in
  contexts d !! c = None ∧
  _db_find_or_add_context E cid lmid d =
    Some (c, set_by_id (λ l, l ++ [(cid, c)]) (set_contexts <[c := restored_context cid lmid]> d)).
Proof.
  intros Hf c. assert (Hc : contexts d !! c = None) by (apply not_elem_of_dom, is_fresh). split; [done|].
  unfold _db_find_or_add_context, bind at 1, mget at 1. rewrite Hf. fold c.
  unfold mqtt3_context_init, bind, mget, massert, ret, mlift, mmodify, upd_context.
  rewrite bool_decide_eq_true_2 by done. cbn -[c]. rewrite lookup_insert_eq. cbn -[c]. rewrite lookup_insert_eq. cbn -[c].
  unfold restored_context. destruct (lmid =? 0) eqn:Hl; cbn -[c].
  - unfold set_contexts, set_by_id. cbn -[c]. by rewrite !insert_insert_eq.
  - rewrite !lookup_insert_eq. cbn -[c]. unfold set_contexts, set_by_id. cbn -[c]. by rewrite !insert_insert_eq.
Qed.
End contexts.

(** ** Chunks *)

(** What is restored of a stored message. *)
Definition restored_content (st : msg_store) :=
  (db_id st, source_id st, ms_topic st, ms_payload st, source_mid st, 0, ms_qos st,
   if match ms_topic st with Some t => sys_topic t | None => false end then false else ms_retain st).

(** The stored messages [sv] were restored and can be found. *)
Record loaded (sv : list msg_store) (l : loading) : Prop := {
  lo_inv : broker_inv None (recounted (ld_db l));
  lo_find st : st ∈ sv → ∃ s m, find_load (db_id st) (ld_load l) = Some (Some s) ∧
    heap (dmsg (ld_db l)) !! s = Some m ∧ content m = restored_content st;
}.

Lemma find_load_cons i o k l : find_load i ((k, o) :: l) = if decide (k = i) then Some o else find_load i l.
Proof.
  unfold find_load. cbn [list_find fst]. destruct (decide (k = i)); [done|].
  by destruct (list_find _ l) as [[j [k' o']]|].
Qed.

Section steps.
Context (E : env) `{Access} (sv : list msg_store).

(** The chunk [k] brings [l] to a state that satisfies [Q]. *)
Definition gives (k : chunk) (l : loading) (Q : loading → Prop) : Prop :=
  ∃ l', apply_chunk E k l = Some (inr tt, l') ∧ Q l'.

Lemma cfg_gives sh last l : loaded sv l → gives (KCfg sh last) l (λ l', loaded sv l' ∧
  contexts (ld_db l') = contexts (ld_db l) ∧ contexts_by_id (ld_db l') = contexts_by_id (ld_db l) ∧ subs_children (ld_db l') = subs_children (ld_db l)).
Proof.
  intros [Hinv Hf]. eexists. split; [reflexivity|]. split; [|done]. split; [|exact Hf].
  eapply inv_conns; [exact Hinv| |by split].
  destruct (bi_ok _ _ Hinv) as [[[Hc [Hst [L1 L2 L3 L4]]] [S1 S2 S3] Hl Hr] Hsl]. split; [|exact Hsl].
  split; [|split; [exact S1|exact S2|exact S3]|exact Hl|exact Hr]. split; [|split; [exact Hst|split; [exact L1|exact L2|exact L3|exact L4]]].
  intros c x Hx. destruct (Hc c x Hx) as [H1 H2 H3 H4 H5]. split; [exact H1|exact H2|exact H3|exact H4|exact H5].
Qed.

Lemma store_gives st m l :
  loaded sv l → db_id st ≠ 0 → db_id st ∉ db_id <$> sv →
  gives (KStore (db_id st) (source_id st) (source_mid st) m (ms_topic st) (ms_qos st)
    (if match ms_topic st with Some t => sys_topic t | None => false end then false else ms_retain st) (ms_payload st)) l
    (λ l', loaded (st :: sv) l' ∧ contexts (ld_db l') = contexts (ld_db l) ∧ contexts_by_id (ld_db l') = contexts_by_id (ld_db l) ∧ subs_children (ld_db l') = subs_children (ld_db l)).
Proof.
  intros [Hinv Hf] H0 Hnew. set (r := if _ : bool then false else _).
  pose proof (inv_store None (source_id st) (source_mid st) (ms_topic st) (ms_qos st) (ms_payload st) (negb (bool_code r =? 0)) (db_id st) _ Hinv) as Hst.
  apply wp_inv in Hst as (s & d' & Hrun & Hinv' & _).
  assert (Hfresh : heap (dmsg (ld_db l)) !! next_ptr (dmsg (ld_db l)) = None).
  { destruct (heap _ !! _) eqn:Hh; [|done].
    pose proof (heap_fresh _ (proj2 (co_store _ _ (db_core _ _ (bo_db _ _ (bi_ok _ _ Hinv))))) (next_ptr (dmsg (ld_db l)))) as Hlt.
    cbn in Hlt. rewrite Hh in Hlt. specialize (Hlt ltac:(by eexists)). lia. }
  injection Hrun as <- <-. apply Z.eqb_neq in H0. destruct l as [d load]. cbn [ld_db ld_load] in *.
  eexists. split; [|split; [split|]].
  - cbn [apply_chunk]. unfold lift_m, restore_store, on_db, on_store, set_load, bind, mget, mmodify, ret. cbn [mbind option_bind ld_db].
    unfold mqtt3_db_message_store. cbn [fresh_ptr]. cbv zeta. rewrite H0. cbn [mbind option_bind ld_db dmsg set_dmsg].
    unfold mlift, deref_store. cbn [heap mosquitto__db_msg_store_add]. rewrite lookup_insert_eq. unfold ret. reflexivity.
  - cbn [ld_db]. eapply (eq_ind _ (λ d, broker_inv None d)); [exact Hinv'|]. unfold recounted, set_contexts, set_dmsg. cbn.
    by rewrite H0.
  - cbn [ld_db ld_load db_id]. intros st' [->|Hin]%elem_of_cons.
    + eexists _, _. split; [by rewrite find_load_cons, decide_True|]. cbn. rewrite lookup_insert_eq. split; [reflexivity|].
      cbn. unfold restored_content, content. cbn. fold r. by destruct r.
    + destruct (Hf st' Hin) as (s & m' & Hl & Hh & Hc). exists s, m'.
      rewrite find_load_cons, decide_False by (intros Heq; apply Hnew; rewrite Heq; by apply list_elem_of_fmap_2).
      split; [done|]. cbn. rewrite lookup_insert_ne by congruence. done.
  - done.
Qed.

(** A session, without messages yet. *)
Lemma client_gives cid lmid t l :
  loaded sv l → find_client cid (ld_db l) = None →
  gives (KClient cid lmid t) l (λ l', loaded sv l' ∧ ∃ c, contexts (ld_db l) !! c = None ∧
    ld_db l' = set_by_id (λ l, l ++ [(cid, c)])
      (set_contexts <[c := set_disconnect_t (λ _, t) (restored_context E cid lmid)]> (ld_db l)) ∧ ld_load l' = ld_load l).
Proof.
  intros [Hinv Hf] Hn. destruct l as [d load]. cbn [ld_db ld_load] in *. set (x := set_disconnect_t _ _).
  destruct (find_or_add_new E cid lmid d Hn) as [Hc Hrun]. set (c := fresh (dom (contexts d))) in *.
  exists (Loading (set_by_id (λ l, l ++ [(cid, c)]) (set_contexts <[c := x]> d)) load).
  split; [|split; [split; [|exact Hf]|by exists c]].
  - cbn [apply_chunk]. unfold lift_m, restore_client, on_db, bind. cbn [ld_db ld_load]. rewrite Hrun. cbn [mbind option_bind].
    unfold upd_context. cbn [contexts set_by_id set_contexts ld_db]. rewrite lookup_insert_eq. cbn [mbind option_bind].
    unfold ret. f_equal. f_equal. unfold set_contexts, set_by_id. cbn [contexts dmsg subs_children subscription_count
      retained_count contexts_by_id contexts_by_sock ll_for_free client_counts bridges]. by rewrite insert_insert_eq.
  - cbn [ld_db]. apply (add_context_ok None c (recount x) (recounted d)); try done.
    + cbn. by rewrite lookup_fmap, Hc.
    + split; try done; try (by constructor). intros _. split; try done. apply NoDup_nil_2.
    + split; try done; [by intros _ [? ?]..|by intros [? ?]].
    + intros i [= <-]. by apply find_client_None.
    + unfold recounted, set_contexts, set_by_id, set_by_sock. cbn. by rewrite fmap_insert, app_nil_r.
Qed.

Lemma carries_content d d' dir s s' st st' :
  heap d !! s = Some st → heap d' !! s' = Some st' →
  (ms_topic st', ms_payload st', ms_qos st') = (ms_topic st, ms_payload st, ms_qos st) →
  carries d dir s → carries d' dir s'.
Proof.
  intros Hs Hs' Heq. injection Heq as E1 E2 E3.
  assert (Hsend : sendable d s → sendable d' s').
  { intros (st0 & t & Hh & Ht & ?). rewrite Hs in Hh. injection Hh as <-. exists st', t. by rewrite E1, E2, E3. }
  destruct dir; cbn; [|done]. intros (st0 & Hh & Hp). rewrite Hs in Hh. injection Hh as <-.
  exists st'. split; [done|]. rewrite E1. intros t Ht. destruct (Hp t Ht) as (? & ? & ?). auto.
Qed.

Lemma link_msg_ok m x :
  last_msg x = cm_ptr <$> last (msgs x) → NoDup (cm_ptr <$> msgs x) →
  link_msg m x = Some (set_last_msg (λ _, Some (cm_ptr m)) (set_msgs (λ _, msgs x ++ [m]) x)).
Proof.
  intros Hl Hn. unfold link_msg. destruct (msgs x) as [|y l] eqn:Hm; [done|].
  destruct (last_msg x) eqn:Hlm; [|by rewrite last_cons in Hl; destruct (last l)].
  rewrite append_msg_ok by (by rewrite ?Hlm, ?Hm). by rewrite Hm.
Qed.

Lemma direction_decode dir : snd <$> list_find (λ x, direction_code x = direction_code dir) msg_directions = Some dir.
Proof. by destruct dir. Qed.
Lemma state_decode st : snd <$> list_find (λ x, state_code x = state_code st) msg_states = Some st.
Proof. by destruct st. Qed.

(** A message of a session: [m] is what was saved, of the stored message [st]. *)
Definition linked_msg (p s : ptr) (m : client_msg) : client_msg :=
  ClientMsg p s 0 (mid m) (qos m) (retain m) (direction m) (state m) (dup m).
Definition linked_to (p s : ptr) (m : client_msg) (x : mosquitto) : mosquitto :=
  set_last_msg (λ _, Some p) (set_msgs (λ _, msgs x ++ [linked_msg p s m]) x).

Lemma recount_linked p s m x :
  recount (linked_to p s m x) =
    set_msg_count12 (λ n, if 0 <? qos m then n + 1 else n) (set_msg_count (λ n, n + 1)
      (set_last_msg (λ _, Some p) (set_msgs (λ _, msgs x ++ [linked_msg p s m]) (recount x)))).
Proof.
  set (l := msgs x ++ [linked_msg p s m]).
  assert (H1 : Z.of_nat (length l) = Z.of_nat (length (msgs x)) + 1) by (unfold l; rewrite length_app; cbn; lia).
  assert (H2 : count12 l = if 0 <? qos m then count12 (msgs x) + 1 else count12 (msgs x)).
  { rewrite (count12_perm l (linked_msg p s m :: msgs x)) by (unfold l; by rewrite <-Permutation_cons_append).
    rewrite count12_cons. cbn [qos linked_msg]. destruct (0 <? qos m); lia. }
  change (recount (linked_to p s m x)) with (set_msg_count12 (λ _, count12 l) (set_msg_count (λ _, Z.of_nat (length l)) (linked_to p s m x))).
  rewrite H1, H2. reflexivity.
Qed.

Lemma recounted_lookup d c x : contexts d !! c = Some x → contexts (recounted d) !! c = Some (recount x).
Proof. intros Hx. cbn. by rewrite lookup_fmap, Hx. Qed.

(** A message is linked to a queue. *)
Lemma link_inv d c x m s st :
  let p := next_ptr (dmsg d) in let msg := linked_msg p s m in
  broker_inv None (recounted d) → contexts d !! c = Some x → is_Some (id x) →
  heap (dmsg d) !! s = Some st → msg_ok (dmsg d) msg →
  link_msg msg x = Some (linked_to p s m x) ∧
  ∃ d', store_ref s (snd (fresh_ptr (dmsg d))) = Some d' ∧ (∀ y, content_at d' y = content_at (dmsg d) y) ∧
    broker_inv None (recounted (set_dmsg (λ _, d') (set_contexts <[c := linked_to p s m x]> d))).
Proof.
  intros p msg Hinv Hx Hid Hs Hmsg. pose proof (recounted_lookup _ _ _ Hx) as Hrec.
  pose proof (bi_ok _ _ Hinv) as [[[Hco _] _ _ _] _]. destruct (cx_queue _ _ (Hco c _ Hrec) Hid) as [Hql Hqn _ _].
  split; [by apply link_msg_ok|].
  set (op := λ s1 : cm, c' ← append_msg msg (ctx s1); d' ← store_ref s (snd (fresh_ptr (mdb s1)));
    Some (tt, CM (set_msg_count12 (λ n, if 0 <? qos msg then n + 1 else n) (set_msg_count (λ n, n + 1) c')) d')).
  pose proof (on_cm_ok None c (recount x) op (λ _ s', store_ref s (snd (fresh_ptr (dmsg d))) = Some (mdb s') ∧
    (∀ y, content_at (mdb s') y = content_at (dmsg d) y) ∧ ctx s' = recount (linked_to p s m x)) (recounted d) Hinv Hrec Hid) as Hop.
  apply wp_inv in Hop as ([] & dr & _ & Hinv' & _ & s' & (Hsr & Hcont & Hctx) & ->).
  - exists (mdb s'). split_and!; [done|done|]. rewrite Hctx in Hinv'.
    eapply (eq_ind _ (λ d, broker_inv None d)); [exact Hinv'|]. unfold recounted, set_contexts, set_dmsg. cbn. by rewrite fmap_insert.
  - intros others Hcm.
    destruct (cm_ok_append others _ s msg st E Hcm Hs eq_refl eq_refl Hmsg) as (c' & d' & Ea & Es & Hstep & _ & Hcont & _).
    unfold wp, op. cbn [ctx mdb] in *. rewrite Ea. cbn [mbind option_bind]. rewrite Es. cbn [mbind option_bind].
    split; [exact Hstep|]. cbn [mdb ctx]. split_and!; [exact Es|exact Hcont|].
    rewrite append_msg_ok in Ea by done. apply (inj Some) in Ea as <-. rewrite recount_linked. reflexivity.
Qed.

Lemma loaded_content l l' :
  loaded sv l → broker_inv None (recounted (ld_db l')) → ld_load l' = ld_load l →
  (∀ s, content_at (dmsg (ld_db l')) s = content_at (dmsg (ld_db l)) s) → loaded sv l'.
Proof.
  intros [_ Hf] Hinv Hl Hc. split; [done|]. rewrite Hl. intros st Hst. destruct (Hf st Hst) as (s & m & H1 & H2 & H3).
  specialize (Hc s). unfold content_at in Hc. rewrite H2 in Hc. destruct (heap (dmsg (ld_db l')) !! s) as [m'|] eqn:Hm'; [|done].
  exists s, m'. split_and!; [done|done|]. apply (inj Some) in Hc. by rewrite Hc.
Qed.

Lemma msg_gives d0 cid c x m st l :
  loaded sv l → find_client cid (ld_db l) = Some c → contexts (ld_db l) !! c = Some x → is_Some (id x) →
  st ∈ sv → msg_ok d0 m → heap d0 !! cm_store m = Some st →
  gives (KMsg cid (db_id st) (mid m) (qos m) (retain m) (direction m) (state m) (dup m)) l (λ l',
    loaded sv l' ∧ ∃ p s, contexts (ld_db l') = <[c := linked_to p s m x]> (contexts (ld_db l)) ∧
      content_at (dmsg (ld_db l')) s = Some (restored_content st) ∧
      (∀ s', content_at (dmsg (ld_db l')) s' = content_at (dmsg (ld_db l)) s') ∧
      contexts_by_id (ld_db l') = contexts_by_id (ld_db l) ∧ subs_children (ld_db l') = subs_children (ld_db l)).
Proof.
  intros Hlo Hfc Hx Hid Hst Hm Hst0. pose proof Hlo as [Hinv Hf]. destruct l as [d load]. cbn [ld_db ld_load] in *.
  destruct (Hf st Hst) as (s & m' & Hload & Hs & Hc). set (p := next_ptr (dmsg d)). set (msg := linked_msg p s m).
  assert (Hmsg : msg_ok (dmsg d) msg).
  { destruct Hm as (Hq & Hin & Hca & Hout). split; [done|]. split; [done|]. split; [|done].
    eapply carries_content; [exact Hst0|exact Hs| |done]. unfold content, restored_content in Hc. congruence. }
  destruct (link_inv d c x m s m' Hinv Hx Hid Hs Hmsg) as (Hlink & d' & Hsr & Hcont & Hinv').
  set (l' := Loading (set_dmsg (λ _, d') (set_contexts <[c := linked_to p s m x]> d)) load).
  exists l'. split; [|split; [by apply (loaded_content (Loading d load))|]].
  - cbn [apply_chunk]. unfold checked, _db_client_msg_restore, on_db, on_store, bind, mget. cbn [fresh_ptr mbind option_bind ld_db ld_load].
    rewrite Hload, direction_decode, state_decode. cbn [mlift]. unfold ret at 1 2 3.
    cbn [ld_db dmsg set_dmsg]. cbn [snd fresh_ptr] in Hsr. rewrite Hsr. cbn [mbind option_bind ld_db ld_load].
    rewrite (find_or_add_known E cid _ c) by exact Hfc. cbn [mbind option_bind].
    unfold on_context, on_cm, on_ctx. cbn [ld_db contexts set_dmsg]. rewrite Hx. cbn [mbind option_bind ctx mdb].
    replace (ClientMsg _ _ _ _ _ _ _ _ _) with msg by (unfold msg, linked_msg; by destruct (retain m), (dup m)).
    change (link_msg msg x = Some (linked_to p s m x)) in Hlink. rewrite Hlink. reflexivity.
  - exists p, s. cbn [l' ld_db contexts dmsg set_dmsg set_contexts contexts_by_id subs_children]. split_and!; try done.
    rewrite Hcont. unfold content_at. rewrite Hs. cbn. by rewrite Hc.
Qed.
End steps.
