(* ===== verification/RestoreTree.v ===== *)
(** * Restoring the tree (src/persist.c)

    The chunks of subscriptions and retained messages: what each does to the
    subscriptions, to the retained messages and to the stored messages. A
    retained message is restored by publishing it, for nobody. *)

From stdpp Require Import base list numbers strings option sets gmap infinite.
From Stdlib Require Import ZArith Lia.
From S2P Require Import Prelude Topic Packet State Store Send Messages Db Acl Subs DbInv Session Context Handlers Persist Nodes Snapshot Lifecycle Release Free Serve Connect Broker Restore.
Local Open Scope Z_scope.
Local Open Scope broker_scope.

(** ** What publishing does to the store *)

(** Only messages of [T] are touched, and those that stay keep their content. *)
Definition heap_step (T : list ptr) (d d' : db) : Prop := ∀ s,
  (s ∉ T → heap (dmsg d') !! s = heap (dmsg d) !! s) ∧
  (∀ m', heap (dmsg d') !! s = Some m' → ∃ m, heap (dmsg d) !! s = Some m ∧ content m' = content m).

#[export] Instance heap_step_refl T : Reflexive (heap_step T).
Proof. intros d s. eauto. Qed.

#[export] Instance heap_step_trans T : Transitive (heap_step T).
Proof.
  intros d1 d2 d3 H1 H2 s. destruct (H1 s) as [A1 B1], (H2 s) as [A2 B2]. split.
  - intros Hs. by rewrite A2, A1.
  - intros m' Hm'. destruct (B2 m' Hm') as (m & Hm & Hc). destruct (B1 m Hm) as (m0 & ? & ?). exists m0. split; [done|congruence].
Qed.

Lemma heap_step_mono T T' d d' : T ⊆ T' → heap_step T d d' → heap_step T' d d'.
Proof. intros HT Hs s. destruct (Hs s) as [A B]. split; [|done]. intros Hn. apply A. set_solver. Qed.

Definition hsteps {A} (T : list ptr) (m : M db A) : Prop := ∀ d a d', m d = Some (a, d') → heap_step T d d'.

Lemma hsteps_ret {A} T (a : A) : hsteps T (ret a).
Proof. intros d a' d' [= _ <-]. done. Qed.

Lemma hsteps_bind {A B} T (m : M db A) (k : A → M db B) : hsteps T m → (∀ a, hsteps T (k a)) → hsteps T (bind m k).
Proof.
  intros Hm Hk d b d' Hrun. unfold bind in Hrun. destruct (m d) as [[a d1]|] eqn:H1; [|done].
  etrans; [by eapply Hm|by eapply Hk].
Qed.

Lemma hsteps_mono {A} T T' (m : M db A) : T ⊆ T' → hsteps T m → hsteps T' m.
Proof. intros HT Hm d a d' Hrun. eapply heap_step_mono; [done|by eapply Hm]. Qed.

Lemma hsteps_same {A} T (m : M db A) : (∀ d a d', m d = Some (a, d') → heap (dmsg d') = heap (dmsg d)) → hsteps T m.
Proof. intros Hm d a d' Hrun s. rewrite (Hm d a d' Hrun). eauto. Qed.

Lemma hsteps_lift {A} T (o : option A) : hsteps T (mlift o).
Proof. apply hsteps_same. intros d a d'. destruct o; [|done]. by intros [= _ <-]. Qed.

Lemma hsteps_get T : hsteps T mget.
Proof. apply hsteps_same. by intros d a d' [= _ <-]. Qed.

Lemma hsteps_modify T g : (∀ d, heap (dmsg (g d)) = heap (dmsg d)) → hsteps T (mmodify g).
Proof. intros Hg. apply hsteps_same. intros d a d' [= _ <-]. apply Hg. Qed.

(** A change of one message. *)
Lemma heap_step_upd s d d' (o : option msg_store) m :
  heap (dmsg d) !! s = Some m → heap (dmsg d') = partial_alter (λ _, o) s (heap (dmsg d)) →
  match o with Some m' => content m' = content m | None => True end → heap_step [s] d d'.
Proof.
  intros Hs Hh Ho s'. rewrite Hh. destruct (decide (s' = s)) as [->|Hne].
  - split; [set_solver|]. rewrite lookup_partial_alter_eq. intros m' ->. eauto.
  - rewrite lookup_partial_alter_ne by done. eauto.
Qed.

Lemma hsteps_ref s : hsteps [s] (on_store (λ d, d ← store_ref s d; Some (tt, d))).
Proof.
  intros d a d' Hrun. unfold on_store, store_ref, upd_store in Hrun. destruct (heap (dmsg d) !! s) as [m|] eqn:Hs; [|done].
  injection Hrun as _ <-. by eapply (heap_step_upd s _ _ (Some _)).
Qed.

Lemma hsteps_deref s : hsteps [s] (on_store (mosquitto__db_msg_store_deref s)).
Proof.
  intros d a d' Hrun. unfold on_store, mosquitto__db_msg_store_deref, upd_store in Hrun.
  destruct (heap (dmsg d) !! s) as [m|] eqn:Hs; [|done]. cbn [mbind option_bind heap set_heap] in Hrun.
  rewrite lookup_insert_eq in Hrun. cbn [mbind option_bind] in Hrun. destruct (_ =? 0).
  - unfold mosquitto__db_msg_store_remove in Hrun. cbn [heap set_heap] in Hrun. rewrite lookup_insert_eq in Hrun.
    injection Hrun as _ <-. eapply (heap_step_upd s _ _ None); [done| |done]. cbn. by rewrite delete_insert_eq.
  - injection Hrun as _ <-. by eapply (heap_step_upd s _ _ (Some _)).
Qed.

Section publish.
Context (E : env) (acl : mosquitto → bytes → Z → Z) (topic : bytes) (q : Z) (r : bool) (stored : ptr).

Lemma process_hsteps h sr :
  hsteps (stored :: option_list (sh_retained h)) (_subs_process E acl None topic q r stored h sr).
Proof.
  unfold _subs_process. apply hsteps_bind; [|intros h'; apply hsteps_bind; [destruct (sh_subs h); apply hsteps_ret|intros; apply hsteps_ret]].
  destruct (_ && _); [|apply hsteps_ret]. unfold set_retained.
  apply hsteps_bind.
  { case_bool_decide; [apply hsteps_ret|]. apply hsteps_same. by intros d a d' [= _ <-]. }
  intros _. apply hsteps_bind.
  { destruct (sh_retained h) as [s|]; [|apply hsteps_ret]. apply hsteps_bind; [|intros; by apply hsteps_modify].
    eapply hsteps_mono; [|apply hsteps_deref]. cbn. set_solver. }
  intros _. apply hsteps_bind; [apply hsteps_get|]. intros d. apply hsteps_bind; [apply hsteps_lift|]. intros st.
  destruct (_ =? 0); [apply hsteps_ret|]. apply hsteps_bind; [|intros _; apply hsteps_bind; [by apply hsteps_modify|intros; apply hsteps_ret]].
  eapply hsteps_mono; [|apply hsteps_ref]. set_solver.
Qed.

Lemma search_retained (process : subhier → bool → M db subhier) ts sr h d h' d' :
  _sub_search process ts sr h d = Some (h', d') → sh_retained h' = sh_retained h.
Proof.
  rewrite sub_search_unfold. unfold bind. destruct (map_branches _ _ _) as [[ch s1]|]; [|done]. by intros [= <- _].
Qed.

Lemma search_hsteps ts sr h :
  hsteps (stored :: tree_refs h) (_sub_search (_subs_process E acl None topic q r stored) ts sr h).
Proof.
  revert ts sr. induction h as [t l ro ch IH] using subhier_ind'. intros ts sr d h' d' Hrun.
  rewrite sub_search_unfold in Hrun. revert d h' d' Hrun.
  change (hsteps (stored :: tree_refs (Subhier t l ro ch))
    (let* ch' := map_branches (branch_search (_subs_process E acl None topic q r stored) ts sr) ch in
     ret (set_sh_children ch' (Subhier t l ro ch)))).
  apply hsteps_bind; [|intros; apply hsteps_ret]. eapply (hsteps_mono (stored :: concat (tree_refs <$> ch))); [cbn; set_solver|].
  induction IH as [|b ch Hb _ IHch]; cbn [map_branches fmap list_fmap concat]; [apply hsteps_ret|].
  apply hsteps_bind; [|intros b'; apply hsteps_bind; [|intros; apply hsteps_ret]; eapply hsteps_mono; [|exact IHch]; set_solver].
  eapply (hsteps_mono (stored :: tree_refs b)); [set_solver|].
  assert (Hp : ∀ b' sr, sh_retained b' = sh_retained b → hsteps (stored :: tree_refs b) (_subs_process E acl None topic q r stored b' sr)).
  { intros b' sr' Hr. eapply hsteps_mono; [|apply process_hsteps]. rewrite Hr. destruct b. cbn. set_solver. }
  assert (Hh : hsteps (stored :: tree_refs b) (if is_hash b && bool_decide (sh_children b = [])
    then _subs_process E acl None topic q r stored b false else ret b)).
  { destruct (_ && _); [by apply Hp|apply hsteps_ret]. }
  unfold branch_search. destruct ts as [|t' ts]; [done|]. destruct (_ || _); [|done]. cbv zeta.
  intros d b2 d2 Hrun. unfold bind in Hrun. destruct (_sub_search _ ts _ b d) as [[b1 d1]|] eqn:Hs; [|done].
  etrans; [by eapply Hb|]. destruct (bool_decide (ts = [])).
  - eapply Hp; [|done]. by eapply search_retained.
  - injection Hrun as _ <-. done.
Qed.

Lemma queue_roots_hsteps ts t bs :
  hsteps (stored :: concat (tree_refs <$> bs)) (queue_roots E acl None topic q r stored ts t bs).
Proof.
  induction bs as [|b bs IH]; cbn [queue_roots fmap list_fmap concat]; [apply hsteps_ret|].
  apply hsteps_bind; [|intros b'; apply hsteps_bind; [|intros; apply hsteps_ret]; eapply hsteps_mono; [|exact IH]; set_solver].
  eapply (hsteps_mono (stored :: tree_refs b)); [set_solver|]. case_bool_decide; [|apply hsteps_ret].
  apply hsteps_bind; [apply hsteps_get|]. intros d.
  destruct (sub_add_none_refs (contexts d) ts b) as (b1 & -> & Hrefs & _). cbn [fmap option_fmap option_map mlift snd].
  intros d0 b2 d2 Hrun. unfold bind in Hrun. assert (Hb : ∃ b', (b' = b ∨ b' = b1) ∧
    _sub_search (_subs_process E acl None topic q r stored) ts true b' d0 = Some (b2, d2)) by (destruct r; eauto).
  destruct Hb as (b' & Hb' & Hs). apply search_hsteps in Hs. by destruct Hb' as [->| ->]; [|rewrite <-Hrefs].
Qed.

Lemma queue_hsteps d a d' :
  mqtt3_db_messages_queue E acl None topic q r stored d = Some (a, d') → heap_step (stored :: tree_refs (root d)) d d'.
Proof.
  intros Hrun. unfold mqtt3_db_messages_queue in Hrun. unfold bind at 1 in Hrun.
  destruct (mlift _ d) as [[ts d0]|] eqn:Hts; [|done].
  assert (d0 = d) as -> by (destruct (_sub_topic_tokenise topic); [by injection Hts|done]).
  unfold bind at 1 in Hrun. destruct (on_store _ d) as [[[] d1]|] eqn:H1; [|done].
  assert (Hsc : subs_children d1 = subs_children d).
  { unfold on_store in H1. destruct (store_ref stored (dmsg d)); [|done]. by injection H1 as <-. }
  etrans; [eapply heap_step_mono; [|by eapply hsteps_ref]; set_solver|]. cbn [root tree_refs option_list app]. rewrite <-Hsc.
  revert Hrun. unfold bind at 1. destruct (mlift _ d1) as [[t d2]|] eqn:Ht; [|done].
  assert (d2 = d1) as -> by (destruct (head ts); [by injection Ht|done]). unfold bind at 1, mget at 1.
  intros Hrun. revert Hrun. set (T := stored :: concat (tree_refs <$> subs_children d1)).
  match goal with |- ?m d1 = _ → _ => assert (Hall : hsteps T m); [|apply Hall] end.
  apply hsteps_bind; [apply queue_roots_hsteps|]. intros bs. apply hsteps_bind; [by apply hsteps_modify|]. intros _.
  apply hsteps_bind; [|intros; apply hsteps_ret]. eapply hsteps_mono; [|apply hsteps_deref]. unfold T. set_solver.
Qed.
End publish.

(** ** The chunks *)

Lemma subs_ok_recounted d : subs_ok (recounted d) → subs_ok d.
Proof.
  intros [Ht Hl Ho]. split; [done| |done]. intros p. eapply Forall_impl; [apply Hl|].
  intros lf [x Hx]. cbn in Hx. rewrite lookup_fmap in Hx. destruct (contexts d !! lf_context lf); [by eexists|done].
Qed.

(** The tops of the tree are not removed. *)
Lemma sub_add_topic ctxs c q ts h rc added h' :
  _sub_add ctxs c q ts h = Some (rc, added, h') → sh_topic h' = sh_topic h.
Proof.
  destruct ts as [|t ts]; cbn [_sub_add].
  - unfold add_leaf. destruct c as [c|]; [|by intros [= _ _ <-]]. destruct (ctxs !! c) as [x|]; [|done].
    cbn [mbind option_bind]. destruct (id x); [|by intros [= _ _ <-]].
    destruct (find_leaf _ _ _ _) as [[i|]|]; [| |done]; by intros [= _ _ <-].
  - destruct (list_find _ _) as [[i b]|]; destruct (_sub_add _ _ _ ts _) as [[[? ?] ?]|]; try done; by intros [= _ _ <-].
Qed.

Lemma sub_add_roots c sub q d rc d' :
  mqtt3_sub_add c sub q d = Some (rc, d') → sh_topic <$> subs_children d ⊆ sh_topic <$> subs_children d'.
Proof.
  unfold mqtt3_sub_add, bind, mget. intros Hrun. destruct (mlift (_sub_topic_tokenise sub) d) as [[ts d0]|] eqn:Hts; [|done].
  assert (d0 = d) as -> by (destruct (_sub_topic_tokenise sub); [by injection Hts|done]).
  destruct (head ts) as [t|]; [|done]. cbn [mlift] in Hrun. unfold ret at 1 in Hrun.
  destruct (sub_add_root _ _ _ _ _ _) as [[[rc' added] ch]|] eqn:Hr; [|done]. cbn [mlift] in Hrun. unfold ret at 1 in Hrun.
  assert (Hch : subs_children d' = ch).
  { unfold mmodify, upd_context, ret in Hrun. destruct added; cbn in Hrun; [|by injection Hrun as _ <-].
    destruct (contexts d !! c); [|done]. by injection Hrun as _ <-. }
  rewrite Hch. unfold sub_add_root in Hr. destruct (list_find _ _) as [[i b]|] eqn:Hf.
  - destruct (_sub_add _ _ _ _ b) as [[[? ?] b']|] eqn:Hb; [|done]. injection Hr as _ _ <-. apply sub_add_topic in Hb.
    apply list_find_Some in Hf as (Hi & _). rewrite list_fmap_insert, Hb, list_insert_id; [done|]. by rewrite list_lookup_fmap, Hi.
  - destruct (_sub_add _ _ _ _ _) as [[[? ?] b']|]; [|done]. injection Hr as _ _ <-. cbn. set_solver.
Qed.

Lemma queue_roots_topics E acl topic q r stored ts t bs d bs' d' :
  queue_roots E acl None topic q r stored ts t bs d = Some (bs', d') → sh_topic <$> bs' = sh_topic <$> bs.
Proof.
  revert d bs' d'. induction bs as [|b bs IH]; intros d bs' d'; cbn [queue_roots]; [by intros [= <- _]|].
  unfold bind at 1. destruct (_ d) as [[b' d1]|] eqn:Hb; [|done]. unfold bind at 1.
  destruct (queue_roots _ _ _ _ _ _ _ _ _ bs d1) as [[bs'' d2]|] eqn:Hbs; [|done]. intros [= <- _]. cbn. f_equal; [|by eapply IH].
  case_bool_decide; [|by injection Hb as <- _]. unfold bind at 1, mget in Hb. unfold bind in Hb.
  destruct ((if r then mlift (snd <$> _sub_add (contexts d) None 0 ts b) else ret b) d) as [[b1 d3]|] eqn:Hb1; [|done].
  apply sub_search_topic in Hb. rewrite Hb.
  destruct r; [|by injection Hb1 as <- _]. destruct (_sub_add _ _ _ _ b) as [[[? ?] b2]|] eqn:Ha; [|done].
  injection Hb1 as <- _. by eapply sub_add_topic.
Qed.

Lemma publish_roots E acl topic q r stored d a d' :
  mqtt3_db_messages_queue E acl None topic q r stored d = Some (a, d') →
  sh_topic <$> subs_children d' = sh_topic <$> subs_children d.
Proof.
  unfold mqtt3_db_messages_queue, bind, mget. intros Hrun. destruct (mlift (_sub_topic_tokenise topic) d) as [[ts d0]|] eqn:Hts; [|done].
  assert (d0 = d) as -> by (destruct (_sub_topic_tokenise topic); [by injection Hts|done]).
  unfold on_store at 1 in Hrun. destruct (store_ref stored (dmsg d)) as [m1|]; [|done]. cbn [mbind option_bind] in Hrun.
  destruct (head ts) as [t|]; [|done]. cbn [mlift] in Hrun. unfold ret at 1 in Hrun.
  destruct (queue_roots _ _ _ _ _ _ _ _ _ _ _) as [[bs d1]|] eqn:Hq; [|done]. apply queue_roots_topics in Hq. cbn [subs_children set_dmsg] in Hq. rewrite <-Hq.
  unfold mmodify, on_store in Hrun. destruct (mosquitto__db_msg_store_deref _ _) as [[o m2]|]; [|done]. by injection Hrun as _ <-.
Qed.

Section tree_steps.
Context (E : env) `{Access} (sv : list msg_store).

(** Contexts that differ in their lists of subscriptions only. *)
Definition but_subs (d d' : db) : Prop :=
  contexts_by_id d' = contexts_by_id d ∧
  ∀ c, set_subs (λ _, []) <$> contexts d' !! c = set_subs (λ _, []) <$> contexts d !! c.

Lemma sub_gives cid c x topic q l :
  loaded sv l → find_client cid (ld_db l) = Some c → contexts (ld_db l) !! c = Some x → id x = Some cid →
  0 ∉ topic → hash_last (tokens topic) → 0 ≤ q ≤ 2 →
  gives E (KSub cid topic q) l (λ l', loaded sv l' ∧ dmsg (ld_db l') = dmsg (ld_db l) ∧ but_subs (ld_db l) (ld_db l') ∧
    sh_topic <$> subs_children (ld_db l) ⊆ sh_topic <$> subs_children (ld_db l') ∧
    (∀ p cid', subscribed (ld_db l') p cid' =
       if decide (p = sub_path topic ∧ cid' = cid) then Some q else subscribed (ld_db l) p cid') ∧
    ∀ p, retained_at (ld_db l') p = retained_at (ld_db l) p).
Proof.
  intros Hlo Hfc Hx Hid H0 Hhl Hq. pose proof Hlo as [Hinv _]. destruct l as [d load]. cbn [ld_db ld_load] in *.
  pose proof (bi_ok _ _ Hinv) as Hok. pose proof (subs_ok_recounted _ (db_subs _ _ (bo_db _ _ Hok))) as Hs.
  destruct (sub_add_map d c x cid topic q Hx Hid H0 Hhl Hs) as (d' & Hrun & _ & Hsub & Hret & Hdm & Hctx & _).
  pose proof (sub_add_commutes c topic q d) as Hcom. rewrite Hrun in Hcom.
  destruct (wp_run _ _ _ _ _ (subscribe_ok [] _ c _ cid topic q Hok (recounted_lookup _ _ _ Hx) Hid H0 Hhl Hq) Hcom) as (_ & Hsc & Hok').
  assert (Hinv' : broker_inv None (recounted d')).
  { destruct (same_clients_face c (recount x) (recounted d) (recounted d') (recounted_lookup _ _ _ Hx) (mk_is_Some _ _ Hid) Hsc) as [Hsf _]. by eapply inv_face. }
  assert (Hb : but_subs d d').
  { split; [destruct Hsc as (_ & Ht & _); unfold tables in Ht; cbn in Ht; congruence|]. intros c'. rewrite Hctx.
    destruct (bool_decide _); [|done]. destruct (decide (c' = c)) as [->|]; [|by rewrite lookup_insert_ne].
    rewrite lookup_insert_eq, Hx. done. }
  exists (Loading d' load). split; [|split; [|split_and!; try done; [by eapply sub_add_roots]]].
  - cbn [apply_chunk]. unfold checked, bind, on_db. cbn [ld_db ld_load]. unfold _db_restore_sub, bind.
    rewrite (find_or_add_known E cid d c Hfc), Hrun. reflexivity.
  - apply (loaded_content _ (Loading d load)); [done|done|done|]. cbn. by rewrite Hdm.
Qed.

(** The messages that a retained message leaves alone: all, if it is the first
    of its topic. *)
Lemma publish_content topic q r stored d a d' :
  mqtt3_db_messages_queue E acl_check None topic q r stored d = Some (a, d') →
  broker_inv None (recounted d) → broker_inv None (recounted d') →
  (∀ p, retained_at d' p = if decide (p = sub_path topic) then Some stored else retained_at d p) →
  retained_at d (sub_path topic) = None →
  ∀ s, content_at (dmsg d') s = content_at (dmsg d) s.
Proof.
  intros Hrun Hinv Hinv' Hret Hnone s. destruct (queue_hsteps E acl_check topic q r stored d a d' Hrun s) as [Hout Hin].
  assert (Hu : ∀ d0, broker_inv None (recounted d0) → uniq (sh_children (root d0))).
  { intros d0 H0. apply (so_tree _ (db_subs _ _ (bo_db _ _ (bi_ok _ _ H0)))). }
  destruct (decide (s ∈ stored :: tree_refs (root d))) as [Hs|Hs]; [|unfold content_at; by rewrite Hout].
  assert (Hat : ∃ p, retained_at d' p = Some s).
  { apply elem_of_cons in Hs as [->|Hs]; [exists (sub_path topic); by rewrite Hret, decide_True|].
    apply tree_refs_at in Hs as [p Hp]; [|by apply Hu]. exists p. rewrite Hret.
    rewrite decide_False; [done|]. intros ->. unfold retained_at in Hnone. congruence. }
  apply (tree_refs_at (root d')) in Hat; [|by apply Hu]. pose proof (co_store _ _ (db_core _ _ (bo_db _ _ (bi_ok _ _ Hinv')))) as Hst.
  destruct (store_ok_live _ _ s Hst) as [m' Hm'].
  { apply elem_of_app. right. apply elem_of_app. by left. }
  cbn in Hm'. destruct (Hin m' Hm') as (m & Hm & Hc). unfold content_at. rewrite Hm, Hm'. cbn. by rewrite Hc.
Qed.

Lemma retain_gives st t l :
  loaded sv l → st ∈ sv → ms_topic st = Some t → sys_topic t = false → ms_retain st = true → ms_payload st ≠ [] →
  slen t < SIZE_BOUND → slen (ms_payload st) < SIZE_BOUND → 0 ≤ ms_qos st ≤ 2 → 0 ∉ t → wildcard_free t →
  has_root (ld_db l) t = true → retained_at (ld_db l) (sub_path t) = None →
  gives E (KRetain (db_id st)) l (λ l', loaded sv l' ∧ contexts (ld_db l') = contexts (ld_db l) ∧
    contexts_by_id (ld_db l') = contexts_by_id (ld_db l) ∧ sh_topic <$> subs_children (ld_db l) ⊆ sh_topic <$> subs_children (ld_db l') ∧
    (∀ p, subs_of p (root (ld_db l')) = subs_of p (root (ld_db l))) ∧
    (∀ s, content_at (dmsg (ld_db l')) s = content_at (dmsg (ld_db l)) s) ∧
    ∃ s, content_at (dmsg (ld_db l)) s = Some (restored_content st) ∧
      ∀ p, retained_at (ld_db l') p = if decide (p = sub_path t) then Some s else retained_at (ld_db l) p).
Proof.
  intros Hlo Hst Ht Hsys Hr Hpl Hst1 Hst2 Hq H0 Hw Hroot Hnone. pose proof Hlo as [Hinv Hf]. destruct l as [d load]. cbn [ld_db ld_load] in *.
  destruct (Hf st Hst) as (s & m & Hload & Hs & Hc). unfold content, restored_content in Hc. rewrite Ht, Hsys in Hc.
  injection Hc as Ei Esrc Et Epl Esm Emid Eq Er.
  assert (Hsend : sendable (dmsg d) s) by (exists m, t; by rewrite Et, Epl, Eq).
  assert (Hrep : replacement (dmsg d) s = Some s).
  { unfold replacement. rewrite Hs. cbn. unfold payloadlen. rewrite Epl. by destruct (ms_payload st). }
  pose proof (messages_queue_spec E acl_check [] None t (ms_qos st) true s (recounted d) (bo_db _ _ (bi_ok _ _ Hinv)) Hsend Hq H0 Hw) as Hspec.
  pose proof (inv_publish E None None t (ms_qos st) true s (recounted d) Hinv Hsend Hq H0 Hw) as Hpub.
  apply wp_inv in Hspec as ([rc o] & dr & Hrun & -> & _ & _ & _ & Htab & Hsubs & Hret & _).
  destruct (wp_run _ _ _ _ _ Hpub Hrun) as (Hinv' & _ & _ & _ & Ho).
  pose proof (messages_queue_commutes recounts E acl_check t (ms_qos st) true s d) as Hcom.
  change (set_contexts recounts d) with (recounted d) in Hcom. rewrite Hrun in Hcom.
  destruct (mqtt3_db_messages_queue E acl_check None t (ms_qos st) true s d) as [[a d']|] eqn:Hrun'; [|done].
  injection Hcom as Ha Hd. symmetry in Ha. subst a. change (dr = recounted d') in Hd. subst dr.
  assert (Hret' : ∀ p, retained_at d' p = if decide (p = sub_path t) then Some s else retained_at d p).
  { intros p. specialize (Hret p). change (dmsg (recounted d)) with (dmsg d) in Hret. rewrite Hrep in Hret. change (retained_at (recounted d') p) with (retained_at d' p) in Hret.
    rewrite Hret. change (has_root (recounted d) t) with (has_root d t). by repeat case_decide; try tauto. }
  pose proof (publish_content _ _ _ _ _ _ _ Hrun' Hinv Hinv' Hret' Hnone) as Hcont.
  assert (Hload' : (λ e, if bool_decide (e = (db_id st, Some s)) then (e.1, o) else e) <$> load = load).
  { rewrite <-(list_fmap_id load) at 2. apply list_fmap_ext. intros i e _. case_bool_decide as He; [|done]. subst e. cbn. f_equal.
    rewrite Ho. specialize (Hcont s). unfold content_at in Hcont. rewrite Hs in Hcont. cbn. by destruct (heap (dmsg d') !! s). }
  exists (Loading d' load). split; [|split; [by apply (loaded_content _ (Loading d load))|]].
  - cbn [apply_chunk]. unfold checked, restore_retained, bind, mget. cbn [ld_load ld_db]. rewrite Hload. cbn [mlift]. unfold ret at 1.
    unfold deref_store. rewrite Hs. cbn [mlift]. unfold ret at 1. rewrite Et. cbn [mlift]. unfold ret at 1, on_db.
    cbn [ld_db ld_load]. rewrite Eq, Er, Hr, Hrun'. cbn [mbind option_bind]. unfold set_load, mmodify. cbn [ld_db ld_load snd].
    rewrite Hload'. reflexivity.
  - cbn [ld_db]. split; [by eapply messages_queue_contexts|]. split; [unfold tables in Htab; cbn in Htab; congruence|].
    split; [by rewrite (publish_roots _ _ _ _ _ _ _ _ _ Hrun')|]. split; [exact Hsubs|]. split; [done|].
    exists s. split; [|done]. unfold content_at. rewrite Hs. cbn. unfold content, restored_content. rewrite Ht, Hsys. congruence.
Qed.
End tree_steps.
