(* ===== verification/Roundtrip.v ===== *)
(** * Saving and restoring (src/persist.c)

    A database that is saved and restored has the same sessions, with their
    messages, the same subscriptions of these sessions, and the same retained
    messages; the broker that is restored is consistent, but for the counters
    of messages. *)

From stdpp Require Import base list numbers strings option sets gmap infinite.
From Stdlib Require Import ZArith Lia.
From S2P Require Import Prelude Topic Packet State Store Send Messages Db Acl Subs DbInv Session Context Handlers Persist Nodes Snapshot Lifecycle Release Free Serve Connect Broker Runs Restore RestoreTree.
Local Open Scope Z_scope.
Local Open Scope broker_scope.

(** ** Sequences of chunks *)

Section brings.
Context (E : env) `{Access}.

Definition brings (ks : list chunk) (l : loading) (Q : loading → Prop) : Prop :=
  ∃ l', apply_all E ks l = Some (inr tt, l') ∧ Q l'.

Lemma brings_nil l (Q : loading → Prop) : Q l → brings [] l Q.
Proof. intros HQ. by exists l. Qed.

Lemma brings_cons k ks l Q : gives E k l (λ l', brings ks l' Q) → brings (k :: ks) l Q.
Proof.
  intros (l1 & Hk & l2 & Hks & HQ). exists l2. split; [|done]. cbn [apply_all]. unfold ebind, bind. by rewrite Hk.
Qed.

Lemma brings_app ks ks' l Q : brings ks l (λ l', brings ks' l' Q) → brings (ks ++ ks') l Q.
Proof.
  revert l. induction ks as [|k ks IH]; intros l (l1 & Hks & Hrest); cbn [app apply_all] in *.
  - by injection Hks as <-.
  - apply brings_cons. unfold ebind, bind in Hks. destruct (apply_chunk E k l) as [[[rc|[]] l2]|] eqn:Hk; [done| |done].
    exists l2. split; [done|]. apply IH. by exists l1.
Qed.

Lemma brings_mono ks l (Q R : loading → Prop) : brings ks l Q → (∀ l', Q l' → R l') → brings ks l R.
Proof. intros (l' & ? & ?) HR. exists l'. auto. Qed.

Lemma gives_mono k l (Q R : loading → Prop) : gives E k l Q → (∀ l', Q l' → R l') → gives E k l R.
Proof. intros (l' & ? & ?) HR. exists l'. auto. Qed.
End brings.

(** ** The store *)

(** Only the store and the table of its messages change. *)
Definition same_broker (l l' : loading) : Prop :=
  contexts (ld_db l') = contexts (ld_db l) ∧ contexts_by_id (ld_db l') = contexts_by_id (ld_db l) ∧
  subs_children (ld_db l') = subs_children (ld_db l).

Section store_phase.
Context (E : env) `{Access}.

Lemma store_phase sts sv l :
  loaded sv l → NoDup ((db_id <$> sts) ++ (db_id <$> sv)) → Forall (λ st, db_id st ≠ 0) sts →
  brings E (concat (saved_store <$> sts)) l (λ l', same_broker l l' ∧
    ∃ sv', loaded sv' l' ∧ sv ⊆ sv' ∧ ∀ st, st ∈ sts → saved_store st ≠ [] → st ∈ sv').
Proof.
  revert sv l. induction sts as [|st sts IH]; intros sv l Hlo Hnd Hnz; cbn [fmap list_fmap concat].
  { apply brings_nil. split; [done|]. exists sv. split_and!; [done|done|]. by intros st ?%elem_of_nil. }
  apply Forall_cons in Hnz as [Hz Hnz]. cbn [fmap list_fmap app] in Hnd. apply NoDup_cons in Hnd as [Hnew Hnd].
  apply brings_app. unfold saved_store at 1. destruct (_ && only_retained st) eqn:Hskip.
  - apply brings_nil. eapply brings_mono; [by apply (IH sv l)|]. intros l' (Hs & sv' & Hlo' & Hsub & Hin). split; [done|].
    exists sv'. split_and!; [done|done|]. intros st' [->|Hst']%elem_of_cons; [|auto]. unfold saved_store. by rewrite Hskip.
  - apply brings_cons. eapply gives_mono; [apply (store_gives E sv st (ms_mid st) l Hlo Hz); set_solver|].
    intros l1 (Hlo1 & Hs1). apply brings_nil. eapply brings_mono; [apply (IH (st :: sv) l1 Hlo1); [|done]|].
    + cbn [fmap list_fmap]. rewrite <-Permutation_middle. apply NoDup_cons. split; [set_solver|done].
    + intros l' ((C1 & C2 & C3) & sv' & Hlo' & Hsub & Hin). destruct Hs1 as (D1 & D2 & D3). split; [split_and!; congruence|].
      exists sv'. split_and!; [done|set_solver|]. intros st' [->|Hst']%elem_of_cons; [set_solver|auto].
Qed.
End store_phase.

(** ** The sessions *)

(** A message of a queue, with what is stored of it. *)
Definition msg_view (m : msg_db) (y : client_msg) :=
  (mid y, qos y, retain y, direction y, state y, dup y, content_at m (cm_store y)).

(** A session: the counters of its messages are part of it. *)
Definition session_of (m : msg_db) (x : mosquitto) :=
  (id x, clean_session x, last_mid x, disconnect_t x, (msg_count x, msg_count12 x), msg_view m <$> msgs x).

Section saved_sessions.
Context (d : db) (time : Z).

(** What is restored of a message of a queue, if it was saved. *)
Definition saved_view (y : client_msg) :=
  st ← heap (dmsg d) !! cm_store y;
  t ← ms_topic st;
  if sys_topic t && only_retained st then None
  else Some (mid y, qos y, retain y, direction y, state y, dup y, Some (restored_content st)).

(** What is restored of a session. The counters are not: they are 0. *)
Definition saved_session (x : mosquitto) :=
  (id x, false, last_mid x, (if disconnect_t x =? 0 then time else disconnect_t x), (0, 0), omap saved_view (msgs x)).

(** The messages that the sessions refer to were saved. *)
Lemma saved_store_view y st t :
  heap (dmsg d) !! cm_store y = Some st → ms_topic st = Some t → sys_topic t && only_retained st = false → saved_store st ≠ [].
Proof. intros _ Ht Hs. unfold saved_store. by rewrite Ht, Hs. Qed.
End saved_sessions.

Section client_phase.
Context (E : env) `{Access} (d : db) (time : Z) (sv : list msg_store).
Context (Hsv : ∀ s st, heap (dmsg d) !! s = Some st → saved_store st ≠ [] → st ∈ sv).

(** The context without its messages. *)
Definition but_msgs (x : mosquitto) : mosquitto := set_last_msg (λ _, None) (set_msgs (λ _, []) x).

Lemma msgs_phase cid c l ms x lo :
  mapM (saved_msg d cid) l = Some ms → Forall (msg_ok (dmsg d)) l →
  loaded sv lo → find_client cid (ld_db lo) = Some c → contexts (ld_db lo) !! c = Some x → is_Some (id x) →
  brings E (concat ms) lo (λ lo', loaded sv lo' ∧ contexts_by_id (ld_db lo') = contexts_by_id (ld_db lo) ∧
    subs_children (ld_db lo') = subs_children (ld_db lo) ∧
    (∀ s, content_at (dmsg (ld_db lo')) s = content_at (dmsg (ld_db lo)) s) ∧
    ∃ x', contexts (ld_db lo') = <[c := x']> (contexts (ld_db lo)) ∧ but_msgs x' = but_msgs x ∧
      msg_view (dmsg (ld_db lo')) <$> msgs x' = (msg_view (dmsg (ld_db lo)) <$> msgs x) ++ omap (saved_view d) l).
Proof.
  revert ms x lo. induction l as [|y l IH]; intros ms x lo Hms Hok Hlo Hfc Hx Hid; cbn [mapM] in Hms.
  { injection Hms as <-. apply brings_nil. split_and!; try done. exists x. rewrite insert_id by done. cbn. by rewrite app_nil_r. }
  apply Forall_cons in Hok as [Hy Hok]. destruct (saved_msg d cid y) as [k|] eqn:Hk; [|done]. cbn [mbind option_bind] in Hms.
  destruct (mapM _ l) as [ms'|] eqn:Hl; [|done]. injection Hms as <-. cbn [concat omap list_omap]. apply brings_app.
  unfold saved_msg in Hk. unfold saved_view at 1. destruct (heap (dmsg d) !! cm_store y) as [st|] eqn:Hst; [|done].
  cbn [mbind option_bind] in *. destruct (ms_topic st) as [t|] eqn:Ht; [|done]. cbn [mbind option_bind] in *.
  injection Hk as <-. destruct (sys_topic t && only_retained st) eqn:Hs.
  { apply brings_nil. by apply IH. }
  assert (Hin : st ∈ sv) by (eapply Hsv; [exact Hst|by eapply saved_store_view]).
  apply brings_cons. eapply gives_mono; [by apply (msg_gives E sv (dmsg d) cid c x y st lo)|].
  intros lo1 (Hlo1 & p & s & Hc1 & Hs1 & Hcont1 & Hb1 & Ht1). apply brings_nil. set (x1 := linked_to p s y x) in *.
  eapply brings_mono; [apply (IH ms' x1 lo1); try done|].
  - unfold find_client in *. by rewrite Hb1.
  - by rewrite Hc1, lookup_insert_eq.
  - intros lo' (Hlo' & Hb' & Ht' & Hcont' & x' & Hc' & Hbm & Hv). split; [done|]. split; [congruence|]. split; [congruence|].
    split; [intros s'; by rewrite Hcont', Hcont1|]. exists x'. split; [by rewrite Hc', Hc1, insert_insert_eq|]. split; [done|].
    rewrite Hv. change (msgs x1) with (msgs x ++ [linked_msg p s y]). rewrite fmap_app, <-app_assoc. cbn. f_equal.
    + apply list_fmap_ext. intros i z _. unfold msg_view. by rewrite Hcont1.
    + unfold msg_view. cbn. by rewrite Hs1.
Qed.

(** The stored messages and the tree stay as they are. *)
Definition same_store (l l' : loading) : Prop :=
  subs_children (ld_db l') = subs_children (ld_db l) ∧
  ∀ s, content_at (dmsg (ld_db l')) s = content_at (dmsg (ld_db l)) s.

Lemma find_client_snoc cid c d0 d1 :
  find_client cid d0 = None → contexts_by_id d1 = contexts_by_id d0 ++ [(cid, c)] → find_client cid d1 = Some c.
Proof.
  unfold find_client. intros Hn ->. destruct (list_find _ (contexts_by_id d0)) as [[? ?]|] eqn:Hf; [done|].
  rewrite list_find_app_r by done. cbn. by rewrite decide_True.
Qed.

Lemma client_phase c x cid ks lo :
  contexts d !! c = Some x → id x = Some cid → clean_session x = false → Forall (msg_ok (dmsg d)) (msgs x) →
  saved_client d time c = Some ks → loaded sv lo → find_client cid (ld_db lo) = None →
  brings E ks lo (λ lo', loaded sv lo' ∧ same_store lo lo' ∧ ∃ c' x', contexts (ld_db lo) !! c' = None ∧
    contexts (ld_db lo') = <[c' := x']> (contexts (ld_db lo)) ∧
    contexts_by_id (ld_db lo') = contexts_by_id (ld_db lo) ++ [(cid, c')] ∧
    session_of (dmsg (ld_db lo')) x' = saved_session d time x).
Proof.
  intros Hx Hid Hcl Hok Hks Hlo Hn. unfold saved_client in Hks. rewrite Hx in Hks. cbn [mbind option_bind] in Hks.
  rewrite Hcl, Hid in Hks. cbn [mbind option_bind] in Hks.
  destruct (mapM (saved_msg d cid) (msgs x)) as [ms|] eqn:Hms; [|done]. injection Hks as <-.
  set (t := if disconnect_t x =? 0 then time else disconnect_t x). apply brings_cons.
  eapply gives_mono; [by apply (client_gives E sv cid (last_mid x) t lo)|]. intros lo1 (Hlo1 & c' & Hc' & Hd1 & Hl1).
  set (x1 := set_disconnect_t _ _) in *. assert (Hx1 : contexts (ld_db lo1) !! c' = Some x1) by (rewrite Hd1; apply lookup_insert_eq).
  assert (Hb1 : contexts_by_id (ld_db lo1) = contexts_by_id (ld_db lo) ++ [(cid, c')]) by (by rewrite Hd1).
  eapply brings_mono; [eapply (msgs_phase cid c' (msgs x) ms x1 lo1); try done; by eapply find_client_snoc|].
  intros lo' (Hlo' & Hb' & Ht' & Hcont' & x' & Hctx' & Hbm & Hv). split; [done|].
  split; [split; [rewrite Ht'; by rewrite Hd1|intros s; rewrite Hcont'; by rewrite Hd1]|].
  exists c', x'. split; [done|]. split; [rewrite Hctx'; rewrite Hd1; apply insert_insert_eq|]. split; [congruence|].
  unfold session_of, saved_session. fold t. rewrite Hv, Hid.
  apply (f_equal (λ x, (id x, clean_session x, last_mid x, disconnect_t x, msg_count x, msg_count12 x))) in Hbm. cbn in Hbm.
  injection Hbm as -> -> -> -> -> ->. cbn [app fmap list_fmap msgs x1 set_disconnect_t restored_context].
  f_equal. do 3 f_equal. destruct (Z.eqb_spec (last_mid x) 0) as [->|]; done.
Qed.

(** The ids of the sessions that are kept. *)
Definition kept_id (c : ptr) : option bytes :=
  x ← contexts d !! c; if clean_session x then None else id x.

Lemma find_client_fresh cid (d0 : db) : cid ∉ (contexts_by_id d0).*1 → find_client cid d0 = None.
Proof.
  intros Hn. unfold find_client. destruct (list_find _ _) as [[i e]|] eqn:Hf; [|done].
  apply list_find_Some in Hf as (Hi & <- & _). destruct Hn. by eapply list_elem_of_fmap_2, list_elem_of_lookup_2.
Qed.

Lemma clients_phase cs ks lo :
  mapM (saved_client d time) cs = Some ks →
  (∀ c x, contexts d !! c = Some x → Forall (msg_ok (dmsg d)) (msgs x)) →
  loaded sv lo → NoDup (omap kept_id cs ++ (contexts_by_id (ld_db lo)).*1) →
  brings E (concat ks) lo (λ lo', loaded sv lo' ∧ same_store lo lo' ∧ ∃ new,
    contexts_by_id (ld_db lo') = contexts_by_id (ld_db lo) ++ new ∧ new.*1 = omap kept_id cs ∧
    (∀ c x', contexts (ld_db lo) !! c = Some x' → contexts (ld_db lo') !! c = Some x') ∧
    (∀ c', is_Some (contexts (ld_db lo') !! c') → is_Some (contexts (ld_db lo) !! c') ∨ c' ∈ new.*2) ∧
    ∀ c x cid, c ∈ cs → contexts d !! c = Some x → kept_id c = Some cid → ∃ c' x', (cid, c') ∈ new ∧
      contexts (ld_db lo') !! c' = Some x' ∧ session_of (dmsg (ld_db lo')) x' = saved_session d time x).
Proof.
  intros Hks Hmsgs. revert ks lo Hks. induction cs as [|c cs IH]; intros ks lo Hks Hlo Hnd; cbn [mapM] in Hks.
  { injection Hks as <-. apply brings_nil. split; [done|]. split; [done|]. exists []. rewrite app_nil_r.
    split_and!; try done; [auto|]. by intros c x cid ?%elem_of_nil. }
  destruct (saved_client d time c) as [k|] eqn:Hk; [|done]. cbn [mbind option_bind] in Hks.
  destruct (mapM _ cs) as [ks'|] eqn:Hcs; [|done]. injection Hks as <-. cbn [concat]. apply brings_app.
  pose proof Hk as Hk0. unfold saved_client in Hk. destruct (contexts d !! c) as [x|] eqn:Hx; [|done]. cbn [mbind option_bind] in Hk.
  assert (Hkept : kept_id c = if clean_session x then None else id x) by (unfold kept_id; by rewrite Hx).
  cbn [omap list_omap] in Hnd |- *. rewrite Hkept in Hnd |- *. destruct (clean_session x) eqn:Hcl.
  { injection Hk as <-. apply brings_nil. eapply brings_mono; [by apply (IH ks' lo)|].
    intros lo' (H1 & H2 & new & H3 & H4 & H5 & H6 & H7). split; [done|]. split; [done|]. exists new. split_and!; try done.
    intros c0 x0 cid [->|Hin]%elem_of_cons Hx0 Hcid; [congruence|by eapply H7]. }
  destruct (id x) as [cid|] eqn:Hid; [|done]. cbn [app] in Hnd. apply NoDup_cons in Hnd as [Hnew Hnd].
  eapply brings_mono; [eapply (client_phase c x cid k lo); try done; [by eapply Hmsgs|apply find_client_fresh; set_solver]|].
  intros lo1 (Hlo1 & [Hs1 Hc1] & c' & x' & Hc' & Hctx1 & Hb1 & Hses).
  eapply brings_mono; [apply (IH ks' lo1); [done|done|]|].
  { rewrite Hb1, fmap_app. cbn. rewrite (assoc_L (++)), <-Permutation_cons_append. apply NoDup_cons. split; [set_solver|done]. }
  intros lo' (Hlo' & [Hs2 Hc2] & new & Hb' & Hn' & Hkeep & Hdom & Hall). split; [done|].
  split; [split; [congruence|intros s; by rewrite Hc2, Hc1]|]. exists ((cid, c') :: new). cbn [fmap list_fmap fst snd].
  split; [by rewrite Hb', Hb1, <-app_assoc|]. split; [by rewrite Hn'|]. split; [|split].
  - intros c0 x0 Hx0. apply Hkeep. rewrite Hctx1, lookup_insert_ne by congruence. done.
  - intros c0 Hc0. destruct (Hdom c0 Hc0) as [Hin|Hin]; [|right; set_solver]. rewrite Hctx1, lookup_insert_is_Some' in Hin.
    destruct Hin as [->|Hin]; [right; set_solver|by left].
  - intros c0 x0 cid0 [->|Hin]%elem_of_cons Hx0 Hcid0.
    + assert (x0 = x) as -> by congruence. assert (cid0 = cid) as -> by congruence. exists c', x'. split; [set_solver|].
      split; [apply Hkeep; by rewrite Hctx1, lookup_insert_eq|]. rewrite <-Hses. unfold session_of. f_equal.
      apply list_fmap_ext. intros i y _. unfold msg_view. by rewrite Hc2.
    + destruct (Hall c0 x0 cid0 Hin Hx0 Hcid0) as (c1 & x1 & H1 & H2). exists c1, x1. split; [set_solver|done].
Qed.
End client_phase.
