(* ===== verification/RoundtripTree.v ===== *)
(** * Saving and restoring the tree (src/persist.c)

    The subscriptions of the sessions that are kept, and the retained
    messages, are restored where they were. *)

From stdpp Require Import base list numbers strings option sets gmap infinite.
From Stdlib Require Import ZArith Lia.
From S2P Require Import Prelude Topic Packet State Store Send Messages Db Acl Subs DbInv Session Context Handlers Persist Nodes Snapshot Lifecycle Release Free Serve Connect Broker Runs Restore RestoreTree Roundtrip.
Local Open Scope Z_scope.
Local Open Scope broker_scope.

(** ** The chunks of the tree *)

Lemma mapM_concat {A B} (f : A → option (list B)) l ks :
  mapM f l = Some ks → concat ks = concat ((λ x, default [] (f x)) <$> l).
Proof.
  revert ks. induction l as [|x l IH]; intros ks Hks; cbn [mapM] in Hks; [by injection Hks as <-|].
  destruct (f x) as [k|] eqn:Hk; [|done]. cbn [mbind option_bind] in Hks. destruct (mapM f l) as [ks'|]; [|done].
  injection Hks as <-. cbn. rewrite Hk. cbn. f_equal. by apply IH.
Qed.

Section chunks.
Context (d : db).

Definition leaf_chunks (t : bytes) (l : list subleaf) : list chunk :=
  concat ((λ lf, default [] (saved_leaf d t lf)) <$> l).
Definition node_chunks (t : bytes) (n : subhier) : list chunk :=
  leaf_chunks t (sh_subs n) ++ default [] (saved_retained d (sh_retained n)).

Lemma saved_node_chunks h topic level ks :
  saved_node d topic level h = Some ks →
  ks = concat ((λ e, node_chunks (topic_from (S level) (join_topic level topic (sh_topic h)) e.1) e.2) <$> nodes h).
Proof.
  revert topic level ks. induction h as [t leaves r ch IH] using subhier_ind'. intros topic level ks Hk.
  cbn [saved_node] in Hk. cbv zeta in Hk. cbn [sh_topic nodes fmap list_fmap concat fst snd topic_from].
  set (this := join_topic level topic t) in *. destruct (mapM _ leaves) as [ls|] eqn:Hl; [|done]. cbn [mbind option_bind] in Hk.
  destruct (saved_retained d r) as [rs|] eqn:Hr; [|done]. cbn [mbind option_bind] in Hk.
  destruct (_ ch) as [cs|] eqn:Hc in Hk; [|done]. injection Hk as <-.
  unfold node_chunks at 1, leaf_chunks. cbn [sh_subs sh_retained]. rewrite <-(mapM_concat _ _ _ Hl), Hr, <-app_assoc. cbn. do 2 f_equal.
  revert cs Hc. induction IH as [|h ch Hh _ IHch]; intros cs Hc; [by injection Hc as <-|].
  destruct (saved_node d this (S level) h) as [k|] eqn:Hk; [|done]. cbn [mbind option_bind] in Hc.
  destruct (_ ch) as [cs'|] eqn:Hc' in Hc; [|done]. injection Hc as <-. cbn [fmap list_fmap concat].
  rewrite fmap_app, concat_app. f_equal; [|by apply IHch]. rewrite (Hh _ _ _ Hk), <-list_fmap_compose. done.
Qed.

(** The children of the root hold nothing, and have one child. *)
Definition rooted : Prop :=
  Forall (λ b, sh_subs b = [] ∧ sh_retained b = None ∧ (length (sh_children b) ≤ 1)%nat) (subs_children d).

Lemma saved_tree_chunks ks :
  rooted → saved_tree d = Some ks → ks = concat ((λ e, node_chunks (topic_of e.1) e.2) <$> nodes (root d)).
Proof.
  unfold rooted, saved_tree, root. intros Hr Hk. destruct (mapM _ _) as [ks'|] eqn:Hm; [|done]. injection Hk as <-.
  cbn [nodes fmap list_fmap concat fst snd]. transitivity (concat ((λ e, node_chunks (topic_of e.1) e.2) <$>
    concat ((λ b, under b <$> nodes b) <$> subs_children d))); [|done]. revert ks' Hm.
  induction Hr as [|b bs (Hs & Hre & Hl) _ IH]; intros ks' Hm; cbn [mapM] in Hm; [by injection Hm as <-|].
  destruct (saved_root d b) as [k|] eqn:Hb; [|done]. cbn [mbind option_bind] in Hm. destruct (mapM _ bs) as [ks''|]; [|done].
  injection Hm as <-. cbn [concat fmap list_fmap]. rewrite fmap_app, concat_app. f_equal; [|by apply IH].
  rewrite <-list_fmap_compose. destruct b as [t s r ch]. cbn [sh_subs sh_retained sh_children saved_root] in *. subst s r.
  cbn [nodes fmap list_fmap concat]. unfold compose at 1, under at 1, node_chunks at 1. cbn [fst snd sh_subs sh_retained app leaf_chunks].
  unfold leaf_chunks. cbn [fmap list_fmap concat app default saved_retained]. unfold saved_root in Hb. cbn [sh_children] in Hb.
  destruct ch as [|b' [|b'' ch]]; cbn [length] in Hl; [by injection Hb as <-| |lia].
  apply saved_node_chunks in Hb as ->. cbn [fmap list_fmap concat]. rewrite !app_nil_r, <-!list_fmap_compose. done.
Qed.

(** The sessions that are kept, and the subscriptions of a node that are. *)
Definition kept : gmap ptr mosquitto := filter (λ e, clean_session e.2 = false) (contexts d).

Lemma saved_leaf_kept t lf :
  default [] (saved_leaf d t lf) = match leaf_id kept lf with Some cid => [KSub cid t (lf_qos lf)] | None => [] end.
Proof.
  unfold saved_leaf, leaf_id. destruct (contexts d !! lf_context lf) as [x|] eqn:Hx.
  - cbn [mbind option_bind]. destruct (clean_session x) eqn:Hc.
    + assert (kept !! lf_context lf = None) as ->; [|done]. apply map_lookup_filter_None. right. intros x' Hx'. cbn. congruence.
    + assert (kept !! lf_context lf = Some x) as -> by (by apply map_lookup_filter_Some). cbn. by destruct (id x).
  - assert (kept !! lf_context lf = None) as ->; [|done]. apply map_lookup_filter_None. by left.
Qed.

(** What is restored of a retained message. *)
Definition saved_content (r : option ptr) :=
  s ← r; st ← heap (dmsg d) !! s; t ← ms_topic st; if sys_topic t then None else Some (restored_content st).
End chunks.

(** ** The leaves of a node *)

(** What stays as it is while the tree is restored. *)
Record settled (l l' : loading) : Prop := {
  se_contexts : but_subs (ld_db l) (ld_db l');
  se_content s : content_at (dmsg (ld_db l')) s = content_at (dmsg (ld_db l)) s;
  se_roots : sh_topic <$> subs_children (ld_db l) ⊆ sh_topic <$> subs_children (ld_db l');
}.

#[export] Instance settled_preorder : PreOrder settled.
Proof.
  split; [intros l; by split|]. intros l1 l2 l3 [[B1 C1] E1 R1] [[B2 C2] E2 R2].
  split; [split; [congruence|intros c; by rewrite C2, C1]|intros s; by rewrite E2, E1|by transitivity (sh_topic <$> subs_children (ld_db l2))].
Qed.

(** The session of [cid] was restored. *)
Definition known (cid : bytes) (l : loading) : Prop :=
  ∃ c x, find_client cid (ld_db l) = Some c ∧ contexts (ld_db l) !! c = Some x ∧ id x = Some cid.

Lemma known_settled cid l l' : settled l l' → known cid l → known cid l'.
Proof.
  intros [[Hb Hc] _ _] (c & x & Hf & Hx & Hid). specialize (Hc c). rewrite Hx in Hc.
  destruct (contexts (ld_db l') !! c) as [x'|] eqn:Hx'; [|done]. apply (inj Some), (f_equal id) in Hc. cbn in Hc.
  exists c, x'. split; [unfold find_client in *; by rewrite Hb|]. split; congruence.
Qed.

(** The same subscriptions and the same retained message at [p]. *)
Definition same_at (p : path) (l l' : loading) : Prop :=
  (∀ cid, subscribed (ld_db l') p cid = subscribed (ld_db l) p cid) ∧
  retained_at (ld_db l') p = retained_at (ld_db l) p.
Definition vacant (p : path) (l : loading) : Prop :=
  (∀ cid, subscribed (ld_db l) p cid = None) ∧ retained_at (ld_db l) p = None.

Section tree_phase.
Context (E : env) `{Access} (d : db) (sv : list msg_store).

Lemma leaves_phase p t l lo :
  (omap (leaf_id (kept d)) l ≠ [] → sub_path t = p ∧ 0 ∉ t ∧ hash_last (tokens t)) →
  Forall (λ lf, 0 ≤ lf_qos lf ≤ 2) l → NoDup (omap (leaf_id (kept d)) l) →
  (∀ cid, cid ∈ omap (leaf_id (kept d)) l → known cid lo) → loaded sv lo →
  brings E (leaf_chunks d t l) lo (λ lo', loaded sv lo' ∧ settled lo lo' ∧ (∀ p', p' ≠ p → same_at p' lo lo') ∧
    retained_at (ld_db lo') p = retained_at (ld_db lo) p ∧
    ∀ cid, subscribed (ld_db lo') p cid =
      match client_qos (kept d) cid l with Some q => Some q | None => subscribed (ld_db lo) p cid end).
Proof.
  revert lo. induction l as [|lf l IH]; intros lo Ht Hq Hnd Hk Hlo.
  { apply brings_nil. by split_and!. }
  apply Forall_cons in Hq as [Hq0 Hq]. unfold leaf_chunks. cbn [fmap list_fmap concat]. rewrite saved_leaf_kept.
  cbn [omap list_omap client_qos] in *. fold (leaf_chunks d t l). destruct (leaf_id (kept d) lf) as [cid0|] eqn:Hlf; [|by apply IH].
  apply NoDup_cons in Hnd as [Hnew Hnd]. destruct (Ht ltac:(done)) as (Hp & H0 & Hh).
  destruct (Hk cid0 ltac:(by left)) as (c & x & Hfc & Hx & Hid). apply brings_cons.
  eapply gives_mono; [by apply (sub_gives E sv cid0 c x t (lf_qos lf) lo)|].
  intros lo1 (Hlo1 & Hdm & Hbut & Hroots & Hsub & Hret).
  assert (Hse : settled lo lo1) by (split; [done| |done]; intros s; by rewrite Hdm).
  eapply brings_mono; [apply (IH lo1); [done|done|done| |done]|].
  { intros cid Hcid. eapply known_settled; [done|]. apply Hk. by right. }
  intros lo' (Hlo' & Hse' & Hsame & Hret' & Hsub'). split; [done|]. split; [by etrans|]. split; [|split].
  - intros p' Hp'. destruct (Hsame p' Hp') as [S1 S2]. split; [|by rewrite S2]. intros cid. rewrite S1, Hsub, decide_False; [done|].
    intros [-> _]. congruence.
  - by rewrite Hret'.
  - intros cid. rewrite Hsub', Hsub, Hp. destruct (decide (cid = cid0)) as [->|Hne].
    + rewrite !decide_True by done. destruct (client_qos (kept d) cid0 l) eqn:Hcq; [|done]. destruct Hnew.
      clear -Hcq. induction l as [|lf l IH]; [done|]. cbn [client_qos omap list_omap] in *.
      destruct (leaf_id (kept d) lf) as [i|]; [|by apply IH]. destruct (decide (Some i = Some cid0)) as [[= ->]|]; [by left|].
      right. by apply IH.
    + rewrite !decide_False by (intros Hc; naive_solver). done.
Qed.

(** ** The nodes *)

(** What is retained at [p], with its content. *)
Definition retained_content (l : db) (p : path) := retained_at l p ≫= content_at (dmsg l).

(** A retained message that is restored to the place where it was. *)
Definition retained_ok (p : path) (s : ptr) : Prop :=
  match heap (dmsg d) !! s with
  | None => False
  | Some st =>
      match ms_topic st with
      | None => False
      | Some t =>
          sys_topic t = true ∨
          sub_path t = p ∧ dollar t = false ∧ ms_retain st = true ∧ ms_payload st ≠ [] ∧ 0 ∉ t ∧ wildcard_free t
      end
  end.

Definition node_storable (p : path) (n : subhier) : Prop :=
  (omap (leaf_id (kept d)) (sh_subs n) ≠ [] → sub_path (topic_of p) = p ∧ 0 ∉ topic_of p) ∧
  match sh_retained n with None => True | Some s => retained_ok p s end.

Context (Hinv : broker_inv None d).
Context (Hsv : ∀ s st, heap (dmsg d) !! s = Some st → saved_store st ≠ [] → st ∈ sv).

Lemma kept_nodup l : NoDup (lf_context <$> l) → NoDup (omap (leaf_id (kept d)) l).
Proof.
  induction l as [|lf l IH]; cbn; [intros _; apply NoDup_nil_2|]. intros [Hnin Hnd]%NoDup_cons.
  destruct (leaf_id (kept d) lf) as [cid|] eqn:Hlf; [|by apply IH]. apply NoDup_cons. split; [|by apply IH].
  intros (lf' & Hin & Hlf')%list_elem_of_omap. apply Hnin. unfold leaf_id, kept in *.
  destruct (filter _ _ !! lf_context lf) as [x|] eqn:Hx; [|done]. apply map_lookup_filter_Some in Hx as [Hx _].
  destruct (filter _ _ !! lf_context lf') as [x'|] eqn:Hx'; [|done]. apply map_lookup_filter_Some in Hx' as [Hx' _].
  rewrite (unique_client _ d cid _ _ x x' (bi_tables _ _ Hinv) Hx Hlf Hx' Hlf'). by apply list_elem_of_fmap_2.
Qed.

Lemma retained_phase p n lo :
  match sh_retained n with None => True | Some s => retained_ok p s ∧ sendable (dmsg d) s end →
  loaded sv lo → [] ∈ sh_topic <$> subs_children (ld_db lo) → retained_at (ld_db lo) p = None →
  brings E (default [] (saved_retained d (sh_retained n))) lo (λ lo', loaded sv lo' ∧ settled lo lo' ∧
    (∀ p', p' ≠ p → same_at p' lo lo') ∧ (∀ cid, subscribed (ld_db lo') p cid = subscribed (ld_db lo) p cid) ∧
    retained_content (ld_db lo') p = saved_content d (sh_retained n)).
Proof.
  unfold retained_ok, saved_retained, saved_content. intros Hok Hlo Hroot Hnone.
  assert (Hskip : brings E [] lo (λ lo', loaded sv lo' ∧ settled lo lo' ∧ (∀ p', p' ≠ p → same_at p' lo lo') ∧
    (∀ cid, subscribed (ld_db lo') p cid = subscribed (ld_db lo) p cid) ∧ retained_content (ld_db lo') p = None)).
  { apply brings_nil. split_and!; try done. unfold retained_content. by rewrite Hnone. }
  destruct (sh_retained n) as [s|]; [|done]. cbn [mbind option_bind]. destruct Hok as [Hok (st' & t' & Hst' & Ht' & Hl1 & Hl2 & Hq)].
  rewrite Hst' in *. rewrite Ht' in Hok. rename st' into st, t' into t. cbn [mbind option_bind]. rewrite Ht'. cbn [mbind option_bind].
  destruct (sys_topic t) eqn:Hsys; [done|]. destruct Hok as [|(Hp & Hd & Hr & Hpl & H0 & Hw)]; [done|]. cbn [default].
  assert (Hin : st ∈ sv) by (eapply Hsv; [exact Hst'|]; unfold saved_store; by rewrite Ht', Hsys).
  apply brings_cons. eapply gives_mono; [apply (retain_gives E sv st t lo); try done; [|by rewrite Hp]|].
  { unfold has_root, tokens. rewrite Hd. cbn. apply bool_decide_eq_true_2, list_elem_of_fmap_2, Hroot. }
  intros lo' (Hlo' & Hctx & Hby & Hroots & Hsubs & Hcont & s' & Hs' & Hret). apply brings_nil.
  assert (Hsub : ∀ p cid, subscribed (ld_db lo') p cid = subscribed (ld_db lo) p cid).
  { intros p' cid. unfold subscribed. by rewrite Hsubs, Hctx. }
  split_and!; try done.
  - split; [split; [done|]; intros c; by rewrite Hctx|done|done].
  - intros p' Hp'. split; [done|]. rewrite Hret, decide_False; congruence.
  - unfold retained_content. rewrite Hret, decide_True by done. cbn. by rewrite Hcont, Hs'.
Qed.

Lemma node_phase p n lo :
  sub_at p (root d) = Some n → node_storable p n → loaded sv lo → [] ∈ sh_topic <$> subs_children (ld_db lo) →
  (∀ cid, cid ∈ omap (leaf_id (kept d)) (sh_subs n) → known cid lo) → vacant p lo →
  brings E (node_chunks d (topic_of p) n) lo (λ lo', loaded sv lo' ∧ settled lo lo' ∧ (∀ p', p' ≠ p → same_at p' lo lo') ∧
    (∀ cid, subscribed (ld_db lo') p cid = client_qos (kept d) cid (sh_subs n)) ∧
    retained_content (ld_db lo') p = saved_content d (sh_retained n)).
Proof.
  intros Hn [Hst Hre] Hlo Hroot Hk [Hv1 Hv2]. pose proof (bo_db _ _ (bi_ok _ _ Hinv)) as [_ Hsubs Hleaves Hret].
  pose proof (so_tree _ Hsubs) as Htree.
  apply brings_app. eapply brings_mono; [apply (leaves_phase p (topic_of p) (sh_subs n) lo); try done|].
  - intros Hne. destruct (Hst Hne) as [Hp H0]. split; [done|]. split; [done|].
    pose proof (sub_at_hash_last (root d) p n Htree Hn) as Hh. rewrite <-Hp in Hh. revert Hh. unfold sub_path.
    destruct (tokens (topic_of p)); [done|]. by intros [_ Hh].
  - apply Forall_forall. intros lf Hlf. unfold leaves_ok in Hleaves. rewrite Forall_forall in Hleaves.
    apply Hleaves. eapply sublist_subseteq; [apply (subs_of_sublist p)|]. unfold subs_of. by rewrite Hn.
  - apply kept_nodup. pose proof (so_one _ Hsubs p) as Hone. unfold subs_of in Hone. by rewrite Hn in Hone.
  - intros lo1 (Hlo1 & Hse1 & Hsame1 & Hret1 & Hsub1). eapply brings_mono; [apply (retained_phase p n lo1); try done|].
    + destruct (sh_retained n) as [s|] eqn:Hs; [|done]. split; [done|]. rewrite Forall_forall in Hret. apply Hret.
      apply tree_refs_at; [apply Htree|]. exists p. unfold ret_of. by rewrite Hn.
    + by apply (se_roots _ _ Hse1).
    + by rewrite Hret1.
    + intros lo2 (Hlo2 & Hse2 & Hsame2 & Hsub2 & Hret2). split_and!; [done|by etrans| | |done].
      * intros p' Hp'. destruct (Hsame1 p' Hp') as [A1 A2], (Hsame2 p' Hp') as [B1 B2]. split; [intros cid; by rewrite B1|congruence].
      * intros cid. rewrite Hsub2, Hsub1, Hv1. by destruct (client_qos _ _ _).
Qed.

Lemma tree_phase es lo :
  NoDup es.*1 → (∀ p n, (p, n) ∈ es → sub_at p (root d) = Some n ∧ node_storable p n) →
  (∀ p n cid, (p, n) ∈ es → cid ∈ omap (leaf_id (kept d)) (sh_subs n) → known cid lo) →
  loaded sv lo → [] ∈ sh_topic <$> subs_children (ld_db lo) → (∀ p, p ∈ es.*1 → vacant p lo) →
  brings E (concat ((λ e, node_chunks d (topic_of e.1) e.2) <$> es)) lo (λ lo', loaded sv lo' ∧ settled lo lo' ∧
    (∀ p, p ∉ es.*1 → same_at p lo lo') ∧
    ∀ p n, (p, n) ∈ es → (∀ cid, subscribed (ld_db lo') p cid = client_qos (kept d) cid (sh_subs n)) ∧
      retained_content (ld_db lo') p = saved_content d (sh_retained n)).
Proof.
  revert lo. induction es as [|[p n] es IH]; intros lo Hnd Hes Hk Hlo Hroot Hv; cbn [fmap list_fmap concat fst snd] in *.
  { apply brings_nil. split_and!; try done. by intros p n ?%elem_of_nil. }
  apply NoDup_cons in Hnd as [Hnew Hnd]. destruct (Hes p n ltac:(by left)) as [Hn Hst]. apply brings_app.
  eapply brings_mono; [apply (node_phase p n lo); try done; [intros cid; apply (Hk p n); by left|apply Hv; by left]|].
  intros lo1 (Hlo1 & Hse1 & Hsame1 & Hsub1 & Hret1). eapply brings_mono; [apply (IH lo1); try done|].
  - intros p' n' Hin. apply Hes. by right.
  - intros p' n' cid Hin Hcid. eapply known_settled; [done|]. eapply Hk; [by right|done].
  - by apply (se_roots _ _ Hse1).
  - intros p' Hp'. destruct (Hsame1 p') as [S1 S2]; [by intros ->|]. destruct (Hv p' ltac:(by right)) as [V1 V2].
    split; [intros cid; by rewrite S1|congruence].
  - intros lo2 (Hlo2 & Hse2 & Hsame2 & Hall2). split_and!; [done|by etrans| |].
    + intros p' [Hne Hni]%not_elem_of_cons. destruct (Hsame1 p' Hne) as [A1 A2], (Hsame2 p' Hni) as [B1 B2].
      split; [intros cid; by rewrite B1|congruence].
    + intros p' n' [[= -> ->]|Hin]%elem_of_cons; [|by apply Hall2]. destruct (Hsame2 p Hnew) as [B1 B2].
      split; [intros cid; by rewrite B1|]. rewrite <-Hret1. unfold retained_content. rewrite B2.
      destruct (retained_at (ld_db lo1) p); [|done]. cbn. apply (se_content _ _ Hse2).
Qed.
End tree_phase.
