(* ===== verification/Persistence.v ===== *)
(** * The database across a restart (src/persist.c)

    What a broker that is started from the file of another one has: the
    sessions that were to be kept with their messages, the subscriptions of
    these sessions and the retained messages; and what is on the disk after a
    backup, whatever fails. *)

From stdpp Require Import base list numbers strings option sets gmap infinite.
From Stdlib Require Import ZArith Lia.
From S2P Require Import Prelude Topic Packet State Store Send Messages Db Acl Subs DbInv Session Context Handlers Persist Nodes Snapshot Lifecycle Release Free Serve Connect Broker Runs Restore RestoreTree Roundtrip RoundtripTree.
Local Open Scope Z_scope.
Local Open Scope broker_scope.

(** ** What can be saved *)

Section storable.
Context (d : db).

Definition stored_messages : list msg_store := omap (λ s, heap (dmsg d) !! s) (msg_list (dmsg d)).

(** The ids of the stored messages are ids, the tree has the shape that the
    subscriptions give it, and its nodes can be restored. *)
Record storable : Prop := {
  sb_ids : NoDup (db_id <$> stored_messages);
  sb_nonzero : Forall (λ st, db_id st ≠ 0) stored_messages;
  sb_rooted : rooted d;
  sb_nodes : Forall (λ e, node_storable d e.1 e.2) (nodes (root d));
}.

#[export] Instance retained_ok_dec p s : Decision (retained_ok d p s).
Proof.
  unfold retained_ok. destruct (heap (dmsg d) !! s) as [st|]; [|apply _]. destruct (ms_topic st) as [t|]; [|apply _].
  unfold wildcard_free. apply _.
Defined.

#[export] Instance node_storable_dec e : Decision (node_storable d e.1 e.2).
Proof. unfold node_storable. destruct (sh_retained e.2); apply _. Defined.

#[export] Instance rooted_dec : Decision (rooted d).
Proof. unfold rooted. apply _. Defined.

#[export] Instance storable_dec : Decision storable.
Proof.
  destruct (decide (NoDup (db_id <$> stored_messages) ∧ Forall (λ st, db_id st ≠ 0) stored_messages ∧ rooted d ∧
    Forall (λ e, node_storable d e.1 e.2) (nodes (root d)))) as [H|H]; [left|right].
  - abstract (split; tauto).
  - abstract (intros []; tauto).
Defined.

(** The session of a client. *)
Definition session_at (cid : bytes) :=
  c ← find_client cid d; x ← contexts d !! c; Some (session_of (dmsg d) x).
(** What is kept of it. *)
Definition kept_session (time : Z) (cid : bytes) :=
  c ← find_client cid d; x ← contexts d !! c; if clean_session x then None else Some (saved_session d time x).
(** The subscriptions of the sessions that are kept. *)
Definition kept_subscribed (p : path) (cid : bytes) : option Z := client_qos (kept d) cid (subs_of p (root d)).
End storable.

(** ** Lookups *)

Lemma find_client_entry cid c d : NoDup (contexts_by_id d).*1 → (cid, c) ∈ contexts_by_id d → find_client cid d = Some c.
Proof.
  intros Hnd Hin. unfold find_client. destruct (list_find _ _) as [[i [k c']]|] eqn:Hf.
  - apply list_find_Some in Hf as (Hi & Hk & _). cbn in Hk. subst k. apply list_elem_of_lookup in Hin as [j Hj]. cbn. f_equal.
    assert (i = j) as ->; [|congruence]. eapply NoDup_lookup; [exact Hnd| |]; by rewrite list_lookup_fmap, ?Hi, ?Hj.
  - apply list_find_None in Hf. rewrite Forall_forall in Hf. by destruct (Hf _ Hin).
Qed.

Lemma find_client_in cid c d :
  tables_ok (ll_for_free d) d → find_client cid d = Some c ↔ ∃ x, contexts d !! c = Some x ∧ id x = Some cid.
Proof.
  intros Ht. pose proof (tb_id _ _ Ht) as [Hid _]. rewrite <-(Hid cid c). split; [|apply find_client_entry, (tb_unique _ _ Ht)].
  unfold find_client. destruct (list_find _ _) as [[i [k c']]|] eqn:Hf; [|done]. intros [= <-].
  apply list_find_Some in Hf as (Hi & Hk & _). cbn in Hk. subst k. by eapply list_elem_of_lookup_2.
Qed.

Lemma store_chunks d ss :
  mapM (λ s, saved_store <$> heap (dmsg d) !! s) (msg_list (dmsg d)) = Some ss →
  concat ss = concat (saved_store <$> stored_messages d).
Proof.
  intros ->%mapM_concat. unfold stored_messages. induction (msg_list (dmsg d)) as [|s l IH]; [done|].
  cbn. rewrite IH. by destruct (heap (dmsg d) !! s).
Qed.

(** ** The restart *)

Section restart.
Context (E : env) `{Access} (d : db) (time : Z) (Hinv : broker_inv None d) (Hst : storable d).

(** The sessions, after their chunks. *)
Definition sessions_ok (lo : loading) : Prop :=
  (∀ cid, session_at (ld_db lo) cid = kept_session d time cid) ∧
  (∀ cid, is_Some (kept_session d time cid) → known cid lo) ∧
  ∀ c x, contexts (ld_db lo) !! c = Some x → is_Some (id x).

Lemma kept_lookup cid c x :
  contexts d !! c = Some x → id x = Some cid → clean_session x = false → kept_session d time cid = Some (saved_session d time x).
Proof.
  intros Hx Hid Hc. unfold kept_session. rewrite (proj2 (find_client_in cid c d (bi_tables _ _ Hinv))) by eauto.
  cbn [mbind option_bind]. rewrite Hx. cbn [mbind option_bind]. by rewrite Hc.
Qed.

Lemma kept_session_id cid : is_Some (kept_session d time cid) ↔ cid ∈ omap (kept_id d) (contexts_by_id d).*2.
Proof.
  rewrite list_elem_of_omap. unfold kept_session, kept_id. pose proof (find_client_in cid) as Hf. split.
  - destruct (find_client cid d) as [c|] eqn:Hc; [|by intros [? ?]]. apply Hf in Hc as (x & Hx & Hid); [|apply (bi_tables _ _ Hinv)].
    cbn. rewrite Hx. cbn. intros Hs. exists c. split; [|rewrite Hx; cbn; destruct (clean_session x); [by destruct Hs|done]].
    apply (list_elem_of_fmap_2 snd _ (cid, c)). apply (tb_id _ _ (bi_tables _ _ Hinv)). eauto.
  - intros (c & _ & Hk). destruct (contexts d !! c) as [x|] eqn:Hx; [|done]. cbn in Hk. destruct (clean_session x) eqn:Hcl; [done|].
    rewrite (proj2 (Hf c d (bi_tables _ _ Hinv))) by eauto. cbn. rewrite Hx. cbn. by rewrite Hcl.
Qed.

Lemma kept_ids_nodup : NoDup (omap (kept_id d) (contexts_by_id d).*2).
Proof.
  assert (Hall : ∀ k c i, (k, c) ∈ contexts_by_id d → kept_id d c = Some i → i = k).
  { intros k c i (x & Hx & Hid)%(tb_id _ _ (bi_tables _ _ Hinv)). unfold kept_id. rewrite Hx. cbn.
    destruct (clean_session x); [done|congruence]. }
  pose proof (tb_unique _ _ (bi_tables _ _ Hinv)) as Hnd. induction (contexts_by_id d) as [|[k c] l IH]; cbn; [apply NoDup_nil_2|].
  cbn in Hnd. apply NoDup_cons in Hnd as [Hk Hnd]. assert (IH' := IH ltac:(intros; eapply Hall; [by right|done]) Hnd).
  destruct (kept_id d c) as [i|] eqn:Hi; [|done]. apply NoDup_cons. split; [|done].
  rewrite (Hall k c i ltac:(by left) Hi). intros (c' & ([k' c''] & -> & Hin)%list_elem_of_fmap & Hc')%list_elem_of_omap. cbn in Hc'.
  apply Hk. rewrite (Hall k' c'' k ltac:(by right) Hc'). by apply (list_elem_of_fmap_2 fst _ (k', c'')).
Qed.

Lemma sessions_phase sv ks lo :
  (∀ s st, heap (dmsg d) !! s = Some st → saved_store st ≠ [] → st ∈ sv) →
  saved_clients d time = Some ks → loaded sv lo →
  contexts_by_id (ld_db lo) = [] → contexts (ld_db lo) = ∅ →
  brings E ks lo (λ lo', loaded sv lo' ∧ same_store lo lo' ∧ sessions_ok lo').
Proof.
  intros Hsv Hks Hlo Hb Hctx. unfold saved_clients in Hks. destruct (mapM _ _) as [cs|] eqn:Hcs; [|done]. injection Hks as <-.
  eapply brings_mono; [apply (clients_phase E d time sv Hsv _ _ lo Hcs); try done|].
  { intros c x Hx. apply (cx_msgs _ _ (co_ctx _ _ (db_core _ _ (bo_db _ _ (bi_ok _ _ Hinv))) c x Hx)). }
  { rewrite Hb, app_nil_r. apply kept_ids_nodup. }
  intros lo' (Hlo' & Hs & new & Hnew & Hids & _ & Hdom & Hall). split; [done|]. split; [done|]. rewrite Hb in Hnew. cbn in Hnew.
  assert (Hsome : ∀ cid, is_Some (kept_session d time cid) → ∃ c' x', find_client cid (ld_db lo') = Some c' ∧
    contexts (ld_db lo') !! c' = Some x' ∧ Some (session_of (dmsg (ld_db lo')) x') = kept_session d time cid ∧ id x' = Some cid).
  { intros cid Hk. apply kept_session_id in Hk as (c & Hc & Hkc)%list_elem_of_omap. pose proof Hkc as Hkc'. unfold kept_id in Hkc.
    destruct (contexts d !! c) as [x|] eqn:Hx; [|done]. cbn in Hkc. destruct (clean_session x) eqn:Hcl; [done|].
    destruct (Hall c x cid Hc Hx Hkc') as (c' & x' & Hin & Hx' & Hses). exists c', x'. split; [|split; [done|split]].
    - apply find_client_entry; [|by rewrite Hnew]. apply (tb_unique _ _ (bi_tables _ _ (lo_inv _ _ Hlo'))).
    - by rewrite (kept_lookup cid c x), Hses.
    - apply (f_equal (λ v, v.1.1.1.1.1)) in Hses. cbn in Hses. congruence. }
  split; [|split].
  - intros cid. destruct (kept_session d time cid) as [v|] eqn:Hk.
    + destruct (Hsome cid ltac:(by rewrite Hk)) as (c' & x' & Hf & Hx' & Hses & _). unfold session_at. rewrite Hf. cbn.
      rewrite Hx'. cbn. congruence.
    + unfold session_at. rewrite find_client_fresh; [done|]. rewrite Hnew, Hids. intros Hin%kept_session_id. by rewrite Hk in Hin; destruct Hin.
  - intros cid (c' & x' & Hf & Hx' & _ & Hid)%Hsome. by exists c', x'.
  - intros c x Hx. destruct (Hdom c ltac:(by eexists)) as [[y Hy]|([cid c'] & -> & Hin)%list_elem_of_fmap]; [by rewrite Hctx in Hy|].
    rewrite <-Hnew in Hin. apply (tb_id _ _ (bi_tables _ _ (lo_inv _ _ Hlo'))) in Hin as (y & Hy & Hid).
    cbn [snd] in Hx. rewrite (recounted_lookup _ _ _ Hx) in Hy. apply (inj Some) in Hy as <-. by exists cid.
Qed.

(** The tree keeps them. *)
Lemma sessions_settled lo lo' : settled lo lo' → sessions_ok lo → sessions_ok lo'.
Proof.
  intros Hse (H1 & H2 & H3). split; [|split; [intros cid Hk; eapply known_settled; [done|auto]|]]; cycle 1.
  { intros c x' Hx'. destruct Hse as [[_ Hc] _ _]. specialize (Hc c). rewrite Hx' in Hc.
    destruct (contexts (ld_db lo) !! c) as [x|] eqn:Hx; [|done]. apply (inj Some), (f_equal id) in Hc. cbn in Hc. rewrite Hc. by eapply H3. }
  intros cid. rewrite <-H1. destruct Hse as [[Hb Hc] Hcont _]. unfold session_at, find_client. rewrite Hb. destruct (snd <$> (snd <$> _)) as [c|]; [|done]. cbn.
  specialize (Hc c). destruct (contexts (ld_db lo) !! c) as [x|], (contexts (ld_db lo') !! c) as [x'|]; try done. cbn in *. f_equal.
  apply (inj Some) in Hc. transitivity (session_of (dmsg (ld_db lo')) (set_subs (λ _, []) x')); [done|]. rewrite Hc.
  unfold session_of. f_equal. apply list_fmap_ext. intros i y _. unfold msg_view. by rewrite Hcont.
Qed.

(** What is restored. *)
Record restored (d' : db) : Prop := {
  re_inv : broker_inv None (recounted d');
  re_named c x : contexts d' !! c = Some x → is_Some (id x);
  re_sessions cid : session_at d' cid = kept_session d time cid;
  re_subscribed p cid : subscribed d' p cid = kept_subscribed d p cid;
  re_retained p : retained_content d' p = saved_content d (retained_at d p);
}.

Lemma open_loaded n : loaded [] (Loading (mqtt3_db_open n).2 []).
Proof. split; [exact (open_ok n)|by intros st ?%elem_of_nil]. Qed.

Lemma stored_in s st : heap (dmsg d) !! s = Some st ↔ s ∈ msg_list (dmsg d) ∧ heap (dmsg d) !! s = Some st.
Proof.
  split; [|tauto]. intros Hs. split; [|done]. apply (list_heap _ (proj2 (co_store _ _ (db_core _ _ (bo_db _ _ (bi_ok _ _ Hinv)))))). eauto.
Qed.

Lemma off_nodes p : sub_at p (root d) = None → p ∉ (nodes (root d)).*1.
Proof.
  intros Hn ([p' n] & -> & Hin)%list_elem_of_fmap. apply (nodes_sub_at (root d)) in Hin; [cbn in Hn; congruence|].
  apply (so_tree _ (db_subs _ _ (bo_db _ _ (bi_ok _ _ Hinv)))).
Qed.

Lemma restore_tree sv ks lo :
  (∀ s st, heap (dmsg d) !! s = Some st → saved_store st ≠ [] → st ∈ sv) →
  saved_tree d = Some ks → loaded sv lo → sessions_ok lo → [] ∈ sh_topic <$> subs_children (ld_db lo) → (∀ p, vacant p lo) →
  brings E ks lo (λ lo', restored (ld_db lo')).
Proof.
  intros Hsv Hks Hlo Hses Hroot Hv. apply saved_tree_chunks in Hks as ->; [|apply (sb_rooted _ Hst)].
  pose proof (so_tree _ (db_subs _ _ (bo_db _ _ (bi_ok _ _ Hinv)))) as Htree. pose proof (sb_nodes _ Hst) as Hnodes. rewrite Forall_forall in Hnodes.
  eapply brings_mono; [apply (tree_phase E d sv Hinv Hsv (nodes (root d)) lo); try done|].
  - apply nodes_unique, Htree.
  - intros p n Hin. split; [by apply nodes_sub_at; [apply Htree|]|by apply (Hnodes (p, n))].
  - intros p n cid _ (lf & _ & Hlf)%list_elem_of_omap. apply Hses. unfold leaf_id, kept in Hlf.
    destruct (filter _ _ !! lf_context lf) as [x|] eqn:Hx; [|done]. apply map_lookup_filter_Some in Hx as [Hx Hcl].
    rewrite (kept_lookup cid (lf_context lf) x); done.
  - intros lo' (Hlo' & Hse & Hsame & Hall). split; [apply (lo_inv _ _ Hlo')|by apply (sessions_settled _ _ Hse Hses)..| |].
    + intros p cid. unfold kept_subscribed, subs_of. destruct (sub_at p (root d)) as [n|] eqn:Hn.
      * apply (nodes_sub_at (root d)) in Hn; [|apply Htree]. by apply Hall.
      * destruct (Hsame p (off_nodes p Hn)) as [-> _]. apply Hv.
    + intros p. unfold retained_at at 1, ret_of. destruct (sub_at p (root d)) as [n|] eqn:Hn.
      * apply (nodes_sub_at (root d)) in Hn; [|apply Htree]. by apply Hall.
      * destruct (Hsame p (off_nodes p Hn)) as [_ Hr]. unfold retained_content. rewrite Hr, (proj2 (Hv p)). done.
Qed.

Lemma restore_all n sh ks :
  snapshot d time sh = Some ks → brings E ks (Loading (mqtt3_db_open n).2 []) (λ lo', restored (ld_db lo')).
Proof.
  intros Hks. unfold snapshot in Hks. destruct (saved_first d sh) as [k1|] eqn:H1; [|done]. cbn [mbind option_bind] in Hks.
  destruct (saved_clients d time) as [k2|] eqn:H2; [|done]. cbn [mbind option_bind] in Hks.
  destruct (saved_tree d) as [k3|] eqn:H3; [|done]. injection Hks as <-. unfold saved_first in H1.
  destruct (mapM _ _) as [ss|] eqn:Hss; [|done]. injection H1 as <-. rewrite (store_chunks d ss Hss). cbn [app].
  apply brings_cons. eapply gives_mono; [apply (cfg_gives E [] sh _ _ (open_loaded n))|]. intros l1 (Hlo1 & C1 & B1 & T1).
  apply brings_app. eapply brings_mono; [apply (store_phase E _ [] l1 Hlo1); [rewrite app_nil_r; apply (sb_ids _ Hst)|apply (sb_nonzero _ Hst)]|].
  intros l2 ((C2 & B2 & T2) & sv & Hlo2 & _ & Hin). apply brings_app.
  assert (Hsv : ∀ s st, heap (dmsg d) !! s = Some st → saved_store st ≠ [] → st ∈ sv).
  { intros s st [Hs Hh]%stored_in Hne. apply Hin; [|done]. apply list_elem_of_omap. eauto. }
  eapply brings_mono; [apply (sessions_phase sv k2 l2 Hsv H2 Hlo2); [by rewrite B2, B1|by rewrite C2, C1]|].
  intros l3 (Hlo3 & [T3 _] & Hses). apply (restore_tree sv); try done; rewrite ?T3, ?T2, ?T1.
  - by left.
  - intros p. assert (Hnil : ∀ p, subs_of p (root (ld_db l3)) = []).
    { intros p'. pose proof (subs_of_sublist p' (root (ld_db l3))) as Hs. unfold root in Hs at 2. rewrite T3, T2, T1 in Hs. cbn in Hs. by apply sublist_nil_r in Hs. }
    split; [intros cid; unfold subscribed; by rewrite Hnil|]. destruct (retained_at (ld_db l3) p) as [s|] eqn:Hr; [|done].
    assert (Hs : s ∈ tree_refs (root (ld_db l3))).
    { apply tree_refs_at; [apply (so_tree _ (db_subs _ _ (bo_db _ _ (bi_ok _ _ (lo_inv _ _ Hlo3)))))|]. by exists p. }
    unfold root in Hs. rewrite T3, T2, T1 in Hs. by apply elem_of_nil in Hs.
Qed.
End restart.

(** ** What can be written *)

(** Sessions that are kept have an id, and no message whose topic was refused. *)
Definition savable (d : db) : Prop :=
  map_Forall (λ _ x, clean_session x = false →
    is_Some (id x) ∧ Forall (λ y, is_Some (heap (dmsg d) !! cm_store y ≫= ms_topic)) (msgs x)) (contexts d).

#[export] Instance savable_dec d : Decision (savable d).
Proof. unfold savable. apply _. Defined.

Lemma mapM_defined {A B} (f : A → option B) l : Forall (λ a, is_Some (f a)) l → is_Some (mapM f l).
Proof.
  induction 1 as [|a l [b Hb] _ [bs IH]]; cbn [mapM]; [by eexists|]. rewrite Hb. cbn [mbind option_bind]. rewrite IH. by eexists.
Qed.

Section defined.
Context (d : db) (Hinv : broker_inv None d) (Hsave : savable d).

Lemma saved_first_defined sh : is_Some (saved_first d sh).
Proof.
  unfold saved_first. destruct (mapM_defined (λ s, saved_store <$> heap (dmsg d) !! s) (msg_list (dmsg d))) as [ss ->]; [|by eexists].
  apply Forall_forall. intros s [st ->]%(list_heap _ (proj2 (co_store _ _ (db_core _ _ (bo_db _ _ (bi_ok _ _ Hinv)))))). by eexists.
Qed.

Lemma saved_clients_defined time : is_Some (saved_clients d time).
Proof.
  unfold saved_clients. destruct (mapM_defined (saved_client d time) (contexts_by_id d).*2) as [ks ->]; [|by eexists].
  apply Forall_forall. intros c ([cid c'] & -> & (x & Hx & Hid)%(tb_id _ _ (bi_tables _ _ Hinv)))%list_elem_of_fmap.
  unfold saved_client. cbn [snd]. rewrite Hx. cbn [mbind option_bind]. destruct (clean_session x) eqn:Hcl; [by eexists|].
  rewrite Hid. cbn [mbind option_bind]. destruct (mapM_defined (saved_msg d cid) (msgs x)) as [ms ->]; [|by eexists].
  destruct (Hsave _ _ Hx Hcl) as [_ Hm]. eapply Forall_impl; [exact Hm|]. intros y [t Ht]. unfold saved_msg.
  destruct (heap (dmsg d) !! cm_store y) as [st|]; [|done]. cbn in *. rewrite Ht. by eexists.
Qed.

Lemma saved_node_defined topic level h :
  Forall (λ lf, is_Some (contexts d !! lf_context lf)) (tree_leaves h) → Forall (sendable (dmsg d)) (tree_refs h) →
  is_Some (saved_node d topic level h).
Proof.
  revert topic level. induction h as [t leaves r ch IH] using subhier_ind'. intros topic level Hl Hr.
  cbn [tree_leaves tree_refs saved_node] in *. cbv zeta. apply Forall_app in Hl as [Hl Hlc]. apply Forall_app in Hr as [Hr Hrc].
  set (this := join_topic level topic t). destruct (mapM_defined (saved_leaf d this) leaves) as [ls ->].
  { eapply Forall_impl; [exact Hl|]. intros lf [x Hx]. unfold saved_leaf. rewrite Hx. cbn [mbind option_bind].
    destruct (clean_session x) eqn:Hcl; [by eexists|]. destruct (Hsave _ _ Hx Hcl) as [[cid ->] _]. by eexists. }
  cbn [mbind option_bind]. assert (is_Some (saved_retained d r)) as [rs ->].
  { destruct r as [s|]; [|by eexists]. apply Forall_singleton in Hr as (st & t' & Hs & Ht & _).
    unfold saved_retained. rewrite Hs. cbn [mbind option_bind]. rewrite Ht. by eexists. }
  cbn [mbind option_bind]. match goal with |- is_Some (mbind _ ?m) => assert (is_Some m) as [cs ->]; [|by eexists] end.
  induction IH as [|h ch Hh _ IHch]; [by eexists|]. cbn [fmap list_fmap concat] in *.
  apply Forall_app in Hlc as [Hlh Hlc]. apply Forall_app in Hrc as [Hrh Hrc].
  destruct (Hh this (S level) Hlh Hrh) as [k ->]. cbn [mbind option_bind]. destruct (IHch Hlc Hrc) as [cs ->]. by eexists.
Qed.

Lemma saved_tree_defined : is_Some (saved_tree d).
Proof.
  pose proof (bo_db _ _ (bi_ok _ _ Hinv)) as [_ _ Hl Hr]. unfold saved_tree, leaves_ok in *. cbn [root tree_leaves tree_refs app] in *.
  change (Forall (sendable (dmsg d)) (concat (tree_refs <$> subs_children d))) in Hr. destruct (mapM_defined (saved_root d) (subs_children d)) as [ks ->]; [|by eexists].
  revert Hl Hr. induction (subs_children d) as [|[t s r ch] bs IH]; intros Hl Hr; [done|]. cbn [fmap list_fmap concat] in *.
  apply Forall_app in Hl as [Hlb Hl]. apply Forall_app in Hr as [Hrb Hr]. apply Forall_cons. split; [|by apply IH].
  unfold saved_root. cbn [sh_children tree_leaves tree_refs] in *. destruct ch as [|h ch]; [by eexists|]. cbn [fmap list_fmap concat] in *.
  rewrite !Forall_app in Hlb. rewrite !Forall_app in Hrb. apply saved_node_defined; [|tauto].
  eapply Forall_impl; [apply Hlb|]. by intros lf [? _].
Qed.
End defined.

(** ** Properties *)

(** What a backup leaves on the disk, and its code: [data] is the encoding of the
    broker, [noticed] whether an [fwrite] of its first part reported that the
    disk is full. *)
Definition backup_result (D : disk) (data : bytes) (noticed : bool) (fs : files) : Z * files :=
  let written := match disk_room D with None => data | Some r => take r data end in
  if unlink_fails D then (1, fs)
  else if fopen_fails D then (1, Files (db_file fs) None)
  else if noticed || rename_fails D then (1, Files (db_file fs) (Some written))
  else (if bool_decide (new_file fs = None) then -1 else 0, Files (Some written) None).

(** When it is noticed: only if the first part does not fit, not if all of it
    is still in the buffer, and for certain if a buffer of [size] bytes cannot
    hold what does not fit. *)
Record noticed_when (D : disk) (first : bytes) (noticed : bool) : Prop := {
  nw_room : noticed = true → ∃ r, disk_room D = Some r ∧ (r < length first)%nat;
  nw_buffered : (∀ n, (n ≤ length first)%nat → disk_stdio D n = 0%nat) → noticed = false;
  nw_full size r : (∀ n, (n ≤ disk_stdio D n + size)%nat) → disk_room D = Some r → (r + size < length first)%nat → noticed = true;
}.

Lemma close_holds R T f : holds R T f → close_file f = match R with None => T | Some r => take r T end.
Proof.
  unfold close_file, pass_on. intros [[Hb Hr Hf]|[Hr (r & -> & Hd & _)]]; cbn.
  - rewrite Hr, <-Hb. destruct R as [r|]; cbn; [|by rewrite take_ge].
    specialize (Hf r eq_refl). rewrite take_app_ge by lia. f_equal.
    destruct (decide (length (wf_buf f) ≤ r - length (wf_data f))%nat); [|by rewrite Nat.min_r by lia].
    by rewrite Nat.min_l, !take_ge by lia.
  - by rewrite Hr, Nat.min_0_r, app_nil_r.
Qed.

Lemma new_stream R p : fine R [] (WFile [] [] R p).
Proof.
  split; cbn; [done| |by intros; lia|by exists 0%nat]. destruct R as [r|]; [|done]. cbn. by rewrite Nat.sub_0_r.
Qed.

Lemma backup_ok D time sh d fs k1 k2 k3 :
  saved_first d sh = Some k1 → saved_clients d time = Some k2 → saved_tree d = Some k3 →
  ∃ noticed, noticed_when D (header ++ encode_all k1) noticed ∧
    mqtt3_db_backup D true time sh d fs = Some (backup_result D (header ++ encode_all (k1 ++ k2 ++ k3)) noticed fs).
Proof.
  intros H1 H2 H3. set (f := WFile [] [] (disk_room D) (disk_stdio D)). set (first := header ++ encode_all k1).
  destruct (write_db_ok d time sh k1 k2 k3 (disk_room D) [] f H1 H2 H3 (new_stream _ _)) as (f1 & Hw & Hp). cbn [app] in Hw. fold first in Hw.
  assert (Hrun : ∀ res f', write_db d time sh f = Some (res, f') →
    close_file f' = match disk_room D with None => header ++ encode_all (k1 ++ k2 ++ k3) | Some r => take r (header ++ encode_all (k1 ++ k2 ++ k3)) end →
    mqtt3_db_backup D true time sh d fs = Some (backup_result D (header ++ encode_all (k1 ++ k2 ++ k3)) (if res is inl _ then true else false) fs)).
  { intros res f' Hdb Hcl. unfold mqtt3_db_backup, backup_result. cbn [negb]. destruct (unlink_fails D); [done|].
    unfold bind at 1, mget. cbv zeta. unfold bind at 1, mmodify at 1. destruct (fopen_fails D); [done|].
    fold f. rewrite Hdb. unfold bind at 1. cbn [mlift]. unfold ret at 1. unfold bind at 1, mmodify at 1. rewrite Hcl.
    destruct res; [done|]. by destruct (rename_fails D). }
  assert (Hdata : header ++ encode_all (k1 ++ k2 ++ k3) = first ++ encode_all (k2 ++ k3)).
  { unfold first. by rewrite (encode_all_app k1), app_assoc. }
  destruct Hw as [(_ & Hdb & Hst)|(_ & Hf1 & f2 & Hdb & Hh)].
  - exists true. split; [|apply (Hrun _ _ Hdb); apply close_holds; right; rewrite Hdata; by apply stuck_app].
    destruct Hst as [_ (r & Hr & _ & Hl) (n & Hn & Hs)]. split; [by exists r| |done].
    intros Hbuf. destruct Hs. rewrite Hp. by apply Hbuf.
  - exists false. split; [|apply (Hrun _ _ Hdb); by apply close_holds]. split; [done|done|].
    intros size r Hsz Hr Hlt. exfalso. destruct Hf1 as [Hb _ Hfit (n & Hn)]. specialize (Hfit r Hr). rewrite Hp in Hn.
    apply (f_equal length) in Hb. rewrite length_app in Hb. specialize (Hsz n). cbn [wf_stdio f] in Hn. lia.
Qed.

(** C18: what a backup does, on a disk of any size, however stdio buffers and
    whatever system call fails, for a consistent broker of which no session
    that is kept has a message whose topic was refused. It follows no pointer
    that is not there. If it returns 1, the file of the last backup is still
    there as it was. Otherwise that file is replaced by as much of the encoding
    of the broker as fits on the disk, without an error: what is still in the
    buffer is written by [fflush] and [fclose], whose results are ignored, as
    are the codes of writing the sessions and the tree. A full disk is noticed
    only by an [fwrite] of the header, the configuration and the stored
    messages that passes on more than fits, so never when all of these are
    still in the buffer, and always when they exceed the room by more than the
    size of the buffer. *)
Theorem backup_outcome D time sh d fs :
  broker_inv None d → savable d →
  ∃ first rest noticed, saved_first d sh = Some first ∧ snapshot d time sh = Some (first ++ rest) ∧
    noticed_when D (header ++ encode_all first) noticed ∧
    mqtt3_db_backup D true time sh d fs = Some (backup_result D (header ++ encode_all (first ++ rest)) noticed fs).
Proof.
  intros Hinv Hs. destruct (saved_first_defined d Hinv sh) as [k1 H1], (saved_clients_defined d Hinv Hs time) as [k2 H2],
    (saved_tree_defined d Hinv Hs) as [k3 H3]. destruct (backup_ok D time sh d fs k1 k2 k3 H1 H2 H3) as (noticed & Hn & Hb).
  exists k1, (k2 ++ k3), noticed. split; [done|]. split; [|done]. unfold snapshot. by rewrite H1, H2, H3.
Qed.

(** Everything that is saved fits the fields of the file. *)
Definition fits_format (time : Z) (sh : bool) (d : db) : Prop :=
  match snapshot d time sh with Some ks => Forall chunk_ok ks | None => False end.

#[export] Instance fits_format_dec time sh d : Decision (fits_format time sh d).
Proof. unfold fits_format. destruct (snapshot d time sh); apply _. Defined.

Section restarts.
Context (E : env) `{Access} (stdio : nat → nat).

(** The broker is saved, to a disk that has room, and one with [n] listeners
    is started from the file. *)
Definition restart (n : nat) (time time' : Z) (sh : bool) (d : db) (fs : files) : option (Z * db) :=
  '(_, fs) ← mqtt3_db_backup (Disk false false None false stdio) true time sh d fs;
  db_open_restored E time' n (db_file fs).

Lemma restart_ok n time time' sh d fs :
  broker_inv None d → storable d → savable d → fits_format time sh d →
  ∃ d', restart n time time' sh d fs = Some (MOSQ_ERR_SUCCESS, d') ∧ restored d time d'.
Proof.
  intros Hinv Hst Hs Hfit. destruct (saved_first_defined d Hinv sh) as [k1 H1], (saved_clients_defined d Hinv Hs time) as [k2 H2],
    (saved_tree_defined d Hinv Hs) as [k3 H3].
  assert (Hk : snapshot d time sh = Some (k1 ++ k2 ++ k3)) by (unfold snapshot; by rewrite H1, H2, H3).
  unfold fits_format in Hfit. rewrite Hk in Hfit.
  destruct (restore_all E d time Hinv Hst n sh _ Hk) as (l' & Hall & Hre). exists (ld_db l'). split; [|done].
  unfold restart. destruct (backup_ok (Disk false false None false stdio) time sh d fs k1 k2 k3 H1 H2 H3) as (noticed & Hnw & Hb).
  rewrite Hb. destruct noticed; [by destruct (nw_room _ _ _ Hnw eq_refl) as (? & ? & _)|].
  unfold backup_result. cbv zeta. cbn [unlink_fails fopen_fails disk_room rename_fails orb mbind option_bind db_file].
  unfold db_open_restored. rewrite (surjective_pairing (mqtt3_db_open n)). unfold mqtt3_db_restore, returns, bind.
  pose proof (restore_header_ok E time' _ (Loading (mqtt3_db_open n).2 []) Hfit) as Hr. rewrite Hall in Hr. destruct Hr as [f Hf].
  rewrite Hf. done.
Qed.

(** C15: sessions survive a restart. When the broker is saved and one is started
    from the file, a client has a session exactly if it had one that was not a
    clean session, and it is the same: id, last message id, time of
    disconnection (or that of the backup) and the queue, in order, with the
    id, QoS, flags, direction, state and content of each message. Only
    messages of [$SYS] are missing from it, and the counters of messages,
    which are 0. This is for a broker that is consistent and that the format
    can hold: the stored messages have distinct ids, no kept session has a
    message whose topic was refused, every length fits its field, and the
    retained messages are under plain topics or [$SYS] ([storable]). *)
Theorem restart_sessions n time time' sh d fs :
  broker_inv None d → storable d → savable d → fits_format time sh d →
  ∃ d', restart n time time' sh d fs = Some (MOSQ_ERR_SUCCESS, d') ∧
    ∀ cid, session_at d' cid = kept_session d time cid.
Proof.
  intros Hinv Hst Hs Hf. destruct (restart_ok n time time' sh d fs Hinv Hst Hs Hf) as (d' & Hrun & Hre).
  exists d'. split; [done|]. apply Hre.
Qed.

(** C16: the subscriptions and the retained messages survive a restart. At every
    place of the tree, a client is subscribed with a QoS exactly if it was and
    its session is kept, and the retained message is the one that was there,
    except for those of [$SYS], which are not saved; nothing else is in the
    tree. As in [restart_sessions], the broker is one that the format can hold;
    that excludes retained messages under other topics that start with [$],
    which are lost. *)
Theorem restart_tree n time time' sh d fs :
  broker_inv None d → storable d → savable d → fits_format time sh d →
  ∃ d', restart n time time' sh d fs = Some (MOSQ_ERR_SUCCESS, d') ∧
    (∀ p cid, subscribed d' p cid = kept_subscribed d p cid) ∧
    ∀ p, retained_content d' p = saved_content d (retained_at d p).
Proof.
  intros Hinv Hst Hs Hf. destruct (restart_ok n time time' sh d fs Hinv Hst Hs Hf) as (d' & Hrun & Hre).
  exists d'. split; [done|]. split; apply Hre.
Qed.

Lemma recounted_same d' : (∀ c x, contexts d' !! c = Some x → recount x = x) → recounted d' = d'.
Proof.
  intros Hall. unfold recounted, set_contexts. destruct d' as [ctxs]. cbn in *. f_equal. apply map_eq. intros c.
  rewrite lookup_fmap. destruct (ctxs !! c) as [x|] eqn:Hx; [|done]. cbn. f_equal. eauto.
Qed.

(** C17: what is read from the file of a consistent broker is a well-formed
    broker: every context has an id of its own and is found under it, and all
    references between contexts, tree and store and all counts of references
    are right. Only the counters of the queues are not; where no session that
    is kept has messages, they are too, and the broker is one from which every
    run is safe. *)
Theorem restart_consistent n time time' sh d fs :
  broker_inv None d → storable d → savable d → fits_format time sh d →
  ∃ d', restart n time time' sh d fs = Some (MOSQ_ERR_SUCCESS, d') ∧
    (∀ c x, contexts d' !! c = Some x → ∃ i, id x = Some i ∧ find_client i d' = Some c) ∧
    broker_inv None (recounted d') ∧
    ((∀ c x, contexts d !! c = Some x → clean_session x = false → msgs x = []) → broker_inv None d').
Proof.
  intros Hinv Hst Hs Hf. destruct (restart_ok n time time' sh d fs Hinv Hst Hs Hf) as (d' & Hrun & Hre).
  exists d'. split; [done|]. assert (Hid : ∀ c x, contexts d' !! c = Some x → ∃ i, id x = Some i ∧ find_client i d' = Some c).
  { intros c x Hx. destruct (re_named _ _ _ Hre c x Hx) as [i Hi]. exists i. split; [done|].
    apply (find_client_in i c (recounted d')); [apply (bi_tables _ _ (re_inv _ _ _ Hre))|]. exists (recount x). by rewrite (recounted_lookup _ _ _ Hx). }
  split; [done|]. split; [apply Hre|]. intros Hno. rewrite <-(recounted_same d'); [apply Hre|].
  intros c x Hx. destruct (Hid c x Hx) as (i & Hi & Hfc). pose proof (re_sessions _ _ _ Hre i) as Hses.
  unfold session_at, kept_session in Hses. rewrite Hfc in Hses. cbn [mbind option_bind] in Hses. rewrite Hx in Hses. cbn [mbind option_bind] in Hses.
  destruct (find_client i d) as [c0|]; [|done]. cbn [mbind option_bind] in Hses. destruct (contexts d !! c0) as [x0|] eqn:Hx0; [|done].
  cbn [mbind option_bind] in Hses. destruct (clean_session x0) eqn:Hcl; [done|]. apply (inj Some) in Hses.
  unfold session_of, saved_session in Hses. rewrite (Hno c0 x0 Hx0 Hcl) in Hses. injection Hses as _ _ _ _ H1 H2 Hm.
  apply fmap_nil_inv in Hm. unfold recount. rewrite Hm. destruct x. cbn in *. by subst.
Qed.
End restarts.

(** ** An example *)

Definition empty_disk : files := Files None None.
(** A disk with room for [r] bytes; a buffer of 4096 bytes, or one of 16. *)
Definition full_disk (size r : nat) : disk := Disk false false (Some r) false (stdio_buffer size).

(** The length of the file that is left. *)
Definition file_length (D : disk) (d : db) : option nat :=
  '(_, fs) ← mqtt3_db_backup D true 1000 true d (Files (Some [1]) None); length <$> db_file fs.

(** On a disk that is full, a file that is cut replaces the old one: the whole
    file, 173 bytes, is in the buffer until it is closed. With a small buffer
    the old file, of one byte, is kept when the stored messages do not fit. *)
Lemma backup_outcome_witness :
  let d := after (kept_events ++ kept_message) in
  (∃ first rest noticed, saved_first d true = Some first ∧ snapshot d 1000 true = Some (first ++ rest) ∧
    noticed_when (full_disk 4096 100) (header ++ encode_all first) noticed ∧
    mqtt3_db_backup (full_disk 4096 100) true 1000 true d (Files (Some [1]) None) =
      Some (backup_result (full_disk 4096 100) (header ++ encode_all (first ++ rest)) noticed (Files (Some [1]) None))) ∧
  file_length (full_disk 4096 100) d = Some 100%nat ∧ file_length (full_disk 4096 1000) d = Some 173%nat ∧
  file_length (full_disk 16 60) d = Some 1%nat.
Proof.
  intros d. split; [|vm_compute; auto]. apply (backup_outcome (full_disk 4096 100) 1000 true d (Files (Some [1]) None));
    [apply after_ok; by_compute|by_compute].
Defined.

Lemma restart_sessions_witness :
  let d := after (kept_events ++ kept_message) in
  ∃ d', restart sample_env (H := open_access) (stdio_buffer 64) 1 1000 2000 true d empty_disk = Some (MOSQ_ERR_SUCCESS, d') ∧
    session_at d' [97] = Some (Some [97], false, 1, 1000, (0, 0),
      [(1, 1, false, mosq_md_out, mosq_ms_queued, false, Some (2, [98], Some [116], [104; 105], 7, 0, 1, false))]) ∧
    session_at d' [98] = None.
Proof.
  intros d. destruct (restart_sessions sample_env (H := open_access) (stdio_buffer 64) 1 1000 2000 true d empty_disk) as (d' & Hrun & Hs);
    [apply after_ok; by_compute|by_compute..|].
  exists d'. split; [exact Hrun|]. rewrite !Hs. split; vm_compute; reflexivity.
Defined.

Lemma restart_tree_witness :
  let d := after (kept_events ++ kept_message) in
  ∃ d', restart sample_env (H := open_access) (stdio_buffer 64) 1 1000 2000 true d empty_disk = Some (MOSQ_ERR_SUCCESS, d') ∧
    subscribed d' (sub_path (str "t")) [97] = Some 1 ∧ subscribed d' (sub_path (str "t")) [98] = None ∧
    retained_content d' (sub_path (str "u")) = Some (1, [98], Some [117], [104; 105], 0, 0, 0, true).
Proof.
  intros d. destruct (restart_tree sample_env (H := open_access) (stdio_buffer 64) 1 1000 2000 true d empty_disk) as (d' & Hrun & Hs & Hr);
    [apply after_ok; by_compute|by_compute..|].
  exists d'. split; [exact Hrun|]. rewrite !Hs, Hr. split_and!; vm_compute; reflexivity.
Defined.

(** Before there is a message for the session. *)
Lemma restart_consistent_witness :
  let d := after kept_events in
  ∃ d', restart sample_env (H := open_access) (stdio_buffer 64) 1 1000 2000 true d empty_disk = Some (MOSQ_ERR_SUCCESS, d') ∧
    (∀ c x, contexts d' !! c = Some x → ∃ i, id x = Some i ∧ find_client i d' = Some c) ∧
    broker_inv None (recounted d') ∧ broker_inv None d'.
Proof.
  intros d. destruct (restart_consistent sample_env (H := open_access) (stdio_buffer 64) 1 1000 2000 true d empty_disk) as (d' & Hrun & Hid & Hinv & Hno);
    [apply after_ok; by_compute|by_compute..|].
  exists d'. split; [exact Hrun|]. split; [exact Hid|]. split; [exact Hinv|]. apply Hno.
  change (map_Forall (λ _ x, clean_session x = false → msgs x = []) (contexts d)). by_compute.
Defined.
