(* ===== verification/Shutdown.v ===== *)
(** * The end of the program (src/mosquitto.c, src/context.c, src/database.c)

    When the loop has ended, [main] publishes the wills, saves the database,
    frees every context and closes the database: nothing is freed twice, nothing
    is used after it was freed, and no context and no stored message is left. *)

From stdpp Require Import base list numbers strings option sets gmap.
From Stdlib Require Import ZArith Lia.
From S2P Require Import Prelude Topic Packet State Store Send Messages Db Acl Subs DbInv Session Context Handlers Persist Lifecycle Release Free Serve Connect Broker Runs Persistence.
Local Open Scope Z_scope.
Local Open Scope broker_scope.

(** ** The end of [main] *)

(** The state is the broker and the files on the disk. *)
Definition on_broker {A} (m : M db A) : M (db * files) A := λ s, '(a, d) ← m s.1; Some (a, (d, s.2)).
Definition on_files {A} (m : M files A) : M (db * files) A := λ s, '(a, fs) ← m s.2; Some (a, (s.1, fs)).

(** [main] after the loop has ended. [persistence] is [config.persistence],
    [filepath] whether there is a file to save to. *)
Definition shutdown (E : env) `{Access} (persistence : bool) (D : disk) (filepath : bool) (time : Z)
    : M (db * files) unit :=
  let* s := mget in
  on_broker (send_wills E (contexts_by_id s.1).*2) ;;;
  (if persistence
   then let* s := mget in on_files (mqtt3_db_backup D filepath time true s.1) ;;; ret tt
   else ret tt) ;;;
  on_broker (free_all E).

(** ** Freeing a context that is in use *)

Section cleanup.
Context (E : env) `{Access} (c : ptr).

(** What no table and no other context depends on, once the socket is closed. *)
Lemma offline_step x x' d d' :
  broker_inv None d → contexts d !! c = Some x → c ∉ ll_for_free d → sock x = None →
  (id x', sock x', listener x', will x') = (id x, sock x, listener x, will x) →
  broker_ok [] d' → contexts d' = <[c := x']> (contexts d) → tables d' = tables d → broker_inv None d'.
Proof.
  intros [Hok Ht Hcl] Hx Hnf Hs Heq Hok' Hc Htb. injection Heq as Ei Es El Ew.
  unfold tables in Htb. injection Htb as T1 T2 T3 T4 _. rewrite T3. split; [done| |].
  - eapply (tables_ok_set _ _ d d' c x x'); try done.
    + left. by rewrite Es.
    + left. by rewrite Ei.
    + intros Hn i. congruence.
    + left. by rewrite El.
    + apply Ht.
    + intros c' Hc'. left. split; [done|]. by intros ->.
  - intros c' y. rewrite Hc. destruct (decide (c' = c)) as [->|].
    + rewrite lookup_insert_eq. intros [= <-]. apply (client_ok_same _ x); [by apply (Hcl c)|by left|left; congruence].
    + rewrite lookup_insert_ne by done. apply Hcl.
Qed.

Lemma forget_id_ok x d :
  broker_inv None d → contexts d !! c = Some x → c ∉ ll_for_free d → sock x = None →
  wp (forget_id c) (λ _ d', broker_inv None d' ∧ contexts d' = <[c := set_id (λ _, None) x]> (contexts d) ∧
    ll_for_free d' = ll_for_free d ∧ bridges d' = bridges d) d.
Proof.
  intros Hinv Hx Hnf Hs. unfold forget_id. apply wp_bind, (wp_get_context _ x); [done|].
  destruct (id x) as [i|] eqn:Hi.
  - apply wp_bind, wp_get, wp_bind, wp_assert.
    { apply bool_decide_eq_true. by eapply (table_listed id); [apply (bi_tables _ _ Hinv)|exact Hx|]. }
    apply wp_bind, wp_modify. unfold wp, upd_context. cbn [contexts set_by_id]. rewrite Hx. cbn [mbind option_bind].
    split; [|done]. eapply (inv_light None c x (set_id (λ _, None) x)); [done|done|]. split; try done; try (by left).
    + by right; left.
    + apply (client_ok_same _ x); [by apply (bi_clients _ _ Hinv c)|by left|by left].
    + eapply free_light; [done|done|done|]. intros Hf. by destruct Hnf.
  - apply wp_ret. split; [done|]. split; [|done]. rewrite insert_id; [done|]. rewrite Hx. f_equal.
    destruct x. cbn in *. by subst.
Qed.

(** What freeing [c] leaves of the others. *)
Record freed (d d' : db) : Prop := {
  fr_gone : contexts d' !! c = None;
  fr_others c' : c' ≠ c → tie <$> contexts d' !! c' = tie <$> contexts d !! c';
  fr_list : ll_for_free d' = ll_for_free d;
  fr_bridges : bridges d' = bridges d;
}.

(** The rest, for a context that no table knows any more. *)
Lemma cleanup_end x d :
  broker_inv None d → contexts d !! c = Some x → c ∉ ll_for_free d → quiet x → subs x = [] →
  wp (upd_context c (λ x, set_out_packet (λ _, []) (set_current_out (λ _, None)
                    (set_in_packet _mosquitto_packet_cleanup x))) ;;;
      (let* x := get_context c in
       on_store (deref_msgs (msgs x)) ;;;
       upd_context c (λ x, set_last_msg (λ _, None) (set_msgs (λ _, []) x))) ;;;
      mmodify (set_contexts (delete c)))
    (λ _ d', broker_inv None d' ∧ freed d d') d.
Proof.
  intros Hinv Hx Hnf Hq Hs. pose proof (bi_ctx None _ d c x Hinv Hx) as Hcx. destruct Hcx as [_ Hms Hfr Ho Hbr].
  set (f := λ x, set_out_packet (λ _, []) (set_current_out (λ _, None) (set_in_packet _mosquitto_packet_cleanup x))).
  apply wp_bind. eapply wp_mono; [apply (upd_quiet _ None c x f d Hinv Hx Hnf Hq); try done|].
  { destruct Hq as (Hi & _). split; try done. change (id (f x)) with (id x). rewrite Hi. by intros [? ?]. }
  intros [] d1 [Hinv1 ->]. set (d1 := set_contexts <[c := f x]> d) in *.
  assert (Hx1 : contexts d1 !! c = Some (f x)) by apply lookup_insert_eq.
  set (x2 := set_last_msg (λ _, None) (set_msgs (λ _, []) (f x))).
  assert (Hcx2 : ctx_ok (dmsg d1) x2).
  { destruct Hq as (Hi & _). split; try done; try constructor; change (id x2) with (id x) in *; rewrite Hi in *; by destruct_and?. }
  destruct (drop_queue_ok c (f x) x2 d1) as (s' & Ed & Hok2); [apply Hinv1|done|done|done|done|].
  apply wp_bind, wp_bind, (wp_get_context _ (f x)); [done|]. apply wp_bind.
  eapply wp_on_store; [exact Ed|]. unfold wp at 1, upd_context. cbn [contexts set_dmsg]. rewrite Hx1. cbn [mbind option_bind].
  apply wp_modify. fold x2. set (d2 := set_contexts <[c := x2]> _).
  assert (Hinv2 : broker_inv None d2) by (by apply (quiet_step _ None c (f x) x2 d1)).
  split.
  - by apply (delete_context_ok _ None c x2); [|apply lookup_insert_eq|..].
  - split; try done; cbn.
    + by rewrite lookup_delete_eq.
    + intros c' Hne. by rewrite lookup_delete_ne, !lookup_insert_ne.
Qed.
(** The subscriptions and the messages of [c] are dropped, its will is
    published, and its id forgotten. *)
Lemma cleanup_session_ok x d (k : M db unit) Q :
  broker_inv None d → contexts d !! c = Some x → c ∉ ll_for_free d → sock x = None → listener x = None →
  (∀ x' d', broker_inv None d' → contexts d' !! c = Some x' → quiet x' → subs x' = [] →
     (∀ c', c' ≠ c → tie <$> contexts d' !! c' = tie <$> contexts d !! c') →
     ll_for_free d' = ll_for_free d → bridges d' = bridges d → wp k Q d') →
  wp ((mqtt3_subs_clean_session c ;;; on_cm c mqtt3_db_messages_delete ;;; ret tt) ;;;
      mqtt3_context_send_will E c ;;; forget_id c ;;; k) Q d.
Proof.
  intros Hinv Hx Hnf Hs Hl Hk. apply wp_bind, wp_bind.
  eapply wp_mono; [apply (clean_session_ok [] d c x); [apply Hinv|done]|].
  intros rc d1 (_ & Hok1 & _ & _ & Hc1 & _ & Ht1 & _). set (x1 := set_subs (λ _, []) x) in *.
  assert (Hinv1 : broker_inv None d1) by (by apply (offline_step x x1 d d1)).
  assert (Hx1 : contexts d1 !! c = Some x1) by (by rewrite Hc1, lookup_insert_eq).
  unfold tables in Ht1. injection Ht1 as _ _ Hf1 _ Hb1.
  destruct (drop_queue_ok c x1 (emptied x1) d1) as (s' & Ed & Hok2); try done.
  { by apply emptied_ctx, (bi_ctx None _ d1 c x1 Hinv1). }
  apply wp_bind. unfold wp at 1. rewrite (delete_messages_run c x1 s' d1 Hx1 Ed). set (d2 := set_dmsg _ _) in *. apply wp_ret.
  assert (Hinv2 : broker_inv None d2) by (apply (offline_step x1 (emptied x1) d1 d2); try done; by rewrite Hf1).
  apply wp_bind. eapply wp_mono; [apply (send_will_ok E None c (emptied x1)); [done|apply lookup_insert_eq]|].
  intros [] d3 (Hinv3 & Ht3 & x3 & Hx3 & Hcn3 & _ & Ho3). apply conn_fields in Hcn3.
  change (ll_for_free d2) with (ll_for_free d1) in *. unfold tables in Ht3. injection Ht3 as _ _ Hf3 _ Hb3.
  destruct Hcn3 as (_ & [Hs3 _] & Hk3 & _ & Hw3 & Hl3 & _). cbn in Hs3, Hk3, Hw3, Hl3.
  apply wp_bind. eapply wp_mono; [apply (forget_id_ok x3); [done|done|by rewrite Hf3; cbn; rewrite Hf1|congruence]|].
  intros [] d4 (Hinv4 & Hc4 & Hf4 & Hb4). apply (Hk (set_id (λ _, None) x3)); try done.
  - by rewrite Hc4, lookup_insert_eq.
  - split_and!; [done|cbn; congruence..].
  - intros c' Hne. rewrite Hc4, lookup_insert_ne, Ho3 by done. cbn. rewrite lookup_insert_ne, Hc1, lookup_insert_ne by done. done.
  - rewrite Hf4, Hf3. exact Hf1.
  - rewrite Hb4, Hb3. exact Hb1.
Qed.

Lemma cleanup_any x d :
  broker_inv None d → contexts d !! c = Some x → c ∉ ll_for_free d → c_bridge x = None →
  wp (mqtt3_context_cleanup E c true) (λ _ d', broker_inv None d' ∧ freed d d') d.
Proof.
  intros Hinv Hx Hnf Hb. unfold mqtt3_context_cleanup. apply wp_bind. unfold clear_names.
  apply wp_bind, (wp_get_context _ x); [done|]. rewrite Hb. apply wp_bind.
  eapply wp_mono; [apply (inv_upd None c x); try done|].
  { apply (client_ok_same _ x); [by apply (bi_clients _ _ Hinv c)|by left|by right]. }
  intros [] d1 [Hinv1 ->]. apply wp_ret, wp_bind. set (x1 := set_password _ _) in *. set (d1 := set_contexts _ d) in *.
  eapply wp_mono; [apply (socket_close_ok None c x1 d1); [done|apply lookup_insert_eq]|].
  intros [] d2 (Hinv2 & Hc2 & _ & _ & _ & Hf2 & Hb2).
  assert (Hx2 : contexts d2 !! c = Some (closed_sock x1)) by (by rewrite Hc2, lookup_insert_eq).
  apply wp_bind, (wp_get_context _ (closed_sock x1)); [done|]. cbn [orb].
  eapply cleanup_session_ok; [exact Hinv2|exact Hx2|by rewrite Hf2|done|done|].
  intros x' d' Hinv' Hx' Hq Hs Ho Hf Hbr. eapply wp_mono; [apply (cleanup_end x'); try done; by rewrite Hf, Hf2|].
  intros [] d3 [Hinv3 [G1 G2 G3 G4]]. split; [done|].
  split; [done| |by rewrite G3, Hf, Hf2|by rewrite G4, Hbr, Hb2].
  intros c' Hne. rewrite G2, Ho, Hc2, lookup_insert_ne by done. cbn. by rewrite lookup_insert_ne.
Qed.
End cleanup.

(** ** Lists of contexts *)

(** Every context is a client's. *)
Definition no_bridges (d : db) : Prop :=
  (∀ c x, contexts d !! c = Some x → c_bridge x = None) ∧ Forall (λ o, o = None) (bridges d).

Lemma tie_bridge x y : tie x = tie y → c_bridge y = None → c_bridge x = None.
Proof.
  intros Ht Hy. assert (Hcn : conn x = conn y) by (unfold tie in Ht; congruence).
  apply conn_fields in Hcn as (_ & _ & _ & _ & _ & _ & _ & _ & _ & Hb & _). rewrite Hy in Hb. by destruct (c_bridge x).
Qed.

Lemma freed_clients c d d' : freed c d d' → no_bridges d → no_bridges d'.
Proof.
  intros [Hg Ho _ Hb] [Hc Hn]. split; [|by rewrite Hb]. intros c' x Hx.
  destruct (decide (c' = c)) as [->|Hne]; [congruence|]. specialize (Ho c' Hne). rewrite Hx in Ho.
  destruct (contexts d !! c') as [y|] eqn:Hy; [|done]. apply (inj Some) in Ho. eapply tie_bridge; [exact Ho|by eapply Hc].
Qed.

Lemma same_conn_id x y : conn x = conn y → id x = id y.
Proof. intros H. by apply conn_fields in H as (? & _). Qed.
Lemma same_conn_sock x y : conn x = conn y → sock x = sock y.
Proof. intros H. by apply conn_fields in H as (_ & _ & ? & _). Qed.
Lemma same_handles x y : conn x = conn y → id x = id y ∧ sock x = sock y.
Proof. split; [by apply same_conn_id|by apply same_conn_sock]. Qed.

(** What the tables find a context by. *)
Definition handles (x : mosquitto) := (id x, sock x).

Section shutdown.
Context (E : env) `{Access}.

Lemma free_list_ok {K} (f : mosquitto → option K) l d :
  (∀ x y, conn x = conn y → f x = f y) → (∀ x, closed x → f x = None) →
  broker_inv None d → listed f l d → no_bridges d →
  wp (free_contexts E l.*2) (λ _ d', broker_inv None d' ∧ no_bridges d' ∧ ll_for_free d' = ll_for_free d ∧
    ∀ c x, contexts d' !! c = Some x → c ∉ l.*2 ∧ ∃ y, contexts d !! c = Some y ∧ conn x = conn y) d.
Proof.
  intros Hf Hcl. revert d. induction l as [|[k c] l IH]; intros d Hinv Hl Hnb; cbn [fmap list_fmap free_contexts snd].
  { apply wp_ret. split_and!; try done. intros c x Hx. split; [apply not_elem_of_nil|eauto]. }
  destruct (listed_cons _ _ _ _ _ Hl) as ((x & Hx & Hk) & Hl' & Hc).
  assert (Hnf : c ∉ ll_for_free d).
  { intros Hin. destruct (tb_free _ _ (bi_tables _ _ Hinv) c Hin) as (y & Hy & Hyc%Hcl). congruence. }
  apply wp_bind. eapply wp_mono; [apply (cleanup_any E c x); [done|done|done|by eapply Hnb]|].
  intros [] d1 [Hinv1 Hfr]. pose proof Hfr as [Hg Ho Hfl _]. eapply wp_mono; [apply IH; [done| |by eapply freed_clients]|].
  - apply (listed_but f c l d d1 Hf Hl' Hc). intros c' Hne. apply tie_conn. by apply Ho.
  - intros [] d2 (Hinv2 & Hnb2 & Hf2 & Hc2). split_and!; [done|done|congruence|]. intros c' y Hy.
    destruct (Hc2 c' y Hy) as (Hn & z & Hz & Hzc).
    assert (Hne : c' ≠ c) by congruence. split; [by rewrite not_elem_of_cons|].
    pose proof (tie_conn _ _ _ (Ho c' Hne)) as Ht. rewrite Hz in Ht.
    destruct (contexts d !! c') as [w|]; [|done]. apply (inj Some) in Ht. exists w. split; [done|congruence].
Qed.

Lemma send_wills_ok l d :
  broker_inv None d → no_bridges d → (∀ c, c ∈ l → is_Some (contexts d !! c)) →
  wp (send_wills E l) (λ _ d', broker_inv None d' ∧ no_bridges d' ∧ ll_for_free d' = ll_for_free d ∧
    ∀ c, handles <$> contexts d' !! c = handles <$> contexts d !! c) d.
Proof.
  revert d. induction l as [|c l IH]; intros d Hinv Hnb Hl; cbn [send_wills]; [by apply wp_ret|].
  destruct (Hl c) as [x Hx]; [by left|].
  apply wp_bind. eapply wp_mono; [by apply (send_will_ok E None c x)|].
  intros [] d1 (Hinv1 & Ht1 & x1 & Hx1 & Hcn1 & _ & Ho1). unfold tables in Ht1. injection Ht1 as _ _ Hf1 _ Hb1.
  assert (Hdom : ∀ c', is_Some (contexts d !! c') → is_Some (contexts d1 !! c')).
  { intros c' [y Hy]. destruct (decide (c' = c)) as [->|Hne]; [by eexists|]. specialize (Ho1 c' Hne). rewrite Hy in Ho1.
    destruct (contexts d1 !! c'); [by eexists|done]. }
  eapply wp_mono; [apply IH; [done| |]|].
  - destruct Hnb as [Hnb Hbr]. split; [|by rewrite Hb1]. intros c' y Hy. destruct (decide (c' = c)) as [->|Hne].
    + rewrite Hx1 in Hy. injection Hy as <-. apply conn_fields in Hcn1 as (_ & _ & _ & _ & _ & _ & _ & _ & _ & Hb & _).
      cbn in Hb. rewrite (Hnb c x Hx) in Hb. by destruct (c_bridge x1).
    + specialize (Ho1 c' Hne). rewrite Hy in Ho1. destruct (contexts d !! c') as [z|] eqn:Hz; [|done].
      apply (inj Some) in Ho1. eapply tie_bridge; [exact Ho1|by eapply Hnb].
  - intros c' Hc'. apply Hdom, Hl. by right.
  - intros [] d2 (? & ? & ? & Hh). split_and!; [done|done|congruence|]. intros c'. rewrite Hh.
    destruct (decide (c' = c)) as [->|Hne].
    + apply conn_fields in Hcn1 as (Hi & _ & Hs & _). rewrite Hx, Hx1. cbn. unfold handles. by rewrite Hi, Hs.
    + specialize (Ho1 c' Hne). destruct (contexts d1 !! c') as [y|], (contexts d !! c') as [z|]; try done.
      apply (inj Some) in Ho1. unfold tie in Ho1. cbn. unfold handles.
      assert (conn y = conn z) as [Hi Hs]%same_handles by congruence. by rewrite Hi, Hs.
Qed.

Lemma free_bridges_ok n i d :
  Forall (λ o, o = None) (bridges d) → (i + n ≤ length (bridges d))%nat → wp (free_bridges E n i) (λ _ d', d' = d) d.
Proof.
  revert i. induction n as [|n IH]; intros i Hb Hn; cbn [free_bridges]; [by apply wp_ret|].
  apply wp_bind, wp_get, wp_bind. destruct (lookup_lt_is_Some_2 (bridges d) i) as [o Ho]; [lia|].
  eapply wp_lift; [exact Ho|]. assert (o = None) as -> by (rewrite Forall_lookup in Hb; by apply (Hb i)).
  apply wp_bind, wp_ret, IH; [done|lia].
Qed.
End shutdown.

(** ** Closing the database *)

(** Releasing references from the tree changes nothing but the store. *)
Definition releases (m : M db unit) (refs : list ptr) : Prop := ∀ others d,
  store_ok (refs ++ others) (dmsg d) → wp m (λ _ d', ∃ s', d' = set_dmsg (λ _, s') d ∧ store_ok others s') d.

Lemma releases_seq m1 m2 refs1 refs2 : releases m1 refs1 → releases m2 refs2 → releases (m1 ;;; m2) (refs1 ++ refs2).
Proof.
  intros H1 H2 others d Hs. rewrite <-(assoc_L (++)) in Hs. apply wp_bind. eapply wp_mono; [by eapply H1|].
  intros [] d1 (s1 & -> & Hs1). eapply wp_mono; [by eapply H2|]. intros [] d2 (s2 & -> & Hs2). by exists s2.
Qed.

Lemma releases_nil : releases (ret tt) [].
Proof. intros others d Hs. apply wp_ret. exists (dmsg d). split; [by destruct d|done]. Qed.

Lemma releases_retained r :
  releases (match r with Some s => on_store (mosquitto__db_msg_store_deref s) ;;; ret tt | None => ret tt end) (option_list r).
Proof.
  destruct r as [s|]; [|apply releases_nil]. intros others d Hs.
  destruct (store_deref_ok _ _ _ Hs) as (o & s' & Hrun & Hs' & _). apply wp_bind. eapply wp_on_store; [exact Hrun|].
  apply wp_ret. eauto.
Qed.

Lemma clean_list_releases l : Forall (λ h, releases (subhier_clean h) (tree_refs h)) l →
  releases (subhier_clean_list l) (concat (tree_refs <$> l)).
Proof. induction 1; [apply releases_nil|]. by apply releases_seq. Qed.

Lemma subhier_clean_releases h : releases (subhier_clean h) (tree_refs h).
Proof.
  induction h as [t l r ch IH] using subhier_ind'. cbn [subhier_clean tree_refs].
  apply releases_seq; [apply releases_retained|]. exact (clean_list_releases ch IH).
Qed.

Lemma filter_head (s : ptr) l : s ∉ l → filter (λ x, x ≠ s) (s :: l) = l.
Proof. intros Hn. rewrite filter_cons_False by naive_solver. by apply filter_ne_id. Qed.

Lemma store_clean_loop_ok l d :
  list_ok d → msg_list d = l →
  ∃ d', msg_store_clean_loop l d = Some d' ∧ heap d' = ∅ ∧ msg_list d' = [] ∧ msg_store_count d' = 0.
Proof.
  revert d. induction l as [|s l IH]; intros d [Hn Hh Hc Hf] Hl; cbn [msg_store_clean_loop].
  - exists d. split_and!; [done| |done|by rewrite Hc, Hl]. apply map_empty. intros s.
    destruct (heap d !! s) as [m|] eqn:Hs; [|done].
    assert (Hin : s ∈ msg_list d) by (apply Hh; by eexists). rewrite Hl in Hin. by apply not_elem_of_nil in Hin.
  - rewrite Hl in Hn. apply NoDup_cons in Hn as [Hsl Hn].
    assert (is_Some (heap d !! s)) as [m Hm] by (apply Hh; rewrite Hl; by left).
    unfold mosquitto__db_msg_store_remove. rewrite Hm, Hl, (filter_head s l Hsl). cbn [mbind option_bind].
    apply IH; [|done]. split; cbn [heap msg_list msg_store_count next_ptr].
    + done.
    + intros s'. rewrite lookup_delete_is_Some, <-Hh, Hl, elem_of_cons. split; [|naive_solver].
      intros Hin. split; [by intros ->|by right].
    + rewrite Hc, Hl. cbn [length]. lia.
    + intros s' [? [_ Hs']%lookup_delete_Some]. apply Hf. by eexists.
Qed.

Lemma db_close_ok d :
  broker_ok [] d →
  wp mqtt3_db_close (λ rc d', rc = MOSQ_ERR_SUCCESS ∧ contexts d' = contexts d ∧ tables d' = tables d ∧ heap (dmsg d') = ∅ ∧
    msg_list (dmsg d') = [] ∧ msg_store_count (dmsg d') = 0 ∧ subs_children d' = []) d.
Proof.
  intros [[[_ Hst] _ _ _] _]. apply wp_bind, wp_get, wp_bind. rewrite app_nil_r, (comm (++)) in Hst.
  eapply wp_mono; [eapply (clean_list_releases (subs_children d)), Hst; apply Forall_true, subhier_clean_releases|].
  intros [] d1 (s1 & -> & [_ Hlist]). apply wp_bind, wp_modify, wp_bind.
  destruct (store_clean_loop_ok (msg_list s1) s1 Hlist eq_refl) as (s2 & Hrun & H1 & H2 & H3).
  eapply wp_on_store; [cbn; unfold mosquitto__db_msg_store_clean; by rewrite Hrun|]. by apply wp_ret.
Qed.

(** A table is empty when nobody has the key. *)
Lemma table_empty {K} (f : mosquitto → option K) m t :
  table_ok f m t → (∀ c x, m !! c = Some x → f x = None) → t = [].
Proof.
  intros [Ht _] Hn. destruct t as [|[k c] t]; [done|]. destruct (proj1 (Ht k c)) as (x & Hx & Hk); [by left|].
  by rewrite (Hn c x Hx) in Hk.
Qed.

(** After a pass over a table, nobody that is left has the key. *)
Lemma passed {K} (f : mosquitto → option K) d d' :
  (∀ x y, conn x = conn y → f x = f y) → ∀ t, table_ok f (contexts d) t →
  (∀ c x, contexts d' !! c = Some x → c ∉ t.*2 ∧ ∃ y, contexts d !! c = Some y ∧ conn x = conn y) →
  ∀ c x, contexts d' !! c = Some x → f x = None.
Proof.
  intros Hf t [Ht _] Hp c x Hx. destruct (Hp c x Hx) as (Hn & y & Hy & Hcn). rewrite (Hf x y Hcn).
  destruct (f y) as [k|] eqn:Hk; [|done]. destruct Hn. apply (list_elem_of_fmap_2 snd t (k, c)), Ht. eauto.
Qed.

(** ** Freeing everything *)

(** A context that the end of the program finds. *)
Definition findable (d : db) (c : ptr) : Prop :=
  ∃ x, contexts d !! c = Some x ∧ (is_Some (id x) ∨ is_Some (sock x) ∨ c ∈ ll_for_free d).

(** Nothing is left of the broker but the contexts that nobody finds. *)
Record emptied (d d' : db) : Prop := {
  em_heap : heap (dmsg d') = ∅;
  em_list : msg_list (dmsg d') = [];
  em_count : msg_store_count (dmsg d') = 0;
  em_tree : subs_children d' = [];
  em_ids : contexts_by_id d' = [];
  em_socks : contexts_by_sock d' = [];
  em_free : ll_for_free d' = [];
  em_contexts c : is_Some (contexts d' !! c) → is_Some (contexts d !! c) ∧ ¬ findable d c;
}.

Section free_all.
Context (E : env) `{Access}.

Lemma free_all_ok d :
  broker_inv None d → no_bridges d → wp (free_all E) (λ _ d', emptied d d') d.
Proof.
  intros Hinv1 Hnb1. unfold free_all. apply wp_bind, wp_get, wp_bind.
  eapply wp_mono; [apply (free_list_ok E id _ d same_conn_id); [by intros x (_ & ? & _)|done| |done]|].
  { apply table_listed_ok, (bi_tables _ _ Hinv1). }
  intros [] d2 (Hinv2 & Hnb2 & Hf2 & Hp2). pose proof (passed id d d2 same_conn_id _ (tb_id _ _ (bi_tables _ _ Hinv1)) Hp2) as Hid2.
  apply wp_bind, wp_get, wp_bind.
  eapply wp_mono; [apply (free_list_ok E sock _ d2 same_conn_sock); [by intros x (_ & _ & ? & _)|done| |done]|].
  { apply table_listed_ok, (bi_tables _ _ Hinv2). }
  intros [] d3 (Hinv3 & Hnb3 & Hf3 & Hp3). pose proof (passed sock d2 d3 same_conn_sock _ (tb_sock _ _ (bi_tables _ _ Hinv2)) Hp3) as Hsk3.
  assert (Hc3 : ∀ c x, contexts d3 !! c = Some x → ∃ y, contexts d !! c = Some y ∧ conn x = conn y).
  { intros c x Hx. destruct (Hp3 c x Hx) as (_ & y & Hy & Hxy). destruct (Hp2 c y Hy) as (_ & z & Hz & Hyz). exists z. split; [done|congruence]. }
  assert (Hid3 : ∀ c x, contexts d3 !! c = Some x → id x = None).
  { intros c x Hx. destruct (Hp3 c x Hx) as (_ & y & Hy & Hcn%same_conn_id). rewrite Hcn. by eapply Hid2. }
  apply wp_bind, wp_get, wp_bind. eapply wp_mono; [apply (free_bridges_ok E _ 0 d3); [apply Hnb3|lia]|]. intros [] d4 ->.
  apply wp_bind, wp_modify, wp_bind. set (d4 := set_bridges _ d3). assert (Hinv4 : broker_inv None d4) by (by eapply inv_but_ext).
  eapply wp_mono; [by apply free_disused_ok|]. intros [] d5 (Hinv5 & Hf5 & Hc5).
  assert (Hsub : ∀ c x, contexts d5 !! c = Some x → c ∉ ll_for_free d ∧ contexts d3 !! c = Some x).
  { intros c x. rewrite Hc5. change (ll_for_free d4) with (ll_for_free d3). rewrite Hf3, Hf2. by case_decide. }
  apply wp_bind. eapply wp_mono; [apply db_close_ok, Hinv5|]. intros rc d6 (_ & Hc6 & Ht6 & H1 & H2 & H3 & H4). apply wp_ret.
  unfold tables in Ht6. injection Ht6 as Ti Ts Tf _ _. split; try done.
  - rewrite Ti. apply (table_empty id _ _ (tb_id _ _ (bi_tables _ _ Hinv5))). intros c x [_ Hx]%Hsub. eauto.
  - rewrite Ts. apply (table_empty sock _ _ (tb_sock _ _ (bi_tables _ _ Hinv5))). intros c x [_ Hx]%Hsub. eauto.
  - by rewrite Tf.
  - intros c [x Hx]. rewrite Hc6 in Hx. destruct (Hsub c x Hx) as [Hn Hx3]. destruct (Hc3 c x Hx3) as (y & Hy & Hxy).
    split; [by eexists|]. intros (y' & Hy' & Hcase). assert (y' = y) as -> by congruence.
    rewrite <-(same_conn_id _ _ Hxy), <-(same_conn_sock _ _ Hxy), (Hid3 c x Hx3), (Hsk3 c x Hx3) in Hcase.
    by destruct Hcase as [[? ?]|[[? ?]|?]].
Qed.
End free_all.

Lemma findable_same d d1 c :
  (∀ c, handles <$> contexts d1 !! c = handles <$> contexts d !! c) → ll_for_free d1 = ll_for_free d →
  findable d c → findable d1 c.
Proof.
  intros Hh Hf (x & Hx & Hc). specialize (Hh c). rewrite Hx in Hh. destruct (contexts d1 !! c) as [y|] eqn:Hy; [|done].
  apply (inj Some) in Hh. injection Hh as Hi Hs. exists y. split; [done|]. by rewrite Hi, Hs, Hf.
Qed.

Lemma emptied_same d d1 d' :
  (∀ c, handles <$> contexts d1 !! c = handles <$> contexts d !! c) → ll_for_free d1 = ll_for_free d →
  emptied d1 d' → emptied d d'.
Proof.
  intros Hh Hf []. split; try done. intros c [[x Hx] Hn]%em_contexts0. split; [|by intros ?%(findable_same d d1)].
  specialize (Hh c). rewrite Hx in Hh. destruct (contexts d !! c); [by eexists|done].
Qed.

(** ** The wills *)

(** The wills of the contexts [l], one after the other: a will is published as
    a message of its client, unless the client is disconnecting or may not
    write to the topic; then the context has none. *)
Fixpoint wills_sent (E : env) `{Access} (l : list ptr) (d d1 : db) : Prop :=
  match l with
  | [] => d1 = d
  | c :: l' => ∃ x dw xw, contexts d !! c = Some x ∧
      match will x with
      | Some w =>
          if decide (cstate x ≠ mosq_cs_disconnecting ∧ acl_check x (m_topic w) MOSQ_ACL_WRITE = MOSQ_ERR_SUCCESS)
          then ∃ rc, mqtt3_db_messages_easy_queue E (Some c) (m_topic w) (m_qos w) (m_payload w) (m_retain w) d = Some (rc, dw)
          else dw = d
      | None => dw = d
      end ∧
      contexts dw !! c = Some xw ∧ wills_sent E l' (set_contexts <[c := set_will (λ _, None) xw]> dw) d1
  end.

Lemma send_wills_sent E `{Access} l d d1 : send_wills E l d = Some (tt, d1) → wills_sent E l d d1.
Proof.
  revert d. induction l as [|c l IH]; intros d; cbn [send_wills wills_sent]; [by intros [= <-]|].
  intros ([] & d2 & Hw & Hl%IH)%bind_run. apply bind_run in Hw as (x & d0 & H0 & Hw).
  unfold get_context in H0. destruct (contexts d !! c) as [y|] eqn:Hy; [|done]. injection H0 as <- <-.
  apply bind_run in Hw as ([] & dw & Hp & Hu). unfold upd_context in Hu.
  destruct (contexts dw !! c) as [xw|] eqn:Hxw; [|done]. injection Hu as <-.
  exists y, dw, xw. split; [done|]. split; [|done]. destruct (will y) as [w|]; [|by injection Hp].
  destruct (decide _) as [[Hs Ha]|Hn].
  - rewrite bool_decide_eq_false_2, Ha in Hp by done. apply bind_run in Hp as (rc & d3 & Hq & [= <-]). eauto.
  - destruct (negb _ && _) eqn:Hb; [|by injection Hp]. apply andb_true_iff in Hb as [Hb1 Hb2%Z.eqb_eq].
    destruct Hn. split; [|done]. by apply negb_true_iff, bool_decide_eq_false in Hb1.
Qed.

(** ** Properties *)

(** C14: the end of the program. After any run, with no bridge configured,
    [main] publishes the wills of the clients, in the order of the table, each
    once; with [config.persistence] it saves the database as these left it, if
    it can be saved (no kept session has a message whose topic was refused);
    and it frees the contexts and closes the database without freeing anything
    twice or using it afterwards. Then no stored message is left, the tree of
    subscriptions and the tables are empty, and every context is freed that had
    an id or a socket or waited to be freed; if there is no other, none is
    left. *)
Theorem shutdown_safe E `{Access} persistence D filepath time d fs :
  broker_inv None d → no_bridges d →
  (persistence = true → ∀ d1, send_wills E (contexts_by_id d).*2 d = Some (tt, d1) → savable d1) →
  ∃ d1 d' fs', shutdown E persistence D filepath time (d, fs) = Some (tt, (d', fs')) ∧
    wills_sent E (contexts_by_id d).*2 d d1 ∧
    (if persistence then ∃ rc, mqtt3_db_backup D filepath time true d1 fs = Some (rc, fs') else fs' = fs) ∧
    emptied d d' ∧ ((∀ c, is_Some (contexts d !! c) → findable d c) → contexts d' = ∅).
Proof.
  intros Hinv Hnb Hsave.
  assert (Hids : ∀ c, c ∈ (contexts_by_id d).*2 → is_Some (contexts d !! c)).
  { intros c ([k c'] & -> & Hin)%list_elem_of_fmap. apply (tb_id _ _ (bi_tables _ _ Hinv)) in Hin as (x & Hx & _). by eexists. }
  destruct (wp_ends _ _ _ (send_wills_ok E _ d Hinv Hnb Hids)) as (d1 & Hw & Hinv1 & Hnb1 & Hf1 & Hh1).
  destruct (wp_ends _ _ _ (free_all_ok E d1 Hinv1 Hnb1)) as (d' & Hfree & Hem%(emptied_same d d1 d' Hh1 Hf1)).
  assert (∃ fs', (if persistence then ∃ rc, mqtt3_db_backup D filepath time true d1 fs = Some (rc, fs') else fs' = fs)) as [fs' Hb].
  { destruct persistence; [|by exists fs]. destruct filepath; [|by eexists fs, _].
    destruct (saved_first_defined d1 Hinv1 true) as [k1 H1], (saved_clients_defined d1 Hinv1 (Hsave eq_refl d1 Hw) time) as [k2 H2],
      (saved_tree_defined d1 Hinv1 (Hsave eq_refl d1 Hw)) as [k3 H3].
    destruct (backup_ok D time true d1 fs k1 k2 k3 H1 H2 H3) as (? & _ & ->). destruct (backup_result _ _ _ _) as [rc fs']. by exists fs', rc. }
  exists d1, d', fs'. split; [|split; [by apply send_wills_sent|split; [done|split; [done|]]]].
  - unfold shutdown, bind, mget, on_broker, on_files. cbn [fst snd mbind option_bind]. rewrite Hw. cbn [mbind option_bind fst snd].
    destruct persistence; [destruct Hb as [rc Hb]; cbn [fst snd]; rewrite Hb|subst fs']; unfold ret; cbn [mbind option_bind fst snd];
      by rewrite Hfree.
  - intros Hall. apply map_empty. intros c. apply eq_None_not_Some. intros [Hs Hn]%(em_contexts _ _ Hem). by apply Hn, Hall.
Qed.

#[export] Instance no_bridges_dec d : Decision (no_bridges d).
Proof. apply and_dec; [apply map_Forall_dec; intros; apply _|apply _]. Defined.

#[export] Instance findable_dec d c : Decision (findable d c).
Proof.
  unfold findable. destruct (contexts d !! c) as [x|]; [|right; by intros (? & ? & _)].
  destruct (decide (is_Some (id x) ∨ is_Some (sock x) ∨ c ∈ ll_for_free d)) as [Hc|Hn]; [left; by exists x|].
  right. intros (y & [= <-] & Hc). by apply Hn.
Defined.

(** A retained message, a subscriber with a queued message, a client that was
    disconnected, and one that has a will. *)
Lemma shutdown_safe_witness :
  let d := after (sample_events ++ sends 2 [0x31; 5; 0; 1; 117; 104; 105] ++ sends 2 [0xE0; 0] ++ [Accept 3 (Some 12) true 3 true] ++
             sends 3 [0x10; 19; 0; 4; 77; 81; 84; 84; 4; 6; 0; 60; 0; 1; 119; 0; 1; 116; 0; 1; 120]) in
  let D := Disk false false None false (stdio_buffer 64) in
  msg_store_count (dmsg d) = 2 ∧ length (contexts_by_sock d) = 2%nat ∧ ll_for_free d = [2%positive] ∧
  (m_topic <$> (contexts d !! 3%positive ≫= will)) = Some (str "t") ∧
  ∃ d1 d' fs', shutdown sample_env (H := open_access) true D true 1000 (d, Files None None) = Some (tt, (d', fs')) ∧
    wills_sent sample_env (H := open_access) (contexts_by_id d).*2 d d1 ∧
    (∃ rc, mqtt3_db_backup D true 1000 true d1 (Files None None) = Some (rc, fs')) ∧
    emptied d d' ∧ contexts d' = ∅.
Proof.
  intros d D. split; [vm_compute; reflexivity|]. split; [vm_compute; reflexivity|]. split; [vm_compute; reflexivity|]. split; [vm_compute; reflexivity|].
  destruct (shutdown_safe sample_env (H := open_access) true D true 1000 d (Files None None)) as (d1 & d' & fs' & H1 & H2 & H3 & H4 & H5);
    [apply after_ok; by_compute|by_compute| |].
  - intros _ d1 Hw. replace d1 with (default d (snd <$> send_wills sample_env (H := open_access) (contexts_by_id d).*2 d)) by (by rewrite Hw).
    by_compute.
  - exists d1, d', fs'. repeat (split; [done|]). apply H5.
    assert (Hall : map_Forall (λ c _, findable d c) (contexts d)) by by_compute. intros c [x Hx]. exact (Hall c x Hx).
Defined.
