(* ===== verification/Calendar.v ===== *)
(** * The time functions of the C library

    What src/lib/datetime.c uses of <time.h>, <stdio.h> and <stdlib.h>:
    [localtime], [mktime], the conversions %d and %s of [sprintf], and [atoi].
    The calendar is the Gregorian one. A time zone has a standard offset and
    an offset for daylight saving time, and says when the latter is in force;
    [mktime] is called with [tm_isdst] negative, as all of the code does, and
    then finds out for itself; what it makes of a local time that the clock
    shows twice, or skips, is not said in C, and a parameter of the zone. *)

From stdpp Require Import base list numbers strings option sets gmap.
From Stdlib Require Import ZArith Lia.
From S2P Require Import Prelude.
Local Open Scope Z_scope.

(** ** Days *)

Definition leap (y : Z) : bool := (y `mod` 4 =? 0) && (negb (y `mod` 100 =? 0) || (y `mod` 400 =? 0)).

(** The days before the year [y], from the beginning of the year 1. *)
Definition days_before (y : Z) : Z :=
  let p := y - 1 in 365 * p + p `div` 4 - p `div` 100 + p `div` 400.
Definition epoch : Z := days_before 1970.

(** The days before the month [m], from 0, of a year. *)
Definition month_start (l : bool) (m : Z) : Z :=
  default 0 ([0; 31; 59; 90; 120; 151; 181; 212; 243; 273; 304; 334; 365] !! Z.to_nat m) +
  (if l && (2 <=? m) then 1 else 0).
Definition month_days (l : bool) (m : Z) : Z := month_start l (m + 1) - month_start l m.

Definition year_of (n : Z) : Z :=
  let y := (400 * n) `div` 146097 + 1 in
  if n <? days_before y then y - 1 else if days_before (y + 1) <=? n then y + 1 else y.

Fixpoint month_scan (l : bool) (yday : Z) (k : nat) : Z :=
  match k with
  | O => 0
  | S k' => if month_start l (Z.of_nat k) <=? yday then Z.of_nat k else month_scan l yday k'
  end.
Definition month_of (l : bool) (yday : Z) : Z := month_scan l yday 11.

(** ** Broken-down time *)

Record tm := Tm {
  tm_sec : Z; tm_min : Z; tm_hour : Z; tm_mday : Z; tm_mon : Z; tm_year : Z;
  tm_wday : Z; tm_yday : Z; tm_isdst : Z;
}.

(** The fields of the second [u] of the local clock. *)
Definition tm_of (u isdst : Z) : tm :=
  let day := u `div` 86400 in
  let s := u `mod` 86400 in
  let y := year_of (day + epoch) in
  let yday := day + epoch - days_before y in
  let m := month_of (leap y) yday in
  Tm (s `mod` 60) (s `div` 60 `mod` 60) (s `div` 3600) (yday - month_start (leap y) m + 1) m (y - 1900)
    ((day + 4) `mod` 7) yday isdst.

(** The day of a date whose month and day need not be in range. *)
Definition day_of (year mon mday : Z) : Z :=
  let y := year + 1900 + mon `div` 12 in
  days_before y - epoch + month_start (leap y) (mon `mod` 12) + mday - 1.
Definition secs_of (f : tm) : Z :=
  day_of (tm_year f) (tm_mon f) (tm_mday f) * 86400 + tm_hour f * 3600 + tm_min f * 60 + tm_sec f.

(** ** Integers of C *)

Definition INT_MAX : Z := 2147483647.
Definition is_int (n : Z) : Prop := - INT_MAX - 1 ≤ n ≤ INT_MAX.
#[export] Instance is_int_dec n : Decision (is_int n).
Proof. apply _. Defined.
(** The result of an arithmetic operation on [int]. *)
Definition cint (n : Z) : option Z := if decide (is_int n) then Some n else None.

(** ** Time zones *)

Record zone := Zone {
  std_off : Z; dst_off : Z;     (* local time minus UTC *)
  in_dst : Z → bool;            (* of the seconds since the epoch *)
  picks_dst : Z → bool;         (* of the local seconds that are shown twice or never *)
  std_name : bytes; dst_name : bytes;
}.

Section zone.
Context (z : zone).

Definition offset (t : Z) : Z := if in_dst z t then dst_off z else std_off z.
(** What the clock on the wall shows. *)
Definition wall (t : Z) : Z := t + offset t.

(** NULL when the year is no [int]. *)
Definition localtime (t : Z) : option tm :=
  let f := tm_of (wall t) (if in_dst z t then 1 else 0) in
  if decide (is_int (tm_year f)) then Some f else None.

Definition mktime (f : tm) : Z :=
  let u := secs_of f in
  if decide (is_int (year_of (u `div` 86400 + epoch) - 1900)) then
    let t0 := u - std_off z in
    let t1 := u - dst_off z in
    match in_dst z t0, in_dst z t1 with
    | true, true => t1
    | false, false => t0
    | _, _ => if picks_dst z u then t1 else t0
    end
  else -1.

(** The clock shows the time of [t] once: [t] is not in the hour before or
    after the end of daylight saving. *)
Definition shown_once (t : Z) : Prop := in_dst z (wall t - std_off z) = in_dst z (wall t - dst_off z).
#[export] Instance shown_once_dec t : Decision (shown_once t).
Proof. apply _. Defined.
End zone.

(** ** Formatting *)

(** The decimal digits of a number that is not negative. *)
Fixpoint digits (n : nat) (x : Z) : bytes :=
  match n with
  | O => []
  | S n' => if x <? 10 then [48 + x] else digits n' (x `div` 10) ++ [48 + x `mod` 10]
  end.
(** An [int] has at most ten. *)
Definition decimal (x : Z) : bytes := digits 10 x.

(** %d, %0wd and %wd *)
Definition fmt_zero (w : nat) (x : Z) : bytes :=
  if x <? 0 then 45 :: replicate (w - S (length (decimal (- x)))) 48 ++ decimal (- x)
  else replicate (w - length (decimal x)) 48 ++ decimal x.
Definition fmt_dec (w : nat) (x : Z) : bytes :=
  let s := if x <? 0 then 45 :: decimal (- x) else decimal x in replicate (w - length s) 32 ++ s.
(** %ws *)
Definition fmt_str (w : nat) (s : bytes) : bytes := replicate (w - length s) 32 ++ s.

(** ** [atoi] *)

Definition is_digit (c : Z) : bool := (48 <=? c) && (c <=? 57).
Definition is_space (c : Z) : bool := (c =? 32) || ((9 <=? c) && (c <=? 13)).

Fixpoint read_decimal (acc : Z) (s : bytes) : Z :=
  match s with
  | c :: s' => if is_digit c then read_decimal (10 * acc + (c - 48)) s' else acc
  | [] => acc
  end.
Fixpoint skip_space (s : bytes) : bytes :=
  match s with
  | c :: s' => if is_space c then skip_space s' else s
  | [] => []
  end.
Definition atoi (s : bytes) : option Z :=
  match skip_space s with
  | c :: s' => if c =? 45 then cint (- read_decimal 0 s') else if c =? 43 then cint (read_decimal 0 s')
               else cint (read_decimal 0 (c :: s'))
  | [] => Some 0
  end.

(** ** The calendar *)

Ltac cal := Z.to_euclidean_division_equations; lia.

Lemma days_before_succ y : days_before (y + 1) = days_before y + 365 + (if leap y then 1 else 0).
Proof.
  unfold days_before, leap. replace (y + 1 - 1) with y by lia.
  destruct (Z.eqb_spec (y `mod` 4) 0), (Z.eqb_spec (y `mod` 100) 0), (Z.eqb_spec (y `mod` 400) 0); cbn [negb orb andb]; cal.
Qed.

Lemma days_before_mono y y' : y < y' → days_before (y + 1) ≤ days_before y'.
Proof. intros H. unfold days_before. cal. Qed.

Lemma year_of_spec n : days_before (year_of n) ≤ n < days_before (year_of n + 1).
Proof.
  unfold year_of. set (y := (400 * n) `div` 146097 + 1).
  assert (Hlo : days_before (y - 1) ≤ n) by (unfold days_before, y; cal).
  assert (Hhi : n < days_before (y + 2)) by (unfold days_before, y; cal).
  destruct (Z.ltb_spec n (days_before y)).
  - replace (y - 1 + 1) with y by lia. lia.
  - destruct (Z.leb_spec (days_before (y + 1)) n); [|lia]. replace (y + 1 + 1) with (y + 2) by lia. lia.
Qed.

Lemma year_of_unique y n : days_before y ≤ n < days_before (y + 1) → year_of n = y.
Proof.
  intros Hy. pose proof (year_of_spec n) as Hs. destruct (Z.lt_trichotomy (year_of n) y) as [Hl|[?|Hg]]; [|done|].
  - apply days_before_mono in Hl. lia.
  - apply days_before_mono in Hg. lia.
Qed.

(** A property of the twelve months, by cases. *)
Lemma month_cases (P : Z → Prop) m :
  P 0 → P 1 → P 2 → P 3 → P 4 → P 5 → P 6 → P 7 → P 8 → P 9 → P 10 → P 11 → 0 ≤ m < 12 → P m.
Proof.
  intros. assert (m = 0 ∨ m = 1 ∨ m = 2 ∨ m = 3 ∨ m = 4 ∨ m = 5 ∨ m = 6 ∨ m = 7 ∨ m = 8 ∨ m = 9 ∨ m = 10 ∨ m = 11) as Hm by lia.
  by repeat destruct Hm as [->|Hm]; [..|subst].
Qed.

Definition year_days (l : bool) : Z := month_start l 12.

Lemma month_days_range l m : 0 ≤ m < 12 → 28 ≤ month_days l m ≤ 31.
Proof. apply (month_cases (λ m, 28 ≤ month_days l m ≤ 31)); destruct l; vm_compute; split; discriminate. Qed.

Lemma month_start_0 l : month_start l 0 = 0.
Proof. by destruct l. Qed.

Lemma month_start_mono l m m' : 0 ≤ m → m < m' → m' ≤ 12 → month_start l (m + 1) ≤ month_start l m'.
Proof.
  intros Hm Hlt Hle. replace m' with (m + 1 + Z.of_nat (Z.to_nat (m' - m - 1))) by lia.
  assert (Hk : m + 1 + Z.of_nat (Z.to_nat (m' - m - 1)) ≤ 12) by lia.
  induction (Z.to_nat (m' - m - 1)) as [|k IH]; [rewrite Z.add_0_r; lia|].
  pose proof (month_days_range l (m + 1 + Z.of_nat k)) as Hd. unfold month_days in Hd.
  replace (m + 1 + Z.of_nat (S k)) with (m + 1 + Z.of_nat k + 1) by lia. lia.
Qed.

Lemma month_scan_spec l yday k :
  0 ≤ yday → (k < 12)%nat →
  (∀ j, Z.of_nat k < j ≤ 12 → yday < month_start l j) →
  0 ≤ month_scan l yday k < 12 ∧
  month_start l (month_scan l yday k) ≤ yday < month_start l (month_scan l yday k + 1).
Proof.
  induction k as [|k IH]; intros Hy Hk Hall; cbn [month_scan].
  - rewrite month_start_0. split; [lia|]. split; [lia|]. apply Hall. lia.
  - destruct (Z.leb_spec (month_start l (Z.of_nat (S k))) yday).
    + split; [lia|]. split; [done|]. apply Hall. lia.
    + apply IH; [done|lia|]. intros j Hj. destruct (decide (j = Z.of_nat (S k))) as [->|]; [done|]. apply Hall. lia.
Qed.

Lemma month_of_spec l yday :
  0 ≤ yday < year_days l →
  0 ≤ month_of l yday < 12 ∧ month_start l (month_of l yday) ≤ yday < month_start l (month_of l yday + 1).
Proof.
  intros Hy. apply month_scan_spec; [lia|lia|]. intros j Hj. assert (j = 12) as -> by lia. apply Hy.
Qed.

Lemma month_of_unique l m yday :
  0 ≤ m < 12 → month_start l m ≤ yday < month_start l (m + 1) → month_of l yday = m.
Proof.
  intros Hm Hy. pose proof (month_of_spec l yday) as Hs.
  assert (Hb : 0 ≤ yday < year_days l).
  { assert (0 ≤ month_start l m).
    { destruct (decide (m = 0)) as [->|]; [by rewrite month_start_0|]. pose proof (month_start_mono l 0 m ltac:(lia) ltac:(lia) ltac:(lia)).
      pose proof (month_days_range l 0 ltac:(lia)) as Hd. unfold month_days in Hd. rewrite month_start_0 in Hd. lia. }
    destruct (decide (m = 11)) as [->|]; [unfold year_days; change (11 + 1) with 12 in Hy; lia|].
    pose proof (month_start_mono l m 12 ltac:(lia) ltac:(lia) ltac:(lia)). unfold year_days. lia. }
  destruct (Hs Hb) as [Hr Hb']. destruct (Z.lt_trichotomy (month_of l yday) m) as [Hl|[?|Hg]]; [|done|].
  - pose proof (month_start_mono l _ _ (proj1 Hr) Hl ltac:(lia)). lia.
  - pose proof (month_start_mono l _ _ (proj1 Hm) Hg ltac:(lia)). lia.
Qed.

Lemma year_days_succ y : days_before (y + 1) = days_before y + year_days (leap y).
Proof. rewrite days_before_succ. destruct (leap y); vm_compute year_days; lia. Qed.

(** ** Broken-down time *)

(** The fields of a date and a time that exist. *)
Record civil (f : tm) : Prop := {
  cv_sec : 0 ≤ tm_sec f < 60;
  cv_min : 0 ≤ tm_min f < 60;
  cv_hour : 0 ≤ tm_hour f < 24;
  cv_mon : 0 ≤ tm_mon f < 12;
  cv_mday : 1 ≤ tm_mday f ≤ month_days (leap (tm_year f + 1900)) (tm_mon f);
}.

Lemma day_in_year day :
  let y := year_of (day + epoch) in 0 ≤ day + epoch - days_before y < year_days (leap y).
Proof. intros y. pose proof (year_of_spec (day + epoch)) as Hs. fold y in Hs. rewrite year_days_succ in Hs. lia. Qed.

Lemma tm_of_civil u i : civil (tm_of u i).
Proof.
  pose proof (month_of_spec _ _ (day_in_year (u `div` 86400))) as [Hm Hd].
  unfold tm_of. cbv zeta in *. set (y := year_of _) in *. set (m := month_of _ _) in *.
  split; cbn [tm_sec tm_min tm_hour tm_mon tm_mday tm_year]; [cal|cal|cal|exact Hm|]. rewrite Z.sub_add. unfold month_days. lia.
Qed.

(** The second of the fields of [u] is [u]. *)
Lemma secs_of_tm_of u i : secs_of (tm_of u i) = u.
Proof.
  pose proof (month_of_spec _ _ (day_in_year (u `div` 86400))) as [Hm _]. unfold secs_of, day_of, tm_of. cbv zeta in *.
  cbn [tm_sec tm_min tm_hour tm_mon tm_mday tm_year].
  set (y := year_of _) in *. set (m := month_of _ _) in *.
  replace (m `div` 12) with 0 by (symmetry; apply Z.div_small; lia). rewrite (Z.mod_small m) by lia.
  replace (y - 1900 + 1900 + 0) with y by lia. set (s := u `mod` 86400). assert (u = 86400 * (u `div` 86400) + s) by (apply Z.div_mod; lia).
  assert (s `div` 3600 * 3600 + s `div` 60 `mod` 60 * 60 + s `mod` 60 = s) by (clear; clearbody s; cal). lia.
Qed.

(** The fields of the second of a date that exists are the fields it has. *)
Lemma tm_of_secs f i :
  civil f →
  let f' := tm_of (secs_of f) i in
  tm_sec f' = tm_sec f ∧ tm_min f' = tm_min f ∧ tm_hour f' = tm_hour f ∧
  tm_mday f' = tm_mday f ∧ tm_mon f' = tm_mon f ∧ tm_year f' = tm_year f ∧
  tm_wday f' = (day_of (tm_year f) (tm_mon f) (tm_mday f) + 4) `mod` 7.
Proof.
  intros [Hs Hmi Hh Hmo Hd]. set (D := day_of (tm_year f) (tm_mon f) (tm_mday f)).
  assert (Hq : secs_of f `div` 86400 = D ∧ secs_of f `mod` 86400 = tm_hour f * 3600 + tm_min f * 60 + tm_sec f).
  { unfold secs_of. fold D. split; cal. }
  destruct Hq as [Hq Hr]. unfold tm_of. rewrite Hq, Hr. cbn [tm_sec tm_min tm_hour tm_mon tm_mday tm_year tm_wday].
  assert (HD : D + epoch = days_before (tm_year f + 1900) + (month_start (leap (tm_year f + 1900)) (tm_mon f) + (tm_mday f - 1))).
  { unfold D, day_of. rewrite (Z.div_small (tm_mon f)), (Z.mod_small (tm_mon f)), Z.add_0_r by lia. lia. }
  set (y := tm_year f + 1900) in *. set (l := leap y) in *. unfold month_days in Hd.
  assert (Hlast : month_start l (tm_mon f + 1) ≤ year_days l).
  { destruct (decide (tm_mon f = 11)) as [->|]; [by change (11 + 1) with 12|]. apply month_start_mono; lia. }
  assert (Hfirst : 0 ≤ month_start l (tm_mon f)).
  { destruct (decide (tm_mon f = 0)) as [->|]; [by rewrite month_start_0|].
    pose proof (month_start_mono l 0 (tm_mon f) ltac:(lia) ltac:(lia) ltac:(lia)) as Hm0.
    pose proof (month_days_range l 0 ltac:(lia)) as Hd0. unfold month_days in Hd0. rewrite month_start_0 in Hd0. lia. }
  assert (Hy : year_of (D + epoch) = y) by (apply year_of_unique; rewrite year_days_succ; fold l; lia).
  rewrite Hy. fold l. rewrite HD. replace (days_before y + (month_start l (tm_mon f) + (tm_mday f - 1)) - days_before y)
    with (month_start l (tm_mon f) + (tm_mday f - 1)) by lia.
  rewrite (month_of_unique l (tm_mon f)) by lia. unfold y. split_and!; [cal|cal|cal|lia|done|lia|done].
Qed.

(** ** Local time *)

Section zone_lemmas.
Context (z : zone).

Lemma localtime_fields t f :
  localtime z t = Some f → f = tm_of (wall z t) (if in_dst z t then 1 else 0) ∧ is_int (tm_year f).
Proof. unfold localtime. case_decide; [|done]. by intros [= <-]. Qed.

Lemma localtime_civil t f : localtime z t = Some f → civil f ∧ secs_of f = wall z t ∧ is_int (tm_year f).
Proof. intros [-> ?]%localtime_fields. split; [apply tm_of_civil|]. by rewrite secs_of_tm_of. Qed.

(** [mktime] finds a time at which the wall clock shows the fields. *)
Lemma mktime_wall t f :
  secs_of f = wall z t → is_int (tm_year (tm_of (wall z t) 0)) →
  wall z (mktime z f) = wall z t ∧ (shown_once z t → mktime z f = t).
Proof.
  intros Hs Hy. unfold mktime. rewrite Hs. rewrite decide_True by exact Hy. unfold shown_once. set (u := wall z t).
  assert (Ht : t = if in_dst z t then u - dst_off z else u - std_off z) by (unfold u, wall, offset; destruct (in_dst z t); lia).
  assert (Hd : in_dst z (if in_dst z t then u - dst_off z else u - std_off z) = in_dst z t) by (by rewrite <-Ht).
  destruct (in_dst z t) eqn:Hdt; rewrite Hd.
  - destruct (in_dst z (u - std_off z)) eqn:H0; [by rewrite <-Ht|]. split; [|done].
    destruct (picks_dst z u); unfold wall, offset; [rewrite Hd|rewrite H0]; lia.
  - destruct (in_dst z (u - dst_off z)) eqn:H1; [|by rewrite <-Ht]. split; [|done].
    destruct (picks_dst z u); unfold wall, offset; [rewrite H1|rewrite Hd]; lia.
Qed.

Lemma mktime_localtime t f f' :
  localtime z t = Some f → secs_of f' = secs_of f → shown_once z t → mktime z f' = t.
Proof.
  intros Hl Hs Hf. destruct (localtime_civil _ _ Hl) as (_ & Hw & Hy). apply (mktime_wall t f'); [congruence| |done].
  destruct (localtime_fields _ _ Hl) as [-> _]. exact Hy.
Qed.
End zone_lemmas.

(** ** Digits *)

Lemma digits_spec n x :
  (0 < n)%nat → 0 ≤ x < 10 ^ Z.of_nat n →
  Forall (λ c, is_digit c = true) (digits n x) ∧ (0 < length (digits n x))%nat ∧
  ∀ acc, read_decimal acc (digits n x) = acc * 10 ^ Z.of_nat (length (digits n x)) + x.
Proof.
  revert x. induction n as [|n IH]; intros x Hn Hx; [lia|]. cbn [digits].
  destruct (Z.ltb_spec x 10) as [Hlt|Hge].
  - assert (Hd : is_digit (48 + x) = true) by (unfold is_digit; apply andb_true_intro; split; lia).
    split; [by constructor|]. split; [cbn; lia|]. intros acc. cbn [read_decimal length]. rewrite Hd.
    change (10 ^ Z.of_nat 1) with 10. lia.
  - rewrite Nat2Z.inj_succ, Z.pow_succ_r in Hx by lia.
    assert (Hn' : (0 < n)%nat) by (destruct n; [cbn in Hx; lia|lia]).
    assert (Hq : 0 ≤ x `div` 10 < 10 ^ Z.of_nat n) by (set (p := 10 ^ _) in *; cal).
    destruct (IH (x `div` 10) Hn' Hq) as (Hall & Hl & Hv).
    assert (Hd : is_digit (48 + x `mod` 10) = true) by (unfold is_digit; apply andb_true_intro; split; cal).
    split; [apply Forall_app; split; [done|by constructor]|]. rewrite length_app. split; [lia|].
    intros acc. cbn [length].
    assert (Happ : ∀ s a, Forall (λ c, is_digit c = true) s → read_decimal a (s ++ [48 + x `mod` 10]) = 10 * read_decimal a s + x `mod` 10).
    { induction s as [|c s IHs]; intros a Hs; cbn [app read_decimal]; [rewrite Hd; lia|].
      apply Forall_cons_1 in Hs as [Hc Hs]. cbn beta in Hc. rewrite Hc. by rewrite IHs. }
    rewrite Happ, Hv by done. rewrite Nat2Z.inj_add, Z.pow_add_r by lia. change (10 ^ Z.of_nat 1) with 10.
    set (p := 10 ^ _). assert (x = 10 * (x `div` 10) + x `mod` 10) by (apply Z.div_mod; lia). nia.
Qed.

Lemma digits_length n w x : 0 ≤ x < 10 ^ Z.of_nat w → (0 < w)%nat → (length (digits n x) ≤ w)%nat.
Proof.
  revert w x. induction n as [|n IH]; intros w x Hx Hw; cbn [digits]; [cbn; lia|].
  destruct (Z.ltb_spec x 10); [cbn; lia|]. rewrite length_app. cbn [length].
  destruct w as [|[|w]]; [lia|cbn in Hx; lia|]. rewrite Nat2Z.inj_succ, Z.pow_succ_r in Hx by lia.
  pose proof (IH (S w) (x `div` 10)) as Hl. assert (0 ≤ x `div` 10 < 10 ^ Z.of_nat (S w)) by (set (p := 10 ^ _) in *; cal). lia.
Qed.

Lemma read_zeros n acc s : acc = 0 → read_decimal acc (replicate n 48 ++ s) = read_decimal acc s.
Proof. intros ->. by induction n. Qed.

(** A number of [w] digits, with zeros in front, is read back. *)
Lemma fmt_zero_spec w x :
  (0 < w ≤ 10)%nat → 0 ≤ x < 10 ^ Z.of_nat w → is_int x →
  length (fmt_zero w x) = w ∧ Forall (λ c, is_digit c = true) (fmt_zero w x) ∧ atoi (fmt_zero w x) = Some x.
Proof.
  intros Hw Hx Hi. assert (Hx' : 0 ≤ x < 10 ^ Z.of_nat 10).
  { split; [lia|]. eapply Z.lt_le_trans; [apply Hx|]. apply Z.pow_le_mono_r; lia. }
  destruct (digits_spec 10 x ltac:(lia) Hx') as (Hall & Hpos & Hv). unfold fmt_zero. rewrite (proj2 (Z.ltb_ge x 0)) by lia.
  fold (decimal x) in *. pose proof (digits_length 10 w x Hx ltac:(lia)) as Hl. fold (decimal x) in Hl.
  assert (Hs : Forall (λ c, is_digit c = true) (replicate (w - length (decimal x)) 48 ++ decimal x)).
  { apply Forall_app. split; [by apply Forall_replicate|done]. }
  assert (Hr : read_decimal 0 (replicate (w - length (decimal x)) 48 ++ decimal x) = x) by (rewrite read_zeros, Hv by done; lia).
  assert (Hlen : length (replicate (w - length (decimal x)) 48 ++ decimal x) = w) by (rewrite length_app, length_replicate; lia).
  destruct (replicate _ 48 ++ decimal x) as [|c s]; [cbn in Hlen; lia|]. split; [done|]. split; [done|]. unfold atoi.
  apply Forall_cons_1 in Hs as [Hd _]. unfold is_digit in Hd. apply andb_prop in Hd as [Hd1 Hd2]. cbn [skip_space].
  unfold is_space. rewrite (proj2 (Z.eqb_neq c 32)), (proj2 (Z.leb_gt c 13)), andb_false_r by lia. cbn [orb].
  rewrite (proj2 (Z.eqb_neq c 45)), (proj2 (Z.eqb_neq c 43)), Hr by lia. unfold cint. by rewrite decide_True.
Qed.
