(* ===== verification/Datetime.v ===== *)
(** * Dates and times (src/lib/datetime.c)

    blenderbottle's own library of dates: conversion between [time_t], the
    integers YYYYMMDD and HHMM or HHMMSS, and strings; arithmetic on dates;
    the months and weeks around a date; formatting. [None] is undefined
    behaviour: an [int] that overflows, a NULL from [localtime], a buffer that
    is too short, a read beyond the end of a string.

    The file calls [putenv(tzSetString)], which is declared nowhere; the
    definition below has [tz_set_string], which the line above it fills. *)

From stdpp Require Import base list numbers strings option sets gmap.
From Stdlib Require Import ZArith Lia.
From S2P Require Import Prelude Calendar.
Local Open Scope Z_scope.

(** ** The time zone of the process *)

(** Where the value of TZ is: not set, in the environment the process began
    with, or in one of the two buffers, of which [putenv] keeps the address. *)
Inductive env_tz := TzUnset | TzOwn (v : bytes) | TzSave | TzSet.
Record tz_state := TzState { TZ : env_tz; tz_save : bytes; tz_set_string : bytes }.

Record zone_info := ZI { hour_offset : Z; minute_offset : Z; st : bytes; dt : bytes }.
Definition zones : list zone_info :=
  [ZI 4 0 (str "AST") (str "ADT"); ZI 5 0 (str "EST") (str "EDT"); ZI 6 0 (str "CST") (str "CDT");
   ZI 7 0 (str "MST") (str "MDT"); ZI 8 0 (str "PST") (str "PDT"); ZI 3 30 (str "NST") (str "NDT")].

(** [getenv("TZ")] as the argument of [sprintf(tz_save, "TZ=%s", ...)]: not
    NULL, and not inside the buffer that is written. *)
Definition tz_source (s : tz_state) : option bytes :=
  match TZ s with
  | TzUnset | TzSave => None
  | TzOwn v => Some v
  | TzSet => Some (drop 3 (tz_set_string s))
  end.

(** [sprintf] into a buffer of [n] bytes. *)
Definition sprintf (n : nat) (s : bytes) : option bytes := if bool_decide (length s < n)%nat then Some s else None.

Definition set_tz (hr min daylight : Z) (s : tz_state) : option (Z * tz_state) :=
  v ← tz_source s;
  save ← sprintf 20 (str "TZ=" ++ v);
  let zi := match list_find (λ i, hour_offset i = hr ∧ minute_offset i = min) zones with
            | Some (_, i) => i
            | None => ZI 6 0 (str "CST") (str "CDT")
            end in
  min_string ← (if min =? 0 then Some [] else sprintf 10 (str ":" ++ fmt_dec 0 min));
  let daylight_str := if daylight =? 0 then [] else dt zi in
  set ← sprintf 20 (str "TZ=" ++ st zi ++ fmt_dec 0 hr ++ min_string ++ daylight_str);
  Some (1, TzState TzSet save set).

(** [putenv] of a string without a name fails. *)
Definition reset_tz (s : tz_state) : option (Z * tz_state) :=
  if bool_decide (tz_save s = []) then Some (0, s) else Some (1, TzState TzSave (tz_save s) (tz_set_string s)).

(** ** Conversions *)

Record datetime := Datetime { date : Z; time : Z }.

Section datetime.
Context (z : zone).

(** [memset(&tm, 0, sizeof(tm))] and [tm.tm_isdst = -1], then the six fields. *)
Definition fields (year mon mday hour min sec : Z) : tm := Tm sec min hour mday mon year 0 0 (-1).

Definition set_datetime (idt : datetime) : option Z :=
  if date idt =? 0 then Some (-1)
  else
    year ← cint (date idt `quot` 10000 - 1900);
    let d := date idt `rem` 10000 in
    let '(sec, t) := if 9999 <? time idt then (time idt `rem` 100, time idt `quot` 100) else (0, time idt) in
    Some (mktime z (fields year (d `quot` 100 - 1) (d `rem` 100) (t `quot` 100) (t `rem` 100) sec)).

Definition set_yyyymmdd_datetime (s : bytes) : option Z :=
  let len := length s in
  if negb (bool_decide (len = 8%nat)) && negb (bool_decide (len = 13%nat)) && negb (bool_decide (len = 15%nat)) then Some (-1)
  else
    let b := s ++ [0] in
    '(hour, min, sec, b) ←
      (if bool_decide (8 < len)%nat then
         '(sec, b) ← (if bool_decide (len = 15%nat) then sec ← atoi (drop 13 s); Some (sec, <[13%nat:=0]> b) else Some (0, b));
         min ← atoi (cstr (drop 11 b));
         let b := <[11%nat:=0]> b in
         hour ← atoi (cstr (drop 9 b));
         Some (hour, min, sec, <[8%nat:=0]> b)
       else Some (0, 0, 0, b));
    mday ← atoi (cstr (drop 6 b));
    let b := <[6%nat:=0]> b in
    mon ← atoi (cstr (drop 4 b));
    let b := <[4%nat:=0]> b in
    year ← atoi (cstr b);
    Some (mktime z (fields (year - 1900) (mon - 1) mday hour min sec)).

Definition get_datetime (t : Z) (get_seconds : bool) : option datetime :=
  f ← localtime z t;
  y ← cint (tm_year f + 1900);
  d ← cint (y * 10000);
  d ← cint (d + (tm_mon f + 1) * 100);
  d ← cint (d + tm_mday f);
  let hm := tm_hour f * 100 + tm_min f in
  Some (Datetime d (if get_seconds then hm * 100 + tm_sec f else hm)).

(** ** Arithmetic *)

(** A field of the local time is changed, and the time is made again. *)
Definition set_tm_mon m f := Tm (tm_sec f) (tm_min f) (tm_hour f) (tm_mday f) m (tm_year f) (tm_wday f) (tm_yday f) (-1).
Definition set_tm_mday d f := Tm (tm_sec f) (tm_min f) (tm_hour f) d (tm_mon f) (tm_year f) (tm_wday f) (tm_yday f) (-1).
Definition set_tm_sec s f := Tm s (tm_min f) (tm_hour f) (tm_mday f) (tm_mon f) (tm_year f) (tm_wday f) (tm_yday f) (-1).

Definition add_months (t increment : Z) : option Z :=
  f ← localtime z t; m ← cint (tm_mon f + increment); Some (mktime z (set_tm_mon m f)).

Definition add_years (t increment : Z) : option Z := n ← cint (increment * 12); add_months t n.

Definition add_days (t increment : Z) : option Z :=
  f ← localtime z t; d ← cint (tm_mday f + increment); Some (mktime z (set_tm_mday d f)).

Definition add_seconds (t increment : Z) : option Z :=
  f ← localtime z t; s ← cint (tm_sec f + increment); Some (mktime z (set_tm_sec s f)).

Definition add_minutes (t increment : Z) : option Z := n ← cint (increment * 60); add_seconds t n.

Definition add_hours (t increment : Z) : option Z :=
  n ← cint (increment * 60); n ← cint (n * 60); add_seconds t n.

(** ** Months and weeks *)

Definition get_month_start (t : Z) : option Z := f ← localtime z t; Some (mktime z (set_tm_mday 1 f)).

Definition get_month_end (t : Z) : option Z :=
  f ← localtime z t; Some (mktime z (set_tm_mday 0 (set_tm_mon (tm_mon f + 1) f))).

Definition get_week_start (t : Z) : option Z :=
  f ← localtime z t; Some (mktime z (set_tm_mday (tm_mday f - tm_wday f) f)).

Definition get_week_end (t : Z) : option Z :=
  f ← localtime z t; Some (mktime z (set_tm_mday (tm_mday f - tm_wday f + 6) f)).

Definition get_dow (t : Z) : option Z := f ← localtime z t; Some (tm_wday f).

Definition get_isdst (t : Z) : option Z := f ← localtime z t; Some (tm_isdst f).

(** ** Formatting *)

Definition abb_days : list bytes := str <$> ["Sun"; "Mon"; "Tue"; "Wed"; "Thu"; "Fri"; "Sat"]%string.
Definition full_days : list bytes :=
  str <$> ["Sunday"; "Monday"; "Tuesday"; "Wednesday"; "Thursday"; "Friday"; "Saturday"]%string.
Definition abb_months : list bytes :=
  str <$> ["Jan"; "Feb"; "Mar"; "Apr"; "May"; "Jun"; "Jul"; "Aug"; "Sep"; "Oct"; "Nov"; "Dec"]%string.
Definition full_months : list bytes :=
  str <$> ["January"; "February"; "March"; "April"; "May"; "June";
           "July"; "August"; "September"; "October"; "November"; "December"]%string.

Definition fmt_date (sep : bytes) (f : tm) : option bytes :=
  y ← cint (tm_year f + 1900); Some (fmt_zero 4 y ++ sep ++ fmt_zero 2 (tm_mon f + 1) ++ sep ++ fmt_zero 2 (tm_mday f)).
Definition fmt_time (sep : bytes) (f : tm) : bytes := fmt_zero 2 (tm_hour f) ++ sep ++ fmt_zero 2 (tm_min f).

(** %U *)
Definition week_U (f : tm) : Z :=
  let zeroweek_days := 7 - (tm_yday f `rem` 7 + tm_wday f) `rem` 7 in
  if tm_yday f <? zeroweek_days then 0 else (tm_yday f + 1 - zeroweek_days) `quot` 7 + 1.
(** %V and %W *)
Definition monday_zeroweek (f : tm) : Z :=
  let zeroweek_days := (tm_yday f `rem` 7 + tm_wday f) `rem` 7 in
  if zeroweek_days =? 0 then 7 else 8 - zeroweek_days.
Definition week_V (f : tm) : Z :=
  let zeroweek_days := monday_zeroweek f in
  if (tm_yday f <? zeroweek_days) && (zeroweek_days <? 4) then 53 else (tm_yday f + 1 - zeroweek_days) `quot` 7 + 1.
Definition week_W (f : tm) : Z :=
  let zeroweek_days := monday_zeroweek f in
  if tm_yday f <? zeroweek_days then 0 else (tm_yday f + 1 - zeroweek_days) `quot` 7 + 1.

(** The case Q has no [break], and goes on with the case R. *)
Definition conversion (f : tm) (c : Z) : option (option bytes) :=
  let print (s : bytes) := Some (Some s) in
  let on (s : string) := bool_decide ([c] = str s) in
  if on "a" then s ← abb_days !! Z.to_nat (tm_wday f); print s
  else if on "A" then s ← full_days !! Z.to_nat (tm_wday f); print s
  else if on "b" then s ← abb_months !! Z.to_nat (tm_mon f); print s
  else if on "B" then s ← full_months !! Z.to_nat (tm_mon f); print s
  else if on "c" then d ← fmt_date [] f; print (d ++ [32] ++ fmt_time [] f)
  else if on "C" then y ← cint (tm_year f + 1900); print (fmt_zero 2 (y `quot` 100))
  else if on "d" then print (fmt_zero 2 (tm_mday f))
  else if on "e" then print (fmt_dec 2 (tm_mday f))
  else if on "H" then print (fmt_zero 2 (tm_hour f))
  else if on "I" then print (fmt_zero 2 (if tm_hour f =? 0 then 12 else tm_hour f `rem` 12))
  else if on "j" then print (fmt_zero 3 (tm_yday f + 1))
  else if on "m" then print (fmt_zero 2 (tm_mon f + 1))
  else if on "M" then print (fmt_zero 2 (tm_min f))
  else if on "n" then print [10]
  else if on "p" then print (fmt_str 2 (str (if tm_hour f <? 12 then "AM" else "PM")))
  else if on "Q" then d ← fmt_date (str "-") f; print (d ++ fmt_time (str ":") f)
  else if on "R" then print (fmt_time (str ":") f)
  else if on "S" then print (fmt_zero 2 (tm_sec f))
  else if on "t" then print [9]
  else if on "u" then print (fmt_dec 1 (if tm_wday f =? 0 then 7 else tm_wday f))
  else if on "U" then print (fmt_zero 2 (week_U f))
  else if on "V" then print (fmt_zero 2 (week_V f))
  else if on "w" then print (fmt_dec 1 (tm_wday f))
  else if on "W" then print (fmt_zero 2 (week_W f))
  else if on "x" then d ← fmt_date [] f; print d
  else if on "X" then print (fmt_time [] f)
  else if on "y" then print (fmt_zero 2 (tm_year f `rem` 100))
  else if on "Y" then y ← cint (tm_year f + 1900); print (fmt_zero 4 y)
  else if on "Z" then print (fmt_str 3 (if tm_isdst f =? 1 then dst_name z else std_name z))
  else Some None.

(** The loop over the format; [cap] bytes can be written, [op] are. After a
    lone [%] at the end, [ip] is moved beyond the terminator. *)
Fixpoint fmt_loop (cap : nat) (f : tm) (ip op : bytes) : option bytes :=
  match ip with
  | [] => if bool_decide (length op < cap)%nat then Some op else None
  | c :: ip' =>
      if c =? 37 then
        match ip' with
        | [] => None
        | c :: ip' =>
            o ← conversion f c;
            match o with
            | Some s => op' ← sprintf cap (op ++ s); fmt_loop cap f ip' op'
            | None => fmt_loop cap f ip' op
            end
        end
      else if bool_decide (length op < cap)%nat then fmt_loop cap f ip' (op ++ [c]) else None
  end.

(** [output] is the size of the caller's buffer; the static one has 1024 bytes. *)
Definition fmt_dttime (t : Z) (format : bytes) (output : option nat) : option bytes :=
  f ← localtime z t; fmt_loop (default 1024%nat output) f format [].
End datetime.


(** ** Lemmas *)

Lemma cint_ok n : is_int n → cint n = Some n.
Proof. intros H. unfold cint. by rewrite decide_True. Qed.

Lemma cint_small n : 0 ≤ n ≤ INT_MAX → cint n = Some n.
Proof. intros H. apply cint_ok. unfold is_int. lia. Qed.

(** The day of the month is at most 31. *)
Lemma civil_mday f : civil f → 1 ≤ tm_mday f ≤ 31.
Proof. intros [_ _ _ Hm Hd]. pose proof (month_days_range (leap (tm_year f + 1900)) _ Hm). lia. Qed.

(** The integers of [get_datetime]. *)
Definition date_int (f : tm) : Z := (tm_year f + 1900) * 10000 + (tm_mon f + 1) * 100 + tm_mday f.
Definition time_int (get_seconds : bool) (f : tm) : Z :=
  let hm := tm_hour f * 100 + tm_min f in if get_seconds then hm * 100 + tm_sec f else hm.

Lemma get_datetime_exact z t f get_seconds :
  localtime z t = Some f → 0 ≤ tm_year f + 1900 ≤ 214747 →
  get_datetime z t get_seconds = Some (Datetime (date_int f) (time_int get_seconds f)).
Proof.
  intros Hl Hy. destruct (localtime_civil _ _ _ Hl) as (Hc & _ & _). pose proof (civil_mday f Hc) as Hd. destruct Hc as [_ _ _ Hm _].
  unfold get_datetime. rewrite Hl. cbn [mbind option_bind]. rewrite (cint_small (tm_year f + 1900)) by (unfold INT_MAX; lia). cbn [mbind option_bind].
  rewrite !cint_small by (unfold INT_MAX; lia). cbn [mbind option_bind]. rewrite cint_small by (unfold INT_MAX; lia).
  cbn [mbind option_bind]. rewrite cint_small by (unfold INT_MAX; lia). done.
Qed.

(** What [set_datetime] reads from a date, and from a time with or without seconds. *)
Lemma set_datetime_fields z f t :
  civil f → 0 ≤ tm_year f + 1900 ≤ 214747 →
  set_datetime z (Datetime (date_int f) t) = Some (mktime z
    (if 9999 <? t then fields (tm_year f) (tm_mon f) (tm_mday f) (t `quot` 100 `quot` 100) (t `quot` 100 `rem` 100) (t `rem` 100)
     else fields (tm_year f) (tm_mon f) (tm_mday f) (t `quot` 100) (t `rem` 100) 0)).
Proof.
  intros Hc Hy. pose proof (civil_mday f Hc) as Hd. destruct Hc as [_ _ _ Hm _].
  unfold set_datetime. cbn [date time]. rewrite (proj2 (Z.eqb_neq (date_int f) 0)) by (unfold date_int; lia).
  assert (Hq : date_int f `quot` 10000 = tm_year f + 1900) by (unfold date_int; cal).
  assert (Hr : date_int f `rem` 10000 = (tm_mon f + 1) * 100 + tm_mday f) by (unfold date_int; cal).
  rewrite Hq, Hr. rewrite cint_ok by (unfold is_int, INT_MAX; lia). cbn [mbind option_bind].
  replace (((tm_mon f + 1) * 100 + tm_mday f) `quot` 100 - 1) with (tm_mon f) by cal.
  replace (((tm_mon f + 1) * 100 + tm_mday f) `rem` 100) with (tm_mday f) by cal.
  replace (tm_year f + 1900 - 1900) with (tm_year f) by lia. by destruct (9999 <? t).
Qed.

Lemma secs_of_fields f hour min sec :
  secs_of (fields (tm_year f) (tm_mon f) (tm_mday f) hour min sec) =
  secs_of f + (hour - tm_hour f) * 3600 + (min - tm_min f) * 60 + (sec - tm_sec f).
Proof. unfold secs_of, fields. cbn [tm_year tm_mon tm_mday tm_hour tm_min tm_sec]. lia. Qed.

(** [mktime] of fields that the wall clock shows at [t']. *)
Lemma mktime_clock z t' f' :
  localtime z t' ≠ None → secs_of f' = wall z t' →
  wall z (mktime z f') = wall z t' ∧ (shown_once z t' → mktime z f' = t').
Proof.
  intros Hl Hs. destruct (localtime z t') as [g|] eqn:Hg; [|done]. apply mktime_wall; [done|].
  destruct (localtime_fields _ _ _ Hg) as [-> Hy]. exact Hy.
Qed.

Lemma mktime_shown z t' f' :
  localtime z t' ≠ None → shown_once z t' → secs_of f' = wall z t' → mktime z f' = t'.
Proof. intros Hl Hf Hs. by apply mktime_clock. Qed.

(** ** Properties *)

(** C36: dates and times survive the conversion to integers and back, but for
    the first hour of the day and the hour that the end of daylight saving
    repeats. Without seconds, [set_datetime] returns the minute that
    [get_datetime] was asked about; with seconds it returns the same time from
    01:00:00 on. From 00:00:01 to 00:59:59 the integer HHMMSS has at most four
    digits and is read as HHMM, so that 00:MM:SS comes back as MM:SS:00 on the
    same day. In each case [t'] is any time at which the clock shows what is to
    come back: the result is [t'] itself if the clock shows that once, and
    otherwise some time at which the clock shows the same. *)
Theorem datetime_roundtrip z t f t' (get_seconds : bool) :
  localtime z t = Some f → 0 ≤ tm_year f + 1900 ≤ 214747 → localtime z t' ≠ None →
  wall z t' = wall z t +
    (if get_seconds then if tm_hour f =? 0 then 59 * (tm_min f * 60 + tm_sec f) else 0 else - tm_sec f) →
  ∃ d r, get_datetime z t get_seconds = Some d ∧ set_datetime z d = Some r ∧
    wall z r = wall z t' ∧ (shown_once z t' → r = t').
Proof.
  intros Hl Hy Ht' Hw. exists (Datetime (date_int f) (time_int get_seconds f)). eexists.
  split; [by apply get_datetime_exact|]. destruct (localtime_civil _ _ _ Hl) as (Hc & Hs & _).
  split; [by rewrite set_datetime_fields|]. apply mktime_clock; [done|]. rewrite Hw, <-Hs. clear Hw.
  destruct Hc as [Hsec Hmin Hhour _ _]. unfold time_int. destruct get_seconds.
  - destruct (Z.eqb_spec (tm_hour f) 0) as [Hh|Hh].
    + rewrite (proj2 (Z.ltb_ge _ _)) by lia. rewrite secs_of_fields, Hh.
      replace (((0 * 100 + tm_min f) * 100 + tm_sec f) `quot` 100) with (tm_min f) by cal.
      replace (((0 * 100 + tm_min f) * 100 + tm_sec f) `rem` 100) with (tm_sec f) by cal. lia.
    + rewrite (proj2 (Z.ltb_lt _ _)) by lia. rewrite secs_of_fields. set (x := tm_hour f * 100 + tm_min f).
      replace ((x * 100 + tm_sec f) `quot` 100) with x by cal. replace ((x * 100 + tm_sec f) `rem` 100) with (tm_sec f) by cal.
      replace (x `quot` 100) with (tm_hour f) by (unfold x; cal). replace (x `rem` 100) with (tm_min f) by (unfold x; cal). lia.
  - rewrite (proj2 (Z.ltb_ge _ _)) by lia. rewrite secs_of_fields. set (x := tm_hour f * 100 + tm_min f).
    replace (x `quot` 100) with (tm_hour f) by (unfold x; cal). replace (x `rem` 100) with (tm_min f) by (unfold x; cal). lia.
Qed.

(** A zone whose daylight saving time of 2002 ended on 27 October at 07:00 UTC,
    when the clock went from 01:59:59 back to 01:00:00. *)
Definition central : zone :=
  Zone (-21600) (-18000) (λ t, (1018166400 <=? t) && (t <? 1035702000)) (λ _, false) (str "CST") (str "CDT").

(** 20 July 2002, 14:24:05, and the same day at 00:15:30; and 01:30:00 in the
    hour that is repeated, which comes back as the second such time. *)
Lemma datetime_roundtrip_witness :
  (∃ d r, get_datetime central 1027193045 true = Some d ∧ set_datetime central d = Some r ∧ r = 1027193045) ∧
  (∃ d r, get_datetime central 1027142130 true = Some d ∧ set_datetime central d = Some r ∧ r = 1027197000) ∧
  (∃ d r, get_datetime central 1035700200 true = Some d ∧ set_datetime central d = Some r ∧
     wall central r = wall central 1035700200 ∧ ¬ shown_once central 1035700200).
Proof.
  split; [|split].
  - destruct (datetime_roundtrip central 1027193045 (default (tm_of 0 0) (localtime central 1027193045)) 1027193045 true) as (d & r & H1 & H2 & _ & H3);
      [vm_compute; reflexivity|done|done|done|]. exists d, r. split; [exact H1|]. split; [exact H2|]. by apply H3.
  - destruct (datetime_roundtrip central 1027142130 (default (tm_of 0 0) (localtime central 1027142130)) 1027197000 true) as (d & r & H1 & H2 & _ & H3);
      [vm_compute; reflexivity|done|done|done|]. exists d, r. split; [exact H1|]. split; [exact H2|]. by apply H3.
  - destruct (datetime_roundtrip central 1035700200 (default (tm_of 0 0) (localtime central 1035700200)) 1035700200 true) as (d & r & H1 & H2 & H3 & _);
      [vm_compute; reflexivity|done|done|done|]. exists d, r. split_and!; [exact H1|exact H2|exact H3|by vm_compute].
Defined.

Lemma cstr_digits s rest : Forall (λ c, is_digit c = true) s → cstr (s ++ 0 :: rest) = s.
Proof.
  induction 1 as [|c s Hc _ IH]; [done|]. cbn [app cstr]. rewrite decide_False; [by rewrite IH|]. intros ->. done.
Qed.
Lemma cstr_two a b rest : Forall (λ c, is_digit c = true) [a; b] → cstr (a :: b :: 0 :: rest) = [a; b].
Proof. apply (cstr_digits [a; b]). Qed.
Lemma cstr_four a b c d rest : Forall (λ c, is_digit c = true) [a; b; c; d] → cstr (a :: b :: c :: d :: 0 :: rest) = [a; b; c; d].
Proof. apply (cstr_digits [a; b; c; d]). Qed.

(** The string YYYYMMDD HHMMSS of fields with the right number of digits. *)
Lemma set_yyyymmdd_exact z Y M D h m s year mon mday hour min sec :
  length Y = 4%nat → length M = 2%nat → length D = 2%nat → length h = 2%nat → length m = 2%nat → length s = 2%nat →
  Forall (Forall (λ c, is_digit c = true)) [Y; M; D; h; m; s] →
  atoi Y = Some year → atoi M = Some mon → atoi D = Some mday → atoi h = Some hour → atoi m = Some min → atoi s = Some sec →
  set_yyyymmdd_datetime z (Y ++ M ++ D ++ [32] ++ h ++ m ++ s) = Some (mktime z (fields (year - 1900) (mon - 1) mday hour min sec)).
Proof.
  intros LY LM LD Lh Lm Ls Hd AY AM AD Ah Am As. rewrite !Forall_cons in Hd. destruct Hd as (DY & DM & DD & Dh & Dm & Ds & _).
  unfold set_yyyymmdd_datetime.
  destruct Y as [|y1 [|y2 [|y3 [|y4 [|]]]]]; try done. destruct M as [|m1 [|m2 [|]]]; try done.
  destruct D as [|d1 [|d2 [|]]]; try done. destruct h as [|h1 [|h2 [|]]]; try done.
  destruct m as [|n1 [|n2 [|]]]; try done. destruct s as [|s1 [|s2 [|]]]; try done.
  cbn [app length]. do 3 (case_bool_decide; [try lia|try lia]). cbn [negb andb]. rewrite bool_decide_eq_true_2 by lia.
  cbn [drop]. rewrite As. cbn [mbind option_bind insert list_insert drop].
  rewrite (cstr_two n1 n2), Am by done. cbn [mbind option_bind insert list_insert drop].
  rewrite (cstr_two h1 h2), Ah by done. cbn [mbind option_bind insert list_insert drop].
  rewrite (cstr_two d1 d2), AD by done. cbn [mbind option_bind insert list_insert drop].
  rewrite (cstr_two m1 m2), AM by done. cbn [mbind option_bind insert list_insert drop].
  rewrite cstr_four, AY by done. done.
Qed.

Lemma fmt_two x : 0 ≤ x < 100 → length (fmt_zero 2 x) = 2%nat ∧ Forall (λ c, is_digit c = true) (fmt_zero 2 x) ∧ atoi (fmt_zero 2 x) = Some x.
Proof. intros. apply fmt_zero_spec; [lia|done|unfold is_int, INT_MAX; lia]. Qed.

Lemma fmt_four x : 0 ≤ x < 10000 → length (fmt_zero 4 x) = 4%nat ∧ Forall (λ c, is_digit c = true) (fmt_zero 4 x) ∧ atoi (fmt_zero 4 x) = Some x.
Proof. intros. apply fmt_zero_spec; [lia|done|unfold is_int, INT_MAX; lia]. Qed.

(** Dates and times survive being printed and read. The format %c%S makes a
    string of 15 characters, from which [set_yyyymmdd_datetime] gets the same
    time back, in every year of four digits. *)
Lemma date_string_roundtrip z t f output :
  localtime z t = Some f → 0 ≤ tm_year f + 1900 ≤ 9999 → shown_once z t → (15 < default 1024 output)%nat →
  ∃ s, fmt_dttime z t (str "%c%S") output = Some s ∧ length s = 15%nat ∧ set_yyyymmdd_datetime z s = Some t.
Proof.
  intros Hl Hy Hf Hcap. destruct (localtime_civil _ _ _ Hl) as (Hc & Hs & _). pose proof (civil_mday f Hc) as Hd.
  destruct Hc as [Hsec Hmin Hhour Hmon _].
  destruct (fmt_four (tm_year f + 1900) ltac:(lia)) as (LY & DY & AY), (fmt_two (tm_mon f + 1) ltac:(lia)) as (LM & DM & AM),
    (fmt_two (tm_mday f) ltac:(lia)) as (LD & DD & AD), (fmt_two (tm_hour f) ltac:(lia)) as (Lh & Dh & Ah),
    (fmt_two (tm_min f) ltac:(lia)) as (Lm & Dm & Am), (fmt_two (tm_sec f) ltac:(lia)) as (Ls & Ds & As).
  exists (fmt_zero 4 (tm_year f + 1900) ++ fmt_zero 2 (tm_mon f + 1) ++ fmt_zero 2 (tm_mday f) ++ [32] ++
          fmt_zero 2 (tm_hour f) ++ fmt_zero 2 (tm_min f) ++ fmt_zero 2 (tm_sec f)).
  split; [|split].
  - assert (Hdate : fmt_date [] f = Some (fmt_zero 4 (tm_year f + 1900) ++ fmt_zero 2 (tm_mon f + 1) ++ fmt_zero 2 (tm_mday f))).
    { unfold fmt_date. by rewrite cint_small by (unfold INT_MAX; lia). }
    assert (C1 : conversion z f 99 = (d ← fmt_date [] f; Some (Some (d ++ [32] ++ fmt_time [] f)))) by reflexivity.
    assert (C2 : conversion z f 83 = Some (Some (fmt_zero 2 (tm_sec f)))) by reflexivity.
    unfold fmt_dttime. rewrite Hl. change (str "%c%S") with [37; 99; 37; 83]. cbn [mbind option_bind fmt_loop].
    change (37 =? 37) with true. cbv iota. rewrite C1, Hdate, C2. cbn [mbind option_bind].
    unfold sprintf, fmt_time. rewrite bool_decide_eq_true_2; [|rewrite !length_app; cbn [length]; lia]. cbn [mbind option_bind].
    rewrite bool_decide_eq_true_2; [|rewrite !length_app; cbn [length]; lia]. cbn [mbind option_bind].
    rewrite bool_decide_eq_true_2; [|rewrite !length_app; cbn [length]; lia]. by rewrite <-!app_assoc.
  - rewrite !length_app. cbn [length]. lia.
  - rewrite (set_yyyymmdd_exact z _ _ _ _ _ _ (tm_year f + 1900) (tm_mon f + 1) (tm_mday f) (tm_hour f) (tm_min f) (tm_sec f))
      by (rewrite ?Forall_cons; done). f_equal. eapply mktime_localtime; [done| |done].
    replace (tm_year f + 1900 - 1900) with (tm_year f) by lia. replace (tm_mon f + 1 - 1) with (tm_mon f) by lia.
    rewrite secs_of_fields. lia.
Qed.

(** *** Days, weeks and months *)

(** [t'] is [n] days after [t], at the same time of the day. *)
Definition days_later (z : zone) (t n t' : Z) : Prop :=
  shown_once z t' ∧ localtime z t' ≠ None ∧ wall z t' = wall z t + n * 86400.

Lemma day_of_shift year mon mday n : day_of year mon (mday + n) = day_of year mon mday + n.
Proof. unfold day_of. lia. Qed.

Lemma day_of_next year mon mday :
  0 ≤ mon < 12 → day_of year (mon + 1) mday = day_of year mon mday + month_days (leap (year + 1900)) mon.
Proof.
  intros Hm. unfold day_of, month_days. rewrite (Z.div_small mon), (Z.mod_small mon), Z.add_0_r by lia.
  destruct (decide (mon = 11)) as [->|Hne].
  - change ((11 + 1) `div` 12) with 1. change ((11 + 1) `mod` 12) with 0. rewrite month_start_0, year_days_succ.
    unfold year_days. change (11 + 1) with 12. lia.
  - rewrite Z.div_small, Z.mod_small, Z.add_0_r by lia. lia.
Qed.

(** Another day of the same month, or one that is counted from it. *)
Lemma set_mday_later z t f n t' :
  localtime z t = Some f → days_later z t n t' → mktime z (set_tm_mday (tm_mday f + n) f) = t'.
Proof.
  intros Hl (Hf & Hn & Hw). apply mktime_shown; [done..|]. destruct (localtime_civil _ _ _ Hl) as (_ & Hs & _).
  rewrite Hw, <-Hs. unfold secs_of, set_tm_mday. cbn [tm_year tm_mon tm_mday tm_hour tm_min tm_sec]. rewrite day_of_shift. lia.
Qed.

Lemma later_fields z t f n t' g :
  localtime z t = Some f → days_later z t n t' → localtime z t' = Some g →
  tm_wday g = (tm_wday f + n) `mod` 7 ∧ tm_hour g = tm_hour f ∧ tm_min g = tm_min f ∧ tm_sec g = tm_sec f ∧
  (1 ≤ tm_mday f + n ≤ month_days (leap (tm_year f + 1900)) (tm_mon f) →
   tm_mday g = tm_mday f + n ∧ tm_mon g = tm_mon f ∧ tm_year g = tm_year f).
Proof.
  intros Hl (_ & _ & Hw) Hg. destruct (localtime_civil _ _ _ Hl) as (Hc & Hs & _).
  apply localtime_fields in Hl as [-> _]. apply localtime_fields in Hg as [-> _]. rewrite Hw. unfold tm_of at 1 2 3 4 5 6 7 8.
  cbn [tm_wday tm_hour tm_min tm_sec]. set (u := wall z t) in *.
  assert (Hq : (u + n * 86400) `div` 86400 = u `div` 86400 + n) by cal.
  assert (Hr : (u + n * 86400) `mod` 86400 = u `mod` 86400) by cal. rewrite Hq, Hr. split_and!; [cal|done..|].
  set (f := tm_of u _) in *. intros Hd. destruct Hc as [C1 C2 C3 C4 C5].
  destruct (tm_of_secs (set_tm_mday (tm_mday f + n) f) (if in_dst z t' then 1 else 0)) as (_ & _ & _ & T4 & T5 & T6 & _).
  { by split. }
  assert (Hsecs : secs_of (set_tm_mday (tm_mday f + n) f) = u + n * 86400).
  { rewrite <-Hs. unfold secs_of, set_tm_mday. cbn [tm_year tm_mon tm_mday tm_hour tm_min tm_sec]. rewrite day_of_shift. lia. }
  rewrite Hsecs in *. split_and!; [exact T4|exact T5|exact T6].
Qed.

(** Weeks and months. [get_week_start] and [get_week_end] return the Sunday
    before and the Saturday after a time, [get_month_start] and
    [get_month_end] the first and the last day of its month and year, all at
    the same time of the day, wherever the wall clock shows that time. *)
Lemma week_month_bounds z t f w1 w2 m1 m2 :
  let last := month_days (leap (tm_year f + 1900)) (tm_mon f) in
  localtime z t = Some f →
  days_later z t (- tm_wday f) w1 → days_later z t (6 - tm_wday f) w2 →
  days_later z t (1 - tm_mday f) m1 → days_later z t (last - tm_mday f) m2 →
  get_week_start z t = Some w1 ∧ get_dow z w1 = Some 0 ∧ get_week_end z t = Some w2 ∧ get_dow z w2 = Some 6 ∧
  get_month_start z t = Some m1 ∧ get_month_end z t = Some m2 ∧
  (∀ g, localtime z m1 = Some g → tm_mday g = 1 ∧ tm_mon g = tm_mon f ∧ tm_year g = tm_year f) ∧
  (∀ g, localtime z m2 = Some g → tm_mday g = last ∧ tm_mon g = tm_mon f ∧ tm_year g = tm_year f).
Proof.
  intros last Hl H1 H2 H3 H4. destruct (localtime_civil _ _ _ Hl) as (Hc & Hs & _).
  assert (Hwd : 0 ≤ tm_wday f < 7) by (destruct (localtime_fields _ _ _ Hl) as [-> _]; cbn; cal).
  destruct Hc as [_ _ _ Hm Hd]. fold last in Hd. pose proof (month_days_range (leap (tm_year f + 1900)) _ Hm) as Hr. fold last in Hr.
  assert (Hdow : ∀ n t' k, days_later z t n t' → (tm_wday f + n) `mod` 7 = k → get_dow z t' = Some k).
  { intros n t' k Ht <-. unfold get_dow. pose proof Ht as (_ & Hn & _). destruct (localtime z t') as [g|] eqn:Hg; [|done].
    cbn. f_equal. by apply (later_fields z t f n t' g). }
  unfold get_week_start, get_week_end, get_month_start, get_month_end. rewrite Hl. cbn [mbind option_bind]. split_and!.
  - f_equal. by apply (set_mday_later z t f (- tm_wday f)).
  - apply (Hdow _ _ _ H1). cal.
  - f_equal. replace (tm_mday f - tm_wday f + 6) with (tm_mday f + (6 - tm_wday f)) by lia. by apply set_mday_later with t.
  - apply (Hdow _ _ _ H2). cal.
  - f_equal. replace 1 with (tm_mday f + (1 - tm_mday f)) at 1 by lia. by apply set_mday_later with t.
  - f_equal. destruct H4 as (Hf & Hn & Hw). apply mktime_shown; [done..|]. rewrite Hw, <-Hs. unfold secs_of, set_tm_mday, set_tm_mon.
    cbn [tm_year tm_mon tm_mday tm_hour tm_min tm_sec]. rewrite day_of_next by done. fold last.
    pose proof (day_of_shift (tm_year f) (tm_mon f) 0 (tm_mday f)) as Hz. rewrite Z.add_0_l in Hz. rewrite Hz. lia.
  - intros g Hg. destruct (later_fields _ _ _ _ _ _ Hl H3 Hg) as (_ & _ & _ & _ & Hday). replace 1 with (tm_mday f + (1 - tm_mday f)) at 1 by lia.
    apply Hday. fold last. lia.
  - intros g Hg. destruct (later_fields _ _ _ _ _ _ Hl H4 Hg) as (_ & _ & _ & _ & Hday).
    replace last with (tm_mday f + (last - tm_mday f)) by lia. apply Hday. fold last. lia.
Qed.

(** Adding days moves the calendar; adding seconds, the clock on the wall. *)
Lemma add_days_exact z t f n t' :
  localtime z t = Some f → is_int (tm_mday f + n) → days_later z t n t' → add_days z t n = Some t'.
Proof.
  intros Hl Hn Ht. unfold add_days. rewrite Hl. cbn [mbind option_bind]. rewrite cint_ok by done. cbn. f_equal.
  by eapply set_mday_later.
Qed.

Lemma add_seconds_exact z t f n t' :
  localtime z t = Some f → is_int (tm_sec f + n) → shown_once z t' → localtime z t' ≠ None → wall z t' = wall z t + n →
  add_seconds z t n = Some t'.
Proof.
  intros Hl Hn Hf Ht' Hw. unfold add_seconds. rewrite Hl. cbn [mbind option_bind]. rewrite cint_ok by done. cbn. f_equal.
  apply mktime_shown; [done..|]. destruct (localtime_civil _ _ _ Hl) as (_ & Hs & _). rewrite Hw, <-Hs.
  unfold secs_of, set_tm_sec. cbn [tm_year tm_mon tm_mday tm_hour tm_min tm_sec]. lia.
Qed.

(** *** Formatting *)

(** Every [%] is followed by a character. *)
Fixpoint complete (format : bytes) : bool :=
  match format with
  | [] => true
  | c :: format' => if c =? 37 then match format' with [] => false | _ :: format'' => complete format'' end else complete format'
  end.

Lemma fmt_dec_short w x : 0 ≤ x < 100 → (w ≤ 2)%nat → (length (fmt_dec w x) ≤ 2)%nat.
Proof.
  intros Hx Hw. unfold fmt_dec. rewrite (proj2 (Z.ltb_ge x 0)) by lia. rewrite length_app, length_replicate.
  pose proof (digits_length 10 2 x Hx ltac:(lia)) as Hl. unfold decimal in *. lia.
Qed.

Lemma fmt_zero_short w x : (0 < w ≤ 4)%nat → 0 ≤ x < 10 ^ Z.of_nat w → length (fmt_zero w x) = w.
Proof.
  intros Hw Hx. apply fmt_zero_spec; [lia|done|]. assert (10 ^ Z.of_nat w ≤ 10 ^ 4) by (apply Z.pow_le_mono_r; lia).
  unfold is_int, INT_MAX. lia.
Qed.

Lemma names_short (l : list bytes) i :
  Forall (λ s : bytes, (length s ≤ 9)%nat) l → (i < length l)%nat → ∃ s, l !! i = Some s ∧ (length s ≤ 9)%nat.
Proof.
  intros Hl [s Hs]%lookup_lt_is_Some_2. exists s. split; [done|]. by eapply (proj1 (Forall_lookup _ _) Hl).
Qed.

Lemma fmt_zero_signed x : -100 < x < 100 → (length (fmt_zero 2 x) ≤ 3)%nat.
Proof.
  intros Hx. destruct (Z.ltb_spec x 0); [|rewrite fmt_zero_short by (cbn; lia); lia]. unfold fmt_zero.
  rewrite (proj2 (Z.ltb_lt x 0)) by done. cbn [length]. rewrite length_app, length_replicate.
  pose proof (digits_length 10 2 (- x)) as Hl. unfold decimal. cbn [Z.of_nat Z.pow] in Hl. lia.
Qed.

(** The fields that [localtime] fills, in a year of four digits. *)
Record printable (z : zone) (f : tm) : Prop := {
  pr_civil : civil f;
  pr_year : 0 ≤ tm_year f + 1900 ≤ 9999;
  pr_wday : 0 ≤ tm_wday f < 7;
  pr_yday : 0 ≤ tm_yday f < 366;
  pr_names : (length (std_name z) ≤ 15)%nat ∧ (length (dst_name z) ≤ 15)%nat;
}.

Lemma week_range z f : printable z f → 0 ≤ week_U f < 100 ∧ 0 ≤ week_V f < 100 ∧ 0 ≤ week_W f < 100.
Proof.
  intros [_ _ Hw Hy _]. unfold week_U, week_V, week_W, monday_zeroweek.
  assert (0 ≤ (tm_yday f `rem` 7 + tm_wday f) `rem` 7 < 7) as Hr by cal. set (r := _ `rem` 7) in *.
  split_and!; repeat case_match; cal.
Qed.

Lemma fmt_date_short sep f :
  civil f → 0 ≤ tm_year f + 1900 ≤ 9999 →
  ∃ s, fmt_date sep f = Some s ∧ length s = (8 + 2 * length sep)%nat.
Proof.
  intros Hc Hy. pose proof (civil_mday f Hc) as Hd. destruct Hc as [_ _ _ Hm _]. unfold fmt_date.
  rewrite cint_small by (unfold INT_MAX; lia). eexists. split; [reflexivity|]. rewrite !length_app, !fmt_zero_short by (cbn; lia). lia.
Qed.

Lemma fmt_time_short sep f : civil f → length (fmt_time sep f) = (4 + length sep)%nat.
Proof. intros [_ ? ? _ _]. unfold fmt_time. rewrite !length_app, !fmt_zero_short by (cbn; lia). lia. Qed.

(** No conversion prints more than 15 characters. *)
Lemma conversion_short z f c :
  printable z f → ∃ o, conversion z f c = Some o ∧ (length (default [] o) ≤ 15)%nat.
Proof.
  intros Hp. pose proof Hp as [Hc Hy Hw Hyd Hn]. pose proof (civil_mday f Hc) as Hd. pose proof Hc as [Hs Hmi Hh Hm _].
  destruct (week_range z f Hp) as (HU & HV & HW).
  assert (Hname : ∀ l i, Forall (λ s : bytes, (length s ≤ 9)%nat) l → (i < length l)%nat →
    ∃ o, (s ← l !! i; Some (Some s)) = Some o ∧ (length (default [] o) ≤ 15)%nat).
  { intros l i Hl Hi. destruct (names_short l i Hl Hi) as (s & -> & ?). eexists. split; [reflexivity|]. cbn. lia. }
  assert (Hzero : ∀ w x, (0 < w ≤ 4)%nat → 0 ≤ x < 10 ^ Z.of_nat w →
    ∃ o : option bytes, Some (Some (fmt_zero w x)) = Some o ∧ (length (default [] o) ≤ 15)%nat).
  { intros w x ??. eexists. split; [reflexivity|]. change (length (fmt_zero w x) ≤ 15)%nat. rewrite fmt_zero_short by done. lia. }
  assert (Hdec : ∀ w x, (w ≤ 2)%nat → 0 ≤ x < 100 →
    ∃ o : option bytes, Some (Some (fmt_dec w x)) = Some o ∧ (length (default [] o) ≤ 15)%nat).
  { intros w x ??. eexists. split; [reflexivity|]. change (length (fmt_dec w x) ≤ 15)%nat. pose proof (fmt_dec_short w x). lia. }
  unfold conversion. rewrite !(cint_small (tm_year f + 1900)) by (unfold INT_MAX; lia).
  destruct (fmt_date_short [] f Hc Hy) as (d1 & -> & L1), (fmt_date_short (str "-") f Hc Hy) as (d2 & -> & L2).
  pose proof (fmt_time_short [] f Hc) as L3. pose proof (fmt_time_short (str ":") f Hc) as L4. cbn [mbind option_bind length str] in *.
  assert (Hstr : ∀ s : bytes, (length s ≤ 15)%nat → ∃ o : option bytes, Some (Some s) = Some o ∧ (length (default [] o) ≤ 15)%nat).
  { intros s ?. by exists (Some s). }
  repeat (case_bool_decide; [first
    [ apply Hzero; [lia|cbn [Z.of_nat Z.pow]; try assumption; repeat case_match; cal]
    | apply Hdec; [lia|repeat case_match; lia]
    | apply Hstr; rewrite ?length_app; cbn [length]; lia
    | idtac ]|]).
  - apply Hname; [repeat constructor|change (length abb_days) with 7%nat; lia].
  - apply Hname; [repeat (constructor; [cbn; lia|]); constructor|change (length full_days) with 7%nat; lia].
  - apply Hname; [repeat (constructor; [cbn; lia|]); constructor|change (length abb_months) with 12%nat; lia].
  - apply Hname; [repeat (constructor; [cbn; lia|]); constructor|change (length full_months) with 12%nat; lia].
  - apply Hstr. destruct (tm_hour f <? 12); cbn; lia.
  - apply Hstr. pose proof (fmt_zero_signed (tm_year f `rem` 100)) as Hz. assert (-100 < tm_year f `rem` 100 < 100) by cal. lia.
  - apply Hstr. unfold fmt_str. rewrite length_app, length_replicate. destruct (tm_isdst f =? 1); lia.
  - exists None. split; [done|cbn; lia].
Qed.

(** The loop stays within the buffer when there is room for eight bytes for
    every byte of the format. *)
Lemma fmt_loop_safe z f cap n : ∀ ip op,
  (length ip ≤ n)%nat → printable z f → complete ip = true → (length op + 8 * length ip < cap)%nat →
  ∃ s, fmt_loop z cap f ip op = Some s ∧ (length s ≤ length op + 8 * length ip)%nat.
Proof.
  induction n as [|n IH]; intros ip op Hn Hp Hc Hcap; (destruct ip as [|c ip]; cbn [fmt_loop complete length] in *; [|try lia]).
  1,2: exists op; rewrite bool_decide_eq_true_2 by lia; split; [done|lia].
  destruct (c =? 37) eqn:Hpc.
  - destruct ip as [|d ip]; [done|]. cbn [length] in *. destruct (conversion_short z f d Hp) as (o & -> & Ho). cbn [mbind option_bind].
    destruct o as [s|]; cbn in Ho.
    + unfold sprintf. rewrite bool_decide_eq_true_2 by (rewrite length_app; lia). cbn [mbind option_bind].
      destruct (IH ip (op ++ s)) as (s' & -> & Hl); [lia|done|done|rewrite length_app; lia|]. rewrite length_app in Hl. exists s'. split; [done|lia].
    + destruct (IH ip op) as (s' & -> & Hl); [lia|done|done|lia|]. exists s'. split; [done|lia].
  - rewrite bool_decide_eq_true_2 by lia. destruct (IH ip (op ++ [c])) as (s' & -> & Hl); [lia|done|done|rewrite length_app; cbn; lia|].
    rewrite length_app in Hl. cbn in Hl. exists s'. split; [done|lia].
Qed.

(** A lone [%] at the end leads out of the format. *)
Lemma fmt_loop_incomplete z f cap n : ∀ ip op,
  (length ip ≤ n)%nat → complete ip = false → fmt_loop z cap f ip op = None.
Proof.
  induction n as [|n IH]; intros ip op Hn Hc; (destruct ip as [|c ip]; cbn [fmt_loop complete length] in *; [done|try lia]).
  destruct (c =? 37).
  - destruct ip as [|d ip]; [done|]. cbn [length] in *. destruct (conversion z f d) as [[s|]|]; [|by apply IH; [lia|]|done].
    cbn [mbind option_bind]. destruct (sprintf cap (op ++ s)); [|done]. by apply IH; [lia|].
  - case_bool_decide; [|done]. by apply IH; [lia|].
Qed.

Lemma localtime_printable z t f :
  localtime z t = Some f → 0 ≤ tm_year f + 1900 ≤ 9999 →
  (length (std_name z) ≤ 15)%nat → (length (dst_name z) ≤ 15)%nat → printable z f.
Proof.
  intros Hl Hy H1 H2. destruct (localtime_civil _ _ _ Hl) as (Hc & _). apply localtime_fields in Hl as [-> _].
  pose proof (day_in_year (wall z t `div` 86400)) as Hd. cbv zeta in Hd.
  split; [done|done|cbn; cal| |done]. unfold tm_of. cbn [tm_yday]. set (y := year_of _) in *.
  assert (year_days (leap y) ≤ 366) by (destruct (leap y); vm_compute; discriminate). lia.
Qed.

(** C37: [fmt_dttime] ends within its buffers. With room for eight bytes per
    byte of the format it prints every conversion, in years of four digits;
    a format that ends in a lone [%] makes it read beyond the end of the
    format, whatever the buffer. *)
Theorem fmt_dttime_bounds z t f format output :
  localtime z t = Some f → 0 ≤ tm_year f + 1900 ≤ 9999 →
  (length (std_name z) ≤ 15)%nat → (length (dst_name z) ≤ 15)%nat →
  (8 * length format < default 1024 output)%nat →
  if complete format then
    ∃ s, fmt_dttime z t format output = Some s ∧ (length s ≤ 8 * length format)%nat
  else fmt_dttime z t format output = None.
Proof.
  intros Hl Hy H1 H2 Hcap. unfold fmt_dttime. rewrite Hl. cbn [mbind option_bind]. destruct (complete format) eqn:Hc.
  - by apply (fmt_loop_safe z f _ (length format)); [|eapply localtime_printable|..].
  - by apply (fmt_loop_incomplete z f _ (length format)).
Qed.

Lemma fmt_dttime_bounds_witness :
  (∃ s, fmt_dttime central 1027145730 (str "%A, %d %B %Y") None = Some s ∧ (length s ≤ 96)%nat) ∧
  fmt_dttime central 1027145730 (str "100%") None = None.
Proof.
  split;
    [apply (fmt_dttime_bounds central 1027145730 (Tm 30 15 1 20 6 102 6 200 1) (str "%A, %d %B %Y") None)
    |apply (fmt_dttime_bounds central 1027145730 (Tm 30 15 1 20 6 102 6 200 1) (str "100%") None)];
    first [vm_compute; reflexivity|vm_compute; intuition discriminate|cbn; lia].
Defined.

(** The comments of the source say otherwise: %I is to be 01 to 12 but is 00 at
    noon, and %Q is to be the date but is followed by the time. *)
Lemma conversion_I_noon z f : tm_hour f = 12 → conversion z f 73 = Some (Some (str "00")).
Proof. intros Hh. transitivity (Some (Some (fmt_zero 2 (if tm_hour f =? 0 then 12 else tm_hour f `rem` 12)))); [reflexivity|]. by rewrite Hh. Qed.

Lemma conversion_Q_time z f s :
  fmt_date (str "-") f = Some s → conversion z f 81 = Some (Some (s ++ fmt_time (str ":") f)).
Proof. intros Hs. transitivity (d ← fmt_date (str "-") f; Some (Some (d ++ fmt_time (str ":") f))); [reflexivity|]. by rewrite Hs. Qed.

(** The week that begins with the first Sunday of the year is week 1 of %U, but
    2 January 2000, a Sunday, is in week 0. *)
Lemma week_U_sunday :
  ∃ f, localtime central 946836000 = Some f ∧ tm_wday f = 0 ∧ (tm_yday f + 7 - tm_wday f) `div` 7 = 1 ∧ week_U f = 0.
Proof. eexists. split; [vm_compute; reflexivity|]. by vm_compute. Qed.

(** *** The time zone *)

(** What [getenv] finds. *)
Definition tz_value (s : tz_state) : option bytes :=
  match TZ s with
  | TzUnset => None
  | TzOwn v => Some v
  | TzSave => Some (drop 3 (tz_save s))
  | TzSet => Some (drop 3 (tz_set_string s))
  end.

(** The zone that was set is undone, once: the environment is then in the
    buffer that the next [set_tz] prints into while it reads from it. *)
Lemma tz_restored hr min daylight v s s1 :
  TZ s = TzOwn v → set_tz hr min daylight s = Some (1, s1) →
  ∃ s2, reset_tz s1 = Some (1, s2) ∧ tz_value s2 = Some v ∧ ∀ hr min daylight, set_tz hr min daylight s2 = None.
Proof.
  intros Hs. unfold set_tz at 1, tz_source at 1. rewrite Hs. cbn [mbind option_bind].
  destruct (sprintf 20 (str "TZ=" ++ v)) as [save|] eqn:Hsave; [|done]. cbn [mbind option_bind].
  assert (save = str "TZ=" ++ v) as -> by (unfold sprintf in Hsave; case_bool_decide; [congruence|done]).
  destruct (if min =? 0 then _ else _) as [ms|]; [|done]. cbn [mbind option_bind].
  match goal with |- context [sprintf 20 ?x] => destruct (sprintf 20 x) as [o|] end; [|done]. cbn [mbind option_bind].
  intros Heq. assert (s1 = TzState TzSet (str "TZ=" ++ v) o) as -> by (apply (inj Some) in Heq; by apply (f_equal snd) in Heq).
  unfold reset_tz. cbn [tz_save TZ tz_set_string]. rewrite bool_decide_eq_false_2 by done. eexists. split; [reflexivity|]. done.
Qed.
