(* ===== verification/Client.v ===== *)
(** * The client library (lib/mosquitto.c, lib/messages_mosq.c, lib/read_handle.c,
      lib/read_handle_client.c, lib/will_mosq.c, and what lib/net_mosq.c,
      lib/send_mosq.c, lib/send_client_mosq.c, lib/read_handle_shared.c and
      lib/util_mosq.c do without WITH_BROKER)

    [struct mosquitto] of the library has the fields it shares with the
    broker ([base]) and two linked lists of messages, one for each direction,
    in a heap of their own: the pointers to the last elements are kept by
    hand, and can go wrong. A message that is freed is taken out of the heap.
    The callbacks are recorded in the order in which they are called; they do
    not call the library themselves, so that [in_callback] is false whenever
    a packet is queued. *)

From stdpp Require Import base list numbers strings option sets gmap.
From Stdlib Require Import ZArith Lia.
From S2P Require Import Prelude Topic Packet State Store Send Messages Db Subs Acl Context Handlers.
Local Open Scope Z_scope.
Local Open Scope broker_scope.

(** [struct mosquitto_message_all] *)
Record message_all := MessageAll {
  ma_next : option ptr;
  ma_timestamp : Z;
  ma_state : msg_state;
  ma_dup : bool;
  ma_mid : Z;
  ma_msg : message;
}.

Definition eta_message_all (m : message_all) : message_all :=
  MessageAll (ma_next m) (ma_timestamp m) (ma_state m) (ma_dup m) (ma_mid m) (ma_msg m).
Definition set_ma_next f (m : message_all) : message_all := ltac:(setter eta_message_all ma_next f m).
Definition set_ma_timestamp f (m : message_all) : message_all := ltac:(setter eta_message_all ma_timestamp f m).
Definition set_ma_state f (m : message_all) : message_all := ltac:(setter eta_message_all ma_state f m).
Definition set_ma_dup f (m : message_all) : message_all := ltac:(setter eta_message_all ma_dup f m).

Inductive callback :=
| OnConnect (rc : Z)
| OnDisconnect (rc : Z)
| OnPublish (mid : Z)
| OnMessage (mid : Z) (m : message)
| OnSubscribe (mid : Z) (granted : list Z)
| OnUnsubscribe (mid : Z).

(** [struct mosquitto] of the library. *)
Record client := Client {
  base : mosquitto;
  threaded : bool;
  message_retry : Z;
  last_retry_check : Z;
  heap : gmap ptr message_all;
  in_messages : option ptr;
  in_messages_last : option ptr;
  out_messages : option ptr;
  out_messages_last : option ptr;
  in_queue_len : Z;
  out_queue_len : Z;
  inflight_messages : Z;
  max_inflight_messages : Z;
  callbacks : list callback;
}.

Definition eta_client (c : client) : client :=
  Client (base c) (threaded c) (message_retry c) (last_retry_check c) (heap c) (in_messages c) (in_messages_last c)
    (out_messages c) (out_messages_last c) (in_queue_len c) (out_queue_len c) (inflight_messages c)
    (max_inflight_messages c) (callbacks c).
Definition set_base f (c : client) : client := ltac:(setter eta_client base f c).
Definition set_message_retry f (c : client) : client := ltac:(setter eta_client message_retry f c).
Definition set_last_retry_check f (c : client) : client := ltac:(setter eta_client last_retry_check f c).
Definition set_cells f (c : client) : client := ltac:(setter eta_client heap f c).
Definition set_in_messages f (c : client) : client := ltac:(setter eta_client in_messages f c).
Definition set_in_messages_last f (c : client) : client := ltac:(setter eta_client in_messages_last f c).
Definition set_out_messages f (c : client) : client := ltac:(setter eta_client out_messages f c).
Definition set_out_messages_last f (c : client) : client := ltac:(setter eta_client out_messages_last f c).
Definition set_in_queue_len f (c : client) : client := ltac:(setter eta_client in_queue_len f c).
Definition set_out_queue_len f (c : client) : client := ltac:(setter eta_client out_queue_len f c).
Definition set_inflight f (c : client) : client := ltac:(setter eta_client inflight_messages f c).
Definition set_max_inflight f (c : client) : client := ltac:(setter eta_client max_inflight_messages f c).
Definition set_callbacks f (c : client) : client := ltac:(setter eta_client callbacks f c).

Definition on_base {A} (m : M mosquitto A) : M client A := λ c,
  '(a, b) ← m (base c); Some (a, set_base (λ _, b) c).
Definition upd_base (f : mosquitto → mosquitto) : M client unit := mmodify (set_base f).
Definition call_back (e : callback) : M client unit := mmodify (set_callbacks (λ l, l ++ [e])).

(** A message in the heap. *)
Definition deref (p : ptr) : M client message_all := λ c, m ← heap c !! p; Some (m, c).
Definition upd_cell (p : ptr) (f : message_all → message_all) : M client unit :=
  let* m := deref p in mmodify (set_cells <[p := f m]>).
Definition alloc (m : message_all) : M client ptr := λ c,
  let p := fresh (dom (heap c)) in Some (p, set_cells <[p := m]> c).
(** [_mosquitto_message_cleanup] *)
Definition lib_message_cleanup (p : ptr) : M client unit :=
  let* _ := deref p in mmodify (set_cells (delete p)).

Section client.
Context (now : Z).

(** ** Sending (lib/net_mosq.c, lib/send_mosq.c) *)

(** [_mosquitto_socket_close] *)
Definition lib_socket_close : M client unit := upd_base (set_sock (λ _, None)).

(** The first packet of the queue becomes the current one. *)
Definition sent_packet (b : mosquitto) : mosquitto :=
  set_next_msg_out (λ _, now + keepalive b) (next_packet b).

Fixpoint lib_write_loop (n : nat) : M client Z :=
  let* c := mget in
  match current_out_packet (base c) with
  | None => ret MOSQ_ERR_SUCCESS
  | Some p =>
      match n with
      | O => undefined
      | S n' =>
          let* r := on_base (write_current (Z.to_nat (to_process p))) in
          match r with
          | Some rc => ret rc
          | None =>
              if Z.land (command p) 0xF6 =? PUBLISH then
                call_back (OnPublish (pmid p)) ;;; upd_base sent_packet ;;; lib_write_loop n'
              else if Z.land (command p) 0xF0 =? DISCONNECT then
                lib_socket_close ;;; upd_base sent_packet ;;; call_back (OnDisconnect 0) ;;; ret MOSQ_ERR_SUCCESS
              else upd_base sent_packet ;;; lib_write_loop n'
          end
      end
  end.

Definition lib_packet_write : M client Z :=
  let* c := mget in
  match sock (base c) with
  | None => ret MOSQ_ERR_NO_CONN
  | Some _ =>
      upd_base (λ b, match current_out_packet b, out_packet b with
                     | None, _ :: _ => next_packet b
                     | _, _ => b
                     end) ;;;
      if decide (cstate (base c) = mosq_cs_connect_pending) then ret MOSQ_ERR_SUCCESS
      else
        let* c := mget in
        lib_write_loop (S (length (out_packet (base c))))
  end.

Definition lib_packet_queue (p : packet) : M client Z :=
  let p := Packet (payload p) (remaining_mult p) (remaining_length p) (packet_length p)
             (packet_length p) 0 (pmid p) (command p) (remaining_count p) in
  upd_base (set_out_packet (λ q, q ++ [p])) ;;;
  let* c := mget in
  if threaded c then ret MOSQ_ERR_SUCCESS else lib_packet_write.

Definition lib_alloc_then (p : packet) (k : packet → M client Z) : M client Z :=
  let '(rc, p) := _mosquitto_packet_alloc p in
  if rc =? MOSQ_ERR_SUCCESS then k p else ret rc.

Definition lib_send_command_with_mid (cmd m : Z) (d : bool) : M client Z :=
  lib_alloc_then (new_packet (if d then Z.lor cmd 8 else cmd) 2) (λ p,
    let* p := mlift (poke 0 (MOSQ_MSB m) p) in
    let* p := mlift (poke 1 (MOSQ_LSB m) p) in
    lib_packet_queue p).
Definition lib_send_simple_command (cmd : Z) : M client Z := lib_alloc_then (new_packet cmd 0) lib_packet_queue.

Definition lib_send_pingreq : M client Z :=
  let* rc := lib_send_simple_command PINGREQ in
  (if rc =? MOSQ_ERR_SUCCESS then upd_base (set_ping_t (λ _, now)) else ret tt) ;;;
  ret rc.
Definition lib_send_pingresp : M client Z := lib_send_simple_command PINGRESP.
Definition lib_send_disconnect : M client Z := lib_send_simple_command DISCONNECT.
Definition lib_send_puback (m : Z) : M client Z := lib_send_command_with_mid PUBACK m false.
Definition lib_send_pubrec (m : Z) : M client Z := lib_send_command_with_mid PUBREC m false.
Definition lib_send_pubcomp (m : Z) : M client Z := lib_send_command_with_mid PUBCOMP m false.
Definition lib_send_pubrel (m : Z) : M client Z := lib_send_command_with_mid (Z.lor PUBREL 2) m false.

Definition lib_send_real_publish (m : Z) (topic pl : bytes) (q : Z) (r d : bool) : M client Z :=
  let packetlen := 2 + slen topic + slen pl + (if 0 <? q then 2 else 0) in
  let p := Packet None 0 (u32 packetlen) 0 0 0 m (publish_command q r d) 0 in
  lib_alloc_then p (λ p,
    let* p := mlift (_mosquitto_write_string topic (u16 (slen topic)) p) in
    let* p := if 0 <? q then mlift (_mosquitto_write_uint16 m p) else ret p in
    let* p := if slen pl =? 0 then ret p else mlift (_mosquitto_write_bytes pl (slen pl) p) in
    lib_packet_queue p).

Definition lib_send_publish (m : Z) (topic pl : bytes) (q : Z) (r d : bool) : M client Z :=
  let* c := mget in
  match sock (base c) with
  | None => ret MOSQ_ERR_NO_CONN
  | Some _ => lib_send_real_publish m topic pl q r d
  end.

(** The PUBLISH of a message of the queue. *)
Definition send_msg (m : message_all) : M client Z :=
  lib_send_publish (ma_mid m) (m_topic (ma_msg m)) (m_payload (ma_msg m)) (m_qos (ma_msg m)) (m_retain (ma_msg m)) (ma_dup m).

Definition lib_send_connect (ka : Z) (clean : bool) : M client Z :=
  let* c := mget in
  let b := base c in
  let* clientid := mlift (id b) in
  match (match protocol b with
         | mosq_p_mqtt31 => Some (MQTT_PROTOCOL_V31, 12, str "MQIsdp")
         | mosq_p_mqtt311 => Some (MQTT_PROTOCOL_V311, 10, str "MQTT")
         | _ => None
         end) with
  | None => ret MOSQ_ERR_INVAL
  | Some (version, headerlen, name) =>
      let payloadlen :=
        2 + slen clientid
        + (match will b with Some w => 2 + slen (m_topic w) + 2 + slen (m_payload w) | None => 0 end)
        + (match username b with
           | Some u => 2 + slen u + (match password b with Some w => 2 + slen w | None => 0 end)
           | None => 0
           end) in
      lib_alloc_then (new_packet CONNECT (headerlen + payloadlen)) (λ p,
        let* p := mlift (_mosquitto_write_string name (slen name) p) in
        let* p := mlift (_mosquitto_write_byte version p) in
        let* p := mlift (_mosquitto_write_byte
          (connect_flags clean (will b) (bool_decide (is_Some (username b))) (bool_decide (is_Some (password b)))) p) in
        let* p := mlift (_mosquitto_write_uint16 ka p) in
        let* p := mlift (_mosquitto_write_string clientid (u16 (slen clientid)) p) in
        let* p := mlift (write_opt (m_topic <$> will b) p) in
        let* p := mlift (write_opt (m_payload <$> will b) p) in
        let* p := mlift (write_opt (username b) p) in
        let* p := mlift (if bool_decide (is_Some (username b)) then write_opt (password b) p else Some p) in
        upd_base (set_keepalive (λ _, ka)) ;;;
        lib_packet_queue p)
  end.

(** The code and the message id. *)
Definition lib_send_subscribe (topic : bytes) (topic_qos : Z) : M client (Z * Z) :=
  let '(rc, p) := _mosquitto_packet_alloc
                    (new_packet (Z.lor SUBSCRIBE (Z.shiftl 1 1)) (2 + 2 + slen topic + 1)) in
  if rc =? MOSQ_ERR_SUCCESS then
    let* m := on_base _mosquitto_mid_generate in
    let* p := mlift (_mosquitto_write_uint16 m p) in
    let* p := mlift (_mosquitto_write_string topic (u16 (slen topic)) p) in
    let* p := mlift (_mosquitto_write_byte topic_qos p) in
    let* rc := lib_packet_queue p in
    ret (rc, m)
  else ret (rc, 0).

Definition lib_send_unsubscribe (topic : bytes) : M client (Z * Z) :=
  let '(rc, p) := _mosquitto_packet_alloc
                    (new_packet (Z.lor UNSUBSCRIBE (Z.shiftl 1 1)) (2 + 2 + slen topic)) in
  if rc =? MOSQ_ERR_SUCCESS then
    let* m := on_base _mosquitto_mid_generate in
    let* p := mlift (_mosquitto_write_uint16 m p) in
    let* p := mlift (_mosquitto_write_string topic (u16 (slen topic)) p) in
    let* rc := lib_packet_queue p in
    ret (rc, m)
  else ret (rc, 0).

(** ** The queues of messages (lib/messages_mosq.c)

    The loops follow [next]; as no list is longer than the heap, the size of
    the heap is enough fuel. *)

Definition fuel : M client nat := mgets (λ c, size (heap c)).

(** [_mosquitto_message_queue]: 1 when the message has to wait. *)
Definition lib_message_queue (p : ptr) (dir : msg_direction) : M client Z :=
  match dir with
  | mosq_md_out =>
      mmodify (set_out_queue_len (λ n, n + 1)) ;;;
      upd_cell p (set_ma_next (λ _, None)) ;;;
      let* c := mget in
      (match out_messages_last c with
       | Some last => upd_cell last (set_ma_next (λ _, Some p))
       | None => mmodify (set_out_messages (λ _, Some p))
       end) ;;;
      mmodify (set_out_messages_last (λ _, Some p)) ;;;
      let* m := deref p in
      if 0 <? m_qos (ma_msg m) then
        if (max_inflight_messages c =? 0) || (inflight_messages c <? max_inflight_messages c)
        then mmodify (set_inflight (λ n, n + 1)) ;;; ret 0
        else ret 1
      else ret 0
  | mosq_md_in =>
      mmodify (set_in_queue_len (λ n, n + 1)) ;;;
      upd_cell p (set_ma_next (λ _, None)) ;;;
      let* c := mget in
      (match in_messages_last c with
       | Some last => upd_cell last (set_ma_next (λ _, Some p))
       | None => mmodify (set_in_messages (λ _, Some p))
       end) ;;;
      mmodify (set_in_messages_last (λ _, Some p)) ;;;
      ret 0
  end.

(** [_mosquitto_message_cleanup_all] *)
Fixpoint free_messages (n : nat) (p : option ptr) : M client unit :=
  match p, n with
  | None, _ => ret tt
  | Some _, O => undefined
  | Some p, S n' =>
      let* m := deref p in
      lib_message_cleanup p ;;;
      free_messages n' (ma_next m)
  end.
Definition lib_message_cleanup_all : M client unit :=
  let* n := fuel in
  let* c := mget in
  free_messages n (in_messages c) ;;;
  mmodify (set_in_messages (λ _, None)) ;;;
  free_messages n (out_messages c) ;;;
  mmodify (set_out_messages (λ _, None)).

(** The incoming messages of QoS other than 2 are removed. When the first
    one is, the one after it is taken for granted: it is dereferenced even if
    there is none, and not looked at. *)
Fixpoint reset_in (n : nat) (prev message : option ptr) : M client (option ptr) :=
  match message with
  | None => ret prev
  | Some p =>
      match n with
      | O => undefined
      | S n' =>
          mmodify (set_in_queue_len (λ k, k + 1)) ;;;
          upd_cell p (set_ma_timestamp (λ _, 0)) ;;;
          let* m := deref p in
          let* cur := if negb (m_qos (ma_msg m) =? 2) then
                        match prev with
                        | Some q =>
                            upd_cell q (set_ma_next (λ _, ma_next m)) ;;;
                            lib_message_cleanup p ;;;
                            ret (Some q)
                        | None =>
                            mmodify (set_in_messages (λ _, ma_next m)) ;;;
                            lib_message_cleanup p ;;;
                            ret (ma_next m)
                        end
                      else ret (Some p) in
          let* cur := mlift cur in
          let* m := deref cur in
          reset_in n' (Some cur) (ma_next m)
      end
  end.

Fixpoint reset_out_msgs (n : nat) (prev message : option ptr) : M client (option ptr) :=
  match message with
  | None => ret prev
  | Some p =>
      match n with
      | O => undefined
      | S n' =>
          mmodify (set_out_queue_len (λ k, k + 1)) ;;;
          upd_cell p (set_ma_timestamp (λ _, 0)) ;;;
          let* m := deref p in
          let* c := mget in
          (if (max_inflight_messages c =? 0) || (inflight_messages c <? max_inflight_messages c) then
             (if 0 <? m_qos (ma_msg m) then mmodify (set_inflight (λ k, k + 1)) else ret tt) ;;;
             (if m_qos (ma_msg m) =? 1 then upd_cell p (set_ma_state (λ _, mosq_ms_wait_for_puback)) else ret tt)
           else upd_cell p (set_ma_state (λ _, mosq_ms_invalid))) ;;;
          reset_out_msgs n' (Some p) (ma_next m)
      end
  end.

(** [prev] is not reset between the two loops. *)
Definition lib_messages_reconnect_reset : M client unit :=
  let* n := fuel in
  let* c := mget in
  mmodify (set_in_queue_len (λ _, 0)) ;;;
  let* prev := reset_in n None (in_messages c) in
  mmodify (set_in_messages_last (λ _, prev)) ;;;
  mmodify (set_inflight (λ _, 0)) ;;;
  mmodify (set_out_queue_len (λ _, 0)) ;;;
  let* prev := reset_out_msgs n prev (out_messages c) in
  mmodify (set_out_messages_last (λ _, prev)).

(** The first message with the id, and the one before it. *)
Fixpoint find_mid (n : nat) (mid : Z) (prev cur : option ptr) : M client (option (option ptr * ptr)) :=
  match cur with
  | None => ret None
  | Some p =>
      match n with
      | O => undefined
      | S n' =>
          let* m := deref p in
          if ma_mid m =? mid then ret (Some (prev, p)) else find_mid n' mid (Some p) (ma_next m)
      end
  end.

(** Messages that waited are sent, as far as the limit allows. *)
Fixpoint start_waiting (n : nat) (cur : option ptr) : M client Z :=
  match cur with
  | None => ret MOSQ_ERR_SUCCESS
  | Some p =>
      match n with
      | O => undefined
      | S n' =>
          let* c := mget in
          if (max_inflight_messages c =? 0) || (inflight_messages c <? max_inflight_messages c) then
            let* m := deref p in
            let* rc := if (0 <? m_qos (ma_msg m)) && bool_decide (ma_state m = mosq_ms_invalid) then
                         mmodify (set_inflight (λ k, k + 1)) ;;;
                         (if m_qos (ma_msg m) =? 1 then upd_cell p (set_ma_state (λ _, mosq_ms_wait_for_puback))
                          else if m_qos (ma_msg m) =? 2 then upd_cell p (set_ma_state (λ _, mosq_ms_wait_for_pubrec))
                          else ret tt) ;;;
                         send_msg m
                       else ret 0 in
            if rc =? 0 then start_waiting n' (ma_next m) else ret rc
          else ret MOSQ_ERR_SUCCESS
      end
  end.

(** [_mosquitto_message_remove]: the code and the message, which is no longer
    in the list. *)
Definition lib_message_remove (mid : Z) (dir : msg_direction) : M client (Z * option ptr) :=
  let* n := fuel in
  let* c := mget in
  match dir with
  | mosq_md_out =>
      let* r := find_mid n mid None (out_messages c) in
      match r with
      | None => ret (MOSQ_ERR_NOT_FOUND, None)
      | Some (prev, cur) =>
          let* m := deref cur in
          (match prev with
           | Some q => upd_cell q (set_ma_next (λ _, ma_next m))
           | None => mmodify (set_out_messages (λ _, ma_next m))
           end) ;;;
          mmodify (set_out_queue_len (λ k, k - 1)) ;;;
          let* c := mget in
          (if bool_decide (ma_next m = None) then mmodify (set_out_messages_last (λ _, prev))
           else if bool_decide (out_messages c = None) then mmodify (set_out_messages_last (λ _, None)) else ret tt) ;;;
          (if 0 <? m_qos (ma_msg m) then mmodify (set_inflight (λ k, k - 1)) else ret tt) ;;;
          let* c := mget in
          let* rc := start_waiting n (out_messages c) in
          ret (rc, Some cur)
      end
  | mosq_md_in =>
      let* r := find_mid n mid None (in_messages c) in
      match r with
      | None => ret (MOSQ_ERR_NOT_FOUND, None)
      | Some (prev, cur) =>
          let* m := deref cur in
          (match prev with
           | Some q => upd_cell q (set_ma_next (λ _, ma_next m))
           | None => mmodify (set_in_messages (λ _, ma_next m))
           end) ;;;
          mmodify (set_in_queue_len (λ k, k - 1)) ;;;
          let* c := mget in
          (if bool_decide (ma_next m = None) then mmodify (set_in_messages_last (λ _, prev))
           else if bool_decide (in_messages c = None) then mmodify (set_in_messages_last (λ _, None)) else ret tt) ;;;
          ret (MOSQ_ERR_SUCCESS, Some cur)
      end
  end.

(** [_mosquitto_message_delete] *)
Definition lib_message_delete (mid : Z) (dir : msg_direction) : M client Z :=
  let* (rc, message) := lib_message_remove mid dir in
  (if rc =? MOSQ_ERR_SUCCESS then let* p := mlift message in lib_message_cleanup p else ret tt) ;;;
  ret rc.

(** [_mosquitto_message_retry_check_actual] *)
Fixpoint retry_check (n : nat) (messages : option ptr) : M client unit :=
  match messages with
  | None => ret tt
  | Some p =>
      match n with
      | O => undefined
      | S n' =>
          let* m := deref p in
          let* c := mget in
          (if ma_timestamp m + message_retry c <? now then
             let again := upd_cell p (λ m, set_ma_dup (λ _, true) (set_ma_timestamp (λ _, now) m)) in
             match ma_state m with
             | mosq_ms_wait_for_puback | mosq_ms_wait_for_pubrec =>
                 again ;;; let* m := deref p in let* _ := send_msg m in ret tt
             | mosq_ms_wait_for_pubrel => again ;;; let* _ := lib_send_pubrec (ma_mid m) in ret tt
             | mosq_ms_wait_for_pubcomp => again ;;; let* _ := lib_send_pubrel (ma_mid m) in ret tt
             | _ => ret tt
             end
           else ret tt) ;;;
          let* m := deref p in
          retry_check n' (ma_next m)
      end
  end.
Definition lib_message_retry_check : M client unit :=
  let* n := fuel in
  let* c := mget in
  retry_check n (out_messages c) ;;;
  let* c := mget in
  retry_check n (in_messages c).

(** [_mosquitto_message_out_update] *)
Definition lib_message_out_update (mid : Z) (state : msg_state) : M client Z :=
  let* n := fuel in
  let* c := mget in
  let* r := find_mid n mid None (out_messages c) in
  match r with
  | None => ret MOSQ_ERR_NOT_FOUND
  | Some (_, p) =>
      upd_cell p (λ m, set_ma_timestamp (λ _, now) (set_ma_state (λ _, state) m)) ;;;
      ret MOSQ_ERR_SUCCESS
  end.

Definition mosquitto_message_retry_set (retry : Z) : M client unit := mmodify (set_message_retry (λ _, retry)).
Definition mosquitto_max_inflight_messages_set (n : Z) : M client Z :=
  mmodify (set_max_inflight (λ _, n)) ;;; ret MOSQ_ERR_SUCCESS.

(** ** The handlers (lib/read_handle.c, lib/read_handle_client.c,
    lib/read_handle_shared.c) *)

Definition lib_read {A} (r : reader A) : M client (Z + A) := on_base (read_in r).

Definition lib_handle_pingreq : M client Z := lib_send_pingresp.
Definition lib_handle_pingresp : M client Z := upd_base (set_ping_t (λ _, 0)) ;;; ret MOSQ_ERR_SUCCESS.

Definition lib_handle_pubackcomp : M client Z :=
  returns (
    let? mid := lib_read _mosquitto_read_uint16 in
    let? rc := lift_m (lib_message_delete mid mosq_md_out) in
    let? _ := lift_m (if rc =? 0 then call_back (OnPublish mid) else ret tt) in
    done_with MOSQ_ERR_SUCCESS).

Definition lib_handle_pubrec : M client Z :=
  returns (
    let? mid := lib_read _mosquitto_read_uint16 in
    let? rc := lift_m (lib_message_out_update mid mosq_ms_wait_for_pubcomp) in
    if negb (rc =? MOSQ_ERR_NOT_FOUND) && negb (rc =? MOSQ_ERR_SUCCESS) then fail rc
    else lift_m (lib_send_pubrel mid)).

Definition lib_handle_pubrel : M client Z :=
  returns (
    let? c := lift_m mget in
    if bad_flags (base c) 0x02 then fail MOSQ_ERR_PROTOCOL
    else
      let? mid := lib_read _mosquitto_read_uint16 in
      let? res := lift_m (lib_message_remove mid mosq_md_in) in
      let? _ := lift_m (match res with
                        | (0, Some p) =>
                            let* m := deref p in
                            call_back (OnMessage (ma_mid m) (ma_msg m)) ;;; lib_message_cleanup p
                        | _ => ret tt
                        end) in
      lift_m (lib_send_pubcomp mid)).

Fixpoint lib_suback_loop (n : nat) (count : Z) (granted : list Z) : M client (Z + list Z) :=
  let? c := lift_m mget in
  if pos (c_in_packet (base c)) <? remaining_length (c_in_packet (base c)) then
    match n with
    | O => undefined
    | S n' =>
        let? q := lib_read _mosquitto_read_byte in
        let? _ := lift_m (massert (slen granted <? count)) in
        lib_suback_loop n' count (granted ++ [q])
    end
  else done_with granted.

Definition lib_handle_suback : M client Z :=
  returns (
    let? mid := lib_read _mosquitto_read_uint16 in
    let? c := lift_m mget in
    let qos_count := remaining_length (c_in_packet (base c)) - pos (c_in_packet (base c)) in
    let? granted := lib_suback_loop (Z.to_nat qos_count) qos_count [] in
    let? _ := lift_m (call_back (OnSubscribe mid granted)) in
    done_with MOSQ_ERR_SUCCESS).

Definition lib_handle_unsuback : M client Z :=
  returns (
    let? mid := lib_read _mosquitto_read_uint16 in
    let? _ := lift_m (call_back (OnUnsubscribe mid)) in
    done_with MOSQ_ERR_SUCCESS).

Definition lib_handle_connack : M client Z :=
  returns (
    let? _ := lib_read _mosquitto_read_byte in
    let? result := lib_read _mosquitto_read_byte in
    let? _ := lift_m (call_back (OnConnect result)) in
    let? c := lift_m mget in
    if result =? 0 then
      let? _ := lift_m (if bool_decide (cstate (base c) = mosq_cs_disconnecting) then ret tt
                        else upd_base (set_cstate (λ _, mosq_cs_connected))) in
      done_with MOSQ_ERR_SUCCESS
    else if (1 <=? result) && (result <=? 5) then fail MOSQ_ERR_CONN_REFUSED
    else fail MOSQ_ERR_PROTOCOL).

(** The message is allocated first and freed on every return but that of QoS 2,
    so that only the one that is queued is put in the heap here. *)
Definition lib_handle_publish : M client Z :=
  returns (
    let? c := lift_m mget in
    let header := command (c_in_packet (base c)) in
    let dup := negb (Z.land header 0x08 =? 0) in
    let q := Z.shiftr (Z.land header 0x06) 1 in
    let r := negb (Z.land header 0x01 =? 0) in
    let? topic := lib_read _mosquitto_read_string in
    if bool_decide (topic = []) then fail MOSQ_ERR_PROTOCOL
    else
      let? mid := if 0 <? q then lib_read _mosquitto_read_uint16 else done_with 0 in
      let? c := lift_m mget in
      let payloadlen := u32 (remaining_length (c_in_packet (base c)) - pos (c_in_packet (base c))) in
      let? pl := if payloadlen =? 0 then done_with [] else lib_read (_mosquitto_read_bytes payloadlen) in
      let msg := Message topic pl q r in
      if q =? 0 then
        let? _ := lift_m (call_back (OnMessage mid msg)) in done_with MOSQ_ERR_SUCCESS
      else if q =? 1 then
        let? rc := lift_m (lib_send_puback mid) in
        let? _ := lift_m (call_back (OnMessage mid msg)) in
        done_with rc
      else if q =? 2 then
        let? rc := lift_m (lib_send_pubrec mid) in
        let? p := lift_m (alloc (MessageAll None now mosq_ms_wait_for_pubrel dup mid msg)) in
        let? _ := lift_m (lib_message_queue p mosq_md_in) in
        done_with rc
      else fail MOSQ_ERR_PROTOCOL).

Definition lib_packet_handle : M client Z :=
  let* c := mget in
  let cmd := Z.land (command (c_in_packet (base c))) 0xF0 in
  if cmd =? PINGREQ then lib_handle_pingreq
  else if cmd =? PINGRESP then lib_handle_pingresp
  else if cmd =? PUBACK then lib_handle_pubackcomp
  else if cmd =? PUBCOMP then lib_handle_pubackcomp
  else if cmd =? PUBLISH then lib_handle_publish
  else if cmd =? PUBREC then lib_handle_pubrec
  else if cmd =? PUBREL then lib_handle_pubrel
  else if cmd =? CONNACK then lib_handle_connack
  else if cmd =? SUBACK then lib_handle_suback
  else if cmd =? UNSUBACK then lib_handle_unsuback
  else ret MOSQ_ERR_PROTOCOL.

(** [_mosquitto_packet_read] *)
Definition lib_fill_packet : M mosquitto (option Z) := λ x,
  '(r, ci) ← packet_fill false now (ConnIn (c_in_packet x) (rd x) (c_last_msg_in x));
  Some (r, set_last_msg_in (λ _, last_msg_in ci) (set_rd (λ _, input ci) (set_in_packet (λ _, in_packet ci) x))).

Definition lib_packet_read : M client Z :=
  let* c := mget in
  if bool_decide (sock (base c) = None) then ret MOSQ_ERR_NO_CONN
  else if bool_decide (cstate (base c) = mosq_cs_connect_pending) then ret MOSQ_ERR_SUCCESS
  else
    let* r := on_base lib_fill_packet in
    match r with
    | Some rc => ret rc
    | None =>
        let* rc := lib_packet_handle in
        upd_base (λ x, set_last_msg_in (λ _, now) (set_in_packet _mosquitto_packet_cleanup x)) ;;;
        ret rc
    end.

(** ** The interface (lib/mosquitto.c, lib/will_mosq.c) *)

Definition MQTT_MAX_PAYLOAD : Z := 268435455.

(** The code and the message id that [*mid] gets. *)
Definition mosquitto_publish (topic : option bytes) (pl : bytes) (q : Z) (r : bool) : M client (Z * option Z) :=
  match topic with
  | None => ret (MOSQ_ERR_INVAL, None)
  | Some topic =>
      if (q <? 0) || (2 <? q) then ret (MOSQ_ERR_INVAL, None)
      else if bool_decide (topic = []) then ret (MOSQ_ERR_INVAL, None)
      else if MQTT_MAX_PAYLOAD <? slen pl then ret (MOSQ_ERR_PAYLOAD_SIZE, None)
      else if negb (mosquitto_pub_topic_check topic =? MOSQ_ERR_SUCCESS) then ret (MOSQ_ERR_INVAL, None)
      else
        let* mid := on_base _mosquitto_mid_generate in
        if q =? 0 then let* rc := lib_send_publish mid topic pl q r false in ret (rc, Some mid)
        else
          let* p := alloc (MessageAll None now mosq_ms_invalid false mid (Message topic pl q r)) in
          let* queue_status := lib_message_queue p mosq_md_out in
          if queue_status =? 0 then
            (if q =? 1 then upd_cell p (set_ma_state (λ _, mosq_ms_wait_for_puback))
             else if q =? 2 then upd_cell p (set_ma_state (λ _, mosq_ms_wait_for_pubrec)) else ret tt) ;;;
            let* m := deref p in
            let* rc := send_msg m in ret (rc, Some mid)
          else
            upd_cell p (set_ma_state (λ _, mosq_ms_invalid)) ;;;
            ret (MOSQ_ERR_SUCCESS, Some mid)
  end.

Definition mosquitto_subscribe (sub : bytes) (q : Z) : M client (Z * Z) :=
  let* c := mget in
  if bool_decide (sock (base c) = None) then ret (MOSQ_ERR_NO_CONN, 0)
  else if negb (mosquitto_sub_topic_check sub =? MOSQ_ERR_SUCCESS) then ret (MOSQ_ERR_INVAL, 0)
  else lib_send_subscribe sub q.

Definition mosquitto_unsubscribe (sub : bytes) : M client (Z * Z) :=
  let* c := mget in
  if bool_decide (sock (base c) = None) then ret (MOSQ_ERR_NO_CONN, 0)
  else if negb (mosquitto_sub_topic_check sub =? MOSQ_ERR_SUCCESS) then ret (MOSQ_ERR_INVAL, 0)
  else lib_send_unsubscribe sub.

Definition mosquitto_disconnect : M client Z :=
  upd_base (set_cstate (λ _, mosq_cs_disconnecting)) ;;;
  let* c := mget in
  if bool_decide (sock (base c) = None) then ret MOSQ_ERR_NO_CONN else lib_send_disconnect.

Definition mosquitto_will_set (topic : bytes) (pl : bytes) (q : Z) (r : bool) : M client Z :=
  if MQTT_MAX_PAYLOAD <? slen pl then ret MOSQ_ERR_PAYLOAD_SIZE
  else if negb (mosquitto_pub_topic_check topic =? MOSQ_ERR_SUCCESS) then ret MOSQ_ERR_INVAL
  else upd_base (set_will (λ _, Some (Message topic pl q r))) ;;; ret MOSQ_ERR_SUCCESS.
Definition mosquitto_will_clear : M client Z := upd_base (set_will (λ _, None)) ;;; ret MOSQ_ERR_SUCCESS.

Definition mosquitto_username_pw_set (user pass : option bytes) : M client Z :=
  upd_base (λ b, set_password (λ _, match user with Some _ => pass | None => None end) (set_username (λ _, user) b)) ;;;
  ret MOSQ_ERR_SUCCESS.

Definition mosquitto_opts_set (version : Z) : M client Z :=
  if version =? MQTT_PROTOCOL_V31 then upd_base (set_protocol (λ _, mosq_p_mqtt31)) ;;; ret MOSQ_ERR_SUCCESS
  else if version =? MQTT_PROTOCOL_V311 then upd_base (set_protocol (λ _, mosq_p_mqtt311)) ;;; ret MOSQ_ERR_SUCCESS
  else ret MOSQ_ERR_INVAL.

(** [_mosquitto_reconnect]. [conn] is what [_mosquitto_socket_connect] does: it
    fails with a positive code, or there is a new socket, with what its reads
    and writes will do. *)
Definition lib_reconnect (conn : Z + Z * list in_event * list out_event) : M client Z :=
  upd_base (λ b, set_ping_t (λ _, 0) (set_next_msg_out (λ _, now + keepalive b) (set_last_msg_in (λ _, now)
              (set_cstate (λ _, mosq_cs_new) b)))) ;;;
  upd_base (set_in_packet _mosquitto_packet_cleanup) ;;;
  upd_base (λ b, set_current_out (λ _, None) (set_out_packet (λ _, []) b)) ;;;
  lib_messages_reconnect_reset ;;;
  lib_socket_close ;;;
  match conn with
  | inl rc => ret rc
  | inr (s, r, w) =>
      upd_base (λ b, set_sock (λ _, Some s) (set_rd (λ _, r) (set_wr (λ _, w) b))) ;;;
      let* c := mget in
      lib_send_connect (keepalive (base c)) (clean_session (base c))
  end.

(** [_mosquitto_check_keepalive] *)
Definition disconnect_code (b : mosquitto) (rc : Z) : Z :=
  if bool_decide (cstate b = mosq_cs_disconnecting) then MOSQ_ERR_SUCCESS else rc.

Definition lib_check_keepalive : M client unit :=
  let* c := mget in
  let b := base c in
  if negb (keepalive b =? 0) && bool_decide (is_Some (sock b)) &&
     ((next_msg_out b <=? now) || (keepalive b <=? now - c_last_msg_in b)) then
    if bool_decide (cstate b = mosq_cs_connected) && (ping_t b =? 0) then
      let* _ := lib_send_pingreq in
      upd_base (λ b, set_next_msg_out (λ _, now + keepalive b) (set_last_msg_in (λ _, now) b))
    else lib_socket_close ;;; call_back (OnDisconnect (disconnect_code b 1))
  else ret tt.

Definition mosquitto_loop_misc : M client Z :=
  let* c := mget in
  if bool_decide (sock (base c) = None) then ret MOSQ_ERR_NO_CONN
  else
    lib_check_keepalive ;;;
    let* c := mget in
    (if last_retry_check c + 1 <? now then
       lib_message_retry_check ;;; mmodify (set_last_retry_check (λ _, now)) else ret tt) ;;;
    let* c := mget in
    if negb (ping_t (base c) =? 0) && (keepalive (base c) <=? now - ping_t (base c)) then
      lib_socket_close ;;; call_back (OnDisconnect (disconnect_code (base c) 1)) ;;; ret MOSQ_ERR_CONN_LOST
    else ret MOSQ_ERR_SUCCESS.

(** [_mosquitto_loop_rc_handle] *)
Definition lib_loop_rc_handle (rc : Z) : M client Z :=
  if rc =? 0 then ret rc
  else
    lib_socket_close ;;;
    let* c := mget in
    let rc := disconnect_code (base c) rc in
    call_back (OnDisconnect rc) ;;; ret rc.

(** The loops of [mosquitto_loop_read] and [mosquitto_loop_write]; [again] says
    after which calls [errno] is EAGAIN. *)
Fixpoint packet_loop (call : M client Z) (n : nat) (again : list bool) : M client Z :=
  match n with
  | O => ret MOSQ_ERR_SUCCESS
  | S n' =>
      let* rc := call in
      if negb (rc =? 0) || default false (head again) then lib_loop_rc_handle rc
      else packet_loop call n' (tail again)
  end.
Definition max_packets (c : client) : nat := Z.to_nat (Z.max 1 (out_queue_len c + in_queue_len c)).
Definition mosquitto_loop_read (again : list bool) : M client Z :=
  let* c := mget in packet_loop lib_packet_read (max_packets c) again.
Definition mosquitto_loop_write (again : list bool) : M client Z :=
  let* c := mget in packet_loop lib_packet_write (max_packets c) again.

(** [mosquitto_loop]: what [select] reports is an argument: an error, or which
    of the socket and the socket pair are ready. *)
Inductive select_result :=
| SelectError (eintr : bool)
| Selected (readable pair_readable writable : bool).

Definition FD_SETSIZE : Z := 1024.

(** A part of the loop ends it when it fails or closes the socket. *)
Definition loop_part (ready : bool) (m rest : M client Z) : M client Z :=
  if ready then
    let* rc := m in
    let* c := mget in
    if negb (rc =? 0) || bool_decide (sock (base c) = None) then ret rc else rest
  else rest.

Definition mosquitto_loop (sel : select_result) (again_read again_write : list bool) : M client Z :=
  let* c := mget in
  match sock (base c) with
  | None => ret MOSQ_ERR_NO_CONN
  | Some s =>
      if FD_SETSIZE <=? s then ret MOSQ_ERR_INVAL
      else
        match sel with
        | SelectError eintr => ret (if eintr then MOSQ_ERR_SUCCESS else MOSQ_ERR_ERRNO)
        | Selected r p w =>
            loop_part r (mosquitto_loop_read again_read)
              (loop_part (w || p) (mosquitto_loop_write again_write) mosquitto_loop_misc)
        end
  end.

(** [mosquitto_connect_bind] with a host and port that are given. *)
Definition mosquitto_connect_bind (ka : Z) (conn : Z + Z * list in_event * list out_event) : M client Z :=
  upd_base (set_keepalive (λ _, u16 ka)) ;;;
  upd_base (set_cstate (λ _, mosq_cs_new)) ;;;
  lib_reconnect conn.
End client.

(** [mosquitto_reinitialise] on a new structure, with the id given or made. *)
Definition mosquitto_new (now : Z) (cid : bytes) (clean thr : bool) : client :=
  Client (Mosquitto None mosq_p_mqtt31 (Some cid) None None 60 0 mosq_cs_new now (now + 60) 0
            (_mosquitto_packet_cleanup (Packet None 0 0 0 0 0 0 0 0)) None [] None clean false false None [] None 0 0 None None 0 []
            [] [] [])
    thr 20 0 ∅ None None None None 0 0 0 20 [].

(** What [_mosquitto_destroy] does to the messages and packets. *)
Definition lib_destroy : M client unit :=
  lib_socket_close ;;;
  lib_message_cleanup_all ;;;
  upd_base (λ b, set_will (λ _, None) (set_id (λ _, None) (set_username (λ _, None) (set_password (λ _, None)
    (set_current_out (λ _, None) (set_out_packet (λ _, []) (set_in_packet _mosquitto_packet_cleanup b))))))).
