(* ===== verification/ClientNet.v ===== *)
(** * Sending in the client library

    What the client's functions that send leave alone, what they add to the
    stream of bytes, and which callbacks they make. *)

From stdpp Require Import base list numbers strings option sets gmap.
From Stdlib Require Import ZArith Lia.
From S2P Require Import Prelude Topic Packet State Store Send Messages Db Subs Acl Context Handlers Client.
Local Open Scope Z_scope.
Local Open Scope broker_scope.

(** The bytes that were sent, and those that will be. *)
Definition stream_out (c : client) : bytes := sent (base c) ++ pending (base c).

(** What sending does not change of [base]. *)
Definition base_kept (b : mosquitto) :=
  (protocol b, id b, username b, password b, last_mid b, cstate b, c_in_packet b, will b, clean_session b, rd b).

(** The callbacks that writing can make. *)
Definition net_callback (e : callback) : Prop :=
  match e with OnPublish _ | OnDisconnect _ => True | _ => False end.

Record net_frame (c c' : client) : Prop := {
  nf_rest : set_base (λ _, base c) (set_callbacks (λ _, callbacks c) c') = c;
  nf_kept : base_kept (base c') = base_kept (base c);
  nf_calls : ∃ l, callbacks c' = callbacks c ++ l ∧ Forall net_callback l;
  nf_sock : sock (base c) = None → sock (base c') = None;
}.

#[export] Instance net_frame_preorder : PreOrder net_frame.
Proof.
  split.
  - intros c. split; [by destruct c|done| |done]. exists []. by rewrite app_nil_r.
  - intros c1 c2 c3 [R1 K1 (l1 & C1 & F1) S1] [R2 K2 (l2 & C2 & F2) S2]. split.
    + destruct c1, c2, c3. unfold set_base, set_callbacks in *. cbn in *.
      injection R1 as <- <- <- <- <- <- <- <- <- <- <- <-. by injection R2 as <- <- <- <- <- <- <- <- <- <- <- <-.
    + by rewrite K2.
    + exists (l1 ++ l2). rewrite C2, C1, <-(assoc_L (++)). split; [done|]. by apply Forall_app.
    + auto.
Qed.

(** The fields of the client that sending leaves alone. *)
Lemma net_frame_fields c c' :
  net_frame c c' →
  heap c' = heap c ∧ in_messages c' = in_messages c ∧ in_messages_last c' = in_messages_last c ∧
  out_messages c' = out_messages c ∧ out_messages_last c' = out_messages_last c ∧
  in_queue_len c' = in_queue_len c ∧ out_queue_len c' = out_queue_len c ∧
  inflight_messages c' = inflight_messages c ∧ max_inflight_messages c' = max_inflight_messages c ∧
  message_retry c' = message_retry c ∧ threaded c' = threaded c.
Proof.
  intros [R _ _ _]. destruct c, c'. unfold set_base, set_callbacks in R. cbn in *. injection R. intros. by split_and!.
Qed.

Lemma kept_net_only b b' : net_only b b' → base_kept b' = base_kept b ∧ sock b' = sock b ∧ c_bridge b' = c_bridge b.
Proof. intros (? & ? & ? & ? & ? & ->). done. Qed.

(** A change of [base] alone. *)
Lemma net_frame_base c b : base_kept b = base_kept (base c) → (sock (base c) = None → sock b = None) → net_frame c (set_base (λ _, b) c).
Proof. intros Hk Hs. split; [by destruct c|done|exists []; by rewrite app_nil_r|done]. Qed.

Lemma net_frame_call c e : net_callback e → net_frame c (set_callbacks (λ l, l ++ [e]) c).
Proof. intros He. split; [by destruct c|done| |done]. exists [e]. split; [done|by constructor]. Qed.

Lemma wp_on_base {A} (m : M mosquitto A) (Q : A → client → Prop) c :
  wp m (λ a b, Q a (set_base (λ _, b) c)) (base c) → wp (on_base m) Q c.
Proof. unfold wp, on_base. by destruct (m (base c)) as [[a b]|]. Qed.

(** [m] adds [bs] to the stream and changes nothing else. *)
Definition lib_emits (m : M client Z) (bs : bytes) : Prop :=
  ∀ c, outq_ok (base c) → wp m (λ _ c', net_frame c c' ∧ outq_ok (base c') ∧ stream_out c' = stream_out c ++ bs) c.

Definition lib_safe (m : M client Z) : Prop :=
  ∀ c, outq_ok (base c) → wp m (λ _ c', net_frame c c' ∧ outq_ok (base c')) c.

Lemma lib_emits_safe m bs : lib_emits m bs → lib_safe m.
Proof. intros H c Hc. eapply wp_mono; [by apply H|]. naive_solver. Qed.

Section net.
Context (now : Z).

(** A packet that is done makes room for the next one. *)
Lemma sent_packet_step b :
  outq_ok b → match current_out_packet b with Some p => to_process p = 0 | None => True end →
  outq_ok (sent_packet now b) ∧ sent (sent_packet now b) ++ pending (sent_packet now b) = sent b ++ pending b.
Proof. intros H1 H2. by destruct (next_packet_step b (now + keepalive b) H1 H2) as (_ & ? & ?). Qed.

Lemma lib_write_loop_ok n c :
  outq_ok (base c) → (length (out_packet (base c)) < n)%nat →
  wp (lib_write_loop now n) (λ _ c', net_frame c c' ∧ outq_ok (base c') ∧ stream_out c' = stream_out c) c.
Proof.
  revert c. induction n as [|n IH]; intros c Hc Hn; [lia|]. cbn [lib_write_loop]. apply wp_bind, wp_get.
  destruct (current_out_packet (base c)) as [p|] eqn:Hp; [|by apply wp_ret].
  pose proof Hc as [_ Hcur]. rewrite Hp in Hcur. apply wp_bind, wp_on_base.
  eapply wp_mono; [apply (write_current_spec _ (base c) p); [done|done|]|].
  { destruct Hcur as (? & _ & _ & ? & _). lia. }
  intros r b ((Hno & Hb & Hst) & Ho & _ & Hr). destruct (kept_net_only _ _ Hno) as (Hk & Hs & _).
  assert (Hf : net_frame c (set_base (λ _, b) c)) by (apply net_frame_base; [done|by rewrite Hs]).
  destruct r as [rc|]; [apply wp_ret; by split|]. destruct Hr as (p' & Hp' & H0).
  destruct (sent_packet_step b Hb) as [Hb2 Hst2]; [by rewrite Hp'|].
  assert (Hlen : (length (out_packet (sent_packet now b)) < n)%nat ∨ current_out_packet (sent_packet now b) = None).
  { rewrite <-Ho in Hn. cbn. destruct (out_packet b); cbn in *; [by right|left; lia]. }
  assert (Hgo : ∀ c2, base c2 = sent_packet now b → net_frame c c2 →
    wp (lib_write_loop now n) (λ _ c', net_frame c c' ∧ outq_ok (base c') ∧ stream_out c' = stream_out c) c2).
  { intros c2 Hb2' Hf2. assert (Hs2 : stream_out c2 = stream_out c) by (unfold stream_out; rewrite Hb2'; congruence).
    destruct Hlen as [Hlen|Hnone].
    - eapply wp_mono; [apply IH; by rewrite Hb2'|]. intros _ c' (H1 & H2 & H3). split; [by etrans|]. split; [done|congruence].
    - destruct n; cbn [lib_write_loop]; apply wp_bind, wp_get; rewrite Hb2', Hnone; apply wp_ret; rewrite Hb2'; done. }
  assert (Hkept : base_kept (sent_packet now b) = base_kept (base c)) by (by rewrite <-Hk).
  destruct (_ =? PUBLISH); [|destruct (_ =? DISCONNECT)].
  - apply wp_bind, wp_modify, wp_bind, wp_modify. apply Hgo; [done|].
    etrans; [apply (net_frame_call c (OnPublish (pmid p))); done|].
    apply (net_frame_base (set_callbacks (λ l, l ++ [OnPublish (pmid p)]) c)); [done|cbn; congruence].
  - apply wp_bind, wp_modify, wp_bind, wp_modify, wp_bind, wp_modify, wp_ret. split; [|split; [exact Hb2|exact (eq_trans Hst2 Hst)]].
    etrans; [apply (net_frame_base c (sent_packet now (set_sock (λ _, None) b))); [done|done]|]. by apply net_frame_call.
  - apply wp_bind, wp_modify. apply Hgo; [done|]. apply (net_frame_base c); [done|cbn; congruence].
Qed.

Lemma lib_packet_write_ok : lib_emits (lib_packet_write now) [].
Proof.
  intros c Hc. unfold lib_packet_write. apply wp_bind, wp_get. rewrite app_nil_r. destruct (sock (base c)); [|by apply wp_ret].
  apply wp_bind, wp_modify. set (f := λ b, match current_out_packet b with Some _ => b | None => _ end).
  assert (Hf : outq_ok (f (base c)) ∧ base_kept (f (base c)) = base_kept (base c) ∧ sock (f (base c)) = sock (base c) ∧
    sent (f (base c)) ++ pending (f (base c)) = sent (base c) ++ pending (base c)).
  { unfold f. destruct (current_out_packet (base c)) eqn:Hp; [done|]. destruct (out_packet (base c)) eqn:Ho; [done|].
    destruct (next_packet_step (base c) 0 Hc) as (_ & ? & ?); [by rewrite Hp|]. done. }
  destruct Hf as (Hf1 & Hf2 & Hf3 & Hf4). assert (Hfr : net_frame c (set_base f c)) by (apply (net_frame_base c (f (base c))); [done|by rewrite Hf3]).
  case_decide; [by apply wp_ret|]. apply wp_bind, wp_get. eapply wp_mono; [apply lib_write_loop_ok; [done|cbn; lia]|].
  intros rc c' (H1 & H2 & H3). split; [by etrans|]. split; [done|]. rewrite H3. exact Hf4.
Qed.

Lemma lib_packet_queue_ok p b :
  payload p = Some b → packet_length p = slen b → lib_emits (lib_packet_queue now p) b.
Proof.
  intros Hb Hl c [Hq Hcur]. unfold lib_packet_queue. apply wp_bind, wp_modify, wp_bind, wp_get.
  set (c1 := set_base _ c). assert (Hf : net_frame c c1) by (apply (net_frame_base c); done).
  assert (Ho : outq_ok (base c1)).
  { split; [|done]. cbn. apply Forall_app. split; [done|]. apply Forall_singleton. exists b. by split_and!. }
  assert (Hs : stream_out c1 = stream_out c ++ b).
  { unfold stream_out, pending. cbn. rewrite fmap_app, concat_app. cbn. rewrite Hb. cbn. by rewrite app_nil_r, !(assoc_L (++)). }
  destruct (threaded c1); [by apply wp_ret|]. eapply wp_mono; [by apply lib_packet_write_ok|].
  intros rc c' (H1 & H2 & H3). split; [by etrans|]. split; [done|]. by rewrite H3, app_nil_r.
Qed.

(** *** What each function puts on the wire *)

Lemma lib_emits_lift {A} (o : option A) x k bs :
  o = Some x → lib_emits (k x) bs → lib_emits (let* p := mlift o in k p) bs.
Proof. intros -> H c Hc. by apply H. Qed.

Lemma lib_queue_emits p w : written w 0 p → lib_emits (lib_packet_queue now p) w.
Proof.
  intros (junk & Hpl & Hj & _ & Hlen & _). destruct junk; [|done].
  rewrite app_nil_r in Hpl. rewrite Nat.add_0_r in Hlen. by apply lib_packet_queue_ok.
Qed.

Lemma lib_alloc_emits p k body :
  remaining_length p = slen body → slen body < MAX_BODY →
  (∀ p', written (command p :: remaining_digits 5 (slen body)) (length body) p' →
     lib_emits (k p') (wire (command p) body)) →
  lib_emits (lib_alloc_then p k) (wire (command p) body).
Proof.
  intros Hl Hm Hk. unfold lib_alloc_then. destruct (packet_alloc_written p) as (p' & -> & Hw & _).
  { rewrite Hl. unfold slen in *. lia. }
  apply Hk. rewrite Hl in Hw. unfold slen in *. by rewrite Nat2Z.id in Hw.
Qed.

Lemma lib_send_command_with_mid_emits cmd m :
  lib_emits (lib_send_command_with_mid now cmd m false) (wire (u8 cmd) (enc_uint16 m)).
Proof.
  assert (Henc : enc_uint16 m = [u8 (MOSQ_MSB m); u8 (MOSQ_LSB m)]) by (unfold enc_uint16, MOSQ_MSB, MOSQ_LSB; by rewrite !u8_u8).
  apply (lib_alloc_emits (new_packet cmd 2) _ (enc_uint16 m)); [done|done|]. rewrite Henc.
  intros p (junk & Hpl & Hj & Hpos & Hlen & Hmax). destruct junk as [|x [|y [|]]]; try done.
  set (w := command _ :: remaining_digits 5 _) in *. set (q := set_payload (Some (w ++ [u8 (MOSQ_MSB m); y])) p).
  apply (lib_emits_lift _ q).
  { unfold poke. rewrite Hpl. cbn [mbind option_bind]. rewrite Hpos, Z.add_0_r, Nat2Z.id.
    rewrite (proj2 (Nat.ltb_lt _ _)) by (rewrite length_app; simpl; lia). by rewrite insert_app_r_alt, Nat.sub_diag by lia. }
  apply (lib_emits_lift _ (set_payload (Some (w ++ [u8 (MOSQ_MSB m); u8 (MOSQ_LSB m)])) p)).
  { unfold poke. cbn [q set_payload payload mbind option_bind pos].
    replace (Z.to_nat (pos p + 1)) with (length w + 1)%nat by lia.
    rewrite (proj2 (Nat.ltb_lt _ _)) by (rewrite length_app; simpl; lia). by rewrite insert_app_r. }
  apply (lib_packet_queue_ok _ (w ++ [u8 (MOSQ_MSB m); u8 (MOSQ_LSB m)])); [done|]. cbn [packet_length set_payload]. rewrite Hlen. unfold slen. by rewrite length_app.
Qed.

Lemma lib_send_simple_command_emits cmd : lib_emits (lib_send_simple_command now cmd) (wire (u8 cmd) []).
Proof.
  apply (lib_alloc_emits (new_packet cmd 0) _ []); [done|done|].
  intros p Hp. unfold wire. rewrite app_nil_r. by apply lib_queue_emits.
Qed.

Lemma lib_send_real_publish_emits m topic pl q r d :
  slen topic < 65536 → slen (publish_body m topic pl q) < MAX_BODY →
  lib_emits (lib_send_real_publish now m topic pl q r d) (wire (publish_command q r d) (publish_body m topic pl q)).
Proof.
  intros Ht Hb. assert (0 ≤ slen topic) by (unfold slen; lia).
  unfold lib_send_real_publish. rewrite <-publish_body_length with (m := m).
  rewrite (u32_small (slen _)) by (unfold slen, MAX_BODY in *; lia). set (p0 := Packet None 0 _ 0 0 0 m _ 0).
  apply (lib_alloc_emits p0 _ (publish_body m topic pl q)); [done|done|].
  intros p Hp. rewrite (u16_small (slen topic)) by lia. pose proof (publish_body_length m topic pl q) as Hlen. unfold slen in Hlen.
  assert (Hl : length (publish_body m topic pl q) = (2 + length topic + ((if (0 <? q)%Z then 2 else 0) + length pl))%nat)
    by (destruct (0 <? q); lia).
  destruct (write_string_written _ topic _ p Hp) as (p1 & E1 & H1); [lia|]. eapply lib_emits_lift; [exact E1|].
  assert (wire (command p0) (publish_body m topic pl q) =
    ((command p0 :: remaining_digits 5 (slen (publish_body m topic pl q))) ++ enc_string topic) ++ (if 0 <? q then enc_uint16 m else []) ++ pl)
    as -> by (by rewrite <-(assoc_L (++))).
  assert (Hpl : ∀ w p, written w (length pl) p →
    lib_emits (let* p := if slen pl =? 0 then ret p else mlift (_mosquitto_write_bytes pl (slen pl) p) in
               lib_packet_queue now p) (w ++ pl)).
  { clear. intros w p Hw. destruct (Z.eqb_spec (slen pl) 0) as [H0|H0].
    - destruct pl; [|done]. rewrite app_nil_r. intros c Hc. by apply lib_queue_emits.
    - destruct (write_bytes_written w pl _ p Hw) as (p' & E' & Hw'); [lia|].
      eapply lib_emits_lift; [done|]. rewrite Nat.sub_diag in Hw'. by apply lib_queue_emits. }
  rewrite Hl in H1. destruct (0 <? q).
  - replace (2 + length topic + (2 + length pl) - (2 + length topic))%nat with (S (S (length pl))) in H1 by lia.
    destruct (write_uint16_written _ m (length pl) p1 H1) as (p2 & E2 & H2). eapply lib_emits_lift; [exact E2|].
    pose proof (Hpl _ _ H2) as Hg. rewrite <-(assoc_L (++) _ (enc_uint16 m) pl) in Hg. exact Hg.
  - replace (2 + length topic + (0 + length pl) - (2 + length topic))%nat with (length pl) in H1 by lia.
    intros c Hc. by apply Hpl.
Qed.

(** A message that is too long is refused, and nothing is sent. *)
Lemma lib_send_real_publish_too_long m topic pl q r d c :
  MAX_BODY ≤ slen (publish_body m topic pl q) < 4294967296 →
  lib_send_real_publish now m topic pl q r d c = Some (MOSQ_ERR_PAYLOAD_SIZE, c).
Proof.
  intros Hb. unfold lib_send_real_publish. rewrite <-publish_body_length with (m := m).
  rewrite u32_small by (unfold slen, MAX_BODY in *; lia). unfold lib_alloc_then, _mosquitto_packet_alloc. cbn [remaining_length].
  by rewrite remaining_digits_5.
Qed.

Lemma lib_send_publish_safe m topic pl q r d :
  slen topic < 65536 → slen pl ≤ MQTT_MAX_PAYLOAD → lib_safe (lib_send_publish now m topic pl q r d).
Proof.
  intros Ht Hp c Hc. unfold lib_send_publish. apply wp_bind, wp_get. destruct (sock (base c)); [|by apply wp_ret].
  destruct (Z.lt_ge_cases (slen (publish_body m topic pl q)) MAX_BODY).
  - by eapply lib_emits_safe; [apply lib_send_real_publish_emits|].
  - unfold wp. rewrite lib_send_real_publish_too_long; [done|]. split; [done|]. rewrite publish_body_length.
    unfold MQTT_MAX_PAYLOAD in *. destruct (0 <? q); lia.
Qed.

(** *** CONNECT, SUBSCRIBE, UNSUBSCRIBE *)

Definition enc_opt (o : option bytes) : bytes := match o with Some s => enc_string s | None => [] end.

(** The strings of the CONNECT, each at most 65535 bytes. *)
Record strings_ok (b : mosquitto) : Prop := {
  so_id : ∃ i, id b = Some i ∧ slen i < 65536;
  so_user : slen (default [] (username b)) < 65536;
  so_pass : slen (default [] (password b)) < 65536;
  so_will w : will b = Some w → slen (m_topic w) < 65536 ∧ slen (m_payload w) < 65536;
}.

Definition connect_head (v : protocol_version) : option (bytes * Z) :=
  match v with
  | mosq_p_mqtt31 => Some (str "MQIsdp", 3)
  | mosq_p_mqtt311 => Some (str "MQTT", 4)
  | _ => None
  end.

Definition connect_body (name : bytes) (version ka : Z) (clean : bool) (b : mosquitto) : bytes :=
  enc_string name ++
  [version; connect_flags clean (will b) (bool_decide (is_Some (username b))) (bool_decide (is_Some (password b)))] ++
  enc_uint16 ka ++ enc_string (default [] (id b)) ++ enc_opt (m_topic <$> will b) ++ enc_opt (m_payload <$> will b) ++
  enc_opt (username b) ++ (if bool_decide (is_Some (username b)) then enc_opt (password b) else []).

Lemma enc_string_length s : length (enc_string s) = (2 + length s)%nat.
Proof. done. Qed.

Lemma enc_opt_length o : length (enc_opt o) = match o with Some s => (2 + length s)%nat | None => O end.
Proof. by destruct o. Qed.

(** [f] writes [bs] where there is room for it. *)
Definition writes_bytes (f : packet → option packet) (bs : bytes) : Prop :=
  ∀ w n p, written w n p → (length bs ≤ n)%nat → ∃ p', f p = Some p' ∧ written (w ++ bs) (n - length bs) p'.

Lemma writes_byte b : writes_bytes (_mosquitto_write_byte b) [b].
Proof.
  intros w [|n] p Hw Hn; cbn in Hn; [lia|]. replace (S n - length [b])%nat with n by (cbn; lia). by apply write_byte_written.
Qed.

Lemma writes_uint16 x : writes_bytes (_mosquitto_write_uint16 x) (enc_uint16 x).
Proof.
  intros w [|[|n]] p Hw Hn; cbn in Hn; [lia|lia|]. replace (S (S n) - length (enc_uint16 x))%nat with n by (cbn; lia).
  by apply write_uint16_written.
Qed.

Lemma writes_string s l : l = slen s → writes_bytes (_mosquitto_write_string s l) (enc_string s).
Proof. intros -> w n p Hw Hn. rewrite enc_string_length in *. by apply write_string_written. Qed.

Lemma writes_opt o : slen (default [] o) < 65536 → writes_bytes (write_opt o) (enc_opt o).
Proof.
  intros Hs. destruct o as [s|]; cbn [write_opt enc_opt].
  - apply writes_string, u16_small. unfold slen in *. cbn in Hs. lia.
  - intros w n p Hw Hn. exists p. split; [done|]. cbn. by rewrite app_nil_r, Nat.sub_0_r.
Qed.

Lemma wp_writes {A} f bs w n p (k : packet → M client A) Q c :
  writes_bytes f bs → written w n p → (length bs ≤ n)%nat →
  (∀ p', written (w ++ bs) (n - length bs) p' → wp (k p') Q c) → wp (let* p := mlift (f p) in k p) Q c.
Proof. intros Hf Hw Hn Hk. destruct (Hf w n p Hw Hn) as (p' & -> & Hw'). apply Hk, Hw'. Qed.

Lemma connect_body_length name version ka clean b i :
  id b = Some i →
  slen (connect_body name version ka clean b) = 6 + slen name + (2 + slen i
      + match will b with Some w => 2 + slen (m_topic w) + 2 + slen (m_payload w) | None => 0 end
      + match username b with Some u => 2 + slen u + match password b with Some w => 2 + slen w | None => 0 end | None => 0 end).
Proof.
  intros Hi. unfold connect_body, slen. rewrite !length_app, !enc_string_length, !enc_opt_length, Hi.
  destruct (will b), (username b); cbn [length default fmap option_fmap option_map enc_uint16].
  all: rewrite ?bool_decide_eq_true_2, ?bool_decide_eq_false_2 by (by eauto || by intros [? ?]).
  all: rewrite ?enc_opt_length; destruct (password b); unfold default; change (Datatypes.id i) with i; cbn [length]; lia.
Qed.

Lemma lib_send_connect_emits ka clean c name version :
  strings_ok (base c) → connect_head (protocol (base c)) = Some (name, version) → outq_ok (base c) →
  wp (lib_send_connect now ka clean) (λ _ c',
    net_frame (set_base (set_keepalive (λ _, ka)) c) c' ∧ outq_ok (base c') ∧
    stream_out c' = stream_out c ++ wire CONNECT (connect_body name version ka clean (base c))) c.
Proof.
  intros [(i & Hi & Hil) Hu Hp Hwill] Hh Hc. unfold lib_send_connect. apply wp_bind, wp_get, wp_bind. eapply wp_lift; [exact Hi|].
  assert (Hproto : match protocol (base c) with
    | mosq_p_mqtt31 => Some (MQTT_PROTOCOL_V31, 12, str "MQIsdp") | mosq_p_mqtt311 => Some (MQTT_PROTOCOL_V311, 10, str "MQTT") | _ => None end
    = Some (version, 6 + slen name, name) ∧ slen name ≤ 6).
  { unfold connect_head in Hh. by destruct (protocol (base c)); try done; injection Hh as <- <-. }
  destruct Hproto as [-> Hname]. set (b := base c) in *. pose proof (connect_body_length name version ka clean b i Hi) as Hbody.
  set (body := connect_body name version ka clean b) in *. rewrite <-Hbody.
  assert (Hmax : slen body < MAX_BODY).
  { rewrite Hbody. unfold MAX_BODY. destruct (will b) as [w|]; [destruct (Hwill w eq_refl)|];
      destruct (username b) as [u|], (password b) as [pw|]; try change (slen u < 65536) in Hu; try change (slen pw < 65536) in Hp; lia. }
  assert (Hrl : remaining_length (new_packet CONNECT (slen body)) = slen body).
  { change (u32 (slen body) = slen body). apply u32_small. unfold MAX_BODY in Hmax. assert (0 ≤ slen body) by (unfold slen; lia). lia. }
  assert (Hwt : slen (default [] (m_topic <$> will b)) < 65536 ∧ slen (default [] (m_payload <$> will b)) < 65536).
  { destruct (will b) as [w|]; [by apply Hwill|done]. }
  unfold lib_alloc_then. destruct (packet_alloc_written (new_packet CONNECT (slen body))) as (p0 & -> & Hw0 & _).
  { rewrite Hrl. unfold slen in *. lia. }
  rewrite Hrl in Hw0. change (command (new_packet CONNECT (slen body))) with CONNECT in Hw0.
  replace (Z.to_nat (slen body)) with (length body) in Hw0 by (unfold slen; lia).
  assert (Hlen : length body = length (enc_string name ++ [version] ++ [connect_flags clean (will b) (bool_decide (is_Some (username b)))
    (bool_decide (is_Some (password b)))] ++ enc_uint16 ka ++ enc_string i ++ enc_opt (m_topic <$> will b) ++ enc_opt (m_payload <$> will b) ++
    enc_opt (username b) ++ (if bool_decide (is_Some (username b)) then enc_opt (password b) else []))).
  { unfold body, connect_body. by rewrite Hi. }
  rewrite !length_app in Hlen. cbn [MOSQ_ERR_SUCCESS Z.eqb].
  apply (wp_writes _ _ _ _ _ _ _ _ (writes_string name _ eq_refl) Hw0); [lia|]. clear p0 Hw0. intros p Hw.
  apply (wp_writes _ _ _ _ _ _ _ _ (writes_byte version) Hw); [lia|]. clear p Hw. intros p Hw.
  apply (wp_writes _ _ _ _ _ _ _ _ (writes_byte _) Hw); [lia|]. clear p Hw. intros p Hw.
  apply (wp_writes _ _ _ _ _ _ _ _ (writes_uint16 ka) Hw); [lia|]. clear p Hw. intros p Hw.
  assert (Hu16 : u16 (slen i) = slen i) by (apply u16_small; unfold slen in *; lia).
  apply (wp_writes _ _ _ _ _ _ _ _ (writes_string i _ Hu16) Hw); [lia|]. clear p Hw. intros p Hw.
  apply (wp_writes _ _ _ _ _ _ _ _ (writes_opt _ (proj1 Hwt)) Hw); [lia|]. clear p Hw. intros p Hw.
  apply (wp_writes _ _ _ _ _ _ _ _ (writes_opt _ (proj2 Hwt)) Hw); [lia|]. clear p Hw. intros p Hw.
  apply (wp_writes _ _ _ _ _ _ _ _ (writes_opt _ Hu) Hw); [lia|]. clear p Hw. intros p Hw.
  eapply (wp_writes (λ p, if bool_decide (is_Some (username b)) then write_opt (password b) p else Some p)
    (if bool_decide (is_Some (username b)) then enc_opt (password b) else [])); [|exact Hw|lia|].
  { destruct (bool_decide (is_Some (username b))); [by apply writes_opt|apply (writes_opt None); done]. }
  clear p Hw. intros p Hw. apply wp_bind, wp_modify.
  match type of Hw with written ?w ?n p => assert (w = wire CONNECT body ∧ n = O) as [Hwb Hn0] end.
  { split; [|lia]. unfold wire, body, connect_body. rewrite Hi. by rewrite <-!(assoc_L (++)). }
  rewrite Hwb, Hn0 in Hw. eapply wp_mono; [apply (lib_queue_emits p _ Hw); exact Hc|]. intros rc c' (H1 & H2 & H3). done.
Qed.

(** The next message id. *)
Definition next_mid (c : client) : Z := last_mid (base c) `mod` 65535 + 1.

Lemma wp_mid_generate (Q : Z → client → Prop) c :
  0 ≤ last_mid (base c) < 65536 → Q (next_mid c) (set_base (set_last_mid (λ _, next_mid c)) c) →
  wp (on_base _mosquitto_mid_generate) Q c.
Proof. intros Hm HQ. apply wp_on_base. unfold wp. by rewrite mid_generate_spec. Qed.

Lemma lib_send_subscribe_emits topic q c :
  slen topic < 65536 → 0 ≤ last_mid (base c) < 65536 → outq_ok (base c) →
  wp (lib_send_subscribe now topic q) (λ r c',
    r.2 = next_mid c ∧ net_frame (set_base (set_last_mid (λ _, next_mid c)) c) c' ∧ outq_ok (base c') ∧
    stream_out c' = stream_out c ++ wire 0x82 (enc_uint16 (next_mid c) ++ enc_string topic ++ [q])) c.
Proof.
  intros Ht Hm Hc. unfold lib_send_subscribe. set (body := enc_uint16 (next_mid c) ++ enc_string topic ++ [q]).
  assert (Hb : slen body = 2 + 2 + slen topic + 1) by (unfold body, slen; rewrite !length_app, enc_string_length; cbn [length enc_uint16]; lia).
  rewrite <-Hb. assert (Hmax : 0 ≤ slen body < MAX_BODY) by (rewrite Hb; unfold slen, MAX_BODY in *; lia).
  assert (Hrl : ∀ cmd, remaining_length (new_packet cmd (slen body)) = slen body).
  { intros cmd. change (u32 (slen body) = slen body). apply u32_small. unfold MAX_BODY in *. lia. }
  change (Z.lor SUBSCRIBE (Z.shiftl 1 1)) with 0x82.
  destruct (packet_alloc_written (new_packet 0x82 (slen body))) as (p & -> & Hw & _); [by rewrite Hrl|].
  rewrite Hrl in Hw. change (command (new_packet 0x82 (slen body))) with 0x82 in Hw.
  replace (Z.to_nat (slen body)) with (length body) in Hw by (unfold slen; lia).
  assert (Hl : length body = (length (enc_uint16 (next_mid c)) + (length (enc_string topic) + length [q]))%nat) by (unfold body; by rewrite !length_app).
  cbn [MOSQ_ERR_SUCCESS Z.eqb]. apply wp_bind, wp_mid_generate; [done|].
  apply (wp_writes _ _ _ _ _ _ _ _ (writes_uint16 _) Hw); [lia|]. clear p Hw. intros p Hw.
  assert (Hu16 : u16 (slen topic) = slen topic) by (apply u16_small; unfold slen in *; lia).
  apply (wp_writes _ _ _ _ _ _ _ _ (writes_string topic _ Hu16) Hw); [lia|]. clear p Hw. intros p Hw.
  apply (wp_writes _ _ _ _ _ _ _ _ (writes_byte q) Hw); [lia|]. clear p Hw. intros p Hw.
  match type of Hw with written ?w ?n p => assert (w = wire 0x82 body ∧ n = O) as [Hwb Hn0] end.
  { split; [|lia]. unfold wire, body. by rewrite <-!(assoc_L (++)). }
  rewrite Hwb, Hn0 in Hw. apply wp_bind. eapply wp_mono; [apply (lib_queue_emits p _ Hw); exact Hc|].
  intros rc c' (H1 & H2 & H3). apply wp_ret. done.
Qed.

Lemma lib_send_unsubscribe_emits topic c :
  slen topic < 65536 → 0 ≤ last_mid (base c) < 65536 → outq_ok (base c) →
  wp (lib_send_unsubscribe now topic) (λ r c',
    r.2 = next_mid c ∧ net_frame (set_base (set_last_mid (λ _, next_mid c)) c) c' ∧ outq_ok (base c') ∧
    stream_out c' = stream_out c ++ wire 0xA2 (enc_uint16 (next_mid c) ++ enc_string topic)) c.
Proof.
  intros Ht Hm Hc. unfold lib_send_unsubscribe. set (body := enc_uint16 (next_mid c) ++ enc_string topic).
  assert (Hb : slen body = 2 + 2 + slen topic) by (unfold body, slen; rewrite !length_app, enc_string_length; cbn [length enc_uint16]; lia).
  rewrite <-Hb. assert (Hmax : 0 ≤ slen body < MAX_BODY) by (rewrite Hb; unfold slen, MAX_BODY in *; lia).
  assert (Hrl : ∀ cmd, remaining_length (new_packet cmd (slen body)) = slen body).
  { intros cmd. change (u32 (slen body) = slen body). apply u32_small. unfold MAX_BODY in *. lia. }
  change (Z.lor UNSUBSCRIBE (Z.shiftl 1 1)) with 0xA2.
  destruct (packet_alloc_written (new_packet 0xA2 (slen body))) as (p & -> & Hw & _); [by rewrite Hrl|].
  rewrite Hrl in Hw. change (command (new_packet 0xA2 (slen body))) with 0xA2 in Hw.
  replace (Z.to_nat (slen body)) with (length body) in Hw by (unfold slen; lia).
  assert (Hl : length body = (length (enc_uint16 (next_mid c)) + length (enc_string topic))%nat) by (unfold body; by rewrite !length_app).
  cbn [MOSQ_ERR_SUCCESS Z.eqb]. apply wp_bind, wp_mid_generate; [done|].
  apply (wp_writes _ _ _ _ _ _ _ _ (writes_uint16 _) Hw); [lia|]. clear p Hw. intros p Hw.
  assert (Hu16 : u16 (slen topic) = slen topic) by (apply u16_small; unfold slen in *; lia).
  apply (wp_writes _ _ _ _ _ _ _ _ (writes_string topic _ Hu16) Hw); [lia|]. clear p Hw. intros p Hw.
  match type of Hw with written ?w ?n p => assert (w = wire 0xA2 body ∧ n = O) as [Hwb Hn0] end.
  { split; [|lia]. unfold wire, body. by rewrite <-!(assoc_L (++)). }
  rewrite Hwb, Hn0 in Hw. apply wp_bind. eapply wp_mono; [apply (lib_queue_emits p _ Hw); exact Hc|].
  intros rc c' (H1 & H2 & H3). apply wp_ret. done.
Qed.
End net.
