(* ===== verification/ClientQueue.v ===== *)
(** * The queues of the client library

    The two linked lists of a client represent two lists of messages
    ([rep]). Each operation of lib/messages_mosq.c is the operation on lists
    that it stands for: adding at the end, removing the first message with an
    id, changing a message in place. *)

From stdpp Require Import base list numbers strings option sets gmap.
From Stdlib Require Import ZArith Lia.
From S2P Require Import Prelude Topic Packet State Store Send Messages Db Subs Acl Context Handlers Client ClientNet.
Local Open Scope Z_scope.
Local Open Scope broker_scope.

(** ** Lists in the heap *)

(** A message in its cell. *)
Abbreviation cell := (ptr * message_all)%type.

(** The cells [l] lead from [p] to [e]. *)
Fixpoint lseg (h : gmap ptr message_all) (p : option ptr) (l : list cell) (e : option ptr) : Prop :=
  match l with
  | [] => p = e
  | (q, m) :: l' => p = Some q ∧ h !! q = Some m ∧ lseg h (ma_next m) l' e
  end.

Lemma lseg_app h p l1 l2 e : lseg h p (l1 ++ l2) e ↔ ∃ q, lseg h p l1 q ∧ lseg h q l2 e.
Proof.
  revert p. induction l1 as [|[q m] l1 IH]; intros p; cbn; [naive_solver|]. rewrite IH. naive_solver.
Qed.

(** Cells outside the list do not matter. *)
Lemma lseg_frame h h' p l e :
  lseg h p l e → (∀ q, q ∈ l.*1 → h' !! q = h !! q) → lseg h' p l e.
Proof.
  revert p. induction l as [|[q m] l IH]; intros p; cbn; [done|]. intros (-> & Hq & Hl) Hh.
  split; [done|]. split; [rewrite Hh; [done|by left]|]. apply IH; [done|]. intros q' Hq'. apply Hh. by right.
Qed.

Lemma lseg_insert h p l e q m : lseg h p l e → q ∉ l.*1 → lseg (<[q := m]> h) p l e.
Proof. intros Hl Hq. eapply lseg_frame; [done|]. intros q' Hq'. apply lookup_insert_ne. by intros ->. Qed.

Lemma lseg_delete h p l e q : lseg h p l e → q ∉ l.*1 → lseg (delete q h) p l e.
Proof. intros Hl Hq. eapply lseg_frame; [done|]. intros q' Hq'. apply lookup_delete_ne. by intros ->. Qed.

Lemma lseg_lookup h p l e q m : lseg h p l e → (q, m) ∈ l → h !! q = Some m.
Proof.
  revert p. induction l as [|[q' m'] l IH]; intros p; cbn; [intros _ []%elem_of_nil|].
  intros (_ & Hq & Hl) [Heq|Hin]%elem_of_cons; [by injection Heq as -> ->|by eapply IH].
Qed.

Lemma lseg_dom h p l e q : lseg h p l e → q ∈ l.*1 → q ∈ dom h.
Proof. intros Hl ([q' m] & -> & Hin)%list_elem_of_fmap. apply elem_of_dom. exists m. by eapply lseg_lookup. Qed.

(** The size of the heap is enough fuel for any list in it. *)
Lemma lseg_size h p l e : lseg h p l e → NoDup l.*1 → (length l ≤ size h)%nat.
Proof.
  intros Hl Hn. rewrite <-(length_fmap fst), <-size_dom. rewrite <-(size_list_to_set (C := gset ptr) l.*1) by done.
  apply subseteq_size. intros q Hq%elem_of_list_to_set. by eapply lseg_dom.
Qed.

(** The content of a cell, but for its link. *)
Definition body (m : message_all) : message_all := set_ma_next (λ _, None) m.
Definition contents (l : list cell) : list message_all := body <$> l.*2.

Lemma content_app l1 l2 : contents (l1 ++ l2) = contents l1 ++ contents l2.
Proof. unfold contents. by rewrite !fmap_app. Qed.

(** The last cell is linked to [q]. *)
Lemma lseg_relink h p l r m q e :
  lseg h p (l ++ [(r, m)]) e → NoDup (l ++ [(r, m)]).*1 →
  lseg (<[r := set_ma_next (λ _, q) m]> h) p (l ++ [(r, set_ma_next (λ _, q) m)]) q.
Proof.
  intros (p' & H1 & -> & Hr & _)%lseg_app Hn. rewrite fmap_app in Hn. apply NoDup_app in Hn as (_ & Hn & _).
  apply lseg_app. exists (Some r). split; [apply lseg_insert; [done|]|].
  - intros Hin. apply (Hn r Hin). by left.
  - cbn. by rewrite lookup_insert_eq.
Qed.

(** A cell is changed in place. *)
Lemma lseg_update h p l1 r m l2 e f :
  lseg h p (l1 ++ (r, m) :: l2) e → NoDup (l1 ++ (r, m) :: l2).*1 → ma_next (f m) = ma_next m →
  lseg (<[r := f m]> h) p (l1 ++ (r, f m) :: l2) e.
Proof.
  intros (p' & H1 & -> & Hr & H2)%lseg_app Hn Hf. rewrite fmap_app in Hn. cbn in Hn.
  apply NoDup_app in Hn as (_ & Hn & Hn2). apply NoDup_cons in Hn2 as [Hn2 _].
  apply lseg_app. exists (Some r). split; [apply lseg_insert; [done|]|].
  - intros Hin. apply (Hn r Hin). by left.
  - cbn. rewrite lookup_insert_eq, Hf. split_and!; try done. by apply lseg_insert.
Qed.

(** A cell is unlinked. *)
Lemma lseg_unlink h p l1 r0 m0 r m l2 e :
  lseg h p (l1 ++ (r0, m0) :: (r, m) :: l2) e → NoDup (l1 ++ (r0, m0) :: (r, m) :: l2).*1 →
  lseg (<[r0 := set_ma_next (λ _, ma_next m) m0]> h) p (l1 ++ (r0, set_ma_next (λ _, ma_next m) m0) :: l2) e.
Proof.
  intros (p' & H1 & -> & H0 & Hm0 & Hr & H2)%lseg_app Hn. rewrite fmap_app in Hn. cbn in Hn.
  apply NoDup_app in Hn as (_ & Hn & Hn2). apply NoDup_cons in Hn2 as [Hn2 _].
  apply lseg_app. exists (Some r0). split; [apply lseg_insert; [done|]|].
  - intros Hin. apply (Hn r0 Hin). by left.
  - cbn. rewrite lookup_insert_eq. split_and!; try done. apply lseg_insert; [done|]. intros Hin. apply Hn2. by right.
Qed.

(** ** What a client represents *)

Record rep (li lo : list cell) (c : client) : Prop := {
  rp_in : lseg (heap c) (in_messages c) li None;
  rp_in_last : in_messages_last c = fst <$> last li;
  rp_out : lseg (heap c) (out_messages c) lo None;
  rp_out_last : out_messages_last c = fst <$> last lo;
  rp_nodup : NoDup (li.*1 ++ lo.*1);
  rp_in_len : in_queue_len c = Z.of_nat (length li);
  rp_out_len : out_queue_len c = Z.of_nat (length lo);
}.

Lemma rep_disjoint li lo c : rep li lo c → NoDup li.*1 ∧ NoDup lo.*1 ∧ ∀ q, q ∈ li.*1 → q ∉ lo.*1.
Proof. intros [_ _ _ _ H _ _]. apply NoDup_app in H as (? & ? & ?). done. Qed.

(** Sending keeps the representation. *)
Lemma rep_frame li lo c c' : net_frame c c' → rep li lo c → rep li lo c'.
Proof.
  intros (E1 & E2 & E3 & E4 & E5 & E6 & E7 & _)%net_frame_fields [R1 R2 R3 R4 R5 R6 R7]. split; by rewrite ?E1, ?E2, ?E3, ?E4, ?E5, ?E6, ?E7.
Qed.

(** *** Single steps *)

Lemma wp_deref_cell p m Q c : heap c !! p = Some m → Q m c → wp (deref p) Q c.
Proof. intros Hp HQ. unfold wp, deref. by rewrite Hp. Qed.

Lemma wp_upd_cell p f m (Q : unit → client → Prop) c :
  heap c !! p = Some m → Q tt (set_cells <[p := f m]> c) → wp (upd_cell p f) Q c.
Proof. intros Hp HQ. unfold upd_cell. apply wp_bind, (wp_deref_cell _ m); [done|]. by apply wp_modify. Qed.

Lemma wp_cleanup p m (Q : unit → client → Prop) c :
  heap c !! p = Some m → Q tt (set_cells (delete p) c) → wp (lib_message_cleanup p) Q c.
Proof. intros Hp HQ. unfold lib_message_cleanup. apply wp_bind, (wp_deref_cell _ m); [done|]. by apply wp_modify. Qed.

(** What the operations on the queues leave alone. *)
Definition others (c : client) := (base c, threaded c, message_retry c, last_retry_check c, max_inflight_messages c, callbacks c).

(** *** Adding a message *)

Lemma last_cell {A} (l : list A) x : last l = Some x → ∃ l0, l = l0 ++ [x].
Proof. by apply last_Some. Qed.

Lemma content_snoc l p m : contents (l ++ [(p, m)]) = contents l ++ [body m].
Proof. by rewrite content_app. Qed.

(** A list with one more cell; [r] is the end of the old one. *)
Lemma lseg_append h p0 l p m :
  lseg h p0 l None → NoDup l.*1 → p ∉ l.*1 → h !! p = Some m → ma_next m = None →
  match last l with
  | Some (r, mr) =>
      ∃ l', lseg (<[r := set_ma_next (λ _, Some p) mr]> h) p0 (l' ++ [(p, m)]) None ∧ contents l' = contents l ∧ l'.*1 = l.*1
  | None => l = []
  end.
Proof.
  intros Hl Hn Hp Hm Hnx. destruct (last l) as [[r mr]|] eqn:Hlast; [|by apply last_None in Hlast].
  apply last_Some in Hlast as [l0 ->]. exists (l0 ++ [(r, set_ma_next (λ _, Some p) mr)]). split; [|split].
  - apply lseg_app. exists (Some p). split; [by eapply lseg_relink|]. cbn. rewrite lookup_insert_ne; [by split_and!|].
    intros ->. apply Hp. rewrite fmap_app. set_solver.
  - by rewrite !content_snoc.
  - by rewrite !fmap_app.
Qed.

Lemma queue_in_ok p m li lo c :
  rep li lo c → heap c !! p = Some m → p ∉ li.*1 ++ lo.*1 →
  wp (lib_message_queue p mosq_md_in) (λ rc c', rc = 0 ∧ others c' = others c ∧ inflight_messages c' = inflight_messages c ∧
    ∃ li', rep li' lo c' ∧ contents li' = contents li ++ [body m] ∧ li'.*1 = li.*1 ++ [p]) c.
Proof.
  intros [R1 R2 R3 R4 R5 R6 R7] Hm Hp. rewrite not_elem_of_app in Hp. destruct Hp as [Hp1 Hp2].
  pose proof R5 as (N1 & N12 & N2)%NoDup_app.
  unfold lib_message_queue. apply wp_bind, wp_modify, wp_bind, (wp_upd_cell p _ m); [done|]. apply wp_bind, wp_get.
  set (h1 := <[p := body m]> (heap c)). set (c1 := set_cells _ _). assert (Hh1 : heap c1 = h1) by done.
  assert (S1 : lseg h1 (in_messages c) li None) by (by apply lseg_insert).
  assert (S2 : lseg h1 (out_messages c) lo None) by (by apply lseg_insert).
  assert (Hpm : h1 !! p = Some (body m)) by apply lookup_insert_eq.
  pose proof (lseg_append h1 _ li p (body m) S1 N1 Hp1 Hpm eq_refl) as Happ.
  change (in_messages_last c1) with (in_messages_last c). rewrite R2.
  assert (Hnd : ∀ l', l'.*1 = li.*1 → NoDup ((l' ++ [(p, body m)]).*1 ++ lo.*1)).
  { intros l' Hl'. rewrite fmap_app, Hl', <-(assoc_L (++)). cbn. apply NoDup_app. split; [done|]. split; [set_solver|].
    apply NoDup_cons. done. }
  destruct (last li) as [[r mr]|] eqn:Hlast; cbn [fmap option_fmap option_map fst].
  - destruct Happ as (l' & Hl' & Hc' & Hf'). apply last_Some in Hlast as [l0 ->].
    assert (Hr : h1 !! r = Some mr) by (eapply lseg_lookup; [exact S1|set_solver]).
    apply wp_bind, (wp_upd_cell r _ mr); [done|]. apply wp_bind, wp_modify, wp_ret. split_and!; [done..|].
    exists (l' ++ [(p, body m)]). split; [|rewrite content_snoc, fmap_app, Hc', Hf'; done]. split; cbn.
    + exact Hl'.
    + by rewrite last_snoc.
    + apply lseg_insert; [done|]. apply N12. rewrite fmap_app. set_solver.
    + done.
    + by apply Hnd.
    + rewrite R6. apply (f_equal length) in Hf'. rewrite !length_fmap in Hf'. rewrite (length_app l'), Hf'. cbn [length]. lia.
    + done.
  - subst li. apply wp_bind, wp_modify, wp_bind, wp_modify, wp_ret. split_and!; [done..|].
    exists [(p, body m)]. split; [|done]. split; try done; cbn; [by apply (Hnd [])|]. rewrite R6. done.
Qed.

(** The same for an outgoing message, which may have to wait. *)
Definition room (c : client) : bool := (max_inflight_messages c =? 0) || (inflight_messages c <? max_inflight_messages c).

Lemma queue_out_ok p m li lo c :
  rep li lo c → heap c !! p = Some m → p ∉ li.*1 ++ lo.*1 → 0 < m_qos (ma_msg m) →
  wp (lib_message_queue p mosq_md_out) (λ rc c', rc = (if room c then 0 else 1) ∧ others c' = others c ∧
    inflight_messages c' = inflight_messages c + (if room c then 1 else 0) ∧
    ∃ lo', rep li (lo' ++ [(p, body m)]) c' ∧ contents lo' = contents lo ∧ lo'.*1 = lo.*1) c.
Proof.
  intros [R1 R2 R3 R4 R5 R6 R7] Hm Hp Hq. rewrite not_elem_of_app in Hp. destruct Hp as [Hp1 Hp2].
  pose proof R5 as (N1 & N12 & N2)%NoDup_app.
  unfold lib_message_queue. apply wp_bind, wp_modify, wp_bind, (wp_upd_cell p _ m); [done|]. apply wp_bind, wp_get.
  set (h1 := <[p := body m]> (heap c)). set (c1 := set_cells _ _).
  assert (S1 : lseg h1 (in_messages c) li None) by (by apply lseg_insert).
  assert (S2 : lseg h1 (out_messages c) lo None) by (by apply lseg_insert).
  assert (Hpm : h1 !! p = Some (body m)) by apply lookup_insert_eq.
  pose proof (lseg_append h1 _ lo p (body m) S2 N2 Hp2 Hpm eq_refl) as Happ.
  change (out_messages_last c1) with (out_messages_last c). rewrite R4.
  assert (Hnd : ∀ l', l'.*1 = lo.*1 → NoDup (li.*1 ++ (l' ++ [(p, body m)]).*1)).
  { intros l' Hl'. rewrite fmap_app, Hl', (assoc_L (++)). cbn. apply NoDup_app. split; [done|]. split; [set_solver|].
    apply NoDup_singleton. }
  assert (Hend : ∀ c2 lo', heap c2 !! p = Some (body m) → others c2 = others c → inflight_messages c2 = inflight_messages c →
    rep li (lo' ++ [(p, body m)]) c2 → contents lo' = contents lo → lo'.*1 = lo.*1 →
    wp (let* m := deref p in
        if 0 <? m_qos (ma_msg m) then
          if (max_inflight_messages c1 =? 0) || (inflight_messages c1 <? max_inflight_messages c1)
          then mmodify (set_inflight (λ n, n + 1)) ;;; ret 0 else ret 1
        else ret 0) (λ rc c', rc = (if room c then 0 else 1) ∧ others c' = others c ∧
    inflight_messages c' = inflight_messages c + (if room c then 1 else 0) ∧
    ∃ lo', rep li (lo' ++ [(p, body m)]) c' ∧ contents lo' = contents lo ∧ lo'.*1 = lo.*1) c2).
  { intros c2 lo' Hp2' Ho Hi Hrep Hc Hf. apply wp_bind, (wp_deref_cell _ (body m)); [done|].
    change (m_qos (ma_msg (body m))) with (m_qos (ma_msg m)). rewrite (proj2 (Z.ltb_lt _ _)) by done.
    change ((max_inflight_messages c1 =? 0) || (inflight_messages c1 <? max_inflight_messages c1)) with (room c).
    destruct (room c); [apply wp_bind, wp_modify|]; apply wp_ret; (split_and!; [done|done|cbn; lia|]); exists lo'; split; try done.
    destruct Hrep. by split. }
  destruct (last lo) as [[r mr]|] eqn:Hlast; cbn [fmap option_fmap option_map fst].
  - destruct Happ as (l' & Hl' & Hc' & Hf'). pose proof Hlast as [l0 Hlo]%last_Some.
    assert (Hin : r ∈ lo.*1) by (rewrite Hlo, fmap_app; set_solver).
    assert (Hr : h1 !! r = Some mr) by (eapply lseg_lookup; [exact S2|rewrite Hlo; set_solver]).
    apply wp_bind, (wp_upd_cell r _ mr); [done|]. apply wp_bind, wp_modify. apply (Hend _ l'); try done.
    + cbn. rewrite lookup_insert_ne; [done|]. intros ->. done.
    + split; cbn; try done; [|by rewrite last_snoc|by apply Hnd|].
      * apply lseg_insert; [done|]. intros Hi. by apply (N12 r).
      * rewrite R7. apply (f_equal length) in Hf'. rewrite !length_fmap in Hf'. rewrite length_app, Hf'. cbn [length]. lia.
  - subst lo. apply wp_bind, wp_modify, wp_bind, wp_modify. apply (Hend _ []); try done.
    split; cbn; try done; [by apply (Hnd [])|]. rewrite R7. done.
Qed.

(** *** Finding a message *)

Definition mids (l : list cell) : list Z := ma_mid <$> l.*2.

Lemma find_mid_ok n mid prev cur l c :
  lseg (heap c) cur l None → (length l ≤ n)%nat →
  wp (find_mid n mid prev cur) (λ r c', c' = c ∧
    match r with
    | None => mid ∉ mids l
    | Some (prev', q) => ∃ l1 m l2, l = l1 ++ (q, m) :: l2 ∧ mid ∉ mids l1 ∧ ma_mid m = mid ∧
        prev' = match last l1 with Some x => Some x.1 | None => prev end
    end) c.
Proof.
  revert prev cur l. induction n as [|n IH]; intros prev cur l Hl Hn; destruct l as [|[q m] l]; cbn in Hl, Hn; try lia.
  1,2: subst cur; apply wp_ret; split; [done|]; apply not_elem_of_nil.
  destruct Hl as (-> & Hq & Hl). cbn [find_mid]. apply wp_bind, (wp_deref_cell _ m); [done|].
  destruct (Z.eqb_spec (ma_mid m) mid) as [Hm|Hm].
  - apply wp_ret. split; [done|]. exists [], m, l. split_and!; try done. apply not_elem_of_nil.
  - eapply wp_mono; [apply (IH (Some q) (ma_next m) l Hl); lia|]. intros r c' [-> Hr]. split; [done|].
    destruct r as [[prev' q']|].
    + destruct Hr as (l1 & m' & l2 & -> & H1 & H2 & ->). exists ((q, m) :: l1), m', l2. split_and!; try done.
      * unfold mids. cbn. rewrite not_elem_of_cons. split; [congruence|done].
      * by destruct l1 as [|x l1 _] using rev_ind; [|rewrite app_comm_cons, !last_snoc].
    + unfold mids. cbn. rewrite not_elem_of_cons. split; [congruence|done].
Qed.

(** *** Removing a message *)

(** The heap and the first pointer without the cell after [l1]. *)
Definition unlinked_heap (l1 : list cell) (m : message_all) (h : gmap ptr message_all) : gmap ptr message_all :=
  match last l1 with Some (r, mr) => <[r := set_ma_next (λ _, ma_next m) mr]> h | None => h end.
Definition unlinked_first (l1 : list cell) (m : message_all) (p : option ptr) : option ptr :=
  match l1 with [] => ma_next m | _ => p end.

Lemma unlink_ok h p l1 q m l2 :
  lseg h p (l1 ++ (q, m) :: l2) None → NoDup (l1 ++ (q, m) :: l2).*1 →
  ∃ l1', lseg (unlinked_heap l1 m h) (unlinked_first l1 m p) (l1' ++ l2) None ∧ contents l1' = contents l1 ∧ l1'.*1 = l1.*1.
Proof.
  intros Hl Hn. unfold unlinked_heap, unlinked_first. destruct (last l1) as [[r mr]|] eqn:Hlast.
  - apply last_Some in Hlast as [l0 ->]. rewrite <-(assoc_L (++)) in Hl, Hn. cbn [app] in Hl, Hn.
    exists (l0 ++ [(r, set_ma_next (λ _, ma_next m) mr)]). rewrite <-(assoc_L (++)). cbn [app]. split; [|split].
    + assert (∀ x y : option ptr, match l0 ++ [(r, mr)] with [] => x | _ :: _ => y end = y) as -> by (by destruct l0).
      by eapply lseg_unlink.
    + by rewrite !content_snoc.
    + by rewrite !fmap_app.
  - apply last_None in Hlast as ->. destruct Hl as (-> & _ & Hl). by exists [].
Qed.

Lemma unlinked_other l1 m h q : q ∉ l1.*1 → unlinked_heap l1 m h !! q = h !! q.
Proof.
  intros Hq. unfold unlinked_heap. destruct (last l1) as [[r mr]|] eqn:Hlast; [|done]. apply lookup_insert_ne.
  apply last_Some in Hlast as [l0 ->]. rewrite fmap_app in Hq. set_solver.
Qed.

(** The last cell of what is left. *)
Lemma unlinked_last (l1 l1' : list cell) q m l2 h p :
  lseg h p (l1 ++ (q, m) :: l2) None → l1'.*1 = l1.*1 →
  fst <$> last (l1' ++ l2) = (if bool_decide (ma_next m = None) then fst <$> last l1 else fst <$> last (l1 ++ (q, m) :: l2)).
Proof.
  intros (p' & _ & _ & _ & Hl2)%lseg_app Hf. rewrite <-!fmap_last, !fmap_app, Hf. case_bool_decide as Hm.
  - rewrite Hm in Hl2. destruct l2 as [|[q2 m2] l2]; [by rewrite app_nil_r|]. by destruct Hl2.
  - cbn [fmap list_fmap]. rewrite !last_app, last_cons. cbn [fst]. destruct (last l2.*1) eqn:Hl; [done|].
    apply last_None, fmap_nil_inv in Hl as ->. by cbn in Hl2.
Qed.

Lemma nodup_unlinked (l1 l1' l2 : list cell) x (k : list ptr) :
  l1'.*1 = l1.*1 → NoDup ((l1 ++ x :: l2).*1 ++ k) → NoDup ((l1' ++ l2).*1 ++ k) ∧ x.1 ∉ (l1' ++ l2).*1 ++ k.
Proof.
  intros Hf. rewrite !fmap_app, Hf. cbn. rewrite <-!(assoc_L (++)), <-app_comm_cons. intros Hn.
  assert (Hp : l1.*1 ++ x.1 :: l2.*1 ++ k ≡ₚ x.1 :: l1.*1 ++ l2.*1 ++ k) by (symmetry; apply Permutation_middle).
  rewrite Hp in Hn. by apply NoDup_cons in Hn as [? ?].
Qed.

(** What is left of a list of messages when the first one with the id is
    removed, with the message itself. *)
Fixpoint remove_first (mid : Z) (l : list message_all) : option (message_all * list message_all) :=
  match l with
  | [] => None
  | m :: l' =>
      if ma_mid m =? mid then Some (m, l')
      else '(x, r) ← remove_first mid l'; Some (x, m :: r)
  end.

Lemma content_cons q m l : contents ((q, m) :: l) = body m :: contents l.
Proof. done. Qed.

Lemma remove_first_none mid l : mid ∉ mids l → remove_first mid (contents l) = None.
Proof.
  induction l as [|[q m] l IH]; [done|]. change (mids ((q, m) :: l)) with (ma_mid m :: mids l). rewrite not_elem_of_cons. intros [Hne Hin].
  rewrite content_cons. cbn [remove_first]. change (ma_mid (body m)) with (ma_mid m).
  rewrite (proj2 (Z.eqb_neq _ _)) by congruence. by rewrite IH.
Qed.

Lemma remove_first_some mid l1 q m l2 :
  mid ∉ mids l1 → ma_mid m = mid → remove_first mid (contents (l1 ++ (q, m) :: l2)) = Some (body m, contents l1 ++ contents l2).
Proof.
  induction l1 as [|[q1 m1] l1 IH]; intros Hin Hm; rewrite <-?app_comm_cons; cbn [app]; rewrite !content_cons; cbn [remove_first].
  - change (ma_mid (body m)) with (ma_mid m). by rewrite (proj2 (Z.eqb_eq _ _)).
  - change (mids ((q1, m1) :: l1)) with (ma_mid m1 :: mids l1) in Hin. rewrite not_elem_of_cons in Hin. destruct Hin as [Hne Hin].
    change (ma_mid (body m1)) with (ma_mid m1). rewrite (proj2 (Z.eqb_neq _ _)) by congruence. by rewrite IH.
Qed.

(** What operations that send leave alone: everything but the queues, the
    network and the callbacks for packets sent. *)
Record op_frame (c c' : client) : Prop := {
  of_rest : (threaded c', message_retry c', last_retry_check c', max_inflight_messages c') =
            (threaded c, message_retry c, last_retry_check c, max_inflight_messages c);
  of_kept : base_kept (base c') = base_kept (base c);
  of_calls : ∃ l, callbacks c' = callbacks c ++ l ∧ Forall net_callback l;
  of_sock : sock (base c) = None → sock (base c') = None;
  of_out : outq_ok (base c) → outq_ok (base c');
}.

#[export] Instance op_frame_preorder : PreOrder op_frame.
Proof.
  split.
  - intros c. split; try done. exists []. by rewrite app_nil_r.
  - intros c1 c2 c3 [R1 K1 (l1 & C1 & F1) S1 O1] [R2 K2 (l2 & C2 & F2) S2 O2]. split; [by rewrite R2|by rewrite K2| |auto|auto].
    exists (l1 ++ l2). rewrite C2, C1, <-(assoc_L (++)). split; [done|]. by apply Forall_app.
Qed.

Lemma net_op_frame c c' : net_frame c c' → outq_ok (base c') → op_frame c c'.
Proof.
  intros Hf Ho. pose proof (net_frame_fields _ _ Hf) as (_ & _ & _ & _ & _ & _ & _ & _ & E1 & E2 & E3). destruct Hf as [R K C S].
  split; try done. assert (last_retry_check c' = last_retry_check c) by (rewrite <-R; by destruct c'). congruence.
Qed.

Lemma others_op_frame c c' : others c' = others c → op_frame c c'.
Proof.
  unfold others. intros [= E1 E2 E3 E4 E5 E6]. split; [congruence|by rewrite E1| |by rewrite E1|by rewrite E1].
  exists []. by rewrite app_nil_r.
Qed.

(** A message that waits for its turn, and one that is sent. *)
Definition waiting (m : message_all) : bool := (0 <? m_qos (ma_msg m)) && bool_decide (ma_state m = mosq_ms_invalid).
Definition begin (m : message_all) : message_all :=
  if m_qos (ma_msg m) =? 1 then set_ma_state (λ _, mosq_ms_wait_for_puback) m
  else if m_qos (ma_msg m) =? 2 then set_ma_state (λ _, mosq_ms_wait_for_pubrec) m else m.

Lemma begin_ok p m (Q : unit → client → Prop) c :
  heap c !! p = Some m → 0 < m_qos (ma_msg m) ≤ 2 → Q tt (set_cells <[p := begin m]> c) →
  wp (if m_qos (ma_msg m) =? 1 then upd_cell p (set_ma_state (λ _, mosq_ms_wait_for_puback))
      else if m_qos (ma_msg m) =? 2 then upd_cell p (set_ma_state (λ _, mosq_ms_wait_for_pubrec)) else ret tt) Q c.
Proof.
  intros Hp Hq HQ. unfold begin in HQ. destruct (Z.eqb_spec (m_qos (ma_msg m)) 1); [by apply (wp_upd_cell _ _ m)|].
  destruct (Z.eqb_spec (m_qos (ma_msg m)) 2); [by apply (wp_upd_cell _ _ m)|lia].
Qed.

(** The first [k] messages that wait are begun. *)
Fixpoint begin_first (k : nat) (l : list message_all) : list message_all :=
  match l with
  | [] => []
  | m :: l' =>
      if waiting m then match k with O => l | S k' => begin m :: begin_first k' l' end
      else m :: begin_first k l'
  end.
Definition count_waiting (l : list message_all) : nat := length (filter (λ m, waiting m = true) l).

Lemma begin_first_0 l : begin_first 0 l = l.
Proof. induction l as [|m l IH]; [done|]. cbn. destruct (waiting m); [done|]. by rewrite IH. Qed.

(** A message that can be sent. *)
Definition sized (m : message_all) : Prop :=
  slen (m_topic (ma_msg m)) < 65536 ∧ slen (m_payload (ma_msg m)) ≤ MQTT_MAX_PAYLOAD.

Lemma send_msg_ok now m : sized m → lib_safe (send_msg now m).
Proof. intros [? ?]. by apply lib_send_publish_safe. Qed.

(** The PUBLISH that goes out for a message: none without a connection, and
    none for a message too long for a packet. *)
Definition publish_packet (m : message_all) : bytes :=
  wire (publish_command (m_qos (ma_msg m)) (m_retain (ma_msg m)) (ma_dup m))
    (publish_body (ma_mid m) (m_topic (ma_msg m)) (m_payload (ma_msg m)) (m_qos (ma_msg m))).
Definition published (c : client) (m : message_all) : bytes :=
  if bool_decide (is_Some (sock (base c))) &&
     (slen (publish_body (ma_mid m) (m_topic (ma_msg m)) (m_payload (ma_msg m)) (m_qos (ma_msg m))) <? MAX_BODY)
  then publish_packet m else [].

Lemma send_msg_emits now m c :
  sized m → outq_ok (base c) →
  wp (send_msg now m) (λ rc c', net_frame c c' ∧ outq_ok (base c') ∧ stream_out c' = stream_out c ++ published c m ∧
    (rc = 0 → published c m = publish_packet m)) c.
Proof.
  intros [Ht Hp] Ho. unfold send_msg, lib_send_publish, published. apply wp_bind, wp_get.
  destruct (sock (base c)) eqn:Hs; [rewrite bool_decide_eq_true_2 by eauto|rewrite bool_decide_eq_false_2 by (intros [? ?]; done)]; cbn [andb].
  2:{ apply wp_ret. by rewrite app_nil_r. }
  destruct (Z.ltb_spec (slen (publish_body (ma_mid m) (m_topic (ma_msg m)) (m_payload (ma_msg m)) (m_qos (ma_msg m)))) MAX_BODY).
  - eapply wp_mono; [by apply lib_send_real_publish_emits|]. intros rc c' (? & ? & ?). done.
  - unfold wp. rewrite lib_send_real_publish_too_long; [by rewrite app_nil_r|]. split; [done|]. rewrite publish_body_length.
    unfold MQTT_MAX_PAYLOAD in *. destruct (0 <? _); lia.
Qed.

(** A cell of the outgoing list is changed in place. *)
Lemma rep_update_out li l1 q m l2 c f :
  rep li (l1 ++ (q, m) :: l2) c → ma_next (f m) = ma_next m → rep li (l1 ++ (q, f m) :: l2) (set_cells <[q := f m]> c).
Proof.
  intros Hrep Hf. destruct (rep_disjoint _ _ _ Hrep) as (_ & N2 & N12). destruct Hrep as [R1 R2 R3 R4 R5 R6 R7].
  assert (Hq : q ∈ (l1 ++ (q, m) :: l2).*1) by (rewrite fmap_app; set_solver).
  assert (Hfst : (l1 ++ (q, f m) :: l2).*1 = (l1 ++ (q, m) :: l2).*1) by (by rewrite !fmap_app).
  split; cbn; try done.
  - apply lseg_insert; [done|]. intros Hi. by apply (N12 q).
  - by apply lseg_update.
  - by rewrite <-fmap_last, Hfst, fmap_last.
  - by rewrite Hfst.
  - rewrite R7, !length_app. done.
Qed.

Section ops.
Context (now : Z).

Lemma remove_in_ok mid li lo c :
  rep li lo c →
  wp (lib_message_remove now mid mosq_md_in) (λ r c', others c' = others c ∧ inflight_messages c' = inflight_messages c ∧
    match remove_first mid (contents li) with
    | None => r = (MOSQ_ERR_NOT_FOUND, None) ∧ c' = c
    | Some (x, l) => ∃ p m li', r = (MOSQ_ERR_SUCCESS, Some p) ∧ heap c' !! p = Some m ∧ body m = x ∧
        rep li' lo c' ∧ contents li' = l ∧ p ∉ li'.*1 ++ lo.*1
    end) c.
Proof.
  intros Hrep. pose proof Hrep as [R1 R2 R3 R4 R5 R6 R7]. destruct (rep_disjoint _ _ _ Hrep) as (N1 & N2 & N12).
  unfold lib_message_remove. apply wp_bind, wp_gets, wp_bind, wp_get, wp_bind.
  eapply wp_mono; [apply (find_mid_ok _ mid None _ li); [done|by eapply lseg_size]|].
  intros r c' [-> Hr]. destruct r as [[prev q]|].
  2:{ apply wp_ret. rewrite remove_first_none by done. done. }
  destruct Hr as (l1 & m & l2 & -> & Hnin & Hm & ->).
  assert (Hq : heap c !! q = Some m) by (eapply lseg_lookup; [exact R1|set_solver]).
  rewrite remove_first_some by done.
  destruct (unlink_ok _ _ _ _ _ _ R1 N1) as (l1' & Hl & Hc & Hf).
  destruct (nodup_unlinked l1 l1' l2 (q, m) lo.*1 Hf R5) as [Hnd Hqn]. cbn [fst] in Hqn.
  pose proof (unlinked_last l1 l1' q m l2 _ _ R1 Hf) as Hlast.
  assert (Hql : q ∉ l1.*1) by (rewrite <-Hf; rewrite fmap_app in Hqn; set_solver).
  apply wp_bind, (wp_deref_cell _ m); [done|].
  assert (Hstep : ∀ (Q : unit → client → Prop),
    Q tt (set_cells (λ _, unlinked_heap l1 m (heap c)) (set_in_messages (λ _, unlinked_first l1 m (in_messages c)) c)) →
    wp (match match last l1 with Some x => Some x.1 | None => None end with
        | Some r => upd_cell r (set_ma_next (λ _, ma_next m))
        | None => mmodify (set_in_messages (λ _, ma_next m))
        end) Q c).
  { intros Q HQ. unfold unlinked_heap, unlinked_first in HQ. destruct (last l1) as [[r mr]|] eqn:Hl1.
    - apply (wp_upd_cell r _ mr).
      + apply last_Some in Hl1 as [l0 ->]. eapply lseg_lookup; [exact R1|set_solver].
      + destruct l1; [done|]. by destruct c.
    - apply last_None in Hl1 as ->. apply wp_modify. by destruct c. }
  apply wp_bind, Hstep, wp_bind, wp_modify, wp_bind, wp_get. set (c1 := set_in_queue_len _ _).
  assert (Hfirst : ma_next m ≠ None → in_messages c1 ≠ None).
  { intros Hnx. cbn. unfold unlinked_first. destruct l1 as [|[] ?]; [done|]. destruct R1 as (-> & _). done. }
  assert (Hend : wp (if bool_decide (ma_next m = None)
        then mmodify (set_in_messages_last (λ _, match last l1 with Some x => Some x.1 | None => None end))
        else if bool_decide (in_messages c1 = None) then mmodify (set_in_messages_last (λ _, None)) else ret tt)
    (λ _ c2, others c2 = others c ∧ inflight_messages c2 = inflight_messages c ∧ heap c2 = unlinked_heap l1 m (heap c) ∧
       rep (l1' ++ l2) lo c2) c1).
  { assert (Hout : lseg (unlinked_heap l1 m (heap c)) (out_messages c) lo None).
    { eapply lseg_frame; [exact R3|]. intros q' Hq'. apply unlinked_other. intros Hi. apply (N12 q'); [|done].
      rewrite fmap_app. set_solver. }
    assert (Hlen : in_queue_len c - 1 = Z.of_nat (length (l1' ++ l2))).
    { rewrite R6, !length_app. apply (f_equal length) in Hf. rewrite !length_fmap in Hf. rewrite Hf. cbn [length]. lia. }
    case_bool_decide as Hnx; [apply wp_modify|rewrite bool_decide_eq_false_2 by auto; apply wp_ret].
    - by split_and!; [..|split].
    - split_and!; [done..|]. split; cbn; try done. by rewrite Hlast. }
  apply wp_bind. eapply wp_mono; [exact Hend|]. intros [] c2 (Ho & Hi & Hh & Hrep2). apply wp_ret. split_and!; [done..|].
  exists q, m, (l1' ++ l2). split_and!; try done; [|by rewrite content_app, Hc]. by rewrite Hh, unlinked_other.
Qed.

(** The messages that wait, and the bytes of the first [k] of them. *)
Definition waiting_of (l : list message_all) : list message_all := filter (λ m, waiting m = true) l.
Definition packets_of (k : nat) (l : list message_all) : bytes := concat (publish_packet <$> take k (waiting_of l)).

Lemma waiting_cons m l : waiting_of (m :: l) = if waiting m then m :: waiting_of l else waiting_of l.
Proof. unfold waiting_of. rewrite filter_cons. by destruct (waiting m). Qed.

(** What became of [k] messages that were started one after the other, from the
    client [c] to [c']: all of them were sent; or the last one could not be. *)
Definition started (k : nat) (l : list message_all) (rc : Z) (c c' : client) : Prop :=
  if rc =? 0 then stream_out c' = stream_out c ++ packets_of k l
  else ∃ j m c1, k = S j ∧ waiting_of l !! j = Some m ∧ send_msg now m c1 = Some (rc, c') ∧
    stream_out c1 = stream_out c ++ packets_of j l.

Lemma started_same rc m l k c c' : waiting m = false → started k l rc c c' → started k (m :: l) rc c c'.
Proof. intros Hw. unfold started, packets_of. by rewrite waiting_cons, Hw. Qed.

Lemma started_first m l k rc c c1 c' :
  waiting m = true → stream_out c1 = stream_out c ++ publish_packet m → started k l rc c1 c' → started (S k) (m :: l) rc c c'.
Proof.
  intros Hw Hst. unfold started, packets_of. rewrite waiting_cons, Hw. destruct (rc =? 0).
  - intros ->. rewrite Hst. cbn. by rewrite <-(assoc_L (++)).
  - intros (j & m' & c2 & -> & Hj & Hs & Hc2). exists (S j), m', c2. split_and!; try done. rewrite Hc2, Hst. cbn. by rewrite <-(assoc_L (++)).
Qed.

Lemma start_waiting_ok n li l0 l cur c :
  rep li (l0 ++ l) c → lseg (heap c) cur l None → (length l ≤ n)%nat → Forall sized (contents l) → outq_ok (base c) →
  wp (start_waiting now n cur) (λ rc c', op_frame c c' ∧ ∃ k l', rep li (l0 ++ l') c' ∧ l'.*1 = l.*1 ∧
    contents l' = begin_first k (contents l) ∧ (k ≤ count_waiting (contents l))%nat ∧
    inflight_messages c' = inflight_messages c + Z.of_nat k ∧
    ((0 < k)%nat → max_inflight_messages c ≠ 0 → inflight_messages c' ≤ max_inflight_messages c) ∧
    (rc = 0 → k = count_waiting (contents l) ∨ room c' = false) ∧
    started k (contents l) rc c c' ∧
    (∀ p, p ∉ l.*1 → heap c' !! p = heap c !! p)) c.
Proof.
  revert l0 l cur c. induction n as [|n IH]; intros l0 l cur c Hrep Hl Hn Hs Ho; destruct l as [|[q m] l]; cbn in Hl, Hn; try lia.
  1,2: subst cur; apply wp_ret; split; [done|]; exists 0%nat, []; split_and!; try done; [lia|lia|by left|unfold started; cbn; by rewrite app_nil_r].
  destruct Hl as (-> & Hq & Hl). cbn [start_waiting]. apply wp_bind, wp_get. fold (room c). destruct (room c) eqn:Hroom.
  2:{ apply wp_ret. split; [done|]. exists 0%nat, ((q, m) :: l). rewrite begin_first_0.
      split_and!; try done; [lia|lia|lia|by right|unfold started; cbn; by rewrite app_nil_r]. }
  rewrite content_cons in Hs. apply Forall_cons in Hs as [Hsm Hsl]. apply wp_bind, (wp_deref_cell _ m); [done|].
  rewrite !content_cons. cbn [begin_first]. fold (waiting m). assert (Hwb : waiting (body m) = waiting m) by done.
  assert (Hcount : count_waiting (body m :: contents l) = ((if waiting m then 1 else 0) + count_waiting (contents l))%nat).
  { unfold count_waiting. destruct (waiting m) eqn:Hw; [by rewrite filter_cons_True by (by rewrite Hwb)|].
    by rewrite filter_cons_False by (rewrite Hwb; congruence). }
  assert (Hcons : ∀ c1 m1, rep li (l0 ++ (q, m1) :: l) c1 → ma_next m1 = ma_next m → lseg (heap c1) (ma_next m) l None).
  { intros c1 m1 Hr1 Hnx. pose proof (rp_out _ _ _ Hr1) as (? & _ & _ & _ & H2)%lseg_app. by rewrite Hnx in H2. }
  destruct (waiting m) eqn:Hw.
  - (* it is begun *)
    assert (Hbeg : wp (if m_qos (ma_msg m) =? 1 then upd_cell q (set_ma_state (λ _, mosq_ms_wait_for_puback))
         else if m_qos (ma_msg m) =? 2 then upd_cell q (set_ma_state (λ _, mosq_ms_wait_for_pubrec)) else ret tt)
      (λ _ c1, others c1 = others c ∧ inflight_messages c1 = inflight_messages c + 1 ∧ rep li (l0 ++ (q, begin m) :: l) c1 ∧
        (∀ p, p ≠ q → heap c1 !! p = heap c !! p))
      (set_inflight (λ k, k + 1) c)).
    { assert (Hrep' : rep li (l0 ++ (q, m) :: l) (set_inflight (λ k, k + 1) c)) by (by destruct Hrep; split).
      unfold begin. destruct (_ =? 1); [|destruct (_ =? 2)]; [apply (wp_upd_cell q _ m); [done|]..|by apply wp_ret].
      all: split_and!; [done|done|by apply (rep_update_out li l0 q m l)|]; intros p Hp; by apply lookup_insert_ne. }
    apply wp_bind, wp_bind, wp_modify, wp_bind. eapply wp_mono; [exact Hbeg|]. intros [] c1 (Ho1 & Hi1 & Hr1 & Hh1).
    assert (Hb1 : base c1 = base c) by (unfold others in Ho1; congruence).
    assert (Hm1 : max_inflight_messages c1 = max_inflight_messages c) by (unfold others in Ho1; congruence).
    assert (Hst1 : stream_out c1 = stream_out c) by (unfold stream_out; by rewrite Hb1).
    destruct (wp_inv _ _ _ (send_msg_emits now m c1 Hsm (eq_rect_r outq_ok Ho Hb1))) as (rc & c2 & Hsend & Hf2 & Hq2 & Hst2 & Hpub).
    unfold wp at 1. rewrite Hsend.
    assert (Hop : op_frame c c2) by (etrans; [apply others_op_frame, Ho1|by apply net_op_frame]).
    pose proof (rep_frame _ _ _ _ Hf2 Hr1) as Hr2. pose proof (net_frame_fields _ _ Hf2) as (Hh2 & _ & _ & _ & _ & _ & _ & Hi2 & Hm2 & _).
    assert (Hlim : max_inflight_messages c ≠ 0 → inflight_messages c2 ≤ max_inflight_messages c).
    { intros Hmax. unfold room in Hroom. rewrite (proj2 (Z.eqb_neq _ _)) in Hroom by lia. cbn [orb] in Hroom. lia. }
    assert (Hbody : begin (body m) = body (begin m)) by (unfold begin; change (m_qos (ma_msg (body m))) with (m_qos (ma_msg m)); by repeat case_match).
    assert (Hnx : ma_next (begin m) = ma_next m) by (unfold begin; by repeat case_match).
    destruct (Z.eqb_spec rc 0) as [->|Hrc].
    + eapply wp_mono; [apply (IH (l0 ++ [(q, begin m)]) l (ma_next m) c2); [by rewrite <-(assoc_L (++))|by eapply Hcons|lia|done|done]|].
      intros rc c3 (Hop3 & k & l' & Hr3 & Hf3 & Hc3 & Hk & Hi3 & Hlim3 & Hrc & Hstart & Hh3). split; [by etrans|]. exists (S k), ((q, begin m) :: l').
      rewrite <-(assoc_L (++)) in Hr3. rewrite Hcount. rewrite Hm2, Hm1 in Hlim3. split_and!; try done; try lia; [cbn; by rewrite Hf3|..].
      * rewrite content_cons, Hwb, Hbody, Hc3. done.
      * intros H0. destruct (Hrc H0) as [->|?]; [left; lia|by right].
      * apply (started_first (body m) _ k rc c c2); [done| |done]. rewrite Hst2, Hpub, Hst1 by done. done.
      * cbn. intros p Hp. rewrite not_elem_of_cons in Hp. destruct Hp. rewrite Hh3, Hh2, Hh1; done.
    + apply wp_ret. split; [done|]. exists 1%nat, ((q, begin m) :: l). rewrite Hcount, Hwb. split_and!; try done; try lia.
      * by rewrite content_cons, Hbody, begin_first_0.
      * unfold started. rewrite (proj2 (Z.eqb_neq _ _) Hrc), waiting_cons, Hwb. exists 0%nat, (body m), c1. cbn [packets_of take fmap list_fmap concat].
        rewrite app_nil_r. done.
      * cbn. intros p Hp. rewrite not_elem_of_cons in Hp. destruct Hp. rewrite Hh2, Hh1; done.
  - apply wp_bind, wp_ret. cbn [Z.eqb].
    eapply wp_mono; [apply (IH (l0 ++ [(q, m)]) l (ma_next m) c); [by rewrite <-(assoc_L (++))|done|lia|done|done]|].
    intros rc c3 (Hop3 & k & l' & Hr3 & Hf3 & Hc3 & Hk & Hi3 & Hlim3 & Hrc & Hstart & Hh3). split; [done|]. exists k, ((q, m) :: l').
    rewrite <-(assoc_L (++)) in Hr3. rewrite Hcount, Hwb. split_and!; try done; [cbn; by rewrite Hf3|by rewrite content_cons, Hc3|by apply started_same|].
    cbn. intros p Hp. rewrite not_elem_of_cons in Hp. destruct Hp. by apply Hh3.
Qed.

(** How many of [n] messages that wait are started, with [k] in flight. *)
Definition startable (max k : Z) (n : nat) : nat := if max =? 0 then n else Nat.min n (Z.to_nat (max - k)).

Lemma startable_spec c k i n :
  inflight_messages c = i + Z.of_nat k → (k ≤ n)%nat → ((0 < k)%nat → max_inflight_messages c ≠ 0 → inflight_messages c ≤ max_inflight_messages c) →
  (k ≤ startable (max_inflight_messages c) i n)%nat ∧ (k = n ∨ room c = false → k = startable (max_inflight_messages c) i n).
Proof.
  unfold startable, room. intros Hi Hk Hlim. destruct (Z.eqb_spec (max_inflight_messages c) 0); cbn [orb]; [split; [done|by intros [?|?]]|].
  assert (Hle : k = 0%nat ∨ (0 < k)%nat ∧ inflight_messages c ≤ max_inflight_messages c).
  { destruct (decide (k = 0)%nat); [by left|right]. split; [lia|apply Hlim; [lia|done]]. }
  split; [lia|]. intros [E|Hr%Z.ltb_ge]; lia.
Qed.

(** An outgoing message is unlinked: what [_mosquitto_message_remove] does
    before it looks for messages that wait. *)
Lemma unlink_out_ok {A} (k : M client A) li l1 q m l2 (Q : A → client → Prop) c :
  rep li (l1 ++ (q, m) :: l2) c →
  (∀ c2 l1', contents l1' = contents l1 → l1'.*1 = l1.*1 → others c2 = others c → rep li (l1' ++ l2) c2 →
     q ∉ li.*1 ++ (l1' ++ l2).*1 → heap c2 !! q = Some m →
     inflight_messages c2 = inflight_messages c - (if 0 <? m_qos (ma_msg m) then 1 else 0) → wp k Q c2) →
  wp ((match match last l1 with Some x => Some x.1 | None => None end with
       | Some r => upd_cell r (set_ma_next (λ _, ma_next m))
       | None => mmodify (set_out_messages (λ _, ma_next m))
       end) ;;;
      mmodify (set_out_queue_len (λ k, k - 1)) ;;;
      let* c := mget in
      (if bool_decide (ma_next m = None)
       then mmodify (set_out_messages_last (λ _, match last l1 with Some x => Some x.1 | None => None end))
       else if bool_decide (out_messages c = None) then mmodify (set_out_messages_last (λ _, None)) else ret tt) ;;;
      (if 0 <? m_qos (ma_msg m) then mmodify (set_inflight (λ k, k - 1)) else ret tt) ;;; k) Q c.
Proof.
  intros Hrep HQ. pose proof Hrep as [R1 R2 R3 R4 R5 R6 R7]. destruct (rep_disjoint _ _ _ Hrep) as (N1 & N2 & N12).
  assert (Hq : heap c !! q = Some m) by (eapply lseg_lookup; [exact R3|set_solver]).
  destruct (unlink_ok _ _ _ _ _ _ R3 N2) as (l1' & Hl & Hc & Hf).
  rewrite (comm (++)) in R5. destruct (nodup_unlinked l1 l1' l2 (q, m) li.*1 Hf R5) as [Hnd Hqn]. cbn [fst] in Hqn.
  pose proof (unlinked_last l1 l1' q m l2 _ _ R3 Hf) as Hlast.
  assert (Hql : q ∉ l1.*1) by (rewrite <-Hf; rewrite fmap_app in Hqn; set_solver).
  set (h' := unlinked_heap l1 m (heap c)).
  set (c1 := set_cells (λ _, h') (set_out_messages (λ _, unlinked_first l1 m (out_messages c)) c)).
  apply wp_bind. assert (Hstep : ∀ R : unit → client → Prop, R tt c1 →
    wp (match match last l1 with Some x => Some x.1 | None => None end with
        | Some r => upd_cell r (set_ma_next (λ _, ma_next m))
        | None => mmodify (set_out_messages (λ _, ma_next m))
        end) R c).
  { intros R HR. unfold c1, h', unlinked_heap, unlinked_first in HR. destruct (last l1) as [[r mr]|] eqn:Hl1.
    - apply (wp_upd_cell r _ mr).
      + apply last_Some in Hl1 as [l0 ->]. eapply lseg_lookup; [exact R3|set_solver].
      + destruct l1; [done|]. by destruct c.
    - apply last_None in Hl1 as ->. apply wp_modify. by destruct c. }
  apply Hstep, wp_bind, wp_modify, wp_bind, wp_get. set (c2 := set_out_queue_len _ _).
  assert (Hfirst : ma_next m ≠ None → out_messages c2 ≠ None).
  { intros Hnx. cbn. unfold unlinked_first. destruct l1 as [|[] ?]; [done|]. destruct R3 as (-> & _). done. }
  assert (Hin : lseg h' (in_messages c) li None).
  { eapply lseg_frame; [exact R1|]. intros q' Hq'. apply unlinked_other. intros Hi. apply (N12 q'); [done|].
    rewrite fmap_app. set_solver. }
  assert (Hlen : out_queue_len c - 1 = Z.of_nat (length (l1' ++ l2))).
  { rewrite R7, !length_app. apply (f_equal length) in Hf. rewrite !length_fmap in Hf. rewrite Hf. cbn [length]. lia. }
  assert (Hend : ∀ x, x = fst <$> last (l1' ++ l2) →
    wp ((if 0 <? m_qos (ma_msg m) then mmodify (set_inflight (λ k, k - 1)) else ret tt) ;;; k) Q (set_out_messages_last (λ _, x) c2)).
  { intros x Hx. rewrite (comm (++)) in Hnd, Hqn. 
    apply wp_bind. destruct (0 <? m_qos (ma_msg m)); [apply wp_modify|apply wp_ret]; (apply (HQ _ l1'); [done|done|done|by split|done| |cbn; lia]).
    all: cbn; unfold h'; by rewrite unlinked_other. }
  apply wp_bind. case_bool_decide as Hnx; [apply wp_modify, Hend; by rewrite Hlast|].
  rewrite bool_decide_eq_false_2 by auto. apply wp_ret.
  assert (E : c2 = set_out_messages_last (λ _, out_messages_last c2) c2) by done. rewrite E. apply Hend. by rewrite Hlast.
Qed.

(** How many of the messages in [l] are started when [x] is acknowledged. *)
Definition freed_slots (c : client) (x : message_all) (l : list message_all) : nat :=
  startable (max_inflight_messages c) (inflight_messages c - (if 0 <? m_qos (ma_msg x) then 1 else 0)) (count_waiting l).

Lemma remove_out_ok mid li lo c :
  rep li lo c → Forall sized (contents lo) → outq_ok (base c) →
  wp (lib_message_remove now mid mosq_md_out) (λ r c', op_frame c c' ∧
    match remove_first mid (contents lo) with
    | None => r = (MOSQ_ERR_NOT_FOUND, None) ∧ c' = c
    | Some (x, l) => ∃ p m lo' k, r.2 = Some p ∧ heap c' !! p = Some m ∧ body m = x ∧
        rep li lo' c' ∧ contents lo' = begin_first k l ∧ p ∉ li.*1 ++ lo'.*1 ∧ (k ≤ count_waiting l)%nat ∧
        inflight_messages c' = inflight_messages c - (if 0 <? m_qos (ma_msg x) then 1 else 0) + Z.of_nat k ∧
        (0 < max_inflight_messages c → inflight_messages c ≤ max_inflight_messages c →
           inflight_messages c' ≤ max_inflight_messages c) ∧
        (k ≤ freed_slots c x l)%nat ∧ (r.1 = 0 → k = freed_slots c x l) ∧
        started k l r.1 c c'
    end) c.
Proof.
  intros Hrep Hs Ho. pose proof Hrep as [R1 R2 R3 R4 R5 R6 R7]. destruct (rep_disjoint _ _ _ Hrep) as (N1 & N2 & N12).
  unfold lib_message_remove. apply wp_bind, wp_gets, wp_bind, wp_get, wp_bind.
  eapply wp_mono; [apply (find_mid_ok _ mid None _ lo); [done|by eapply lseg_size]|].
  intros r c' [-> Hr]. destruct r as [[prev q]|].
  2:{ apply wp_ret. rewrite remove_first_none by done. done. }
  destruct Hr as (l1 & m & l2 & -> & Hnin & Hm & ->).
  assert (Hq : heap c !! q = Some m) by (eapply lseg_lookup; [exact R3|set_solver]).
  rewrite remove_first_some by done. apply wp_bind, (wp_deref_cell _ m); [done|].
  apply (unlink_out_ok _ li l1 q m l2); [done|]. intros c2 l1' Hc Hf Ho2 Hrep2 Hqn Hq2 Hi2.
  assert (Hb2 : base c2 = base c ∧ max_inflight_messages c2 = max_inflight_messages c) by (unfold others in Ho2; naive_solver).
  destruct Hb2 as [Hb2 Hm2]. apply wp_bind, wp_get, wp_bind. eapply wp_mono.
  { apply (start_waiting_ok _ li [] (l1' ++ l2)); [done|apply Hrep2| | |by rewrite Hb2].
    - transitivity (length (l1 ++ (q, m) :: l2)); [|by eapply lseg_size]. apply (f_equal length) in Hf. rewrite !length_fmap in Hf.
      rewrite !length_app, Hf. cbn. lia.
    - rewrite content_app, Hc. rewrite content_app, content_cons in Hs. apply Forall_app in Hs as [? [_ ?]%Forall_cons]. by apply Forall_app. }
  intros rc c3 (Hop & k & l' & Hrep3 & Hf3 & Hc3 & Hk & Hi3 & Hlim & Hrc & Hstart & Hh3). apply wp_ret.
  split; [etrans; [by apply others_op_frame|done]|].
  rewrite content_app, Hc in Hc3, Hk, Hrc, Hstart. exists q, m, l', k. cbn [fst snd app] in *. rewrite Hf3.
  set (i := inflight_messages c - (if 0 <? m_qos (ma_msg m) then 1 else 0)).
  assert (Hi : inflight_messages c3 = i + Z.of_nat k) by (rewrite Hi3, Hi2; done). rewrite Hm2 in Hlim.
  assert (Hm3 : max_inflight_messages c3 = max_inflight_messages c) by (destruct Hop as [E _ _ _ _]; congruence).
  destruct (startable_spec c3 k i (count_waiting (contents l1 ++ contents l2))) as [Hs1 Hs2]; [done|done|by rewrite Hm3|].
  rewrite Hm3 in Hs1, Hs2. split_and!; try done.
  - rewrite Hh3; [done|]. set_solver.
  - intros Hmax Hle. destruct k; [unfold i in Hi; destruct (0 <? _); lia|]. apply Hlim; lia.
  - intros H0. apply Hs2. by apply Hrc.
  - unfold started in *. assert (Hst2 : stream_out c2 = stream_out c) by (unfold stream_out; by rewrite Hb2). by rewrite Hst2 in Hstart.
Qed.
End ops.
