(* ===== verification/ClientOps.v ===== *)
(** * The operations of the client library, and what they keep

    Retrying, acknowledging and resetting the messages of a client, in terms
    of the two lists that its queues represent ([rep]). *)

From stdpp Require Import base list numbers strings option sets gmap.
From Stdlib Require Import ZArith Lia.
From S2P Require Import Prelude Topic Packet State Store Send Messages Db Subs Acl Context Handlers Client ClientNet ClientQueue.
Local Open Scope Z_scope.
Local Open Scope broker_scope.

(** A cell of the incoming list is changed in place. *)
Lemma rep_update_in l1 q m l2 lo c f :
  rep (l1 ++ (q, m) :: l2) lo c → ma_next (f m) = ma_next m → rep (l1 ++ (q, f m) :: l2) lo (set_cells <[q := f m]> c).
Proof.
  intros Hrep Hf. destruct (rep_disjoint _ _ _ Hrep) as (N1 & _ & N12). destruct Hrep as [R1 R2 R3 R4 R5 R6 R7].
  assert (Hq : q ∈ (l1 ++ (q, m) :: l2).*1) by (rewrite fmap_app; set_solver).
  assert (Hfst : (l1 ++ (q, f m) :: l2).*1 = (l1 ++ (q, m) :: l2).*1) by (by rewrite !fmap_app).
  split; cbn; try done.
  - by apply lseg_update.
  - by rewrite <-fmap_last, Hfst, fmap_last.
  - apply lseg_insert; [done|]. by apply N12.
  - by rewrite Hfst.
  - rewrite R6, !length_app. done.
Qed.

(** A cell that is in neither list is freed. *)
Lemma rep_free li lo c p : rep li lo c → p ∉ li.*1 ++ lo.*1 → rep li lo (set_cells (delete p) c).
Proof.
  intros [R1 R2 R3 R4 R5 R6 R7] Hp. rewrite not_elem_of_app in Hp. destruct Hp. split; try done; cbn; by apply lseg_delete.
Qed.

(** A cell is allocated. *)
Lemma wp_alloc m (Q : ptr → client → Prop) c li lo :
  rep li lo c →
  (∀ p, p ∉ li.*1 ++ lo.*1 → rep li lo (set_cells <[p := m]> c) → Q p (set_cells <[p := m]> c)) → wp (alloc m) Q c.
Proof.
  intros [R1 R2 R3 R4 R5 R6 R7] HQ. unfold wp, alloc. set (p := fresh (dom (heap c))).
  assert (Hp : p ∉ dom (heap c)) by apply is_fresh.
  assert (Hi : p ∉ li.*1) by (intros Hi; exact (Hp (lseg_dom _ _ _ _ _ R1 Hi))). assert (Ho : p ∉ lo.*1) by (intros Ho; exact (Hp (lseg_dom _ _ _ _ _ R3 Ho))).
  apply HQ; [set_solver|]. split; try done; cbn; by apply lseg_insert.
Qed.

Section ops.
Context (now : Z).

(** ** Retrying *)

Definition retried (retry : Z) (m : message_all) : message_all :=
  if ma_timestamp m + retry <? now then
    match ma_state m with
    | mosq_ms_wait_for_puback | mosq_ms_wait_for_pubrec | mosq_ms_wait_for_pubrel | mosq_ms_wait_for_pubcomp =>
        set_ma_dup (λ _, true) (set_ma_timestamp (λ _, now) m)
    | _ => m
    end
  else m.

Lemma retried_body retry m : retried retry (body m) = body (retried retry m).
Proof. unfold retried. destruct m as [? ? st ? ? ?]. cbn. destruct (_ <? _); [|done]. by destruct st. Qed.

(** [R l c]: the list [l] is in the heap of [c], in one direction or the other. *)
Record in_place (R : list cell → client → Prop) : Prop := {
  ip_lseg l c : R l c → ∃ p, lseg (heap c) p l None;
  ip_update l1 q m l2 c f : R (l1 ++ (q, m) :: l2) c → ma_next (f m) = ma_next m →
    R (l1 ++ (q, f m) :: l2) (set_cells <[q := f m]> c);
  ip_frame l c c' : net_frame c c' → R l c → R l c';
}.

Lemma in_place_in lo : in_place (λ l c, rep l lo c).
Proof. split; [intros l c []; eauto|intros *; apply rep_update_in|intros *; apply rep_frame]. Qed.
Lemma in_place_out li : in_place (λ l c, rep li l c).
Proof. split; [intros l c []; eauto|intros *; apply rep_update_out|intros *; apply rep_frame]. Qed.

(** One message. *)
Definition retry_one (p : ptr) (m : message_all) (retry : Z) : M client unit :=
  if ma_timestamp m + retry <? now then
    let again := upd_cell p (λ m, set_ma_dup (λ _, true) (set_ma_timestamp (λ _, now) m)) in
    match ma_state m with
    | mosq_ms_wait_for_puback | mosq_ms_wait_for_pubrec =>
        again ;;; let* m := deref p in let* _ := send_msg now m in ret tt
    | mosq_ms_wait_for_pubrel => again ;;; let* _ := lib_send_pubrec now (ma_mid m) in ret tt
    | mosq_ms_wait_for_pubcomp => again ;;; let* _ := lib_send_pubrel now (ma_mid m) in ret tt
    | _ => ret tt
    end
  else ret tt.

Lemma retry_one_ok R l1 q m l2 c :
  in_place R → R (l1 ++ (q, m) :: l2) c → sized m → outq_ok (base c) →
  wp (retry_one q m (message_retry c)) (λ _ c', op_frame c c' ∧ inflight_messages c' = inflight_messages c ∧
    R (l1 ++ (q, retried (message_retry c) m) :: l2) c') c.
Proof.
  intros HR Hl Hs Ho. unfold retry_one, retried. destruct (_ <? now); [|by apply wp_ret].
  destruct (ip_lseg _ HR _ _ Hl) as (p & Hseg). assert (Hq : heap c !! q = Some m) by (eapply lseg_lookup; [exact Hseg|set_solver]).
  set (f := λ m, set_ma_dup (λ _, true) (set_ma_timestamp (λ _, now) m)). set (c1 := set_cells <[q := f m]> c).
  assert (Hl1 : R (l1 ++ (q, f m) :: l2) c1) by (by apply ip_update).
  assert (Hsend : ∀ act : M client Z, lib_safe act → wp (let* _ := act in ret tt) (λ _ c', op_frame c c' ∧ inflight_messages c' = inflight_messages c ∧
    R (l1 ++ (q, f m) :: l2) c') c1).
  { intros act Hact. apply wp_bind. eapply wp_mono; [by apply Hact|]. intros rc c2 [Hf2 Ho2]. apply wp_ret. split_and!.
    - transitivity c1; [by apply others_op_frame|by apply net_op_frame].
    - by pose proof (net_frame_fields _ _ Hf2) as (_ & _ & _ & _ & _ & _ & _ & -> & _).
    - by eapply ip_frame. }
  destruct (ma_state m); try (by apply wp_ret); apply wp_bind, (wp_upd_cell _ _ m); try done; fold c1.
  all: try (apply Hsend, (lib_emits_safe _ _ (lib_send_command_with_mid_emits _ _ _))).
  all: apply wp_bind, (wp_deref_cell _ (f m)); [apply lookup_insert_eq|]; by apply Hsend, send_msg_ok.
Qed.

Lemma retry_check_ok R n l0 l cur c :
  in_place R → R (l0 ++ l) c → lseg (heap c) cur l None → (length l ≤ n)%nat → Forall sized (contents l) → outq_ok (base c) →
  wp (retry_check now n cur) (λ _ c', op_frame c c' ∧ inflight_messages c' = inflight_messages c ∧
    ∃ l', R (l0 ++ l') c' ∧ l'.*1 = l.*1 ∧ contents l' = retried (message_retry c) <$> contents l) c.
Proof.
  intros HR. revert l0 l cur c. induction n as [|n IH]; intros l0 l cur c Hl Hseg Hn Hs Ho; destruct l as [|[q m] l]; cbn in Hseg, Hn; try lia.
  1,2: subst cur; apply wp_ret; split; [done|]; split; [done|]; by exists [].
  destruct Hseg as (-> & Hq & Hseg). rewrite content_cons in Hs. apply Forall_cons in Hs as [Hsm Hsl].
  cbn [retry_check]. apply wp_bind, (wp_deref_cell _ m); [done|]. apply wp_bind, wp_get, wp_bind. fold (retry_one q m (message_retry c)).
  eapply wp_mono; [by apply (retry_one_ok R l0 q m l)|]. intros [] c1 (Hop & Hi & Hl1).
  set (m1 := retried _ m) in *. assert (Hnx : ma_next m1 = ma_next m) by (unfold m1, retried; by repeat case_match).
  destruct (ip_lseg _ HR _ _ Hl1) as (p & (? & _ & -> & Hq1 & Hseg1)%lseg_app).
  apply wp_bind, (wp_deref_cell _ m1); [done|].
  eapply wp_mono; [apply (IH (l0 ++ [(q, m1)]) l (ma_next m1) c1); [by rewrite <-(assoc_L (++))|done|lia|done|by apply Hop]|].
  intros [] c2 (Hop2 & Hi2 & l' & Hl2 & Hf2 & Hc2). split; [by etrans|]. split; [congruence|].
  assert (Hretry : message_retry c1 = message_retry c) by (destruct Hop as [E _ _ _ _]; congruence).
  exists ((q, m1) :: l'). rewrite <-(assoc_L (++)) in Hl2. split; [done|]. split; [cbn; by rewrite Hf2|].
  rewrite !content_cons, fmap_cons, retried_body, Hc2, Hretry. done.
Qed.

Lemma message_retry_check_ok li lo c :
  rep li lo c → Forall sized (contents li) → Forall sized (contents lo) → outq_ok (base c) →
  wp (lib_message_retry_check now) (λ _ c', op_frame c c' ∧ inflight_messages c' = inflight_messages c ∧
    ∃ li' lo', rep li' lo' c' ∧ contents li' = retried (message_retry c) <$> contents li ∧
      contents lo' = retried (message_retry c) <$> contents lo) c.
Proof.
  intros Hrep Hsi Hso Ho. pose proof Hrep as [R1 R2 R3 R4 R5 R6 R7]. destruct (rep_disjoint _ _ _ Hrep) as (N1 & N2 & N12).
  unfold lib_message_retry_check. apply wp_bind, wp_gets, wp_bind, wp_get, wp_bind.
  eapply wp_mono; [apply (retry_check_ok _ _ [] lo _ _ (in_place_out li)); [done|done|by eapply lseg_size|done|done]|].
  intros [] c1 (Hop1 & Hi1 & lo' & Hl1 & Hf1 & Hc1). apply wp_bind, wp_get.
  eapply wp_mono; [apply (retry_check_ok _ _ [] li _ _ (in_place_in lo')); [done|apply Hl1|by eapply lseg_size|done|by apply Hop1]|].
  intros [] c2 (Hop2 & Hi2 & li' & Hl2 & Hf2 & Hc2). split; [by etrans|]. split; [congruence|].
  assert (Hretry : message_retry c1 = message_retry c) by (destruct Hop1 as [E _ _ _ _]; congruence).
  exists li', lo'. rewrite Hretry in Hc2. done.
Qed.

(** ** Acknowledging *)

Lemma delete_out_ok mid li lo c :
  rep li lo c → Forall sized (contents lo) → outq_ok (base c) →
  wp (lib_message_delete now mid mosq_md_out) (λ rc c', op_frame c c' ∧
    match remove_first mid (contents lo) with
    | None => rc = MOSQ_ERR_NOT_FOUND ∧ c' = c
    | Some (x, l) => ∃ lo' k, rep li lo' c' ∧ contents lo' = begin_first k l ∧ (k ≤ count_waiting l)%nat ∧
        inflight_messages c' = inflight_messages c - (if 0 <? m_qos (ma_msg x) then 1 else 0) + Z.of_nat k ∧
        (0 < max_inflight_messages c → inflight_messages c ≤ max_inflight_messages c →
           inflight_messages c' ≤ max_inflight_messages c) ∧
        (k ≤ freed_slots c x l)%nat ∧ (rc = 0 → k = freed_slots c x l) ∧ started now k l rc c c'
    end) c.
Proof.
  intros Hrep Hs Ho. unfold lib_message_delete. apply wp_bind. eapply wp_mono; [by apply remove_out_ok|].
  intros [rc res] c1 [Hop Hr]. destruct (remove_first mid (contents lo)) as [[x l]|].
  - destruct Hr as (p & m & lo' & k & Hres & Hp & Hx & Hrep1 & Hc1 & Hnin & Hk & Hi & Hlim & Hfs & Hrc & Hstart). cbn in Hres, Hrc, Hstart. subst res.
    destruct (Z.eqb_spec rc MOSQ_ERR_SUCCESS) as [->|Hne].
    + apply wp_bind, wp_bind. eapply wp_lift; [done|]. apply (wp_cleanup _ m); [done|]. apply wp_ret.
      split; [etrans; [exact Hop|by apply others_op_frame]|]. exists lo', k. split_and!; try done. by apply rep_free.
    + apply wp_bind, wp_ret, wp_ret. split; [done|]. exists lo', k. split_and!; done.
  - destruct Hr as [[= -> ->] ->]. apply wp_bind, wp_ret, wp_ret. done.
Qed.

(** The first message with the id is changed. *)
Fixpoint update_first (mid : Z) (f : message_all → message_all) (l : list message_all) : list message_all :=
  match l with
  | [] => []
  | m :: l' => if ma_mid m =? mid then f m :: l' else m :: update_first mid f l'
  end.

Lemma update_first_none mid f l : mid ∉ mids l → update_first mid f (contents l) = contents l.
Proof.
  induction l as [|[q m] l IH]; [done|]. change (mids ((q, m) :: l)) with (ma_mid m :: mids l). rewrite not_elem_of_cons. intros [Hne Hin].
  rewrite content_cons. cbn [update_first]. change (ma_mid (body m)) with (ma_mid m).
  rewrite (proj2 (Z.eqb_neq _ _)) by congruence. by rewrite IH.
Qed.

Lemma update_first_some mid f l1 q m l2 :
  mid ∉ mids l1 → ma_mid m = mid → update_first mid f (contents (l1 ++ (q, m) :: l2)) = contents l1 ++ f (body m) :: contents l2.
Proof.
  induction l1 as [|[q1 m1] l1 IH]; intros Hin Hm; rewrite <-?app_comm_cons; cbn [app]; rewrite !content_cons; cbn [update_first].
  - change (ma_mid (body m)) with (ma_mid m). by rewrite (proj2 (Z.eqb_eq _ _)).
  - change (mids ((q1, m1) :: l1)) with (ma_mid m1 :: mids l1) in Hin. rewrite not_elem_of_cons in Hin. destruct Hin as [Hne Hin].
    change (ma_mid (body m1)) with (ma_mid m1). rewrite (proj2 (Z.eqb_neq _ _)) by congruence. by rewrite IH.
Qed.

Definition now_in (state : msg_state) (m : message_all) : message_all :=
  set_ma_timestamp (λ _, now) (set_ma_state (λ _, state) m).

Lemma out_update_ok mid state li lo c :
  rep li lo c →
  wp (lib_message_out_update now mid state) (λ rc c', others c' = others c ∧ inflight_messages c' = inflight_messages c ∧
    (rc = MOSQ_ERR_NOT_FOUND ∨ rc = MOSQ_ERR_SUCCESS) ∧
    ∃ lo', rep li lo' c' ∧ contents lo' = update_first mid (now_in state) (contents lo)) c.
Proof.
  intros Hrep. pose proof Hrep as [_ _ R3 _ _ _ _]. destruct (rep_disjoint _ _ _ Hrep) as (_ & N2 & _).
  unfold lib_message_out_update. apply wp_bind, wp_gets, wp_bind, wp_get, wp_bind.
  eapply wp_mono; [apply (find_mid_ok _ mid None _ lo); [done|by eapply lseg_size]|].
  intros r c' [-> Hr]. destruct r as [[prev q]|].
  - destruct Hr as (l1 & m & l2 & -> & Hnin & Hm & _). rewrite update_first_some by done.
    assert (Hq : heap c !! q = Some m) by (eapply lseg_lookup; [exact R3|set_solver]).
    apply wp_bind, (wp_upd_cell _ _ m); [done|]. apply wp_ret. split_and!; [done|done|by right|].
    exists (l1 ++ (q, now_in state m) :: l2). split; [by apply (rep_update_out li l1 q m l2)|]. by rewrite content_app.
  - apply wp_ret. rewrite update_first_none by done. split_and!; [done|done|by left|]. by exists lo.
Qed.

(** ** Reconnecting *)

Abbreviation untimed := (set_ma_timestamp (λ _, 0)).

(** The end of a list that is walked from [prev] on. *)
Definition end_of (prev : option ptr) (l : list cell) : option ptr := match last l with Some x => Some x.1 | None => prev end.
Lemma end_of_cons prev q m l : end_of prev ((q, m) :: l) = end_of (Some q) l.
Proof. unfold end_of. rewrite last_cons. by destruct (last l). Qed.

Lemma reset_in_ok n prev cur l c :
  lseg (heap c) cur l None → NoDup l.*1 → (length l ≤ n)%nat → Forall (λ m, m_qos (ma_msg m) = 2) (contents l) →
  wp (reset_in n prev cur) (λ r c', r = end_of prev l ∧ c' = set_cells (λ _, heap c') (set_in_queue_len (λ k, k + Z.of_nat (length l)) c) ∧
    (∀ p, p ∉ l.*1 → heap c' !! p = heap c !! p) ∧
    ∃ l', lseg (heap c') cur l' None ∧ l'.*1 = l.*1 ∧ contents l' = untimed <$> contents l) c.
Proof.
  revert prev cur l c. induction n as [|n IH]; intros prev cur l c Hl Hnd Hn Hq2; destruct l as [|[q m] l]; cbn in Hl, Hn; try lia.
  1,2: subst cur; apply wp_ret; split; [done|]; split; [destruct c; unfold set_cells, set_inflight, set_in_queue_len, set_out_queue_len; cbn; f_equal; lia|]; split; [done|]; by exists [].
  destruct Hl as (-> & Hq & Hl). rewrite fmap_cons in Hnd. apply NoDup_cons in Hnd as [Hqn Hnd]. cbn [fst] in Hqn.
  rewrite content_cons in Hq2. apply Forall_cons in Hq2 as [Hqm Hql]. change (m_qos (ma_msg (body m))) with (m_qos (ma_msg m)) in Hqm.
  cbn [reset_in]. apply wp_bind, wp_modify, wp_bind, (wp_upd_cell _ _ m); [done|].
  apply wp_bind, (wp_deref_cell _ (untimed m)); [apply lookup_insert_eq|]. change (m_qos (ma_msg (untimed m))) with (m_qos (ma_msg m)).
  rewrite Hqm. cbn [Z.eqb negb]. apply wp_bind, wp_ret, wp_bind. eapply wp_lift; [done|].
  apply wp_bind, (wp_deref_cell _ (untimed m)); [apply lookup_insert_eq|]. change (ma_next (untimed m)) with (ma_next m).
  set (c1 := set_cells _ _). eapply wp_mono; [apply (IH (Some q) (ma_next m) l c1); [by apply lseg_insert|done|lia|done]|].
  intros r c2 (-> & Hc2 & Hh & l' & Hl' & Hf & Hc). split; [by rewrite end_of_cons|]. split_and!.
  - rewrite Hc2. destruct c. unfold set_cells, set_in_queue_len. cbn. f_equal. lia.
  - intros p Hp. cbn in Hp. rewrite not_elem_of_cons in Hp. destruct Hp. rewrite Hh by done. by apply lookup_insert_ne.
  - exists ((q, untimed m) :: l'). split; [|split; [cbn; by rewrite Hf|by rewrite !content_cons, fmap_cons, Hc]].
    cbn. split_and!; [done|rewrite Hh by done; apply lookup_insert_eq|done].
Qed.

(** The outgoing messages: those for which there is room are in flight. *)
Fixpoint reset_list (max k : Z) (l : list message_all) : Z * list message_all :=
  match l with
  | [] => (k, [])
  | m :: l' =>
      if (max =? 0) || (k <? max) then
        let k' := if 0 <? m_qos (ma_msg m) then k + 1 else k in
        let '(n, r) := reset_list max k' l' in
        (n, (if m_qos (ma_msg m) =? 1 then set_ma_state (λ _, mosq_ms_wait_for_puback) (untimed m) else untimed m) :: r)
      else
        let '(n, r) := reset_list max k l' in
        (n, set_ma_state (λ _, mosq_ms_invalid) (untimed m) :: r)
  end.

Lemma reset_one_ok q m c (Q : unit → client → Prop) :
  heap c !! q = Some m →
  Q tt (set_cells <[q := if m_qos (ma_msg m) =? 1 then set_ma_state (λ _, mosq_ms_wait_for_puback) m else m]>
    (set_inflight (λ _, if 0 <? m_qos (ma_msg m) then inflight_messages c + 1 else inflight_messages c) c)) →
  wp ((if 0 <? m_qos (ma_msg m) then mmodify (set_inflight (λ k, k + 1)) else ret tt) ;;;
      (if m_qos (ma_msg m) =? 1 then upd_cell q (set_ma_state (λ _, mosq_ms_wait_for_puback)) else ret tt)) Q c.
Proof.
  intros Hq HQ. apply wp_bind.
  assert (E : ∀ d, heap d !! q = Some m → set_cells <[q := m]> d = d) by (intros [] Hd; unfold set_cells; cbn in *; by rewrite insert_id).
  destruct (0 <? _); [apply wp_modify|apply wp_ret]; (destruct (_ =? 1); [apply (wp_upd_cell _ _ m); [done|]|apply wp_ret]).
  all: rewrite ?E in HQ by done; by destruct c.
Qed.

Lemma reset_out_ok n prev cur l c :
  lseg (heap c) cur l None → NoDup l.*1 → (length l ≤ n)%nat →
  wp (reset_out_msgs n prev cur) (λ r c', r = end_of prev l ∧
    let rl := reset_list (max_inflight_messages c) (inflight_messages c) (contents l) in
    c' = set_cells (λ _, heap c') (set_inflight (λ _, rl.1) (set_out_queue_len (λ k, k + Z.of_nat (length l)) c)) ∧
    (∀ p, p ∉ l.*1 → heap c' !! p = heap c !! p) ∧
    ∃ l', lseg (heap c') cur l' None ∧ l'.*1 = l.*1 ∧ contents l' = rl.2) c.
Proof.
  revert prev cur l c. induction n as [|n IH]; intros prev cur l c Hl Hnd Hn; destruct l as [|[q m] l]; cbn in Hl, Hn; try lia.
  1,2: subst cur; apply wp_ret; split; [done|]; cbn zeta; split; [destruct c; unfold set_cells, set_inflight, set_in_queue_len, set_out_queue_len; cbn; f_equal; lia|]; split; [done|]; by exists [].
  destruct Hl as (-> & Hq & Hl). rewrite fmap_cons in Hnd. apply NoDup_cons in Hnd as [Hqn Hnd]. cbn [fst] in Hqn.
  cbn [reset_out_msgs]. apply wp_bind, wp_modify, wp_bind, (wp_upd_cell _ _ m); [done|].
  apply wp_bind, (wp_deref_cell _ (untimed m)); [apply lookup_insert_eq|]. change (m_qos (ma_msg (untimed m))) with (m_qos (ma_msg m)).
  change (ma_next (untimed m)) with (ma_next m). apply wp_bind, wp_get. set (c1 := set_cells _ _).
  (* the state after this message: [m'] in its cell, [k'] in flight *)
  assert (Hrest : ∀ c2 m' k', c2 = set_cells <[q := m']> (set_inflight (λ _, k') c1) → ma_next m' = ma_next m →
    wp (reset_out_msgs n (Some q) (ma_next m)) (λ r c', r = end_of prev ((q, m) :: l) ∧
      let rl := reset_list (max_inflight_messages c) k' (contents l) in
      c' = set_cells (λ _, heap c') (set_inflight (λ _, rl.1) (set_out_queue_len (λ k, k + Z.of_nat (length ((q, m) :: l))) c)) ∧
      (∀ p, p ∉ ((q, m) :: l).*1 → heap c' !! p = heap c !! p) ∧
      ∃ l', lseg (heap c') (Some q) ((q, m') :: l') None ∧ l'.*1 = l.*1 ∧ contents l' = rl.2) c2).
  { intros c2 m' k' -> Hnx. set (c2 := set_cells _ _).
    eapply wp_mono; [apply (IH (Some q) (ma_next m) l c2); [by repeat apply lseg_insert|done|lia]|].
    intros r c3 (-> & Hc3 & Hh & l' & Hl' & Hf & Hc). cbn zeta in *. split; [by rewrite end_of_cons|]. split_and!.
    - rewrite Hc3. destruct c. unfold set_cells, set_inflight, set_out_queue_len. cbn. f_equal. lia.
    - intros p Hp. cbn in Hp. rewrite not_elem_of_cons in Hp. destruct Hp. rewrite Hh by done. cbn. by rewrite !lookup_insert_ne.
    - exists l'. split; [|done]. cbn. rewrite Hnx. split_and!; [done|rewrite Hh by done; apply lookup_insert_eq|done]. }
  change (max_inflight_messages c1) with (max_inflight_messages c). change (inflight_messages c1) with (inflight_messages c).
  rewrite content_cons. cbn [reset_list]. change (m_qos (ma_msg (body m))) with (m_qos (ma_msg m)).
  set (k1 := if 0 <? m_qos (ma_msg m) then inflight_messages c + 1 else inflight_messages c).
  assert (Hheap : heap c1 !! q = Some (untimed m)) by apply lookup_insert_eq.
  destruct (_ || _).
  - set (m1 := if m_qos (ma_msg m) =? 1 then set_ma_state (λ _, mosq_ms_wait_for_puback) (untimed m) else untimed m).
    apply wp_bind, (reset_one_ok q (untimed m)); [done|]. fold m1. eapply wp_mono; [by apply (Hrest _ m1 k1); [done|unfold m1; destruct (_ =? 1)]|].
    intros r c2 (-> & Hc2 & Hh & l' & Hl' & Hf & Hc). cbn zeta in *. destruct (reset_list _ k1 _) as [k2 r2]. split; [done|].
    split; [done|]. split; [done|]. exists ((q, m1) :: l'). split; [done|]. split; [cbn; by rewrite Hf|].
    rewrite content_cons, Hc. cbn [snd]. f_equal. unfold m1. by destruct (_ =? 1).
  - apply wp_bind, (wp_upd_cell _ _ (untimed m)); [done|].
    eapply wp_mono; [apply (Hrest _ (set_ma_state (λ _, mosq_ms_invalid) (untimed m)) (inflight_messages c)); [by destruct c|done]|].
    intros r c2 (-> & Hc2 & Hh & l' & Hl' & Hf & Hc). cbn zeta in *. destruct (reset_list _ _ _) as [k2 r2]. split; [done|].
    split; [done|]. split; [done|]. exists ((q, set_ma_state (λ _, mosq_ms_invalid) (untimed m)) :: l'). split; [done|].
    split; [cbn; by rewrite Hf|]. by rewrite content_cons, Hc.
Qed.

(** [out_messages_last] is right if an outgoing message was found, or if no
    incoming one was: the walk starts from the last incoming message. *)
Lemma reconnect_reset_ok li lo c :
  rep li lo c → Forall (λ m, m_qos (ma_msg m) = 2) (contents li) →
  wp lib_messages_reconnect_reset (λ _ c', others c' = others c ∧
    out_messages_last c' = end_of (end_of None li) lo ∧
    ∃ li' lo', let rl := reset_list (max_inflight_messages c) 0 (contents lo) in
      rep li' lo' (set_out_messages_last (λ _, end_of None lo) c') ∧
      contents li' = untimed <$> contents li ∧ contents lo' = rl.2 ∧ inflight_messages c' = rl.1 ∧
      li'.*1 = li.*1 ∧ lo'.*1 = lo.*1) c.
Proof.
  intros Hrep Hq2. pose proof Hrep as [R1 R2 R3 R4 R5 R6 R7]. destruct (rep_disjoint _ _ _ Hrep) as (N1 & N2 & N12).
  unfold lib_messages_reconnect_reset. apply wp_bind, wp_gets, wp_bind, wp_get, wp_bind, wp_modify, wp_bind.
  set (c1 := set_in_queue_len _ _).
  eapply wp_mono; [apply (reset_in_ok _ None _ li c1); [done|done|by eapply lseg_size|done]|].
  intros r c2 (-> & Hc2 & Hh2 & li' & Hl2 & Hf2 & Hcont2).
  apply wp_bind, wp_modify, wp_bind, wp_modify, wp_bind, wp_modify, wp_bind. set (c3 := set_out_queue_len _ _).
  assert (Hh3 : heap c3 = heap c2) by done.
  eapply wp_mono; [apply (reset_out_ok _ (end_of None li) _ lo c3); [|done|by eapply lseg_size]|].
  { eapply lseg_frame; [exact R3|]. intros q Hq. rewrite Hh3, Hh2; [done|]. intros Hi. by apply (N12 q). }
  intros r c4 (-> & Hc4 & Hh4 & lo' & Hl4 & Hf4 & Hcont4). cbn zeta in *.
  apply wp_modify. clear R2 R4. assert (Hm : max_inflight_messages c3 = max_inflight_messages c) by (unfold c3; by rewrite Hc2).
  rewrite Hm in *. change (inflight_messages c3) with 0 in *. split_and!; [by rewrite Hc4; unfold c3; rewrite Hc2|done|].
  exists li', lo'. split_and!; try done; [|by rewrite Hc4].
  assert (Hlen : ∀ l l' : list cell, l'.*1 = l.*1 → length l' = length l) by (intros l l' E; by rewrite <-(length_fmap fst), E, length_fmap).
  split; cbn.
  - replace (in_messages c4) with (in_messages c) by (rewrite Hc4; unfold c3; by rewrite Hc2).
    eapply lseg_frame; [exact Hl2|]. intros q Hq. rewrite Hf2 in Hq. apply Hh4. by apply N12.
  - rewrite Hc4. cbn. unfold end_of. rewrite <-fmap_last, Hf2, fmap_last. by destruct (last li) as [[]|].
  - replace (out_messages c4) with (out_messages c) by (rewrite Hc4; unfold c3; by rewrite Hc2). done.
  - unfold end_of. rewrite <-fmap_last, Hf4, fmap_last. by destruct (last lo) as [[]|].
  - by rewrite Hf2, Hf4.
  - rewrite Hc4. cbn. rewrite Hc2. cbn. by rewrite (Hlen _ _ Hf2).
  - rewrite Hc4. cbn. by rewrite (Hlen _ _ Hf4).
Qed.
End ops.
