(* ===== verification/ClientInv.v ===== *)
(** * The invariant of the client library

    Every operation of the interface and every packet, whatever its bytes,
    keeps the queues of a client well formed ([client_inv]). *)

From stdpp Require Import base list numbers strings option sets gmap.
From Stdlib Require Import ZArith Lia.
From S2P Require Import Prelude Topic Packet State Store Send Messages Db Subs Acl Context Handlers Client ClientNet ClientQueue ClientOps.
Local Open Scope Z_scope.
Local Open Scope broker_scope.

(** A message that came in and waits to be released; one that goes out. *)
Record in_ok (m : message_all) : Prop := {
  io_qos : m_qos (ma_msg m) = 2;
  io_state : ma_state m = mosq_ms_wait_for_pubrel;
  io_sized : sized m;
}.
Record out_ok (m : message_all) : Prop := {
  oo_qos : 0 < m_qos (ma_msg m) ≤ 2;
  oo_sized : sized m;
}.

Definition queues_ok (c : client) : Prop :=
  ∃ li lo, rep li lo c ∧ Forall in_ok (contents li) ∧ Forall out_ok (contents lo).

Definition within_limit (c : client) : Prop :=
  0 < max_inflight_messages c → inflight_messages c ≤ max_inflight_messages c.

Lemma read_byte_advances p b p' : _mosquitto_read_byte p = Some (inr b, p') → packet_ok p → pos p' = pos p + 1.
Proof.
  intros Hr (Hpos & Hl & _). revert Hr. unfold _mosquitto_read_byte. destruct (_ <? _); [done|]. destruct (payload p); cbn; [|done].
  destruct (_ !! _); cbn; [|done]. intros [= _ <-]. cbn. apply u32_small. unfold MAX_BODY in Hl. lia.
Qed.

Section inv.
(** Whether the limit of messages in flight is kept, too: it need not be if it
    is lowered while messages are in flight. *)
Context (bounded : bool).

Record core_inv (c : client) : Prop := {
  ci_queues : queues_ok c;
  ci_out : outq_ok (base c);
  ci_mid : 0 ≤ last_mid (base c) < 65536;
  ci_strings : strings_ok (base c);
  ci_proto : is_Some (connect_head (protocol (base c)));
  ci_limit : bounded = true → within_limit c;
}.

(** Between two calls, the packet that comes in is in a state in which reading
    it can go on. *)
Record client_inv (c : client) : Prop := {
  cl_core : core_inv c;
  cl_reader : is_Some (sock (base c)) → reader_inv (c_in_packet (base c));
}.

(** When a packet is handled. *)
Definition handles (c : client) : Prop := core_inv c ∧ packet_ok (c_in_packet (base c)).

Lemma kept_fields b b' :
  base_kept b' = base_kept b →
  protocol b' = protocol b ∧ id b' = id b ∧ username b' = username b ∧ password b' = password b ∧ last_mid b' = last_mid b ∧
  c_in_packet b' = c_in_packet b ∧ will b' = will b ∧ cstate b' = cstate b ∧ rd b' = rd b.
Proof. unfold base_kept. intros E. injection E. intros. by split_and!. Qed.

Lemma core_frame c c' :
  core_inv c → op_frame c c' → queues_ok c' → (bounded = true → within_limit c') → core_inv c'.
Proof.
  intros [_ Ho Hm [S1 S2 S3 S4] Hp _] [_ Hk _ _ Hout] Hq Hl. apply kept_fields in Hk as (E1 & E2 & E3 & E4 & E5 & _ & E6 & _).
  split; [done|by apply Hout|by rewrite E5| |by rewrite E1|done]. split; [by rewrite E2|by rewrite E3|by rewrite E4|by rewrite E6].
Qed.

Lemma core_net c c' : core_inv c → net_frame c c' → outq_ok (base c') → core_inv c'.
Proof.
  intros Hc Hf Ho. eapply core_frame; [done|by apply net_op_frame| |].
  - destruct (ci_queues _ Hc) as (li & lo & Hrep & ?). exists li, lo. split; [by eapply rep_frame|done].
  - intros Hb. pose proof (ci_limit _ Hc Hb). destruct (net_frame_fields _ _ Hf) as (_ & _ & _ & _ & _ & _ & _ & E1 & E2 & _).
    unfold within_limit. by rewrite E1, E2.
Qed.

Lemma handles_net c c' : handles c → net_frame c c' → outq_ok (base c') → handles c'.
Proof.
  intros [Hc Hp] Hf Ho. split; [by eapply core_net|]. destruct Hf as [_ (_ & _ & _ & _ & _ & -> & _)%kept_fields _ _]. done.
Qed.

(** A field of [base] outside the invariant. *)
Lemma core_base c b :
  core_inv c → outq_ok b → (protocol b, id b, username b, password b, last_mid b, will b) =
    (protocol (base c), id (base c), username (base c), password (base c), last_mid (base c), will (base c)) →
  core_inv (set_base (λ _, b) c).
Proof.
  intros [Hq Ho Hm [S1 S2 S3 S4] Hp Hl] Hb E. injection E as E1 E2 E3 E4 E5 E6. split; cbn; try done.
  - destruct Hq as (li & lo & [] & ?). exists li, lo. split; [by split|done].
  - by rewrite E5.
  - split; [by rewrite E2|by rewrite E3|by rewrite E4|by rewrite E6].
  - by rewrite E1.
Qed.

Lemma core_call c e : core_inv c → core_inv (set_callbacks (λ l, l ++ [e]) c).
Proof. intros [Hq ? ? [] ? ?]. split; try done. destruct Hq as (li & lo & [] & ?). exists li, lo. split; [by split|done]. Qed.

(** ** The bodies of the handlers *)

Definition lsafe {A} (m : M client (Z + A)) (Q : A → client → Prop) (c : client) : Prop :=
  wp m (λ r c', match r with inl _ => core_inv c' | inr a => Q a c' end) c.

Lemma lsafe_bind {A B} (m : M client (Z + A)) (k : A → M client (Z + B)) Q c :
  lsafe m (λ a c', lsafe (k a) Q c') c → lsafe (ebind m k) Q c.
Proof. intros Hm. apply wp_bind. eapply wp_mono; [exact Hm|]. intros [rc|a] c' Hc'; [by apply wp_ret|done]. Qed.

Lemma lsafe_lift {A} (m : M client A) Q c : wp m Q c → lsafe (lift_m m) Q c.
Proof. intros Hm. apply wp_bind. eapply wp_mono; [exact Hm|]. intros a c' ?. by apply wp_ret. Qed.

Lemma lsafe_fail {A} rc (Q : A → client → Prop) c : core_inv c → lsafe (fail rc) Q c.
Proof. intros H. by apply wp_ret. Qed.

Lemma lsafe_done {A} (a : A) Q c : Q a c → lsafe (done_with a) Q c.
Proof. intros H. by apply wp_ret. Qed.

Lemma lsafe_mono {A} (m : M client (Z + A)) (Q R : A → client → Prop) c :
  lsafe m Q c → (∀ a c', Q a c' → R a c') → lsafe m R c.
Proof. intros Hm HQ. eapply wp_mono; [exact Hm|]. intros [rc|a] c' ?; auto. Qed.

Lemma lreturns (m : M client (Z + Z)) c : lsafe m (λ _ c', core_inv c') c → wp (returns m) (λ _ c', core_inv c') c.
Proof. intros Hm. apply wp_bind. eapply wp_mono; [exact Hm|]. intros [rc|rc] c' ?; by apply wp_ret. Qed.

(** Reading from the packet changes [pos] alone. *)
Definition moved (p : packet) (c : client) : client := set_base (set_in_packet (λ _, p)) c.

Lemma lread {A} (r : reader A) (P : A → Prop) c :
  handles c → safe_reader P r →
  lsafe (lib_read r) (λ a c', ∃ p, r (c_in_packet (base c)) = Some (inr a, p) ∧ P a ∧ c' = moved p c ∧ handles c' ∧
    remaining_length p = remaining_length (c_in_packet (base c)) ∧ pos (c_in_packet (base c)) ≤ pos p) c.
Proof.
  intros [Hc Hp] Hr. destruct (Hr _ Hp) as (res & p' & Hrun & Hp' & Hl & Hpos & _ & Hcmd & Hres).
  apply wp_on_base. unfold wp, read_in. rewrite Hrun. cbn [mbind option_bind].
  assert (Hc' : core_inv (moved p' c)) by (apply (core_base c (set_in_packet (λ _, p') (base c))); [done|apply Hc|done]).
  destruct res as [rc|a]; [exact Hc'|]. exists p'. by split_and!.
Qed.

Section handlers.
Context (now : Z).

Lemma lsend_ok (m : M client Z) bs c :
  lib_emits m bs → core_inv c → wp m (λ _ c', core_inv c' ∧ net_frame c c' ∧ stream_out c' = stream_out c ++ bs) c.
Proof.
  intros Hm Hc. eapply wp_mono; [apply Hm, Hc|]. intros rc c' (Hf & Ho & Hs). split; [by eapply core_net|done].
Qed.

Lemma lib_mid_ok cmd m c : core_inv c → wp (lib_send_command_with_mid now cmd m false) (λ _ c', core_inv c') c.
Proof. intros Hc. eapply wp_mono; [exact (lsend_ok _ _ _ (lib_send_command_with_mid_emits now cmd m) Hc)|]. naive_solver. Qed.

Lemma lib_handle_pingreq_ok c : handles c → wp (lib_handle_pingreq now) (λ _ c', core_inv c') c.
Proof. intros [Hc _]. eapply wp_mono; [exact (lsend_ok _ _ _ (lib_send_simple_command_emits now PINGRESP) Hc)|]. naive_solver. Qed.

Lemma lib_handle_pingresp_ok c : handles c → wp lib_handle_pingresp (λ _ c', core_inv c') c.
Proof. intros [Hc _]. apply wp_bind, wp_modify, wp_ret. by apply (core_base c (set_ping_t (λ _, 0) (base c))); [|apply Hc|]. Qed.

Lemma Forall_begin_first (P : message_all → Prop) k l :
  (∀ m, P m → P (begin m)) → Forall P l → Forall P (begin_first k l).
Proof.
  intros HP Hl. revert k. induction Hl as [|m l Hm Hl IH]; intros k; cbn; [done|].
  destruct (waiting m); [destruct k; [by constructor|]|]; constructor; auto.
Qed.

Lemma out_ok_begin m : out_ok m → out_ok (begin m).
Proof. intros [H1 H2]. unfold begin. destruct (_ =? 1); [|destruct (_ =? 2)]; by split. Qed.

Lemma Forall_remove_first (P : message_all → Prop) mid l x r :
  remove_first mid l = Some (x, r) → Forall P l → P x ∧ Forall P r.
Proof.
  revert x r. induction l as [|m l IH]; intros x r; cbn; [done|]. intros Hr [Hm Hl]%Forall_cons. destruct (_ =? _).
  - by injection Hr as -> ->.
  - destruct (remove_first mid l) as [[x' r']|]; [|done]. injection Hr as -> <-. destruct (IH x r') as [? ?]; [done..|]. by auto.
Qed.

Lemma sized_out l : Forall out_ok l → Forall sized l.
Proof. intros Hl. eapply Forall_impl; [exact Hl|]. by intros m []. Qed.
Lemma sized_in l : Forall in_ok l → Forall sized l.
Proof. intros Hl. eapply Forall_impl; [exact Hl|]. by intros m []. Qed.

Lemma delete_out_core mid c : core_inv c → wp (lib_message_delete now mid mosq_md_out) (λ _ c', core_inv c') c.
Proof.
  intros Hc. destruct (ci_queues _ Hc) as (li & lo & Hrep & Hi & Ho).
  eapply wp_mono; [by apply (delete_out_ok now mid li lo); [|apply sized_out|apply Hc]|]. intros rc c' [Hop Hr].
  destruct (remove_first mid (contents lo)) as [[x l]|] eqn:Hrm; [|by destruct Hr as [_ ->]].
  destruct Hr as (lo' & k & Hrep' & Hc' & _ & _ & Hlim & _). destruct (Forall_remove_first _ _ _ _ _ Hrm Ho) as [_ Hl].
  eapply core_frame; [done|done| |].
  - exists li, lo'. split; [done|]. split; [done|]. rewrite Hc'. apply Forall_begin_first; [apply out_ok_begin|done].
  - intros Hb Hmax. assert (E : max_inflight_messages c' = max_inflight_messages c) by (destruct Hop as [E _ _ _ _]; congruence).
    rewrite E in *. apply Hlim; [done|]. by apply (ci_limit _ Hc Hb).
Qed.

Lemma lib_handle_pubackcomp_ok c : handles c → wp (lib_handle_pubackcomp now) (λ _ c', core_inv c') c.
Proof.
  intros Hh. apply lreturns, lsafe_bind. eapply lsafe_mono; [by apply lread, read_uint16_safe|].
  intros mid c1 (p & _ & _ & _ & [Hc1 _] & _). apply lsafe_bind, lsafe_lift.
  eapply wp_mono; [by apply delete_out_core|]. intros rc c2 Hc2. apply lsafe_bind, lsafe_lift.
  destruct (rc =? 0); [apply wp_modify|apply wp_ret]; apply lsafe_done; [by apply core_call|done].
Qed.

Lemma Forall_update_first (P : message_all → Prop) mid f l :
  (∀ m, P m → P (f m)) → Forall P l → Forall P (update_first mid f l).
Proof. intros HP. induction 1 as [|m l Hm Hl IH]; cbn; [done|]. destruct (_ =? _); constructor; auto. Qed.

Lemma lib_handle_pubrec_ok c : handles c → wp (lib_handle_pubrec now) (λ _ c', core_inv c') c.
Proof.
  intros Hh. apply lreturns, lsafe_bind. eapply lsafe_mono; [by apply lread, read_uint16_safe|].
  intros mid c1 (p & _ & _ & _ & [Hc1 _] & _). apply lsafe_bind, lsafe_lift.
  destruct (ci_queues _ Hc1) as (li & lo & Hrep & Hi & Ho).
  eapply wp_mono; [by apply (out_update_ok now mid _ li lo)|]. intros rc c2 (Hoth & Hin & _ & lo' & Hrep2 & Hcont).
  assert (Hc2 : core_inv c2).
  { eapply core_frame; [done|by apply others_op_frame| |].
    - exists li, lo'. split; [done|]. split; [done|]. rewrite Hcont. apply Forall_update_first; [|done]. intros m []. by split.
    - intros Hb. assert (E : max_inflight_messages c2 = max_inflight_messages c1) by (unfold others in Hoth; congruence).
      unfold within_limit. rewrite Hin, E. by apply (ci_limit _ Hc1). }
  destruct (_ && _); [by apply lsafe_fail|]. apply lsafe_lift. exact (lib_mid_ok _ _ _ Hc2).
Qed.

(** The message is taken out of the queue and given to the program. *)
Definition deliver_first (res : Z * option ptr) : M client unit :=
  match res with
  | (0, Some p) => let* m := deref p in call_back (OnMessage (ma_mid m) (ma_msg m)) ;;; lib_message_cleanup p
  | _ => ret tt
  end.

Definition delivered (x : message_all) (c : client) : client :=
  set_callbacks (λ l, l ++ [OnMessage (ma_mid x) (ma_msg x)]) c.

Lemma release_ok mid li lo c :
  rep li lo c →
  wp (let* res := lib_message_remove now mid mosq_md_in in deliver_first res) (λ _ c', inflight_messages c' = inflight_messages c ∧
    match remove_first mid (contents li) with
    | None => c' = c
    | Some (x, l) => others c' = others (delivered x c) ∧ ∃ li', rep li' lo c' ∧ contents li' = l
    end) c.
Proof.
  intros Hrep. apply wp_bind. eapply wp_mono; [by apply remove_in_ok|]. intros res c1 (Ho & Hi & Hr).
  destruct (remove_first mid (contents li)) as [[x l]|].
  - destruct Hr as (p & m & li' & -> & Hp & Hx & Hrep' & Hl & Hnin). unfold deliver_first, MOSQ_ERR_SUCCESS.
    apply wp_bind, (wp_deref_cell _ m); [done|]. apply wp_bind, wp_modify, (wp_cleanup _ m); [done|]. split; [done|].
    split; [|exists li'; split; [|done]].
    + subst x. unfold others, delivered in *. cbn. injection Ho as -> -> -> -> -> ->. done.
    + apply (rep_free li' lo (set_callbacks _ c1)); [|done]. destruct Hrep'. by split.
  - destruct Hr as [-> ->]. by apply wp_ret.
Qed.

Lemma core_queues c c' :
  core_inv c → others c' = others c → inflight_messages c' = inflight_messages c → queues_ok c' → core_inv c'.
Proof.
  intros Hc Ho Hi Hq. eapply core_frame; [done|by apply others_op_frame|done|].
  assert (E : max_inflight_messages c' = max_inflight_messages c) by (unfold others in Ho; congruence).
  intros Hb. unfold within_limit. rewrite Hi, E. by apply (ci_limit _ Hc).
Qed.

Lemma release_core mid c :
  core_inv c → wp (let* res := lib_message_remove now mid mosq_md_in in deliver_first res) (λ _ c', core_inv c') c.
Proof.
  intros Hc. destruct (ci_queues _ Hc) as (li & lo & Hrep & Hi & Ho). eapply wp_mono; [by apply (release_ok mid li lo)|].
  intros _ c1 [Hin Hr]. destruct (remove_first mid (contents li)) as [[x l]|] eqn:Hrm; [|by subst c1].
  destruct Hr as (Hoth & li' & Hrep1 & Hl). eapply (core_queues (delivered x c)); [by apply core_call|done|done|].
  exists li', lo. split; [done|]. split; [|done]. rewrite Hl. by eapply Forall_remove_first.
Qed.

Lemma lib_handle_pubrel_ok c : handles c → wp (lib_handle_pubrel now) (λ _ c', core_inv c') c.
Proof.
  intros Hh. apply lreturns, lsafe_bind, lsafe_lift, wp_get. destruct (bad_flags _ _); [apply lsafe_fail, Hh|].
  apply lsafe_bind. eapply lsafe_mono; [by apply lread, read_uint16_safe|]. intros mid c1 (p & _ & _ & _ & [Hc1 _] & _).
  apply lsafe_bind, lsafe_lift. pose proof (release_core mid c1 Hc1) as Hrel. apply wp_bind_inv in Hrel.
  eapply wp_mono; [exact Hrel|]. intros res c2 Hres. apply lsafe_bind, lsafe_lift. eapply wp_mono; [exact Hres|].
  intros [] c3 Hc3. apply lsafe_lift. exact (lib_mid_ok _ _ _ Hc3).
Qed.

Lemma lib_suback_loop_ok n count g c :
  handles c → (Z.to_nat (remaining_length (c_in_packet (base c)) - pos (c_in_packet (base c))) ≤ n)%nat →
  slen g + (remaining_length (c_in_packet (base c)) - pos (c_in_packet (base c))) ≤ count →
  lsafe (lib_suback_loop n count g) (λ _ c', core_inv c') c.
Proof.
  revert g c. induction n as [|n IH]; intros g c Hh Hn Hg; cbn [lib_suback_loop]; apply lsafe_bind, lsafe_lift, wp_get.
  all: destruct (Z.ltb_spec (pos (c_in_packet (base c))) (remaining_length (c_in_packet (base c)))) as [Hlt|]; [|apply lsafe_done, Hh].
  { lia. }
  apply lsafe_bind. eapply lsafe_mono; [by apply lread, read_byte_safe|].
  intros q c1 (p & Hrd & _ & -> & Hh1 & Hl & _). apply lsafe_bind, lsafe_lift.
  apply read_byte_advances in Hrd; [|apply Hh]. cbn [moved base set_base c_in_packet set_in_packet] in *.
  apply wp_assert; [apply Z.ltb_lt; lia|]. apply IH; [done|cbn; lia|]. cbn. unfold slen in *. rewrite length_app. cbn [length]. lia.
Qed.

Lemma lib_handle_suback_ok c : handles c → wp lib_handle_suback (λ _ c', core_inv c') c.
Proof.
  intros Hh. apply lreturns, lsafe_bind. eapply lsafe_mono; [by apply lread, read_uint16_safe|].
  intros mid c1 (p & _ & _ & _ & Hh1 & _). apply lsafe_bind, lsafe_lift, wp_get, lsafe_bind.
  eapply lsafe_mono; [apply lib_suback_loop_ok; [done|done|unfold slen; cbn [length]; lia]|]. intros g c2 Hc2.
  apply lsafe_bind, lsafe_lift, wp_modify, lsafe_done. by apply core_call.
Qed.

Lemma lib_handle_unsuback_ok c : handles c → wp lib_handle_unsuback (λ _ c', core_inv c') c.
Proof.
  intros Hh. apply lreturns, lsafe_bind. eapply lsafe_mono; [by apply lread, read_uint16_safe|].
  intros mid c1 (p & _ & _ & _ & [Hc1 _] & _). apply lsafe_bind, lsafe_lift, wp_modify, lsafe_done. by apply core_call.
Qed.

Lemma lib_handle_connack_ok c : handles c → wp lib_handle_connack (λ _ c', core_inv c') c.
Proof.
  intros Hh. apply lreturns, lsafe_bind. eapply lsafe_mono; [by apply lread, read_byte_safe|].
  intros b1 c1 (p1 & _ & _ & _ & Hh1 & _). apply lsafe_bind. eapply lsafe_mono; [by apply lread, read_byte_safe|].
  intros rc c2 (p2 & _ & _ & _ & [Hc2 _] & _). apply lsafe_bind, lsafe_lift, wp_modify, lsafe_bind, lsafe_lift, wp_get.
  pose proof (core_call _ (OnConnect rc) Hc2) as Hc3. set (c3 := set_callbacks _ c2) in *.
  destruct (rc =? 0); [|destruct (_ && _); by apply lsafe_fail]. apply lsafe_bind, lsafe_lift.
  destruct (bool_decide _); [by apply wp_ret, lsafe_done|]. apply wp_modify, lsafe_done.
  by apply (core_base c3 (set_cstate (λ _, mosq_cs_connected) (base c3))); [|apply Hc3|].
Qed.

(** A message of QoS 2 is queued until it is released. *)
Lemma store_in_ok m li lo c :
  rep li lo c →
  wp (let* p := alloc m in lib_message_queue p mosq_md_in) (λ _ c', others c' = others c ∧
    inflight_messages c' = inflight_messages c ∧ ∃ li', rep li' lo c' ∧ contents li' = contents li ++ [body m]) c.
Proof.
  intros Hrep. apply wp_bind, (wp_alloc m _ c li lo Hrep). intros p Hp Hrep1.
  eapply wp_mono; [apply (queue_in_ok p m li lo); [done|apply lookup_insert_eq|done]|].
  intros rc c' (_ & Ho & Hi & li' & Hrep2 & Hcont & _). split; [done|]. split; [done|]. by exists li'.
Qed.

Lemma store_in_core m c :
  core_inv c → in_ok m → wp (let* p := alloc m in lib_message_queue p mosq_md_in) (λ _ c', core_inv c') c.
Proof.
  intros Hc Hm. destruct (ci_queues _ Hc) as (li & lo & Hrep & Hi & Ho). eapply wp_mono; [by apply (store_in_ok m li lo)|].
  intros rc c1 (Hoth & Hin & li' & Hrep1 & Hcont). eapply core_queues; [done|done|done|]. exists li', lo.
  split; [done|]. split; [|done]. rewrite Hcont. apply Forall_app. split; [done|]. apply Forall_singleton. destruct Hm. by split.
Qed.

(** The payload of a PUBLISH is the rest of the packet. *)
Lemma read_payload_ok c :
  handles c →
  lsafe (let? c := lift_m mget in
         let payloadlen := u32 (remaining_length (c_in_packet (base c)) - pos (c_in_packet (base c))) in
         if payloadlen =? 0 then done_with [] else lib_read (_mosquitto_read_bytes payloadlen))
    (λ pl c', core_inv c' ∧ slen pl ≤ MQTT_MAX_PAYLOAD) c.
Proof.
  intros Hh. apply lsafe_bind, lsafe_lift, wp_get. destruct (Hh) as [Hc (Hpos & Hl & _)]. unfold MAX_BODY in Hl.
  cbv zeta. rewrite u32_small by lia.
  destruct (_ =? 0); [apply lsafe_done; unfold slen, MQTT_MAX_PAYLOAD; cbn [length]; split; [done|lia]|].
  eapply lsafe_mono; [apply lread; [done|apply read_bytes_safe; unfold MAX_BODY; lia]|].
  intros pl c1 (p & _ & Hpl & _ & [Hc1 _] & _). split; [done|]. unfold slen, MQTT_MAX_PAYLOAD. lia.
Qed.

Lemma lsafe_ebind_inv {A B} (m : M client (Z + A)) (k : A → M client (Z + B)) Q c :
  lsafe (ebind m k) Q c → lsafe m (λ a c', lsafe (k a) Q c') c.
Proof.
  intros Hm. eapply wp_mono; [exact (wp_bind_inv _ _ _ _ Hm)|]. intros [rc|a] c' H; [|exact H]. exact H.
Qed.

Lemma lib_handle_publish_ok c : handles c → wp (lib_handle_publish now) (λ _ c', core_inv c') c.
Proof.
  intros Hh. apply lreturns, lsafe_bind, lsafe_lift, wp_get. cbv zeta.
  set (q := Z.shiftr _ 1). set (r := negb (Z.land _ 1 =? 0)). set (d := negb _).
  apply lsafe_bind. eapply lsafe_mono; [by apply lread, read_string_safe|].
  intros topic c1 (p & _ & [_ Htop] & _ & Hh1 & _). destruct (bool_decide _); [apply lsafe_fail, Hh1|].
  apply lsafe_bind. assert (Hmid : lsafe (if 0 <? q then lib_read _mosquitto_read_uint16 else done_with 0) (λ _ c', handles c') c1).
  { destruct (0 <? q); [|by apply lsafe_done]. eapply lsafe_mono; [by apply lread, read_uint16_safe|].
    intros mid c2 (? & _ & _ & _ & Hh2 & _). exact Hh2. }
  eapply lsafe_mono; [exact Hmid|]. intros mid c2 Hh2. apply lsafe_bind.
  eapply lsafe_mono; [exact (lsafe_ebind_inv _ _ _ _ (read_payload_ok c2 Hh2))|]. intros c3 c4 Hpl. cbn beta zeta in Hpl.
  apply lsafe_bind. eapply lsafe_mono; [exact Hpl|]. intros pl c5 [Hc5 Hlen]. set (msg := Message topic pl q r).
  destruct (q =? 0); [apply lsafe_bind, lsafe_lift, wp_modify, lsafe_done; by apply core_call|]. destruct (q =? 1).
  - apply lsafe_bind, lsafe_lift. eapply wp_mono; [exact (lib_mid_ok PUBACK mid _ Hc5)|]. intros rc c6 Hc6.
    apply lsafe_bind, lsafe_lift, wp_modify, lsafe_done. by apply core_call.
  - destruct (Z.eqb_spec q 2) as [Hq|]; [|by apply lsafe_fail].
    apply lsafe_bind, lsafe_lift. eapply wp_mono; [exact (lib_mid_ok PUBREC mid _ Hc5)|]. intros rc c6 Hc6.
    set (m := MessageAll None now mosq_ms_wait_for_pubrel d mid msg). assert (Hm : in_ok m) by (by split).
    apply lsafe_bind, lsafe_lift. eapply wp_mono; [exact (wp_bind_inv _ _ _ _ (store_in_core m c6 Hc6 Hm))|].
    intros p6 c7 H7. apply lsafe_bind, lsafe_lift. eapply wp_mono; [exact H7|]. intros ? c8 Hc8. by apply lsafe_done.
Qed.

Lemma lib_packet_handle_ok c : handles c → wp (lib_packet_handle now) (λ _ c', core_inv c') c.
Proof.
  intros Hh. unfold lib_packet_handle. apply wp_bind, wp_get.
  destruct (_ =? _); [by apply lib_handle_pingreq_ok|]. destruct (_ =? _); [by apply lib_handle_pingresp_ok|].
  destruct (_ =? _); [by apply lib_handle_pubackcomp_ok|]. destruct (_ =? _); [by apply lib_handle_pubackcomp_ok|].
  destruct (_ =? _); [by apply lib_handle_publish_ok|]. destruct (_ =? _); [by apply lib_handle_pubrec_ok|].
  destruct (_ =? _); [by apply lib_handle_pubrel_ok|]. destruct (_ =? _); [by apply lib_handle_connack_ok|].
  destruct (_ =? _); [by apply lib_handle_suback_ok|]. destruct (_ =? _); [by apply lib_handle_unsuback_ok|].
  apply wp_ret, Hh.
Qed.
End handlers.
End inv.
