(* ===== verification/ClientRun.v ===== *)
(** * Runs of the client library

    Every sequence of calls of the interface keeps [client_inv], whatever the
    network delivers, if a client does not reconnect while messages that came
    in wait to be released and none waits to be sent. *)

From stdpp Require Import base list numbers strings option sets gmap.
From Stdlib Require Import ZArith Lia.
From S2P Require Import Prelude Topic Packet State Store Send Messages Db Subs Acl Context Handlers.
From S2P Require Import Client ClientNet ClientQueue ClientOps ClientInv.
Local Open Scope Z_scope.
Local Open Scope broker_scope.

(** ** Topics that pass the checks are short *)

Lemma pub_topic_scan_short s n : pub_topic_scan s n = MOSQ_ERR_SUCCESS → slen s + n ≤ 65535.
Proof.
  revert n. induction s as [|d s IH]; intros n; cbn [pub_topic_scan].
  - destruct (Z.ltb_spec 65535 n); [done|]. unfold slen. cbn [length]. lia.
  - destruct (_ || _); [done|]. intros H%IH. unfold slen in *. cbn [length]. lia.
Qed.

Lemma sub_topic_scan_short c s n : sub_topic_scan c s n = MOSQ_ERR_SUCCESS → slen s + n ≤ 65535.
Proof.
  revert c n. induction s as [|d s IH]; intros c n; cbn [sub_topic_scan].
  - destruct (Z.ltb_spec 65535 n); [done|]. unfold slen. cbn [length]. lia.
  - intros H. assert (Hs : slen s + (n + 1) ≤ 65535) by (repeat case_match; try done; by eapply IH). unfold slen in *. cbn [length]. lia.
Qed.

Section run.
Context (bounded : bool).
Local Abbreviation core_inv := (core_inv bounded).
Local Abbreviation client_inv := (client_inv bounded).

Lemma client_net c c' : client_inv c → net_frame c c' → outq_ok (base c') → client_inv c'.
Proof.
  intros [Hc Hr] Hf Ho. split; [by eapply core_net|]. destruct Hf as [_ (_ & _ & _ & _ & _ & E & _)%kept_fields _ Hs]. rewrite E.
  intros [s Hs']. apply Hr. destruct (sock (base c)); [eauto|]. rewrite Hs in Hs' by done. done.
Qed.

(** A socket that is closed leaves nothing to be read. *)
Lemma client_closed c : core_inv c → sock (base c) = None → client_inv c.
Proof. intros Hc Hs. split; [done|]. rewrite Hs. by intros [? ?]. Qed.

Lemma core_close c : core_inv c → core_inv (set_base (set_sock (λ _, None)) c).
Proof. intros Hc. by apply (core_base bounded c (set_sock (λ _, None) (base c))); [|apply Hc|]. Qed.

Section ops.
Context (now : Z).

(** ** The loops *)

Lemma lib_packet_read_ok c :
  client_inv c → wp (lib_packet_read now) (λ rc c', core_inv c' ∧ (rc = 0 → client_inv c')) c.
Proof.
  intros [Hc Hr]. unfold lib_packet_read. apply wp_bind, wp_get. case_bool_decide as Hs; [by apply wp_ret|].
  assert (Hrd : reader_inv (c_in_packet (base c))) by (apply Hr; destruct (sock (base c)); eauto; done).
  case_bool_decide; [by apply wp_ret|]. apply wp_bind, wp_on_base. unfold wp, lib_fill_packet.
  destruct (safe_fill false now (ConnIn (c_in_packet (base c)) (rd (base c)) (c_last_msg_in (base c))) Hrd) as (r & ci & Hrun & Hpost).
  rewrite Hrun. cbn [mbind option_bind]. set (b := set_last_msg_in _ _).
  assert (Hb : core_inv (set_base (λ _, b) c)) by (by apply core_base; [|apply Hc|]).
  destruct r as [rc|].
  - apply wp_ret. split; [done|]. intros ->. split; [done|]. intros _. by apply Hpost.
  - destruct Hpost as [Hpk _]. apply wp_bind. eapply wp_mono; [apply (lib_packet_handle_ok bounded); split; [exact Hb|exact Hpk]|].
    intros rc c1 Hc1. apply wp_bind, wp_modify, wp_ret. set (f := λ x, set_last_msg_in _ _).
    assert (Hf : core_inv (set_base f c1)) by (by apply (core_base _ c1 (f (base c1))); [|apply Hc1|]).
    split; [done|]. intros _. split; [done|]. intros _. apply reader_inv_cleanup.
Qed.

Lemma lib_loop_rc_handle_ok rc c :
  core_inv c → (rc = 0 → client_inv c) → wp (lib_loop_rc_handle rc) (λ _ c', client_inv c') c.
Proof.
  intros Hc H0. unfold lib_loop_rc_handle. destruct (Z.eqb_spec rc 0) as [->|]; [by apply wp_ret, H0|].
  apply wp_bind, wp_modify, wp_bind, wp_get, wp_bind, wp_modify, wp_ret.
  apply client_closed; [|done]. by apply core_call, core_close.
Qed.

Lemma packet_loop_ok call n again c :
  (∀ c, client_inv c → wp call (λ rc c', core_inv c' ∧ (rc = 0 → client_inv c')) c) → client_inv c →
  wp (packet_loop call n again) (λ _ c', client_inv c') c.
Proof.
  intros Hcall. revert again c. induction n as [|n IH]; intros again c Hc; cbn [packet_loop]; [by apply wp_ret|].
  apply wp_bind. eapply wp_mono; [by apply Hcall|]. intros rc c1 [H1 H2].
  destruct (negb (rc =? 0) || _) eqn:E; [by apply lib_loop_rc_handle_ok|]. apply IH, H2. destruct (Z.eqb_spec rc 0); [done|]. done.
Qed.

Lemma mosquitto_loop_read_ok again c : client_inv c → wp (mosquitto_loop_read now again) (λ _ c', client_inv c') c.
Proof. intros Hc. apply wp_bind, wp_get. apply packet_loop_ok; [apply lib_packet_read_ok|done]. Qed.

Lemma lib_packet_write_core c : client_inv c → wp (lib_packet_write now) (λ rc c', core_inv c' ∧ (rc = 0 → client_inv c')) c.
Proof.
  intros Hc. eapply wp_mono; [apply lib_packet_write_ok, Hc|]. intros rc c' (Hf & Ho & _). pose proof (client_net _ _ Hc Hf Ho) as Hc'.
  split; [apply Hc'|done].
Qed.

Lemma mosquitto_loop_write_ok again c : client_inv c → wp (mosquitto_loop_write now again) (λ _ c', client_inv c') c.
Proof. intros Hc. apply wp_bind, wp_get. apply packet_loop_ok; [apply lib_packet_write_core|done]. Qed.

(** A field of [base] outside the invariant. *)
Lemma client_base c f :
  client_inv c → outq_ok (f (base c)) → sock (f (base c)) = sock (base c) → c_in_packet (f (base c)) = c_in_packet (base c) →
  (protocol (f (base c)), id (f (base c)), username (f (base c)), password (f (base c)), last_mid (f (base c)), will (f (base c))) =
    (protocol (base c), id (base c), username (base c), password (base c), last_mid (base c), will (base c)) →
  client_inv (set_base f c).
Proof.
  intros [Hc Hr] Ho Hs Hi He. split; [by apply (core_base _ c (f (base c)))|]. cbn. rewrite Hs, Hi. done.
Qed.

Lemma lib_send_pingreq_ok c : client_inv c → wp (lib_send_pingreq now) (λ _ c', client_inv c') c.
Proof.
  intros Hc. unfold lib_send_pingreq. apply wp_bind.
  eapply wp_mono; [exact (lib_send_simple_command_emits now PINGREQ c (ci_out _ _ (cl_core _ _ Hc)))|].
  intros rc c1 (Hf & Ho & _). pose proof (client_net _ _ Hc Hf Ho) as Hc1. apply wp_bind.
  destruct (rc =? _); [apply wp_modify|apply wp_ret]; apply wp_ret; [|done]. by apply client_base; [|apply Hc1|..].
Qed.

Lemma lib_check_keepalive_ok c : client_inv c → wp (lib_check_keepalive now) (λ _ c', client_inv c') c.
Proof.
  intros Hc. unfold lib_check_keepalive. apply wp_bind, wp_get. cbv zeta. destruct (_ && _); [|by apply wp_ret]. destruct (_ && _).
  - apply wp_bind. eapply wp_mono; [by apply lib_send_pingreq_ok|]. intros rc c1 Hc1. apply wp_modify.
    by apply client_base; [|apply Hc1|..].
  - apply wp_bind, wp_modify, wp_modify. apply client_closed; [|done]. apply core_call, core_close, Hc.
Qed.

Lemma in_ok_retried retry m : in_ok m → in_ok (retried now retry m).
Proof. intros [H1 H2 H3]. unfold retried. destruct (_ <? _); [|done]. rewrite H2. by split. Qed.
Lemma out_ok_retried retry m : out_ok m → out_ok (retried now retry m).
Proof. intros [H1 H2]. unfold retried. destruct (_ <? _); [|done]. destruct (ma_state m); by split. Qed.

(** The queues changed, the connection did not. *)
Lemma client_op c c' :
  client_inv c → op_frame c c' → queues_ok c' → (bounded = true → within_limit c') → client_inv c'.
Proof.
  intros [Hc Hr] Hop Hq Hl. split; [by eapply core_frame|]. destruct Hop as [_ (_ & _ & _ & _ & _ & E & _)%kept_fields _ Hs _]. rewrite E.
  intros [s Hs']. apply Hr. destruct (sock (base c)); [eauto|]. rewrite Hs in Hs' by done. done.
Qed.

Lemma within_same c c' :
  client_inv c → op_frame c c' → inflight_messages c' = inflight_messages c → bounded = true → within_limit c'.
Proof.
  intros Hc Hop Hi Hb. assert (E : max_inflight_messages c' = max_inflight_messages c) by (destruct Hop as [E _ _ _ _]; congruence).
  unfold within_limit. rewrite Hi, E. by apply (ci_limit _ _ (cl_core _ _ Hc)).
Qed.

Lemma lib_message_retry_check_ok c : client_inv c → wp (lib_message_retry_check now) (λ _ c', client_inv c') c.
Proof.
  intros Hc. pose proof (cl_core _ _ Hc) as Hco. destruct (ci_queues _ _ Hco) as (li & lo & Hrep & Hi & Ho).
  eapply wp_mono; [apply (message_retry_check_ok now li lo); [done|by apply sized_in|by apply sized_out|apply Hco]|].
  intros [] c1 (Hop & Hin & li' & lo' & Hrep' & Hci & Hcl). eapply client_op; [done|done| |by eapply within_same].
  exists li', lo'. split; [done|]. rewrite Hci, Hcl. split; apply Forall_fmap; (eapply Forall_impl; [eassumption|]); intros m.
  - apply in_ok_retried.
  - apply out_ok_retried.
Qed.

Lemma mosquitto_loop_misc_ok c : client_inv c → wp (mosquitto_loop_misc now) (λ _ c', client_inv c') c.
Proof.
  intros Hc. unfold mosquitto_loop_misc. apply wp_bind, wp_get. case_bool_decide; [by apply wp_ret|].
  apply wp_bind. eapply wp_mono; [by apply lib_check_keepalive_ok|]. intros [] c1 Hc1. apply wp_bind, wp_get, wp_bind.
  assert (Hre : wp (if last_retry_check c1 + 1 <? now then lib_message_retry_check now ;;; mmodify (set_last_retry_check (λ _, now)) else ret tt)
    (λ _ c', client_inv c') c1).
  { destruct (_ <? now); [|by apply wp_ret]. apply wp_bind. eapply wp_mono; [by apply lib_message_retry_check_ok|].
    intros [] c2 Hc2. apply wp_modify. destruct Hc2 as [[(li & lo & [] & ?) ? ? [] ? ?] ?]. split; [|done]. split; try done.
    exists li, lo. split; [by split|done]. }
  eapply wp_mono; [exact Hre|]. intros [] c2 Hc2. apply wp_bind, wp_get. destruct (_ && _); [|by apply wp_ret].
  apply wp_bind, wp_modify, wp_bind, wp_modify, wp_ret. apply client_closed; [|done]. apply core_call, core_close, Hc2.
Qed.

(** ** Publishing *)

Definition queue_publish (m : message_all) (q : Z) : M client Z :=
  let* p := alloc m in
  let* queue_status := lib_message_queue p mosq_md_out in
  if queue_status =? 0 then
    (if q =? 1 then upd_cell p (set_ma_state (λ _, mosq_ms_wait_for_puback))
     else if q =? 2 then upd_cell p (set_ma_state (λ _, mosq_ms_wait_for_pubrec)) else ret tt) ;;;
    let* m := deref p in send_msg now m
  else
    upd_cell p (set_ma_state (λ _, mosq_ms_invalid)) ;;; ret MOSQ_ERR_SUCCESS.

Lemma begin_body m : begin (body m) = body (begin m).
Proof. unfold begin. change (m_qos (ma_msg (body m))) with (m_qos (ma_msg m)). by repeat case_match. Qed.

Lemma queue_publish_ok m li lo c :
  rep li lo c → out_ok m → ma_state m = mosq_ms_invalid → ma_next m = None → outq_ok (base c) →
  wp (queue_publish m (m_qos (ma_msg m))) (λ rc c', op_frame c c' ∧
    inflight_messages c' = inflight_messages c + (if room c then 1 else 0) ∧
    stream_out c' = stream_out c ++ (if room c then published c (begin m) else []) ∧
    ∃ lo', rep li lo' c' ∧ contents lo' = contents lo ++ [if room c then begin m else m]) c.
Proof.
  intros Hrep [Hq Hs] Hst Hnx Ho. unfold queue_publish. apply wp_bind, (wp_alloc m _ c li lo Hrep). intros p Hp Hrep1.
  set (c1 := set_cells <[p := m]> c). assert (Hbm : body m = m) by (destruct m; by cbn in *; subst).
  apply wp_bind. eapply wp_mono; [apply (queue_out_ok p m li lo); [done|apply lookup_insert_eq|done|apply Hq]|].
  intros st c2 (-> & Hoth & Hin & lo' & Hrep2 & Hcont & _). change (room c1) with (room c) in *. rewrite Hbm in Hrep2.
  assert (Hb2 : base c2 = base c) by (unfold others in Hoth; cbn in Hoth; congruence).
  assert (Hop : op_frame c c2) by (transitivity c1; by apply others_op_frame).
  assert (Hp2 : heap c2 !! p = Some m) by (eapply lseg_lookup; [apply (rp_out _ _ _ Hrep2)|set_solver]).
  assert (Hcm : body (begin m) = begin m) by (by rewrite <-begin_body, Hbm).
  destruct (room c) eqn:Hroom; cbn [Z.eqb].
  - set (c3 := set_cells <[p := begin m]> c2).
    assert (Hrep3 : rep li (lo' ++ [(p, begin m)]) c3).
    { apply (rep_update_out li lo' p m [] c2 begin); [done|]. unfold begin. by repeat case_match. }
    apply wp_bind, (begin_ok p m); [done|done|]. fold c3. apply wp_bind, (wp_deref_cell _ (begin m)); [apply lookup_insert_eq|].
    eapply wp_mono; [apply (send_msg_emits now (begin m) c3)|].
    { unfold begin. repeat case_match; done. }
    { cbn. by rewrite Hb2. }
    intros rc c4 (Hf & Ho4 & Hst4 & _). split_and!.
    + etrans; [exact Hop|]. transitivity c3; [by apply others_op_frame|by apply net_op_frame].
    + by destruct (net_frame_fields _ _ Hf) as (_ & _ & _ & _ & _ & _ & _ & -> & _).
    + rewrite Hst4. unfold stream_out, published, c3. cbn. by rewrite Hb2.
    + exists (lo' ++ [(p, begin m)]). split; [by eapply rep_frame|]. by rewrite content_snoc, Hcont, Hcm.
  - apply wp_bind, (wp_upd_cell _ _ m), wp_ret; [done|]. split_and!.
    + etrans; [exact Hop|by apply others_op_frame].
    + exact Hin.
    + unfold stream_out. cbn. by rewrite Hb2, app_nil_r.
    + exists (lo' ++ [(p, set_ma_state (λ _, mosq_ms_invalid) m)]). split.
      * by apply (rep_update_out li lo' p m [] c2).
      * rewrite content_snoc, Hcont. do 2 f_equal. destruct m. cbn in *. by subst.
Qed.

(** A message id is taken. *)
Definition with_mid (c : client) : client := set_base (set_last_mid (λ _, next_mid c)) c.

Lemma next_mid_bound c : 0 < next_mid c < 65536.
Proof. unfold next_mid. pose proof (Z.mod_pos_bound (last_mid (base c)) 65535). lia. Qed.

Lemma client_mid c : client_inv c → client_inv (with_mid c).
Proof.
  intros [[(li & lo & [] & ?) Ho Hm [S1 S2 S3 S4] Hp Hl] Hr]. pose proof (next_mid_bound c). split; [|done]. split; try done; [|cbn; lia].
  exists li, lo. split; [by split|done].
Qed.

(** The message that [mosquitto_publish] makes. *)
Definition new_message (mid : Z) (topic pl : bytes) (q : Z) (r : bool) : message_all :=
  MessageAll None now mosq_ms_invalid false mid (Message topic pl q r).

Lemma mosquitto_publish_accepted topic pl q r c :
  0 ≤ q ≤ 2 → topic ≠ [] → slen pl ≤ MQTT_MAX_PAYLOAD → mosquitto_pub_topic_check topic = MOSQ_ERR_SUCCESS → 0 ≤ last_mid (base c) < 65536 →
  mosquitto_publish now (Some topic) pl q r c =
    (let* rc := (if q =? 0 then send_msg now (new_message (next_mid c) topic pl q r)
                 else queue_publish (new_message (next_mid c) topic pl q r) q) in ret (rc, Some (next_mid c))) (with_mid c).
Proof.
  intros Hq Ht Hp Htc Hm. unfold mosquitto_publish. rewrite !(proj2 (Z.ltb_ge _ _)) by lia. cbn [orb].
  rewrite bool_decide_eq_false_2 by done. rewrite Htc. change (negb (MOSQ_ERR_SUCCESS =? MOSQ_ERR_SUCCESS)) with false. cbv iota.
  assert (Hmid : on_base _mosquitto_mid_generate c = Some (next_mid c, with_mid c)).
  { unfold on_base. by rewrite mid_generate_spec. }
  rewrite (bind_some _ _ _ _ _ Hmid). destruct (q =? 0); [done|]. unfold queue_publish. rewrite !bind_assoc.
  apply bind_ext. intros p c1 _. rewrite bind_assoc. apply bind_ext. intros st c2 _.
  destruct (st =? 0); rewrite !bind_assoc; [|done]. apply bind_ext. intros [] c3 _. by rewrite bind_assoc.
Qed.

(** What is refused changes nothing. *)
Lemma mosquitto_publish_cases topic pl q r c :
  (∃ rc, mosquitto_publish now topic pl q r c = Some ((rc, None), c)) ∨
  ∃ t, topic = Some t ∧ 0 ≤ q ≤ 2 ∧ t ≠ [] ∧ slen pl ≤ MQTT_MAX_PAYLOAD ∧ mosquitto_pub_topic_check t = MOSQ_ERR_SUCCESS.
Proof.
  unfold mosquitto_publish. destruct topic as [t|]; [|left; by eexists].
  destruct ((q <? 0) || (2 <? q)) eqn:Eq; [left; by eexists|]. apply orb_false_iff in Eq as [Eq1%Z.ltb_ge Eq2%Z.ltb_ge].
  case_bool_decide as Et; [left; by eexists|]. destruct (Z.ltb_spec MQTT_MAX_PAYLOAD (slen pl)); [left; by eexists|].
  destruct (Z.eqb_spec (mosquitto_pub_topic_check t) MOSQ_ERR_SUCCESS) as [Hc|]; [|left; by eexists]. right. exists t. by split_and!.
Qed.

Lemma mosquitto_publish_ok topic pl q r c : client_inv c → wp (mosquitto_publish now topic pl q r) (λ _ c', client_inv c') c.
Proof.
  intros Hc. destruct (mosquitto_publish_cases topic pl q r c) as [(rc & E)|(t & -> & Hq & Ht & Hp & Htc)].
  { unfold wp. by rewrite E. }
  pose proof (pub_topic_scan_short t 0 Htc) as Hlen. pose proof (client_mid c Hc) as Hc1. pose proof (cl_core _ _ Hc1) as Hco.
  unfold wp. rewrite mosquitto_publish_accepted; [|done..|apply Hc]. set (m := new_message _ _ _ _ _).
  assert (Hs : sized m) by (split; [cbn; lia|done]). fold (wp (let* rc := (if q =? 0 then send_msg now m else queue_publish m q) in
    ret (rc, Some (next_mid c))) (λ _ c', client_inv c') (with_mid c)). apply wp_bind. destruct (Z.eqb_spec q 0).
  - eapply wp_mono; [apply (send_msg_emits now m); [done|apply Hco]|]. intros rc c2 (Hf & Ho & _). apply wp_ret. by eapply client_net.
  - destruct (ci_queues _ _ Hco) as (li & lo & Hrep & Hi & Ho). assert (Hm : out_ok m) by (split; [cbn; lia|done]).
    eapply wp_mono; [apply (queue_publish_ok m li lo); try done; apply Hco|]. intros rc c2 (Hop & Hin & _ & lo' & Hrep2 & Hcont). apply wp_ret.
    eapply client_op; [exact Hc1|done| |].
    + exists li, lo'. split; [done|]. split; [done|]. rewrite Hcont. apply Forall_app. split; [done|]. apply Forall_singleton.
      destruct (room _); [by apply out_ok_begin|done].
    + intros Hb Hmax. assert (E : max_inflight_messages c2 = max_inflight_messages (with_mid c)) by (destruct Hop as [E _ _ _ _]; congruence).
      pose proof (ci_limit _ _ Hco Hb) as Hlim. unfold within_limit in Hlim. rewrite E in *. rewrite Hin.
      destruct (room (with_mid c)) eqn:Hr; [|specialize (Hlim Hmax); lia].
      unfold room in Hr. apply orb_true_iff in Hr as [Hr%Z.eqb_eq|Hr%Z.ltb_lt]; lia.
Qed.

(** ** Subscribing, disconnecting and settings *)

Lemma mosquitto_subscribe_ok sub q c : client_inv c → wp (mosquitto_subscribe now sub q) (λ _ c', client_inv c') c.
Proof.
  intros Hc. unfold mosquitto_subscribe. apply wp_bind, wp_get. case_bool_decide; [by apply wp_ret|].
  destruct (Z.eqb_spec (mosquitto_sub_topic_check sub) MOSQ_ERR_SUCCESS) as [Hs|]; [|by apply wp_ret].
  pose proof (sub_topic_scan_short 0 sub 0 Hs). cbn [negb].
  eapply wp_mono; [apply lib_send_subscribe_emits; [lia|apply Hc|apply Hc]|]. intros rc c1 (_ & Hf & Ho & _).
  eapply client_net; [by apply client_mid, Hc|done|done].
Qed.

Lemma mosquitto_unsubscribe_ok sub c : client_inv c → wp (mosquitto_unsubscribe now sub) (λ _ c', client_inv c') c.
Proof.
  intros Hc. unfold mosquitto_unsubscribe. apply wp_bind, wp_get. case_bool_decide; [by apply wp_ret|].
  destruct (Z.eqb_spec (mosquitto_sub_topic_check sub) MOSQ_ERR_SUCCESS) as [Hs|]; [|by apply wp_ret].
  pose proof (sub_topic_scan_short 0 sub 0 Hs). cbn [negb].
  eapply wp_mono; [apply lib_send_unsubscribe_emits; [lia|apply Hc|apply Hc]|]. intros rc c1 (_ & Hf & Ho & _).
  eapply client_net; [by apply client_mid, Hc|done|done].
Qed.

Lemma mosquitto_disconnect_ok c : client_inv c → wp (mosquitto_disconnect now) (λ _ c', client_inv c') c.
Proof.
  intros Hc. unfold mosquitto_disconnect. apply wp_bind, wp_modify, wp_bind, wp_get. set (c1 := set_base _ c).
  assert (Hc1 : client_inv c1) by (by apply client_base; [|apply Hc|..]). case_bool_decide; [by apply wp_ret|].
  eapply wp_mono; [exact (lib_send_simple_command_emits now DISCONNECT c1 (ci_out _ _ (cl_core _ _ Hc1)))|].
  intros rc c2 (Hf & Ho & _). by eapply client_net.
Qed.

(** Other strings for the next CONNECT. *)
Lemma client_strings c f :
  client_inv c → outq_ok (f (base c)) → (sock (f (base c)), c_in_packet (f (base c)), last_mid (f (base c))) =
    (sock (base c), c_in_packet (base c), last_mid (base c)) →
  is_Some (connect_head (protocol (f (base c)))) → strings_ok (f (base c)) → client_inv (set_base f c).
Proof.
  intros [[(li & lo & [] & ?) ? ? ? ? ?] Hr] Ho [= E1 E2 E3] Hp Hs. split; [|cbn; by rewrite E1, E2].
  split; try done; [|cbn; by rewrite E3]. exists li, lo. split; [by split|done].
Qed.

Lemma mosquitto_will_set_ok topic pl q r c :
  slen pl < 65536 → client_inv c → wp (mosquitto_will_set topic pl q r) (λ _ c', client_inv c') c.
Proof.
  intros Hpl Hc. unfold mosquitto_will_set. destruct (_ <? _); [by apply wp_ret|].
  destruct (Z.eqb_spec (mosquitto_pub_topic_check topic) MOSQ_ERR_SUCCESS) as [Ht|]; [|by apply wp_ret].
  pose proof (pub_topic_scan_short topic 0 Ht). cbn [negb]. apply wp_bind, wp_modify, wp_ret. destruct (ci_strings _ _ (cl_core _ _ Hc)).
  apply client_strings; [done|apply Hc|done|apply Hc|]. split; [done|done|done|]. intros w [= <-]. split; [cbn; lia|done].
Qed.

Lemma mosquitto_will_clear_ok c : client_inv c → wp mosquitto_will_clear (λ _ c', client_inv c') c.
Proof.
  intros Hc. apply wp_bind, wp_modify, wp_ret. destruct (ci_strings _ _ (cl_core _ _ Hc)).
  apply client_strings; [done|apply Hc|done|apply Hc|]. by split.
Qed.

Lemma mosquitto_username_pw_set_ok u p c :
  slen (default [] u) < 65536 → slen (default [] p) < 65536 → client_inv c →
  wp (mosquitto_username_pw_set u p) (λ _ c', client_inv c') c.
Proof.
  intros Hu Hp Hc. apply wp_bind, wp_modify, wp_ret. destruct (ci_strings _ _ (cl_core _ _ Hc)).
  apply client_strings; [done|apply Hc|done|apply Hc|]. split; [done|done|by destruct u|done].
Qed.

Lemma mosquitto_opts_set_ok v c : client_inv c → wp (mosquitto_opts_set v) (λ _ c', client_inv c') c.
Proof.
  intros Hc. unfold mosquitto_opts_set. destruct (ci_strings _ _ (cl_core _ _ Hc)).
  destruct (_ =? _); [|destruct (_ =? _); [|by apply wp_ret]]; apply wp_bind, wp_modify, wp_ret.
  all: apply client_strings; [done|apply Hc|done|by eexists|by split].
Qed.

Lemma client_settings c c' :
  client_inv c → base c' = base c → (heap c', in_messages c', in_messages_last c', out_messages c', out_messages_last c',
    in_queue_len c', out_queue_len c') = (heap c, in_messages c, in_messages_last c, out_messages c, out_messages_last c,
    in_queue_len c, out_queue_len c) → (bounded = true → within_limit c') → client_inv c'.
Proof.
  intros [[(li & lo & [] & ?) ? ? ? ? ?] Hr] Hb [= E1 E2 E3 E4 E5 E6 E7] Hl. split; [|by rewrite Hb].
  split; try done; [|by rewrite Hb..]. exists li, lo. split; [|done]. split; congruence.
Qed.

(** ** Reconnecting *)

Definition reconnect_safe (c : client) : Prop := in_messages c = None ∨ out_messages c ≠ None.

Lemma reset_list_ok (P : message_all → Prop) max k l :
  (∀ m, P m → P (set_ma_timestamp (λ _, 0) m)) → (∀ m s, P m → P (set_ma_state (λ _, s) m)) → Forall P l →
  Forall P (reset_list max k l).2 ∧ (0 < max → k ≤ max → (reset_list max k l).1 ≤ max).
Proof.
  intros Ht Hs Hl. revert k. induction Hl as [|m l Hm Hl IH]; intros k; cbn; [done|].
  destruct (_ || _) eqn:Hroom.
  - set (k' := if 0 <? m_qos (ma_msg m) then k + 1 else k). specialize (IH k'). destruct (reset_list max k' l) as [n r]. cbn in *.
    destruct IH as [IH1 IH2]. split.
    + constructor; [destruct (_ =? 1)|]; auto.
    + intros Hmax Hk. apply IH2; [done|]. unfold k'. apply orb_true_iff in Hroom as [?%Z.eqb_eq|?%Z.ltb_lt]; destruct (0 <? _); lia.
  - specialize (IH k). destruct (reset_list max k l) as [n r]. cbn in *. destruct IH as [IH1 IH2]. split; [|done]. constructor; auto.
Qed.

Lemma reconnect_reset_inv c :
  core_inv c → reconnect_safe c → wp lib_messages_reconnect_reset (λ _ c', core_inv c' ∧ base c' = base c) c.
Proof.
  intros Hc Hsafe. destruct (ci_queues _ _ Hc) as (li & lo & Hrep & Hi & Ho).
  eapply wp_mono; [apply (reconnect_reset_ok li lo); [done|]|].
  { eapply Forall_impl; [exact Hi|]. by intros m []. }
  intros [] c1 (Hoth & Hlast & li' & lo' & Hrep1 & Hci & Hcl & Hin & Hfi & Hfo).
  destruct (reset_list_ok out_ok (max_inflight_messages c) 0 (contents lo)) as [HF Hlim]; [by intros m []; split|by intros m ? []; split|done|].
  assert (Hl : out_messages_last c1 = end_of None lo).
  { rewrite Hlast. destruct lo as [|x lo]; [|unfold end_of; by rewrite last_cons; destruct (last lo)].
    destruct Hsafe as [Hs|Hs]; [|by rewrite (rp_out _ _ _ Hrep) in Hs].
    destruct li as [|[q m] li]; [done|]. destruct (rp_in _ _ _ Hrep) as (E & _). by rewrite Hs in E. }
  assert (Hq : queues_ok c1).
  { exists li', lo'. rewrite Hci, Hcl. split_and!; [|by apply Forall_fmap; eapply Forall_impl; [exact Hi|]; intros m []; split|done].
    destruct Hrep1. split; try done. cbn in *. congruence. }
  split; [|unfold others in Hoth; congruence]. eapply core_frame; [done|by apply others_op_frame|done|].
  intros _ Hmax. assert (E : max_inflight_messages c1 = max_inflight_messages c) by (unfold others in Hoth; congruence).
  rewrite E, Hin in *. apply Hlim; lia.
Qed.

Lemma lib_reconnect_ok conn c : client_inv c → reconnect_safe c → wp (lib_reconnect now conn) (λ _ c', client_inv c') c.
Proof.
  intros [Hc _] Hsafe. unfold lib_reconnect. apply wp_bind, wp_modify, wp_bind, wp_modify, wp_bind, wp_modify.
  set (c1 := set_base _ (set_base _ (set_base _ c))).
  assert (Hc1 : core_inv c1) by (by apply (core_base _ c (base c1)); [|split|]).
  apply wp_bind. eapply wp_mono; [by apply reconnect_reset_inv|]. intros [] c2 [Hc2 Hb2]. apply wp_bind, wp_modify.
  pose proof (core_close c2 Hc2) as Hc3. set (c3 := set_base _ c2) in *.
  destruct conn as [rc|[[s r] w]]; [by apply wp_ret, client_closed|]. apply wp_bind, wp_modify, wp_bind, wp_get. set (c4 := set_base _ c3).
  assert (Hrd : c_in_packet (base c4) = c_in_packet (base c1)) by (cbn; by rewrite Hb2).
  assert (Hc4 : client_inv c4).
  { split; [by apply (core_base _ c3 (base c4)); [|apply Hc3|]|]. intros _. rewrite Hrd. apply reader_inv_cleanup. }
  destruct (ci_proto _ _ (cl_core _ _ Hc4)) as [[name version] Hh].
  eapply wp_mono; [apply (lib_send_connect_emits now _ _ c4 name version); [apply Hc4|done|apply Hc4]|].
  intros rc c5 (Hf & Ho & _). eapply client_net; [|exact Hf|done]. by apply client_base; [|apply Hc4|..].
Qed.

Lemma mosquitto_connect_bind_ok ka conn c :
  client_inv c → reconnect_safe c → wp (mosquitto_connect_bind now ka conn) (λ _ c', client_inv c') c.
Proof.
  intros Hc Hs. apply wp_bind, wp_modify, wp_bind, wp_modify, lib_reconnect_ok; [|done].
  set (c1 := set_base _ c). assert (Hc1 : client_inv c1) by (by apply client_base; [|apply Hc|..]).
  by apply client_base; [|apply Hc1|..].
Qed.

Lemma loop_part_ok ready (m rest : M client Z) c :
  (∀ c, client_inv c → wp m (λ _ c', client_inv c') c) → (∀ c, client_inv c → wp rest (λ _ c', client_inv c') c) →
  client_inv c → wp (loop_part ready m rest) (λ _ c', client_inv c') c.
Proof.
  intros Hm Hr Hc. unfold loop_part. destruct ready; [|by apply Hr]. apply wp_bind. eapply wp_mono; [by apply Hm|].
  intros rc c1 Hc1. apply wp_bind, wp_get. destruct (_ || _); [by apply wp_ret|by apply Hr].
Qed.

Lemma mosquitto_loop_ok sel ar aw c : client_inv c → wp (mosquitto_loop now sel ar aw) (λ _ c', client_inv c') c.
Proof.
  intros Hc. unfold mosquitto_loop. apply wp_bind, wp_get. destruct (sock (base c)); [|by apply wp_ret].
  destruct (_ <=? _); [by apply wp_ret|]. destruct sel; [by apply wp_ret|].
  apply loop_part_ok; [intros c1; apply mosquitto_loop_read_ok| |done]. intros c1.
  apply loop_part_ok; [intros c2; apply mosquitto_loop_write_ok|intros c2; apply mosquitto_loop_misc_ok].
Qed.

(** ** Sequences of calls *)

Inductive call :=
| CallPublish (topic : option bytes) (pl : bytes) (q : Z) (r : bool)
| CallSubscribe (sub : bytes) (q : Z)
| CallUnsubscribe (sub : bytes)
| CallDisconnect
| CallWillSet (topic pl : bytes) (q : Z) (r : bool)
| CallWillClear
| CallUsernamePw (user pass : option bytes)
| CallOpts (version : Z)
| CallMessageRetry (n : Z)
| CallMaxInflight (n : Z)
| CallReconnect (conn : Z + Z * list in_event * list out_event)
| CallLoopRead (again : list bool)
| CallLoopWrite (again : list bool)
| CallLoopMisc
| CallLoop (sel : select_result) (again_read again_write : list bool)
| CallConnect (ka : Z) (conn : Z + Z * list in_event * list out_event).

Definition forget {A} (m : M client A) : M client unit := let* _ := m in ret tt.

Definition run_call (x : call) : M client unit :=
  match x with
  | CallPublish topic pl q r => forget (mosquitto_publish now topic pl q r)
  | CallSubscribe sub q => forget (mosquitto_subscribe now sub q)
  | CallUnsubscribe sub => forget (mosquitto_unsubscribe now sub)
  | CallDisconnect => forget (mosquitto_disconnect now)
  | CallWillSet topic pl q r => forget (mosquitto_will_set topic pl q r)
  | CallWillClear => forget mosquitto_will_clear
  | CallUsernamePw user pass => forget (mosquitto_username_pw_set user pass)
  | CallOpts version => forget (mosquitto_opts_set version)
  | CallMessageRetry n => mosquitto_message_retry_set n
  | CallMaxInflight n => forget (mosquitto_max_inflight_messages_set n)
  | CallReconnect conn => forget (lib_reconnect now conn)
  | CallLoopRead again => forget (mosquitto_loop_read now again)
  | CallLoopWrite again => forget (mosquitto_loop_write now again)
  | CallLoopMisc => forget (mosquitto_loop_misc now)
  | CallLoop sel ar aw => forget (mosquitto_loop now sel ar aw)
  | CallConnect ka conn => forget (mosquitto_connect_bind now ka conn)
  end.

(** What the library leaves to the program. *)
Definition call_ok (c : client) (x : call) : Prop :=
  match x with
  | CallWillSet _ pl _ _ => slen pl < 65536
  | CallUsernamePw u p => slen (default [] u) < 65536 ∧ slen (default [] p) < 65536
  | CallMaxInflight n => bounded = true → 0 < n → inflight_messages c ≤ n
  | CallReconnect _ | CallConnect _ _ => reconnect_safe c
  | _ => True
  end.

Lemma wp_forget {A} (m : M client A) (Q : client → Prop) c : wp m (λ _ c', Q c') c → wp (forget m) (λ _ c', Q c') c.
Proof. intros Hm. apply wp_bind. eapply wp_mono; [exact Hm|]. intros a c' Hc'. by apply wp_ret. Qed.

Lemma run_call_ok x c : client_inv c → call_ok c x → wp (run_call x) (λ _ c', client_inv c') c.
Proof.
  intros Hc Hx. destruct x; cbn [run_call call_ok] in *; try apply wp_forget.
  - by apply mosquitto_publish_ok.
  - by apply mosquitto_subscribe_ok.
  - by apply mosquitto_unsubscribe_ok.
  - by apply mosquitto_disconnect_ok.
  - by apply mosquitto_will_set_ok.
  - by apply mosquitto_will_clear_ok.
  - destruct Hx. by apply mosquitto_username_pw_set_ok.
  - by apply mosquitto_opts_set_ok.
  - apply wp_modify. eapply client_settings; [exact Hc|done|done|apply Hc].
  - apply wp_bind, wp_modify, wp_ret. eapply client_settings; [exact Hc|done|done|exact Hx].
  - by apply lib_reconnect_ok.
  - by apply mosquitto_loop_read_ok.
  - by apply mosquitto_loop_write_ok.
  - by apply mosquitto_loop_misc_ok.
  - by apply mosquitto_loop_ok.
  - by apply mosquitto_connect_bind_ok.
Qed.
End ops.
End run.
