(* ===== verification/ClientProps.v ===== *)
(** * Properties of the client library

    Runs of the interface are safe and keep the limit of messages in flight;
    what publishing, receiving and releasing a message do exactly; and what
    goes wrong when a client reconnects with only incoming messages queued. *)

From stdpp Require Import base list numbers strings option sets gmap.
From Stdlib Require Import ZArith Lia.
From S2P Require Import Prelude Topic Packet State Store Send Messages Db Subs Acl Context Handlers.
From S2P Require Import Client ClientNet ClientQueue ClientOps ClientInv ClientRun.
Local Open Scope Z_scope.
Local Open Scope broker_scope.

(** ** Runs *)

(** Calls with the times at which they are made. *)
Fixpoint run_calls (l : list (Z * call)) : M client unit :=
  match l with
  | [] => ret tt
  | (now, x) :: l' => run_call now x ;;; run_calls l'
  end.

Fixpoint calls_ok (bounded : bool) (l : list (Z * call)) (c : client) : Prop :=
  match l with
  | [] => True
  | (now, x) :: l' => call_ok bounded c x ∧ ∀ c', run_call now x c = Some (tt, c') → calls_ok bounded l' c'
  end.

Lemma run_calls_ok bounded l c :
  client_inv bounded c → calls_ok bounded l c → wp (run_calls l) (λ _ c', client_inv bounded c') c.
Proof.
  revert c. induction l as [|[now x] l IH]; intros c Hc Hl; cbn [run_calls calls_ok] in *; [by apply wp_ret|].
  destruct Hl as [Hx Hl]. apply wp_bind. pose proof (run_call_ok bounded now x c Hc Hx) as Hrun.
  destruct (wp_inv _ _ _ Hrun) as ([] & c1 & E & Hc1). unfold wp at 1. rewrite E. apply IH; auto.
Qed.

Lemma mosquitto_new_inv bounded now cid clean thr : slen cid < 65536 → client_inv bounded (mosquitto_new now cid clean thr).
Proof.
  intros Hid. split; [|by intros [? ?]]. split.
  - exists [], []. split; [|by split]. split; try done. apply NoDup_nil. done.
  - done.
  - cbn. lia.
  - split; cbn; [eauto| | |done]; unfold slen; cbn; lia.
  - by eexists.
  - intros _. unfold within_limit. cbn. lia.
Qed.

(** The messages of both queues are freed. *)
Lemma free_messages_ok n cur l c :
  lseg (heap c) cur l None → NoDup l.*1 → (length l ≤ n)%nat →
  wp (free_messages n cur) (λ _ c', c' = set_cells (λ h, foldl (λ h p, delete p h) h l.*1) c) c.
Proof.
  revert cur l c. induction n as [|n IH]; intros cur l c Hl Hnd Hn; destruct l as [|[q m] l]; cbn in Hl, Hn; try lia.
  1,2: subst cur; apply wp_ret; by destruct c.
  destruct Hl as (-> & Hq & Hl). rewrite fmap_cons in Hnd. apply NoDup_cons in Hnd as [Hqn Hnd]. cbn [free_messages].
  apply wp_bind, (wp_deref_cell _ m); [done|]. apply wp_bind, (wp_cleanup _ m); [done|].
  eapply wp_mono; [apply (IH (ma_next m) l); [by apply lseg_delete|done|lia]|]. intros [] c' ->. by destruct c.
Qed.

Lemma foldl_delete_lookup (l : list ptr) (h : gmap ptr message_all) p :
  foldl (λ h p, delete p h) h l !! p = if bool_decide (p ∈ l) then None else h !! p.
Proof.
  revert h. induction l as [|q l IH]; intros h; cbn; [by rewrite bool_decide_eq_false_2 by apply not_elem_of_nil|]. rewrite IH.
  destruct (decide (p = q)) as [->|Hne].
  - rewrite (bool_decide_eq_true_2 (q ∈ q :: l)) by (by left). rewrite lookup_delete_eq. by destruct (bool_decide _).
  - rewrite lookup_delete_ne by done. do 2 case_bool_decide; try done; set_solver.
Qed.

(** Nothing that was queued is left, and nothing else is touched. *)
Definition unqueued (li lo : list cell) (h h' : gmap ptr message_all) : Prop :=
  ∀ p, h' !! p = if bool_decide (p ∈ li.*1 ++ lo.*1) then None else h !! p.

Lemma lib_destroy_ok li lo c :
  rep li lo c →
  wp lib_destroy (λ _ c', unqueued li lo (heap c) (heap c') ∧ in_messages c' = None ∧ out_messages c' = None ∧
    sock (base c') = None) c.
Proof.
  intros Hrep. pose proof Hrep as [R1 R2 R3 R4 R5 R6 R7]. destruct (rep_disjoint _ _ _ Hrep) as (N1 & N2 & N12).
  unfold lib_destroy. apply wp_bind, wp_modify, wp_bind. set (c1 := set_base _ c).
  assert (Hall : wp lib_message_cleanup_all (λ _ c', unqueued li lo (heap c) (heap c') ∧ in_messages c' = None ∧
    out_messages c' = None ∧ base c' = base c1) c1).
  { unfold lib_message_cleanup_all. apply wp_bind, wp_gets, wp_bind, wp_get, wp_bind.
    eapply wp_mono; [apply (free_messages_ok _ _ li); [exact R1|done|by eapply lseg_size]|]. intros [] c2 ->.
    apply wp_bind, wp_modify, wp_bind.
    eapply wp_mono; [apply (free_messages_ok _ _ lo); [|done|by eapply lseg_size]|].
    { eapply lseg_frame; [exact R3|]. intros q Hq. cbn. rewrite foldl_delete_lookup, bool_decide_eq_false_2; [done|].
      intros Hi. by apply (N12 q). }
    intros [] c3 ->. apply wp_modify. split_and!; [|done..]. intros p. cbn. rewrite !foldl_delete_lookup.
    repeat case_bool_decide; try done; set_solver. }
  eapply wp_mono; [exact Hall|]. intros [] c2 (Hh & Hi & Ho & Hb). apply wp_modify. split_and!; try done. cbn. by rewrite Hb.
Qed.

(** ** Receiving *)

Lemma complete_cursor p0 cmd body :
  slen body < MAX_BODY → cursor [] body (complete_packet p0 cmd body).
Proof.
  intros Hb. unfold cursor, complete_packet, slen in *. cbn. split_and!; try done.
  destruct (Z.ltb_spec 0 (Z.of_nat (length body))); [done|]. destruct body; [done|]. cbn in *. lia.
Qed.

(** A read that succeeds, in the body of a handler. *)
Lemma wp_lib_read {A B} (r : reader A) (k : A → M client (Z + B)) Q c a p :
  r (c_in_packet (base c)) = Some (inr a, p) → wp (k a) Q (moved p c) → wp (ebind (lib_read r) k) Q c.
Proof. intros Hr Hk. apply wp_bind, wp_on_base. unfold wp, read_in. rewrite Hr. exact Hk. Qed.

Lemma wp_elift {A B} (m : M client A) (k : A → M client (Z + B)) Q c :
  wp m (λ a, wp (k a) Q) c → wp (ebind (lift_m m) k) Q c.
Proof. intros Hm. apply wp_bind, wp_bind. eapply wp_mono; [exact Hm|]. intros a c' Hk. apply wp_ret. exact Hk. Qed.

Lemma rep_moved li lo p c : rep li lo c → rep li lo (moved p c).
Proof. intros []. by split. Qed.

(** The flags of a PUBLISH. *)
Lemma publish_flags q r d :
  0 ≤ q ≤ 2 →
  let h := publish_command q r d in
  negb (Z.land h 0x08 =? 0) = d ∧ Z.shiftr (Z.land h 0x06) 1 = q ∧ negb (Z.land h 0x01 =? 0) = r ∧ Z.land h 0xF0 = PUBLISH.
Proof. intros Hq. assert (q = 0 ∨ q = 1 ∨ q = 2) as [->|[->| ->]] by lia; destruct r, d; by vm_compute. Qed.

(** What the client does with a message that came in: the answer, the
    callbacks, and what is queued. *)
Definition answer (q mid : Z) : bytes :=
  if q =? 0 then [] else if q =? 1 then wire PUBACK (enc_uint16 mid) else wire PUBREC (enc_uint16 mid).

(** The fields of a PUBLISH are read back; [fin] is what is done with them. *)
Lemma read_publish p0 cmd mid topic pl q (fin : bytes → Z → bytes → M client (Z + Z)) Q c :
  0 ≤ mid < 65536 → 0 ∉ topic → slen topic < 65536 → slen (publish_body mid topic pl q) < MAX_BODY →
  c_in_packet (base c) = complete_packet p0 cmd (publish_body mid topic pl q) →
  topic ≠ [] → (∀ p, wp (fin topic (if 0 <? q then mid else 0) pl) Q (moved p c)) →
  wp (let? t := lib_read _mosquitto_read_string in
      if bool_decide (t = []) then fail MOSQ_ERR_PROTOCOL else
      let? mid := if 0 <? q then lib_read _mosquitto_read_uint16 else done_with 0 in
      let? c := lift_m mget in
      let payloadlen := u32 (remaining_length (c_in_packet (base c)) - pos (c_in_packet (base c))) in
      let? pl := if payloadlen =? 0 then done_with [] else lib_read (_mosquitto_read_bytes payloadlen) in
      fin t mid pl) Q c.
Proof.
  intros Hmid H0 Ht Hb Hin Hne Hfin. pose proof (complete_cursor p0 cmd _ Hb) as Hc. rewrite <-Hin in Hc. unfold publish_body in Hc at 1.
  destruct (read_string_cursor [] topic _ _ Ht Hc) as (p1 & E1 & Hc1). rewrite (cstr_id topic) in E1 by done.
  eapply wp_lib_read; [exact E1|]. rewrite bool_decide_eq_false_2 by done.
  set (w1 := [] ++ enc_string topic) in *. set (c1 := moved p1 c).
  assert (Hpl : ∀ w2 p2 mid, cursor w2 pl p2 → wp (fin topic mid pl) Q (moved p2 c) ∧ (∀ p3, wp (fin topic mid pl) Q (moved p3 (moved p2 c))) →
    wp (let? c := lift_m mget in
        let payloadlen := u32 (remaining_length (c_in_packet (base c)) - pos (c_in_packet (base c))) in
        let? pl := if payloadlen =? 0 then done_with [] else lib_read (_mosquitto_read_bytes payloadlen) in
        fin topic mid pl) Q (moved p2 c)).
  { intros w2 p2 mid' Hc2 [HQ1 HQ2]. apply wp_elift, wp_get. cbv zeta. cbn [moved base set_base c_in_packet set_in_packet].
    pose proof Hc2 as (_ & Hpos & Hl & Hmax). rewrite length_app in Hl. unfold MAX_BODY in Hmax.
    rewrite Hpos, Hl.
    replace (Z.of_nat (length w2 + length pl) - Z.of_nat (length w2)) with (Z.of_nat (length pl)) by lia. rewrite u32_small by lia.
    destruct (Z.eqb_spec (Z.of_nat (length pl)) 0) as [Hz|Hz].
    - assert (pl = []) as -> by (destruct pl; [done|cbn in Hz; lia]). apply wp_bind, wp_ret. exact HQ1.
    - rewrite <-(app_nil_r pl) in Hc2. destruct (read_bytes_cursor _ _ _ _ Hc2) as (p3 & E3 & _). eapply wp_lib_read; [exact E3|]. apply HQ2. }
  assert (Hm2 : ∀ a b, moved a (moved b c) = moved a c) by done.
  destruct (0 <? q).
  - destruct (read_uint16_cursor w1 mid pl p1 Hmid Hc1) as (p2 & E2 & Hc2). eapply wp_lib_read; [exact E2|].
    eapply (Hpl _ p2 mid Hc2). split; [apply Hfin|]. intros p3. rewrite Hm2. apply Hfin.
  - apply wp_bind, wp_ret. eapply (Hpl _ p1 0 Hc1). split; [apply Hfin|]. intros p3. rewrite Hm2. apply Hfin.
Qed.

(** What is done with the message. *)
Definition finish_publish (now : Z) (d : bool) (q : Z) (r : bool) (topic : bytes) (mid : Z) (pl : bytes) : M client (Z + Z) :=
  let msg := Message topic pl q r in
  if q =? 0 then
    let? _ := lift_m (call_back (OnMessage mid msg)) in done_with MOSQ_ERR_SUCCESS
  else if q =? 1 then
    let? rc := lift_m (lib_send_puback now mid) in
    let? _ := lift_m (call_back (OnMessage mid msg)) in
    done_with rc
  else if q =? 2 then
    let? rc := lift_m (lib_send_pubrec now mid) in
    let? p := lift_m (alloc (MessageAll None now mosq_ms_wait_for_pubrel d mid msg)) in
    let? _ := lift_m (lib_message_queue p mosq_md_in) in
    done_with rc
  else fail MOSQ_ERR_PROTOCOL.

(** A reply: the bytes, and nothing of the queues. *)
Lemma reply_ok now cmd mid (k : Z → M client (Z + Z)) li lo Q c :
  rep li lo c → outq_ok (base c) →
  (∀ rc c' l, rep li lo c' → stream_out c' = stream_out c ++ wire (u8 cmd) (enc_uint16 mid) →
     callbacks c' = callbacks c ++ l → Forall net_callback l → wp (k rc) Q c') →
  wp (let? rc := lift_m (lib_send_command_with_mid now cmd mid false) in k rc) Q c.
Proof.
  intros Hrep Ho Hk. apply wp_elift. eapply wp_mono; [by apply lib_send_command_with_mid_emits|].
  intros rc c' (Hf & _ & Hs). destruct (nf_calls _ _ Hf) as (l & Hl & HF). eapply Hk; [by eapply rep_frame|done..].
Qed.

Lemma finish_publish_ok now mid topic pl q r d li lo c :
  rep li lo c → outq_ok (base c) → 0 ≤ q ≤ 2 →
  let msg := Message topic pl q r in let m := MessageAll None now mosq_ms_wait_for_pubrel d mid msg in
  wp (finish_publish now d q r topic mid pl) (λ _ c', stream_out c' = stream_out c ++ answer q mid ∧ ∃ li' l,
    rep li' lo c' ∧ contents li' = contents li ++ (if q =? 2 then [m] else []) ∧
    callbacks c' = callbacks c ++ l ++ (if q =? 2 then [] else [OnMessage mid msg]) ∧ Forall net_callback l) c.
Proof.
  intros Hrep Ho Hq msg m. assert (Hcall : ∀ e c, rep li lo c → rep li lo (set_callbacks (λ l, l ++ [e]) c)) by (intros e c0 []; by split).
  unfold finish_publish. fold msg m. destruct (Z.eqb_spec q 0) as [->|].
  { apply wp_elift, wp_modify, wp_ret. cbn. rewrite app_nil_r. split; [done|]. exists li, []. rewrite app_nil_r. by auto. }
  destruct (Z.eqb_spec q 1) as [->|].
  - eapply (reply_ok now PUBACK mid); [done|done|]. intros rc c1 l Hr1 Hs1 Hc1 HF. apply wp_elift, wp_modify, wp_ret. split; [done|].
    exists li, l. cbn. rewrite app_nil_r, Hc1, <-(assoc_L (++)). by auto.
  - assert (q = 2) as -> by lia. cbn [Z.eqb].
    eapply (reply_ok now PUBREC mid); [done|done|]. intros rc c1 l Hr1 Hs1 Hc1 HF. apply wp_elift.
    pose proof (store_in_ok m li lo c1 Hr1) as Hst. eapply wp_mono; [exact (wp_bind_inv _ _ _ _ Hst)|]. intros p c2 H2.
    apply wp_elift. eapply wp_mono; [exact H2|]. intros rc2 c3 (Hoth & _ & li' & Hr3 & Hcont). apply wp_ret.
    assert (Hb : base c3 = base c1 ∧ callbacks c3 = callbacks c1) by (unfold others in Hoth; naive_solver). destruct Hb as [Hb Hcb].
    split; [unfold stream_out in *; by rewrite Hb|]. exists li', l. rewrite Hcb, Hc1, app_nil_r. split_and!; try done.
Qed.

(** A PUBREL is read back and dispatched. *)
Definition pubrel_packet (p0 : packet) (mid : Z) : packet := complete_packet p0 (Z.lor PUBREL 2) (enc_uint16 mid).

Lemma remove_first_mids mid l x r :
  remove_first mid l = Some (x, r) → ma_mid x = mid ∧ (NoDup (ma_mid <$> l) → mid ∉ ma_mid <$> r).
Proof.
  revert x r. induction l as [|m l IH]; intros x r; cbn; [done|]. destruct (Z.eqb_spec (ma_mid m) mid) as [Hm|Hm].
  - intros [= -> ->]. split; [done|]. intros [Hn _]%NoDup_cons. by rewrite <-Hm.
  - destruct (remove_first mid l) as [[x' r']|]; [|done]. intros [= -> <-]. destruct (IH x r' eq_refl) as [IH1 IH2]. split; [done|].
    intros [_ Hn]%NoDup_cons. cbn. rewrite not_elem_of_cons. split; [congruence|auto].
Qed.

Lemma remove_first_absent mid l : mid ∉ ma_mid <$> l → remove_first mid l = None.
Proof.
  induction l as [|m l IH]; [done|]. cbn. rewrite not_elem_of_cons. intros [Hne Hin].
  rewrite (proj2 (Z.eqb_neq _ _)) by congruence. by rewrite IH.
Qed.

(** ** What goes wrong when only incoming messages are queued *)

(** The outgoing queue is empty, but its last message is the last incoming
    one: the next message that is published is linked after that one. *)
Lemma queue_after_reset p m li c :
  lseg (heap c) (in_messages c) li None → NoDup li.*1 → li ≠ [] → out_messages_last c = end_of None li →
  heap c !! p = Some m → p ∉ li.*1 → 0 < m_qos (ma_msg m) →
  wp (lib_message_queue p mosq_md_out) (λ rc c', rc = (if room c then 0 else 1) ∧ base c' = base c ∧ out_messages c' = out_messages c ∧
    ∃ l', lseg (heap c') (in_messages c') (l' ++ [(p, body m)]) None ∧ contents l' = contents li ∧ l'.*1 = li.*1) c.
Proof.
  intros Hl Hnd Hne Hlast Hm Hp Hq. unfold lib_message_queue. apply wp_bind, wp_modify, wp_bind, (wp_upd_cell p _ m); [done|].
  apply wp_bind, wp_get. set (h1 := <[p := body m]> (heap c)). set (c1 := set_cells _ _).
  assert (S1 : lseg h1 (in_messages c) li None) by (by apply lseg_insert).
  assert (Hpm : h1 !! p = Some (body m)) by apply lookup_insert_eq.
  pose proof (lseg_append h1 _ li p (body m) S1 Hnd Hp Hpm eq_refl) as Happ.
  change (out_messages_last c1) with (out_messages_last c). rewrite Hlast. unfold end_of.
  destruct (last li) as [[r mr]|] eqn:Hl1; [|by apply last_None in Hl1]. cbn [fst].
  destruct Happ as (l' & Hl' & Hc' & Hf'). pose proof Hl1 as [l0 Hli]%last_Some.
  assert (Hr : h1 !! r = Some mr) by (eapply lseg_lookup; [exact S1|rewrite Hli; set_solver]).
  apply wp_bind, (wp_upd_cell r _ mr); [done|]. apply wp_bind, wp_modify.
  assert (Hpr : p ≠ r) by (intros ->; apply Hp; rewrite Hli, fmap_app; set_solver).
  set (c2 := set_out_messages_last _ _). apply wp_bind, (wp_deref_cell _ (body m)); [cbn; by rewrite lookup_insert_ne|].
  change (m_qos (ma_msg (body m))) with (m_qos (ma_msg m)). rewrite (proj2 (Z.ltb_lt _ _)) by done.
  change ((max_inflight_messages c1 =? 0) || (inflight_messages c1 <? max_inflight_messages c1)) with (room c).
  destruct (room c); [apply wp_bind, wp_modify|]; apply wp_ret; (split_and!; [done..|]); by exists l'.
Qed.

Lemma queue_publish_mixes now m li c :
  lseg (heap c) (in_messages c) li None → NoDup li.*1 → li ≠ [] → out_messages_last c = end_of None li →
  out_ok m → ma_state m = mosq_ms_invalid → ma_next m = None → outq_ok (base c) →
  wp (queue_publish now m (m_qos (ma_msg m))) (λ _ c', out_messages c' = out_messages c ∧
    ∃ li', lseg (heap c') (in_messages c') li' None ∧ contents li' = contents li ++ [if room c then begin m else m]) c.
Proof.
  intros Hl Hnd Hne Hlast [Hq Hs] Hst Hnx Ho. unfold queue_publish. apply wp_bind. unfold alloc, wp at 1.
  set (p := fresh (dom (heap c))). assert (Hp : p ∉ li.*1) by (intros Hi; apply (is_fresh (dom (heap c))), (lseg_dom _ _ _ _ _ Hl Hi)).
  apply wp_bind. eapply wp_mono; [apply (queue_after_reset p m li); [by apply lseg_insert|done|done|done|apply lookup_insert_eq|done|lia]|].
  intros rc c1 (-> & Hb & Hout & l' & Hl1 & Hc1 & Hf1). change (room (set_cells <[p:=m]> c)) with (room c).
  assert (Hbm : body m = m) by (destruct m; by cbn in *; subst). rewrite Hbm in Hl1.
  assert (Hp1 : heap c1 !! p = Some m) by (eapply lseg_lookup; [exact Hl1|set_solver]).
  assert (Hn1 : NoDup (l' ++ [(p, m)]).*1) by (rewrite fmap_app, Hf1; apply NoDup_app; split_and!; [done|set_solver|apply NoDup_singleton]).
  assert (Hupd : ∀ f, ma_next (f m) = ma_next m → lseg (<[p := f m]> (heap c1)) (in_messages c1) (l' ++ [(p, f m)]) None).
  { intros f Hf. by apply (lseg_update _ _ l' p m []). }
  destruct (room c); cbn [Z.eqb].
  - apply wp_bind, (begin_ok p m); [done|done|]. apply wp_bind, (wp_deref_cell _ (begin m)); [apply lookup_insert_eq|].
    eapply wp_mono; [apply (send_msg_ok now (begin m)); [unfold begin; by repeat case_match|cbn; by rewrite Hb]|].
    intros rc c2 [Hf2 _]. destruct (net_frame_fields _ _ Hf2) as (E1 & E2 & _ & E3 & _). rewrite E1, E2, E3. split; [exact Hout|].
    exists (l' ++ [(p, begin m)]). split; [apply Hupd; unfold begin; by repeat case_match|].
    by rewrite content_snoc, Hc1, <-begin_body, Hbm.
  - apply wp_bind, (wp_upd_cell _ _ m), wp_ret; [done|]. split; [exact Hout|].
    exists (l' ++ [(p, set_ma_state (λ _, mosq_ms_invalid) m)]). split; [by apply Hupd|].
    rewrite content_snoc, Hc1. do 2 f_equal. destruct m. cbn in *. by subst.
Qed.

(** ** Properties *)

(** C10: the client library is safe, as long as the program keeps to the
    conditions below. From a new client, every such sequence of calls of the
    interface, with whatever the network delivers and accepts, runs to
    its end without undefined behaviour (no loop leaves the heap, no message
    is used after it was freed) and keeps the invariant: the two linked lists
    are well formed and apart, the counters and the last pointers are right,
    and the packets in and out are consistent. Destroying the client then
    frees every message that is queued. The conditions ([calls_ok]): the
    strings of the CONNECT are below 65536 bytes, and the program does not
    connect again while incoming messages wait to be released and none waits to
    be sent, which would mix up the queues. *)
Theorem client_runs_safe now cid clean thr l :
  slen cid < 65536 → calls_ok false l (mosquitto_new now cid clean thr) →
  ∃ c, run_calls l (mosquitto_new now cid clean thr) = Some (tt, c) ∧ client_inv false c ∧
    ∃ li lo c', rep li lo c ∧ lib_destroy c = Some (tt, c') ∧ unqueued li lo (heap c) (heap c') ∧
      in_messages c' = None ∧ out_messages c' = None.
Proof.
  intros Hid Hl. destruct (wp_ends _ _ _ (run_calls_ok false l _ (mosquitto_new_inv false now cid clean thr Hid) Hl)) as (c & E & Hc).
  destruct (ci_queues _ _ (cl_core _ _ Hc)) as (li & lo & Hrep & _).
  destruct (wp_inv _ _ _ (lib_destroy_ok li lo c Hrep)) as ([] & c' & E' & Hd & Hi & Ho & _).
  exists c. split_and!; [done|done|]. exists li, lo, c'. by split_and!.
Qed.

(** A session: the connection is accepted, a message of QoS 2 comes in in
    pieces and is released, one of QoS 1 is published and sent again. *)
Definition session_calls : list (Z * call) :=
  [(0, CallConnect 60 (inr (5, [InData [0x20; 2; 0; 0]; InData [0x34; 6; 0; 1; 97]; InData [0; 9; 33]; InData [0x62; 2; 0; 9]],
                           [OutOk 100; OutOk 100; OutOk 3; OutOk 100])));
   (1, CallLoopRead []); (2, CallLoopRead []); (2, CallLoopRead []); (3, CallPublish (Some [97; 47; 98]) [1; 2] 1 false);
   (4, CallLoopRead []); (5, CallLoopWrite []); (30, CallLoop (Selected false false false) [] [])].

Lemma client_runs_safe_witness :
  calls_ok false session_calls (mosquitto_new 0 [99] true false) ∧
  ∃ c, run_calls session_calls (mosquitto_new 0 [99] true false) = Some (tt, c) ∧ client_inv false c ∧
    ∃ li lo c', rep li lo c ∧ lib_destroy c = Some (tt, c') ∧ unqueued li lo (heap c) (heap c') ∧
      in_messages c' = None ∧ out_messages c' = None.
Proof.
  assert (Hl : calls_ok false session_calls (mosquitto_new 0 [99] true false)).
  { split; [by left|]. intros c1 _. by repeat (split; [done|]; intros ? _). }
  split; [exact Hl|]. by apply client_runs_safe.
Defined.

(** The counter of messages in flight never exceeds the limit, if the
    limit is not lowered below it: at any moment of any run with a limit, a
    further message of QoS 1 or 2 is sent only if the counter is below it,
    on publishing, on an acknowledgement and on a reconnect. *)
Lemma client_inflight_bounded now cid clean thr l c :
  slen cid < 65536 → calls_ok true l (mosquitto_new now cid clean thr) →
  run_calls l (mosquitto_new now cid clean thr) = Some (tt, c) →
  0 < max_inflight_messages c → inflight_messages c ≤ max_inflight_messages c.
Proof.
  intros Hid Hl E. pose proof (run_calls_ok true l _ (mosquitto_new_inv true now cid clean thr Hid) Hl) as Hrun.
  pose proof (wp_run _ _ _ _ _ Hrun E) as Hc. by apply (ci_limit _ _ (cl_core _ _ Hc)).
Qed.

(** Three messages are published with a limit of two, and one is
    acknowledged. *)
Definition limit_calls : list (Z * call) :=
  [(0, CallMaxInflight 2);
   (0, CallReconnect (inr (5, [InData [0x40; 2; 0; 1]], [OutOk 100; OutOk 100; OutOk 100; OutOk 100])));
   (1, CallPublish (Some [97]) [1] 1 false); (1, CallPublish (Some [98]) [2] 2 false); (1, CallPublish (Some [99]) [3] 1 false);
   (2, CallLoopRead [])].

(** C23: what publishing does. A message that is accepted gets the next message
    id. One of QoS 0 is sent. One of QoS 1 or 2 is added at the end of the
    queue: if there is room among the messages in flight it is sent and
    waits for its answer, and the number of messages in flight grows by one;
    otherwise it is kept to be sent later. What is sent is exactly the PUBLISH
    packet of the message, and nothing without a connection. *)
Theorem client_publish_exact now topic pl q r li lo c :
  rep li lo c → outq_ok (base c) → 0 ≤ last_mid (base c) < 65536 → 0 ≤ q ≤ 2 → topic ≠ [] → slen pl ≤ MQTT_MAX_PAYLOAD →
  mosquitto_pub_topic_check topic = MOSQ_ERR_SUCCESS →
  let m := new_message now (next_mid c) topic pl q r in
  let sent_now := (q =? 0) || room c in
  ∃ rc c' lo', mosquitto_publish now (Some topic) pl q r c = Some ((rc, Some (next_mid c)), c') ∧
    rep li lo' c' ∧ last_mid (base c') = next_mid c ∧
    inflight_messages c' = inflight_messages c + (if (0 <? q) && room c then 1 else 0) ∧
    contents lo' = contents lo ++ (if q =? 0 then [] else [if room c then begin m else m]) ∧
    stream_out c' = stream_out c ++ (if sent_now then published c (begin m) else []).
Proof.
  intros Hrep Ho Hmid Hq Ht Hp Htc m sent_now. pose proof (pub_topic_scan_short topic 0 Htc).
  assert (Hs : sized m) by (split; [cbn; lia|done]).
  assert (Hrep1 : rep li lo (with_mid c)) by (destruct Hrep; by split).
  rewrite mosquitto_publish_accepted by done. fold m. unfold sent_now. destruct (Z.eqb_spec q 0) as [->|Hq0].
  - destruct (wp_inv _ _ _ (send_msg_emits now m (with_mid c) Hs Ho)) as (rc & c' & E & Hf & _ & Hst & _).
    rewrite (bind_some _ _ _ _ _ E). exists rc, c', lo. rewrite app_nil_r. split_and!; [done|by eapply rep_frame| | |done|exact Hst].
    + destruct Hf as [_ (_ & _ & _ & _ & -> & _)%kept_fields _ _]. done.
    + destruct (net_frame_fields _ _ Hf) as (_ & _ & _ & _ & _ & _ & _ & -> & _). cbn. lia.
  - assert (Hm : out_ok m) by (split; [cbn; lia|done]).
    destruct (wp_inv _ _ _ (queue_publish_ok now m li lo (with_mid c) Hrep1 Hm eq_refl eq_refl Ho)) as (rc & c' & E & Hop & Hin & Hst & lo' & Hrep2 & Hcont).
    change (m_qos (ma_msg m)) with q in E. rewrite (bind_some _ _ _ _ _ E). exists rc, c', lo'. split_and!; try done.
    + destruct Hop as [_ (_ & _ & _ & _ & -> & _)%kept_fields _ _ _]. done.
    + rewrite Hin, (proj2 (Z.ltb_lt _ _)) by lia. done.
Qed.

(** A new client with a connection. *)
Definition connected_client : client := set_base (set_sock (λ _, Some 5)) (mosquitto_new 0 [99] true false).

Lemma connected_rep : rep [] [] connected_client.
Proof. split; try done. apply NoDup_nil. done. Qed.

Lemma client_publish_exact_witness :
  ∃ rc c' lo', mosquitto_publish 7 (Some [97]) [1; 2] 1 true connected_client = Some ((rc, Some 1), c') ∧
    rep [] lo' c' ∧ last_mid (base c') = 1 ∧ inflight_messages c' = 0 + 1 ∧
    contents lo' = [MessageAll None 7 mosq_ms_wait_for_puback false 1 (Message [97] [1; 2] 1 true)] ∧
    stream_out c' = [51; 7; 0; 1; 97; 0; 1; 1; 2].
Proof.
  apply (client_publish_exact 7 [97] [1; 2] 1 true [] [] connected_client connected_rep);
    [by vm_compute|by vm_compute|lia|done|by vm_compute|by vm_compute].
Defined.

(** C24: a PUBLISH is received as it was sent. When the packet that the broker
    sends for a message has been read, its handler gives the program the
    message with its topic, payload, QoS and retain flag, at once if it is of
    QoS 0 or 1; one of QoS 2 is kept, at the end of the queue, until it is
    released. The answer is a PUBACK or PUBREC with the message id. Nothing
    looks whether the id is in the queue already. *)
Theorem client_receive_exact now p0 mid topic pl q r d li lo c :
  rep li lo c → outq_ok (base c) → 0 ≤ q ≤ 2 → 0 ≤ mid < 65536 → topic ≠ [] → 0 ∉ topic → slen topic < 65536 →
  slen (publish_body mid topic pl q) < MAX_BODY →
  c_in_packet (base c) = complete_packet p0 (publish_command q r d) (publish_body mid topic pl q) →
  let msg := Message topic pl q r in
  ∃ rc c' li' l, lib_packet_handle now c = Some (rc, c') ∧ rep li' lo c' ∧
    stream_out c' = stream_out c ++ answer q mid ∧
    contents li' = contents li ++ (if q =? 2 then [MessageAll None now mosq_ms_wait_for_pubrel d mid msg] else []) ∧
    callbacks c' = callbacks c ++ l ++ (if q =? 2 then [] else [OnMessage (if 0 <? q then mid else 0) msg]) ∧
    Forall net_callback l.
Proof.
  intros Hrep Ho Hq Hmid Hne H0 Ht Hb Hin msg. pose proof (publish_flags q r d Hq) as (F1 & F2 & F3 & F4). cbv zeta in F1, F2, F3, F4.
  assert (Hcmd : command (c_in_packet (base c)) = publish_command q r d) by (by rewrite Hin).
  set (Q := λ (_ : Z) c', stream_out c' = stream_out c ++ answer q mid ∧ ∃ li' l, rep li' lo c' ∧
    contents li' = contents li ++ (if q =? 2 then [MessageAll None now mosq_ms_wait_for_pubrel d mid msg] else []) ∧
    callbacks c' = callbacks c ++ l ++ (if q =? 2 then [] else [OnMessage (if 0 <? q then mid else 0) msg]) ∧ Forall net_callback l).
  assert (Hwp : wp (lib_packet_handle now) Q c).
  { unfold lib_packet_handle. apply wp_bind, wp_get. cbv zeta. rewrite Hcmd, F4. cbn [Z.eqb]. 
    apply wp_bind, wp_elift, wp_get. cbv zeta. rewrite Hcmd, F1, F2, F3. fold (finish_publish now d q r).
    apply (read_publish p0 (publish_command q r d) mid topic pl q (finish_publish now d q r)); try done.
    intros p. set (mid' := if 0 <? q then mid else 0).
    eapply wp_mono; [by apply (finish_publish_ok now mid' topic pl q r d li lo (moved p c)); [apply rep_moved| |]|].
    intros res c' (Hst & li' & l & Hr' & Hcont & Hcb & HF).
    assert (Hsame : 0 < q → mid' = mid) by (intros Hlt; unfold mid'; by rewrite (proj2 (Z.ltb_lt _ _))).
    assert (HQ : Q 0 c').
    { split.
      - rewrite Hst. unfold answer. destruct (Z.eqb_spec q 0); [done|]. by rewrite Hsame by lia.
      - exists li', l. split_and!; try done. rewrite Hcont. destruct (Z.eqb_spec q 2); [|done]. by rewrite Hsame by lia. }
    destruct res; exact HQ. }
  destruct (wp_inv _ _ _ Hwp) as (rc & c' & E & Hst & li' & l & ? & ? & ? & ?). exists rc, c', li', l. by split_and!.
Qed.

Lemma client_receive_exact_witness :
  let p := complete_packet (_mosquitto_packet_cleanup packet_zero) 0x3D [0; 1; 97; 0; 9; 33] in
  let msg := Message [97] [33] 2 true in
  ∃ rc c' li' l, lib_packet_handle 7 (moved p connected_client) = Some (rc, c') ∧ rep li' [] c' ∧
    stream_out c' = [0x50; 2; 0; 9] ∧
    contents li' = [MessageAll None 7 mosq_ms_wait_for_pubrel true 9 msg] ∧
    callbacks c' = l ++ [] ∧ Forall net_callback l.
Proof.
  apply (client_receive_exact 7 (_mosquitto_packet_cleanup packet_zero) 9 [97] [33] 2 true true [] [] (moved _ connected_client));
    [apply rep_moved, connected_rep|by vm_compute|lia|lia|done|set_solver|by vm_compute|by vm_compute|by vm_compute].
Defined.

(** The message that a PUBREL takes out of the queue and delivers. *)
Lemma release_delivers now mid li lo p c :
  rep li lo c →
  wp (let* res := lib_message_remove now mid mosq_md_in in deliver_first res) (λ _ c2, ∃ li', rep li' lo c2 ∧ base c2 = base (moved p c) ∧
    match remove_first mid (contents li) with
    | None => contents li' = contents li ∧ callbacks c2 = callbacks c
    | Some (x, rest) => contents li' = rest ∧ callbacks c2 = callbacks c ++ [OnMessage mid (ma_msg x)]
    end) (moved p c).
Proof.
  intros Hrep. eapply wp_mono; [by apply (release_ok now mid li lo), rep_moved|]. intros [] c2 [_ H2].
  destruct (remove_first mid (contents li)) as [[x rest]|] eqn:Hrm.
  - destruct H2 as (Hoth & li' & Hr2 & Hc2). unfold others, delivered in Hoth. cbn in Hoth. injection Hoth as E1 _ _ _ _ E2.
    destruct (remove_first_mids _ _ _ _ Hrm) as [<- _]. by exists li'.
  - subst c2. exists li. split; [by apply rep_moved|]. done.
Qed.

(** C25: a PUBREL releases one message. The first message with the id is taken
    out of the queue and given to the program, the others stay in their
    order, and a PUBCOMP is sent, also when no message has the id. If no
    other message has the id, a repeated PUBREL gives nothing. *)
Theorem client_release_exact now p0 mid li lo c :
  rep li lo c → outq_ok (base c) → 0 ≤ mid < 65536 → c_in_packet (base c) = pubrel_packet p0 mid →
  ∃ rc c' li' l, lib_packet_handle now c = Some (rc, c') ∧ rep li' lo c' ∧
    stream_out c' = stream_out c ++ wire PUBCOMP (enc_uint16 mid) ∧ Forall net_callback l ∧
    match remove_first mid (contents li) with
    | None => contents li' = contents li ∧ callbacks c' = callbacks c ++ l
    | Some (x, rest) => contents li' = rest ∧ ma_mid x = mid ∧ callbacks c' = callbacks c ++ [OnMessage mid (ma_msg x)] ++ l
    end ∧
    (NoDup (ma_mid <$> contents li) → remove_first mid (contents li') = None).
Proof.
  intros Hrep Ho Hmid Hin. assert (Hcmd : command (c_in_packet (base c)) = Z.lor PUBREL 2) by (by rewrite Hin).
  assert (Hcur : cursor [] (enc_uint16 mid ++ []) (c_in_packet (base c))).
  { rewrite Hin, app_nil_r. by apply complete_cursor. }
  destruct (read_uint16_cursor [] mid [] _ Hmid Hcur) as (p & Hrd & _).
  set (Q := λ (_ : Z) c', ∃ li' l, rep li' lo c' ∧ stream_out c' = stream_out c ++ wire PUBCOMP (enc_uint16 mid) ∧ Forall net_callback l ∧
    match remove_first mid (contents li) with
    | None => contents li' = contents li ∧ callbacks c' = callbacks c ++ l
    | Some (x, rest) => contents li' = rest ∧ callbacks c' = callbacks c ++ [OnMessage mid (ma_msg x)] ++ l
    end).
  assert (Hwp : wp (lib_packet_handle now) Q c).
  { unfold lib_packet_handle. apply wp_bind, wp_get. cbv zeta. rewrite Hcmd. cbn [Z.land Z.eqb].
    change (wp (lib_handle_pubrel now) Q c). apply wp_bind, wp_elift, wp_get. unfold bad_flags. rewrite Hcmd.
    rewrite andb_false_r. eapply wp_lib_read; [exact Hrd|]. apply wp_elift.
    eapply wp_mono; [exact (wp_bind_inv _ _ _ _ (release_delivers now mid li lo p c Hrep))|]. intros res c1 H1.
    apply wp_elift. eapply wp_mono; [exact H1|]. clear H1. intros [] c2 (li' & Hr2 & Hb2 & Hm2). apply wp_bind. eapply wp_mono.
    { apply (lib_send_command_with_mid_emits now PUBCOMP mid c2). by rewrite Hb2. }
    intros rc c3 (Hf & _ & Hs). apply wp_ret, wp_ret. destruct (nf_calls _ _ Hf) as (l & Hl & HF).
    exists li', l. split_and!; [by eapply rep_frame|rewrite Hs; unfold stream_out; by rewrite Hb2|done|].
    destruct (remove_first mid (contents li)) as [[x rest]|]; destruct Hm2 as [-> Hm2]; rewrite Hl, Hm2, <-?(assoc_L (++)); done. }
  destruct (wp_inv _ _ _ Hwp) as (rc & c' & E & li' & l & Hr' & Hst & HF & Hm). exists rc, c', li', l.
  destruct (remove_first mid (contents li)) as [[x rest]|] eqn:Hrm; destruct Hm as [-> Hm]; split_and!; try done.
  - by destruct (remove_first_mids _ _ _ _ Hrm).
  - intros Hnd. apply remove_first_absent. by apply (remove_first_mids _ _ _ _ Hrm).
Qed.

(** A client with a message to be released, and one with a message to be sent
    besides. *)
Definition incoming_msg : message_all := MessageAll None 3 mosq_ms_wait_for_pubrel false 9 (Message [97] [33] 2 false).
Definition outgoing_msg : message_all := MessageAll None 3 mosq_ms_invalid false 1 (Message [98] [1] 1 false).
Definition receiving_client : client :=
  set_in_queue_len (λ _, 1) (set_in_messages (λ _, Some 1%positive) (set_in_messages_last (λ _, Some 1%positive)
    (set_cells <[1%positive := incoming_msg]> connected_client))).
Definition busy_client : client :=
  set_out_queue_len (λ _, 1) (set_out_messages (λ _, Some 2%positive) (set_out_messages_last (λ _, Some 2%positive)
    (set_cells <[2%positive := outgoing_msg]> receiving_client))).

Lemma receiving_rep : rep [(1%positive, incoming_msg)] [] receiving_client.
Proof. split; try done. apply NoDup_singleton. Qed.
Lemma busy_rep : rep [(1%positive, incoming_msg)] [(2%positive, outgoing_msg)] busy_client.
Proof. split; try done. by_compute. Qed.

Lemma client_release_exact_witness :
  let p0 := _mosquitto_packet_cleanup packet_zero in
  ∃ rc c' li' l, lib_packet_handle 7 (moved (pubrel_packet p0 9) receiving_client) = Some (rc, c') ∧ rep li' [] c' ∧
    stream_out c' = [0x70; 2; 0; 9] ∧ Forall net_callback l ∧
    (contents li' = [] ∧ 9 = 9 ∧ callbacks c' = [OnMessage 9 (Message [97] [33] 2 false)] ++ l) ∧
    (NoDup [9] → remove_first 9 (contents li') = None).
Proof.
  apply (client_release_exact 7 (_mosquitto_packet_cleanup packet_zero) 9 [(1%positive, incoming_msg)] [] (moved _ receiving_client));
    [apply rep_moved, receiving_rep|by vm_compute|lia|done].
Defined.

(** C27: what a reconnect does. It drops the packets in progress, keeps the
    messages of both queues in their order, and sends a CONNECT with the
    client's id, will, user name and password. The messages that were to be
    released still are; of those to be sent, as many as the limit allows are
    in flight again. This is unless there are messages to be released and none
    to be sent. *)
Theorem client_reconnect_exact now s r w li lo name version c :
  rep li lo c → Forall (λ m, m_qos (ma_msg m) = 2) (contents li) → li = [] ∨ lo ≠ [] →
  strings_ok (base c) → connect_head (protocol (base c)) = Some (name, version) →
  let res := reset_list (max_inflight_messages c) 0 (contents lo) in
  ∃ rc c' li' lo', lib_reconnect now (inr (s, r, w)) c = Some (rc, c') ∧ rep li' lo' c' ∧
    contents li' = set_ma_timestamp (λ _, 0) <$> contents li ∧ contents lo' = res.2 ∧ inflight_messages c' = res.1 ∧
    stream_out c' = sent (base c) ++
      wire CONNECT (connect_body name version (keepalive (base c)) (clean_session (base c)) (base c)).
Proof.
  intros Hrep Hq Hsafe Hs Hh res. set (Q := λ (_ : Z) c', ∃ li' lo', rep li' lo' c' ∧
    contents li' = set_ma_timestamp (λ _, 0) <$> contents li ∧ contents lo' = res.2 ∧ inflight_messages c' = res.1 ∧
    stream_out c' = sent (base c) ++
      wire CONNECT (connect_body name version (keepalive (base c)) (clean_session (base c)) (base c))).
  assert (Hwp : wp (lib_reconnect now (inr (s, r, w))) Q c).
  { unfold lib_reconnect. apply wp_bind, wp_modify, wp_bind, wp_modify, wp_bind, wp_modify.
    set (c1 := set_base _ (set_base _ (set_base _ c))). assert (Hrep1 : rep li lo c1) by (destruct Hrep; by split).
    apply wp_bind. eapply wp_mono; [by apply (reconnect_reset_ok li lo)|].
    intros [] c2 (Hoth & Hlast & li' & lo' & Hrep2 & Hci & Hcl & Hin & _).
    assert (Hr2 : rep li' lo' c2).
    { assert (El : out_messages_last c2 = end_of None lo).
      { rewrite Hlast. destruct Hsafe as [->|Hne]; [done|]. unfold end_of. destruct (last lo) eqn:E; [done|]. by apply last_None in E. }
      destruct Hrep2. split; try done. cbn in *. congruence. }
    assert (Hb2 : base c2 = base c1) by (unfold others in Hoth; congruence).
    apply wp_bind, wp_modify, wp_bind, wp_modify, wp_bind, wp_get. set (c4 := set_base _ (set_base _ c2)).
    assert (Hb4 : base c4 = set_sock (λ _, Some s) (set_rd (λ _, r) (set_wr (λ _, w) (base c1)))).
    { rewrite <-Hb2. unfold c4. cbn [base set_base]. by destruct (base c2). }
    eapply wp_mono; [apply (lib_send_connect_emits now _ _ c4 name version)|].
    - rewrite Hb4. destruct Hs. by split.
    - by rewrite Hb4.
    - rewrite Hb4. by split.
    - intros rc c5 (Hf & _ & Hst). exists li', lo'.
      assert (Hr4 : rep li' lo' (set_base (set_keepalive (λ _, keepalive (base c4))) c4)) by (destruct Hr2; by split).
      split; [by eapply rep_frame|]. destruct (net_frame_fields _ _ Hf) as (_ & _ & _ & _ & _ & _ & _ & E & _).
      split_and!; [done|done|by rewrite E|]. rewrite Hst. unfold stream_out, pending. rewrite Hb4. cbn. by rewrite app_nil_r. }
  destruct (wp_inv _ _ _ Hwp) as (rc & c' & E & li' & lo' & ? & ? & ? & ? & ?). exists rc, c', li', lo'. by split_and!.
Qed.

Lemma client_reconnect_exact_witness :
  ∃ rc c' li' lo', lib_reconnect 9 (inr (6, [], [])) busy_client = Some (rc, c') ∧ rep li' lo' c' ∧
    contents li' = [set_ma_timestamp (λ _, 0) incoming_msg] ∧
    contents lo' = [set_ma_state (λ _, mosq_ms_wait_for_puback) (set_ma_timestamp (λ _, 0) outgoing_msg)] ∧ inflight_messages c' = 1 ∧
    stream_out c' = [16; 15; 0; 6; 77; 81; 73; 115; 100; 112; 3; 2; 0; 60; 0; 1; 99].
Proof.
  apply (client_reconnect_exact 9 6 [] [] [(1%positive, incoming_msg)] [(2%positive, outgoing_msg)] (str "MQIsdp") 3 busy_client busy_rep).
  - by repeat constructor.
  - by right.
  - split; [exists [99]; by vm_compute|by vm_compute|by vm_compute|done].
  - done.
Defined.

(** C39: after a reconnect with messages that wait to be released and none that
    waits to be sent, the next message of QoS 1 or 2 that is published is
    linked into the queue of incoming messages: [prev] is not reset between
    the two loops of [_mosquitto_messages_reconnect_reset], so that
    [out_messages_last] is the last incoming message. The queue of outgoing
    messages stays empty: the message is not sent again when it is lost, and
    its acknowledgement is not found. *)
Theorem client_reconnect_mixes now topic pl q r li c :
  rep li [] c → li ≠ [] → Forall (λ m, m_qos (ma_msg m) = 2) (contents li) → outq_ok (base c) → 0 ≤ last_mid (base c) < 65536 →
  0 < q ≤ 2 → topic ≠ [] → slen pl ≤ MQTT_MAX_PAYLOAD → mosquitto_pub_topic_check topic = MOSQ_ERR_SUCCESS →
  ∃ rc mid c' m li', (lib_messages_reconnect_reset ;;; mosquitto_publish now (Some topic) pl q r) c = Some ((rc, Some mid), c') ∧
    ma_mid m = mid ∧ ma_msg m = Message topic pl q r ∧
    lseg (heap c') (in_messages c') li' None ∧ contents li' = (set_ma_timestamp (λ _, 0) <$> contents li) ++ [m] ∧
    out_messages c' = None ∧ lib_message_delete now mid mosq_md_out c' = Some (MOSQ_ERR_NOT_FOUND, c').
Proof.
  intros Hrep Hne Hq2 Ho Hmid Hq Ht Hp Htc. pose proof (pub_topic_scan_short topic 0 Htc) as Hlen.
  destruct (wp_inv _ _ _ (reconnect_reset_ok li [] c Hrep Hq2)) as ([] & c1 & E1 & Hoth & Hlast & li1 & lo1 & Hrep1 & Hci & _ & _ & Hfi & Hfo).
  apply fmap_nil_inv in Hfo as ->. assert (Hb1 : base c1 = base c) by (unfold others in Hoth; congruence).
  rewrite (bind_some _ _ _ _ _ E1), mosquitto_publish_accepted by (rewrite ?Hb1; done || lia).
  rewrite (proj2 (Z.eqb_neq q 0)) by lia. set (m := new_message _ _ _ _ _ _).
  assert (Hm : out_ok m) by (split; [cbn; lia|split; [cbn; lia|done]]).
  pose proof Hrep1 as [R1 _ R3 _ R5 _ _]. cbn in R1, R3, R5. rewrite app_nil_r in R5.
  assert (Hne1 : li1 ≠ []) by (intros ->; by destruct li).
  assert (Hl1 : out_messages_last c1 = end_of None li1).
  { rewrite Hlast. unfold end_of. cbn. assert (E : fst <$> last li1 = fst <$> last li) by (by rewrite <-!fmap_last, Hfi).
    by destruct (last li1) as [[]|], (last li) as [[]|]; cbn in *; simplify_eq. }
  destruct (wp_inv _ _ _ (queue_publish_mixes now m li1 (with_mid c1) R1 R5 Hne1 Hl1 Hm eq_refl eq_refl (eq_rect_r outq_ok Ho Hb1)))
    as (rc & c' & E & Hout & li' & Hl' & Hc').
  change (m_qos (ma_msg m)) with q in E. rewrite (bind_some _ _ _ _ _ E). cbn in Hout. rewrite R3 in Hout.
  exists rc, (next_mid c1), c', (if room (with_mid c1) then begin m else m), li'. split; [done|].
  rewrite Hci in Hc'. split_and!; try done.
  - destruct (room _); [|done]. unfold begin. by repeat case_match.
  - destruct (room _); [|done]. unfold begin. by repeat case_match.
  - unfold lib_message_delete, lib_message_remove, fuel, bind, mgets, mget. rewrite Hout. by destruct (size _).
Qed.

Lemma client_reconnect_mixes_witness :
  ∃ rc mid c' m li', (lib_messages_reconnect_reset ;;; mosquitto_publish 9 (Some [98]) [1] 1 false) receiving_client = Some ((rc, Some mid), c') ∧
    ma_mid m = mid ∧ ma_msg m = Message [98] [1] 1 false ∧
    lseg (heap c') (in_messages c') li' None ∧ contents li' = [set_ma_timestamp (λ _, 0) incoming_msg] ++ [m] ∧
    out_messages c' = None ∧ lib_message_delete 9 mid mosq_md_out c' = Some (MOSQ_ERR_NOT_FOUND, c').
Proof.
  apply (client_reconnect_mixes 9 [98] [1] 1 false [(1%positive, incoming_msg)] receiving_client receiving_rep);
    [done|by repeat constructor|by vm_compute|by vm_compute|lia|done|by vm_compute|by vm_compute].
Defined.




