(* ===== verification/Exchange.v ===== *)
(** * Client and broker understand each other

    The packets that the client library sends are read by the broker as what
    was meant: the CONNECT, however the network cuts it up, as the id, will,
    user name and password of the client, and the PUBLISH as the message. *)

From stdpp Require Import base list numbers strings option sets gmap.
From Stdlib Require Import ZArith Lia.
From S2P Require Import Prelude Topic Packet State Store Send Messages Db Acl Subs DbInv Context Handlers Lifecycle Serve Runs.
From S2P Require Import Client ClientNet ClientQueue ClientRun.
Local Open Scope Z_scope.
Local Open Scope broker_scope.

(** ** Reading in a handler of the broker *)

(** The database with this context. *)
Definition holding (c : ptr) (x : mosquitto) (d : db) : db := set_contexts <[c := x]> d.

Lemma holding_lookup c x d : contexts (holding c x d) !! c = Some x.
Proof. apply lookup_insert_eq. Qed.

Lemma holding_again c x y d : set_contexts <[c := y]> (holding c x d) = holding c y d.
Proof. unfold holding, set_contexts. cbn. by rewrite insert_insert_eq. Qed.

(** A packet that has been read up to [w]. *)
Record read_upto (w r : bytes) (cmd : Z) (p : packet) : Prop := {
  ru_cursor : cursor w r p;
  ru_ok : packet_ok p;
  ru_command : command p = cmd;
}.

(** [r] reads [part] as [a]. *)
Definition reads_as {A} (r : reader A) (part : bytes) (a : A) : Prop :=
  (∃ P, safe_reader P r) ∧
  ∀ w rest p, cursor w (part ++ rest) p → ∃ p', r p = Some (inr a, p') ∧ cursor (w ++ part) rest p'.

Lemma reads_byte b : reads_as _mosquitto_read_byte [b] b.
Proof. split; [eexists; apply read_byte_safe|]. intros w rest p. apply read_byte_cursor. Qed.
Lemma reads_uint16 n : 0 ≤ n < 65536 → reads_as _mosquitto_read_uint16 (enc_uint16 n) n.
Proof. intros Hn. split; [eexists; apply read_uint16_safe|]. intros w rest p. by apply read_uint16_cursor. Qed.
Lemma reads_string s : slen s < 65536 → 0 ∉ s → reads_as _mosquitto_read_string (enc_string s) s.
Proof.
  intros Hs H0. split; [eexists; apply read_string_safe|]. intros w rest p Hc.
  destruct (read_string_cursor w s rest p Hs Hc) as (p' & E & Hc'). rewrite cstr_id in E by done. eauto.
Qed.
Lemma reads_bytes s : slen s < MAX_BODY → reads_as (_mosquitto_read_bytes (slen s)) s s.
Proof.
  intros Hs. split; [eexists; apply read_bytes_safe; unfold slen in *; lia|]. intros w rest p. apply read_bytes_cursor.
Qed.

Section read.
Context {A B : Type} (c : ptr) (r : reader A) (part : bytes) (a : A) (Hr : reads_as r part a).

Lemma read_next w rest cmd x d :
  read_upto w (part ++ rest) cmd (c_in_packet x) →
  ∃ p, read_upto (w ++ part) rest cmd p ∧ read c r (holding c x d) = Some (inr a, holding c (read_to p x) d).
Proof using Hr.
  intros [H1 H2 H3]. destruct Hr as [[P HP] Hrd]. destruct (Hrd _ _ _ H1) as (p & E & Hc).
  destruct (HP _ H2) as (res & p' & E' & Hok & _ & _ & _ & Hcmd & _). rewrite E in E'. injection E' as <- <-.
  exists p. split; [split; [done|done|congruence]|].
  unfold read, on_context, on_cm, on_ctx, read_in. rewrite holding_lookup. cbn [mbind option_bind ctx mdb]. rewrite E.
  cbn [mbind option_bind ctx mdb]. rewrite <-(holding_again c x (read_to p x) d). done.
Qed.

Lemma wp_read_next w rest cmd x d (k : A → M db (Z + B)) Q :
  read_upto w (part ++ rest) cmd (c_in_packet x) →
  (∀ p, read_upto (w ++ part) rest cmd p → wp (k a) Q (holding c (read_to p x) d)) →
  wp (ebind (or_1 (read c r)) k) Q (holding c x d).
Proof using Hr.
  intros Hx Hk. destruct (read_next w rest cmd x d Hx) as (p & Hp & E). apply wp_bind, wp_bind. unfold wp at 1. rewrite E.
  apply wp_ret. by apply Hk.
Qed.
End read.

Lemma wp_get_here {B} c x d (k : mosquitto → M db (Z + B)) Q :
  wp (k x) Q (holding c x d) → wp (ebind (lift_m (get_context c)) k) Q (holding c x d).
Proof. intros Hk. apply wp_bind, wp_bind, (wp_get_context c x); [apply holding_lookup|]. by apply wp_ret. Qed.

Lemma wp_upd_here {B} c x d f (k : unit → M db (Z + B)) Q :
  wp (k tt) Q (holding c (f x) d) → wp (ebind (lift_m (upd_context c f)) k) Q (holding c x d).
Proof.
  intros Hk. apply wp_bind, wp_bind. unfold wp at 1, upd_context. rewrite holding_lookup. cbn [mbind option_bind].
  rewrite holding_again. by apply wp_ret.
Qed.

Lemma wp_part {A B} (m : M db (Z + A)) (k : A → M db (Z + B)) Q d :
  wp m (λ r d', match r with inr a => wp (k a) Q d' | inl _ => False end) d → wp (ebind m k) Q d.
Proof. intros Hm. apply wp_bind. eapply wp_mono; [exact Hm|]. by intros [rc|a] d'. Qed.

(** A part of the packet is read as [v], and the context is [f] of what it was. *)
Definition parses {A} (c : ptr) (m : M db (Z + A)) (part : bytes) (v : A) (f : mosquitto → mosquitto) (x : mosquitto) : Prop :=
  ∀ w rest cmd d, read_upto w (part ++ rest) cmd (c_in_packet x) → Z.land cmd 0x0F = 0 →
    wp m (λ r d', r = inr v ∧ ∃ p, read_upto (w ++ part) rest cmd p ∧ d' = holding c (read_to p (f x)) d) (holding c x d).

Lemma wp_parses {A B} c (m : M db (Z + A)) part v f x w rest cmd d (k : A → M db (Z + B)) Q :
  parses c m part v f x → read_upto w (part ++ rest) cmd (c_in_packet x) → Z.land cmd 0x0F = 0 →
  (∀ p, read_upto (w ++ part) rest cmd p → wp (k v) Q (holding c (read_to p (f x)) d)) →
  wp (ebind m k) Q (holding c x d).
Proof.
  intros Hm Hx Hcmd Hk. apply wp_part. eapply wp_mono; [by eapply Hm|]. intros r d' (-> & p & Hp & ->). by apply Hk.
Qed.

(** ** The parts of a CONNECT *)

Section connect.
Context (E : env) (rand : nat → Z) (c : ptr).

Lemma parse_protocol name version v x :
  connect_head v = Some (name, version) →
  parses c (connect_protocol E c) (enc_string name ++ [version]) version (set_protocol (λ _, v)) x.
Proof.
  intros Hv w rest cmd d Hx Hcmd. rewrite <-(assoc_L (++)) in Hx.
  assert (Hname : slen name < 65536 ∧ 0 ∉ name) by (destruct v; simplify_eq/=; split; by_compute).
  destruct Hname as [Hn1 Hn2]. unfold connect_protocol. eapply (wp_read_next _ _ _ name); [by apply reads_string|exact Hx|]. intros p1 H1.
  eapply (wp_read_next _ _ _ version); [apply reads_byte|exact H1|]. intros p2 H2. apply wp_get_here. rewrite <-(assoc_L (++)) in H2.
  assert (Hc2 : command p2 = cmd) by apply H2. cbn [read_to c_in_packet set_in_packet].
  destruct v; cbn in Hv; try done; injection Hv as <- <-.
  - rewrite bool_decide_eq_true_2 by done. cbn [Z.land Z.eqb negb]. apply wp_upd_here, wp_ret. split; [done|]. exists p2. done.
  - rewrite bool_decide_eq_false_2 by done. rewrite bool_decide_eq_true_2 by done. cbn [Z.eqb negb]. rewrite Hc2, Hcmd.
    apply wp_upd_here, wp_ret. split; [done|]. exists p2. done.
Qed.

Lemma parse_id cid clean x :
  cid ≠ [] → slen cid < 65536 → 0 ∉ cid → clientid_prefixes E = None →
  parses c (connect_id E rand c clean) (enc_string cid) cid Datatypes.id x.
Proof.
  intros Hne Hl H0 Hpre w rest cmd d Hx Hcmd. unfold connect_id.
  eapply (wp_read_next _ _ _ cid); [by apply reads_string|exact Hx|]. intros p1 H1. apply wp_get_here.
  rewrite bool_decide_eq_false_2 by done. apply wp_bind, wp_ret. rewrite Hpre. apply wp_ret. split; [done|]. by exists p1.
Qed.

(** The bits of the flags. *)
Lemma connect_flags_bits clean wl user pw :
  match wl with Some m => 0 ≤ m_qos m ≤ 2 | None => True end →
  let f := connect_flags clean wl user pw in
  Z.land f 1 = 0 ∧ negb (Z.land f 2 =? 0) = clean ∧
  Z.shiftr (Z.land f 0x18) 3 = (match wl with Some m => m_qos m | None => 0 end) ∧
  (Z.land f 0x20 =? 0x20) = (match wl with Some m => m_retain m | None => false end) ∧
  negb (Z.land f 4 =? 0) = bool_decide (is_Some wl) ∧
  negb (Z.land f 0x80 =? 0) = user ∧ negb (Z.land f 0x40 =? 0) = user && pw.
Proof.
  destruct wl as [[t p q r]|]; cbn [m_qos m_retain].
  - intros Hq. assert (q = 0 ∨ q = 1 ∨ q = 2) as [->|[->| ->]] by lia; destruct clean, user, pw, r; by vm_compute.
  - intros _. destruct clean, user, pw; by vm_compute.
Qed.

(** A will as the broker takes it. *)
Definition acceptable_will (w : message) : Prop :=
  0 ≤ m_qos w ≤ 2 ∧ m_topic w ≠ [] ∧ 0 ∉ m_topic w ∧ mosquitto_pub_topic_check (m_topic w) = MOSQ_ERR_SUCCESS ∧
  slen (m_payload w) < 65536.

Lemma parse_will clean wl user pw x :
  match wl with Some m => acceptable_will m | None => True end → mount_point E x = None →
  parses c (connect_will E c (connect_flags clean wl user pw)) (enc_opt (m_topic <$> wl) ++ enc_opt (m_payload <$> wl)) wl Datatypes.id x.
Proof.
  intros Hw Hmp w rest cmd d Hx Hcmd.
  destruct (connect_flags_bits clean wl user pw) as (_ & _ & F3 & F4 & F5 & _); [by destruct wl as [m|]; [apply Hw|]|].
  unfold connect_will. rewrite F3, F4, F5. apply wp_get_here. destruct wl as [[t pl q r]|].
  - destruct Hw as (Hq & Hne & H0 & Htc & Hpl). pose proof (pub_topic_scan_short t 0 Htc). cbn [m_topic m_payload m_qos m_retain fmap option_fmap option_map enc_opt] in *.
    rewrite bool_decide_eq_true_2 by eauto. rewrite <-!(assoc_L (++)) in Hx. cbn [fmap option_fmap option_map enc_opt] in Hx.
    eapply (wp_read_next _ _ _ t); [apply reads_string; [lia|done]|exact Hx|]. intros p1 H1.
    rewrite bool_decide_eq_false_2 by done. cbv zeta. unfold mounted. rewrite Hmp, Htc.
    change (negb (MOSQ_ERR_SUCCESS =? MOSQ_ERR_SUCCESS)) with false. cbv iota. unfold enc_string in H1 at 2. rewrite <-(assoc_L (++)) in H1.
    eapply (wp_read_next _ _ _ (slen pl)); [apply reads_uint16; unfold slen in *; lia|exact H1|]. intros p2 H2.
    assert (Hend : ∀ p, read_upto (((w ++ enc_string t) ++ enc_uint16 (slen pl)) ++ pl) rest cmd p →
      wp (done_with (Some (Message t pl q r))) (λ r0 d', r0 = inr (Some (Message t pl q r)) ∧ ∃ p, read_upto (w ++ enc_string t ++ enc_string pl) rest cmd p ∧
        d' = holding c (read_to p (Datatypes.id x)) d) (holding c (read_to p x) d)).
    { intros p Hp. apply wp_ret. split; [done|]. exists p. split; [|done]. unfold enc_string at 2. by rewrite <-!(assoc_L (++)) in *. }
    destruct (Z.ltb_spec 0 (slen pl)) as [Hlt|Hle].
    + eapply (wp_read_next _ _ _ pl); [apply reads_bytes; unfold MAX_BODY; lia|exact H2|]. intros p3 H3. by apply Hend.
    + assert (pl = []) as -> by (unfold slen in *; destruct pl; [done|cbn in Hle; lia]). apply wp_bind, wp_ret. apply Hend. by rewrite app_nil_r.
  - rewrite bool_decide_eq_false_2 by (by intros [? ?]). cbn [Z.eqb negb orb]. rewrite andb_false_r. apply wp_ret. split; [done|].
    exists (c_in_packet x). cbn. rewrite app_nil_r. split; [done|]. unfold holding. do 2 f_equal. by destruct x.
Qed.

(** What is sent of the user name and password. *)
Definition login_of (user pass : option bytes) : option bytes * option bytes :=
  match user with Some _ => (user, pass) | None => (None, None) end.

Lemma parse_login clean wl user pass x :
  match wl with Some m => 0 ≤ m_qos m ≤ 2 | None => True end →
  slen (default [] user) < 65536 → 0 ∉ default [] user → slen (default [] pass) < 65536 → 0 ∉ default [] pass →
  parses c (connect_login c (connect_flags clean wl (bool_decide (is_Some user)) (bool_decide (is_Some pass))))
    (enc_opt user ++ (if bool_decide (is_Some user) then enc_opt pass else [])) (login_of user pass) Datatypes.id x.
Proof.
  intros Hw Hu Hu0 Hp Hp0 w rest cmd d Hx Hcmd.
  destruct (connect_flags_bits clean wl (bool_decide (is_Some user)) (bool_decide (is_Some pass)) Hw) as (_ & _ & _ & _ & _ & F6 & F7).
  unfold connect_login. rewrite F6, F7. apply wp_get_here. destruct user as [u|].
  - rewrite bool_decide_eq_true_2 in Hx |- * by eauto. cbn [andb enc_opt default] in *. rewrite <-(assoc_L (++)) in Hx.
    destruct (read_next c _ _ u (reads_string u Hu Hu0) w _ cmd x d Hx) as (p1 & H1 & E1). apply wp_bind. unfold wp at 1. rewrite E1.
    destruct pass as [pw|].
    + rewrite bool_decide_eq_true_2 by eauto. cbn [enc_opt default] in *.
      destruct (read_next c _ _ pw (reads_string pw Hp Hp0) _ _ cmd (read_to p1 x) d H1) as (p2 & H2 & E2).
      apply wp_bind. unfold wp at 1. rewrite E2. apply wp_ret. split; [done|]. exists p2. rewrite <-(assoc_L (++)) in H2. done.
    + rewrite bool_decide_eq_false_2 by (by intros [? ?]). apply wp_ret. split; [done|]. exists p1. by rewrite app_nil_r.
  - rewrite bool_decide_eq_false_2 in Hx |- * by (by intros [? ?]). cbn [andb negb]. rewrite andb_false_r. apply wp_ret. split; [done|].
    exists (c_in_packet x). cbn. rewrite app_nil_r. split; [done|]. unfold holding. do 2 f_equal. by destruct x.
Qed.

(** What a client has to say in its CONNECT, as the broker can take it. *)
Record presentable (b : mosquitto) : Prop := {
  pr_strings : strings_ok b;
  pr_id : ∀ i, id b = Some i → i ≠ [] ∧ 0 ∉ i;
  pr_user : 0 ∉ default [] (username b);
  pr_pass : 0 ∉ default [] (password b);
  pr_will : match will b with Some m => acceptable_will m | None => True end;
}.

(** What the broker makes of it. *)
Definition introduced (version : Z) (clean : bool) (b : mosquitto) : connect_info :=
  let login := login_of (username b) (password b) in
  ConnectInfo version clean (default [] (id b)) (will b) login.1 login.2.

Lemma parse_connect_reads name version ka clean b x :
  presentable b → connect_head (protocol b) = Some (name, version) → 0 ≤ ka < 65536 →
  mount_point E x = None → clientid_prefixes E = None →
  parses c (parse_connect E rand c) (connect_body name version ka clean b) (introduced version clean b)
    (λ x, set_keepalive (λ _, ka) (set_protocol (λ _, protocol b) x)) x.
Proof.
  intros [[(i & Hi & Hil) Hul Hpl _] Hid Hu0 Hp0 Hw] Hh Hka Hmp Hpre w rest cmd d Hx Hcmd. destruct (Hid i Hi) as [Hne Hi0].
  unfold connect_body in *. rewrite Hi in *. cbn [default] in *.
  set (flags := connect_flags _ _ _ _) in *. change ([version; flags]) with ([version] ++ [flags]) in *.
  assert (Hwq : match will b with Some m => 0 ≤ m_qos m ≤ 2 | None => True end) by (destruct (will b); [apply Hw|done]).
  destruct (connect_flags_bits clean (will b) (bool_decide (is_Some (username b))) (bool_decide (is_Some (password b))) Hwq)
    as (F1 & F2 & F3 & _). fold flags in F1, F2, F3.
  rewrite <-!(assoc_L (++)) in Hx. rewrite (assoc_L (++) (enc_string name)) in Hx. unfold parse_connect.
  eapply wp_parses; [by apply (parse_protocol name version)|exact Hx|done|]. intros p1 H1.
  eapply (wp_read_next _ _ _ flags); [apply reads_byte|exact H1|]. intros p2 H2. apply wp_get_here.
  rewrite F1. cbn [Z.eqb negb]. rewrite andb_false_r. cbv zeta. rewrite F3.
  assert (Hq3 : (match will b with Some m => m_qos m | None => 0 end =? 3) = false) by (apply Z.eqb_neq; destruct (will b); lia).
  rewrite Hq3. eapply (wp_read_next _ _ _ ka); [by apply reads_uint16|exact H2|]. intros p3 H3. apply wp_upd_here.
  eapply wp_parses; [by apply (parse_id i)|exact H3|done|]. intros p4 H4. rewrite (assoc_L (++) (enc_opt (m_topic <$> will b))) in H4.
  eapply wp_parses; [by apply parse_will|exact H4|done|]. intros p5 H5. rewrite (assoc_L (++) (enc_opt (username b))) in H5.
  eapply wp_parses; [by apply parse_login|exact H5|done|]. intros p6 H6. apply wp_ret. rewrite F2. split.
  - unfold introduced. rewrite Hi. by destruct (login_of (username b) (password b)).
  - exists p6. split; [|done]. rewrite <-!(assoc_L (++)) in *. done.
Qed.
End connect.

(** ** A PUBLISH *)

Section publish.
Context (E : env) `{Access} (c : ptr).

(** The same as an equation. *)
Lemma read_eq {A B} (r : reader A) part a w rest cmd x d (k : A → M db (Z + B)) :
  reads_as r part a → read_upto w (part ++ rest) cmd (c_in_packet x) →
  ∃ p, read_upto (w ++ part) rest cmd p ∧ ebind (or_1 (read c r)) k (holding c x d) = k a (holding c (read_to p x) d).
Proof.
  intros Hr Hx. destruct (read_next c r part a Hr w rest cmd x d Hx) as (p & Hp & Eq). exists p. split; [done|].
  unfold ebind, or_1, bind. by rewrite Eq.
Qed.

Lemma get_eq {B} x d (k : mosquitto → M db (Z + B)) :
  ebind (lift_m (get_context c)) k (holding c x d) = k x (holding c x d).
Proof. unfold ebind, lift_m, bind, get_context, ret. by rewrite holding_lookup. Qed.

(** What the broker does with a message that it has read: the access control
    decides whether it is published or only acknowledged. [y] is the context
    that the access control sees. *)
Definition judge_publish (y : mosquitto) (topic : bytes) (q m : Z) (r : bool) (pl : bytes) : M db Z :=
  let rc := acl_check y topic MOSQ_ACL_WRITE in
  if rc =? MOSQ_ERR_ACL_DENIED then reject_publish E c q m
  else if negb (rc =? MOSQ_ERR_SUCCESS) then ret rc
  else accept_publish E c topic q m r pl.

Lemma returns_lift (m : M db Z) d : returns (lift_m m) d = m d.
Proof. unfold returns, lift_m, bind, ret. by destruct (m d) as [[rc d']|]. Qed.

Definition judge (y : mosquitto) (topic : bytes) (q m : Z) (r : bool) (pl : bytes) : M db (Z + Z) :=
  let rc := acl_check y topic MOSQ_ACL_WRITE in
  if rc =? MOSQ_ERR_ACL_DENIED then lift_m (reject_publish E c q m)
  else if negb (rc =? MOSQ_ERR_SUCCESS) then fail rc
  else lift_m (accept_publish E c topic q m r pl).

Lemma judge_eq y topic q m r pl d : returns (judge y topic q m r pl) d = judge_publish y topic q m r pl d.
Proof.
  unfold judge, judge_publish. cbv zeta. destruct (_ =? _); [apply returns_lift|]. destruct (negb _); [done|apply returns_lift].
Qed.

(** The end of the packet is the payload. *)
Lemma payload_eq topic q m r pl w cmd x d :
  mount_point E x = None → message_size_limit E = 0 → read_upto w pl cmd (c_in_packet x) →
  ∃ p, (let? x := lift_m (get_context c) in
        let payloadlen := u32 (remaining_length (c_in_packet x) - pos (c_in_packet x)) in
        let topic := mounted E x topic in
        if negb (payloadlen =? 0) && negb (message_size_limit E =? 0) && (message_size_limit E <? payloadlen)
        then lift_m (reject_publish E c q m)
        else
          let? pl := if payloadlen =? 0 then done_with [] else or_1 (read c (_mosquitto_read_bytes payloadlen)) in
          judge x topic q m r pl) (holding c x d) = judge x topic q m r pl (holding c (read_to p x) d).
Proof.
  intros Hmp Hlim Hx. rewrite get_eq. cbv zeta. unfold mounted. rewrite Hmp, Hlim. cbn [Z.eqb negb]. rewrite andb_false_r. cbn [andb].
  pose proof (ru_cursor _ _ _ _ Hx) as (_ & Hpos & Hl & Hmax). rewrite length_app in Hl. unfold MAX_BODY in Hmax. rewrite Hpos, Hl.
  replace (Z.of_nat (length w + length pl) - Z.of_nat (length w)) with (slen pl) by (unfold slen; lia).
  rewrite u32_small by (unfold slen; lia). destruct (Z.eqb_spec (slen pl) 0) as [Hz|Hz].
  - assert (pl = []) as -> by (unfold slen in Hz; destruct pl; [done|cbn in Hz; lia]). exists (c_in_packet x).
    assert (Hrt : read_to (c_in_packet x) x = x) by (by destruct x). by rewrite Hrt.
  - rewrite <-(app_nil_r pl) in Hx. assert (Hr : reads_as (_mosquitto_read_bytes (slen pl)) pl pl) by (apply reads_bytes; unfold slen, MAX_BODY; lia).
    destruct (read_eq _ _ _ _ _ _ x d (λ pl, judge x topic q m r pl) Hr Hx) as (p & _ & Eq). exists p. by rewrite Eq.
Qed.

Lemma handle_publish_eq mid topic pl q r dup x d :
  0 ≤ q ≤ 2 → 0 ≤ mid < 65536 → topic ≠ [] → 0 ∉ topic → mosquitto_pub_topic_check topic = MOSQ_ERR_SUCCESS →
  c_bridge x = None → mount_point E x = None → message_size_limit E = 0 →
  read_upto [] (publish_body mid topic pl q) (publish_command q r dup) (c_in_packet x) →
  ∃ p1 p2, mqtt3_handle_publish E c (holding c x d) =
    judge_publish (read_to p1 x) topic q (if 0 <? q then mid else 0) r pl (holding c (read_to p2 x) d).
Proof.
  intros Hq Hmid Hne H0 Htc Hbr Hmp Hlim Hx. pose proof (pub_topic_scan_short topic 0 Htc).
  assert (Hflags : ∀ h, h = publish_command q r dup → Z.shiftr (Z.land h 0x06) 1 = q ∧ negb (Z.land h 0x01 =? 0) = r).
  { intros h ->. assert (q = 0 ∨ q = 1 ∨ q = 2) as [->|[->| ->]] by lia; destruct r, dup; by vm_compute. }
  destruct (Hflags _ (ru_command _ _ _ _ Hx)) as [F1 F2].
  assert (Hbody : ∀ (b : M db (Z + Z)) y d', (∃ p1 p2, b d' = judge (read_to p1 y) topic q (if 0 <? q then mid else 0) r pl (holding c (read_to p2 y) d)) →
    ∃ p1 p2, returns b d' = judge_publish (read_to p1 y) topic q (if 0 <? q then mid else 0) r pl (holding c (read_to p2 y) d)).
  { intros b y d' (p1 & p2 & Eq). exists p1, p2. rewrite <-judge_eq. unfold returns, bind. by rewrite Eq. }
  apply Hbody. rewrite get_eq. cbv zeta. rewrite F1, F2, (proj2 (Z.eqb_neq q 3)) by lia. unfold publish_body in Hx.
  edestruct (read_eq (B := Z) _mosquitto_read_string (enc_string topic) topic) as (p1 & Hu1 & ->); [apply reads_string; [lia|done]|exact Hx|].
  rewrite bool_decide_eq_false_2 by done. unfold remap_in. rewrite Hbr. cbn [mlift]. unfold ebind at 1, bind at 1, ret at 1.
  rewrite Htc. change (negb (MOSQ_ERR_SUCCESS =? MOSQ_ERR_SUCCESS)) with false. cbv iota.
  destruct (0 <? q).
  - edestruct (read_eq (B := Z) _mosquitto_read_uint16 (enc_uint16 mid) mid) as (p2 & Hu2 & ->); [by apply reads_uint16|exact Hu1|].
    destruct (payload_eq topic q mid r pl _ _ (read_to p2 (read_to p1 x)) d Hmp Hlim Hu2) as (p3 & Eq). exists p2, p3. exact Eq.
  - destruct (payload_eq topic q 0 r pl _ _ (read_to p1 x) d Hmp Hlim Hu1) as (p3 & Eq). exists p1, p3. exact Eq.
Qed.
End publish.

(** ** Over the network *)

(** A packet that is sent is received, ready to be read from its start. *)
Lemma received fc now n i t p0 cmd body rest :
  cmd ≠ 0 → slen body < MAX_BODY → (fc = true → Z.land cmd 0xF0 = CONNECT) →
  forallb is_data i = true → stream i = wire cmd body ++ rest → (length i ≤ n)%nat →
  ∃ pk i' t', packet_fill_calls fc now n (ConnIn (_mosquitto_packet_cleanup p0) i t) = Some (None, ConnIn pk i' t') ∧
    read_upto [] body cmd pk ∧ stream i' = rest.
Proof.
  intros Hcmd Hlen Hfc Hd Hs Hn.
  destruct (packet_fill_calls_at p0 cmd body rest Hcmd Hlen fc now n (ConnIn (_mosquitto_packet_cleanup p0) i t) 0)
    as ([p i' t'] & E & Hp & Hrest); [done| |done|].
  - split; [done|]. split; [done|]. split; [done|lia].
  - cbn in Hp, Hrest. subst p. exists (complete_packet p0 cmd body), i', t'. split; [done|]. split; [|done].
    assert (Hb : 0 ≤ slen body) by (unfold slen; lia). unfold slen in *.
    split; [| |done].
    + split; [|done]. cbn. destruct (Z.ltb_spec 0 (Z.of_nat (length body))); [done|]. by destruct body.
    + split; [cbn; lia|]. split; [done|]. cbn. destruct (0 <? _); [by exists body|done].
Qed.

(** C11: the broker understands the client's CONNECT. The bytes that
    [_mosquitto_send_connect] of the library sends, however the network cuts
    them up, are put together by the broker's reader and read by its handler
    as what the client said: version, clean session, id, will with QoS and
    retain flag, user name, and the password if there is a user name; the
    keepalive and the version are those of the context afterwards. *)
Theorem connect_understood (E : env) rand now ka clean cl name version c x d :
  presentable (base cl) → connect_head (protocol (base cl)) = Some (name, version) → 0 ≤ ka < 65536 → outq_ok (base cl) →
  mount_point E x = None → clientid_prefixes E = None →
  ∃ rc cl' w, lib_send_connect now ka clean cl = Some (rc, cl') ∧ stream_out cl' = stream_out cl ++ w ∧
    ∀ i rest n p0 t bnow, forallb is_data i = true → stream i = w ++ rest → (length i ≤ n)%nat →
      ∃ pk i' t' p, packet_fill_calls true bnow n (ConnIn (_mosquitto_packet_cleanup p0) i t) = Some (None, ConnIn pk i' t') ∧
        stream i' = rest ∧
        parse_connect E rand c (holding c (read_to pk x) d) =
          Some (inr (introduced version clean (base cl)),
                holding c (read_to p (set_keepalive (λ _, ka) (set_protocol (λ _, protocol (base cl)) x))) d).
Proof.
  intros Hp Hh Hka Ho Hmp Hpre. pose proof (pr_strings _ Hp) as Hs.
  destruct (wp_inv _ _ _ (lib_send_connect_emits now ka clean cl name version Hs Hh Ho)) as (rc & cl' & E1 & _ & _ & Hst).
  exists rc, cl', (wire CONNECT (connect_body name version ka clean (base cl))). split; [done|]. split; [done|].
  intros i rest n p0 t bnow Hd Hst' Hn.
  assert (Hlen : slen (connect_body name version ka clean (base cl)) < MAX_BODY).
  { destruct Hs as [(j & Hj & Hjl) Hu Hpw Hw]. rewrite (connect_body_length _ _ _ _ _ j Hj). unfold MAX_BODY.
    assert (slen name < 10) by (destruct (protocol (base cl)); cbn in Hh; try done; injection Hh as <- _; by vm_compute).
    destruct (will (base cl)) as [wl|]; [destruct (Hw wl eq_refl)|]; destruct (username (base cl)), (password (base cl)); cbn in *; lia. }
  destruct (received true bnow n i t p0 CONNECT (connect_body name version ka clean (base cl)) rest) as (pk & i' & t' & E2 & Hpk & Hrest); [done|exact Hlen|done|done|done|done|].
  pose proof (parse_connect_reads E rand c name version ka clean (base cl) (read_to pk x) Hp Hh Hka Hmp Hpre [] [] CONNECT d) as Hparse.
  destruct (wp_inv _ _ _ (Hparse ltac:(by rewrite app_nil_r) eq_refl)) as (r & d' & E3 & -> & p & _ & ->).
  exists pk, i', t', p. by split_and!.
Qed.

(** C12: the broker understands the client's PUBLISH. The bytes that
    [_mosquitto_send_publish] of the library sends over a connection, however
    the network cuts them up, are read by the broker's handler as the message:
    what it does is what it does with this topic, QoS, message id, retain flag
    and payload, by the decision of the access control. *)
Theorem publish_understood (E : env) `{Access} now mid topic pl q r dup cl c x d :
  outq_ok (base cl) → is_Some (sock (base cl)) → 0 ≤ q ≤ 2 → 0 ≤ mid < 65536 → topic ≠ [] → 0 ∉ topic →
  mosquitto_pub_topic_check topic = MOSQ_ERR_SUCCESS → slen (publish_body mid topic pl q) < MAX_BODY →
  c_bridge x = None → mount_point E x = None → message_size_limit E = 0 →
  ∃ rc cl' w, lib_send_publish now mid topic pl q r dup cl = Some (rc, cl') ∧ stream_out cl' = stream_out cl ++ w ∧
    ∀ i rest n p0 t bnow, forallb is_data i = true → stream i = w ++ rest → (length i ≤ n)%nat →
      ∃ pk i' t' p1 p2, packet_fill_calls false bnow n (ConnIn (_mosquitto_packet_cleanup p0) i t) = Some (None, ConnIn pk i' t') ∧
        stream i' = rest ∧
        mqtt3_handle_publish E c (holding c (read_to pk x) d) =
          judge_publish E c (read_to p1 x) topic q (if 0 <? q then mid else 0) r pl (holding c (read_to p2 x) d).
Proof.
  intros Ho [s Hsock] Hq Hmid Hne H0 Htc Hb Hbr Hmp Hlim. pose proof (pub_topic_scan_short topic 0 Htc).
  destruct (wp_inv _ _ _ (lib_send_real_publish_emits now mid topic pl q r dup ltac:(lia) Hb cl Ho)) as (rc & cl' & E1 & _ & _ & Hst).
  exists rc, cl', (wire (publish_command q r dup) (publish_body mid topic pl q)).
  split; [unfold lib_send_publish, bind, mget; by rewrite Hsock|]. split; [done|]. intros i rest n p0 t bnow Hd Hst' Hn.
  assert (Hcmd : publish_command q r dup ≠ 0) by (assert (q = 0 ∨ q = 1 ∨ q = 2) as [->|[->| ->]] by lia; by destruct r, dup).
  destruct (received false bnow n i t p0 _ (publish_body mid topic pl q) rest Hcmd Hb) as (pk & i' & t' & E2 & Hpk & Hrest); [done..|].
  destruct (handle_publish_eq E c mid topic pl q r dup (read_to pk x) d) as (p1 & p2 & Eq); try done.
  exists pk, i', t', p1, p2. by split_and!.
Qed.

(** A client with a will and a login, and a connection of the broker. *)
Definition speaking_client : client :=
  set_base (λ b, set_sock (λ _, Some 5) (set_username (λ _, Some (str "bob")) (set_password (λ _, Some (str "pw"))
    (set_will (λ _, Some (Message (str "w") [0; 1] 1 true)) b)))) (mosquitto_new 0 (str "c1") true false).

Lemma speaking_presentable : presentable (base speaking_client).
Proof.
  split.
  - split; [exists (str "c1"); by vm_compute|by vm_compute|by vm_compute|]. intros w [= <-]. by vm_compute.
  - intros i [= <-]. split; [done|by_compute].
  - by_compute.
  - by_compute.
  - unfold acceptable_will. cbn. split_and!; try done; by_compute.
Qed.

Lemma connect_understood_witness :
  ∃ rc cl' w, lib_send_connect 0 60 true speaking_client = Some (rc, cl') ∧ stream_out cl' = w ∧
    ∀ i rest n p0 t bnow, forallb is_data i = true → stream i = w ++ rest → (length i ≤ n)%nat →
      ∃ pk i' t' p, packet_fill_calls true bnow n (ConnIn (_mosquitto_packet_cleanup p0) i t) = Some (None, ConnIn pk i' t') ∧
        stream i' = rest ∧
        parse_connect sample_env (λ _, 0) 1%positive (holding 1%positive (read_to pk idle_context) (mqtt3_db_open 1).2) =
          Some (inr (ConnectInfo 3 true (str "c1") (Some (Message (str "w") [0; 1] 1 true)) (Some (str "bob")) (Some (str "pw"))),
                holding 1%positive (read_to p (set_keepalive (λ _, 60) (set_protocol (λ _, mosq_p_mqtt31) idle_context))) (mqtt3_db_open 1).2).
Proof.
  apply (connect_understood sample_env (λ _, 0) 0 60 true speaking_client (str "MQIsdp") 3 1%positive idle_context (mqtt3_db_open 1).2);
    [apply speaking_presentable|done|lia|by vm_compute|done|done].
Defined.

Lemma publish_understood_witness :
  ∃ rc cl' w, lib_send_publish 0 7 (str "a/b") [1; 2] 1 true false speaking_client = Some (rc, cl') ∧ stream_out cl' = w ∧
    ∀ i rest n p0 t bnow, forallb is_data i = true → stream i = w ++ rest → (length i ≤ n)%nat →
      ∃ pk i' t' p1 p2, packet_fill_calls false bnow n (ConnIn (_mosquitto_packet_cleanup p0) i t) = Some (None, ConnIn pk i' t') ∧
        stream i' = rest ∧
        mqtt3_handle_publish sample_env (H := open_access) 1%positive (holding 1%positive (read_to pk idle_context) (mqtt3_db_open 1).2) =
          judge_publish sample_env (H := open_access) 1%positive (read_to p1 idle_context) (str "a/b") 1 7 true [1; 2]
            (holding 1%positive (read_to p2 idle_context) (mqtt3_db_open 1).2).
Proof.
  apply (publish_understood sample_env (H := open_access) 0 7 (str "a/b") [1; 2] 1 true false speaking_client 1%positive idle_context (mqtt3_db_open 1).2);
    [by vm_compute|by eexists|lia|lia|done|by_compute|by vm_compute|by vm_compute|done|done|done].
Defined.
