(* ===== verification/Passwd.v ===== *)
(** * The password tool (src/mosquitto_passwd.c)

    The tool that writes the file from which the broker reads its users
    (Acl.v). A file is the list of its bytes. OpenSSL is a parameter: random
    bytes, the base64 filter and SHA-512. The system calls on files succeed; the backup
    copy, which is removed again, is omitted. *)

From stdpp Require Import base list numbers strings option sets gmap.
From Stdlib Require Import ZArith Lia.
From S2P Require Import Prelude Topic Packet State Store Send Messages Db Acl.
Local Open Scope Z_scope.
Local Open Scope broker_scope.

Definition MAX_BUFFER_LEN : nat := 1024.

(** What was written to the temporary file, and how many salts were drawn. *)
Record out_file := OutFile { out_bytes : bytes; draws : nat }.
Definition emit (bs : bytes) (o : out_file) : out_file := OutFile (out_bytes o ++ bs) (draws o).

Section passwd.
(** [RAND_bytes(salt, SALT_LEN)], call by call; [None]: not enough entropy. *)
Context (rand_bytes : nat → option bytes).
(** What a memory BIO holds after [BIO_write] through a base64 filter without
    line ends and [BIO_flush]; [None]: the flush fails. *)
Context (bio_base64 : bytes → option bytes).
(** The digest "sha512", if OpenSSL has it. *)
Context (sha512 : option (bytes → bytes)).

(** The code, and the buffer that [*encoded] points to. *)
Definition base64_encode (input : bytes) : Z * option bytes :=
  match bio_base64 input with
  | None => (1, None)
  | Some data => (0, Some (data ++ [0]))
  end.

(** What [%s] prints of such a buffer. *)
Definition printed (encoded : option bytes) : bytes := cstr (default [] encoded).

Definition output_new_password (username password : bytes) (o : out_file) : Z * out_file :=
  let n := draws o in
  let o := OutFile (out_bytes o) (S n) in
  match rand_bytes n with
  | None => (1, o)
  | Some salt =>
      let '(rc, salt64) := base64_encode salt in
      if negb (rc =? 0) then (1, o)
      else
        match sha512 with
        | None => (1, o)
        | Some h =>
            let '(rc, hash64) := base64_encode (h (password ++ salt)) in
            if negb (rc =? 0) then (1, o)
            else (0, emit (username ++ str ":$6$" ++ printed salt64 ++ str "$" ++ printed hash64 ++ [10]) o)
        end
  end.

(** The loops over the lines; [None] is [strcmp] of a NULL token, which a line
    of nothing but colons has. *)
Fixpoint delete_lines (username : bytes) (lines : list bytes) (o : out_file) : option out_file :=
  match lines with
  | [] => Some o
  | buf :: lines' =>
      '(token, _) ← strtok_r [58] buf;
      delete_lines username lines' (if bool_decide (username = token) then o else emit buf o)
  end.
Definition delete_pwuser (f : bytes) (username : bytes) (o : out_file) : option (Z * out_file) :=
  o ← delete_lines username (file_lines MAX_BUFFER_LEN f) o; Some (0, o).

Fixpoint update_lines (username password : bytes) (lines : list bytes) (rc : Z) (found : bool) (o : out_file) :
    option (Z * bool * out_file) :=
  match lines with
  | [] => Some (rc, found, o)
  | buf :: lines' =>
      '(token, _) ← strtok_r [58] buf;
      if bool_decide (username = token) then
        let '(rc, o) := output_new_password username password o in
        update_lines username password lines' rc true o
      else update_lines username password lines' rc found (emit buf o)
  end.
Definition update_pwuser (f : bytes) (username password : bytes) (o : out_file) : option (Z * out_file) :=
  '(rc, found, o) ← update_lines username password (file_lines MAX_BUFFER_LEN f) 1 false o;
  if (found : bool) then Some (rc, o) else Some (output_new_password username password o).

(** [fprintf] of a NULL user name is undefined, too. *)
Fixpoint hash_lines (lines : list bytes) (o : out_file) : option (Z * out_file) :=
  match lines with
  | [] => Some (0, o)
  | buf :: lines' =>
      '(username, rest) ← strtok_r [58] buf;
      match strtok_r [58] rest with
      | Some (password, _) =>
          let '(rc, o) := output_new_password username (chomp password) o in
          if rc =? 0 then hash_lines lines' o else Some (rc, o)
      | None => hash_lines lines' (emit username o)
      end
  end.
Definition update_file (f : bytes) (o : out_file) : option (Z * out_file) :=
  hash_lines (file_lines MAX_BUFFER_LEN f) o.

(** [main] after its arguments are parsed. A password that is asked for may be
    missing ([None]: [get_password] fails). *)
Inductive tool_command :=
| ToolCreate (username : bytes) (password : option bytes)
| ToolDelete (username : bytes)
| ToolUpdate (username : bytes) (password : option bytes)
| ToolHash.

(** The code and what the file is afterwards. *)
Definition passwd_main (cmd : tool_command) (file : option bytes) : option (Z * option bytes) :=
  let o := OutFile [] 0 in
  match cmd with
  | ToolCreate username None => Some (1, file)
  | ToolCreate username (Some password) =>
      let '(rc, o) := output_new_password username password o in Some (rc, Some (out_bytes o))
  | _ =>
      match file with
      | None => Some (1, file)
      | Some f =>
          '(rc, o) ← match cmd with
                     | ToolDelete username => delete_pwuser f username o
                     | ToolHash => update_file f o
                     | ToolUpdate username (Some password) => update_pwuser f username password o
                     | _ => Some (1, o)
                     end;
          if negb (rc =? 0) then Some (rc, file) else Some (0, Some (out_bytes o))
      end
  end.
End passwd.

(** ** Files of entries *)

(** A line [name:field]. *)
Definition pw_line (e : bytes * bytes) : bytes := e.1 ++ 58 :: e.2 ++ [10].
Definition pw_file (l : list (bytes * bytes)) : bytes := concat (pw_line <$> l).

(** A string that can be part of a line. *)
Definition plain (s : bytes) : Prop := s ≠ [] ∧ Forall (λ c, c ∉ [0; 10; 13; 58]) s.

(** An entry that the broker reads whole: its buffer has 256 bytes. *)
Record pw_ok (e : bytes * bytes) : Prop := {
  po_name : plain e.1;
  po_field : plain e.2;
  po_length : (length e.1 + length e.2 + 3 ≤ 256)%nat;
}.

Lemma plain_not s c : plain s → c ∈ [0; 10; 13; 58] → c ∉ s.
Proof. intros [_ Hs] Hc Hin. rewrite Forall_forall in Hs. by apply (Hs c Hin). Qed.

Lemma plain_last s c : plain s → last s = Some c → is_eol c = false.
Proof.
  intros Hs [l ->]%last_Some. unfold is_eol.
  pose proof (plain_not _ 10 Hs ltac:(set_solver)). pose proof (plain_not _ 13 Hs ltac:(set_solver)).
  apply orb_false_iff. split; apply Z.eqb_neq; set_solver.
Qed.

Lemma pw_lines size l : (256 ≤ size)%nat → Forall pw_ok l → file_lines size (pw_file l) = pw_line <$> l.
Proof.
  intros Hsz Hl. induction Hl as [|[n f] l [Hn Hf Hlen] _ IH]; [done|]. cbn [fst snd] in *.
  unfold pw_file in *. rewrite fmap_cons. cbn [concat]. unfold pw_line at 1. cbn [fst snd].
  replace ((n ++ 58 :: f ++ [10]) ++ concat (pw_line <$> l)) with ((n ++ 58 :: f) ++ 10 :: concat (pw_line <$> l))
    by (rewrite <-!(assoc_L (++)); cbn; by rewrite <-(assoc_L (++))).
  assert (Hnot : ∀ c, c ∈ [0; 10; 13] → c ∉ n ++ 58 :: f).
  { intros c Hc. rewrite elem_of_app, elem_of_cons. intros [?|[->|?]]; [|set_solver|].
    - apply (plain_not n c Hn); [set_solver|done].
    - apply (plain_not f c Hf); [set_solver|done]. }
  rewrite file_lines_cons; [|rewrite length_app; cbn; lia|apply Hnot; set_solver|apply Hnot; set_solver]. rewrite IH.
  unfold pw_line at 2. cbn [fst snd]. by rewrite <-(assoc_L (++)).
Qed.

(** Tokens. *)
Lemma strtok_delim c w rest : w ≠ [] → c ∉ w → strtok_r [c] (w ++ c :: rest) = Some (w, rest).
Proof.
  intros Hw Hs. unfold strtok_r.
  assert (Hf : Forall (λ x, not_in_set [c] x = true) w).
  { apply Forall_forall. intros x Hx. unfold not_in_set, in_set. rewrite bool_decide_eq_false_2; [done|]. set_solver. }
  assert (Hc : not_in_set [c] c = false) by (unfold not_in_set, in_set; rewrite bool_decide_eq_true_2; [done|set_solver]).
  rewrite skip_while_head.
  - destruct (take_skip_app (not_in_set [c]) w c rest Hf Hc) as [Ht Hk]. destruct (w ++ c :: rest) as [|x t]; [done|]. by rewrite Ht, Hk.
  - destruct w as [|x w]; [done|]. inversion Hf. intros c' [= <-]. by apply negb_true_iff.
Qed.

Lemma strtok_end c w : w ≠ [] → c ∉ w → strtok_r [c] w = Some (w, []).
Proof.
  intros Hw Hs. unfold strtok_r.
  assert (Hf : Forall (λ x, not_in_set [c] x = true) w).
  { apply Forall_forall. intros x Hx. unfold not_in_set, in_set. rewrite bool_decide_eq_false_2; [done|]. set_solver. }
  rewrite skip_while_head.
  - destruct (take_skip_all (not_in_set [c]) w Hf) as [Ht Hk]. destruct w as [|x t]; [done|]. by rewrite Ht, Hk.
  - destruct w as [|x w]; [done|]. inversion Hf. intros c' [= <-]. by apply negb_true_iff.
Qed.

Lemma line_token e : pw_ok e → strtok_r [58] (pw_line e) = Some (e.1, e.2 ++ [10]).
Proof. intros [Hn _ _]. apply strtok_delim; [apply Hn|apply (plain_not _ _ Hn); set_solver]. Qed.

(** What the broker reads. *)
Definition raw (e : bytes * bytes) : unpwd := Unpwd e.1 (Some e.2) [].

Lemma parse_line e : pw_ok e → parse_pw_line (pw_line e) = Some (Some (raw e)).
Proof.
  intros He. pose proof He as [Hn Hf _]. unfold parse_pw_line. rewrite line_token by done.
  assert (Hs : strip_name (rev e.1) = Some e.1).
  { destruct (exists_last (proj1 Hn)) as (s & c & E). rewrite E, rev_app_distr. cbn.
    rewrite (plain_last e.1 c Hn) by (by rewrite E, last_snoc). by rewrite rev_involutive. }
  rewrite Hs. cbn [mbind option_bind]. rewrite strtok_end.
  - cbn [fmap option_fmap option_map compose fst]. rewrite chomp_newline; [done|apply Hf|]. intros c Hc. by apply (plain_last e.2).
  - by destruct e.2.
  - rewrite elem_of_app. intros [Hin|Hin]; [|set_solver]. apply (plain_not e.2 58 Hf); [set_solver|done].
Qed.

Lemma pwfile_entries l : Forall pw_ok l → _pwfile_parse (Some (pw_file l)) [] = Some (MOSQ_ERR_SUCCESS, raw <$> l).
Proof.
  intros Hl. unfold _pwfile_parse. rewrite pw_lines by (done || lia).
  assert (Hp : ∀ root, parse_pw_lines (pw_line <$> l) root = Some (root ++ (raw <$> l))).
  { induction Hl as [|e l He _ IH]; intros root; cbn; [by rewrite app_nil_r|]. rewrite parse_line by done. cbn. rewrite IH.
    by rewrite <-(assoc_L (++)). }
  rewrite Hp. done.
Qed.

(** ** What the broker decides *)

Section decide.
Context (base64_decode : bytes → option bytes).

Definition decoded (e : bytes * bytes) : unpwd := (decode_entry base64_decode (raw e)).2.
Definition readable_entry (e : bytes * bytes) : Prop := (decode_entry base64_decode (raw e)).1 = MOSQ_ERR_SUCCESS.

Lemma decoded_name e : un_username (decoded e) = e.1.
Proof. unfold decoded, decode_entry. cbn. by repeat case_match. Qed.

Lemma decode_cons e l :
  decode_entries base64_decode (raw <$> e :: l) =
    if (decode_entry base64_decode (raw e)).1 =? MOSQ_ERR_SUCCESS
    then ((decode_entries base64_decode (raw <$> l)).1, decoded e :: (decode_entries base64_decode (raw <$> l)).2)
    else ((decode_entry base64_decode (raw e)).1, decoded e :: (raw <$> l)).
Proof.
  rewrite fmap_cons. cbn [decode_entries]. unfold decoded. destruct (decode_entry base64_decode (raw e)) as [rc u]. cbn [fst snd].
  by destruct (decode_entries base64_decode (raw <$> l)).
Qed.

Lemma decode_all l : Forall readable_entry l → decode_entries base64_decode (raw <$> l) = (MOSQ_ERR_SUCCESS, decoded <$> l).
Proof.
  induction 1 as [|e l He _ IH]; [done|]. rewrite decode_cons, He, IH. done.
Qed.

Lemma decode_all_inv l u : decode_entries base64_decode (raw <$> l) = (MOSQ_ERR_SUCCESS, u) → Forall readable_entry l.
Proof.
  revert u. induction l as [|e l IH]; intros u; [done|]. rewrite decode_cons.
  destruct (Z.eqb_spec (decode_entry base64_decode (raw e)).1 MOSQ_ERR_SUCCESS) as [He|Hne]; intros Heq.
  - constructor; [done|]. apply (IH (decode_entries base64_decode (raw <$> l)).2). injection Heq as E1 _. rewrite <-E1.
    apply surjective_pairing.
  - injection Heq as E1 _. by rewrite E1 in Hne.
Qed.

(** A broker that has just read the file. *)
Definition loaded_from (l : list (bytes * bytes)) (sec : security) : security := set_unpwd (λ _, decoded <$> l) sec.

Lemma file_parse l sec :
  Forall pw_ok l → Forall readable_entry l → sec_unpwd sec = [] → password_file sec = Some (Some (pw_file l)) →
  _unpwd_file_parse base64_decode sec = Some (MOSQ_ERR_SUCCESS, loaded_from l sec).
Proof.
  intros Hl Hr He Hf. unfold _unpwd_file_parse. rewrite Hf, He, pwfile_entries by done. cbn [mbind option_bind].
  rewrite decode_all by done. done.
Qed.

Definition entry_for (name : bytes) (l : list (bytes * bytes)) : option (bytes * bytes) :=
  find (λ e, bool_decide (e.1 = name)) l.

Lemma find_decoded name l :
  find (λ u, bool_decide (un_username u = name)) (decoded <$> l) = decoded <$> entry_for name l.
Proof.
  unfold entry_for. induction l as [|e l IH]; [done|]. cbn. rewrite decoded_name. by destruct (bool_decide (e.1 = name)).
Qed.

(** The decision of the broker by the entries of the file. *)
Lemma check_loaded sha512 l sec name password :
  mosquitto_unpwd_check_default sha512 (loaded_from l sec) (Some name) password =
    Some (match l with [] => MOSQ_ERR_SUCCESS | _ => entry_spec sha512 password (decoded <$> entry_for name l) end).
Proof.
  rewrite unpwd_default_spec. unfold unpwd_spec, loaded_from. cbn. rewrite find_decoded. by destruct l.
Qed.
End decide.

(** The field that the tool writes. *)
Definition hash_field (salt64 hash64 : bytes) : bytes := str "$6$" ++ salt64 ++ 36 :: hash64.

Lemma decode_hash_field base64_decode name salt64 hash64 salt hash :
  salt64 ≠ [] → 36 ∉ salt64 → hash64 ≠ [] → 36 ∉ hash64 → base64_decode salt64 = Some salt → base64_decode hash64 = Some hash →
  decode_entry base64_decode (raw (name, hash_field salt64 hash64)) = (MOSQ_ERR_SUCCESS, Unpwd name (Some hash) salt).
Proof.
  intros Hs Hs36 Hh Hh36 Ds Dh. unfold decode_entry, raw, hash_field. cbn [un_password un_username fst snd].
  change (strtok_r [c_dollar] (str "$6$" ++ salt64 ++ 36 :: hash64)) with (strtok_r [36] (str "6" ++ 36 :: salt64 ++ 36 :: hash64)).
  rewrite strtok_delim by (done || by_compute). rewrite bool_decide_eq_true_2 by done.
  unfold c_dollar. rewrite strtok_delim by done. rewrite Ds, strtok_end by done. by rewrite Dh.
Qed.

(** ** What the tool does to a file of entries *)

(** What is relied on of OpenSSL: there is entropy, a digest is a string of
    bytes, and base64 can be decoded and uses letters, digits, [+], [/] and
    [=] alone. *)
Record crypto_ok (rand_bytes : nat → option bytes) (bio_base64 base64_decode : bytes → option bytes) (h : bytes → bytes) : Prop := {
  co_salt k : ∃ salt, rand_bytes k = Some salt ∧ salt ≠ [] ∧ Forall is_byte salt;
  co_digest x : h x ≠ [] ∧ Forall is_byte (h x);
  co_base64 x : x ≠ [] → Forall is_byte x →
    ∃ s, bio_base64 x = Some s ∧ base64_decode s = Some x ∧ s ≠ [] ∧ Forall (λ c, c ∉ [0; 10; 13; 58; 36]) s;
}.

Lemma cstr_terminated s : 0 ∉ s → cstr (s ++ [0]) = s.
Proof.
  induction s as [|c s IH]; [done|]. rewrite not_elem_of_cons. intros [Hc Hs]. cbn [cstr app]. rewrite decide_False by congruence.
  by rewrite IH.
Qed.

Section tool.
Context (rand_bytes : nat → option bytes) (bio_base64 base64_decode : bytes → option bytes) (h : bytes → bytes).
Context (Hcrypto : crypto_ok rand_bytes bio_base64 base64_decode h).
Context (user : bytes) (Huser : plain user).
(** The line of the user is read whole by the broker. *)
Context (Hfits : ∀ k x salt s1 s2, rand_bytes k = Some salt → bio_base64 salt = Some s1 → bio_base64 (h x) = Some s2 →
  (length user + length (hash_field s1 s2) + 3 ≤ 256)%nat).
Context (pw : bytes).

(** An entry for the user with the digest of the password. *)
Definition fresh_entry (e : bytes * bytes) : Prop :=
  e.1 = user ∧ pw_ok e ∧
  ∃ salt, decode_entry base64_decode (raw e) = (MOSQ_ERR_SUCCESS, Unpwd user (Some (h (pw ++ salt))) salt).

Lemma output_ok o :
  ∃ e, output_new_password rand_bytes bio_base64 (Some h) user pw o = (0, OutFile (out_bytes o ++ pw_line e) (S (draws o))) ∧ fresh_entry e.
Proof using Hcrypto Hfits Huser.
  unfold output_new_password. cbv zeta. destruct (co_salt _ _ _ _ Hcrypto (draws o)) as (salt & Es & Hs & Hsb). rewrite Es.
  destruct (co_base64 _ _ _ _ Hcrypto salt Hs Hsb) as (s1 & E1 & D1 & N1 & F1).
  destruct (co_digest _ _ _ _ Hcrypto (pw ++ salt)) as [Hh Hhb].
  destruct (co_base64 _ _ _ _ Hcrypto _ Hh Hhb) as (s2 & E2 & D2 & N2 & F2). unfold base64_encode. rewrite E1, E2. cbn [Z.eqb negb].
  assert (Hnot : ∀ s c, Forall (λ c, c ∉ [0; 10; 13; 58; 36]) s → c ∈ [0; 10; 13; 58; 36] → c ∉ s).
  { intros s c Hf Hc Hin. rewrite Forall_forall in Hf. by apply (Hf c Hin). }
  exists (user, hash_field s1 s2). split; [|split; [done|split]].
  - unfold printed. simpl (default _ _). rewrite (cstr_terminated s1), (cstr_terminated s2) by (eapply Hnot; [done|set_solver]).
    unfold emit, pw_line, hash_field. cbn [fst snd out_bytes draws]. do 3 f_equal. cbn. by rewrite <-!(assoc_L (++)).
  - split; cbn [fst snd]; [done| |by eapply Hfits]. split; [done|]. unfold hash_field.
    assert (Hw : ∀ s, Forall (λ c, c ∉ [0; 10; 13; 58; 36]) s → Forall (λ c, c ∉ [0; 10; 13; 58]) s).
    { intros s Hf. eapply Forall_impl; [exact Hf|]. set_solver. }
    apply Forall_app. split; [repeat constructor; set_solver|]. apply Forall_app. split; [by apply Hw|]. constructor; [set_solver|by apply Hw].
  - exists salt. apply decode_hash_field; try done; eapply Hnot; try done; set_solver.
Qed.

(** The entries of the user are replaced. *)
Definition replaces (e e' : bytes * bytes) : Prop := if decide (e.1 = user) then fresh_entry e' else e' = e.
Definition has_user (l : list (bytes * bytes)) : bool := existsb (λ e, bool_decide (e.1 = user)) l.

Lemma update_lines_ok l rc found o :
  Forall pw_ok l →
  ∃ l' n, update_lines rand_bytes bio_base64 (Some h) user pw (pw_line <$> l) rc found o =
      Some (if has_user l then 0 else rc, found || has_user l, OutFile (out_bytes o ++ pw_file l') n) ∧
    Forall2 replaces l l'.
Proof using Hcrypto Hfits Huser.
  intros Hl. revert rc found o. induction Hl as [|e l He _ IH]; intros rc found o.
  { exists [], (draws o). cbn. rewrite orb_false_r, app_nil_r. by destruct o. }
  rewrite fmap_cons. cbn [update_lines has_user existsb]. rewrite line_token by done. cbn [mbind option_bind].
  destruct (decide (e.1 = user)) as [Heq|Hne].
  - rewrite !bool_decide_eq_true_2 by done. destruct (output_ok o) as (e' & -> & Hf).
    destruct (IH 0 true (OutFile (out_bytes o ++ pw_line e') (S (draws o)))) as (l' & n & -> & Hr). exists (e' :: l'), n. split.
    + rewrite orb_true_r. cbn [out_bytes orb]. unfold pw_file. cbn. rewrite <-(assoc_L (++)). by destruct (has_user l).
    + constructor; [unfold replaces; by rewrite decide_True|done].
  - rewrite !bool_decide_eq_false_2 by congruence. destruct (IH rc found (emit (pw_line e) o)) as (l' & n & -> & Hr). exists (e :: l'), n. split.
    + unfold emit, pw_file. cbn. by rewrite <-(assoc_L (++)).
    + constructor; [unfold replaces; by rewrite decide_False|done].
Qed.

Lemma replaces_readable l l' :
  Forall2 replaces l l' → Forall pw_ok l → Forall (readable_entry base64_decode) l → Forall pw_ok l' ∧ Forall (readable_entry base64_decode) l'.
Proof.
  induction 1 as [|e e' l l' He _ IH]; [done|]. intros [H1 H2]%Forall_cons [H3 H4]%Forall_cons. destruct (IH H2 H4).
  unfold replaces in He. destruct (decide (e.1 = user)); [|by subst; auto].
  destruct He as (_ & Hok & salt & Hd). split; constructor; try done. unfold readable_entry. by rewrite Hd.
Qed.

Lemma replaces_other v l l' : v ≠ user → Forall2 replaces l l' → entry_for v l' = entry_for v l.
Proof.
  intros Hv. unfold entry_for. induction 1 as [|e e' l l' He _ IH]; [done|]. cbn. unfold replaces in He. destruct (decide (e.1 = user)) as [Hu|Hu].
  - destruct He as (Hn & _). rewrite Hn, Hu, !bool_decide_eq_false_2 by congruence. done.
  - subst e'. by rewrite IH.
Qed.

Lemma replaces_user l l' : has_user l = true → Forall2 replaces l l' → ∃ e, entry_for user l' = Some e ∧ fresh_entry e.
Proof.
  unfold entry_for. intros Hu. induction 1 as [|e e' l l' He _ IH]; [done|]. cbn in Hu |- *. unfold replaces in He.
  destruct (decide (e.1 = user)) as [Hn|Hn].
  - pose proof He as (Hn' & _). rewrite bool_decide_eq_true_2 by done. eauto.
  - subst e'. rewrite bool_decide_eq_false_2 in Hu |- * by done. by apply IH.
Qed.

Lemma replaces_none l l' : has_user l = false → Forall2 replaces l l' → l' = l.
Proof.
  intros Hu. induction 1 as [|e e' l l' He _ IH]; [done|]. cbn in Hu. apply orb_false_iff in Hu as [Hn%bool_decide_eq_false_1 Hu].
  unfold replaces in He. rewrite decide_False in He by done. by rewrite He, IH.
Qed.

(** The file after an update: the entries of the user are replaced; with none,
    one is appended. *)
Lemma update_main l :
  Forall pw_ok l →
  ∃ l', passwd_main rand_bytes bio_base64 (Some h) (ToolUpdate user (Some pw)) (Some (pw_file l)) = Some (0, Some (pw_file l')) ∧
    (has_user l = true ∧ Forall2 replaces l l' ∨ has_user l = false ∧ ∃ e, fresh_entry e ∧ l' = l ++ [e]).
Proof using Hcrypto Hfits Huser.
  intros Hl. unfold passwd_main, update_pwuser. rewrite pw_lines by (done || unfold MAX_BUFFER_LEN; lia).
  destruct (update_lines_ok l 1 false (OutFile [] 0) Hl) as (l' & n & -> & Hr). cbn [mbind option_bind orb out_bytes app].
  destruct (has_user l) eqn:Hu; [exists l'; auto|].
  rewrite (replaces_none l l' Hu Hr). destruct (output_ok (OutFile (pw_file l) n)) as (e & -> & Hf). exists (l ++ [e]). split.
  - cbn. unfold pw_file. by rewrite fmap_app, concat_app; cbn; rewrite app_nil_r.
  - right. eauto.
Qed.

Lemma fresh_readable e : fresh_entry e → pw_ok e ∧ readable_entry base64_decode e.
Proof. intros (_ & Hok & salt & Hd). split; [done|]. unfold readable_entry. by rewrite Hd. Qed.

Lemma entry_for_app v l e : entry_for v (l ++ [e]) = match entry_for v l with Some x => Some x | None => if bool_decide (e.1 = v) then Some e else None end.
Proof. unfold entry_for. induction l as [|x l IH]; [done|]. cbn. by destruct (bool_decide (x.1 = v)). Qed.

Lemma entry_for_none l : has_user l = false → entry_for user l = None.
Proof. unfold entry_for. induction l as [|x l IH]; [done|]. cbn. by destruct (bool_decide (x.1 = user)). Qed.

(** What the entries say after an update. *)
Lemma updated_entries l l' :
  Forall pw_ok l → Forall (readable_entry base64_decode) l →
  (has_user l = true ∧ Forall2 replaces l l' ∨ has_user l = false ∧ ∃ e, fresh_entry e ∧ l' = l ++ [e]) →
  Forall pw_ok l' ∧ Forall (readable_entry base64_decode) l' ∧ (∃ e, entry_for user l' = Some e ∧ fresh_entry e) ∧
  (∀ v, v ≠ user → entry_for v l' = entry_for v l).
Proof.
  intros Hl Hr [[Hu Hrep]|(Hu & e & He & ->)].
  - destruct (replaces_readable l l') as [H1 H2]; [done..|]. split_and!; [done..|by eapply replaces_user|].
    intros v Hv. by apply replaces_other.
  - destruct (fresh_readable e He) as [H1 H2]. pose proof He as (Hn & _). rewrite !Forall_app, !Forall_singleton. split_and!; [done..| |].
    + exists e. split; [|done]. by rewrite entry_for_app, entry_for_none, bool_decide_eq_true_2.
    + intros v Hv. rewrite entry_for_app, bool_decide_eq_false_2 by congruence. by destruct (entry_for v l).
Qed.

Definition without_user (l : list (bytes * bytes)) : list (bytes * bytes) := filter (λ e, e.1 ≠ user) l.

Lemma without_user_Forall (P : bytes * bytes → Prop) l : Forall P l → Forall P (without_user l).
Proof. rewrite !Forall_forall. intros H e [_ He]%list_elem_of_filter. by apply H. Qed.

Lemma delete_lines_ok l o :
  Forall pw_ok l → delete_lines user (pw_line <$> l) o = Some (OutFile (out_bytes o ++ pw_file (without_user l)) (draws o)).
Proof.
  intros Hl. revert o. induction Hl as [|e l He _ IH]; intros o; [cbn; rewrite app_nil_r; by destruct o|].
  rewrite fmap_cons. cbn [delete_lines]. rewrite line_token by done. cbn [mbind option_bind]. unfold without_user. rewrite filter_cons.
  destruct (decide (e.1 = user)) as [Hu|Hu].
  - rewrite bool_decide_eq_true_2, decide_False by (done || tauto). apply IH.
  - rewrite bool_decide_eq_false_2, decide_True by (done || congruence). rewrite IH. unfold emit, pw_file. cbn. by rewrite <-(assoc_L (++)).
Qed.

Lemma delete_main l :
  Forall pw_ok l →
  passwd_main rand_bytes bio_base64 (Some h) (ToolDelete user) (Some (pw_file l)) = Some (0, Some (pw_file (without_user l))).
Proof.
  intros Hl. unfold passwd_main, delete_pwuser. rewrite pw_lines by (done || unfold MAX_BUFFER_LEN; lia).
  by rewrite delete_lines_ok.
Qed.

Lemma without_entry l v : entry_for v (without_user l) = if decide (v = user) then None else entry_for v l.
Proof.
  unfold entry_for, without_user. induction l as [|e l IH]; [by destruct (decide (v = user))|]. rewrite filter_cons.
  destruct (decide (e.1 = user)) as [Hu|Hu].
  - rewrite decide_False by tauto. rewrite IH. destruct (decide (v = user)); [done|]. cbn. by rewrite bool_decide_eq_false_2 by congruence.
  - rewrite decide_True by done. cbn. rewrite IH. destruct (decide (v = user)); [|done].
    by rewrite bool_decide_eq_false_2 by congruence.
Qed.
End tool.

(** ** The tool and the broker *)

(** A broker that starts with this password file. *)
Definition starts_with (f : bytes) (sec : security) : Prop := sec_unpwd sec = [] ∧ password_file sec = Some (Some f).

(** Its decisions are the file's. *)
Lemma starts_loaded base64_decode l sec sec1 :
  Forall pw_ok l → starts_with (pw_file l) sec → _unpwd_file_parse base64_decode sec = Some (MOSQ_ERR_SUCCESS, sec1) →
  Forall (readable_entry base64_decode) l ∧ sec1 = loaded_from base64_decode l sec.
Proof.
  intros Hl [He Hf] Hp. assert (Hr : Forall (readable_entry base64_decode) l).
  { unfold _unpwd_file_parse in Hp. rewrite Hf, He, pwfile_entries in Hp by done. cbn [mbind option_bind] in Hp.
    destruct (decode_entries base64_decode (raw <$> l)) as [rc u] eqn:E. cbn in Hp. injection Hp as -> _. by eapply decode_all_inv. }
  split; [done|]. rewrite (file_parse base64_decode l sec) in Hp by done. congruence.
Qed.

(** C34: the password tool and the broker agree. After [mosquitto_passwd] has
    set the password of a user in a file that the broker can read, the tool
    returns 0, and a broker that starts with the new file reads it without an
    error and accepts the user with the password; it refuses the user without
    a password, and accepts another password only if its digest with the
    stored salt is the same; about every other user it decides as before,
    provided the old file had an entry at all (without one everybody was
    accepted). *)
Theorem passwd_update_login rand_bytes bio_base64 base64_decode h user pw l sec sec1 :
  crypto_ok rand_bytes bio_base64 base64_decode h → plain user →
  (∀ k x salt s1 s2, rand_bytes k = Some salt → bio_base64 salt = Some s1 → bio_base64 (h x) = Some s2 →
     (length user + length (hash_field s1 s2) + 3 ≤ 256)%nat) →
  Forall pw_ok l → starts_with (pw_file l) sec → _unpwd_file_parse base64_decode sec = Some (MOSQ_ERR_SUCCESS, sec1) →
  ∃ f', passwd_main rand_bytes bio_base64 (Some h) (ToolUpdate user (Some pw)) (Some (pw_file l)) = Some (0, Some f') ∧
    ∀ sec', starts_with f' sec' →
    ∃ sec2, _unpwd_file_parse base64_decode sec' = Some (MOSQ_ERR_SUCCESS, sec2) ∧
      mosquitto_unpwd_check_default (Some h) sec2 (Some user) (Some pw) = Some MOSQ_ERR_SUCCESS ∧
      mosquitto_unpwd_check_default (Some h) sec2 (Some user) None = Some MOSQ_ERR_AUTH ∧
      (∃ salt, ∀ pw', mosquitto_unpwd_check_default (Some h) sec2 (Some user) (Some pw') =
        Some (if bool_decide (h (pw' ++ salt) = h (pw ++ salt)) then MOSQ_ERR_SUCCESS else MOSQ_ERR_AUTH)) ∧
      ∀ v p, v ≠ user → l ≠ [] →
        mosquitto_unpwd_check_default (Some h) sec2 (Some v) p = mosquitto_unpwd_check_default (Some h) sec1 (Some v) p.
Proof.
  intros Hc Hu Hfits Hl Hsec Hp. destruct (starts_loaded _ _ _ _ Hl Hsec Hp) as [Hr ->].
  destruct (update_main rand_bytes bio_base64 base64_decode h Hc user Hu Hfits pw l Hl) as (l' & Hm & Hl').
  exists (pw_file l'). split; [done|]. intros sec' [He Hf].
  destruct (updated_entries base64_decode h user pw l l' Hl Hr Hl') as (Hok & Hr' & (e & Hent & Hn & _ & salt & Hd) & Hother).
  exists (loaded_from base64_decode l' sec'). split; [by apply file_parse|].
  assert (Hne : l' ≠ []) by (intros ->; done). assert (He' : decoded base64_decode e = Unpwd user (Some (h (pw ++ salt))) salt) by (unfold decoded; by rewrite Hd).
  rewrite !check_loaded. destruct l' as [|e0 l']; [done|]. rewrite Hent. cbn [fmap option_fmap option_map]. rewrite He'.
  split_and!; [cbn; by rewrite bool_decide_eq_true_2|done|exists salt; intros pw'; by rewrite check_loaded, Hent; cbn [fmap option_fmap option_map]; rewrite He'|].
  intros v p Hv Hne'. rewrite !check_loaded, Hother by done. by destruct l.
Qed.

(** C35: after [mosquitto_passwd -D] the tool returns 0 and a broker that
    starts with the new file reads it without an error. If an entry is left,
    it refuses the user, whatever the password, and decides about everyone
    else as before; if none is left, it accepts every user with every
    password. *)
Theorem passwd_delete_exact rand_bytes bio_base64 base64_decode h user l sec sec1 :
  Forall pw_ok l → starts_with (pw_file l) sec → _unpwd_file_parse base64_decode sec = Some (MOSQ_ERR_SUCCESS, sec1) →
  ∃ f', passwd_main rand_bytes bio_base64 (Some h) (ToolDelete user) (Some (pw_file l)) = Some (0, Some f') ∧
    ∀ sec', starts_with f' sec' →
    ∃ sec2, _unpwd_file_parse base64_decode sec' = Some (MOSQ_ERR_SUCCESS, sec2) ∧
      ((∃ e, e ∈ l ∧ e.1 ≠ user) →
         ∀ v p, mosquitto_unpwd_check_default (Some h) sec2 (Some v) p =
           if decide (v = user) then Some MOSQ_ERR_AUTH else mosquitto_unpwd_check_default (Some h) sec1 (Some v) p) ∧
      (Forall (λ e, e.1 = user) l → ∀ v p, mosquitto_unpwd_check_default (Some h) sec2 (Some v) p = Some MOSQ_ERR_SUCCESS).
Proof.
  intros Hl Hsec Hp. destruct (starts_loaded _ _ _ _ Hl Hsec Hp) as [Hr ->].
  exists (pw_file (without_user user l)). split; [by apply delete_main|]. intros sec' [He Hf].
  exists (loaded_from base64_decode (without_user user l) sec'). split; [|split].
  - apply file_parse; try done; by apply without_user_Forall.
  - intros (e & Hin & Hne) v p. rewrite !check_loaded, without_entry.
    assert (Hin' : e ∈ without_user user l) by (by apply list_elem_of_filter).
    destruct (without_user user l) as [|e' l']; [by apply not_elem_of_nil in Hin'|]. destruct (decide (v = user)); [done|].
    destruct l; [by apply not_elem_of_nil in Hin|done].
  - intros Hall v p. rewrite check_loaded. assert (without_user user l = []) as ->; [|done].
    unfold without_user. clear -Hall. induction Hall as [|e l He _ IH]; [done|]. rewrite filter_cons, decide_False by tauto. done.
Qed.

(** [mosquitto_passwd -U] of a file of plain passwords: every user's first
    password is accepted afterwards. *)
Section hash.
Context (rand_bytes : nat → option bytes) (bio_base64 base64_decode : bytes → option bytes) (h : bytes → bytes).
Context (Hcrypto : crypto_ok rand_bytes bio_base64 base64_decode h).

Definition line_fits (user : bytes) : Prop :=
  ∀ k x salt s1 s2, rand_bytes k = Some salt → bio_base64 salt = Some s1 → bio_base64 (h x) = Some s2 →
  (length user + length (hash_field s1 s2) + 3 ≤ 256)%nat.
Definition hashes (e e' : bytes * bytes) : Prop := fresh_entry base64_decode h e.1 e.2 e'.

Lemma hash_lines_ok l o :
  Forall pw_ok l → Forall (λ e, line_fits e.1) l →
  ∃ l' n, hash_lines rand_bytes bio_base64 (Some h) (pw_line <$> l) o = Some (0, OutFile (out_bytes o ++ pw_file l') n) ∧
    Forall2 hashes l l'.
Proof using Hcrypto.
  intros Hl. revert o. induction Hl as [|e l He _ IH]; intros o Hfits.
  { exists [], (draws o). cbn. rewrite app_nil_r. by destruct o. }
  apply Forall_cons in Hfits as [Hfit Hfits]. pose proof He as [Hn Hf _].
  rewrite fmap_cons. cbn [hash_lines]. rewrite line_token by done. cbn [mbind option_bind]. rewrite strtok_end.
  - rewrite chomp_newline; [|apply Hf|intros c Hc; by apply (plain_last e.2)].
    destruct (output_ok rand_bytes bio_base64 base64_decode h Hcrypto e.1 Hn Hfit e.2 o) as (e' & -> & Hfr). cbn [Z.eqb].
    destruct (IH (OutFile (out_bytes o ++ pw_line e') (S (draws o))) Hfits) as (l' & n & -> & Hh). exists (e' :: l'), n.
    split; [|by constructor]. unfold pw_file. cbn. by rewrite <-(assoc_L (++)).
  - by destruct e.2.
  - rewrite elem_of_app. intros [Hin|Hin]; [|set_solver]. apply (plain_not e.2 58 Hf); [set_solver|done].
Qed.

Lemma hashes_for v l l' e : Forall2 hashes l l' → entry_for v l = Some e → ∃ e', entry_for v l' = Some e' ∧ hashes e e'.
Proof.
  unfold entry_for. induction 1 as [|x x' l l' Hx _ IH]; [done|]. cbn. pose proof Hx as (Hn & _). rewrite Hn.
  destruct (bool_decide (x.1 = v)); [intros [= ->]; eauto|done].
Qed.

Lemma hashes_none v l l' : Forall2 hashes l l' → entry_for v l = None → entry_for v l' = None.
Proof.
  unfold entry_for. induction 1 as [|x x' l l' Hx _ IH]; [done|]. cbn. pose proof Hx as (Hn & _). rewrite Hn.
  by destruct (bool_decide (x.1 = v)).
Qed.
End hash.

(** C40: [mosquitto_passwd -U] of a file of names and plain passwords. If the
    new lines are short enough for the broker, the tool returns 0, and a broker
    that starts with the new file reads it without an error; it refuses the
    users that have no line, and of a user it accepts the password of its first
    line, and any other only if the digest with the stored salt is the same. *)
Theorem passwd_hash_exact rand_bytes bio_base64 base64_decode h l :
  crypto_ok rand_bytes bio_base64 base64_decode h →
  l ≠ [] → Forall pw_ok l → Forall (λ e, line_fits rand_bytes bio_base64 h e.1) l →
  ∃ f', passwd_main rand_bytes bio_base64 (Some h) ToolHash (Some (pw_file l)) = Some (0, Some f') ∧
    ∀ sec', starts_with f' sec' →
    ∃ sec2, _unpwd_file_parse base64_decode sec' = Some (MOSQ_ERR_SUCCESS, sec2) ∧
      ∀ v, ∃ salt, ∀ p, mosquitto_unpwd_check_default (Some h) sec2 (Some v) p =
        match entry_for v l, p with
        | Some e, Some pw => Some (if bool_decide (h (pw ++ salt) = h (e.2 ++ salt)) then MOSQ_ERR_SUCCESS else MOSQ_ERR_AUTH)
        | _, _ => Some MOSQ_ERR_AUTH
        end.
Proof.
  intros Hc Hne Hl Hfits. destruct (hash_lines_ok _ _ _ h Hc l (OutFile [] 0) Hl Hfits) as (l' & n & Hm & Hh).
  exists (pw_file l'). split.
  { unfold passwd_main, update_file. rewrite pw_lines by (done || unfold MAX_BUFFER_LEN; lia). by rewrite Hm. }
  intros sec' [He Hf]. exists (loaded_from base64_decode l' sec').
  assert (Hg : Forall (λ e, pw_ok e ∧ readable_entry base64_decode e) l').
  { eapply Forall2_Forall_r; [exact Hh|]. apply Forall_true. intros e e' Hx. by eapply fresh_readable. }
  apply Forall_and in Hg as [H1 H2]. split; [by apply file_parse|]. intros v. setoid_rewrite check_loaded.
  assert (Hl' : l' ≠ []) by (intros ->; by inversion Hh; subst).
  destruct (entry_for v l) as [e|] eqn:Hent.
  - destruct (hashes_for _ _ v l l' e Hh Hent) as (e' & -> & _ & _ & salt & Hd). exists salt. intros p.
    destruct l'; [done|]. cbn [fmap option_fmap option_map]. unfold decoded. rewrite Hd. by destruct p.
  - exists []. intros p. rewrite (hashes_none _ _ v l l' Hh Hent). by destruct l'.
Qed.

(** ** A concrete instance *)

(** A digest of one byte, a code of two letters per byte, a fixed salt. *)
Definition sum_digest (x : bytes) : bytes := [foldr Z.add 0 x mod 256].
Definition fixed_salt (k : nat) : option bytes := Some [1; 2; 3; 4; 5; 6; 7; 8; 9; 10; 11; 12].
Definition letters (x : bytes) : bytes := x ≫= λ b, [65 + b / 16; 65 + b mod 16].
Definition letters_encode (x : bytes) : option bytes := Some (letters x).
Fixpoint letters_decode (s : bytes) : option bytes :=
  match s with
  | a :: b :: s' => r ← letters_decode s'; Some ((a - 65) * 16 + (b - 65) :: r)
  | _ => Some []
  end.

Lemma letters_roundtrip x :
  Forall is_byte x → letters_decode (letters x) = Some x ∧ Forall (λ c, c ∉ [0; 10; 13; 58; 36]) (letters x).
Proof.
  induction 1 as [|b x Hb _ [IH1 IH2]]; [done|]. unfold is_byte in Hb.
  assert (Hd : 0 ≤ b / 16 < 16) by (split; [apply Z.div_pos|apply Z.div_lt_upper_bound]; lia).
  pose proof (Z.mod_pos_bound b 16). change (letters (b :: x)) with (65 + b / 16 :: 65 + b mod 16 :: letters x). split.
  - cbn [letters_decode]. rewrite IH1. cbn [mbind option_bind]. do 2 f_equal. pose proof (Z.div_mod b 16). lia.
  - repeat constructor; [rewrite !elem_of_cons, elem_of_nil; lia..|done].
Qed.

Lemma sum_crypto : crypto_ok fixed_salt letters_encode letters_decode sum_digest.
Proof.
  split.
  - intros k. eexists. split; [done|]. split; [done|]. unfold is_byte. repeat constructor; lia.
  - intros x. split; [done|]. constructor; [|done]. pose proof (Z.mod_pos_bound (foldr Z.add 0 x) 256). unfold is_byte. lia.
  - intros x Hx Hb. destruct (letters_roundtrip x Hb). exists (letters x). split_and!; try done. by destruct x.
Qed.

Definition w_users : list (bytes * bytes) :=
  [(str "alice", hash_field (letters [7; 9]) (letters (sum_digest (str "tea" ++ [7; 9]))))].
Definition w_start (f : bytes) : security := Security [] [] [] [] None false (Some (Some f)) None None.

Lemma plain_dec s : bool_decide (s ≠ [] ∧ Forall (λ c, c ∉ [0; 10; 13; 58]) s) = true → plain s.
Proof. apply bool_decide_eq_true_1. Qed.

Lemma w_users_ok : Forall pw_ok w_users.
Proof. apply Forall_singleton. split; [by apply plain_dec..|vm_compute; lia]. Qed.

Lemma passwd_update_login_witness :
  ∃ f', passwd_main fixed_salt letters_encode (Some sum_digest) (ToolUpdate (str "bob") (Some (str "milk"))) (Some (pw_file w_users)) =
      Some (0, Some f') ∧
    ∃ sec2, _unpwd_file_parse letters_decode (w_start f') = Some (MOSQ_ERR_SUCCESS, sec2) ∧
      mosquitto_unpwd_check_default (Some sum_digest) sec2 (Some (str "bob")) (Some (str "milk")) = Some MOSQ_ERR_SUCCESS ∧
      mosquitto_unpwd_check_default (Some sum_digest) sec2 (Some (str "alice")) (Some (str "tea")) = Some MOSQ_ERR_SUCCESS.
Proof.
  destruct (passwd_update_login fixed_salt letters_encode letters_decode sum_digest (str "bob") (str "milk") w_users
    (w_start (pw_file w_users)) (loaded_from letters_decode w_users (w_start (pw_file w_users)))) as (f' & Hm & Hs).
  - exact sum_crypto.
  - by apply plain_dec.
  - intros k x salt s1 s2 [= <-] [= <-] [= <-]. cbn. lia.
  - by apply w_users_ok.
  - done.
  - vm_compute. reflexivity.
  - exists f'. split; [exact Hm|]. destruct (Hs (w_start f')) as (sec2 & H1 & H2 & _ & _ & H3); [done|].
    exists sec2. split_and!; [exact H1|exact H2|]. rewrite H3; [vm_compute; reflexivity|done|done].
Defined.

(** A file whose last line has no line end: the new entry is appended to that
    line, the tool reports success, and the broker does not know the user. *)
Definition w_open_file : bytes := str "alice".
Example update_joins_lines :
  ∃ f', passwd_main fixed_salt letters_encode (Some sum_digest) (ToolUpdate (str "bob") (Some (str "milk"))) (Some w_open_file) =
      Some (0, Some f') ∧
    ∃ sec2, _unpwd_file_parse letters_decode (w_start f') = Some (MOSQ_ERR_SUCCESS, sec2) ∧
      mosquitto_unpwd_check_default (Some sum_digest) sec2 (Some (str "bob")) (Some (str "milk")) = Some MOSQ_ERR_AUTH.
Proof. by repeat (eexists; split; [vm_compute; reflexivity|]). Qed.

(** An entry without a colon is not recognised: a second entry is written, and
    the broker uses the first, which has no password. *)
Example update_misses_entry :
  ∃ f', passwd_main fixed_salt letters_encode (Some sum_digest) (ToolUpdate (str "bob") (Some (str "milk"))) (Some (str "bob" ++ [10])) =
      Some (0, Some f') ∧
    ∃ sec2, _unpwd_file_parse letters_decode (w_start f') = Some (MOSQ_ERR_SUCCESS, sec2) ∧
      mosquitto_unpwd_check_default (Some sum_digest) sec2 (Some (str "bob")) None = Some MOSQ_ERR_SUCCESS.
Proof. by repeat (eexists; split; [vm_compute; reflexivity|]). Qed.

(** A line of colons has no token. *)
Example update_null_token :
  passwd_main fixed_salt letters_encode (Some sum_digest) (ToolUpdate (str "bob") (Some (str "milk"))) (Some [58]) = None.
Proof. vm_compute. reflexivity. Qed.

Lemma passwd_delete_exact_witness :
  ∃ f', passwd_main fixed_salt letters_encode (Some sum_digest) (ToolDelete (str "alice")) (Some (pw_file w_users)) = Some (0, Some f') ∧
    ∃ sec2, _unpwd_file_parse letters_decode (w_start f') = Some (MOSQ_ERR_SUCCESS, sec2) ∧
      mosquitto_unpwd_check_default (Some sum_digest) sec2 (Some (str "eve")) None = Some MOSQ_ERR_SUCCESS.
Proof.
  destruct (passwd_delete_exact fixed_salt letters_encode letters_decode sum_digest (str "alice") w_users
    (w_start (pw_file w_users)) (loaded_from letters_decode w_users (w_start (pw_file w_users)))) as (f' & Hm & Hs).
  - by apply w_users_ok.
  - done.
  - vm_compute. reflexivity.
  - exists f'. split; [exact Hm|]. destruct (Hs (w_start f')) as (sec2 & H1 & _ & H2); [done|].
    exists sec2. split; [exact H1|]. apply H2. by repeat constructor.
Defined.

Definition w_plain : list (bytes * bytes) := [(str "ann", str "tea"); (str "bob", str "milk")].

Lemma passwd_hash_exact_witness :
  ∃ f', passwd_main fixed_salt letters_encode (Some sum_digest) ToolHash (Some (pw_file w_plain)) = Some (0, Some f') ∧
    ∃ sec2, _unpwd_file_parse letters_decode (w_start f') = Some (MOSQ_ERR_SUCCESS, sec2) ∧
      mosquitto_unpwd_check_default (Some sum_digest) sec2 (Some (str "ann")) (Some (str "tea")) = Some MOSQ_ERR_SUCCESS ∧
      mosquitto_unpwd_check_default (Some sum_digest) sec2 (Some (str "eve")) (Some (str "tea")) = Some MOSQ_ERR_AUTH.
Proof.
  destruct (passwd_hash_exact fixed_salt letters_encode letters_decode sum_digest w_plain) as (f' & Hm & Hs).
  - exact sum_crypto.
  - done.
  - apply Forall_cons. split; [|apply Forall_singleton]; (split; [by apply plain_dec..|vm_compute; lia]).
  - apply Forall_cons. split; [|apply Forall_singleton]; intros k x salt s1 s2 [= <-] [= <-] [= <-]; cbn; lia.
  - exists f'. split; [exact Hm|]. destruct (Hs (w_start f')) as (sec2 & H1 & H2); [done|].
    exists sec2. split; [exact H1|]. split.
    + destruct (H2 (str "ann")) as [salt ->]. change (entry_for (str "ann") w_plain) with (Some (str "ann", str "tea")).
      cbv beta iota. by rewrite bool_decide_eq_true_2.
    + by destruct (H2 (str "eve")) as [salt ->].
Defined.
